(* ===== verification/_CoqProject ===== *)
-Q . S2P
Prelude.v
Collections.v
Text.v
F64.v
F32.v
Paths.v
Types.v
Colors.v
Diff.v
Query.v
Scheduler.v
Cache.v
Filter.v
Arrange.v
Report.v
Artifacts.v
Retry.v
Wire.v
Drain.v
Parallel.v
Strict.v
Config.v
Render.v
Terminal.v
Setup.v
Ast.v
Prescan.v
Lint.v
Rewriter.v
Doctest.v
Coverage.v
Collect.v
PyBridge.v
DocAudit.v
Execution.v
Processes.v
Verdict.v
Utf8.v
Pump.v
EditDistance.v
Affected.v
Imports.v
Notices.v
QueryRun.v
Pipeline.v
Graph.v
Builder.v
Explore.v
Detail.v
Inspect.v
Startup.v
View.v
