(* ===== verification/Prelude.v ===== *)
(** * oxitest: a verification development

    oxitest is a Python test runner whose engine is written in Rust (the
    crate under [src/src]).  A run goes through these parts.

    - _Set-up._  The command line is parsed, the root directory is found, the
      [[tool.oxitest]] table and the flags are merged into one configuration
      ([config/], [pipeline/mod.rs]).
    - _Selection._  The coordinator scans test files, asks each filter (node
      ids, last failures, query expressions) which files to import, collects
      the items and filters again ([filter.rs], [query/],
      [pipeline/transitions/]).
    - _Planning._  The selected items are grouped by module, ordered with the
      help of the timing cache, and split into phases: in-process modules,
      buckets that share an arranged fixture, and the remainder
      ([scheduler.rs], [cache/], [pipeline/arrange.rs]).
    - _Execution._  In-process phases run in the coordinator
      ([pipeline/execution.rs]).  The remainder runs on a pool of worker
      processes that take groups from a shared queue and answer with JSON
      lines on stdout ([parallel/], [worker_session.rs], [worker_result/]).
    - _Reporting._  Every outcome reaches a reporter that counts it; failures
      may be retried and become flaky; the counters decide the exit code, and
      the cache is rewritten ([reporter/], [retry.rs], [pipeline/helpers.rs]).
    - _Inspection._  [oxitest inspect] shows the collected tests, marks,
      fixtures, declarations and plugins as a graph in a terminal interface; a
      background session completes the graph while it is shown ([inspect/]).

    ** Files

    - [Prelude], [Collections], [Text], [F64], [F32], [Paths]: tactics, hint
      databases, and the parts of the Rust standard library the program uses:
      index maps, stable sorting and deduplication; string searching,
      splitting and decimal printing; IEEE-754 arithmetic, binary64 for
      durations and binary32 for pane widths; path components and prefixes.
    - [Types]: [types/*.rs].  Node ids, the marker bitset, items, the outcome
      enumeration and its views, exit codes, the failure accumulator.
    - [Query]: [query/*.rs].  The lexer over a byte cursor with spans, the
      recursive-descent parser, validation, evaluation, and the choice of the
      tier that runs without Python.
    - [Scheduler]: [scheduler.rs].  Module and task groups and the queue.
    - [Cache]: [cache/*.rs], [apply_schedule_strategy], [finalize].  The state
      is the record [TestCache]; each method is one definition.
    - [Filter]: [filter.rs], the selection in [pipeline/transitions/], and
      the target predicates of [config/mod.rs].
    - [Arrange]: [pipeline/arrange.rs] and the worker-count policy of
      [config/mod.rs].
    - [Colors]: [colors.rs], [query/highlight.rs].  Styles as a class; the
      highlighter over the tokens of the Python lexer.
    - [Diff]: [reporter/format/diff.rs].  The difference shown for a failed
      comparison, with the scanner that takes collections apart.
    - [Report]: [reporter/{stats,session,exit,traits,composite,outcome_fmt}.rs].
    - [Artifacts]: [reporter/{json,junit}.rs].  The entries of the two report
      files, and the JUnit document as a list of XML events.
    - [Render]: [reporter/format/{diagnostic,summary,suggestions}.rs],
      [reporter/{print,options}.rs], [parallel_context.rs].  The printed texts.
    - [Terminal]: [reporter/{tty,ci,parametrize_buffer}.rs].  The state of the two
      console reporters; what they printed is part of it, and the set of tests in
      flight that a context shares with the coordinator is read from a heap.
    - [Retry]: [retry.rs] and [Pipeline::retry].
    - [Wire]: [worker_result/{wire,convert}.rs] and [build_task].
    - [Drain]: [parallel/drain.rs] and the body of [run_worker_loop]: what one
      worker turn reads from the pipe and sends to the coordinator.
    - [Parallel]: [parallel/mod.rs].  Workers, queue, channel, cancellation
      flag and coordinator as a transition relation [step] on the record
      [Pool]; any interleaving of the threads is a sequence of steps.
    - [Strict]: [strict.rs], [apply_strict_mode], [report_violations].
    - [Config]: [config/{mod,merge,pyproject}.rs], the argument records of
      [config/cli/], [target.rs].  The configuration with its defaults, its two
      sources, their merge, root-directory discovery and loading.
    - [Setup]: [config/cli/{mod,plugin}.rs] and [setup], [run] of
      [pipeline/mod.rs].  From the words of the command line to a configured
      pipeline, the plugin-recovery path included.
    - [Ast]: [python_ast.rs] over the syntax trees of rustpython, as inductive
      types; walks of statements, line numbers of byte offsets.
    - [Prescan]: [prescan.rs] and the prescan transition.  What is known of a
      test file before it is imported.
    - [Lint]: [bare_asserts.rs], [module_defs.rs], [test_returns.rs].
    - [Rewriter]: [assert_rewriter.rs].  The statements that replace an [assert], and
      a compositional semantics of the rewritten language over an interpreter
      whose laws are a class.
    - [Doctest], [Coverage]: [doctest/*.rs].  Examples of a docstring, the public
      names of a module, aliases followed to their definition, and the coverage
      check with its scope filter.
    - [Collect]: [collector.rs] and [pipeline/collection.rs].  Discovery of files,
      registration of declaration homes and collection of items; a call into
      Python is an entry of a trace, its answer a field of a record.
    - [PyBridge]: [bridge.rs], [query/bridge.rs], [reporter/{bridge,plugin}.rs].  Python
      objects as trees, the conversions that read them, what each call is asked and
      how its answer is read.
    - [DocAudit]: the coverage audit of [pipeline/collection.rs] and its use in
      [Pipeline::collect].
    - [Execution]: [pipeline/execution.rs].  The serial dispatch and the
      composition of all phases, over a record [FixtureOps] of the Python
      calls.  The class [PhaseContract] states what a phase promises to the
      composition; the serial dispatch and the pool each discharge it.
    - [Processes]: [parallel/pool.rs] and what [worker_session.rs] and
      [parallel/mod.rs] do to worker processes: the pre-warmed pool, its guard, the
      threads, as one log of events in any interleaving.
    - [Verdict]: no code of its own.  Reporter sessions up to what the exit code
      reads, and the class [ReportContract]: a phase tells the reporter of the
      tests it times, which the serial dispatch and the pool discharge; how many
      failures a run of several phases counts under [--maxfail].
    - [Utf8], [Pump]: [pump_worker_lines] and [decode_worker_line] of
      [worker_session.rs], with the two conversions of the standard library from
      bytes to text: the strict one, and the one that puts U+FFFD in the place of
      what is not UTF-8.
    - [EditDistance]: [edit_distance.rs].
    - [Affected]: [affected.rs], [import_graph.rs].  Git, canonicalisation and
      the imports of a file are parameters.

    - [Imports]: [collect_imports] of [import_graph.rs] over the syntax trees.
    - [Notices]: what a run prints about itself: scheduling lines, the stages of an
      affected selection, the profile of a collection, and log events around a
      progress bar ([reporter/tracing_writer.rs]).
    - [QueryRun]: [query/{extract,format,detail,fzf}.rs] and the rest of
      [query/mod.rs].  A query from source files to printed text.
    - [Pipeline]: [pipeline/transitions/*.rs], [pipeline/helpers.rs] and the
      commands of [pipeline/mod.rs].  A pipeline is the pair of a shared record
      and a phase, each transition one definition; Python is the record
      [Python] of the answers it gives.
    - [Graph], [Builder]: [inspect/graph/*.rs].  The node vectors of
      [InspectGraph], the handles into them, and [GraphBuilder], which adds
      nodes and wires both ends of every edge.
    - [Explore]: [inspect/{nav,overview,signals,search,source}.rs] and the edge
      lists of [inspect/detail/].
    - [Detail]: [inspect/detail/*.rs].  The lines shown for a node.
    - [Inspect]: [inspect/app.rs], [inspect/input.rs].  The state is the record
      [InspectApp]; every handler is one definition.
    - [Startup]: [inspect/mod.rs].  The first graph, the background session and the
      application both start; what a refresh rebuilds.
    - [View]: [inspect/ui.rs] and the event loop of [inspect/app.rs].

    ** What the theorems show

    - _Exit code 0 means green._  A whole run ends with code 0 only when no
      affected file was found or every selected test was executed once and none
      of them stands as a hard failure ([exit_zero_is_green]); its code is a
      function of what [execute] and [retry] told the reporter and of the
      artifacts ([run_exit_code]); and every
      command ends with a code, no transition being called in another phase
      ([run_ends_with_a_code]).
    - _No test is lost or reported twice._  Selection keeps every requested
      item ([metadata_filter_keeps_selected]); grouping, ordering and planning
      permute the items ([group_by_module_partitions],
      [schedule_conserves_modules], [plan_conserves_tests]); a worker turn
      answers each of its items whatever the worker prints
      ([turn_answers_every_item]); each interleaving of the pool reports each
      item once ([parallel_reports_each_test_once]); and so does the whole
      execution ([execute_reports_each_test_once]).
    - _Collection._  The prescan drops exactly the files that parse and in which
      no test is written down ([prescan_drops_only_testless_files]), those that
      could make tests while imported included; the module cache, whatever was
      edited between two runs, changes neither the collected tests nor the
      registered homes
      ([cached_collection_is_transparent], [homes_registered_whatever_the_cache]),
      and never hides an inline declaration
      ([inline_declarations_are_imported]); homes lie between the test file and
      the rootdir package ([rootdir_package_deepest], [registration_chain_exact]).
    - _Syntax._  Usages and strict offences are exactly those of the tree
      ([fx_usages_of_body], [offences_reported_exactly]); line numbers exist
      ([parse_failure_line_exists]).
    - _Documentation tests._  Examples written among prose are read back
      ([docstring_examples_roundtrip]); alias walks end ([alias_walk_ends]); a
      definition is judged on its own docstring
      ([definition_judged_on_its_docstring], [scope_filter_exact]).  The audit
      calls a scope entry stale only on evidence ([entries_judged_on_evidence]),
      fails a run exactly in abort mode ([audit_fails_exactly_under_abort]) and
      does not depend on the targets ([audit_ignores_targets]).
    - _Assertion rewriting._  A rewritten module behaves as the original one, up to
      the temporaries and the class of the exception
      ([rewriting_preserves_behaviour]); every assert that can be captured is
      rewritten ([rewrites_every_capturable_assert]); the lines without message
      are kept by outermost function ([bare_asserts_by_outermost_function]).
    - _Queries._  One parse gives both extractions ([combined_extraction_agrees]);
      tab output is read back ([tab_output_roundtrip]); highlighting keeps the text
      ([highlighting_keeps_the_text]).
    - _Console._  Every failure that stands is listed at the end, in order
      ([terminal_lists_standing_failures]); with [-v] each test is printed once
      ([verbose_prints_each_test]); the entries of continuous integration are
      known exactly ([ci_failures_exact]); a failure always has a block
      ([block_shown_for_each_failure]); differing values always show a difference
      ([diff_silent_iff_equal]) and collections are split at their own commas
      ([elements_roundtrip]); folded diagnostics lose nothing
      ([diagnostics_folded_exactly]); the slowest entries are shown
      ([slowest_are_shown]).
    - _Report files._  Both documents count the same results ([artifacts_agree]);
      the JUnit one is well-formed and keeps each message
      ([junit_document_well_formed], [junit_message_survives]).
    - _Fixture lifetimes._  The modules that share a package or module fixture
      stay in one phase, and in a pool phase in one task, hence on one worker ([package_subtree_in_one_phase],
      [declaring_module_in_one_phase], [group_by_package_colocates]); serial
      teardown calls follow the scopes ([serial_phase_trace]).
    - _Termination._  The pool has no infinite execution and does not deadlock
      ([parallel_phase_ends]); a drain ends within its watchdog
      ([drain_ends_within_watchdog]).
    - _Processes._  Every worker process is reaped once, after it was told to stop,
      whatever the workers do and however the threads interleave
      ([worker_processes_end]); a live pool is used up before a thread spawns
      ([pool_suffices]).
    - _Python boundary._  A result read from an object and the same result read from
      a worker's line give one outcome ([both_paths_agree]); a raised error is an
      outcome ([raised_error_is_an_outcome]); diagnostics are drained all or none
      ([drain_is_all_or_nothing]); flags name their field
      ([plugin_flags_name_their_field]); collection through the boundary satisfies
      what [Collect] assumes of it ([collection_bridge_ok]).
    - _Notices._  The reason printed for the strategy is true with more than one
      worker ([scheduling_reason_needs_two_workers]); a log event is shown once
      ([event_shown_once]).
    - _Results._  The exit code is a function of the last outcome of each test
      ([exit_code_after_retries], [retry_phase_end_to_end]); conversions and
      decodings keep what they carry ([into_outcome_faithful],
      [check_collected_faithful]).
    - _Cache._  What a run writes is what the next run reads back
      ([finalize_last_failed], [merge_timings_entry],
      [module_cache_roundtrip]).
    - _Query language._  The parser accepts exactly the documented grammar and
      inverts printing ([parse_iff_grammar], [compile_show]).
    - _Change-based selection._  [--affected] keeps exactly the files its three
      rules describe ([affected_selection_exact]), and its import rule
      compares top-level packages only ([import_rule_is_top_level]); the imports
      of a file are those of its tree ([collected_imports_exact]).
    - _The inspector never indexes out of range._  The code follows edges and
      handles with unchecked indexing.  Every graph it builds keeps its edges
      inside and their two ends in agreement ([inspector_graph_well_formed],
      [grouping_links_siblings]); every turn of the event loop, whatever the
      keys, the clock and the channel do, keeps every handle valid and draws,
      as long as no refresh is started ([inspector_run_never_panics]); a
      refresh can break this ([refresh_can_leave_stale_handles]).  Moves have
      inverses ([moves_are_undone]); the cursor is kept on screen
      ([cursor_stays_visible], [overview_cursor_marks_selection]) and the panes
      share the width ([panes_share_the_terminal]).  It starts in every project
      ([inspector_starts]).
    - _Configuration._  Every setting takes the flag, then the table, then the
      default ([run_settings_layered], [debug_settings]); a refused table is a
      usage error and nothing else is refused ([load_refuses_only_its_table]);
      the root directory is the nearest marked ancestor, and the walk ends
      ([find_rootdir_nearest]); targets are relative to the invocation
      directory ([targets_resolve_against_invocation_dir]); what reaches the
      pipeline was validated and leaves the project's declarations untouched
      ([setup_ready]); the two readings of plugin flags agree
      ([plugin_flags_split_argv]); scope entries print back
      ([scope_entry_roundtrip]).
    - _Divergences._  [narrowed_run_forgets_unselected],
      [maxfail_restarts_each_phase], [expression_on_param_id_drops_module],
      [refresh_can_leave_stale_handles], [maxfail_zero_keeps_table_limit],
      [bool_flag_value_ignored], [recovery_ignores_environment],
      [quiet_flag_is_ignored], [rootdir_relative_in_non_utf8_cwd],
      [same_module_path_misreports], [ci_drops_longer_ids],
      [flaky_case_of_open_group_is_listed], [terminal_context_names_no_test],
      [last_definition_loses_its_last_line], [flaky_tests_stay_failed_in_artifacts],
      [fx_usages_skip_guards_and_defaults], [inspector_filters_lose_tests],
      [scheduling_reason_needs_two_workers],
      [alias_to_stub_has_no_definition] and
      [bracketed_target_beside_literal_selects_whole_file] state behaviours
      that differ from the documentation, each on every input of its form or
      on a concrete run.

    ** Conventions

    Integers are [nat] or [N] where the code's [usize] cannot overflow on a
    list held in memory, and [Z] with the saturation or cast written out where
    it matters (FNV hashes, failure counts, exit codes, timeouts).  Strings are
    byte strings in UTF-8; [chars] decodes them where the code iterates
    characters.  A [HashMap] whose order is not observed is a [gmap]; an
    [IndexMap] or a vector is a list.  Floats are the binary64 specification
    floats of the Standard Library, so rounding, infinities and NaN are those
    of the machine.

    Fuel: the lexer uses the number of bytes left, the parser a bound on the
    number of tokens, the pump the number of bytes of the stream, the root
    directory walk the number of path components,
    the alias walk the number of names the imports reach, the printer of nested
    frozensets the length of the text; in each case
    the theorems above are about the function at that fuel, and show that it
    is enough.  The drain loops recurse on the list of channel events.

    Panics: where the code indexes a vector without a check, the definition
    returns an [option] and [None] is the panic, so a theorem that says a
    result exists says the panic is unreachable.

    Parameters: the regex and glob engines, the JSON codec, clap, the diff of
    two texts, terminal styles, the Python and TOML parsers and the derived
    deserialiser, file-system queries, running one test in Python, and the
    fixture session.  Theorems that need a law of one of
    them name it as a hypothesis, and their witnesses give an instance.

    ** Not modelled

    Drawing the progress bar and placing text on the screen, the subprocesses of
    [fzf] and the editor, the answers of the operating system to a spawn, and
    file-system access are I/O.  The calls into Python are parameters: their
    requests and answers are modelled, and those that only forward (scope ends,
    plugin loading, coverage) have no
    definition of their own.  The JSON text of the worker payloads is opaque.  The
    Python parser and lexer are third-party crates and parameters. *)
From stdpp Require Export base list gmap strings sorting.
From Stdlib Require Export ZArith Lia.

(** ** Automation shared by the components *)

Create HintDb oxi discriminated.
Create Rewrite HintDb oxi_list.

(** Case analysis on the scrutinee of the first [match] or [if] found. *)
Ltac case_one :=
  match goal with
  | |- context [match ?x with _ => _ end] => destruct x eqn:?
  | H : context [match ?x with _ => _ end] |- _ => destruct x eqn:?
  end.

(** Turn boolean facts into propositions, and close arithmetic goals. *)
Ltac breflect :=
  repeat match goal with
  | H : (_ && _) = true |- _ => apply andb_prop in H as [? ?]
  | H : (_ || _) = false |- _ => apply orb_false_elim in H as [? ?]
  | H : negb _ = true |- _ => apply negb_true_iff in H
  | H : negb _ = false |- _ => apply negb_false_iff in H
  | H : (_ =? _)%Z = true |- _ => apply Z.eqb_eq in H
  | H : (_ =? _)%Z = false |- _ => apply Z.eqb_neq in H
  | H : (_ =? _)%nat = true |- _ => apply Nat.eqb_eq in H
  | H : (_ =? _)%nat = false |- _ => apply Nat.eqb_neq in H
  | H : (_ <=? _)%nat = true |- _ => apply Nat.leb_le in H
  | H : (_ <=? _)%nat = false |- _ => apply Nat.leb_gt in H
  | H : (_ <? _)%nat = true |- _ => apply Nat.ltb_lt in H
  | H : (_ <? _)%nat = false |- _ => apply Nat.ltb_ge in H
  | H : bool_decide _ = true |- _ => apply bool_decide_eq_true_1 in H
  | H : bool_decide _ = false |- _ => apply bool_decide_eq_false_1 in H
  end.

(** ** [Result]: a computation that returns a value or an error *)

Inductive result (A E : Type) : Type :=
  | Ok (a : A)
  | Err (e : E).
Arguments Ok {A E} a.
Arguments Err {A E} e.

Definition result_bind {A B E} (r : result A E) (k : A → result B E) : result B E :=
  match r with
  | Ok a => k a
  | Err e => Err e
  end.

Definition map_err {A E F} (f : E → F) (r : result A E) : result A F :=
  match r with
  | Ok a => Ok a
  | Err e => Err (f e)
  end.

Declare Scope oxi_scope.
Delimit Scope oxi_scope with oxi.
Notation "'let?' x ':=' c 'in' k" := (result_bind c (λ x, k))
  (at level 10, x pattern, c at level 100, k at level 200) : oxi_scope.
Open Scope oxi_scope.

Lemma result_bind_ok {A B E} (r : result A E) (k : A → result B E) b :
  result_bind r k = Ok b ↔ ∃ a, r = Ok a ∧ k a = Ok b.
Proof. destruct r; simpl; naive_solver. Qed.

Lemma result_bind_err {A B E} (r : result A E) (k : A → result B E) e :
  result_bind r k = Err e ↔ r = Err e ∨ ∃ a, r = Ok a ∧ k a = Err e.
Proof. destruct r; simpl; naive_solver. Qed.

(** ** Machine integers *)

(** [usize]/[u64]/[u32] values are kept in [nat] or [Z]; the operations that
    saturate or wrap name their width here. *)
Definition u32_max : Z := 4294967295.
Definition u64_max : Z := 18446744073709551615.
Definition wrap64 (z : Z) : Z := z mod 18446744073709551616.

(** ** Lists *)

(** [iter().find_map(f)]: the first [Some] produced. *)
Fixpoint find_map {A B} (f : A → option B) (l : list A) : option B :=
  match l with
  | [] => None
  | x :: l' => match f x with Some b => Some b | None => find_map f l' end
  end.

Lemma find_map_Some {A B} (f : A → option B) l b :
  find_map f l = Some b → ∃ x, x ∈ l ∧ f x = Some b.
Proof.
  induction l as [|x l IH]; simpl; [done|].
  destruct (f x) eqn:E; intros; simplify_eq.
  - exists x. set_solver.
  - destruct IH as (y & ? & ?); [done|]. exists y. set_solver.
Qed.

Lemma find_map_None {A B} (f : A → option B) l :
  find_map f l = None ↔ ∀ x, x ∈ l → f x = None.
Proof.
  induction l as [|x l IH]; simpl; [set_solver|].
  destruct (f x) eqn:E; [|set_solver].
  split; [done|]. intros H. specialize (H x ltac:(set_solver)). congruence.
Qed.

(** [iter().min_by_key(key)]: the first element with the least key. *)
Fixpoint min_by_key {A} (key : A → nat) (l : list A) : option A :=
  match l with
  | [] => None
  | x :: l' =>
      match min_by_key key l' with
      | None => Some x
      | Some y => if key y <? key x then Some y else Some x
      end
  end.

Lemma min_by_key_Some {A} (key : A → nat) l x :
  min_by_key key l = Some x → x ∈ l ∧ ∀ y, y ∈ l → key x ≤ key y.
Proof.
  revert x. induction l as [|a l IH]; simpl; [done|]. intros x H.
  destruct (min_by_key key l) as [y|] eqn:E.
  - destruct (IH y eq_refl) as [Hy Hmin].
    destruct (key y <? key a) eqn:Hk; breflect; simplify_eq.
    + split; [set_solver|]. intros z [->|Hz]%elem_of_cons; [lia|auto].
    + split; [set_solver|]. intros z [->|Hz]%elem_of_cons; [lia|].
      specialize (Hmin z Hz). lia.
  - simplify_eq. destruct l as [|b l]; simpl in E; [set_solver|].
    destruct (min_by_key key l); [destruct (_ <? _)|]; done.
Qed.

Lemma min_by_key_is_Some {A} (key : A → nat) l x :
  x ∈ l → is_Some (min_by_key key l).
Proof.
  destruct l as [|a l]; simpl; [set_solver|]. intros _.
  destruct (min_by_key key l); [destruct (_ <? _)|]; eauto.
Qed.

Lemma existsb_elem {A} (f : A → bool) l :
  existsb f l = true ↔ ∃ x, x ∈ l ∧ f x = true.
Proof. rewrite existsb_exists. by setoid_rewrite list_elem_of_In. Qed.

Lemma existsb_false {A} (f : A → bool) l :
  existsb f l = false ↔ ∀ x, x ∈ l → f x = false.
Proof.
  rewrite <-not_true_iff_false, existsb_elem. split.
  - intros H x Hx. apply not_true_iff_false. naive_solver.
  - intros H (x & Hx & E). rewrite (H x Hx) in E. done.
Qed.

Lemma forallb_elem {A} (f : A → bool) l :
  forallb f l = true ↔ ∀ x, x ∈ l → f x = true.
Proof. rewrite forallb_forall. by setoid_rewrite list_elem_of_In. Qed.

Lemma filter_elem {A} (f : A → bool) l x :
  x ∈ List.filter f l ↔ x ∈ l ∧ f x = true.
Proof. by rewrite !list_elem_of_In, filter_In. Qed.

Lemma flat_map_elem {A B} (f : A → list B) l b :
  b ∈ flat_map f l ↔ ∃ a, a ∈ l ∧ b ∈ f a.
Proof. rewrite list_elem_of_In, in_flat_map. by setoid_rewrite list_elem_of_In. Qed.

Lemma map_elem {A B} (f : A → B) l b :
  b ∈ map f l ↔ ∃ a, a ∈ l ∧ f a = b.
Proof.
  rewrite list_elem_of_In, in_map_iff. setoid_rewrite list_elem_of_In. naive_solver.
Qed.

#[export] Hint Rewrite @existsb_elem @existsb_false @forallb_elem @filter_elem
  @flat_map_elem @map_elem : oxi_list.

Lemma filter_all {A} (f : A → bool) l :
  (∀ x, x ∈ l → f x = true) → List.filter f l = l.
Proof.
  induction l as [|a l IH]; simpl; [done|]. intros H.
  rewrite (H a) by set_solver. rewrite IH; [done|set_solver].
Qed.

Lemma filter_none {A} (f : A → bool) l :
  (∀ x, x ∈ l → f x = false) → List.filter f l = [].
Proof.
  induction l as [|a l IH]; simpl; [done|]. intros H.
  rewrite (H a) by set_solver. apply IH. set_solver.
Qed.

Lemma filter_filter {A} (f g : A → bool) l :
  List.filter f (List.filter g l) = List.filter (λ x, g x && f x) l.
Proof.
  induction l as [|a l IH]; simpl; [done|].
  destruct (g a); simpl; [destruct (f a)|]; by rewrite IH.
Qed.

(** [iter().partition(f)] splits a list and loses nothing. *)
Lemma partition_as_filters {A} (f : A → bool) l :
  List.partition f l = (List.filter f l, List.filter (λ x, negb (f x)) l).
Proof.
  induction l as [|a l IH]; simpl; [done|]. rewrite IH. by destruct (f a).
Qed.

Lemma filter_split_perm {A} (f : A → bool) l :
  List.filter f l ++ List.filter (λ x, negb (f x)) l ≡ₚ l.
Proof.
  induction l as [|a l IH]; simpl; [done|]. destruct (f a); simpl.
  - by rewrite IH.
  - by rewrite <-Permutation_middle, IH.
Qed.

Lemma flat_map_perm {A B} (f : A → list B) l l' :
  l ≡ₚ l' → flat_map f l ≡ₚ flat_map f l'.
Proof.
  induction 1 as [|x l l' _ IH|x y l|l l' l'' _ IH1 _ IH2]; simpl; [done| | |].
  - by rewrite IH.
  - by rewrite !(assoc_L (++)), (Permutation_app_comm (f y)).
  - by etrans.
Qed.

(** An invariant of every step is one of the loop. *)
Lemma fold_left_inv {A B} (P : A → Prop) (f : A → B → A) l a :
  P a → (∀ a x, P a → P (f a x)) → P (fold_left f l a).
Proof. intros Ha Hf. revert a Ha. induction l as [|x l IH]; intros a Ha; simpl; auto. Qed.

Lemma flat_map_flat_map {A B C} (f : B → list C) (g : A → list B) l :
  flat_map f (flat_map g l) = flat_map (λ x, flat_map f (g x)) l.
Proof. induction l as [|x l IH]; simpl; [done|]. by rewrite flat_map_app, IH. Qed.

Lemma flat_map_concat {A B} (f : A → list B) l : flat_map f l = concat (map f l).
Proof. apply flat_map_concat_map. Qed.

Lemma length_flat_map_sum {A B} (f : A → list B) l :
  length (flat_map f l) = sum_list_with (λ x, length (f x)) l.
Proof. induction l; simpl; [done|]. rewrite length_app. lia. Qed.

(** The last element of a non-empty prefix, and prefix decomposition. *)
Lemma prefix_app_inv {A} (l1 l2 k : list A) :
  l1 `prefix_of` k → l2 `prefix_of` k → l1 `prefix_of` l2 ∨ l2 `prefix_of` l1.
Proof. intros. by apply prefix_weak_total with k. Qed.
