(* ===== verification/Collections.v ===== *)
(** * Collections: the standard-library collection operations the runner uses

    - [sort_by]: Rust's stable [slice::sort_by], as an insertion sort, with the
      laws a comparison must satisfy for the result to be sorted and stable;
    - [group_by]: the [IndexMap::entry(k).or_default().push(v)] idiom, with the
      lemma that characterises the groups it builds;
    - the bucket idiom [buckets[i].push(v)] on a vector of vectors;
    - the lexicographic order of sequences, and [Vec::dedup]. *)
From S2P Require Import Prelude.

(** ** Stable sorting *)

Section Sort.
Context {A : Type} (cmp : A → A → comparison).

Fixpoint insert_by (x : A) (l : list A) : list A :=
  match l with
  | [] => [x]
  | y :: l' => match cmp x y with Gt => y :: insert_by x l' | _ => x :: l end
  end.

Fixpoint sort_by (l : list A) : list A :=
  match l with
  | [] => []
  | x :: l' => insert_by x (sort_by l')
  end.

Lemma insert_by_perm x l : insert_by x l ≡ₚ x :: l.
Proof.
  induction l as [|y l IH]; simpl; [done|]. destruct (cmp x y); [done..|].
  rewrite IH. apply Permutation_swap.
Qed.

Lemma sort_by_perm l : sort_by l ≡ₚ l.
Proof. induction l as [|x l IH]; simpl; [done|]. by rewrite insert_by_perm, IH. Qed.

Lemma sort_by_elem x l : x ∈ sort_by l ↔ x ∈ l.
Proof. by rewrite sort_by_perm. Qed.

(** A comparison is a total preorder on the elements satisfying [P]. *)
Class CmpLaws (P : A → Prop) : Prop := {
  cmp_opp x y : P x → P y → cmp y x = CompOpp (cmp x y);
  cmp_trans x y z : P x → P y → P z → cmp x y ≠ Gt → cmp y z ≠ Gt → cmp x z ≠ Gt
}.

Definition cmp_le (x y : A) : Prop := cmp x y ≠ Gt.

Section Laws.
Context (P : A → Prop) `{!CmpLaws P}.

Lemma insert_by_sorted x l :
  P x → Forall P l → StronglySorted cmp_le l → StronglySorted cmp_le (insert_by x l).
Proof.
  intros Hx HP Hs. induction Hs as [|y l Hs IH Hle]; simpl.
  { by repeat constructor. }
  apply Forall_cons in HP as [Hy HP].
  assert (Hcons : cmp x y ≠ Gt → StronglySorted cmp_le (x :: y :: l)).
  { intros Hxy. constructor; [by constructor|]. constructor; [done|].
    rewrite Forall_forall in Hle, HP |- *. intros z Hz.
    exact (cmp_trans x y z Hx Hy (HP z Hz) Hxy (Hle z Hz)). }
  destruct (cmp x y) eqn:E; [by apply Hcons..|].
  constructor; [by apply IH|]. rewrite Forall_forall. intros z Hz.
  rewrite insert_by_perm, elem_of_cons in Hz. destruct Hz as [->|Hz].
  - unfold cmp_le. rewrite (cmp_opp x y Hx Hy), E. done.
  - rewrite Forall_forall in Hle. auto.
Qed.

Lemma sort_by_sorted l : Forall P l → StronglySorted cmp_le (sort_by l).
Proof.
  induction 1 as [|x l Hx HP IH]; simpl; [constructor|].
  apply insert_by_sorted; [done| |done]. by rewrite sort_by_perm.
Qed.

Definition is_eq (c : comparison) : bool := match c with Eq => true | _ => false end.

(** Elements that compare equal keep their relative order. *)
Lemma insert_by_stable x l z :
  P x → P z → Forall P l →
  List.filter (λ y, is_eq (cmp z y)) (insert_by x l)
  = List.filter (λ y, is_eq (cmp z y)) (x :: l).
Proof.
  intros Hx Hz HP. induction HP as [|y l Hy HP IH]; simpl; [done|].
  destruct (cmp x y) eqn:E; [done..|]. simpl in IH |- *.
  rewrite IH. destruct (cmp z x) eqn:Ezx; simpl; try done.
  destruct (cmp z y) eqn:Ezy; simpl; try done.
  exfalso. apply (cmp_trans x z y Hx Hz Hy); [|by rewrite Ezy|done].
  by rewrite (cmp_opp z x Hz Hx), Ezx.
Qed.

Lemma sort_by_stable l z :
  P z → Forall P l →
  List.filter (λ y, is_eq (cmp z y)) (sort_by l)
  = List.filter (λ y, is_eq (cmp z y)) l.
Proof.
  intros Hz HP. induction HP as [|x l Hx HP IH]; simpl; [done|].
  rewrite insert_by_stable; [|done..|by rewrite sort_by_perm].
  simpl. by rewrite IH.
Qed.
End Laws.
End Sort.

Lemma strongly_sorted_impl {A} (R R' : A → A → Prop) l :
  (∀ x y, R x y → R' x y) → StronglySorted R l → StronglySorted R' l.
Proof.
  intros H. induction 1 as [|x l _ IH Hx]; constructor; [done|].
  eapply Forall_impl; [exact Hx|auto].
Qed.

(** Sorting keyed values is sorting by the comparison of the keys. *)
Lemma sort_by_map {A B} (cmp : B → B → comparison) (f : A → B) l :
  sort_by cmp (map f l) = map f (sort_by (λ x y, cmp (f x) (f y)) l).
Proof.
  induction l as [|x l IH]; simpl; [done|]. rewrite IH. clear IH.
  induction (sort_by _ l) as [|y k IH]; simpl; [done|].
  destruct (cmp (f x) (f y)); simpl; [done..|]. by rewrite IH.
Qed.

(** [sort_by_key] on a boolean key: [false] sorts before [true]. *)
Definition bool_cmp (a b : bool) : comparison :=
  match a, b with
  | false, true => Lt
  | true, false => Gt
  | _, _ => Eq
  end.

Definition sort_by_bool_key {A} (key : A → bool) (l : list A) : list A :=
  sort_by (λ x y, bool_cmp (key x) (key y)) l.

(** Sorting by a boolean key is a stable partition. *)
Lemma sort_by_bool_key_partition {A} (key : A → bool) (l : list A) :
  sort_by_bool_key key l
  = List.filter (λ x, negb (key x)) l ++ List.filter key l.
Proof.
  unfold sort_by_bool_key. induction l as [|x l IH]; simpl; [done|]. rewrite IH.
  destruct (key x) eqn:Kx; simpl.
  - assert (Hgen : ∀ l1 l2,
      (∀ y, y ∈ l1 → key y = false) → (∀ y, y ∈ l2 → key y = true) →
      insert_by (λ x y, bool_cmp (key x) (key y)) x (l1 ++ l2) = l1 ++ x :: l2).
    { induction l1 as [|y l1 IH1]; intros l2 H1 H2; simpl.
      - destruct l2 as [|z l2]; simpl; [done|]. by rewrite Kx, (H2 z) by set_solver.
      - rewrite Kx, (H1 y) by set_solver. simpl. rewrite IH1; [done|set_solver..]. }
    apply Hgen; intros y [_ Hy]%filter_elem; [by apply negb_true_iff|done].
  - destruct (List.filter _ l) as [|y l1] eqn:E; simpl.
    + destruct (List.filter key l) as [|z l2]; simpl; [done|]. rewrite Kx.
      by destruct (key z).
    + rewrite Kx. by destruct (key y).
Qed.

(** ** Grouping in first-seen order *)

Section Group.
Context {K V : Type} (keqb : K → K → bool).

(** [map.entry(k).or_default().push(v)] on an [IndexMap<K, Vec<V>>]. *)
Fixpoint index_push (k : K) (v : V) (m : list (K * list V)) : list (K * list V) :=
  match m with
  | [] => [(k, [v])]
  | (k', vs) :: m' =>
      if keqb k' k then (k', vs ++ [v]) :: m' else (k', vs) :: index_push k v m'
  end.

Definition group_by (key : V → K) (l : list V) : list (K * list V) :=
  fold_left (λ m v, index_push (key v) v m) l [].

Lemma index_push_perm k v m :
  flat_map snd (index_push k v m) ≡ₚ flat_map snd m ++ [v].
Proof.
  induction m as [|[k' vs] m IH]; simpl; [done|].
  destruct (keqb k' k); simpl; [|by rewrite IH, (assoc_L (++))].
  rewrite <-!(assoc_L (++)). apply Permutation_app_head.
  apply Permutation_app_comm.
Qed.

Lemma group_by_perm key l : flat_map snd (group_by key l) ≡ₚ l.
Proof.
  unfold group_by.
  assert (Hgen : ∀ l m, flat_map snd (fold_left (λ m v, index_push (key v) v m) l m)
                        ≡ₚ flat_map snd m ++ l).
  { clear l. induction l as [|v l IH]; intros m; simpl; [by rewrite app_nil_r|].
    rewrite IH, index_push_perm. by rewrite <-(assoc_L (++)). }
  by rewrite Hgen.
Qed.

(** What a grouping of [l] by [key] is: every group is the sublist of [l]
    that has its key, no group is empty and no two groups share a key. *)
Record grouped (key : V → K) (l : list V) (m : list (K * list V)) : Prop := {
  grouped_mem k vs : (k, vs) ∈ m → vs = List.filter (λ v, keqb k (key v)) l;
  grouped_nonempty k vs : (k, vs) ∈ m → vs ≠ [];
  grouped_distinct : NoDup (map fst m) ∧
    ∀ k1 k2, k1 ∈ map fst m → k2 ∈ map fst m → keqb k1 k2 = true → k1 = k2;
  grouped_complete v : v ∈ l → ∃ k vs, (k, vs) ∈ m ∧ keqb k (key v) = true
}.

Section Laws.
Context (keqb_refl : ∀ k, keqb k k = true).
Context (keqb_sym : ∀ k1 k2, keqb k1 k2 = keqb k2 k1).
Context (keqb_trans : ∀ k1 k2 k3, keqb k1 k2 = true → keqb k2 k3 = true → keqb k1 k3 = true).

Lemma index_push_keys k v m k' :
  k' ∈ map fst (index_push k v m) →
  k' ∈ map fst m ∨ (k' = k ∧ ∀ k1, k1 ∈ map fst m → keqb k1 k = false).
Proof.
  induction m as [|[k1 vs] m IH]; simpl.
  { rewrite list_elem_of_singleton. intros ->. right. split; [done|set_solver]. }
  destruct (keqb k1 k) eqn:E; simpl; rewrite !elem_of_cons; [naive_solver|].
  intros [->|H]; [naive_solver|]. destruct (IH H) as [?|[-> Hk]]; [naive_solver|].
  right. split; [done|]. intros k2 [->|?]%elem_of_cons; auto.
Qed.

Lemma index_push_NoDup k v m :
  NoDup (map fst m) → NoDup (map fst (index_push k v m)).
Proof.
  induction m as [|[k1 vs] m IH]; simpl; intros Hnd.
  { apply NoDup_singleton. }
  apply NoDup_cons in Hnd as [Hk1 Hnd].
  destruct (keqb k1 k) eqn:E; simpl; apply NoDup_cons; split; auto.
  intros [?|[-> Hk]]%index_push_keys; [done|]. by rewrite keqb_refl in E.
Qed.

Lemma index_push_elem k v m k' vs' :
  NoDup (map fst m) →
  (∀ k1 k2, k1 ∈ map fst m → k2 ∈ map fst m → keqb k1 k2 = true → k1 = k2) →
  (k', vs') ∈ index_push k v m →
  (keqb k' k = false ∧ (k', vs') ∈ m) ∨
  (keqb k' k = true ∧ ∃ vs, (k', vs) ∈ m ∧ vs' = vs ++ [v]) ∨
  (k' = k ∧ vs' = [v] ∧ ∀ k1, k1 ∈ map fst m → keqb k1 k = false).
Proof.
  induction m as [|[k1 vs] m IH]; simpl; intros Hnd Hd.
  { rewrite list_elem_of_singleton. intros [= -> ->]. do 2 right.
    split; [done|split; [done|set_solver]]. }
  apply NoDup_cons in Hnd as [Hk1 Hnd].
  destruct (keqb k1 k) eqn:E; rewrite elem_of_cons.
  - intros [[= -> ->]|H].
    + right; left. split; [done|]. exists vs. set_solver.
    + left. split; [|set_solver]. apply not_true_iff_false. intros Hk.
      assert (k' = k1) as ->; [|apply Hk1, map_elem; by exists (k1, vs')].
      apply Hd; [|set_solver|].
      * apply elem_of_cons; right. apply map_elem. by exists (k', vs').
      * apply (keqb_trans _ k); [done|]. by rewrite keqb_sym.
  - intros [[= -> ->]|H]; [left; split; [done|set_solver]|].
    destruct IH as [[? ?]|[(? & vs0 & ? & ->)|(-> & -> & Hk)]]; [done|set_solver|done| | |].
    + left. split; [done|set_solver].
    + right; left. split; [done|]. exists vs0. set_solver.
    + right; right. split_and!; [done..|]. intros k2 [->|?]%elem_of_cons; auto.
Qed.

Lemma index_push_grouped key l m v :
  grouped key l m → grouped key (l ++ [v]) (index_push (key v) v m).
Proof.
  intros [Hmem Hne [Hnd Hd] Hc]. split.
  - intros k vs Hin. rewrite List.filter_app; simpl.
    destruct (index_push_elem _ _ _ _ _ Hnd Hd Hin)
      as [[E Hin']|[(E & vs0 & Hin' & ->)|(-> & -> & Hk)]].
    + by rewrite E, app_nil_r, (Hmem k vs).
    + by rewrite E, (Hmem k vs0).
    + rewrite keqb_refl, filter_none; [done|]. intros x Hx.
      destruct (Hc x Hx) as (k & vs & Hin' & Hkx).
      apply not_true_iff_false. intros Hkv.
      assert (keqb k (key v) = true) as E.
      { apply (keqb_trans _ (key x)); [done|]. by rewrite keqb_sym. }
      rewrite Hk in E; [done|]. apply map_elem. by exists (k, vs).
  - intros k vs Hin.
    destruct (index_push_elem _ _ _ _ _ Hnd Hd Hin)
      as [[E Hin']|[(E & vs0 & Hin' & ->)|(-> & -> & Hk)]]; [eauto| |done].
    by destruct vs0.
  - split; [by apply index_push_NoDup|].
    intros k1 k2 H1 H2 E.
    destruct (index_push_keys _ _ _ _ H1) as [?|[-> Hk1]];
      destruct (index_push_keys _ _ _ _ H2) as [?|[-> Hk2]]; [by apply Hd| | |done].
    + rewrite (Hk2 k1) in E; done.
    + rewrite keqb_sym, (Hk1 k2) in E; done.
  - assert (Hmono : ∀ k vs, (k, vs) ∈ m → ∃ vs', (k, vs') ∈ index_push (key v) v m).
    { clear. induction m as [|[k1 vs1] m IH]; simpl; intros k vs; [set_solver|].
      intros [[= -> ->]|H]%elem_of_cons; destruct (keqb k1 (key v)) eqn:E.
      1-3: eexists; apply elem_of_cons; first [by left | by right].
      destruct (IH _ _ H) as [vs' ?]. exists vs'. set_solver. }
    intros x [Hx|Hx]%elem_of_app.
    + destruct (Hc x Hx) as (k & vs & Hin & Hk).
      destruct (Hmono k vs Hin) as [vs' ?]. eauto.
    + apply list_elem_of_singleton in Hx as ->. clear - keqb_refl.
      induction m as [|[k1 vs1] m IH]; simpl.
      * exists (key v), [v]. split; [set_solver|auto].
      * destruct (keqb k1 (key v)) eqn:E.
        -- exists k1, (vs1 ++ [v]). split; [set_solver|done].
        -- destruct IH as (k & vs & ? & ?). exists k, vs. set_solver.
Qed.

Lemma group_by_grouped key l : grouped key l (group_by key l).
Proof.
  unfold group_by.
  assert (Hgen : ∀ l l0 m, grouped key l0 m →
    grouped key (l0 ++ l) (fold_left (λ m v, index_push (key v) v m) l m)).
  { clear l. induction l as [|v l IH]; intros l0 m Hm; simpl.
    - by rewrite app_nil_r.
    - rewrite <-(app_nil_l l), app_comm_cons, (assoc_L (++)).
      by apply IH, index_push_grouped. }
  apply (Hgen l [] []). split; try set_solver.
  split; [constructor|set_solver].
Qed.
End Laws.
End Group.

(** ** Buckets: [buckets[i].push(v)] *)

Definition bucket_push {V} (i : nat) (v : V) (b : list (list V)) : list (list V) :=
  alter (λ vs, vs ++ [v]) i b.

Lemma length_bucket_push {V} i (v : V) b : length (bucket_push i v b) = length b.
Proof. apply length_alter. Qed.

Lemma bucket_push_perm {V} i (v : V) b :
  i < length b → concat (bucket_push i v b) ≡ₚ concat b ++ [v].
Proof.
  unfold bucket_push. revert i. induction b as [|vs b IH]; intros [|i] Hi; simpl in *; try lia.
  - rewrite <-!(assoc_L (++)). apply Permutation_app_head, Permutation_app_comm.
  - change (concat (vs :: alter (λ vs0, vs0 ++ [v]) i b) ≡ₚ (vs ++ concat b) ++ [v]).
    simpl. rewrite IH by lia. by rewrite (assoc_L (++)).
Qed.

Lemma concat_replicate_nil {V} n : concat (replicate n ([] : list V)) = [].
Proof. by induction n. Qed.

(** ** Lexicographic order and deduplication *)

Fixpoint take_while {A} (f : A → bool) (l : list A) : list A :=
  match l with
  | [] => []
  | x :: l => if f x then x :: take_while f l else []
  end.

Fixpoint lex_cmp {A} (cmp : A → A → comparison) (a b : list A) : comparison :=
  match a, b with
  | [], [] => Eq
  | [], _ => Lt
  | _, [] => Gt
  | x :: a', y :: b' => match cmp x y with Eq => lex_cmp cmp a' b' | c => c end
  end.

(** [Vec::dedup]: consecutive equal elements are merged into the first. *)
Fixpoint dedup_from {A} (eqb : A → A → bool) (x : A) (l : list A) : list A :=
  match l with
  | [] => [x]
  | y :: l' => if eqb x y then dedup_from eqb x l' else x :: dedup_from eqb y l'
  end.

Definition dedup {A} (eqb : A → A → bool) (l : list A) : list A :=
  match l with [] => [] | x :: l' => dedup_from eqb x l' end.

Lemma dedup_from_elem {A} (eqb : A → A → bool) (x y : A) l :
  (∀ a b, eqb a b = true ↔ a = b) → y ∈ dedup_from eqb x l ↔ y ∈ x :: l.
Proof.
  intros Heq. revert x. induction l as [|z l IH]; intros x; simpl; [done|].
  destruct (eqb x z) eqn:E; rewrite ?elem_of_cons, IH, ?elem_of_cons; [|done].
  apply Heq in E as ->. tauto.
Qed.

(** Deduplication by equality keeps the members. *)
Lemma dedup_elem {A} (eqb : A → A → bool) (y : A) l :
  (∀ a b, eqb a b = true ↔ a = b) → y ∈ dedup eqb l ↔ y ∈ l.
Proof. intros Heq. destruct l; [done|]. by apply dedup_from_elem. Qed.
