(* ===== verification/Text.v ===== *)
(** * Text: the operations of Rust's [str] and [char] the runner uses

    A Rust [str] is a sequence of UTF-8 bytes and is modelled by [string],
    whose [ascii] cells are those bytes; [len()] is [String.length].  A [char]
    is a Unicode scalar value, modelled by its code point in [N].  [chars] and
    [of_chars] are UTF-8 decoding and encoding; the operations that look at
    characters ([trim], the query lexer, the edit distance) go through them.
    Separators are ASCII in every call of the sources, so splitting and prefix
    tests act on bytes. *)
From Stdlib Require Import Ascii.
From S2P Require Import Prelude.

(** ** Append *)

Lemma str_app_nil_l s : "" +:+ s = s.
Proof. done. Qed.

Lemma str_app_cons c a b : String c a +:+ b = String c (a +:+ b).
Proof. done. Qed.

Lemma str_app_nil_r s : s +:+ "" = s.
Proof. induction s as [|c s IH]; [done|]. by rewrite str_app_cons, IH. Qed.

Lemma str_app_assoc a b c : (a +:+ b) +:+ c = a +:+ b +:+ c.
Proof. induction a as [|x a IH]; [done|]. by rewrite !str_app_cons, IH. Qed.

Lemma str_app_inv_l a b c : a +:+ b = a +:+ c → b = c.
Proof.
  induction a as [|x a IH]; [done|]. rewrite !str_app_cons. intros [= H]. auto.
Qed.

Lemma str_length_app a b : String.length (a +:+ b) = String.length a + String.length b.
Proof. induction a as [|x a IH]; [done|]. rewrite str_app_cons. simpl. by rewrite IH. Qed.

Lemma list_ascii_app a b :
  String.list_ascii_of_string (a +:+ b)
  = String.list_ascii_of_string a ++ String.list_ascii_of_string b.
Proof. induction a as [|x a IH]; [done|]. rewrite str_app_cons. simpl. by rewrite IH. Qed.

Lemma str_app_eq_nil a b : a +:+ b = "" → a = "" ∧ b = "".
Proof. destruct a; [done|]. by rewrite str_app_cons. Qed.

#[export] Hint Rewrite str_app_nil_l str_app_cons str_app_nil_r str_app_assoc
  str_length_app : oxi_list.

(** [a] and [b] of the same length in [a +:+ c = b +:+ d]. *)
Lemma str_app_split a b c d :
  a +:+ c = b +:+ d → String.length a = String.length b → a = b ∧ c = d.
Proof.
  revert b. induction a as [|x a IH]; intros [|y b]; rewrite ?str_app_cons; simpl; try done.
  intros [= -> H] [= Hl]. by destruct (IH b H Hl) as [-> ->].
Qed.

(** ** Prefixes, suffixes, substrings *)

(** [s.strip_prefix(p)] *)
Fixpoint strip_prefix (p s : string) : option string :=
  match p, s with
  | "", _ => Some s
  | String a p', String b s' => if Ascii.eqb a b then strip_prefix p' s' else None
  | String _ _, "" => None
  end.

(** [s.starts_with(p)] *)
Definition starts_with (p s : string) : bool :=
  match strip_prefix p s with Some _ => true | None => false end.

(** [s.ends_with(p)] *)
Fixpoint ends_with (p s : string) : bool :=
  if String.eqb s p then true
  else match s with "" => false | String _ s' => ends_with p s' end.

(** [s.contains(p)] *)
Fixpoint contains (p s : string) : bool :=
  if starts_with p s then true
  else match s with "" => false | String _ s' => contains p s' end.

Lemma strip_prefix_Some p s r : strip_prefix p s = Some r ↔ s = p +:+ r.
Proof.
  revert s. induction p as [|a p IH]; intros s; simpl.
  - rewrite str_app_nil_l. naive_solver.
  - destruct s as [|b s]; rewrite str_app_cons; [done|].
    destruct (Ascii.eqb_spec a b) as [->|Hne]; [rewrite IH; naive_solver|naive_solver].
Qed.

Lemma strip_prefix_app p r : strip_prefix p (p +:+ r) = Some r.
Proof. by apply strip_prefix_Some. Qed.

Lemma starts_with_true p s : starts_with p s = true ↔ ∃ r, s = p +:+ r.
Proof.
  unfold starts_with. destruct (strip_prefix p s) as [r|] eqn:E.
  - apply strip_prefix_Some in E. naive_solver.
  - split; [done|]. intros [r Hr]. apply strip_prefix_Some in Hr. congruence.
Qed.

Lemma starts_with_app p r : starts_with p (p +:+ r) = true.
Proof. apply starts_with_true. eauto. Qed.

Lemma starts_with_refl p : starts_with p p = true.
Proof. apply starts_with_true. exists "". by rewrite str_app_nil_r. Qed.

Lemma starts_with_trans p q s :
  starts_with p q = true → starts_with q s = true → starts_with p s = true.
Proof.
  rewrite !starts_with_true. intros [r ->] [r' ->]. rewrite str_app_assoc. eauto.
Qed.

Lemma ends_with_unfold p s :
  ends_with p s =
  if String.eqb s p then true else match s with "" => false | String _ s' => ends_with p s' end.
Proof. by destruct s. Qed.

Lemma contains_unfold p s :
  contains p s =
  if starts_with p s then true else match s with "" => false | String _ s' => contains p s' end.
Proof. by destruct s. Qed.

Lemma ends_with_true p s : ends_with p s = true ↔ ∃ r, s = r +:+ p.
Proof.
  induction s as [|c s IH]; rewrite ends_with_unfold;
    match goal with |- context [String.eqb ?a p] => destruct (String.eqb_spec a p) as [<-|Hne] end.
  - split; [|done]. intros _. by exists "".
  - split; [done|]. intros [[|? r] Hr]; [|done]. done.
  - split; [|done]. intros _. by exists "".
  - rewrite IH. split.
    + intros [r ->]. by exists (String c r).
    + intros [[|c' r] Hr]; [done|]. rewrite str_app_cons in Hr.
      injection Hr as _ Hr. by exists r.
Qed.

Lemma contains_true p s : contains p s = true ↔ ∃ a b, s = a +:+ p +:+ b.
Proof.
  induction s as [|c s IH]; rewrite contains_unfold; destruct (starts_with p _) eqn:E.
  - apply starts_with_true in E as [r E]. split; [|done]. intros _. by exists "", r.
  - split; [done|]. intros (a & b & Hab). symmetry in Hab.
    apply str_app_eq_nil in Hab as [-> [-> ->]%str_app_eq_nil]. done.
  - apply starts_with_true in E as [r E]. split; [|done]. intros _. by exists "", r.
  - rewrite IH. split.
    + intros (a & b & ->). by exists (String c a), b.
    + intros ([|x a] & b & Hab).
      * rewrite str_app_nil_l in Hab. rewrite Hab, starts_with_app in E. done.
      * rewrite str_app_cons in Hab. injection Hab as _ Hab. by exists a, b.
Qed.

Lemma contains_nil s : contains "" s = true.
Proof. apply contains_true. exists "", s. done. Qed.

Lemma starts_with_contains p s : starts_with p s = true → contains p s = true.
Proof. rewrite starts_with_true, contains_true. intros [r ->]. by exists "", r. Qed.

Lemma contains_app_r p a b : contains p a = true → contains p (a +:+ b) = true.
Proof.
  rewrite !contains_true. intros (x & y & ->). exists x, (y +:+ b).
  by rewrite !str_app_assoc.
Qed.

(** ** Splitting *)

(** [s.split_once(sep)] *)
Fixpoint split_once (sep s : string) : option (string * string) :=
  match strip_prefix sep s with
  | Some rest => Some ("", rest)
  | None =>
      match s with
      | "" => None
      | String c s' =>
          match split_once sep s' with
          | Some (a, b) => Some (String c a, b)
          | None => None
          end
      end
  end.

Lemma split_once_unfold sep s :
  split_once sep s =
  match strip_prefix sep s with
  | Some rest => Some ("", rest)
  | None =>
      match s with
      | "" => None
      | String c s' =>
          match split_once sep s' with Some (a, b) => Some (String c a, b) | None => None end
      end
  end.
Proof. by destruct s. Qed.

Lemma split_once_Some sep s a b :
  split_once sep s = Some (a, b) → s = a +:+ sep +:+ b.
Proof.
  revert a b. induction s as [|c s IH]; intros a b; rewrite split_once_unfold;
    destruct (strip_prefix sep _) as [r|] eqn:E.
  - apply strip_prefix_Some in E. naive_solver.
  - done.
  - apply strip_prefix_Some in E. naive_solver.
  - destruct (split_once sep s) as [[x y]|]; [|done]. intros [= <- <-].
    rewrite str_app_cons. f_equal. by apply IH.
Qed.

Lemma split_once_None sep s : split_once sep s = None ↔ contains sep s = false.
Proof.
  induction s as [|c s IH]; rewrite split_once_unfold, contains_unfold;
    unfold starts_with; destruct (strip_prefix sep _) eqn:E; try done.
  rewrite <-IH. destruct (split_once sep s) as [[??]|]; naive_solver.
Qed.

(** The split is at the first occurrence: the separator does not occur in the
    first half followed by all but the last byte of the separator. *)
Lemma split_once_first sep a b :
  sep ≠ "" →
  (∀ x y, a +:+ sep = x +:+ sep +:+ y → y = "") →
  split_once sep (a +:+ sep +:+ b) = Some (a, b).
Proof.
  intros Hsep. induction a as [|c a IH]; intros Hfirst; rewrite split_once_unfold.
  { by rewrite str_app_nil_l, strip_prefix_app. }
  rewrite str_app_cons.
  destruct (strip_prefix sep (String c (a +:+ sep +:+ b))) as [r|] eqn:E.
  - exfalso. apply strip_prefix_Some in E.
    assert (∃ y, String c a +:+ sep = sep +:+ y ∧ y ≠ "") as (y & Hy & Hne).
    { rewrite <-str_app_cons, <-str_app_assoc in E.
      assert (Hlen : ∀ u v w z, u +:+ v = w +:+ z → String.length w < String.length u →
        ∃ t, u = w +:+ t ∧ t ≠ "").
      { clear. intros u v w. revert u. induction w as [|x w IHw]; intros u z H Hl.
        - exists u. split; [done|]. intros ->. simpl in Hl. lia.
        - destruct u as [|x' u]; simpl in Hl; [lia|].
          rewrite !str_app_cons in H. injection H as -> H.
          destruct (IHw u z H) as (t & -> & ?); [lia|]. exists t. by rewrite str_app_cons. }
      apply (Hlen _ _ _ _ E). rewrite str_length_app. simpl. lia. }
    apply Hne, (Hfirst ""). by rewrite str_app_nil_l.
  - rewrite IH; [done|]. intros x y Hxy. apply (Hfirst (String c x)).
    by rewrite !str_app_cons, Hxy.
Qed.

(** [s.split(sep).collect()]; the fuel is the length of [s] plus one, and each
    step removes a separator, so a non-empty [sep] never exhausts it. *)
Fixpoint split_fuel (n : nat) (sep s : string) : list string :=
  match n with
  | 0 => [s]
  | S n' =>
      match split_once sep s with
      | None => [s]
      | Some (a, b) => a :: split_fuel n' sep b
      end
  end.

Definition split (sep s : string) : list string := split_fuel (S (String.length s)) sep s.

(** [parts.join(sep)] *)
Definition join (sep : string) (parts : list string) : string := String.concat sep parts.

Lemma join_cons sep a l :
  l ≠ [] → join sep (a :: l) = a +:+ sep +:+ join sep l.
Proof. destruct l; [done|]. done. Qed.

Lemma split_fuel_nonnil n sep s : split_fuel n sep s ≠ [].
Proof. destruct n; simpl; [done|]. by destruct (split_once sep s) as [[??]|]. Qed.

Lemma join_split_fuel n sep s : join sep (split_fuel n sep s) = s.
Proof.
  revert s. induction n as [|n IH]; intros s; simpl; [done|].
  destruct (split_once sep s) as [[a b]|] eqn:E; [|done].
  rewrite join_cons by apply split_fuel_nonnil.
  rewrite IH. by apply split_once_Some in E.
Qed.

(** Joining the parts of a split gives the string back. *)
Lemma join_split sep s : join sep (split sep s) = s.
Proof. apply join_split_fuel. Qed.

(** No part of a split holds the separator: the fuel is enough. *)
Lemma split_fuel_parts n sep s p :
  sep ≠ "" → String.length s < n → p ∈ split_fuel n sep s →
  ∃ q, split_once sep q = None ∧ p = q ∨ ∃ b, split_once sep q = Some (p, b).
Proof.
  intros Hsep. revert s. induction n as [|n IH]; intros s Hn; simpl; [lia|].
  destruct (split_once sep s) as [[a b]|] eqn:E.
  - intros [->|Hp]%elem_of_cons; [eauto|]. apply (IH b); [|done].
    apply split_once_Some in E as ->. rewrite !str_length_app in Hn.
    destruct sep; [done|]. simpl in Hn. lia.
  - intros ->%list_elem_of_singleton. eauto.
Qed.

(** *** Splitting at one character *)

Section SplitChar.
Context (c : ascii).
Abbreviation sep := (String c "").

Lemma contains_char_cons a s :
  contains sep (String a s) = Ascii.eqb c a || contains sep s.
Proof.
  rewrite contains_unfold. unfold starts_with. simpl. by destruct (Ascii.eqb c a).
Qed.

Lemma split_once_char_l s a b : split_once sep s = Some (a, b) → contains sep a = false.
Proof.
  revert a b. induction s as [|x s IH]; intros a b; rewrite split_once_unfold; simpl; [done|].
  destruct (Ascii.eqb c x) eqn:Hx; [by intros [= <- _]|].
  destruct (split_once sep s) as [[u v]|] eqn:E; [|done]. intros [= <- <-].
  by rewrite contains_char_cons, (IH u v), Hx.
Qed.

Lemma split_once_char_app a b :
  contains sep a = false → split_once sep (a +:+ sep +:+ b) = Some (a, b).
Proof.
  induction a as [|x a IH]; intros Ha; rewrite split_once_unfold.
  - rewrite str_app_nil_l, strip_prefix_app. done.
  - rewrite contains_char_cons in Ha. apply orb_false_elim in Ha as [Hx Ha].
    rewrite str_app_cons. simpl. by rewrite Hx, IH.
Qed.

Lemma split_fuel_char_parts n s p :
  String.length s < n → p ∈ split_fuel n sep s → contains sep p = false.
Proof.
  revert s. induction n as [|n IH]; intros s Hn; simpl; [lia|].
  destruct (split_once sep s) as [[a b]|] eqn:E.
  - intros [->|Hp]%elem_of_cons; [by eapply split_once_char_l|]. apply (IH b); [|done].
    apply split_once_Some in E as ->. rewrite !str_length_app in Hn. simpl in Hn. lia.
  - intros ->%list_elem_of_singleton. by apply split_once_None.
Qed.

(** No part of a split holds the separator. *)
Lemma split_char_parts s p : p ∈ split sep s → contains sep p = false.
Proof. apply split_fuel_char_parts. lia. Qed.

Lemma split_fuel_join_char n l :
  l ≠ [] → Forall (λ p, contains sep p = false) l → String.length (join sep l) < n →
  split_fuel n sep (join sep l) = l.
Proof.
  revert l. induction n as [|n IH]; intros l Hl HF Hn; [lia|]. simpl.
  destruct HF as [|p l Hp HF]; [done|]. destruct l as [|q l].
  - change (join sep [p]) with p. by apply split_once_None in Hp as ->.
  - rewrite join_cons in Hn |- * by done. rewrite split_once_char_app by done. f_equal.
    apply IH; [done..|]. rewrite !str_length_app in Hn. cbn [String.length] in Hn. lia.
Qed.

(** Splitting inverts joining parts that do not hold the separator. *)
Lemma split_join_char l :
  l ≠ [] → Forall (λ p, contains sep p = false) l → split sep (join sep l) = l.
Proof. intros Hl HF. apply split_fuel_join_char; [done..|lia]. Qed.
End SplitChar.

(** ** Characters *)

Abbreviation char := N (only parsing).

(** UTF-8 decoding, [s.chars().collect()].  Continuation bytes are read
    without checks: a Rust [str] is always valid UTF-8. *)
Definition cont (a : ascii) : N := (N_of_ascii a - 128)%N.

Fixpoint chars (s : string) : list char :=
  match s with
  | "" => []
  | String a s1 =>
      let b := N_of_ascii a in
      if (b <? 128)%N then b :: chars s1
      else match s1 with
      | "" => [65533%N]
      | String a2 s2 =>
          if (b <? 224)%N then ((b - 192) * 64 + cont a2)%N :: chars s2
          else match s2 with
          | "" => [65533%N]
          | String a3 s3 =>
              if (b <? 240)%N
              then ((b - 224) * 4096 + cont a2 * 64 + cont a3)%N :: chars s3
              else match s3 with
              | "" => [65533%N]
              | String a4 s4 =>
                  ((b - 240) * 262144 + cont a2 * 4096 + cont a3 * 64 + cont a4)%N :: chars s4
              end
          end
      end
  end.

(** [c.len_utf8()] *)
Definition len_utf8 (c : char) : nat :=
  if (c <? 128)%N then 1 else if (c <? 2048)%N then 2 else if (c <? 65536)%N then 3 else 4.

Definition byte (n : N) : ascii := ascii_of_N n.

(** UTF-8 encoding of one character. *)
Definition encode_utf8 (c : char) : string :=
  if (c <? 128)%N then String (byte c) ""
  else if (c <? 2048)%N then
    String (byte (192 + c / 64)) (String (byte (128 + c mod 64)) "")
  else if (c <? 65536)%N then
    String (byte (224 + c / 4096)) (String (byte (128 + c / 64 mod 64))
      (String (byte (128 + c mod 64)) ""))
  else
    String (byte (240 + c / 262144)) (String (byte (128 + c / 4096 mod 64))
      (String (byte (128 + c / 64 mod 64)) (String (byte (128 + c mod 64)) ""))).

(** [chars.iter().collect::<String>()] *)
Definition of_chars (l : list char) : string := foldr (λ c s, encode_utf8 c +:+ s) "" l.

Lemma byte_val n : (n < 256)%N → N_of_ascii (byte n) = n.
Proof. apply N_ascii_embedding. Qed.

(** Decoding undoes encoding, for every code point of Unicode. *)
Lemma chars_encode c s : (c < 1114112)%N → chars (encode_utf8 c +:+ s) = c :: chars s.
Proof.
  intros Hc. unfold encode_utf8.
  assert (c / 4096 = c / 64 / 64)%N as E1 by (rewrite N.Div0.div_div; done).
  assert (c / 262144 = c / 64 / 64 / 64)%N as E2 by (rewrite !N.Div0.div_div; done).
  rewrite E1, E2. clear E1 E2.
  pose proof (N.mod_upper_bound c 64 ltac:(done)) as M0.
  pose proof (N.mod_upper_bound (c / 64) 64 ltac:(done)) as M1.
  pose proof (N.mod_upper_bound (c / 64 / 64) 64 ltac:(done)) as M2.
  pose proof (N.div_mod c 64 ltac:(done)) as D0.
  pose proof (N.div_mod (c / 64) 64 ltac:(done)) as D1.
  pose proof (N.div_mod (c / 64 / 64) 64 ltac:(done)) as D2.
  revert M0 M1 M2 D0 D1 D2.
  generalize (c / 64 / 64 / 64)%N (c / 64 / 64)%N (c / 64)%N
    (c mod 64)%N (c / 64 mod 64)%N (c / 64 / 64 mod 64)%N.
  intros q3 q2 q1 r0 r1 r2 M0 M1 M2 D0 D1 D2.
  destruct (N.ltb_spec c 128); [|destruct (N.ltb_spec c 2048);
    [|destruct (N.ltb_spec c 65536)]];
    rewrite !str_app_cons, str_app_nil_l; simpl; unfold cont; rewrite !byte_val by lia;
    repeat match goal with
    | |- context [(?a <? ?b)%N] => destruct (N.ltb_spec a b); try lia
    end; f_equal; lia.
Qed.

Lemma chars_of_chars l : Forall (λ c, c < 1114112)%N l → chars (of_chars l) = l.
Proof.
  induction 1 as [|c l Hc _ IH]; simpl; [done|]. by rewrite chars_encode, IH.
Qed.

Lemma of_chars_app l1 l2 : of_chars (l1 ++ l2) = of_chars l1 +:+ of_chars l2.
Proof.
  induction l1 as [|c l1 IH]; simpl; [done|]. by rewrite IH, str_app_assoc.
Qed.

(** [char::is_whitespace]: the Unicode [White_Space] property. *)
Definition is_whitespace (c : char) : bool :=
  ((9 <=? c) && (c <=? 13) || (c =? 32) || (c =? 133) || (c =? 160) || (c =? 5760)
   || (8192 <=? c) && (c <=? 8202) || (c =? 8232) || (c =? 8233) || (c =? 8239)
   || (c =? 8287) || (c =? 12288))%N.

(** [char::is_ascii_whitespace]: space, tab, LF, FF, CR. *)
Definition is_ascii_whitespace (c : char) : bool :=
  ((c =? 32) || (c =? 9) || (c =? 10) || (c =? 12) || (c =? 13))%N.

Definition is_ascii_alphanumeric (c : char) : bool :=
  ((48 <=? c) && (c <=? 57) || (65 <=? c) && (c <=? 90) || (97 <=? c) && (c <=? 122))%N.

Fixpoint drop_while {A} (f : A → bool) (l : list A) : list A :=
  match l with
  | [] => []
  | x :: l' => if f x then drop_while f l' else l
  end.

(** [s.strip_suffix(suffix)] *)
Definition strip_suffix (suffix s : string) : option string :=
  if ends_with suffix s then Some (String.substring 0 (String.length s - String.length suffix) s)
  else None.

(** [s.trim_start()] *)
Definition trim_start (s : string) : string := of_chars (drop_while is_whitespace (chars s)).

(** [s.trim()] *)
Definition trim (s : string) : string :=
  of_chars (reverse (drop_while is_whitespace
    (reverse (drop_while is_whitespace (chars s))))).

(** ** Lines and ASCII case *)

Definition ascii_lower (a : ascii) : ascii :=
  let n := nat_of_ascii a in
  if (65 <=? n)%nat && (n <=? 90)%nat then ascii_of_nat (n + 32) else a.

(** [s.to_ascii_lowercase()] *)
Fixpoint to_ascii_lowercase (s : string) : string :=
  match s with "" => "" | String a s' => String (ascii_lower a) (to_ascii_lowercase s') end.

Definition newline : string := String (ascii_of_nat 10) "".
Definition carriage_return : string := String (ascii_of_nat 13) "".

Definition strip_cr (l : string) : string :=
  if ends_with carriage_return l then String.substring 0 (String.length l - 1) l else l.

(** [s.lines()]: a final empty piece is not a line, and a carriage return
    before a newline is dropped. *)
Fixpoint lines_of (pieces : list string) : list string :=
  match pieces with
  | [] => []
  | [last] => if String.eqb last "" then [] else [last]
  | p :: rest => strip_cr p :: lines_of rest
  end.

Definition str_lines (s : string) : list string := lines_of (split newline s).

(** [name.rsplit(sep).next()]: what follows the last separator. *)
Fixpoint after_last (sep s : string) : option string :=
  match s with
  | "" => None
  | String _ s' => match after_last sep s' with Some r => Some r | None => strip_prefix sep s end
  end.

Definition rsplit_next (sep s : string) : string := default s (after_last sep s).
