(* ===== verification/F64.v ===== *)
(** * F64: IEEE-754 binary64 as the durations use it

    Durations are [f64] milliseconds ([DurationMs] in [src/types/node_id.rs]).
    They are modelled by the standard library's executable specification floats
    with the parameters of binary64, so that sums, comparisons and casts round
    and saturate exactly as the machine does; no real-number idealisation is
    made.  [partial_cmp] is [None] on NaN only, and on the other values it is a
    total preorder, which is what the schedulers' sorts need. *)
From Stdlib Require Export SpecFloat.
From S2P Require Import Prelude.

Abbreviation f64 := spec_float (only parsing).

Definition prec64 : Z := 53.
Definition emax64 : Z := 1024.

Definition f64_zero : f64 := S754_zero false.
Definition f64_add (x y : f64) : f64 := SFadd prec64 emax64 x y.
Definition f64_sub (x y : f64) : f64 := SFsub prec64 emax64 x y.
Definition f64_mul (x y : f64) : f64 := SFmul prec64 emax64 x y.
Definition f64_div (x y : f64) : f64 := SFdiv prec64 emax64 x y.

(** [n as f64] for an integer: the nearest float, ties to even. *)
Definition f64_of_Z (n : Z) : f64 := binary_normalize prec64 emax64 n 0 false.

Definition is_nan (x : f64) : bool := match x with S754_nan => true | _ => false end.

(** [a.partial_cmp(&b)] *)
Definition partial_cmp (x y : f64) : option comparison := SFcompare x y.

(** [a.partial_cmp(&b).unwrap_or(Ordering::Equal)] *)
Definition cmp_or_equal (x y : f64) : comparison :=
  match partial_cmp x y with Some c => c | None => Eq end.

(** [a > b] *)
Definition f64_gt (x y : f64) : bool :=
  match partial_cmp x y with Some Gt => true | _ => false end.

(** Magnitude of a finite float, truncated ([trunc_mag]) or rounded up. *)
Definition trunc_mag (m : positive) (e : Z) : Z :=
  if (0 <=? e)%Z then (Zpos m * 2 ^ e)%Z else (Zpos m / 2 ^ (- e))%Z.

Definition ceil_mag (m : positive) (e : Z) : Z :=
  if (0 <=? e)%Z then (Zpos m * 2 ^ e)%Z else (- ((- Zpos m) / 2 ^ (- e)))%Z.

(** [x as u64] and [x as usize] (64-bit): truncation toward zero, saturating at
    the bounds, NaN to zero. *)
Definition as_u64 (x : f64) : Z :=
  match x with
  | S754_finite false m e => Z.min (trunc_mag m e) u64_max
  | S754_infinity false => u64_max
  | _ => 0
  end.

(** [x.ceil() as u64]: [ceil] of a negative number is at most zero. *)
Definition ceil_as_u64 (x : f64) : Z :=
  match x with
  | S754_finite false m e => Z.min (ceil_mag m e) u64_max
  | S754_infinity false => u64_max
  | _ => 0
  end.

Lemma as_u64_bounds x : (0 ≤ as_u64 x ≤ u64_max)%Z.
Proof.
  assert (0 ≤ u64_max)%Z by (unfold u64_max; lia).
  destruct x as [| [] | | [] m e]; simpl; try lia. unfold trunc_mag.
  destruct (Z.leb_spec 0 e).
  - assert (0 < 2 ^ e)%Z by (apply Z.pow_pos_nonneg; lia). lia.
  - assert (0 ≤ Zpos m / 2 ^ (- e))%Z by (apply Z.div_pos; [|apply Z.pow_pos_nonneg]; lia). lia.
Qed.

Lemma ceil_mag_pos m e : (1 ≤ ceil_mag m e)%Z.
Proof.
  unfold ceil_mag. destruct (Z.leb_spec 0 e).
  - assert (0 < 2 ^ e)%Z by (apply Z.pow_pos_nonneg; lia). lia.
  - assert (0 < 2 ^ (- e))%Z by (apply Z.pow_pos_nonneg; lia).
    assert ((- Zpos m) / 2 ^ (- e) < 0)%Z; [|lia].
    apply Z.div_lt_upper_bound; lia.
Qed.

Lemma ceil_as_u64_bounds x : (0 ≤ ceil_as_u64 x ≤ u64_max)%Z.
Proof.
  assert (1 ≤ u64_max)%Z by (unfold u64_max; lia).
  destruct x as [| [] | | [] m e]; simpl; try lia. pose proof (ceil_mag_pos m e). lia.
Qed.

(** ** The order *)

(** A non-NaN float ordered by class, then exponent, then mantissa: the
    structural order [SFcompare] decides. *)
Definition rank (x : f64) : Z * (Z * Z) :=
  match x with
  | S754_infinity true => (-2, (0, 0))
  | S754_finite true m e => (-1, (- e, Zneg m))
  | S754_zero _ => (0, (0, 0))
  | S754_finite false m e => (1, (e, Zpos m))
  | S754_infinity false => (2, (0, 0))
  | S754_nan => (0, (0, 0))
  end%Z.

Definition lex3 (a b : Z * (Z * Z)) : comparison :=
  match Z.compare a.1 b.1 with
  | Eq => match Z.compare a.2.1 b.2.1 with Eq => Z.compare a.2.2 b.2.2 | c => c end
  | c => c
  end.

Lemma lex3_opp a b : lex3 b a = CompOpp (lex3 a b).
Proof.
  destruct a as [a1 [a2 a3]], b as [b1 [b2 b3]]. unfold lex3. simpl.
  rewrite (Z.compare_antisym a1 b1), (Z.compare_antisym a2 b2), (Z.compare_antisym a3 b3).
  destruct (a1 ?= b1)%Z, (a2 ?= b2)%Z; done.
Qed.

Lemma lex3_le a b :
  lex3 a b ≠ Gt ↔
  (a.1 < b.1 ∨ a.1 = b.1 ∧ (a.2.1 < b.2.1 ∨ a.2.1 = b.2.1 ∧ a.2.2 ≤ b.2.2))%Z.
Proof.
  destruct a as [a1 [a2 a3]], b as [b1 [b2 b3]]. unfold lex3. simpl.
  destruct (Z.compare_spec a1 b1), (Z.compare_spec a2 b2), (Z.compare_spec a3 b3);
    split; intros; try lia; try done.
Qed.

Lemma lex3_trans a b c : lex3 a b ≠ Gt → lex3 b c ≠ Gt → lex3 a c ≠ Gt.
Proof. rewrite !lex3_le. lia. Qed.

Lemma partial_cmp_rank x y :
  is_nan x = false → is_nan y = false → partial_cmp x y = Some (lex3 (rank x) (rank y)).
Proof.
  destruct x as [| [] | | [] m e], y as [| [] | | [] m' e']; intros; try done;
    unfold partial_cmp, lex3; simpl; try done.
  rewrite (Z.compare_opp e e'), (Z.compare_antisym e e').
  destruct (e ?= e')%Z; simpl; [|done..].
  done.
Qed.

Lemma cmp_or_equal_rank x y :
  is_nan x = false → is_nan y = false → cmp_or_equal x y = lex3 (rank x) (rank y).
Proof. intros. unfold cmp_or_equal. by rewrite partial_cmp_rank. Qed.

(** On non-NaN floats the comparison is antisymmetric and transitive. *)
Lemma cmp_or_equal_opp x y :
  is_nan x = false → is_nan y = false → cmp_or_equal y x = CompOpp (cmp_or_equal x y).
Proof. intros. rewrite !cmp_or_equal_rank by done. apply lex3_opp. Qed.

Lemma cmp_or_equal_trans x y z :
  is_nan x = false → is_nan y = false → is_nan z = false →
  cmp_or_equal x y ≠ Gt → cmp_or_equal y z ≠ Gt → cmp_or_equal x z ≠ Gt.
Proof. intros. rewrite !cmp_or_equal_rank in * by done. by eapply lex3_trans. Qed.

(** ** Non-negative floats: sums of durations are never NaN *)

Definition nonneg (x : f64) : bool :=
  match x with
  | S754_zero false | S754_infinity false | S754_finite false _ _ => true
  | _ => false
  end.

Lemma nonneg_not_nan x : nonneg x = true → is_nan x = false.
Proof. by destruct x as [[]|[]| |[]]. Qed.

Lemma shr_1_nonneg r : (0 ≤ shr_m r)%Z → (0 ≤ shr_m (shr_1 r))%Z.
Proof. destruct r as [[|[]|[]] ??]; simpl; lia. Qed.

Lemma iter_pos_shr_nonneg p r : (0 ≤ shr_m r)%Z → (0 ≤ shr_m (SpecFloat.iter_pos shr_1 p r))%Z.
Proof.
  revert r. induction p as [p IH|p IH|]; intros r Hr; simpl; auto using shr_1_nonneg.
Qed.

Lemma shr_fexp_nonneg m e l :
  (0 ≤ m)%Z → (0 ≤ shr_m (shr_fexp prec64 emax64 m e l).1)%Z.
Proof.
  intros Hm. unfold shr_fexp, shr.
  assert (0 ≤ shr_m (shr_record_of_loc m l))%Z by (by destruct l as [|[]]).
  case_match; simpl; auto using iter_pos_shr_nonneg.
Qed.

Lemma round_even_nonneg m l : (0 ≤ m)%Z → (0 ≤ round_nearest_even m l)%Z.
Proof. intros. unfold round_nearest_even. destruct l as [|[]]; [|case_match|..]; lia. Qed.

Lemma binary_round_aux_nonneg m e l :
  (0 ≤ m)%Z → nonneg (binary_round_aux prec64 emax64 false m e l) = true.
Proof.
  intros Hm. unfold binary_round_aux.
  pose proof (shr_fexp_nonneg m e l Hm) as H1.
  destruct (shr_fexp prec64 emax64 m e l) as [r1 e1]. simpl in H1.
  pose proof (shr_fexp_nonneg _ e1 loc_Exact
    (round_even_nonneg _ (loc_of_shr_record r1) H1)) as H2.
  destruct (shr_fexp prec64 emax64 _ e1 loc_Exact) as [r2 e2]. simpl in H2.
  destruct (shr_m r2); [done| |lia]. by destruct (_ <=? _)%Z.
Qed.

Lemma f64_add_nonneg x y : nonneg x = true → nonneg y = true → nonneg (f64_add x y) = true.
Proof.
  destruct x as [[]|[]| |[] m e], y as [[]|[]| |[] m' e']; try done. intros _ _.
  unfold f64_add, SFadd, cond_Zopp, binary_normalize.
  case_match; [done| |lia]. unfold binary_round. case_match. by apply binary_round_aux_nonneg.
Qed.
