(* ===== verification/F32.v ===== *)
(** * F32: IEEE-754 binary32 as the pane widths use it

    [(width as f32 * p) as u16], with the standard library's executable
    specification floats at the parameters of binary32, and the bound on its
    rounding that the layout needs: the product never exceeds the exact one by
    as much as one. *)
From Stdlib Require Import ZArith.
From S2P Require Import Prelude F64.
Local Open Scope Z_scope.

Definition f32_of_Z (n : Z) : spec_float := binary_normalize 24 128 n 0 false.
Definition f32_mul (x y : spec_float) : spec_float := SFmul 24 128 x y.

(** The literal [n / 100]: the float nearest to the decimal fraction. *)
Definition f32_percent (n : Z) : spec_float := SFdiv 24 128 (f32_of_Z n) (f32_of_Z 100).

Definition u16_max : Z := 65535.

(** [x as u16]: truncation toward zero, saturating. *)
Definition as_u16 (x : spec_float) : Z :=
  match x with
  | S754_finite false m e => Z.min (trunc_mag m e) u16_max
  | S754_infinity false => u16_max
  | _ => 0
  end.

(** [(width as f32 * p) as u16] *)
Definition percent_of (p width : Z) : Z := as_u16 (f32_mul (f32_of_Z width) (f32_percent p)).

(** ** Bits *)

Lemma digits2_bounds p : 2 ^ (Zpos (digits2_pos p) - 1) ≤ Zpos p < 2 ^ Zpos (digits2_pos p).
Proof.
  induction p as [p IH|p IH|]; simpl digits2_pos; [..|done].
  all: rewrite Pos2Z.inj_succ, Z.pow_succ_r by lia.
  all: replace (2 ^ (Z.succ (Zpos (digits2_pos p)) - 1)) with (2 * 2 ^ (Zpos (digits2_pos p) - 1))
    by (rewrite <-Z.pow_succ_r by lia; f_equal; lia).
  all: lia.
Qed.

Lemma digits2_le p n : 0 ≤ n → Zpos p < 2 ^ n → Zpos (digits2_pos p) ≤ n.
Proof.
  intros Hn Hp. pose proof (digits2_bounds p) as [Hl _].
  destruct (Z.le_gt_cases (Zpos (digits2_pos p)) n); [done|].
  assert (2 ^ n ≤ 2 ^ (Zpos (digits2_pos p) - 1)) by (apply Z.pow_le_mono_r; lia). lia.
Qed.

Lemma iter_xO p n : Zpos (Pos.iter xO p n) = Zpos p * 2 ^ Zpos n.
Proof.
  induction n as [|n IH] using Pos.peano_ind; [simpl; lia|].
  rewrite Pos.iter_succ, Pos2Z.inj_xO, IH, Pos2Z.inj_succ, Z.pow_succ_r by lia. lia.
Qed.

Lemma digits2_iter p n : Zpos (digits2_pos (Pos.iter xO p n)) = Zpos (digits2_pos p) + Zpos n.
Proof.
  induction n as [|n IH] using Pos.peano_ind; [simpl; lia|].
  rewrite Pos.iter_succ. cbn [digits2_pos]. lia.
Qed.

(** ** Shifting and rounding *)

Lemma shr_1_m mrs : 0 ≤ shr_m mrs → shr_m (shr_1 mrs) = shr_m mrs / 2.
Proof.
  destruct mrs as [m r s]. simpl. destruct m as [|[p|p|]|p]; simpl; intros; try done.
  - rewrite Pos2Z.inj_xI. Z.div_mod_to_equations; lia.
  - rewrite Pos2Z.inj_xO. Z.div_mod_to_equations; lia.
Qed.

Lemma iter_shr_m n mrs :
  0 ≤ shr_m mrs → shr_m (iter_pos shr_1 n mrs) = shr_m mrs / 2 ^ Zpos n.
Proof.
  assert (Hdiv : ∀ a b c, 0 ≤ b → 0 ≤ c → a / 2 ^ b / 2 ^ c = a / 2 ^ (b + c)).
  { intros. rewrite Z.div_div, <-Z.pow_add_r by (try apply Z.pow_nonzero; try apply Z.pow_pos_nonneg; lia). done. }
  assert (Hpos : ∀ a b, 0 ≤ a → 0 ≤ b → 0 ≤ a / 2 ^ b).
  { intros. apply Z.div_pos; [done|]. apply Z.pow_pos_nonneg; lia. }
  assert (Htwice : ∀ n, (∀ mrs, 0 ≤ shr_m mrs → shr_m (iter_pos shr_1 n mrs) = shr_m mrs / 2 ^ Zpos n) →
    ∀ mrs, 0 ≤ shr_m mrs →
      shr_m (iter_pos shr_1 n (iter_pos shr_1 n mrs)) = shr_m mrs / 2 ^ (Zpos n + Zpos n)).
  { clear n mrs. intros n IH mrs Hm. assert (H1 : shr_m (iter_pos shr_1 n mrs) = shr_m mrs / 2 ^ Zpos n) by auto.
    rewrite IH by (rewrite H1; apply Hpos; lia). rewrite H1. apply Hdiv; lia. }
  revert mrs. induction n as [n IH|n IH|]; intros mrs Hm; simpl iter_pos.
  - assert (H1 : shr_m (shr_1 mrs) = shr_m mrs / 2 ^ 1) by (by rewrite shr_1_m).
    rewrite Htwice by (try rewrite H1; auto using Hpos with lia). rewrite H1, Hdiv by lia. do 2 f_equal. lia.
  - rewrite Htwice by done. do 2 f_equal. lia.
  - by rewrite shr_1_m.
Qed.

Lemma shr_m_shr mrs e n :
  0 ≤ shr_m mrs →
  shr_m (shr mrs e n).1 = shr_m mrs / 2 ^ Z.max n 0 ∧ (shr mrs e n).2 = e + Z.max n 0.
Proof.
  intros Hm. destruct n as [|n|n]; simpl; rewrite ?Z.div_1_r; [split; lia| |split; lia].
  split; [|lia]. by apply iter_shr_m.
Qed.

Lemma round_nearest_even_cases m l : round_nearest_even m l = m ∨ round_nearest_even m l = m + 1.
Proof. destruct l as [|[]]; simpl; [by left| |by left|by right]. destruct (Z.even m); auto. Qed.

(** The bits dropped when a mantissa [m] at exponent [e] is rounded. *)
Definition dropped (m e : Z) : Z := Z.max (fexp 24 128 (Zdigits2 m + e) - e) 0.

Lemma binary_round_aux_spec m e :
  0 < m → ∃ r, (r = m / 2 ^ dropped m e ∨ r = m / 2 ^ dropped m e + 1) ∧
    binary_round_aux 24 128 false m e loc_Exact
    = match r / 2 ^ dropped r (e + dropped m e) with
      | Z0 => S754_zero false
      | Zpos q => if Z.leb (e + dropped m e + dropped r (e + dropped m e)) 104
                  then S754_finite false q (e + dropped m e + dropped r (e + dropped m e))
                  else S754_infinity false
      | Zneg _ => S754_nan
      end.
Proof.
  intros Hm. unfold binary_round_aux, shr_fexp; simpl shr_record_of_loc.
  pose proof (shr_m_shr (Build_shr_record m false false) e (fexp 24 128 (Zdigits2 m + e) - e)
                ltac:(simpl; lia)) as [H1 H2].
  destruct (shr _ e _) as [mrs e1]. cbn [fst snd shr_m] in H1, H2.
  set (r := round_nearest_even (shr_m mrs) (loc_of_shr_record mrs)).
  assert (Hr : r = m / 2 ^ dropped m e ∨ r = m / 2 ^ dropped m e + 1).
  { unfold r, dropped. rewrite <-H1. apply round_nearest_even_cases. }
  assert (Hr0 : 0 ≤ r).
  { assert (0 ≤ m / 2 ^ dropped m e); [|lia]. apply Z.div_pos; [lia|]. apply Z.pow_pos_nonneg; unfold dropped; lia. }
  exists r. split; [done|].
  pose proof (shr_m_shr (Build_shr_record r false false) e1 (fexp 24 128 (Zdigits2 r + e1) - e1) Hr0) as [H3 H4].
  destruct (shr _ e1 _) as [mrs2 e2]. cbn [fst snd shr_m] in H3, H4. rewrite H3. unfold dropped in *.
  rewrite H4, H2. done.
Qed.

Lemma dropped_nonneg m e : 0 ≤ dropped m e.
Proof. unfold dropped. lia. Qed.

(** An integer of at most 16 bits is a float. *)
Lemma f32_of_Z_exact w :
  0 < w ≤ u16_max →
  ∃ j m, 8 ≤ j < 24 ∧ Zpos m = w * 2 ^ j ∧ Zpos (digits2_pos m) = 24 ∧ f32_of_Z w = S754_finite false m (- j).
Proof.
  unfold u16_max. intros Hw. destruct w as [|p|p]; [lia| |lia].
  assert (Hd : Zpos (digits2_pos p) ≤ 16) by (apply digits2_le; lia).
  set (d := Zpos (digits2_pos p)) in *. assert (Hd0 : 0 < d) by done.
  unfold f32_of_Z; cbn [binary_normalize]. unfold binary_round, shl_align. fold d.
  assert (Hf : fexp 24 128 (d + 0) - 0 = Zneg (Z.to_pos (24 - d))).
  { unfold fexp, emin. rewrite <-Pos2Z.opp_pos, Z2Pos.id by lia. lia. }
  rewrite Hf. set (m := Pos.iter xO p (Z.to_pos (24 - d))).
  assert (Hm : Zpos m = Zpos p * 2 ^ (24 - d)) by (unfold m; rewrite iter_xO, Z2Pos.id by lia; done).
  assert (Hdm : Zpos (digits2_pos m) = 24).
  { unfold m. rewrite digits2_iter, Z2Pos.id by lia. fold d. lia. }
  assert (He : fexp 24 128 (d + 0) = d - 24) by (unfold fexp, emin; lia).
  assert (Hsame : ∀ e, -149 ≤ e → shr_fexp 24 128 (Zpos m) e loc_Exact = (Build_shr_record (Zpos m) false false, e)).
  { intros e Hge. unfold shr_fexp. simpl Zdigits2. rewrite Hdm.
    replace (fexp 24 128 (24 + e) - e) with 0 by (unfold fexp, emin; lia). done. }
  exists (24 - d), m. split_and!; [lia|lia|done|done|].
  unfold binary_round_aux. rewrite He, Hsame by lia. simpl. rewrite Hsame by lia. simpl.
  destruct (Z.leb_spec (d - 24) (128 - 24)); [f_equal; lia|lia].
Qed.

(** Rounding adds less than one unit in the last place kept. *)
Lemma trunc_round_le m K r q :
  0 < m → (r = m / 2 ^ dropped m (- K) ∨ r = m / 2 ^ dropped m (- K) + 1) →
  r / 2 ^ dropped r (- K + dropped m (- K)) = Zpos q → 0 ≤ K →
  trunc_mag q (- K + dropped m (- K) + dropped r (- K + dropped m (- K))) * 2 ^ K ≤ m + 2 ^ dropped m (- K).
Proof.
  intros Hm Hr Hq HK. pose proof (dropped_nonneg m (- K)) as Hs1. set (s1 := dropped m (- K)) in *.
  pose proof (dropped_nonneg r (- K + s1)) as Hs2. set (s2 := dropped r (- K + s1)) in *.
  assert (P1 : 0 < 2 ^ s1) by (apply Z.pow_pos_nonneg; lia).
  assert (P2 : 0 < 2 ^ s2) by (apply Z.pow_pos_nonneg; lia).
  assert (Hr1 : r * 2 ^ s1 ≤ m + 2 ^ s1).
  { pose proof (Z.mul_div_le m (2 ^ s1) P1). destruct Hr; subst r; nia. }
  assert (Hq2 : Zpos q * 2 ^ s2 ≤ r) by (rewrite <-Hq, Z.mul_comm; by apply Z.mul_div_le).
  assert (Hqs : Zpos q * (2 ^ s2 * 2 ^ s1) ≤ m + 2 ^ s1) by nia. rewrite <-Z.pow_add_r in Hqs by lia.
  etransitivity; [|exact Hqs]. unfold trunc_mag. destruct (Z.leb_spec 0 (- K + s1 + s2)).
  - rewrite <-Z.mul_assoc, <-Z.pow_add_r by lia.
    replace (- K + s1 + s2 + K) with (s2 + s1) by lia. done.
  - set (t := - (- K + s1 + s2)). assert (P3 : 0 < 2 ^ t) by (apply Z.pow_pos_nonneg; unfold t; lia).
    replace (2 ^ K) with (2 ^ t * 2 ^ (s2 + s1)) by (rewrite <-Z.pow_add_r by (unfold t; lia); f_equal; unfold t; lia).
    rewrite Z.mul_assoc. apply Z.mul_le_mono_nonneg_r; [apply Z.pow_nonneg; lia|].
    rewrite Z.mul_comm. by apply Z.mul_div_le.
Qed.

(** And truncation takes away less than two of them, and one. *)
Lemma trunc_round_ge m K r :
  0 < m → (r = m / 2 ^ dropped m (- K) ∨ r = m / 2 ^ dropped m (- K) + 1) → 0 ≤ K →
  let s1 := dropped m (- K) in let s2 := dropped r (- K + s1) in
  m - 2 ^ s1 - 2 ^ (s1 + s2)
  < (match r / 2 ^ s2 with Zpos q => trunc_mag q (- K + s1 + s2) | _ => 0 end + 1) * 2 ^ K.
Proof.
  intros Hm Hr HK s1 s2. pose proof (dropped_nonneg m (- K) : 0 ≤ s1) as Hs1.
  pose proof (dropped_nonneg r (- K + s1) : 0 ≤ s2) as Hs2.
  assert (P1 : 0 < 2 ^ s1) by (apply Z.pow_pos_nonneg; lia).
  assert (P2 : 0 < 2 ^ s2) by (apply Z.pow_pos_nonneg; lia).
  assert (PK : 0 < 2 ^ K) by (apply Z.pow_pos_nonneg; lia).
  assert (Hr1 : m - 2 ^ s1 < r * 2 ^ s1).
  { pose proof (Z.mul_succ_div_gt m (2 ^ s1) P1). fold s1 in Hr. destruct Hr; subst r; nia. }
  assert (Hr0 : 0 ≤ r).
  { assert (0 ≤ m / 2 ^ s1) by (apply Z.div_pos; lia). fold s1 in Hr. lia. }
  pose proof (Z.mul_succ_div_gt r (2 ^ s2) P2) as Hq. rewrite Z.pow_add_r by lia.
  assert (Hqs : m - 2 ^ s1 - 2 ^ s1 * 2 ^ s2 < r / 2 ^ s2 * (2 ^ s1 * 2 ^ s2)) by nia.
  rewrite <-Z.pow_add_r in * by lia. clear Hq. eapply Z.lt_le_trans; [exact Hqs|].
  destruct (r / 2 ^ s2) as [|q|q] eqn:Eq; [lia| |assert (0 ≤ r / 2 ^ s2) by (apply Z.div_pos; lia); lia].
  unfold trunc_mag. destruct (Z.leb_spec 0 (- K + s1 + s2)).
  - etransitivity; [|apply Z.mul_le_mono_nonneg_r; [lia|apply Z.le_succ_diag_r]].
    rewrite <-Z.mul_assoc, <-Z.pow_add_r by lia. replace (- K + s1 + s2 + K) with (s1 + s2) by lia. done.
  - set (t := - (- K + s1 + s2)). assert (P3 : 0 < 2 ^ t) by (apply Z.pow_pos_nonneg; unfold t; lia).
    replace (2 ^ K) with (2 ^ t * 2 ^ (s1 + s2)) by (rewrite <-Z.pow_add_r by (unfold t; lia); f_equal; unfold t; lia).
    rewrite Z.mul_assoc. apply Z.mul_le_mono_nonneg_r; [apply Z.pow_nonneg; lia|].
    pose proof (Z.mul_succ_div_gt (Zpos q) (2 ^ t) P3). lia.
Qed.

Lemma trunc_mag_nonneg q e : 0 ≤ trunc_mag q e.
Proof.
  unfold trunc_mag. case_match; [apply Z.mul_nonneg_nonneg; [lia|apply Z.pow_nonneg; lia]|].
  breflect. apply Z.div_pos; [lia|]. apply Z.pow_pos_nonneg; lia.
Qed.

(** The sizes that rounding a product of two 24-bit mantissas can have. *)
Lemma product_sizes M e r :
  0 < M < 2 ^ 48 → -60 ≤ e ≤ 0 → (r = M / 2 ^ dropped M e ∨ r = M / 2 ^ dropped M e + 1) →
  dropped M e ≤ 24 ∧ 0 ≤ r ∧ dropped r (e + dropped M e) ≤ 1.
Proof.
  intros HM He Hr. destruct M as [|M|M]; [lia| |lia].
  assert (Hd : Zdigits2 (Zpos M) ≤ 48) by (apply digits2_le; lia).
  assert (Hs1 : 0 ≤ dropped (Zpos M) e ≤ 24 ∧ Zdigits2 (Zpos M) - 24 ≤ dropped (Zpos M) e)
    by (unfold dropped, fexp, emin; lia).
  set (s1 := dropped (Zpos M) e) in *. assert (P1 : 0 < 2 ^ s1) by (apply Z.pow_pos_nonneg; lia).
  assert (Hlt : Zpos M / 2 ^ s1 < 2 ^ 24).
  { apply Z.div_lt_upper_bound; [lia|]. rewrite <-Z.pow_add_r by lia.
    eapply Z.lt_le_trans; [apply digits2_bounds|]. apply Z.pow_le_mono_r; [lia|]. simpl Zdigits2 in *. lia. }
  assert (0 ≤ Zpos M / 2 ^ s1) by (apply Z.div_pos; lia).
  split_and!; [lia|lia|]. assert (Hdr : Zdigits2 r ≤ 25); [|unfold dropped, fexp, emin; lia].
  destruct r as [|r|r]; [done| |lia]. apply digits2_le; [lia|].
  change (2 ^ 25) with (2 * 2 ^ 24). lia.
Qed.

Lemma scale_le a b x y P : 0 < P → a * P ≤ b * P + x → x ≤ y * P → a ≤ b + y.
Proof. intros HP H1 H2. apply (Z.mul_le_mono_pos_r _ _ P); lia. Qed.
Lemma scale_lt a b x y P : 0 < P → b * P - x < a * P → x ≤ y * P → b - y < a.
Proof. intros HP H1 H2. apply (Z.mul_lt_mono_pos_r P); lia. Qed.

(** The product of a width and a fraction whose mantissa has 24 bits. *)
Lemma mul_bound w c k :
  0 < w ≤ u16_max → Zpos (digits2_pos c) = 24 → 24 ≤ k ≤ 25 →
  let t := as_u16 (f32_mul (f32_of_Z w) (S754_finite false c (- k))) in
  0 ≤ t ∧ t * 2 ^ k ≤ w * Zpos c + 2 ^ 16 ∧ (t = u16_max ∨ w * Zpos c - 2 ^ 18 < (t + 1) * 2 ^ k).
Proof.
  intros Hw Hc Hk. destruct (f32_of_Z_exact w Hw) as (j & m & Hj & Hm & Hdm & ->).
  unfold f32_mul. cbn [SFmul xorb]. replace (- j + - k) with (- (j + k)) by lia.
  set (M := Zpos (m * c)). assert (HM : M = w * 2 ^ j * Zpos c) by (unfold M; lia).
  assert (HM0 : 0 < M) by done.
  assert (HMlt : M < 2 ^ 48).
  { pose proof (digits2_bounds m). pose proof (digits2_bounds c). rewrite Hdm, Hc in *.
    change (2 ^ 48) with (2 ^ 24 * 2 ^ 24). unfold M. rewrite Pos2Z.inj_mul. nia. }
  destruct (binary_round_aux_spec M (- (j + k)) HM0) as (r & Hr & ->).
  destruct (product_sizes M (- (j + k)) r ltac:(lia) ltac:(lia) Hr) as (Hs1 & Hr0 & Hs2).
  pose proof (trunc_round_ge M (j + k) r HM0 Hr ltac:(lia)) as Hge. cbv zeta in Hge.
  pose proof (λ q, trunc_round_le M (j + k) r q HM0 Hr) as Hle.
  pose proof (dropped_nonneg M (- (j + k))) as Hn1. set (s1 := dropped M (- (j + k))) in *.
  pose proof (dropped_nonneg r (- (j + k) + s1)) as Hn2. set (s2 := dropped r (- (j + k) + s1)) in *.
  assert (P1 : 2 ^ s1 ≤ 2 ^ 24) by (apply Z.pow_le_mono_r; lia).
  assert (P12 : 2 ^ (s1 + s2) ≤ 2 ^ 25) by (apply Z.pow_le_mono_r; lia).
  assert (Pj : 2 ^ 8 ≤ 2 ^ j) by (apply Z.pow_le_mono_r; lia).
  assert (Pk : 0 < 2 ^ k) by (apply Z.pow_pos_nonneg; lia).
  assert (Ejk : 2 ^ (j + k) = 2 ^ j * 2 ^ k) by (apply Z.pow_add_r; lia).
  assert (Hlt : ∀ t, M - 2 ^ s1 - 2 ^ (s1 + s2) < (t + 1) * 2 ^ (j + k) →
                     w * Zpos c - 2 ^ 18 < (t + 1) * 2 ^ k).
  { intros t Ht. rewrite Ejk, HM in Ht. apply (scale_lt _ _ (2 ^ s1 + 2 ^ (s1 + s2)) _ (2 ^ j)); lia. }
  destruct (r / 2 ^ s2) as [|q|q] eqn:Hq.
  - simpl. split_and!; [lia|lia|]. right. apply (Hlt 0). lia.
  - specialize (Hle q eq_refl ltac:(lia)). pose proof (trunc_mag_nonneg q (- (j + k) + s1 + s2)).
    destruct (Z.leb_spec (- (j + k) + s1 + s2) 104); [|lia]. simpl. unfold u16_max in *.
    set (t := trunc_mag q _) in *. split_and!; [lia| |].
    + etransitivity; [apply Z.mul_le_mono_nonneg_r; [lia|apply Z.le_min_l]|].
      rewrite Ejk, HM in Hle. apply (scale_le _ _ (2 ^ s1) _ (2 ^ j)); lia.
    + destruct (Z.min_spec t 65535) as [[? ->]|[? ->]]; [right; by apply Hlt|by left].
  - assert (0 ≤ r / 2 ^ s2) by (apply Z.div_pos; [lia|apply Z.pow_pos_nonneg; lia]). lia.
Qed.

(** The three fractions the layout uses: the truncated product is the exact one
    rounded down, or one less. *)
Lemma percent_of_bounds p w :
  p = 30 ∨ p = 55 ∨ p = 62 → 0 ≤ w ≤ u16_max → p * w / 100 - 1 ≤ percent_of p w ≤ p * w / 100.
Proof.
  intros Hp Hw. destruct (Z.eq_dec w 0) as [->|Hw0].
  { destruct Hp as [->|[->| ->]]; vm_compute; split; congruence. }
  assert (Hw' : 0 < w ≤ u16_max) by lia. unfold percent_of, u16_max in *.
  destruct Hp as [->|[->| ->]].
  - change (f32_percent 30) with (S754_finite false 10066330 (- (25))).
    pose proof (mul_bound w 10066330 25 Hw' eq_refl ltac:(lia)) as (H1 & H2 & H3).
    cbv zeta in *. set (t := as_u16 _) in *. unfold u16_max in *. Z.div_mod_to_equations; lia.
  - change (f32_percent 55) with (S754_finite false 9227469 (- (24))).
    pose proof (mul_bound w 9227469 24 Hw' eq_refl ltac:(lia)) as (H1 & H2 & H3).
    cbv zeta in *. set (t := as_u16 _) in *. unfold u16_max in *. Z.div_mod_to_equations; lia.
  - change (f32_percent 62) with (S754_finite false 10401874 (- (24))).
    pose proof (mul_bound w 10401874 24 Hw' eq_refl ltac:(lia)) as (H1 & H2 & H3).
    cbv zeta in *. set (t := as_u16 _) in *. unfold u16_max in *. Z.div_mod_to_equations; lia.
Qed.
