(* ===== verification/Paths.v ===== *)
(** * Paths: [camino::Utf8Path] on Unix, as the runner uses it

    A path is its string; every comparison the sources make ([starts_with],
    [==], hashing) goes through [components], which drops repeated separators,
    a trailing separator and every ['.'] but a leading one. *)
From Stdlib Require Import Ascii.
From S2P Require Import Prelude Collections Text.

Inductive component :=
  | RootDir
  | CurDir
  | ParentDir
  | Normal (name : string).

#[export] Instance component_eq_dec : EqDecision component.
Proof. solve_decision. Defined.

Definition normal_component (seg : string) : option component :=
  if String.eqb seg "" then None
  else if String.eqb seg "." then None
  else if String.eqb seg ".." then Some ParentDir
  else Some (Normal seg).

(** [path.components()] *)
Definition components (p : string) : list component :=
  let segs := split "/" p in
  let lead :=
    if starts_with "/" p then [RootDir]
    else match segs with seg :: _ => if String.eqb seg "." then [CurDir] else [] | [] => [] end in
  lead ++ flat_map (λ seg, match normal_component seg with Some c => [c] | None => [] end) segs.

(** [a == b] on paths, and the equality path-keyed maps use. *)
Definition path_eqb (a b : string) : bool := bool_decide (components a = components b).

(** [path.starts_with(base)]: [base]'s components are a prefix. *)
Definition path_starts_with (base path : string) : bool :=
  bool_decide (components base `prefix_of` components path).

(** [dir.components().count()] *)
Definition depth (p : string) : nat := length (components p).

Lemma path_eqb_true a b : path_eqb a b = true ↔ components a = components b.
Proof. apply bool_decide_eq_true. Qed.

Lemma path_eqb_refl a : path_eqb a a = true.
Proof. by apply path_eqb_true. Qed.

Lemma path_eqb_sym a b : path_eqb a b = path_eqb b a.
Proof. unfold path_eqb. apply bool_decide_ext. naive_solver. Qed.

Lemma path_eqb_trans a b c : path_eqb a b = true → path_eqb b c = true → path_eqb a c = true.
Proof. rewrite !path_eqb_true. congruence. Qed.

Lemma path_starts_with_true base p :
  path_starts_with base p = true ↔ components base `prefix_of` components p.
Proof. apply bool_decide_eq_true. Qed.

Lemma path_starts_with_eqb base p q :
  path_eqb p q = true → path_starts_with base p = path_starts_with base q.
Proof. rewrite path_eqb_true. unfold path_starts_with. by intros ->. Qed.

Lemma path_starts_with_trans a b c :
  path_starts_with a b = true → path_starts_with b c = true → path_starts_with a c = true.
Proof. rewrite !path_starts_with_true. apply transitivity. Qed.

(** Two ancestors of one path are comparable. *)
Lemma path_starts_with_total a b p :
  path_starts_with a p = true → path_starts_with b p = true →
  path_starts_with a b = true ∨ path_starts_with b a = true.
Proof. rewrite !path_starts_with_true. apply prefix_app_inv. Qed.

(** Two ancestors of one path at the same depth are the same path. *)
Lemma path_ancestor_depth a b p :
  path_starts_with a p = true → path_starts_with b p = true → depth a = depth b →
  path_eqb a b = true.
Proof.
  rewrite !path_starts_with_true, path_eqb_true. intros [r Ha] [r' Hb] Hd.
  rewrite Ha in Hb. by apply app_inj_1 in Hb as [? _].
Qed.

Lemma path_starts_with_depth a b : path_starts_with a b = true → depth a ≤ depth b.
Proof. rewrite path_starts_with_true. apply prefix_length. Qed.

#[export] Hint Resolve path_eqb_refl path_eqb_trans path_starts_with_trans : oxi.

(** ** [Ord] for paths: by components *)

Definition component_rank (c : component) : nat :=
  match c with RootDir => 0 | CurDir => 1 | ParentDir => 2 | Normal _ => 3 end.

Definition component_cmp (a b : component) : comparison :=
  match a, b with
  | Normal x, Normal y => String.compare x y
  | _, _ => Nat.compare (component_rank a) (component_rank b)
  end.

Definition path_cmp (a b : string) : comparison := lex_cmp component_cmp (components a) (components b).

(** [name.rsplit_once('.')] *)
Fixpoint rsplit_once_dot (s : string) : option (string * string) :=
  match s with
  | "" => None
  | String c s' =>
      match rsplit_once_dot s' with
      | Some (a, b) => Some (String c a, b)
      | None => if Ascii.eqb c "."%char then Some ("", s') else None
      end
  end.

(** [Path::file_stem] of a file name: a leading dot is not an extension. *)
Definition file_stem (name : string) : string :=
  match rsplit_once_dot name with
  | None => name
  | Some (before, _) => if String.eqb before "" then name else before
  end.

Definition component_str (c : component) : string :=
  match c with RootDir => "/" | CurDir => "." | ParentDir => ".." | Normal name => name end.

(** [path.file_name()]: the last component, when it is a name. *)
Definition file_name (p : string) : option string :=
  match reverse (components p) with Normal name :: _ => Some name | _ => None end.

(** [base.join(other)] on Unix: an absolute [other] replaces [base]. *)
Definition path_join (base other : string) : string :=
  if starts_with "/" other then other
  else if String.eqb base "" then other
  else if ends_with "/" base then base +:+ other
  else base +:+ "/" +:+ other.

(** The components of [path.parent()]; [None] for the root and the empty path. *)
Definition parent_components (p : string) : option (list component) :=
  match reverse (components p) with
  | [] => None
  | RootDir :: _ => None
  | _ :: rest => Some (reverse rest)
  end.

(** ** Relative paths: [Utf8Path::strip_prefix] *)

(** The segments of a path with the component each stands for, if any. *)
Definition seg_components (p : string) : list (string * option component) :=
  match split "/" p with
  | [] => []
  | s :: rest =>
      (s, if starts_with "/" p then Some RootDir
          else if String.eqb s "." then Some CurDir else normal_component s)
      :: map (λ s, (s, normal_component s)) rest
  end.

Fixpoint drop_components (n : nat) (l : list (string * option component)) :=
  match n, l with
  | S n', (_, Some _) :: l' => drop_components n' l'
  | S _, (_, None) :: l' => drop_components n l'
  | _, _ => l
  end.

Fixpoint trim_segments (l : list (string * option component)) :=
  match l with
  | (_, None) :: l' => trim_segments l'
  | _ => l
  end.

(** What [Components::as_path] shows of the components that are left. *)
Definition segments_path (l : list (string * option component)) : string :=
  match reverse (trim_segments (reverse (trim_segments l))) with
  | [(_, Some RootDir)] => "/"
  | l' => join "/" (map fst l')
  end.

Definition path_strip_prefix (base p : string) : option string :=
  if path_starts_with base p
  then Some (segments_path (drop_components (length (components base)) (seg_components p)))
  else None.

(** ** [path.parent()]

    The result is a slice of the path: the last component goes, with the
    separators and the ['.'] segments around it. *)
Definition ignorable (seg : string) : bool := String.eqb seg "" || String.eqb seg ".".

(** The reversed body of a path without its last component. *)
Definition drop_last (rev_body : list string) : option (list string) :=
  match drop_while ignorable rev_body with
  | [] => None
  | _ :: r => Some (reverse (drop_while ignorable r))
  end.

Definition path_parent (p : string) : option string :=
  match strip_prefix "/" p with
  | Some body => (λ l, "/" +:+ join "/" l) <$> drop_last (reverse (split "/" body))
  | None =>
      match split "/" p with
      | seg :: body =>
          if String.eqb seg "." then
            Some (match drop_last (reverse body) with
                  | Some l => join "/" ("." :: l)
                  | None => ""
                  end)
          else join "/" <$> drop_last (reverse (seg :: body))
      | [] => None
      end
  end.

(** [path.with_extension(ext)]: the file name's stem, then the extension; what
    follows the name goes. *)
Definition with_extension (p ext : string) : string :=
  match file_name p with
  | None => p
  | Some name =>
      join "/" (reverse ((file_stem name +:+ "." +:+ ext)
        :: tail (drop_while ignorable (reverse (split "/" p)))))
  end.

Definition norm (segs : list string) : list component :=
  flat_map (λ seg, match normal_component seg with Some c => [c] | None => [] end) segs.

Lemma ignorable_spec seg : ignorable seg = bool_decide (normal_component seg = None).
Proof.
  unfold ignorable, normal_component. destruct (String.eqb seg ""); [done|].
  destruct (String.eqb seg "."); [done|]. by destruct (String.eqb seg "..").
Qed.

Lemma drop_while_split {A} (f : A → bool) l :
  ∃ k, l = k ++ drop_while f l ∧ Forall (λ x, f x = true) k.
Proof.
  induction l as [|x l IH]; [by exists []|]. simpl. destruct (f x) eqn:E.
  - destruct IH as (k & Hk & HF). exists (x :: k). simpl. rewrite <-Hk. auto.
  - by exists [].
Qed.

Lemma drop_while_head {A} (f : A → bool) l x r : drop_while f l = x :: r → f x = false.
Proof.
  induction l as [|y l IH]; simpl; [done|]. destruct (f y) eqn:E; [done|]. by intros [= <- <-].
Qed.

Lemma norm_app a b : norm (a ++ b) = norm a ++ norm b.
Proof. apply flat_map_app. Qed.

Lemma norm_ignorable l : Forall (λ x, ignorable x = true) l → norm l = [].
Proof.
  induction 1 as [|x l Hx _ IH]; [done|]. rewrite ignorable_spec in Hx.
  apply bool_decide_eq_true in Hx. simpl. by rewrite Hx.
Qed.

(** What [drop_last] removes is one component, and the segments between. *)
Lemma drop_last_Some segs l :
  drop_last (reverse segs) = Some l →
  ∃ k1 x k2, segs = l ++ k1 ++ x :: k2 ∧ ignorable x = false ∧ norm k1 = [] ∧ norm k2 = [].
Proof.
  unfold drop_last. destruct (drop_while_split ignorable (reverse segs)) as (k2 & H2 & F2).
  destruct (drop_while ignorable (reverse segs)) as [|x r] eqn:E; [done|]. intros [= <-].
  destruct (drop_while_split ignorable r) as (k1 & H1 & F1).
  exists (reverse k1), x, (reverse k2). split_and!.
  - rewrite <-(reverse_involutive segs), H2, H1 at 1.
    rewrite reverse_app, reverse_cons, reverse_app, <-!app_assoc. done.
  - by eapply drop_while_head.
  - apply norm_ignorable. by apply Forall_reverse.
  - apply norm_ignorable. by apply Forall_reverse.
Qed.

Lemma drop_last_None segs : drop_last (reverse segs) = None ↔ norm segs = [].
Proof.
  split.
  - unfold drop_last. destruct (drop_while_split ignorable (reverse segs)) as (k & Hk & HF).
    destruct (drop_while ignorable (reverse segs)) as [|x r] eqn:E; [|done]. intros _.
    apply norm_ignorable. rewrite app_nil_r in Hk. rewrite <-(reverse_involutive segs), Hk.
    by apply Forall_reverse.
  - intros Hn. destruct (drop_last (reverse segs)) as [l|] eqn:E; [|done].
    apply drop_last_Some in E as (k1 & x & k2 & -> & Hx & _). rewrite !norm_app in Hn.
    rewrite ignorable_spec in Hx. apply bool_decide_eq_false in Hx. simpl in Hn.
    destruct (normal_component x); [|done]. by apply app_eq_nil in Hn as [_ [_ Hn]%app_eq_nil].
Qed.

Lemma slash_cons s : split "/" ("/" +:+ s) = "" :: split "/" s.
Proof. reflexivity. Qed.

Lemma components_abs s : components ("/" +:+ s) = RootDir :: norm (split "/" s).
Proof. unfold components. rewrite slash_cons. reflexivity. Qed.

Lemma norm_split_join l :
  Forall (λ s, contains "/" s = false) l → norm (split "/" (join "/" l)) = norm l.
Proof.
  intros HF. destruct l as [|x l]; [done|]. by rewrite split_join_char.
Qed.

Lemma norm_drop_last segs l :
  drop_last (reverse segs) = Some l → ∃ c, norm segs = norm l ++ [c].
Proof.
  intros (k1 & x & k2 & -> & Hx & H1 & H2)%drop_last_Some.
  rewrite ignorable_spec in Hx. apply bool_decide_eq_false in Hx.
  rewrite !norm_app, H1. simpl. destruct (normal_component x) as [c|]; [|done].
  exists c. by rewrite H2.
Qed.

Lemma split_no_slash p : Forall (λ s, contains "/" s = false) (split "/" p).
Proof. apply Forall_forall. intros y. apply (split_char_parts "/"%char). Qed.

Lemma drop_last_prefix segs l : drop_last (reverse segs) = Some l → ∃ x k, segs = l ++ x :: k.
Proof.
  intros (k1 & x & k2 & -> & _)%drop_last_Some. destruct k1 as [|y k1]; [by eauto|].
  exists y, (k1 ++ x :: k2). done.
Qed.

(** The parent of an absolute path is absolute and one component shorter. *)
Lemma path_parent_abs p q :
  starts_with "/" p = true → path_parent p = Some q →
  starts_with "/" q = true ∧ ∃ c, components p = components q ++ [c].
Proof.
  intros [body ->]%starts_with_true. unfold path_parent. rewrite strip_prefix_app.
  intros (l & Hl & ->)%fmap_Some. split; [by apply starts_with_app|].
  destruct (norm_drop_last _ _ Hl) as [c Hc]. exists c.
  rewrite !components_abs, Hc, norm_split_join; [done|].
  destruct (drop_last_prefix _ _ Hl) as (x & k & Hs). pose proof (split_no_slash body) as HF.
  rewrite Hs, Forall_app in HF. apply HF.
Qed.

Lemma starts_with_slash s : starts_with "/" s = true → ∃ r, split "/" s = "" :: split "/" r.
Proof. intros [r ->]%starts_with_true. exists r. apply slash_cons. Qed.

(** A relative path's components, from its segments. *)
Lemma components_rel p :
  starts_with "/" p = false →
  components p = match split "/" p with
                 | seg :: body =>
                     if String.eqb seg "." then CurDir :: norm body else norm (seg :: body)
                 | [] => []
                 end.
Proof.
  intros Hp. unfold components. rewrite Hp. fold (norm (split "/" p)).
  destruct (split "/" p) as [|seg segs]; [done|].
  by destruct (String.eqb_spec seg ".") as [->|Hne].
Qed.

Lemma path_parent_root p :
  starts_with "/" p = true → path_parent p = None → components p = [RootDir].
Proof.
  intros [body ->]%starts_with_true. unfold path_parent. rewrite strip_prefix_app.
  intros Hn%fmap_None. apply drop_last_None in Hn. by rewrite components_abs, Hn.
Qed.

Lemma starts_char_cons c a s : starts_with (String c "") (String a s) = Ascii.eqb c a.
Proof. unfold starts_with. simpl. by destruct (Ascii.eqb c a). Qed.

(** The parent of any path is one component shorter. *)
Lemma path_parent_components p q :
  path_parent p = Some q → ∃ c, components p = components q ++ [c].
Proof.
  destruct (starts_with "/" p) eqn:Hp.
  { intros Hq. by destruct (path_parent_abs p q Hp Hq). }
  assert (strip_prefix "/" p = None) as Hstrip.
  { unfold starts_with in Hp. by destruct (strip_prefix "/" p). }
  unfold path_parent. rewrite Hstrip, (components_rel p Hp).
  pose proof (split_no_slash p) as HF. pose proof (join_split "/" p) as Hj.
  destruct (split "/" p) as [|seg segs] eqn:Es; [by destruct (split_fuel_nonnil _ _ _ Es)|].
  destruct (String.eqb_spec seg ".") as [->|Hne].
  - intros [= <-]. destruct (drop_last (reverse segs)) as [l|] eqn:El.
    + assert (Forall (λ s, contains "/" s = false) ("." :: l)) as HF'.
      { destruct (drop_last_prefix _ _ El) as (x & k & ->).
        rewrite app_comm_cons, Forall_app in HF. apply HF. }
      destruct (norm_drop_last _ _ El) as [c Hc]. exists c. rewrite Hc.
      assert (starts_with "/" (join "/" ("." :: l)) = false) as Hn by (by destruct l).
      change (CurDir :: norm l ++ [c] = components (join "/" ("." :: l)) ++ [c]).
      by rewrite (components_rel _ Hn), split_join_char.
    + exists CurDir. apply drop_last_None in El. by rewrite El.
  - intros (l & El & ->)%fmap_Some. destruct (norm_drop_last _ _ El) as [c Hc]. exists c.
    rewrite Hc. f_equal. destruct (drop_last_prefix _ _ El) as (x & k & Hs).
    destruct l as [|y l]; [done|]. injection Hs as <- Hk.
    assert (starts_with "/" (join "/" (seg :: l)) = false) as Hn.
    { rewrite Hk, join_cons in Hj by (by destruct l). destruct seg as [|a seg].
      - rewrite <-Hj in Hp. by rewrite str_app_nil_l, starts_with_app in Hp.
      - rewrite <-Hj, str_app_cons, starts_char_cons in Hp.
        destruct l; [change (starts_with "/" (String a seg) = false)
                    |rewrite join_cons, str_app_cons by done]; by rewrite starts_char_cons. }
    rewrite Hk, app_comm_cons, Forall_app in HF. destruct HF as [HF _].
    rewrite (components_rel _ Hn), split_join_char by done.
    by destruct (String.eqb_spec seg ".").
Qed.

Example components_ex1 :
  components "/a//b/./c/" = [RootDir; Normal "a"; Normal "b"; Normal "c"].
Proof. reflexivity. Qed.

Example components_ex2 :
  components "./a/../b" = [CurDir; Normal "a"; ParentDir; Normal "b"].
Proof. reflexivity. Qed.

Example path_parent_ex :
  map path_parent ["/a//b/./"; "/a"; "/"; "a/b"; "./a"; "."; "a"; ""]
  = [Some "/a"; Some "/"; None; Some "a"; Some "."; Some ""; Some ""; None].
Proof. reflexivity. Qed.
