(* ===== verification/Types.v ===== *)
(** * Types: the data model of the runner ([src/types/])

    - [NodeId] and the [::] grammar ([node_id.rs]);
    - [MarkerSet], [TestItem] and the fixture-module records ([item.rs]);
    - [OutcomeKind], [TestOutcome] and the diagnostics they carry
      ([outcome.rs]);
    - [ExitCode], [TestTiming] and the [--maxfail] accumulator ([exit.rs]).

    A [NodeId] is its string.  [HashSet<Arc<str>>] is [gset string].  [u8] bit
    flags are [Z] with [Z.land]/[Z.lor]. *)
From S2P Require Import Prelude Text F64.

(** ** Node ids ([src/types/node_id.rs]) *)

Module NodeId.

Abbreviation t := string (only parsing).

Definition new (module_path fn_name : string) (param_id : option string) : t :=
  let s := module_path +:+ "::" +:+ fn_name in
  match param_id with
  | Some id => s +:+ "[" +:+ id +:+ "]"
  | None => s
  end.

Definition split_node_id_once (s : string) : option (string * string) := split_once "::" s.

Definition split_node_id_str (s : string) : string * list string :=
  match split_node_id_once s with
  | None => (s, [])
  | Some (file, rest) => (file, split "::" rest)
  end.

Definition module_path (id : t) : option string := fst <$> split_node_id_once id.

End NodeId.

(** A path that the [::] grammar cannot confuse: no [::] starts inside it, not
    even one that uses the colon of the separator that follows. *)
Definition clean_path (m : string) : Prop := contains "::" (m +:+ ":") = false.

Lemma clean_path_split m r : clean_path m → split_once "::" (m +:+ "::" +:+ r) = Some (m, r).
Proof.
  unfold clean_path. intros Hm. apply split_once_first; [done|]. intros x y Hxy.
  destruct (decide (y = "")) as [|Hy]; [done|]. exfalso.
  assert (contains "::" (m +:+ ":") = true); [|congruence].
  assert (∃ y' c, y = y' +:+ String c "") as (y' & c & ->).
  { clear -Hy. induction y as [|a y IH]; [done|]. destruct y as [|b y].
    - by exists "", a.
    - destruct IH as (y' & c & E); [done|]. exists (String a y'), c.
      by rewrite E, str_app_cons. }
  apply contains_true. exists x, y'.
  assert (Hlast : ∀ u v a b, u +:+ String a "" = v +:+ String b "" → u = v).
  { clear. induction u as [|p u IH]; intros [|q v] a b; rewrite ?str_app_nil_l, ?str_app_cons;
      [done|..].
    - intros [= _ H]. by destruct v.
    - intros [= _ H]. by destruct u.
    - intros [= -> H]. f_equal. by eapply IH. }
  change "::" with (":" +:+ ":") in Hxy at 1. rewrite <-!str_app_assoc in Hxy.
  apply Hlast in Hxy. by rewrite Hxy, !str_app_assoc.
Qed.

Lemma new_shape m f p :
  NodeId.new m f p
  = m +:+ "::" +:+ f +:+ match p with Some id => "[" +:+ id +:+ "]" | None => "" end.
Proof.
  unfold NodeId.new. destruct p; rewrite ?str_app_nil_r; [|done].
  by rewrite !str_app_assoc.
Qed.

(** ** Markers ([src/types/item.rs]) *)

Module MarkerSet.

Definition MARKER_SKIP : Z := 1.
Definition MARKER_XFAIL : Z := 2.
Definition MARKER_TIMEOUT : Z := 4.
Definition MARKER_INPROCESS : Z := 8.

Record t := mk { builtins : Z; custom : gset string }.

Definition new : t := mk 0 ∅.

Definition has_bit (s : t) (bit : Z) : bool := negb (Z.land (builtins s) bit =? 0)%Z.
Definition has_skip (s : t) : bool := has_bit s MARKER_SKIP.
Definition has_xfail (s : t) : bool := has_bit s MARKER_XFAIL.
Definition has_timeout (s : t) : bool := has_bit s MARKER_TIMEOUT.
Definition has_inprocess (s : t) : bool := has_bit s MARKER_INPROCESS.

(** The bit a builtin name is stored in. *)
Definition builtin_bit (name : string) : option Z :=
  if String.eqb name "skip" then Some MARKER_SKIP
  else if String.eqb name "xfail" then Some MARKER_XFAIL
  else if String.eqb name "timeout" then Some MARKER_TIMEOUT
  else if String.eqb name "inprocess" then Some MARKER_INPROCESS
  else None.

Definition has (s : t) (name : string) : bool :=
  match builtin_bit name with
  | Some bit => has_bit s bit
  | None => bool_decide (name ∈ custom s)
  end.

Definition is_empty (s : t) : bool := (builtins s =? 0)%Z && bool_decide (custom s = ∅).

(** [count_ones] of a [u8]. *)
Definition count_ones (b : Z) : nat :=
  length (List.filter (λ i, Z.testbit b (Z.of_nat i)) (seq 0 8)).

Definition len (s : t) : nat := count_ones (builtins s) + size (custom s).

Definition builtin_table : list (Z * string) :=
  [(MARKER_SKIP, "skip"); (MARKER_XFAIL, "xfail");
   (MARKER_TIMEOUT, "timeout"); (MARKER_INPROCESS, "inprocess")].

(** [iter()]: builtins first, then the custom names in the set's own order. *)
Definition iter (s : t) : list string :=
  map snd (List.filter (λ e, has_bit s e.1) builtin_table) ++ elements (custom s).

Definition to_vec (s : t) : list string := iter s.

Definition join (s : t) (sep : string) : string := Text.join sep (iter s).

Definition add (s : t) (name : string) : t :=
  match builtin_bit name with
  | Some bit => mk (Z.lor (builtins s) bit) (custom s)
  | None => mk (builtins s) ({[name]} ∪ custom s)
  end.

(** [From<Vec<String>>] *)
Definition from_vec (names : list string) : t := fold_left add names new.

End MarkerSet.

(** ** Items ([src/types/item.rs]) *)

Record ParamPair := { pp_name : string; pp_value : string }.

Inductive ArrangedEntry :=
  | ArrangedType (name : string)
  | ArrangedName (name : string).

Record TestItem := {
  node_id : NodeId.t;
  fn_name : string;
  lineno : nat;
  markers : MarkerSet.t;
  param_id : option string;
  param_values : list ParamPair;
  is_async : bool;
  fixture_deps : list (string * string);
  fixref_deps : list (string * string);
  arranged : list ArrangedEntry
}.

Definition item_module_path (item : TestItem) : string :=
  default "" (NodeId.module_path (node_id item)).

Record PackageDeclaration := { pd_fn_name : string; pd_lineno : nat }.

Record FixtureModule := {
  fm_module : string;
  fm_anchor : string;
  package_declarations : list PackageDeclaration
}.

Definition declares_package (m : FixtureModule) : bool :=
  match package_declarations m with [] => false | _ => true end.

(** ** Outcomes ([src/types/outcome.rs]) *)

Module OutcomeKind.

Inductive t :=
  | Passed | Failed | Error | Skipped | Warned | XFailed | XPassed | Timeout | Flaky | Unknown.

#[global] Instance eq_dec : EqDecision t.
Proof. solve_decision. Defined.

Definition COUNT : nat := 10.

(** [kind as usize] *)
Definition index (k : t) : nat :=
  match k with
  | Passed => 0 | Failed => 1 | Error => 2 | Skipped => 3 | Warned => 4
  | XFailed => 5 | XPassed => 6 | Timeout => 7 | Flaky => 8 | Unknown => 9
  end.

Definition is_retryable_failure (k : t) : bool :=
  match k with Failed | Error | Timeout => true | _ => false end.

Definition as_str (k : t) : string :=
  match k with
  | Passed => "passed" | Failed => "failed" | Error => "error" | Skipped => "skipped"
  | Warned => "warned" | XFailed => "xfailed" | XPassed => "xpassed"
  | Timeout => "timeout" | Flaky => "flaky" | Unknown => "unknown"
  end.

(** serde's variant names: [rename_all = "snake_case"], the two [rename]s and
    the [other] catch-all. *)
Definition of_wire (s : string) : t :=
  if String.eqb s "passed" then Passed
  else if String.eqb s "failed" then Failed
  else if String.eqb s "error" then Error
  else if String.eqb s "skipped" then Skipped
  else if String.eqb s "warned" then Warned
  else if String.eqb s "xfailed" then XFailed
  else if String.eqb s "xpassed" then XPassed
  else if String.eqb s "timeout" then Timeout
  else if String.eqb s "flaky" then Flaky
  else Unknown.

End OutcomeKind.

Record LocalVar := { lv_name : string; lv_repr : string }.
Record FieldDiff := { fd_field : string; fd_left : string; fd_right : string }.

Record Frame := {
  fr_file : string;
  fr_lineno : nat;
  fr_name : string;
  fr_line : string;
  fr_locals : list LocalVar
}.

Record ComparisonDetail := {
  cd_left : string;
  cd_right : string;
  cd_op : string;
  cd_field_diffs : list FieldDiff
}.

Record FailureDiagnostic := {
  diag_message : string;
  diag_file : string;
  diag_lineno : nat;
  diag_source_line : string;
  diag_frames : list Frame;
  diag_comparison : option ComparisonDetail;
  diag_usage_error : bool
}.

Definition diagnostic_error (message file : string) (lineno : nat) (source_line : string)
    (frames : list Frame) : FailureDiagnostic :=
  {| diag_message := message; diag_file := file; diag_lineno := lineno;
     diag_source_line := source_line; diag_frames := frames;
     diag_comparison := None; diag_usage_error := false |}.

Definition diagnostic_sentinel (message : string) : FailureDiagnostic :=
  diagnostic_error message "" 0 "" [].

Definition sentinel_with_usage (message : string) (usage : bool) : FailureDiagnostic :=
  {| diag_message := message; diag_file := ""; diag_lineno := 0;
     diag_source_line := ""; diag_frames := [];
     diag_comparison := None; diag_usage_error := usage |}.

Module TestOutcome.

Inductive t :=
  | Passed (tips : option (list nat))
  | Failed (d : FailureDiagnostic)
  | Error (d : FailureDiagnostic)
  | Skipped (reason : string)
  | Warned (reason : string) (tips : option (list nat))
  | XFailed (reason : string)
  | XPassed (strict : bool)
  | Timeout (message : string)
  | Flaky (message : string) (original : OutcomeKind.t).

Definition is_hard_failure (o : t) : bool :=
  match o with
  | Failed _ | Error _ | Timeout _ | XPassed true => true
  | _ => false
  end.

Definition as_str (o : t) : string :=
  match o with
  | Passed _ => "passed" | Failed _ => "failed" | Error _ => "error"
  | Skipped _ => "skipped" | Warned _ _ => "warned" | XFailed _ => "xfailed"
  | XPassed _ => "xpassed" | Timeout _ => "timeout" | Flaky _ _ => "flaky"
  end.

Definition message (o : t) : option string :=
  let nonempty s := if String.eqb s "" then None else Some s in
  match o with
  | Passed _ | XPassed _ => None
  | Failed d | Error d => nonempty (diag_message d)
  | Timeout m | Flaky m _ => nonempty m
  | Skipped r | Warned r _ | XFailed r => nonempty r
  end.

Definition diagnostic (o : t) : option FailureDiagnostic :=
  match o with Failed d | Error d => Some d | _ => None end.

Definition error_sentinel (message : string) : t := Error (diagnostic_sentinel message).

(** Decimal digits of a number, as [{}] prints an integer. *)
Definition show_nat (n : nat) : string := pretty.pretty n.

(** The watchdog is a [Duration]; [as_secs] drops the sub-second part. *)
Definition timed_out_sentinel (watchdog_ms : nat) : t * f64 :=
  (error_sentinel
     ("Worker subprocess unresponsive after " +:+ show_nat (watchdog_ms / 1000) +:+ "s"),
   f64_of_Z (Z.of_nat watchdog_ms)).

Definition crashed_sentinel : t := error_sentinel "Worker subprocess exited unexpectedly".

(** [From<&TestOutcome> for OutcomeKind] *)
Definition kind (o : t) : OutcomeKind.t :=
  match o with
  | Passed _ => OutcomeKind.Passed | Failed _ => OutcomeKind.Failed
  | Error _ => OutcomeKind.Error | Skipped _ => OutcomeKind.Skipped
  | Warned _ _ => OutcomeKind.Warned | XFailed _ => OutcomeKind.XFailed
  | XPassed _ => OutcomeKind.XPassed | Timeout _ => OutcomeKind.Timeout
  | Flaky _ _ => OutcomeKind.Flaky
  end.

End TestOutcome.

Inductive CollectError :=
  | ImportError (path message : string)
  | PyError (message : string)
  | AffectedErr (message : string).

(** [Display] of a collection error. *)
Definition show_collect_error (e : CollectError) : string :=
  match e with
  | ImportError path message => "collection error in " +:+ path +:+ ":" +:+ newline +:+ message
  | PyError message => message
  | AffectedErr message => message
  end.

(** ** Exit codes and the failure limit ([src/types/exit.rs]) *)

Module ExitCode.

Inductive t := Success | Failure | Interrupted | CollectErr | UsageError.

#[global] Instance eq_dec : EqDecision t.
Proof. solve_decision. Defined.

Definition as_i32 (c : t) : Z :=
  match c with
  | Success => 0 | Failure => 1 | Interrupted => 2 | CollectErr => 3 | UsageError => 4
  end.

End ExitCode.

Record TestTiming := {
  tt_node_id : NodeId.t;
  tt_duration_ms : f64;
  tt_outcome : OutcomeKind.t
}.

Record ResolvedOutcome := {
  ro_node_id : NodeId.t;
  ro_duration_ms : f64;
  ro_outcome : TestOutcome.t
}.

Module FailureAccumulator.

Record t := mk { count : nat; max : nat }.

Definition new (maxfail : nat) : t := mk 0 maxfail.

Definition record (acc : t) (outcome : TestOutcome.t) : t * bool :=
  let c := if TestOutcome.is_hard_failure outcome then S (count acc) else count acc in
  (mk c (max acc), (0 <? max acc) && (max acc <=? c)).

(** Feed outcomes in order until [record] says to stop: what both execution
    loops do with it. *)
Fixpoint run (acc : t) (l : list TestOutcome.t) : list TestOutcome.t * bool :=
  match l with
  | [] => ([], false)
  | o :: l' =>
      let '(acc', stop) := record acc o in
      if stop then ([o], true)
      else let '(done, s) := run acc' l' in (o :: done, s)
  end.

End FailureAccumulator.

(** * Theorems *)

(** ** Node ids *)

(** Splitting happens at the first occurrence: no later than any other. *)
Lemma split_once_earliest sep a b :
  ∃ a' b', split_once sep (a +:+ sep +:+ b) = Some (a', b') ∧
           String.length a' ≤ String.length a.
Proof.
  induction a as [|c a IH].
  - exists "", b. rewrite split_once_unfold, str_app_nil_l, strip_prefix_app. split; [done|simpl; lia].
  - rewrite split_once_unfold, str_app_cons.
    destruct (strip_prefix sep _) as [r|]; [exists "", r; simpl; split; [done|lia]|].
    destruct IH as (a' & b' & -> & ?). exists (String c a'), b'. simpl. split; [done|lia].
Qed.

(** The module path read back from a node id is the path it was built from
    exactly when that path is clean, that is, holds no [::] and does not end in
    a colon.  Everything that groups, schedules or filters tests by file rests
    on this reading of [NodeId::new]. *)
Theorem node_id_module_path m f p :
  NodeId.module_path (NodeId.new m f p) = Some m ↔ clean_path m.
Proof.
  unfold NodeId.module_path, NodeId.split_node_id_once. rewrite new_shape. split.
  - unfold clean_path. intros H. apply not_true_iff_false. intros (a & b & Hab)%contains_true.
    set (r := f +:+ _) in H.
    destruct (split_once_earliest "::" a (b +:+ ":" +:+ r)) as (a' & b' & Hs & Hl).
    replace (a +:+ "::" +:+ b +:+ ":" +:+ r) with (m +:+ "::" +:+ r) in Hs.
    + rewrite Hs in H. simpl in H. injection H as ->.
      apply (f_equal String.length) in Hab. rewrite !str_length_app in Hab. simpl in Hab. lia.
    + change "::" with (":" +:+ ":") at 1. rewrite !str_app_assoc, <-(str_app_assoc m), Hab.
      by rewrite !str_app_assoc.
  - intros Hm. by rewrite clean_path_split.
Qed.

Lemma no_bracket_split f g r s :
  contains "[" f = false → contains "[" g = false →
  f +:+ "[" +:+ r = g +:+ "[" +:+ s → f = g ∧ r = s.
Proof.
  revert g. induction f as [|c f IH]; intros [|d g] Hf Hg; rewrite ?str_app_nil_l, ?str_app_cons.
  - intros H. split; [done|]. by injection H.
  - intros [= <- H]. rewrite contains_unfold in Hg. done.
  - intros [= -> H]. rewrite contains_unfold in Hf. done.
  - intros [= -> H]. rewrite contains_unfold in Hf, Hg.
    destruct (starts_with _ _), (starts_with _ _); try done.
    by destruct (IH g Hf Hg H) as [-> ->].
Qed.

Lemma no_bracket_nonparam f g r :
  contains "[" f = false → f = g +:+ "[" +:+ r → False.
Proof.
  intros Hf ->. assert (contains "[" (g +:+ "[" +:+ r) = true); [|congruence].
  apply contains_true. eauto.
Qed.

(** Two tests with clean module paths and bracket-free function names that
    render to the same node id are the same module, function and parameter:
    the map keyed by node ids that the coordinator builds confuses no tests. *)
Theorem node_id_injective m f p m' f' p' :
  clean_path m → clean_path m' → contains "[" f = false → contains "[" f' = false →
  NodeId.new m f p = NodeId.new m' f' p' → m = m' ∧ f = f' ∧ p = p'.
Proof.
  intros Hm Hm' Hf Hf' E. rewrite !new_shape in E.
  assert (Some (m, f +:+ match p with Some id => "[" +:+ id +:+ "]" | None => "" end) =
          Some (m', f' +:+ match p' with Some id => "[" +:+ id +:+ "]" | None => "" end)) as E'.
  { rewrite <-(clean_path_split m _ Hm), <-(clean_path_split m' _ Hm'). by rewrite E. }
  injection E' as -> E'. split; [done|].
  destruct p as [i|], p' as [i'|]; rewrite ?str_app_nil_r in E'.
  - apply no_bracket_split in E' as [-> E']; [|done..].
    split; [done|]. f_equal.
    assert (String.length i = String.length i') as Hl.
    { apply (f_equal String.length) in E'. rewrite !str_length_app in E'. simpl in E'. lia. }
    by apply str_app_split in E' as [-> _].
  - exfalso. by eapply (no_bracket_nonparam f').
  - exfalso. by eapply (no_bracket_nonparam f).
  - by rewrite E'.
Qed.

Lemma node_id_injective_witness :
  NodeId.new "tests/test_a.py" "test_add" (Some "a") ≠ NodeId.new "tests/test_a.py" "test_add" None.
Proof.
  intros E. destruct (node_id_injective "tests/test_a.py" "test_add" (Some "a")
    "tests/test_a.py" "test_add" None) as (_ & _ & H); try reflexivity; [exact E|discriminate H].
Defined.

(** Splitting a node id into its file and its chain of segments loses
    nothing: joining the parts with [::] gives the string back, and the file
    part is the module path whenever there is one. *)
Theorem split_node_id_str_roundtrip s :
  let '(file, chain) := NodeId.split_node_id_str s in
  Text.join "::" (file :: chain) = s ∧
  (∀ m, NodeId.module_path s = Some m → file = m).
Proof.
  unfold NodeId.split_node_id_str, NodeId.module_path, NodeId.split_node_id_once.
  destruct (split_once "::" s) as [[file rest]|] eqn:E; simpl; [|done].
  split; [|by intros m [= ->]].
  change (Text.join "::" (file :: split "::" rest) = s).
  rewrite join_cons by apply split_fuel_nonnil.
  rewrite join_split. by apply split_once_Some in E.
Qed.

(** ** Marker sets *)

(** What [from_vec] builds and every operation keeps: only the four flag bits,
    and no builtin name among the custom ones. *)
Definition marker_wf (s : MarkerSet.t) : Prop :=
  (0 ≤ MarkerSet.builtins s < 16)%Z ∧
  ∀ name, name ∈ MarkerSet.custom s → MarkerSet.builtin_bit name = None.

Lemma builtin_bit_cases name b :
  MarkerSet.builtin_bit name = Some b → b = 1%Z ∨ b = 2%Z ∨ b = 4%Z ∨ b = 8%Z.
Proof. unfold MarkerSet.builtin_bit. repeat case_one; naive_solver. Qed.

Lemma builtin_bit_inj n1 n2 b :
  MarkerSet.builtin_bit n1 = Some b → MarkerSet.builtin_bit n2 = Some b → n1 = n2.
Proof.
  unfold MarkerSet.builtin_bit.
  repeat match goal with
  | |- context [String.eqb ?a ?b] => destruct (String.eqb_spec a b)
  end; intros; simplify_eq/=; done.
Qed.

Lemma marker_bits16 (b : Z) : (0 ≤ b < 16)%Z →
  b ∈ [0;1;2;3;4;5;6;7;8;9;10;11;12;13;14;15]%Z.
Proof. intros. rewrite !elem_of_cons. lia. Qed.

Ltac marker_cases H :=
  apply marker_bits16 in H; rewrite !elem_of_cons in H;
  destruct_or? H; [subst..|by apply elem_of_nil in H].

Lemma add_wf s name : marker_wf s → marker_wf (MarkerSet.add s name).
Proof.
  destruct s as [b c]. intros [Hb Hc]. unfold MarkerSet.add.
  destruct (MarkerSet.builtin_bit name) as [bit|] eqn:E; split; simpl in *; try done.
  - apply builtin_bit_cases in E. marker_cases Hb; destruct_or? E; subst; split; by vm_compute.
  - intros n [->%elem_of_singleton|]%elem_of_union; auto.
Qed.

Lemma new_wf : marker_wf MarkerSet.new.
Proof. split; simpl; [lia|set_solver]. Qed.

Lemma from_vec_wf names : marker_wf (MarkerSet.from_vec names).
Proof.
  unfold MarkerSet.from_vec. assert (Hgen : ∀ s, marker_wf s → marker_wf (fold_left MarkerSet.add names s)).
  { induction names as [|n l IH]; intros s Hs; simpl; [done|]. by apply IH, add_wf. }
  apply Hgen, new_wf.
Qed.

#[export] Hint Resolve add_wf new_wf from_vec_wf : oxi.

Lemma has_add s name n :
  marker_wf s → MarkerSet.has (MarkerSet.add s name) n = MarkerSet.has s n || bool_decide (n = name).
Proof.
  destruct s as [b c]. intros [Hb Hc]. unfold MarkerSet.has, MarkerSet.add, MarkerSet.has_bit.
  destruct (MarkerSet.builtin_bit n) as [bn|] eqn:En,
    (MarkerSet.builtin_bit name) as [bm|] eqn:Em; simpl in *.
  - case_bool_decide as Hn.
    + subst n. rewrite En in Em. injection Em as <-. rewrite orb_true_r.
      apply builtin_bit_cases in En. marker_cases Hb; destruct_or? En; subst; done.
    + rewrite orb_false_r. assert (bn ≠ bm) as Hne.
      { intros ->. apply Hn. by eapply builtin_bit_inj. }
      apply builtin_bit_cases in En, Em.
      marker_cases Hb; destruct_or? En; destruct_or? Em; subst; done.
  - rewrite bool_decide_eq_false_2, orb_false_r; [done|]. intros ->. congruence.
  - rewrite (bool_decide_eq_false_2 (n = name)), orb_false_r; [done|]. intros ->. congruence.
  - rewrite <-bool_decide_or. apply bool_decide_ext. set_solver.
Qed.

Lemma has_from_vec names n :
  MarkerSet.has (MarkerSet.from_vec names) n = bool_decide (n ∈ names).
Proof.
  unfold MarkerSet.from_vec.
  assert (Hgen : ∀ s, marker_wf s →
    MarkerSet.has (fold_left MarkerSet.add names s) n = MarkerSet.has s n || bool_decide (n ∈ names)).
  { induction names as [|m l IH]; intros s Hs; cbn [fold_left].
    - change (bool_decide (n ∈ ([] : list string))) with false. by rewrite orb_false_r.
    - rewrite IH, has_add by auto with oxi. rewrite <-orb_assoc. f_equal.
      rewrite <-bool_decide_or. apply bool_decide_ext. set_solver. }
  rewrite Hgen by apply new_wf. unfold MarkerSet.has. destruct (MarkerSet.builtin_bit n) eqn:E; [|done].
  apply builtin_bit_cases in E. destruct_or? E; by subst.
Qed.

Lemma elem_of_iter s n : marker_wf s → n ∈ MarkerSet.iter s ↔ MarkerSet.has s n = true.
Proof.
  intros [Hb Hc]. unfold MarkerSet.iter, MarkerSet.has.
  rewrite elem_of_app, elem_of_elements, map_elem.
  setoid_rewrite filter_elem. unfold MarkerSet.builtin_table.
  destruct (MarkerSet.builtin_bit n) as [bit|] eqn:E.
  - split.
    + intros [([b m] & [Hin Hbit] & Hm)|Hin%Hc]; [|congruence]. simpl in *. subst m.
      assert (MarkerSet.builtin_bit n = Some b) as E'.
      { rewrite !elem_of_cons in Hin. destruct_or? Hin; [by simplify_eq..|].
        by apply elem_of_nil in Hin. }
      by simplify_eq.
    + intros H. left. exists (bit, n). split; [|done]. split; [|done].
      unfold MarkerSet.builtin_bit in E.
      repeat match type of E with
      | context [String.eqb ?a ?b] => destruct (String.eqb_spec a b)
      end; simplify_eq; set_solver.
  - rewrite bool_decide_eq_true. split; [|auto].
    intros [([b m] & [Hin _] & Hm)|?]; [|done]. simpl in *. subst m. exfalso.
    rewrite !elem_of_cons in Hin. destruct_or? Hin; [by simplify_eq..|].
    by apply elem_of_nil in Hin.
Qed.

Lemma marker_ext s1 s2 :
  marker_wf s1 → marker_wf s2 → (∀ n, MarkerSet.has s1 n = MarkerSet.has s2 n) → s1 = s2.
Proof.
  destruct s1 as [b1 c1], s2 as [b2 c2]. intros [Hb1 Hc1] [Hb2 Hc2] H.
  unfold MarkerSet.has in H. simpl in *. f_equal.
  - pose proof (H "skip") as H1. pose proof (H "xfail") as H2.
    pose proof (H "timeout") as H3. pose proof (H "inprocess") as H4. clear H Hc1 Hc2.
    unfold MarkerSet.has_bit in *. simpl in *.
    marker_cases Hb1; marker_cases Hb2; done.
  - apply leibniz_equiv. intros n. destruct (MarkerSet.builtin_bit n) eqn:E.
    + split; [intros Hin%Hc1|intros Hin%Hc2]; congruence.
    + specialize (H n). rewrite E in H.
      by rewrite <-(bool_decide_eq_true (n ∈ c1)), <-(bool_decide_eq_true (n ∈ c2)), H.
Qed.

(** C36: A marker set built from a list of names is well formed and answers
    [has] with membership in that list, whatever the names: the bit flags and
    the custom set implement one set of names. *)
Theorem marker_set_refines_names names :
  marker_wf (MarkerSet.from_vec names) ∧
  (∀ n, MarkerSet.has (MarkerSet.from_vec names) n = bool_decide (n ∈ names)) ∧
  (∀ n, n ∈ MarkerSet.iter (MarkerSet.from_vec names) ↔ n ∈ names) ∧
  MarkerSet.has_inprocess (MarkerSet.from_vec names) = bool_decide ("inprocess" ∈ names).
Proof.
  split_and!; [apply from_vec_wf|apply has_from_vec| |apply (has_from_vec names "inprocess")].
  intros n. rewrite elem_of_iter by apply from_vec_wf.
  by rewrite has_from_vec, bool_decide_eq_true.
Qed.

(** Serialising a marker set to its list of names and reading it back, as
    the module cache does, gives the same set; and names listed twice or in
    another order are the same set. *)
Theorem marker_set_roundtrip s names :
  marker_wf s →
  MarkerSet.from_vec (MarkerSet.to_vec s) = s ∧
  ((∀ n, n ∈ names ↔ n ∈ MarkerSet.to_vec s) → MarkerSet.from_vec names = s).
Proof.
  intros Hs.
  assert (Hgen : (∀ n, n ∈ names ↔ n ∈ MarkerSet.to_vec s) → MarkerSet.from_vec names = s).
  { intros Hn. apply marker_ext; [apply from_vec_wf|done|]. intros n.
    rewrite has_from_vec. apply eq_bool_prop_intro.
    by rewrite bool_decide_spec, Hn, elem_of_iter, Is_true_true. }
  split; [|done]. clear Hgen. apply marker_ext; [apply from_vec_wf|done|]. intros n.
  rewrite has_from_vec. apply eq_bool_prop_intro.
  by rewrite bool_decide_spec, elem_of_iter, Is_true_true.
Qed.

Lemma marker_set_roundtrip_witness :
  MarkerSet.from_vec ["slow"; "skip"; "skip"] = MarkerSet.from_vec ["skip"; "slow"].
Proof.
  apply (marker_set_roundtrip (MarkerSet.from_vec ["skip"; "slow"]) ["slow"; "skip"; "skip"]).
  - apply from_vec_wf.
  - intros n. unfold MarkerSet.to_vec. rewrite elem_of_iter by apply from_vec_wf.
    rewrite has_from_vec, bool_decide_eq_true. set_solver.
Defined.

(** ** The failure limit *)

Fixpoint hard_failures (l : list TestOutcome.t) : nat :=
  match l with
  | [] => 0
  | o :: l' => (if TestOutcome.is_hard_failure o then 1 else 0) + hard_failures l'
  end.

Lemma maxfail_run_gen acc l :
  FailureAccumulator.count acc < FailureAccumulator.max acc →
  let '(done, stopped) := FailureAccumulator.run acc l in
  done `prefix_of` l ∧
  (stopped = true →
     FailureAccumulator.count acc + hard_failures done = FailureAccumulator.max acc ∧
     ∃ d o, done = d ++ [o] ∧ TestOutcome.is_hard_failure o = true) ∧
  (stopped = false →
     done = l ∧ FailureAccumulator.count acc + hard_failures l < FailureAccumulator.max acc).
Proof.
  revert acc. induction l as [|o l IH]; intros [c m]; simpl; intros Hc.
  { split_and!; [done..|]. intros _. split; [done|]. lia. }
  destruct (Nat.ltb_spec 0 m); [|lia]. simpl.
  destruct (TestOutcome.is_hard_failure o) eqn:Ho; simpl.
  - destruct (Nat.leb_spec m (S c)); simpl.
    + split_and!; [by exists l| |done]. intros _. rewrite Ho. split; [lia|]. by exists [], o.
    + specialize (IH (FailureAccumulator.mk (S c) m) ltac:(simpl; lia)).
      destruct (FailureAccumulator.run _ l) as [done s]. simpl in *. rewrite Ho.
      destruct IH as (Hp & Hs & Hn). split_and!.
      * by apply prefix_cons.
      * intros H'. destruct (Hs H') as (E & d & o' & -> & ?). split; [lia|]. by exists (o :: d), o'.
      * intros H'. destruct (Hn H') as [-> ?]. split; [done|lia].
  - destruct (Nat.leb_spec m c); [lia|]. simpl.
    specialize (IH (FailureAccumulator.mk c m) Hc).
    destruct (FailureAccumulator.run _ l) as [done s]. simpl in *. rewrite Ho.
    destruct IH as (Hp & Hs & Hn). split_and!.
    + by apply prefix_cons.
    + intros H'. destruct (Hs H') as (E & d & o' & -> & ?). split; [done|]. by exists (o :: d), o'.
    + intros H'. destruct (Hn H') as [-> ?]. split; [done|lia].
Qed.

Lemma maxfail_zero_gen c l :
  FailureAccumulator.run (FailureAccumulator.mk c 0) l = (l, false).
Proof.
  revert c. induction l as [|o l IH]; intros c; simpl; [done|].
  destruct (TestOutcome.is_hard_failure o); by rewrite IH.
Qed.

(** With [--maxfail n], [n > 0], a stream of outcomes is cut right after
    the [n]-th hard failure, and never earlier; with [--maxfail 0] it is never
    cut. *)
Theorem maxfail_cuts_at_nth_failure n l :
  let '(done, stopped) := FailureAccumulator.run (FailureAccumulator.new n) l in
  done `prefix_of` l ∧
  (stopped = true → 0 < n ∧ hard_failures done = n ∧
     ∃ d o, done = d ++ [o] ∧ TestOutcome.is_hard_failure o = true) ∧
  (stopped = false → done = l ∧ (n = 0 ∨ hard_failures l < n)).
Proof.
  destruct n as [|n].
  - unfold FailureAccumulator.new. rewrite maxfail_zero_gen. naive_solver.
  - pose proof (maxfail_run_gen (FailureAccumulator.new (S n)) l) as H. simpl in H.
    specialize (H ltac:(lia)). destruct (FailureAccumulator.run _ l) as [done s].
    destruct H as (Hp & Hs & Hn). split_and!; [done| |].
    + intros H'. destruct (Hs H') as [? ?]. split; [lia|done].
    + intros H'. destruct (Hn H') as [? ?]. eauto.
Qed.

(** ** Outcome kinds *)

(** The wire names are read back to the kind they were written from, the
    outcome and its kind agree on the name, a retryable kind is a hard failure,
    and the only hard failure that is not retried is a strict xpass. *)
Theorem outcome_kind_coherent (o : TestOutcome.t) :
  OutcomeKind.of_wire (OutcomeKind.as_str (TestOutcome.kind o)) = TestOutcome.kind o ∧
  OutcomeKind.as_str (TestOutcome.kind o) = TestOutcome.as_str o ∧
  OutcomeKind.index (TestOutcome.kind o) < OutcomeKind.COUNT ∧
  (TestOutcome.is_hard_failure o = true ↔
     OutcomeKind.is_retryable_failure (TestOutcome.kind o) = true ∨ o = TestOutcome.XPassed true).
Proof.
  destruct o as [| | | | | |[]| |]; simpl; unfold OutcomeKind.COUNT;
    split_and!; try done; try lia; split; naive_solver.
Qed.
