(* ===== verification/Colors.v ===== *)
(** * Colors: terminal styles ([colors.rs]) and the highlighter ([query/highlight.rs])

    The crate [console] turns a style into escape sequences: what it writes is
    the class [Styling].  The Python lexer (crate rustpython_parser) is a
    parameter. *)
From S2P Require Import Prelude Collections Text.

(** One constructor per function of the macro [color_fn!]. *)
Inductive TextStyle :=
  | C_pass | C_fail | C_error_token | C_skip | C_warn | C_timeout | C_dim | C_cyan | C_bold_white
  | C_dim_green | C_dim_cyan | C_blue | C_bold_cyan | C_green.

Class Styling := style : TextStyle → string → string.

(** The text alone. *)
Definition unstyled : Styling := λ _ s, s.

Section Colors.
Context {styling : Styling}.

Definition color (c : TextStyle) (s : string) (use_color : bool) : string := if use_color then style c s else s.

(** ** Highlighting *)

(** The tokens the highlighter tells apart; [Other] stands for every other one. *)
Inductive Tok :=
  | TDef | TClass | TIf | TElif | TElse | TReturn | TAssert | TAsync | TAwait | TFor | TWhile | TWith
  | TTry | TExcept | TFinally | TRaise | TYield | TImport | TFrom | TAs | TIn | TNot | TAnd | TOr | TIs
  | TPass | TBreak | TContinue | TDel | TGlobal | TNonlocal | TLambda | TMatch | TCase | TType
  | TNone | TTrue | TFalse | TString | TInt | TFloat | TComplex | TAt | TName | TOther.

(** The style of a token, given whether it follows a decorator sign, and whether
    the next one does. *)
Definition token_style (tok : Tok) (after_at : bool) : option TextStyle * bool :=
  match tok with
  | TString => (Some C_green, false)
  | TInt | TFloat | TComplex => (Some C_blue, false)
  | TAt => (Some C_dim_cyan, true)
  | TName => if after_at then (Some C_dim_cyan, false) else (None, false)
  | TOther => (None, false)
  | _ => (Some C_bold_cyan, false)
  end.

(** [&source[a..b]] *)
Definition slice (a b : nat) (source : string) : string := String.substring a (b - a) source.

(** [None] is a lexing error. *)
Fixpoint highlight_loop (source : string) (tokens : list (option (Tok * (nat * nat)))) (prev_end : nat)
    (after_at : bool) : string :=
  match tokens with
  | [] => if prev_end <? String.length source then slice prev_end (String.length source) source else ""
  | None :: _ => slice prev_end (String.length source) source
  | Some (tok, (start, end_)) :: tokens =>
      let gap := if prev_end <? start then slice prev_end start source else "" in
      let token_text := slice start end_ source in
      let '(c, after_at) := token_style tok after_at in
      let colored := match c with Some c => color c token_text true | None => token_text end in
      gap +:+ colored +:+ highlight_loop source tokens end_ after_at
  end.

Context (lex_python : string → list (option (Tok * (nat * nat)))).

Definition highlight_python (source : string) (use_color : bool) : string :=
  if use_color then highlight_loop source (lex_python source) 0 false else source.
End Colors.

(** * Theorems *)

(** Token ranges that follow one another inside the text. *)
Fixpoint ranges_from (len prev_end : nat) (tokens : list (option (Tok * (nat * nat)))) : bool :=
  match tokens with
  | [] => prev_end <=? len
  | None :: _ => prev_end <=? len
  | Some (_, (start, end_)) :: tokens => (prev_end <=? start) && (start <=? end_) && ranges_from len end_ tokens
  end.

Lemma substring_add a n m s :
  String.substring a n s +:+ String.substring (a + n) m s = String.substring a (n + m) s.
Proof.
  revert n m s. induction a as [|a IH]; intros n m s; [|destruct s; simpl; [done|apply IH]].
  revert n m. induction s as [|c s IH]; intros [|n] m; try done.
  simpl. rewrite str_app_cons. f_equal. apply (IH n m).
Qed.

Lemma slice_slice a b c s : a ≤ b → b ≤ c → slice a b s +:+ slice b c s = slice a c s.
Proof.
  intros H1 H2. unfold slice. replace b with (a + (b - a)) at 2 by lia. rewrite substring_add. f_equal. lia.
Qed.

Lemma slice_nil a s : slice a a s = "".
Proof. unfold slice. rewrite Nat.sub_diag. revert a. induction s as [|c s IH]; intros [|a]; simpl; auto. Qed.

Lemma slice_all s : slice 0 (String.length s) s = s.
Proof. unfold slice. rewrite Nat.sub_0_r. induction s as [|c s IH]; simpl; [done|by f_equal]. Qed.

Lemma gap_slice a b s : a ≤ b → (if a <? b then slice a b s else "") = slice a b s.
Proof.
  intros Hab. destruct (Nat.ltb_spec a b) as [|Hle]; [done|]. replace b with a by lia. by rewrite slice_nil.
Qed.

Lemma ranges_from_le len p tokens : ranges_from len p tokens = true → p ≤ len.
Proof.
  revert p. induction tokens as [|[[tok [s e]]|] tokens IH]; intros p H; simpl in H;
    [by apply Nat.leb_le in H| |by apply Nat.leb_le in H].
  apply andb_true_iff in H as [[H1%Nat.leb_le H2%Nat.leb_le]%andb_true_iff H3%IH]. lia.
Qed.

Lemma highlight_loop_text source tokens p after_at :
  ranges_from (String.length source) p tokens = true →
  highlight_loop (styling:=unstyled) source tokens p after_at = slice p (String.length source) source.
Proof.
  revert p after_at. induction tokens as [|[[tok [s e]]|] tokens IH]; intros p after_at Hr; cbn [highlight_loop].
  - apply gap_slice. by apply (ranges_from_le _ _ []).
  - simpl in Hr. apply andb_true_iff in Hr as [[H1%Nat.leb_le H2%Nat.leb_le]%andb_true_iff H3].
    pose proof (ranges_from_le _ _ _ H3). destruct (token_style tok after_at) as [c b].
    rewrite gap_slice, (IH e b) by done.
    replace (match c with Some c => _ | None => _ end) with (slice s e source) by (by destruct c).
    rewrite slice_slice, slice_slice by lia. done.
  - done.
Qed.

(** Highlighting changes no character of the source, whatever the lexer finds and
    even when it stops on an error: without its styles the text is the source. *)
Theorem highlighting_keeps_the_text lex_python source use_color :
  ranges_from (String.length source) 0 (lex_python source) = true →
  highlight_python (styling:=unstyled) lex_python source use_color = source.
Proof.
  intros Hr. unfold highlight_python. destruct use_color; [|done].
  rewrite highlight_loop_text by done. apply slice_all.
Qed.

Lemma highlighting_keeps_the_text_witness :
  highlight_python (styling:=unstyled)
    (λ _, [Some (TDef, (0, 3)); Some (TName, (4, 5)); None]) "def f(): $" true = "def f(): $".
Proof. by apply highlighting_keeps_the_text. Defined.
