(* ===== verification/Diff.v ===== *)
(** * Diff: the difference shown for a failed comparison ([reporter/format/diff.rs])

    The texts are the representations Python gives of the two operands.  The
    crate [similar] is a parameter. *)
From Stdlib Require Import Ascii.
From S2P Require Import Prelude Collections Text F64 Types Colors.

Inductive ChangeTag := Delete | Insert | Equal.

Definition repeat_space (n : nat) : string := String.concat "" (replicate n " ").

(** [position]: the first index at which a predicate holds. *)
Fixpoint position {A} (f : A → bool) (l : list A) : option nat :=
  match l with
  | [] => None
  | a :: l => if f a then Some 0 else S <$> position f l
  end.

Definition marker_position (left right : string) : nat :=
  default (Nat.min (String.length left) (String.length right))
    (position (λ '(l, r), negb (l =? r)%N) (zip (chars left) (chars right))).

Definition char_diff_marker (left right : string) : string :=
  repeat_space (marker_position left right) +:+ "^".

(** ** Collections *)

Definition first_byte (s : string) : option ascii := match s with "" => None | String c _ => Some c end.

Fixpoint last_byte (s : string) : option ascii :=
  match s with "" => None | String c "" => Some c | String _ s => last_byte s end.

(** What [frozenset( )] wraps. *)
Definition frozenset_inner (s : string) : option string :=
  match strip_prefix "frozenset(" s with
  | Some r => strip_suffix ")" r
  | None => None
  end.

Definition is_collection_repr (s : string) : bool :=
  if (String.length s <? 2) || contains "..." s then false
  else
    let inner := default s (frozenset_inner s) in
    match first_byte inner, last_byte inner with
    | Some a, Some b =>
        (Ascii.eqb a "[" && Ascii.eqb b "]") || (Ascii.eqb a "{" && Ascii.eqb b "}")
        || (Ascii.eqb a "(" && Ascii.eqb b ")")
    | _, _ => false
    end.

Definition squote : ascii := "'".
Definition dquote_ : ascii := ascii_of_nat 34.
Definition escape_byte : ascii := ascii_of_nat 92.

Definition is_open (c : ascii) : bool := Ascii.eqb c "[" || Ascii.eqb c "{" || Ascii.eqb c "(".
Definition is_close (c : ascii) : bool := Ascii.eqb c "]" || Ascii.eqb c "}" || Ascii.eqb c ")".

(** The scanner: the open quote, the depth, the text since the last top-level
    comma, and the parts so far. *)
Record scanner := mk_scan { sc_quote : option ascii; sc_depth : nat; sc_cur : string; sc_parts : list string }.

Definition eat (st : scanner) (c : ascii) : scanner :=
  mk_scan (sc_quote st) (sc_depth st) (sc_cur st +:+ String c "") (sc_parts st).

Definition scan_byte (st : scanner) (c : ascii) : scanner :=
  match sc_quote st with
  | Some q =>
      let st := eat st c in
      if Ascii.eqb c q then mk_scan None (sc_depth st) (sc_cur st) (sc_parts st) else st
  | None =>
      if Ascii.eqb c squote || Ascii.eqb c dquote_ then
        let st := eat st c in mk_scan (Some c) (sc_depth st) (sc_cur st) (sc_parts st)
      else if is_open c then
        let st := eat st c in mk_scan None (S (sc_depth st)) (sc_cur st) (sc_parts st)
      else if is_close c then
        let st := eat st c in mk_scan None (pred (sc_depth st)) (sc_cur st) (sc_parts st)
      else if Ascii.eqb c "," && (sc_depth st =? 0) then
        mk_scan None (sc_depth st) "" (sc_parts st ++ [trim (sc_cur st)])
      else eat st c
  end.

(** Inside quotes a escape_byte takes the next byte with it. *)
Fixpoint scan_loop (s : string) (st : scanner) : scanner :=
  match s with
  | "" => st
  | String c s' =>
      match sc_quote st with
      | Some _ =>
          if Ascii.eqb c escape_byte then
            match s' with
            | "" => eat st c
            | String d s'' => scan_loop s'' (eat (eat st c) d)
            end
          else scan_loop s' (scan_byte st c)
      | None => scan_loop s' (scan_byte st c)
      end
  end.

Definition split_top_level (s : string) : list string :=
  let st := scan_loop s (mk_scan None 0 "" []) in
  let last := trim (sc_cur st) in
  sc_parts st ++ (if String.eqb last "" then [] else [last]).

(** [s[1..len - 1]] of a text of at least two bytes. *)
Definition inner_of (s : string) : string := String.substring 1 (String.length s - 2) s.

Definition one_per_line (s : string) : string :=
  if String.length s <? 2 then s
  else
    let contents := trim (inner_of s) in
    if String.eqb contents "" then s
    else String.substring 0 1 s +:+ newline +:+
         String.concat "" (map (λ elem, "  " +:+ elem +:+ "," +:+ newline) (split_top_level contents)) +:+
         String.substring (String.length s - 1) 1 s.

(** Each [frozenset( )] is taken off, so the length is fuel enough. *)
Fixpoint pretty_loop (fuel : nat) (s : string) : string :=
  match fuel, frozenset_inner s with
  | S fuel, Some inner => "frozenset(" +:+ pretty_loop fuel inner +:+ ")"
  | _, _ => one_per_line s
  end.

Definition pretty_print_collection (s : string) : string := pretty_loop (String.length s) s.

(** ** The difference *)

Section Diff.
(** [TextDiff::from_lines(..).iter_all_changes()], with the text of each change. *)
Context (changes : string → string → list (ChangeTag * string)).
Context {styling : Styling}.

Definition fmt_single_line_diff (left right op : string) (use_color : bool) : string :=
  let left_line := "- left:  " +:+ color C_fail left use_color in
  let right_line := "+ right: " +:+ color C_pass right use_color in
  if String.eqb op "==" then
    let marker_line := repeat_space 9 +:+ color C_dim (char_diff_marker left right) use_color in
    left_line +:+ newline +:+ right_line +:+ newline +:+ marker_line +:+ newline
  else left_line +:+ newline +:+ right_line +:+ newline.

(** [trim_end_matches('\n')] *)
Fixpoint trim_newlines_rev (l : list N) : list N :=
  match l with c :: l' => if (c =? 10)%N then trim_newlines_rev l' else l | [] => [] end.

Definition trim_end_newlines (s : string) : string := of_chars (rev (trim_newlines_rev (rev (chars s)))).

Definition change_line (use_color : bool) (change : ChangeTag * string) : string :=
  let line := trim_end_newlines change.2 in
  match change.1 with
  | Delete => color C_fail ("- " +:+ line) use_color
  | Insert => color C_pass ("+ " +:+ line) use_color
  | Equal => color C_dim ("  " +:+ line) use_color
  end +:+ newline.

Definition fmt_multi_line_diff (left right : string) (use_color : bool) : string :=
  String.concat "" (map (change_line use_color) (changes left right)).

Definition fmt_diff (left right op : string) (use_color : bool) : string :=
  if String.eqb left "" && String.eqb right "" then ""
  else if String.eqb left right then ""
  else
    let plain :=
      if contains newline left || contains newline right then fmt_multi_line_diff left right use_color
      else fmt_single_line_diff left right op use_color in
    if String.eqb op "==" && is_collection_repr left && is_collection_repr right then
      let left_pp := pretty_print_collection left in
      let right_pp := pretty_print_collection right in
      if negb (String.eqb left_pp right_pp) then fmt_multi_line_diff left_pp right_pp use_color else plain
    else plain.

(** [{:<width$}] *)
Definition pad_field (width : nat) (s : string) : string := s +:+ repeat_space (width - length (chars s)).

Definition fmt_field_diffs (field_diffs : list FieldDiff) (left_repr : string) (use_color : bool) : string :=
  match field_diffs with
  | [] => ""
  | _ =>
      let type_name := match split_once "(" left_repr with Some (t, _) => t | None => "dataclass" end in
      let name_width := fold_left Nat.max (map (λ d, String.length (fd_field d)) field_diffs) 0 in
      "field diffs (" +:+ type_name +:+ "):" +:+ newline +:+
      String.concat "" (map (λ d,
        "  " +:+ pad_field name_width (fd_field d) +:+ "  " +:+ color C_fail (fd_left d) use_color
        +:+ " != " +:+ color C_pass (fd_right d) use_color +:+ newline) field_diffs)
  end.

End Diff.

(** * Theorems *)

Section DiffTheorems.
Context (changes : string → string → list (ChangeTag * string)).
Context {styling : Styling}.
(** Different texts have at least one changed line. *)
Context (changes_some : ∀ a b, a ≠ b → changes a b ≠ []).

Lemma multi_line_nonempty a b use_color : a ≠ b → fmt_multi_line_diff changes a b use_color ≠ "".
Proof.
  intros Hne E. unfold fmt_multi_line_diff in E. pose proof (changes_some a b Hne) as Hc.
  destruct (changes a b) as [|c cs]; [done|]. cbn [map] in E. unfold change_line in E at 1.
  assert (String.length (String.concat "" (map (change_line use_color) (c :: cs))) = 0) as Hl
    by (cbn [map]; unfold change_line at 1; by rewrite E).
  revert Hl. cbn [map]. unfold change_line at 1. destruct (map _ cs); cbn [String.concat];
    rewrite ?str_length_app; cbn [String.length newline]; lia.
Qed.

(** A failed comparison shows a difference exactly when the two representations
    differ, whatever they look like: reformatting collections never makes a
    difference disappear. *)
Theorem diff_silent_iff_equal left right op use_color :
  fmt_diff changes left right op use_color = "" ↔ left = right.
Proof.
  unfold fmt_diff. destruct (String.eqb_spec left right) as [->|Hne]; [by destruct (_ && _)|].
  assert ((String.eqb left "" && String.eqb right "") = false) as ->
    by (destruct (String.eqb_spec left ""), (String.eqb_spec right ""); by subst).
  split; [|done]. intros E. exfalso. set (plain := if contains newline left || _ then _ else _) in E.
  assert (plain ≠ "") as Hp.
  { unfold plain. destruct (_ || _); [by apply multi_line_nonempty|]. unfold fmt_single_line_diff.
    by destruct (String.eqb op "=="). }
  destruct (String.eqb op "==" && is_collection_repr left && is_collection_repr right); [|done].
  cbv zeta in E. destruct (String.eqb_spec (pretty_print_collection left) (pretty_print_collection right));
    [done|]. by apply multi_line_nonempty in E.
Qed.
End DiffTheorems.

(** ** Elements *)

(** The parts found so far stay. *)
Lemma scan_byte_parts st c : ∃ more, sc_parts (scan_byte st c) = sc_parts st ++ more.
Proof.
  unfold scan_byte. destruct (sc_quote st); [exists []; destruct (Ascii.eqb _ _); by rewrite app_nil_r|].
  destruct (_ || _); [by exists []; rewrite app_nil_r|]. destruct (is_open c); [by exists []; rewrite app_nil_r|].
  destruct (is_close c); [by exists []; rewrite app_nil_r|]. destruct (_ && _); [by eexists|].
  by exists []; rewrite app_nil_r.
Qed.

(** Induction on a text, two bytes at a time. *)
Lemma string_ind2 (P : string → Prop) :
  P "" → (∀ c, P (String c "")) → (∀ c d s, P s → P (String d s) → P (String c (String d s))) → ∀ s, P s.
Proof.
  intros H0 H1 H2 s. assert (P s ∧ ∀ c, P (String c s)) as [? _]; [|done].
  induction s as [|d s [IH1 IH2]]; [done|]. split; [apply IH2|]. intros c. apply H2; [done|apply IH2].
Qed.

Lemma scan_loop_cons c s st :
  scan_loop (String c s) st =
    match sc_quote st with
    | Some _ => if Ascii.eqb c escape_byte then
                  match s with "" => eat st c | String d s => scan_loop s (eat (eat st c) d) end
                else scan_loop s (scan_byte st c)
    | None => scan_loop s (scan_byte st c)
    end.
Proof. done. Qed.

Lemma scan_parts s st : ∃ more, sc_parts (scan_loop s st) = sc_parts st ++ more.
Proof.
  revert st. induction s as [|c|c d s IH1 IH2] using string_ind2; intros st.
  - exists []. by rewrite app_nil_r.
  - rewrite scan_loop_cons. destruct (sc_quote st); [destruct (Ascii.eqb c escape_byte)|];
      [exists []; by rewrite app_nil_r|apply scan_byte_parts..].
  - rewrite scan_loop_cons.
    assert (∃ more, sc_parts (scan_loop (String d s) (scan_byte st c)) = sc_parts st ++ more) as H.
    { destruct (IH2 (scan_byte st c)) as [m Hm], (scan_byte_parts st c) as [m' Hm'].
      exists (m' ++ m). by rewrite Hm, Hm', (assoc_L (++)). }
    destruct (sc_quote st); [|done]. destruct (Ascii.eqb c escape_byte); [|done]. exact (IH1 (eat (eat st c) d)).
Qed.

(** A text that ends outside quotes leaves no escape open. *)
Lemma scan_app a b st :
  sc_quote (scan_loop a st) = None → scan_loop (a +:+ b) st = scan_loop b (scan_loop a st).
Proof.
  revert st. induction a as [|c|c d a IH1 IH2] using string_ind2; intros st.
  - done.
  - rewrite str_app_cons, str_app_nil_l, !scan_loop_cons. destruct (sc_quote st) as [q|] eqn:Eq; [|done].
    destruct (Ascii.eqb c escape_byte); [|done]. simpl. congruence.
  - rewrite !str_app_cons, (scan_loop_cons c), (scan_loop_cons c). intros H.
    destruct (sc_quote st); [destruct (Ascii.eqb c escape_byte)|].
    + by apply IH1.
    + rewrite <-str_app_cons. by apply IH2.
    + rewrite <-str_app_cons. by apply IH2.
Qed.

(** [p] before the current text, and [parts] before the parts. *)
Definition shift (p : string) (parts : list string) (st : scanner) : scanner :=
  mk_scan (sc_quote st) (sc_depth st) (p +:+ sc_cur st) (parts ++ sc_parts st).

Lemma eat_shift p parts st c : eat (shift p parts st) c = shift p parts (eat st c).
Proof. unfold eat, shift. simpl. by rewrite str_app_assoc. Qed.

Lemma scan_byte_shift p parts st c :
  sc_parts (scan_byte st c) = sc_parts st → scan_byte (shift p parts st) c = shift p parts (scan_byte st c).
Proof.
  unfold scan_byte. rewrite eat_shift. cbn [sc_quote sc_depth shift].
  destruct (sc_quote st); [by destruct (Ascii.eqb _ _)|]. destruct (_ || _); [done|].
  destruct (is_open c); [done|]. destruct (is_close c); [done|]. destruct (_ && _); [|done]. simpl.
  intros E%(f_equal length). rewrite length_app in E. simpl in E. lia.
Qed.

Lemma scan_shift s p parts st :
  sc_parts (scan_loop s st) = sc_parts st → scan_loop s (shift p parts st) = shift p parts (scan_loop s st).
Proof.
  assert (∀ s c st, sc_parts (scan_loop s (scan_byte st c)) = sc_parts st →
    sc_parts (scan_byte st c) = sc_parts st ∧ sc_parts (scan_loop s (scan_byte st c)) = sc_parts (scan_byte st c))
    as Hmid.
  { intros s' c st' E. destruct (scan_parts s' (scan_byte st' c)) as [m Hm], (scan_byte_parts st' c) as [m' Hm'].
    rewrite Hm, Hm' in E. apply (f_equal length) in E. rewrite !length_app in E.
    assert (m = [] ∧ m' = []) as [-> ->] by (split; apply nil_length_inv; lia). by rewrite Hm, Hm', !app_nil_r. }
  revert st. induction s as [|c|c d s IH1 IH2] using string_ind2; intros st.
  - done.
  - rewrite !scan_loop_cons. cbn [sc_quote shift]. destruct (sc_quote st); [destruct (Ascii.eqb c escape_byte)|];
      [by rewrite eat_shift|apply scan_byte_shift..].
  - rewrite (scan_loop_cons c), (scan_loop_cons c). cbn [sc_quote shift].
    destruct (sc_quote st); [destruct (Ascii.eqb c escape_byte)|].
    + rewrite !eat_shift. exact (IH1 (eat (eat st c) d)).
    + intros [H1 H2]%Hmid. rewrite scan_byte_shift by done. by apply IH2.
    + intros [H1 H2]%Hmid. rewrite scan_byte_shift by done. by apply IH2.
Qed.

(** A text that is one element: it closes what it opens, and has no comma
    outside brackets and quotes. *)
Definition element (e : string) : Prop :=
  scan_loop e (mk_scan None 0 "" []) = mk_scan None 0 e [] ∧ trim e = e ∧ e ≠ "".

Lemma scan_element e cur parts rest :
  element e →
  scan_loop (e +:+ rest) (mk_scan None 0 cur parts) = scan_loop rest (mk_scan None 0 (cur +:+ e) parts).
Proof.
  intros [He _]. assert (mk_scan None 0 cur parts = shift cur parts (mk_scan None 0 "" [])) as ->
    by (unfold shift; simpl; by rewrite str_app_nil_r, app_nil_r).
  rewrite scan_app; rewrite scan_shift by (by rewrite He); rewrite He; [|done].
  unfold shift. simpl. by rewrite app_nil_r.
Qed.

Lemma trim_space e : trim (String " " e) = trim e.
Proof. done. Qed.

Lemma scan_comma cur parts s :
  scan_loop (String "," s) (mk_scan None 0 cur parts) = scan_loop s (mk_scan None 0 "" (parts ++ [trim cur])).
Proof. reflexivity. Qed.

Lemma scan_space cur parts s :
  scan_loop (String " " s) (mk_scan None 0 cur parts) = scan_loop s (mk_scan None 0 (cur +:+ " ") parts).
Proof. reflexivity. Qed.

(** The parts when the text ends, from the state of the scanner. *)
Definition scan_result (st : scanner) : list string :=
  sc_parts st ++ (if String.eqb (trim (sc_cur st)) "" then [] else [trim (sc_cur st)]).

Lemma scan_elements e l parts cur :
  Forall element (e :: l) → (∀ e, trim (cur +:+ e) = trim e) →
  scan_result (scan_loop (join ", " (e :: l)) (mk_scan None 0 cur parts)) = parts ++ e :: l.
Proof.
  revert e parts cur. induction l as [|e' l IH]; intros e parts cur [He Hl]%Forall_cons Hcur.
  - change (join ", " [e]) with e. rewrite <-(str_app_nil_r e), scan_element by done. unfold scan_result.
    cbn [scan_loop sc_parts sc_cur].
    rewrite Hcur, str_app_nil_r. destruct He as (_ & -> & Hne). by destruct (String.eqb_spec e "").
  - rewrite join_cons by done. rewrite scan_element by done.
    change (", " +:+ join ", " (e' :: l)) with (String "," (String " " (join ", " (e' :: l)))).
    rewrite scan_comma, scan_space, IH by done. rewrite Hcur. destruct He as (_ & -> & _).
    by rewrite <-(assoc_L (++)).
Qed.

(** The representation Python gives of a collection, taken apart at its commas,
    gives back its elements: nested brackets, quoted commas, quoted brackets and
    escaped quotes inside an element never split it. *)
Theorem elements_roundtrip l : Forall element l → split_top_level (join ", " l) = l.
Proof.
  destruct l as [|e l]; [done|]. intros Hl. by apply (scan_elements e l [] "").
Qed.

(** The elements of [[{'a': [1, 2]}, 'x, ]', 'it\'s', 7]]. *)
Lemma elements_roundtrip_witness :
  Forall element ["{'a': [1, 2]}"; "'x, ]'"; "'it\'s'"; "7"] ∧
  split_top_level "{'a': [1, 2]}, 'x, ]', 'it\'s', 7" = ["{'a': [1, 2]}"; "'x, ]'"; "'it\'s'"; "7"].
Proof.
  assert (Forall element ["{'a': [1, 2]}"; "'x, ]'"; "'it\'s'"; "7"]) as H.
  { repeat apply Forall_cons_2; [by split_and!; vm_compute..|constructor]. }
  split; [exact H|]. exact (elements_roundtrip _ H).
Defined.

(** The caret stands under the first character that differs. *)
Lemma position_spec {A} (f : A → bool) l i :
  position f l = Some i ↔ (∃ a, l !! i = Some a ∧ f a) ∧ ∀ j a, j < i → l !! j = Some a → ¬ f a.
Proof.
  revert i. induction l as [|a l IH]; intros i; cbn [position].
  - split; [done|]. by intros [(? & ? & ?) _].
  - destruct (f a) eqn:Ea.
    + split; [intros [= <-]; split; [eexists; split; [done|by rewrite Ea]|lia]|].
      intros [_ H]. destruct i; [done|]. specialize (H 0 a ltac:(lia) eq_refl). by rewrite Ea in H.
    + destruct i as [|i].
      * split; [by destruct (position f l)|]. intros [(? & [= <-] & H) _]. by rewrite Ea in H.
      * rewrite fmap_Some. split.
        -- intros (k & H%IH & [= <-]). destruct H as [H1 H2]. split; [done|].
           intros [|j] b Hj; [intros [= <-]; rewrite Ea; intros []|]. apply H2. lia.
        -- intros [H1 H2]. exists i. split; [|done]. apply IH. split; [done|].
           intros j b Hj Hb. apply (H2 (S j) b); [lia|done].
Qed.

(** The caret stands under the first character in which two texts differ. *)
Theorem caret_marks_first_difference left right i a b :
  chars left !! i = Some a → chars right !! i = Some b → a ≠ b →
  take i (chars left) = take i (chars right) → char_diff_marker left right = repeat_space i +:+ "^".
Proof.
  intros Ha Hb Hab Ht. unfold char_diff_marker, marker_position.
  assert (position (λ '(l, r), negb (l =? r)%N) (zip (chars left) (chars right)) = Some i) as ->; [|done].
  apply position_spec. split.
  - exists (a, b). split; [by apply lookup_zip_Some|]. by destruct (N.eqb_spec a b).
  - intros j [x y] Hj [Hx Hy]%lookup_zip_Some. apply (f_equal (.!! j)) in Ht.
    rewrite !lookup_take_lt, Hx, Hy in Ht by done. simplify_eq. rewrite N.eqb_refl; intros [].
Qed.

(** When one text begins the other the caret stands as many columns in as the
    shorter one has bytes: past its end when it has accents. *)
Example caret_after_accents :
  let e := of_chars [233%N; 233%N] in
  char_diff_marker e (e +:+ "x") = "    ^" ∧ length (chars e) = 2.
Proof. by vm_compute. Qed.

(** ** The fuel of the printer is enough *)

Lemma strip_suffix_length x s r : strip_suffix x s = Some r → String.length r ≤ String.length s.
Proof.
  unfold strip_suffix. destruct (ends_with x s); [|done]. intros [= <-].
  generalize 0 (String.length s - String.length x). intros i j.
  revert i j. induction s as [|c s IH]; intros [|i] [|j]; simpl; try lia; [specialize (IH 0 j)|specialize (IH i 0)|specialize (IH i (S j))]; lia.
Qed.

Lemma frozenset_inner_length s inner : frozenset_inner s = Some inner → String.length inner < String.length s.
Proof.
  unfold frozenset_inner. destruct (strip_prefix "frozenset(" s) as [r|] eqn:E; [|done].
  apply strip_prefix_Some in E as ->. intros H%strip_suffix_length. rewrite str_length_app. simpl. lia.
Qed.

Lemma pretty_loop_enough n m s : String.length s ≤ n → String.length s ≤ m → pretty_loop n s = pretty_loop m s.
Proof.
  revert m s. induction n as [|n IH]; intros m s Hn Hm.
  - destruct s; [|simpl in Hn; lia]. by destruct m.
  - cbn [pretty_loop]. destruct (frozenset_inner s) as [inner|] eqn:E; [|by destruct m; cbn [pretty_loop]; rewrite ?E].
    pose proof (frozenset_inner_length _ _ E). destruct m as [|m]; [lia|]. cbn [pretty_loop]. rewrite E.
    do 2 f_equal. apply IH; lia.
Qed.

(** The printer satisfies the equation of the code, which has no fuel. *)
Theorem pretty_print_collection_unfold s :
  pretty_print_collection s =
    match frozenset_inner s with
    | Some inner => "frozenset(" +:+ pretty_print_collection inner +:+ ")"
    | None => one_per_line s
    end.
Proof.
  unfold pretty_print_collection at 1. destruct (frozenset_inner s) as [inner|] eqn:E.
  - pose proof (frozenset_inner_length _ _ E). destruct (String.length s) as [|n] eqn:En; [lia|]. cbn [pretty_loop].
    rewrite E. do 2 f_equal. apply pretty_loop_enough; lia.
  - by destruct (String.length s); cbn [pretty_loop]; rewrite ?E.
Qed.
