(* ===== verification/Query.v ===== *)
(** * Query: the query DSL ([src/query/])

    Tokens, lexer and parser ([compile.rs]), expression trees and errors
    ([ast.rs]), resources and entries ([resource.rs]), the evaluator and the
    predicate validator ([eval.rs]) and the Python-tier test ([mod.rs]).

    Two things come from outside the sources and are parameters: the Unicode
    alphanumeric table beyond ASCII ([uni_alnum]; the ASCII part is written
    out) and the [regex] crate ([regex], [regex_new], [regex_is_match]).

    The text of a [ParseError] message is represented by its arguments
    ([parse_msg]): which format string it is and the tokens printed in it.

    The [while] loop of the lexer is [lex_step] iterated by [lex_loop]; the
    recursive descent parser takes a fuel.  Both fuels are shown to be enough
    ([lex_loop_enough], [parser_fuel_enough]), so [lex] and [parse] are the
    total functions of the sources. *)
From S2P Require Import Prelude Text.

(** ** Tokens, errors, expressions ([src/query/ast.rs]) *)

Module Token.

Inductive t :=
  | Ident (s : string)
  | Str (s : string)
  | Regex (s : string)
  | LParen | RParen | Amp | Pipe | Bang | Tilde | Eq | And | Or | Not.

#[global] Instance eq_dec : EqDecision t.
Proof. solve_decision. Defined.

End Token.

Inductive parse_msg :=
  | UnexpectedCharacter (c : char)
  | ExpectedGot (expected : Token.t) (got : option Token.t)
  | UnexpectedToken (t : Token.t)
  | ExpectedStringAfterTilde (got : option Token.t)
  | ExpectedStringAfterEq (got : option Token.t)
  | UnexpectedInArgument (got : option Token.t).

Inductive DslError :=
  | UnterminatedString (offset len : nat)
  | UnterminatedRegex (offset len : nat)
  | EmptyExpression
  | UnmatchedParen
  | MissingParens (name : string)
  | ParseError (message : parse_msg)
  | InvalidPredicate (predicate resource : string)
  | InvalidRegex (pattern reason : string).

(** ** Resources and entries ([src/query/resource.rs]) *)

Inductive ResourceKind := Tests | Fixtures | Marks | Plugins.

Definition valid_predicates (r : ResourceKind) : list string :=
  match r with
  | Tests => ["name"; "source"; "mark"; "async"; "uses"]
  | Fixtures => ["name"; "source"; "autouse"; "async"; "uses"]
  | Marks => ["name"; "used_in"]
  | Plugins => ["name"; "protocol"]
  end.

Definition resource_as_str (r : ResourceKind) : string :=
  match r with
  | Tests => "tests" | Fixtures => "fixtures" | Marks => "marks" | Plugins => "plugins"
  end.

Record QueryEntry := { fields : gmap string string }.

(** [entry.get(key)] *)
Definition entry_get (e : QueryEntry) (key : string) : option string := fields e !! key.

(** ** Python-side enrichment ([src/query/mod.rs]) *)

(** The lookup from a test's base id (the part before the first bracket) to
    its fixture names; the first entry of a base id wins.  [deps] is what the
    Python bridge answered. *)
Definition add_dep (m dep : gmap string string) : gmap string string :=
  match dep !! "test_node_id", dep !! "fixture_names" with
  | Some node_id, Some fixtures =>
      let base := default node_id (head (split "[" node_id)) in
      match m !! base with
      | Some _ => m
      | None => <[base := fixtures]> m
      end
  | _, _ => m
  end.

Definition fixture_map (deps : list (gmap string string)) : gmap string string :=
  fold_left add_dep deps ∅.

Definition enrich_entry (m : gmap string string) (entry : QueryEntry) : QueryEntry :=
  match entry_get entry "name" with
  | Some name =>
      match m !! name with
      | Some fixtures => {| fields := <["uses" := fixtures]> (fields entry) |}
      | None => entry
      end
  | None => entry
  end.

Definition enrich_tests_with_fixture_deps (deps : list (gmap string string))
    (entries : list QueryEntry) : list QueryEntry :=
  map (enrich_entry (fixture_map deps)) entries.

Section Dsl.
Context (uni_alnum : char → bool).
Context {regex : Type} (regex_new : string → result regex string)
  (regex_is_match : regex → string → bool).

Inductive Matcher :=
  | MAny
  | MContains (s : string)
  | MExact (s : string)
  | MRegex (re : regex).

Inductive Expr :=
  | Predicate (name : string) (matcher : Matcher)
  | EAnd (a b : Expr)
  | EOr (a b : Expr)
  | ENot (inner : Expr).

(** ** The lexer ([src/query/compile.rs]) *)

(** [char::is_alphanumeric] *)
Definition is_alphanumeric (c : char) : bool :=
  if (c <? 128)%N then is_ascii_alphanumeric c else uni_alnum c.

(** ['_' '.' ':' '-'] besides the alphanumerics. *)
Definition is_bare_word_char (c : char) : bool :=
  is_alphanumeric c || ((c =? 95) || (c =? 46) || (c =? 58) || (c =? 45))%N.

(** [while pos < len && chars[pos] != quote]: the text before the closing
    quote and the input after it. *)
Fixpoint scan_until (quote : char) (l : list char) : option (list char * list char) :=
  match l with
  | [] => None
  | c :: l' =>
      if (c =? quote)%N then Some ([], l')
      else match scan_until quote l' with
           | Some (a, b) => Some (c :: a, b)
           | None => None
           end
  end.

(** The longest run of bare-word characters and the input after it. *)
Fixpoint scan_word (l : list char) : list char * list char :=
  match l with
  | [] => ([], [])
  | c :: l' =>
      if is_bare_word_char c then let '(a, b) := scan_word l' in (c :: a, b) else ([], l)
  end.

(** [word] is a keyword or an identifier; the flag is [prev_was_ident]. *)
Definition word_token (word : string) : Token.t * bool :=
  if String.eqb word "and" then (Token.And, false)
  else if String.eqb word "or" then (Token.Or, false)
  else if String.eqb word "not" then (Token.Not, false)
  else (Token.Ident word, true).

Record lexer := mk_lexer {
  rest : list char;          (* chars[pos..] *)
  tokens : list Token.t;
  prev_was_ident : bool;
  next_bare_is_str : bool
}.

(** Bytes from a position on: [total_bytes - byte_at(pos)]; [input.len()] is
    the sum over all characters. *)
Definition bytes_left (l : list char) : nat := sum_list_with len_utf8 l.

(** Push one single-character token. *)
Definition push_punct (st : lexer) (tok : Token.t) (bare : bool) (r : list char) : lexer :=
  mk_lexer r (tokens st ++ [tok]) false bare.

(** One iteration of the [while] loop, on a non-empty rest [c :: r].
    [total] is [input.len()]. *)
Definition lex_step (total : nat) (st : lexer) (c : char) (r : list char) : result lexer DslError :=
  let start := total - bytes_left (c :: r) in
  if is_ascii_whitespace c then
    Ok (mk_lexer r (tokens st) (prev_was_ident st) (next_bare_is_str st))
  else if (c =? 40)%N then Ok (push_punct st Token.LParen (prev_was_ident st) r)
  else if (c =? 41)%N then Ok (push_punct st Token.RParen false r)
  else if (c =? 38)%N then Ok (push_punct st Token.Amp false r)
  else if (c =? 124)%N then Ok (push_punct st Token.Pipe false r)
  else if (c =? 33)%N then Ok (push_punct st Token.Bang false r)
  else if (c =? 126)%N then Ok (push_punct st Token.Tilde true r)
  else if (c =? 61)%N then Ok (push_punct st Token.Eq true r)
  else if (c =? 47)%N then
    match scan_until 47 r with
    | None => Err (UnterminatedRegex start (total - start))
    | Some (body, r') => Ok (push_punct st (Token.Regex (of_chars body)) false r')
    end
  else if (c =? 34)%N then
    match scan_until 34 r with
    | None => Err (UnterminatedString start (total - start))
    | Some (body, r') => Ok (push_punct st (Token.Str (of_chars body)) false r')
    end
  else if (c =? 39)%N then
    match scan_until 39 r with
    | None => Err (UnterminatedString start (total - start))
    | Some (body, r') => Ok (push_punct st (Token.Str (of_chars body)) false r')
    end
  else if is_bare_word_char c then
    let '(word, r') := scan_word (c :: r) in
    let word := of_chars word in
    if next_bare_is_str st then
      Ok (mk_lexer r' (tokens st ++ [Token.Str word]) false false)
    else
      let '(tok, was_ident) := word_token word in
      Ok (mk_lexer r' (tokens st ++ [tok]) was_ident false)
  else Err (ParseError (UnexpectedCharacter c)).

(** The loop; [None] would be an exhausted fuel. *)
Fixpoint lex_loop (fuel total : nat) (st : lexer) : option (result (list Token.t) DslError) :=
  match rest st with
  | [] => Some (Ok (tokens st))
  | c :: r =>
      match fuel with
      | 0 => None
      | S fuel' =>
          match lex_step total st c r with
          | Ok st' => lex_loop fuel' total st'
          | Err e => Some (Err e)
          end
      end
  end.

Definition lex_init (input : list char) : lexer := mk_lexer input [] false false.

(** One iteration per character is enough. *)
Definition lex (input : string) : result (list Token.t) DslError :=
  let cs := chars input in
  match lex_loop (length cs) (bytes_left cs) (lex_init cs) with
  | Some r => r
  | None => Ok []
  end.

(** ** The parser ([src/query/compile.rs]) *)

(** The parser's state is the tokens from [pos] on; [advance] drops the head.
    [Err None] is an exhausted fuel. *)
Definition pres (A : Type) := result (A * list Token.t) (option DslError).
Definition fail {A} (e : DslError) : pres A := Err (Some e).

Definition expect (expected : Token.t) (ts : list Token.t) : result (list Token.t) DslError :=
  match ts with
  | t :: ts' =>
      if decide (t = expected) then Ok ts'
      else Err (ParseError (ExpectedGot expected (Some t)))
  | [] => Err (ParseError (ExpectedGot expected None))
  end.

(** The matcher between the parentheses of a predicate. *)
Definition parse_matcher (ts : list Token.t) : result (Matcher * list Token.t) DslError :=
  match ts with
  | Token.RParen :: _ => Ok (MAny, ts)
  | Token.Tilde :: ts' =>
      match ts' with
      | Token.Str s :: ts'' => Ok (MContains s, ts'')
      | _ => Err (ParseError (ExpectedStringAfterTilde (head ts')))
      end
  | Token.Eq :: ts' =>
      match ts' with
      | Token.Str s :: ts'' => Ok (MExact s, ts'')
      | _ => Err (ParseError (ExpectedStringAfterEq (head ts')))
      end
  | Token.Regex pattern :: ts' =>
      let? re := map_err (InvalidRegex pattern) (regex_new pattern) in
      Ok (MRegex re, ts')
  | Token.Str s :: ts' => Ok (MContains s, ts')
  | _ => Err (ParseError (UnexpectedInArgument (head ts)))
  end.

Definition parse_predicate (name : string) (ts : list Token.t)
    : result (Expr * list Token.t) DslError :=
  match ts with
  | Token.LParen :: ts1 =>
      let? (m, ts2) := parse_matcher ts1 in
      let? ts3 := expect Token.RParen ts2 in
      Ok (Predicate name m, ts3)
  | _ => Err (MissingParens name)
  end.

Fixpoint parse_expr (fuel : nat) (ts : list Token.t) : pres Expr :=
  match fuel with
  | 0 => Err None
  | S n =>
      let? (lhs, ts1) := parse_term n ts in
      parse_rest n lhs ts1
  end
with parse_rest (fuel : nat) (lhs : Expr) (ts : list Token.t) : pres Expr :=
  match fuel with
  | 0 => Err None
  | S n =>
      match ts with
      | Token.Amp :: ts' | Token.And :: ts' =>
          let? (rhs, ts1) := parse_term n ts' in
          parse_rest n (EAnd lhs rhs) ts1
      | Token.Pipe :: ts' | Token.Or :: ts' =>
          let? (rhs, ts1) := parse_term n ts' in
          parse_rest n (EOr lhs rhs) ts1
      | _ => Ok (lhs, ts)
      end
  end
with parse_term (fuel : nat) (ts : list Token.t) : pres Expr :=
  match fuel with
  | 0 => Err None
  | S n =>
      match ts with
      | Token.Bang :: ts' | Token.Not :: ts' =>
          let? (inner, ts1) := parse_term n ts' in
          Ok (ENot inner, ts1)
      | _ => parse_atom n ts
      end
  end
with parse_atom (fuel : nat) (ts : list Token.t) : pres Expr :=
  match fuel with
  | 0 => Err None
  | S n =>
      match ts with
      | Token.LParen :: ts' =>
          let? (inner, ts1) := parse_expr n ts' in
          let? ts2 := map_err (λ _, Some UnmatchedParen) (expect Token.RParen ts1) in
          Ok (inner, ts2)
      | Token.Ident name :: ts' => map_err Some (parse_predicate name ts')
      | Token.RParen :: _ => fail UnmatchedParen
      | [] => fail EmptyExpression
      | other :: _ => fail (ParseError (UnexpectedToken other))
      end
  end.

(** Three nested calls per token are enough. *)
Definition parser_fuel (ts : list Token.t) : nat := 3 * length ts + 3.

Definition parse (ts : list Token.t) : result Expr DslError :=
  match ts with
  | [] => Err EmptyExpression
  | _ =>
      match parse_expr (parser_fuel ts) ts with
      | Ok (e, []) => Ok e
      | Ok (_, t :: _) => Err (ParseError (UnexpectedToken t))
      | Err (Some e) => Err e
      | Err None => Err EmptyExpression
      end
  end.

(** ** The evaluator and the validator ([src/query/eval.rs]) *)

Definition any_field_part (field_value : string) (predicate : string → bool) : bool :=
  existsb (λ v, predicate (trim v)) (split "," field_value).

Definition match_field_value (field_value pattern : string) : bool :=
  any_field_part field_value (λ v, String.eqb v pattern || contains pattern v).

Definition eval_matcher (m : Matcher) (field_val : string) : bool :=
  match m with
  | MAny => negb (String.eqb field_val "") && negb (String.eqb field_val "false")
  | MContains s => match_field_value field_val s
  | MExact s => any_field_part field_val (λ v, String.eqb v s)
  | MRegex re => any_field_part field_val (λ v, regex_is_match re v)
  end.

Fixpoint eval (e : Expr) (entry : QueryEntry) : bool :=
  match e with
  | EAnd a b => eval a entry && eval b entry
  | EOr a b => eval a entry || eval b entry
  | ENot inner => negb (eval inner entry)
  | Predicate name m =>
      match entry_get entry name with
      | None => false
      | Some field_val => eval_matcher m field_val
      end
  end.

Fixpoint validate_predicates (e : Expr) (r : ResourceKind) : result unit DslError :=
  match e with
  | EAnd a b | EOr a b =>
      let? _ := validate_predicates a r in
      let? _ := validate_predicates b r in
      Ok tt
  | ENot inner => validate_predicates inner r
  | Predicate name _ =>
      if bool_decide (name ∈ valid_predicates r) then Ok tt
      else Err (InvalidPredicate name (resource_as_str r))
  end.

(** ** The tier test ([src/query/mod.rs]) *)

Fixpoint expr_needs_python (e : Expr) : bool :=
  match e with
  | EAnd a b | EOr a b => expr_needs_python a || expr_needs_python b
  | ENot inner => expr_needs_python inner
  | Predicate name _ =>
      String.eqb name "autouse" || String.eqb name "protocol" || String.eqb name "uses"
  end.

Definition compile (s : string) : result Expr DslError :=
  let? ts := lex s in parse ts.

Definition needs_python (r : ResourceKind) (expr_str : option string) : bool :=
  match r with
  | Fixtures | Plugins => true
  | Tests | Marks =>
      match expr_str with
      | Some s => match compile s with Ok e => expr_needs_python e | Err _ => true end
      | None => false
      end
  end.

(** The filter step of [run_query]: compile, validate, keep what matches. *)
Definition filter_entries (r : ResourceKind) (expression : option string)
    (entries : list QueryEntry) : result (list QueryEntry) DslError :=
  match expression with
  | None => Ok entries
  | Some s =>
      let? e := compile s in
      let? _ := validate_predicates e r in
      Ok (List.filter (eval e) entries)
  end.

(** * Theorems *)

(** ** The lexer *)

Lemma scan_until_split q l a b :
  scan_until q l = Some (a, b) → l = a ++ q :: b ∧ q ∉ a.
Proof.
  revert a b. induction l as [|c l IH]; intros a b; simpl; [done|].
  destruct (N.eqb_spec c q) as [->|Hne].
  - intros [= <- <-]. split; [done|set_solver].
  - destruct (scan_until q l) as [[x y]|]; [|done]. intros [= <- <-].
    destruct (IH x y eq_refl) as [-> Hn]. split; [done|set_solver].
Qed.

Lemma scan_until_app q a b : q ∉ a → scan_until q (a ++ q :: b) = Some (a, b).
Proof.
  induction a as [|c a IH]; simpl; intros Ha; [by rewrite N.eqb_refl|].
  destruct (N.eqb_spec c q) as [->|Hne]; [set_solver|]. rewrite IH; [done|set_solver].
Qed.

Lemma scan_word_split l a b :
  scan_word l = (a, b) → l = a ++ b ∧ forallb is_bare_word_char a = true.
Proof.
  revert a b. induction l as [|c l IH]; intros a b; simpl; [by intros [= <- <-]|].
  destruct (is_bare_word_char c) eqn:E; [|by intros [= <- <-]].
  destruct (scan_word l) as [x y]. intros [= <- <-].
  destruct (IH x y eq_refl) as [-> Hn]. simpl. by rewrite E.
Qed.

Lemma scan_word_app a b :
  forallb is_bare_word_char a = true →
  match b with [] => True | c :: _ => is_bare_word_char c = false end →
  scan_word (a ++ b) = (a, b).
Proof.
  intros Ha Hb. induction a as [|c a IH]; simpl in *.
  - destruct b as [|c b]; simpl; [done|]. by rewrite Hb.
  - breflect. rewrite H, IH; done.
Qed.

Lemma bytes_left_app a b : bytes_left (a ++ b) = bytes_left a + bytes_left b.
Proof. unfold bytes_left. by rewrite sum_list_with_app. Qed.

Lemma len_utf8_pos c : 1 ≤ len_utf8 c.
Proof. unfold len_utf8. repeat case_match; lia. Qed.

(** Every iteration consumes a character; an error it raises has the span of
    the rest of the input. *)
Lemma lex_step_progress total st c r :
  match lex_step total st c r with
  | Ok st' => ∃ p, c :: r = p ++ rest st' ∧ p ≠ []
  | Err (UnterminatedString o n) | Err (UnterminatedRegex o n) =>
      o = total - bytes_left (c :: r) ∧ n = total - o
  | Err (ParseError (UnexpectedCharacter d)) => d = c
  | Err _ => False
  end.
Proof.
  assert (Hq : ∀ q body r', scan_until q r = Some (body, r') →
    ∃ p, c :: r = p ++ r' ∧ p ≠ []).
  { intros q body r' [-> _]%scan_until_split. exists (c :: body ++ [q]).
    simpl. by rewrite <-(assoc_L (++)). }
  assert (H1 : ∃ p, c :: r = p ++ r ∧ p ≠ []) by (by exists [c]).
  assert (Hw : is_bare_word_char c = true →
    ∃ p, c :: r = p ++ (scan_word (c :: r)).2 ∧ p ≠ []).
  { intros Hc. destruct (scan_word (c :: r)) as [w r'] eqn:Hw.
    pose proof (scan_word_split _ _ _ Hw) as [Hs _]. exists w. split; [done|].
    intros ->. simpl in Hw. rewrite Hc in Hw. by destruct (scan_word r). }
  unfold lex_step. destruct (scan_word (c :: r)) as [w r'].
  repeat case_match; simplify_eq; cbn [rest push_punct] in *; eauto.
Qed.

Definition span_ok (total : nat) (e : DslError) : Prop :=
  match e with
  | UnterminatedString o n | UnterminatedRegex o n => o < total ∧ o + n = total
  | ParseError (UnexpectedCharacter _) => True
  | _ => False
  end.

Lemma lex_loop_enough fuel total st :
  length (rest st) ≤ fuel → bytes_left (rest st) ≤ total →
  match lex_loop fuel total st with
  | Some (Ok _) => True
  | Some (Err e) => span_ok total e
  | None => False
  end.
Proof.
  revert st. induction fuel as [|fuel IH]; intros st Hf Hb; simpl;
    destruct (rest st) as [|c r] eqn:E; try done; [simpl in Hf; lia|].
  pose proof (lex_step_progress total st c r) as H.
  pose proof (len_utf8_pos c) as Hpos.
  assert (bytes_left (c :: r) = len_utf8 c + bytes_left r) as Hcons by done.
  destruct (lex_step total st c r) as [st'|e].
  - destruct H as (p & Hp & Hne). rewrite Hp, ?length_app, ?bytes_left_app in *.
    apply IH; [destruct p; [done|simpl in *; lia]|lia].
  - destruct e as [o n|o n| | | |[]| |]; simpl; try done; lia.
Qed.

(** More fuel does not change a result. *)
Lemma lex_loop_fuel fuel fuel' total st r :
  lex_loop fuel total st = Some r → fuel ≤ fuel' → lex_loop fuel' total st = Some r.
Proof.
  revert fuel' st. induction fuel as [|fuel IH]; intros [|fuel'] st; simpl;
    destruct (rest st) as [|c l]; try done; [lia|].
  intros H Hle. destruct (lex_step total st c l); [|done]. apply IH; [done|lia].
Qed.

Lemma lex_total_fuel input :
  ∃ r, lex_loop (length (chars input)) (bytes_left (chars input)) (lex_init (chars input))
       = Some r ∧ lex input = r.
Proof.
  pose proof (lex_loop_enough (length (chars input)) (bytes_left (chars input))
    (lex_init (chars input)) ltac:(done) ltac:(done)) as H.
  unfold lex. destruct (lex_loop _ _ _) as [v|]; [eauto|done].
Qed.

(** Lexing terminates on every input within one iteration per character,
    and every error it reports is an unexpected character or an unterminated
    literal whose span starts inside the input and ends exactly at its end. *)
Theorem lex_total_spans input :
  (∃ r, lex_loop (length (chars input)) (bytes_left (chars input)) (lex_init (chars input))
        = Some r ∧ lex input = r) ∧
  ∀ e, lex input = Err e → span_ok (bytes_left (chars input)) e.
Proof.
  pose proof (lex_loop_enough (length (chars input)) (bytes_left (chars input))
    (lex_init (chars input)) ltac:(done) ltac:(done)) as H.
  split; [apply lex_total_fuel|].
  unfold lex. destruct (lex_loop _ _ _) as [[ts|e]|]; [done| |done]. by intros e' [= <-].
Qed.

(** ** The parser: the grammar of the doc comments, left-associative, [&] and
    [|] at one level *)

Inductive GMatcher : list Token.t → Matcher → Prop :=
  | GAny : GMatcher [] MAny
  | GTilde s : GMatcher [Token.Tilde; Token.Str s] (MContains s)
  | GEq s : GMatcher [Token.Eq; Token.Str s] (MExact s)
  | GStr s : GMatcher [Token.Str s] (MContains s)
  | GRegex p re : regex_new p = Ok re → GMatcher [Token.Regex p] (MRegex re).

Inductive GExpr : list Token.t → Expr → Prop :=
  | GE_term ts e : GTerm ts e → GExpr ts e
  | GE_and op ts1 ts2 a b :
      op ∈ [Token.Amp; Token.And] → GExpr ts1 a → GTerm ts2 b →
      GExpr (ts1 ++ op :: ts2) (EAnd a b)
  | GE_or op ts1 ts2 a b :
      op ∈ [Token.Pipe; Token.Or] → GExpr ts1 a → GTerm ts2 b →
      GExpr (ts1 ++ op :: ts2) (EOr a b)
with GTerm : list Token.t → Expr → Prop :=
  | GT_not op ts e : op ∈ [Token.Bang; Token.Not] → GTerm ts e → GTerm (op :: ts) (ENot e)
  | GT_group ts e : GExpr ts e → GTerm (Token.LParen :: ts ++ [Token.RParen]) e
  | GT_pred name ts m :
      GMatcher ts m →
      GTerm (Token.Ident name :: Token.LParen :: ts ++ [Token.RParen]) (Predicate name m).

Scheme GExpr_mut := Induction for GExpr Sort Prop
with GTerm_mut := Induction for GTerm Sort Prop.
Combined Scheme grammar_ind from GExpr_mut, GTerm_mut.

Lemma expect_ok t ts ts' : expect t ts = Ok ts' ↔ ts = t :: ts'.
Proof.
  unfold expect. destruct ts as [|a ts]; [done|]. destruct (decide (a = t)); naive_solver.
Qed.

Lemma parse_matcher_sound ts m r :
  parse_matcher ts = Ok (m, r) →
  ∃ p, ts = p ++ r ∧ GMatcher p m.
Proof.
  unfold parse_matcher. intros H.
  destruct ts as [|[] ts]; try done; [| | |destruct ts as [|[] ts]; try done..];
    simplify_eq.
  - eexists [_]. eauto using GMatcher.
  - unfold map_err in H. destruct (regex_new s) eqn:E; simpl in H; simplify_eq.
    eexists [_]. eauto using GMatcher.
  - exists []. eauto using GMatcher.
  - eexists [_; _]. eauto using GMatcher.
  - eexists [_; _]. eauto using GMatcher.
Qed.

Lemma parse_predicate_sound name ts e r :
  parse_predicate name ts = Ok (e, r) → ∃ p, Token.Ident name :: ts = p ++ r ∧ GTerm p e.
Proof.
  unfold parse_predicate. destruct ts as [|[] ts]; try done.
  intros ([m ts1] & Hm & H)%result_bind_ok.
  apply result_bind_ok in H as (ts2 & H2%expect_ok & [= <- <-]). subst ts1.
  apply parse_matcher_sound in Hm as (p & -> & Hp).
  exists (Token.Ident name :: Token.LParen :: p ++ [Token.RParen]). split.
  - simpl. by rewrite <-(assoc_L (++)).
  - by constructor.
Qed.

(** What the four functions return is derived by the grammar from the tokens
    they consumed. *)
Lemma parser_sound n :
  (∀ ts e r, parse_expr n ts = Ok (e, r) → ∃ p, ts = p ++ r ∧ GExpr p e) ∧
  (∀ l ts e r, parse_rest n l ts = Ok (e, r) →
     ∀ p0, GExpr p0 l → ∃ p, ts = p ++ r ∧ GExpr (p0 ++ p) e) ∧
  (∀ ts e r, parse_term n ts = Ok (e, r) → ∃ p, ts = p ++ r ∧ GTerm p e) ∧
  (∀ ts e r, parse_atom n ts = Ok (e, r) → ∃ p, ts = p ++ r ∧ GTerm p e).
Proof.
  induction n as [|n (IHe & IHr & IHt & IHa)]; [done|].
  assert (Hop : ∀ l op ts e r (f : Expr → Expr → Expr),
    (∀ ts1 ts2 a b, GExpr ts1 a → GTerm ts2 b → GExpr (ts1 ++ op :: ts2) (f a b)) →
    (let? (rhs, ts1) := parse_term n ts in parse_rest n (f l rhs) ts1) = Ok (e, r) →
    ∀ p0, GExpr p0 l → ∃ p, op :: ts = p ++ r ∧ GExpr (p0 ++ p) e).
  { intros l op ts e r f Hf H p0 Hp0. apply result_bind_ok in H as ([b ts1] & Hb & H).
    apply IHt in Hb as (p1 & -> & Hb).
    destruct (IHr _ _ _ _ H (p0 ++ op :: p1)) as (p2 & -> & He); [auto|].
    exists (op :: p1 ++ p2). rewrite <-(assoc_L (++)) in He. simpl.
    by rewrite <-(assoc_L (++)). }
  split_and!.
  - simpl. intros ts e r ([a ts1] & Ha & H)%result_bind_ok.
    apply IHt in Ha as (p1 & -> & Ha).
    destruct (IHr _ _ _ _ H p1) as (p2 & -> & He); [eauto using GExpr|].
    exists (p1 ++ p2). rewrite <-(assoc_L (++)). eauto.
  - simpl. intros l ts e r H p0 Hp0. destruct ts as [|t ts].
    { simplify_eq. exists []. rewrite !app_nil_r. eauto. }
    destruct t; try (simplify_eq; exists []; rewrite !app_nil_r; by eauto).
    all: eapply Hop; [|exact H|exact Hp0]; intros; eapply GE_and || eapply GE_or; try done; set_solver.
  - simpl. intros ts e r H. destruct ts as [|t ts]; [by apply IHa|].
    destruct t; try (by apply IHa); apply result_bind_ok in H as ([i ts1] & Hi & [= <- <-]);
      apply IHt in Hi as (p & -> & Hi); eexists (_ :: p); split; try done;
      constructor; try done; set_solver.
  - simpl. intros ts e r H. destruct ts as [|[] ts]; try done.
    + unfold map_err in H. destruct (parse_predicate s ts) as [[]|] eqn:E; simplify_eq.
      by apply parse_predicate_sound.
    + apply result_bind_ok in H as ([i ts1] & Hi & H).
      apply result_bind_ok in H as (ts2 & H2 & [= <- <-]).
      unfold map_err in H2. destruct (expect _ _) eqn:E; simplify_eq.
      apply expect_ok in E as ->. apply IHe in Hi as (p & -> & Hi).
      exists (Token.LParen :: p ++ [Token.RParen]). simpl. rewrite <-(assoc_L (++)).
      eauto using GTerm.
Qed.

Lemma grammar_nonempty :
  (∀ ts e, GExpr ts e → ts ≠ []) ∧ (∀ ts e, GTerm ts e → ts ≠ []).
Proof. apply grammar_ind; try done; intros; by destruct ts1. Qed.

Lemma parse_term_consumes n ts e r : parse_term n ts = Ok (e, r) → length r < length ts.
Proof.
  intros H. apply (parser_sound n) in H as (p & -> & H).
  apply grammar_nonempty in H. rewrite length_app. destruct p; [done|simpl; lia].
Qed.

Lemma bind_no_fuel {A B} (x : pres A) (k : A * list Token.t → pres B) :
  x ≠ Err None → (∀ y, x = Ok y → k y ≠ Err None) → result_bind x k ≠ Err None.
Proof. destruct x as [a|[e|]]; simpl; intros; auto; congruence. Qed.

(** The fuel of [parse] is never exhausted. *)
Lemma parser_fuel_enough n :
  (∀ ts, 3 * length ts + 3 ≤ n → parse_expr n ts ≠ Err None) ∧
  (∀ l ts, 3 * length ts + 1 ≤ n → parse_rest n l ts ≠ Err None) ∧
  (∀ ts, 3 * length ts + 2 ≤ n → parse_term n ts ≠ Err None) ∧
  (∀ ts, 3 * length ts + 1 ≤ n → parse_atom n ts ≠ Err None).
Proof.
  induction n as [|n (IHe & IHr & IHt & IHa)]; [split_and!; intros; lia|].
  split_and!; simpl.
  - intros ts Hn. apply bind_no_fuel; [apply IHt; lia|]. intros [e r] H%parse_term_consumes.
    apply IHr. lia.
  - intros l ts Hn. destruct ts as [|[] ts]; try done; simpl in Hn.
    all: apply bind_no_fuel; [apply IHt; lia|]; intros [e r] H%parse_term_consumes; apply IHr; lia.
  - intros ts Hn. destruct ts as [|[] ts]; simpl in Hn; try (apply IHa; simpl; lia).
    all: apply bind_no_fuel; [apply IHt; lia|]; by intros [e r].
  - intros ts Hn. destruct ts as [|[] ts]; simpl in Hn; try done.
    + unfold map_err. by destruct (parse_predicate _ _).
    + apply bind_no_fuel; [apply IHe; lia|]. intros [e r] _.
      by destruct r as [|t r]; simpl; [|destruct (decide (t = _))].
Qed.

Lemma bind_fuel_mono {A B} (x x' : pres A) (k k' : A * list Token.t → pres B) :
  (x ≠ Err None → x' = x) → (∀ y, k y ≠ Err None → k' y = k y) →
  result_bind x k ≠ Err None → result_bind x' k' = result_bind x k.
Proof.
  destruct x as [a|[e|]]; simpl; intros Hx Hk H; [|by rewrite Hx|done].
  rewrite Hx by done. simpl. auto.
Qed.

Lemma parser_fuel_mono n :
  (∀ ts, parse_expr n ts ≠ Err None → parse_expr (S n) ts = parse_expr n ts) ∧
  (∀ l ts, parse_rest n l ts ≠ Err None → parse_rest (S n) l ts = parse_rest n l ts) ∧
  (∀ ts, parse_term n ts ≠ Err None → parse_term (S n) ts = parse_term n ts) ∧
  (∀ ts, parse_atom n ts ≠ Err None → parse_atom (S n) ts = parse_atom n ts).
Proof.
  induction n as [|n (IHe & IHr & IHt & IHa)]; [done|].
  split_and!; intros; revert H.
  - apply bind_fuel_mono; [apply IHt|]. intros [e r]. apply IHr.
  - change (parse_rest (S (S n)) l ts) with
      (match ts with
       | Token.Amp :: ts' | Token.And :: ts' =>
           let? (rhs, ts1) := parse_term (S n) ts' in parse_rest (S n) (EAnd l rhs) ts1
       | Token.Pipe :: ts' | Token.Or :: ts' =>
           let? (rhs, ts1) := parse_term (S n) ts' in parse_rest (S n) (EOr l rhs) ts1
       | _ => Ok (l, ts) end).
    cbn [parse_rest]. destruct ts as [|[] ts]; try done;
      apply bind_fuel_mono; [apply IHt|intros [e r]; apply IHr|apply IHt|intros [e r]; apply IHr|
        apply IHt|intros [e r]; apply IHr|apply IHt|intros [e r]; apply IHr].
  - destruct ts as [|[] ts]; try apply IHa; apply bind_fuel_mono; [apply IHt|done|apply IHt|done].
  - destruct ts as [|[] ts]; try done. apply bind_fuel_mono; [apply IHe|done].
Qed.

Lemma parse_expr_mono n m ts :
  n ≤ m → parse_expr n ts ≠ Err None → parse_expr m ts = parse_expr n ts.
Proof.
  induction 1 as [|m _ IH]; [done|]. intros Hn. rewrite <-IH by done.
  apply parser_fuel_mono. by rewrite IH.
Qed.

(** Eventually, with growing fuel. *)
Definition eventually {A} (f : nat → A) (v : A) : Prop := ∃ n, ∀ m, n ≤ m → f m = v.

Lemma parse_predicate_complete name ts m r :
  GMatcher ts m →
  parse_predicate name (Token.LParen :: ts ++ Token.RParen :: r) = Ok (Predicate name m, r).
Proof. destruct 1 as [| | | |p re Hre]; simpl; rewrite ?Hre; done. Qed.

Lemma parser_complete :
  (∀ ts e, GExpr ts e → ∀ r v, eventually (λ n, parse_rest n e r) v →
     eventually (λ n, parse_expr n (ts ++ r)) v) ∧
  (∀ ts e, GTerm ts e → ∀ r, eventually (λ n, parse_term n (ts ++ r)) (Ok (e, r))).
Proof.
  assert (Hstep : ∀ ts1 ts2 op l e r v f,
    (∀ n r, parse_rest (S n) l (op :: r)
            = let? (b, ts1) := parse_term n r in parse_rest n (f l b) ts1) →
    (∀ r v, eventually (λ n, parse_rest n l r) v → eventually (λ n, parse_expr n (ts1 ++ r)) v) →
    (∀ r, eventually (λ n, parse_term n (ts2 ++ r)) (Ok (e, r))) →
    eventually (λ n, parse_rest n (f l e) r) v →
    eventually (λ n, parse_expr n ((ts1 ++ op :: ts2) ++ r)) v).
  { intros ts1 ts2 op l e r v f Hop IH1 IH2 [n Hn]. rewrite <-(assoc_L (++)). apply IH1.
    destruct (IH2 r) as [n2 H2]. exists (S (n + n2)). intros [|m] Hm; [lia|].
    cbn [app]. rewrite Hop, H2 by lia. apply Hn. lia. }
  apply grammar_ind.
  - intros ts e _ IH r v [n Hn]. destruct (IH r) as [n2 H2].
    exists (S (n + n2)). intros [|m] Hm; [lia|]. simpl. rewrite H2 by lia. apply Hn. lia.
  - intros op ts1 ts2 a b Hop _ IH1 _ IH2 r v Hv. eapply (Hstep ts1 ts2 op a b r v EAnd); try done.
    intros n r'. set_unfold in Hop. by destruct Hop as [->|[->|[]]].
  - intros op ts1 ts2 a b Hop _ IH1 _ IH2 r v Hv. eapply (Hstep ts1 ts2 op a b r v EOr); try done.
    intros n r'. set_unfold in Hop. by destruct Hop as [->|[->|[]]].
  - intros op ts e Hop _ IH r. destruct (IH r) as [n Hn]. exists (S n). intros [|m] Hm; [lia|].
    set_unfold in Hop. destruct Hop as [->|[->|[]]]; simpl; rewrite Hn by lia; done.
  - intros ts e _ IH r. destruct (IH (Token.RParen :: r) (Ok (e, Token.RParen :: r))) as [n Hn].
    { exists 1. by intros [|m] ?; [lia|]. }
    exists (S (S n)). intros [|[|m]] Hm; [lia..|]. simpl. rewrite <-(assoc_L (++)). simpl.
    rewrite Hn by lia. done.
  - intros name ts m Hm r. exists 2. intros [|[|n]] Hn; [lia..|].
    cbn [parse_term parse_atom app]. rewrite <-(assoc_L (++)). cbn [app]. by rewrite (parse_predicate_complete _ _ _ _ Hm).
Qed.

Lemma parse_grammar ts e : parse ts = Ok e ↔ GExpr ts e.
Proof.
  split.
  - unfold parse. intros H. destruct ts as [|t ts]; [done|].
    destruct (parse_expr _ _) as [[e' [|t' r]]|[err|]] eqn:E; simplify_eq.
    apply parser_sound in E as (p & -> & Hp). by rewrite app_nil_r.
  - intros H. pose proof H as Hne%grammar_nonempty.
    destruct (proj1 parser_complete ts e H [] (Ok (e, []))) as [n Hn].
    { exists 1. by intros [|m] ?; [lia|]. }
    rewrite app_nil_r in Hn. unfold parse. destruct ts as [|t ts]; [done|].
    set (l := t :: ts) in *.
    assert (parse_expr (parser_fuel l) l = Ok (e, [])) as ->; [|done].
    rewrite <-(parse_expr_mono (parser_fuel l) (parser_fuel l + n)); [apply Hn; lia|lia|].
    apply parser_fuel_enough. unfold parser_fuel. lia.
Qed.

(** C8: The parser accepts exactly the sentences of the documented grammar and
    builds exactly their left-associative tree; in particular the grammar is
    unambiguous and the parser always terminates with the fuel it is given. *)
Theorem parse_iff_grammar ts e :
  (parse ts = Ok e ↔ GExpr ts e) ∧
  (∀ e', GExpr ts e → GExpr ts e' → e = e') ∧
  parse_expr (parser_fuel ts) ts ≠ Err None.
Proof.
  split; [apply parse_grammar|]. split.
  - intros e' H H'. apply parse_grammar in H, H'. congruence.
  - unfold parser_fuel. apply parser_fuel_enough. lia.
Qed.

(** ** Printing and compiling *)

Section RoundTrip.
Context (regex_as_str : regex → string).

(** A string whose characters are printable as they are between [q]s. *)
Definition quotable (q : char) (s : string) : Prop :=
  of_chars (chars s) = s ∧ Forall (λ c, c < 1114112 ∧ c ≠ q)%N (chars s).

Definition wf_name (s : string) : Prop :=
  of_chars (chars s) = s ∧ Forall (λ c, c < 1114112)%N (chars s) ∧
  chars s ≠ [] ∧ forallb is_bare_word_char (chars s) = true ∧ s ∉ ["and"; "or"; "not"].

Definition wf_matcher (m : Matcher) : Prop :=
  match m with
  | MAny => True
  | MContains s | MExact s => quotable 34 s
  | MRegex re => quotable 47 (regex_as_str re) ∧ regex_new (regex_as_str re) = Ok re
  end.

Fixpoint wf_expr (e : Expr) : Prop :=
  match e with
  | Predicate name m => wf_name name ∧ wf_matcher m
  | EAnd a b | EOr a b => wf_expr a ∧ wf_expr b
  | ENot a => wf_expr a
  end.

(** Concrete syntax with the fewest parentheses. *)
Definition show_matcher (m : Matcher) : list char :=
  match m with
  | MAny => []
  | MContains s => [126; 34]%N ++ chars s ++ [34%N]
  | MExact s => [61; 34]%N ++ chars s ++ [34%N]
  | MRegex re => 47%N :: chars (regex_as_str re) ++ [47%N]
  end.

Definition compound (e : Expr) : bool :=
  match e with EAnd _ _ | EOr _ _ => true | _ => false end.

Definition parens {A} (l r : A) (b : bool) (body : list A) : list A :=
  if b then l :: body ++ [r] else body.

Fixpoint show (e : Expr) : list char :=
  match e with
  | Predicate name m => chars name ++ 40%N :: show_matcher m ++ [41%N]
  | EAnd a b => show a ++ 38%N :: parens 40%N 41%N (compound b) (show b)
  | EOr a b => show a ++ 124%N :: parens 40%N 41%N (compound b) (show b)
  | ENot a => 33%N :: parens 40%N 41%N (compound a) (show a)
  end.

Definition matcher_tokens (m : Matcher) : list Token.t :=
  match m with
  | MAny => []
  | MContains s => [Token.Tilde; Token.Str s]
  | MExact s => [Token.Eq; Token.Str s]
  | MRegex re => [Token.Regex (regex_as_str re)]
  end.

Fixpoint show_tokens (e : Expr) : list Token.t :=
  match e with
  | Predicate name m => Token.Ident name :: Token.LParen :: matcher_tokens m ++ [Token.RParen]
  | EAnd a b => show_tokens a ++ Token.Amp :: parens Token.LParen Token.RParen (compound b) (show_tokens b)
  | EOr a b => show_tokens a ++ Token.Pipe :: parens Token.LParen Token.RParen (compound b) (show_tokens b)
  | ENot a => Token.Bang :: parens Token.LParen Token.RParen (compound a) (show_tokens a)
  end.

Lemma show_tokens_grammar e : wf_expr e → GExpr (show_tokens e) e.
Proof.
  intros Hwf.
  assert (GExpr (show_tokens e) e ∧ (compound e = false → GTerm (show_tokens e) e)) as [H _]; [|done].
  assert (Hpar : ∀ a, GExpr (show_tokens a) a ∧ (compound a = false → GTerm (show_tokens a) a) →
    GTerm (parens Token.LParen Token.RParen (compound a) (show_tokens a)) a).
  { intros a [H1 H2]. unfold parens. destruct (compound a); [by constructor|auto]. }
  induction e as [name m|a IHa b IHb|a IHa b IHb|a IHa]; simpl in *.
  - assert (GTerm (Token.Ident name :: Token.LParen :: matcher_tokens m ++ [Token.RParen])
      (Predicate name m)); [|auto using GExpr].
    constructor. destruct Hwf as [_ Hm], m; simpl in *; try constructor. by destruct Hm.
  - destruct Hwf as [Ha Hb]. split; [|done]. apply GE_and; [set_solver|by apply IHa|auto].
  - destruct Hwf as [Ha Hb]. split; [|done]. apply GE_or; [set_solver|by apply IHa|auto].
  - assert (GTerm (Token.Bang :: parens Token.LParen Token.RParen (compound a) (show_tokens a))
      (ENot a)); [|auto using GExpr].
    constructor; [set_solver|auto].
Qed.

Definition lexes (total : nat) (st : lexer) (v : result (list Token.t) DslError) : Prop :=
  ∃ fuel, lex_loop fuel total st = Some v.

Lemma lexes_step total st st' c r v :
  rest st = c :: r → lex_step total st c r = Ok st' → lexes total st' v → lexes total st v.
Proof. intros Hr Hs [f Hf]. exists (S f). simpl. by rewrite Hr, Hs. Qed.

(** What the lexer's first branches do with a bare-word character: nothing. *)
Lemma bare_word_char_step total st c r :
  is_bare_word_char c = true → next_bare_is_str st = false →
  lex_step total st c r =
  let '(w, r') := scan_word (c :: r) in
  let '(tok, was_ident) := word_token (of_chars w) in
  Ok (mk_lexer r' (tokens st ++ [tok]) was_ident false).
Proof.
  intros Hc Hn. unfold lex_step.
  assert (is_ascii_whitespace c = false ∧ c ∉ [40; 41; 38; 124; 33; 126; 61; 47; 34; 39]%N) as [-> Hp].
  { unfold is_bare_word_char, is_alphanumeric, is_ascii_alphanumeric, is_ascii_whitespace in *.
    rewrite !not_elem_of_cons, <-not_true_iff_false, !orb_true_iff, !N.eqb_eq. revert Hc.
    destruct (N.ltb_spec c 128);
      rewrite !orb_true_iff, ?andb_true_iff, ?N.leb_le, !N.eqb_eq; intros Hc;
      split_and!; first [lia|apply not_elem_of_nil]. }
  rewrite !not_elem_of_cons in Hp.
  repeat match goal with |- context [(c =? ?k)%N] =>
    rewrite (proj2 (N.eqb_neq c k)) by tauto end.
  rewrite Hc, Hn. by destruct (scan_word (c :: r)).
Qed.

Lemma lexes_name total toks name r pw v :
  wf_name name →
  match r with [] => True | c :: _ => is_bare_word_char c = false end →
  lexes total (mk_lexer r (toks ++ [Token.Ident name]) true false) v →
  lexes total (mk_lexer (chars name ++ r) toks pw false) v.
Proof.
  intros (Hrt & _ & Hne & Hbw & Hkw) Hr Hl. destruct (chars name) as [|c cs] eqn:E; [done|].
  apply (lexes_step total _ (mk_lexer r (toks ++ [Token.Ident name]) true false) c (cs ++ r));
    [done| |done].
  assert (is_bare_word_char c = true) by (simpl in Hbw; by breflect).
  rewrite bare_word_char_step by done.
  pose proof (scan_word_app (c :: cs) r Hbw Hr) as Hs. cbn [app] in Hs.
  rewrite Hs, Hrt.
  unfold word_token. rewrite !not_elem_of_cons in Hkw.
  destruct (String.eqb_spec name "and"), (String.eqb_spec name "or"),
    (String.eqb_spec name "not"); tauto || done.
Qed.

Lemma quotable_not_in q s : quotable q s → q ∉ chars s.
Proof. intros [_ H] Hin. rewrite Forall_forall in H. by apply H in Hin as []. Qed.

Lemma lexes_str total toks s r pw nb v :
  quotable 34 s → lexes total (mk_lexer r (toks ++ [Token.Str s]) false false) v →
  lexes total (mk_lexer (34%N :: chars s ++ 34%N :: r) toks pw nb) v.
Proof.
  intros Hs Hl. eapply lexes_step; [done| |exact Hl]. unfold lex_step. simpl.
  rewrite scan_until_app by by apply quotable_not_in. destruct Hs as [-> _]. done.
Qed.

Lemma lexes_regex total toks s r pw nb v :
  quotable 47 s → lexes total (mk_lexer r (toks ++ [Token.Regex s]) false false) v →
  lexes total (mk_lexer (47%N :: chars s ++ 47%N :: r) toks pw nb) v.
Proof.
  intros Hs Hl. eapply lexes_step; [done| |exact Hl]. unfold lex_step. simpl.
  rewrite scan_until_app by by apply quotable_not_in. destruct Hs as [-> _]. done.
Qed.

(** The single-character tokens and whether a bare word after them is a
    string, given whether they follow an identifier. *)
Definition punct (c : char) : option (Token.t * (bool → bool)) :=
  match c with
  | 40%N => Some (Token.LParen, λ b, b)
  | 41%N => Some (Token.RParen, λ _, false)
  | 38%N => Some (Token.Amp, λ _, false)
  | 124%N => Some (Token.Pipe, λ _, false)
  | 33%N => Some (Token.Bang, λ _, false)
  | 126%N => Some (Token.Tilde, λ _, true)
  | 61%N => Some (Token.Eq, λ _, true)
  | _ => None
  end.

Lemma lexes_punct total c tok bare r toks pw nb v :
  punct c = Some (tok, bare) →
  lexes total (mk_lexer r (toks ++ [tok]) false (bare pw)) v →
  lexes total (mk_lexer (c :: r) toks pw nb) v.
Proof.
  intros Hc. apply lexes_step with c r; [done|].
  unfold punct in Hc. repeat case_match; simplify_eq; done.
Qed.

Ltac lex_punct := cbn [app]; eapply lexes_punct; [done|]; cbn [app].

Lemma lexes_matcher total toks m r v :
  wf_matcher m →
  lexes total (mk_lexer r (toks ++ matcher_tokens m ++ [Token.RParen]) false false) v →
  lexes total (mk_lexer (show_matcher m ++ 41%N :: r) toks false true) v.
Proof.
  intros Hm Hl.
  assert (Hclose : ∀ toks' nb, toks ++ matcher_tokens m = toks' →
    lexes total (mk_lexer (41%N :: r) toks' false nb) v).
  { intros toks' nb <-. lex_punct.
    by rewrite <-(assoc_L (++)). }
  destruct m as [|s|s|re]; simpl in *.
  - apply Hclose. by rewrite app_nil_r.
  - lex_punct. rewrite <-(assoc_L (++)). apply lexes_str; [done|].
    apply Hclose. by rewrite <-(assoc_L (++)).
  - lex_punct. rewrite <-(assoc_L (++)). apply lexes_str; [done|].
    apply Hclose. by rewrite <-(assoc_L (++)).
  - rewrite <-(assoc_L (++)). apply lexes_regex; [by destruct Hm|]. by apply Hclose.
Qed.

(** The lexer reads a printed expression as its tokens, wherever an expression
    may start. *)
Lemma lexes_show e total toks r v :
  wf_expr e → lexes total (mk_lexer r (toks ++ show_tokens e) false false) v →
  lexes total (mk_lexer (show e ++ r) toks false false) v.
Proof.
  revert toks r.
  assert (Hpar : ∀ a, (∀ toks r, wf_expr a →
      lexes total (mk_lexer r (toks ++ show_tokens a) false false) v →
      lexes total (mk_lexer (show a ++ r) toks false false) v) →
    ∀ toks r, wf_expr a →
      lexes total (mk_lexer r (toks ++ parens Token.LParen Token.RParen (compound a) (show_tokens a))
        false false) v →
      lexes total (mk_lexer (parens 40%N 41%N (compound a) (show a) ++ r) toks false false) v).
  { intros a IH toks r Ha Hl. unfold parens in *. destruct (compound a); [|by apply IH].
    lex_punct. rewrite <-(assoc_L (++)). apply IH; [done|].
    lex_punct. by rewrite <-!(assoc_L (++)). }
  induction e as [name m|a IHa b IHb|a IHa b IHb|a IHa]; intros toks r; simpl.
  - intros [Hn Hm] Hl. rewrite <-(assoc_L (++)). simpl. apply lexes_name; [done|done|].
    lex_punct. rewrite <-(assoc_L (++)). apply lexes_matcher; [done|].
    rewrite <-!(assoc_L (++)). done.
  - intros [Ha Hb] Hl. rewrite <-(assoc_L (++)). apply IHa; [done|].
    lex_punct. apply Hpar; [auto|done|]. by rewrite <-!(assoc_L (++)).
  - intros [Ha Hb] Hl. rewrite <-(assoc_L (++)). apply IHa; [done|].
    lex_punct. apply Hpar; [auto|done|]. by rewrite <-!(assoc_L (++)).
  - intros Ha Hl. lex_punct. apply Hpar; [auto|done|].
    by rewrite <-!(assoc_L (++)).
Qed.

Lemma show_scalar e : wf_expr e → Forall (λ c, c < 1114112)%N (show e).
Proof.
  assert (Hq : ∀ q s, quotable q s → Forall (λ c, c < 1114112)%N (chars s)).
  { intros q s [_ H]. eapply Forall_impl; [exact H|]. naive_solver. }
  assert (Hpar : ∀ b l, Forall (λ c, c < 1114112)%N l →
    Forall (λ c, c < 1114112)%N (parens 40%N 41%N b l)).
  { intros b l Hl. unfold parens. destruct b; [|done].
    apply Forall_cons. split; [done|]. apply Forall_app. by repeat constructor. }
  induction e as [name m|a IHa b IHb|a IHa b IHb|a IHa]; simpl.
  - intros [(_ & Hn & _) Hm]. apply Forall_app. split; [done|].
    apply Forall_cons. split; [done|]. apply Forall_app. split; [|by repeat constructor].
    destruct m as [|s|s|re]; simpl in *; [done| | |destruct Hm as [Hm _]];
      repeat first [apply Forall_app; split|apply Forall_cons; split|apply Forall_nil]; eauto; done.
  - intros [Ha Hb]. apply Forall_app. split; [auto|]. apply Forall_cons. split; [done|auto].
  - intros [Ha Hb]. apply Forall_app. split; [auto|]. apply Forall_cons. split; [done|auto].
  - intros Ha. apply Forall_cons. split; [done|auto].
Qed.

(** C10: Every expression whose names are bare words and whose literals hold no
    closing quote is read back from its concrete syntax: printing with the
    fewest parentheses, then lexing and parsing, is the identity. *)
Theorem compile_show e : wf_expr e → compile (of_chars (show e)) = Ok e.
Proof.
  intros He. unfold compile. set (input := of_chars (show e)).
  assert (chars input = show e) as Hc by (by apply chars_of_chars, show_scalar).
  assert (lex input = Ok (show_tokens e)) as ->.
  { destruct (lexes_show e (bytes_left (chars input)) [] [] (Ok (show_tokens e)) He) as [f Hf].
    { by exists 1. }
    destruct (lex_total_fuel input) as (v & Hv & ->). rewrite app_nil_r, <-Hc in Hf.
    apply (lex_loop_fuel _ (f + length (chars input))) in Hf; [|lia].
    apply (lex_loop_fuel _ (f + length (chars input))) in Hv; [|lia].
    unfold lex_init in Hv. congruence. }
  simpl. apply parse_grammar. by apply show_tokens_grammar.
Qed.

End RoundTrip.

(** ** Validation and the instant tier *)

(** The predicate names of an expression, left to right. *)
Fixpoint predicates (e : Expr) : list string :=
  match e with
  | EAnd a b | EOr a b => predicates a ++ predicates b
  | ENot a => predicates a
  | Predicate name _ => [name]
  end.

(** [names] are all declared by [r], or [res] reports the leftmost one that
    is not. *)
Definition validates (names : list string) (r : ResourceKind) (res : result unit DslError) : Prop :=
  match res with
  | Ok _ => Forall (.∈ valid_predicates r) names
  | Err err => ∃ pre name post, names = (pre ++ name :: post) ∧
      Forall (.∈ valid_predicates r) pre ∧ (name ∉ valid_predicates r) ∧
      err = InvalidPredicate name (resource_as_str r)
  end.

Lemma validates_app n1 n2 r res1 res2 :
  validates n1 r res1 → validates n2 r res2 →
  validates (n1 ++ n2) r (let? _ := res1 in let? _ := res2 in Ok tt).
Proof.
  intros H1 H2. destruct res1; simpl in *.
  - destruct res2; simpl in *; [by apply Forall_app|].
    destruct H2 as (pre & n & post & -> & ? & ? & ->).
    exists (n1 ++ pre), n, post. rewrite <-(assoc_L (++)), Forall_app. done.
  - destruct H1 as (pre & n & post & -> & ? & ? & ->).
    exists pre, n, (post ++ n2). by rewrite <-(assoc_L (++)).
Qed.

Lemma validate_spec e r : validates (predicates e) r (validate_predicates e r).
Proof.
  induction e as [name m|a IHa b IHb|a IHa b IHb|a IHa]; [|by apply validates_app..|done].
  simpl. case_bool_decide; [by repeat constructor|]. exists [], name, []. done.
Qed.

Lemma eval_agree e entry entry' :
  (∀ k, k ∈ predicates e → entry_get entry k = entry_get entry' k) →
  eval e entry = eval e entry'.
Proof.
  induction e as [name m|a IHa b IHb|a IHa b IHb|a IHa]; simpl; intros H.
  - by rewrite H by set_solver.
  - rewrite IHa, IHb; [done|..]; intros k Hk; apply H; set_solver.
  - rewrite IHa, IHb; [done|..]; intros k Hk; apply H; set_solver.
  - by rewrite IHa.
Qed.

Lemma expr_needs_python_names e :
  expr_needs_python e = false → "uses" ∉ predicates e.
Proof.
  induction e as [name m|a IHa b IHb|a IHa b IHb|a IHa]; simpl.
  - intros H Hin%list_elem_of_singleton. subst name. done.
  - intros [??]%orb_false_iff. rewrite not_elem_of_app. auto.
  - intros [??]%orb_false_iff. rewrite not_elem_of_app. auto.
  - done.
Qed.

(** Validation accepts an expression exactly when all its predicate names
    belong to the resource, otherwise it reports the leftmost one that does
    not; and an accepted expression reads only the fields the resource
    declares, so entries that agree on them are matched alike. *)
Theorem validated_expr_reads_declared_fields e r :
  (validate_predicates e r = Ok tt ↔ Forall (.∈ valid_predicates r) (predicates e)) ∧
  (∀ err, validate_predicates e r = Err err →
     ∃ pre name post, predicates e = (pre ++ name :: post) ∧
       Forall (.∈ valid_predicates r) pre ∧ (name ∉ valid_predicates r) ∧
       err = InvalidPredicate name (resource_as_str r)) ∧
  (∀ entry entry', validate_predicates e r = Ok tt →
     (∀ k, k ∈ valid_predicates r → entry_get entry k = entry_get entry' k) →
     eval e entry = eval e entry').
Proof.
  pose proof (validate_spec e r) as H. destruct (validate_predicates e r) as [[]|err]; simpl in H.
  - split_and!; [by split|done|]. intros entry entry' _ Ha. apply eval_agree.
    rewrite Forall_forall in H. auto.
  - split_and!; [|by intros ? [= <-]|done]. split; [done|].
    destruct H as (pre & n & post & -> & _ & Hn & _).
    rewrite Forall_app, Forall_cons. tauto.
Qed.

Lemma filter_map_comm {A B} (f : A → B) (p : B → bool) (q : A → bool) l :
  (∀ x, p (f x) = q x) → List.filter p (map f l) = map f (List.filter q l).
Proof.
  intros H. induction l as [|x l IH]; simpl; [done|]. rewrite H, IH. by destruct (q x).
Qed.

(** When [needs_python] says a tests or marks query is instant-tier, the
    Python session is not missed: filtering the entries enriched with the
    fixture dependencies gives the enriched matches of the plain entries. *)
Theorem instant_tier_sound r s deps entries :
  needs_python r (Some s) = false →
  filter_entries r (Some s) (enrich_tests_with_fixture_deps deps entries)
  = let? l := filter_entries r (Some s) entries in
    Ok (enrich_tests_with_fixture_deps deps l).
Proof.
  intros Hn. unfold filter_entries, needs_python in *.
  destruct (compile s) as [e|err] eqn:E; [|by destruct r].
  simpl. destruct (validate_predicates e r) as [[]|err]; [|done]. simpl. f_equal.
  apply filter_map_comm. intros entry. apply eval_agree. intros k Hk.
  assert (k ≠ "uses") as Hne.
  { intros ->. by apply (expr_needs_python_names e); [destruct r|]. }
  clear Hn. unfold enrich_entry. repeat case_match; [|done..].
  unfold entry_get. simpl. by rewrite lookup_insert_ne by done.
Qed.

End Dsl.

Section Witnesses.
(** A toy regex engine: a pattern is itself and matches what contains it. *)
Definition toy_regex_new (p : string) : result string string := Ok p.
Definition toy_is_match (re s : string) : bool := contains re s.

Lemma compile_show_witness :
  compile (λ _, false) toy_regex_new
    (of_chars (show (λ re, re) (EOr (Predicate "name" (MRegex "^test_"))
      (ENot (EAnd (Predicate "mark" (MContains "slow")) (Predicate "async" MAny))))))
  = Ok (EOr (Predicate "name" (MRegex "^test_"))
      (ENot (EAnd (Predicate "mark" (MContains "slow")) (Predicate "async" MAny)))).
Proof.
  apply (compile_show (λ _, false) toy_regex_new toy_is_match (λ re, re)).
  simpl. unfold wf_name, quotable.
  split_and!; try reflexivity; try exact I; try (intros H; discriminate H);
    try (repeat first [apply Forall_nil_2|apply Forall_cons_2; [split; [reflexivity|discriminate]|]
      |apply Forall_cons_2; [reflexivity|]]);
    rewrite !not_elem_of_cons; split_and!; try discriminate; apply not_elem_of_nil.
Defined.

Lemma instant_tier_sound_witness :
  needs_python (λ _, false) toy_regex_new Tests (Some "name(=a)") = false ∧
  filter_entries (λ _, false) toy_regex_new toy_is_match Tests (Some "name(=a)")
    (enrich_tests_with_fixture_deps
       [{["test_node_id" := "a[1]"; "fixture_names" := "db"]}]
       [{| fields := {["name" := "a"]} |}; {| fields := {["name" := "b"]} |}])
  = Ok [{| fields := {["name" := "a"; "uses" := "db"]} |}].
Proof.
  split; [reflexivity|].
  rewrite (instant_tier_sound (λ _, false) toy_regex_new toy_is_match Tests "name(=a)");
    vm_compute; reflexivity.
Defined.
End Witnesses.
