(* ===== verification/Scheduler.v ===== *)
(** * Scheduler: groups of work and the shared queue ([src/scheduler.rs])

    A [ModuleGroup] is one module and its items, a [TaskGroup] is what one
    worker task covers.  The queue is a [VecDeque] behind a mutex; every [pop]
    is atomic, so a run of the pool is a sequence of [pop]s by some worker:
    [Scheduler.drain] runs one such sequence, for any number of workers in any
    order.  The [LongestFirst]/[FailedFirst] ordering is in [Cache.v], beside
    the durations it sorts by. *)
From S2P Require Import Prelude Types.

Record ModuleGroup := mk_group {
  module_path : string;
  items : list TestItem
}.

Module TaskGroup.

Record t := mk {
  modules : list ModuleGroup;
  anchor : option string
}.

Definition single (group : ModuleGroup) : t := mk [group] None.

Definition package (anchor : string) (modules : list ModuleGroup) : t := mk modules (Some anchor).

Definition item_count (g : t) : nat := sum_list_with (λ m, length (items m)) (modules g).

Definition group_items (g : t) : list TestItem := flat_map items (modules g).

(** [self.modules[0].module_path]: indexing panics on an empty group. *)
Definition label (g : t) : option string := module_path <$> head (modules g).

End TaskGroup.

Module Scheduler.

Record t := mk { queue : list TaskGroup.t }.

Definition new (groups : list TaskGroup.t) : t := mk groups.

Definition pop (s : t) : option TaskGroup.t * t :=
  match queue s with
  | [] => (None, s)
  | g :: q => (Some g, mk q)
  end.

(** Workers claim groups: [who] is the worker that wins the lock at each
    step.  The claims, in order, and the queue they leave. *)
Fixpoint drain (who : list nat) (s : t) : list (nat * TaskGroup.t) * t :=
  match who with
  | [] => ([], s)
  | w :: who' =>
      match pop s with
      | (None, s') => ([], s')
      | (Some g, s') => let '(claims, s'') := drain who' s' in ((w, g) :: claims, s'')
      end
  end.

End Scheduler.

(** * Theorems *)

Lemma item_count_length g : TaskGroup.item_count g = length (TaskGroup.group_items g).
Proof. unfold TaskGroup.item_count, TaskGroup.group_items. by rewrite length_flat_map_sum. Qed.

Lemma drain_split who s :
  map snd (Scheduler.drain who s).1 ++ Scheduler.queue (Scheduler.drain who s).2
  = Scheduler.queue s ∧
  length (Scheduler.drain who s).1 = Nat.min (length who) (length (Scheduler.queue s)).
Proof.
  revert s. induction who as [|w who IH]; intros [q]; simpl; [done|].
  destruct q as [|g q]; simpl; [done|].
  destruct (IH (Scheduler.mk q)) as [E L].
  destruct (Scheduler.drain who (Scheduler.mk q)) as [claims s'].
  simpl in *. by rewrite E, L.
Qed.

(** However the workers race for the queue, the groups they claim are the
    first groups of the queue in insertion order, each claimed once; as soon as
    there are as many claims as groups every group has been claimed and the
    queue is empty; and the number of results a worker is waited for is the
    number of tests in the groups it claimed. *)
Theorem scheduler_claims_each_group_once who groups :
  let '(claims, s) := Scheduler.drain who (Scheduler.new groups) in
  map snd claims ++ Scheduler.queue s = groups ∧
  (length groups ≤ length who → map snd claims = groups ∧ Scheduler.pop s = (None, s)) ∧
  (∀ w, sum_list_with TaskGroup.item_count (map snd (List.filter (λ c, c.1 =? w) claims))
      = length (flat_map TaskGroup.group_items (map snd (List.filter (λ c, c.1 =? w) claims)))).
Proof.
  pose proof (drain_split who (Scheduler.new groups)) as [E L].
  destruct (Scheduler.drain who (Scheduler.new groups)) as [claims s]. simpl in *.
  split_and!; [done| |].
  - intros Hlen. assert (Scheduler.queue s = []) as Hq.
    { apply nil_length_inv. apply (f_equal length) in E.
      rewrite length_app, length_map in E. lia. }
    rewrite Hq, app_nil_r in E. split; [done|]. unfold Scheduler.pop. by rewrite Hq.
  - intros w. rewrite length_flat_map_sum.
    generalize (map snd (List.filter (λ c : nat * TaskGroup.t, c.1 =? w) claims)).
    induction l as [|g l IH]; simpl; [done|]. by rewrite IH, item_count_length.
Qed.
