(* ===== verification/Cache.v ===== *)
(** * Cache: timings, outcomes and collected modules across runs ([src/cache/])

    [TestCache] with the operations of [mod.rs], [timing.rs], [outcome.rs] and
    [module.rs], the schedule ordering of [src/scheduler.rs] and the end-of-run
    [finalize] of [src/pipeline/helpers.rs].

    [AHashMap<String, V>] is [gmap string V].  [age] and [flaky_count] are
    [u32]: [age += 1] wraps as in a release build, [saturating_add] saturates.
    Outside the sources, and parameters here: the JSON of [serde_json] (with
    the [#[serde(skip)]] of [node_id] as its documented effect), the
    existence test on paths and [rand]'s shuffle. *)
From Stdlib Require Import Ascii.
From S2P Require Import Prelude Collections Text F64 Types Scheduler.

(** ** Data ([src/cache/mod.rs]) *)

Definition CACHE_VERSION : Z := 6.

Record CacheEntry := mk_entry {
  duration_ms : f64;
  age : Z;
  last_outcome : option OutcomeKind.t;
  flaky_count : Z
}.

Record ModuleCacheEntry := mk_module_entry {
  fingerprint : Z;
  cached_items : list TestItem
}.

Record CacheFile := mk_file {
  version : Z;
  timings : gmap string CacheEntry;
  modules : gmap string ModuleCacheEntry
}.

Record TestCache := mk_cache {
  inner : CacheFile;
  dirty : bool
}.

Definition empty_cache : TestCache := mk_cache (mk_file CACHE_VERSION ∅ ∅) false.

(** FNV-1a over the bytes of the source; [wrapping_mul] is [wrap64]. *)
Definition OFFSET_BASIS : Z := 14695981039346656037.
Definition PRIME : Z := 1099511628211.

Fixpoint fnv1a_from (hash : Z) (bytes : string) : Z :=
  match bytes with
  | "" => hash
  | String a rest =>
      fnv1a_from (wrap64 (Z.lxor hash (Z.of_N (N_of_ascii a)) * PRIME)) rest
  end.

Definition fnv1a (bytes : string) : Z := fnv1a_from OFFSET_BASIS bytes.

(** [FileFingerprint::from_source] *)
Definition from_source (source : string) : Z := fnv1a source.

Definition set_timings (c : TestCache) (t : gmap string CacheEntry) (d : bool) : TestCache :=
  mk_cache (mk_file (version (inner c)) t (modules (inner c))) d.

Definition set_modules (c : TestCache) (m : gmap string ModuleCacheEntry) (d : bool) : TestCache :=
  mk_cache (mk_file (version (inner c)) (timings (inner c)) m) d.

(** ** Durations ([src/cache/timing.rs]) *)

Definition sum_step (c : TestCache) (acc : f64 * nat) (item : TestItem) : f64 * nat :=
  match timings (inner c) !! node_id item with
  | Some entry => (f64_add acc.1 (duration_ms entry), S acc.2)
  | None => acc
  end.

Definition sum_and_count (c : TestCache) (l : list TestItem) : f64 * nat :=
  fold_left (sum_step c) l (f64_zero, 0).

Definition module_duration_sum (c : TestCache) (l : list TestItem) : option f64 :=
  let '(total, count) := sum_and_count c l in
  if 0 <? count then Some total else None.

(** [Duration::from_millis], in milliseconds. *)
Definition estimated_duration (c : TestCache) (l : list TestItem) (ast_fallback_ms : option f64)
    : option Z :=
  match l with
  | [] => None
  | _ =>
      let '(cached_ms, covered) := sum_and_count c l in
      let total := length l in
      if total <=? covered * 2 then Some (as_u64 cached_ms)
      else match ast_fallback_ms with
      | Some ast_total =>
          if covered =? 0 then Some (as_u64 ast_total)
          else
            let uncovered_fraction :=
              f64_div (f64_of_Z (Z.of_nat (total - covered))) (f64_of_Z (Z.of_nat total)) in
            Some (as_u64 (f64_add cached_ms (f64_mul ast_total uncovered_fraction)))
      | None => None
      end
  end.

Definition suggested_timeout_secs (c : TestCache) (item : TestItem) (multiplier : f64) : option Z :=
  match timings (inner c) !! node_id item with
  | None => None
  | Some entry =>
      let scaled_secs := f64_mul (f64_div (duration_ms entry) (f64_of_Z 1000)) multiplier in
      Some (Z.max (ceil_as_u64 scaled_secs) 1)
  end.

(** The comparator of [sort_groups], on [(duration_sum, item_count, group)]. *)
Definition keyed := (option f64 * nat * ModuleGroup)%type.

Definition keyed_cmp (a b : keyed) : comparison :=
  match a.1.1, b.1.1 with
  | Some da, Some db => cmp_or_equal db da
  | Some _, None => Lt
  | None, Some _ => Gt
  | None, None => Nat.compare b.1.2 a.1.2
  end.

Definition key_group (c : TestCache) (g : ModuleGroup) : keyed :=
  (module_duration_sum c (items g), length (items g), g).

Definition sort_groups (c : TestCache) (groups : list ModuleGroup) : list ModuleGroup :=
  map snd (sort_by keyed_cmp (map (key_group c) groups)).

(** ** The schedule strategy ([src/scheduler.rs]) *)

Inductive ScheduleStrategy := LongestFirst | FailedFirst | Random.

Definition has_failed (failed_ids : gset string) (g : ModuleGroup) : bool :=
  existsb (λ item, bool_decide (node_id item ∈ failed_ids)) (items g).

Definition apply_schedule_strategy (shuffle : list ModuleGroup → list ModuleGroup)
    (groups : list ModuleGroup) (strategy : ScheduleStrategy) (c : TestCache)
    (failed_ids : gset string) : list ModuleGroup :=
  match strategy with
  | LongestFirst => sort_groups c groups
  | FailedFirst => sort_by_bool_key (λ g, negb (has_failed failed_ids g)) (sort_groups c groups)
  | Random => shuffle groups
  end.

(** ** Merging a run's timings ([src/cache/timing.rs]) *)

Definition fresh_entry : CacheEntry := mk_entry f64_zero 0 None 0.

(** [entry(id).or_insert(..)], then the two assignments. *)
Definition touch (m : gmap string CacheEntry) (t : TestTiming) : gmap string CacheEntry :=
  let entry := default fresh_entry (m !! tt_node_id t) in
  <[tt_node_id t := mk_entry (tt_duration_ms t) 0 (last_outcome entry) (flaky_count entry)]> m.

Definition executed (l : list TestTiming) : gset string := list_to_set (map tt_node_id l).

(** The closure given to [retain]. *)
Definition retain_aged (ran : gset string) (max_age : Z) (key : string) (entry : CacheEntry)
    : option CacheEntry :=
  if bool_decide (key ∈ ran) then Some entry
  else
    let a := ((age entry + 1) mod (u32_max + 1))%Z in
    if (a <=? max_age)%Z
    then Some (mk_entry (duration_ms entry) a (last_outcome entry) (flaky_count entry))
    else None.

Definition merge_timings (c : TestCache) (l : list TestTiming) (max_age : Z) : TestCache :=
  let touched := fold_left touch l (timings (inner c)) in
  let retained := map_imap (retain_aged (executed l) max_age) touched in
  let changed := match l with [] => false | _ => true end
                 || negb (size retained =? size touched) in
  set_timings c retained (dirty c || changed).

Definition invalidate (c : TestCache) (l : list TestItem) : TestCache :=
  let live : gset string := list_to_set (map node_id l) in
  let kept := map_imap (λ key e, if bool_decide (key ∈ live) then Some e else None)
                (timings (inner c)) in
  set_timings c kept (dirty c || negb (size kept =? size (timings (inner c)))).

(** ** Outcomes ([src/cache/outcome.rs]) *)

Definition entry_failed (e : CacheEntry) : bool :=
  match last_outcome e with
  | Some k => OutcomeKind.is_retryable_failure k
  | None => false
  end.

Definition last_failed_ids (c : TestCache) : gset string :=
  dom (filter (λ ke : string * CacheEntry, entry_failed ke.2 = true) (timings (inner c))).

Definition saturating_add32 (a b : Z) : Z := Z.min (a + b) u32_max.

Definition record_outcome (e : CacheEntry) (t : TestTiming) : CacheEntry :=
  mk_entry (duration_ms e) (age e) (Some (tt_outcome t))
    (if decide (tt_outcome t = OutcomeKind.Flaky) then saturating_add32 (flaky_count e) 1
     else flaky_count e).

Definition record_step (acc : gmap string CacheEntry * bool) (t : TestTiming)
    : gmap string CacheEntry * bool :=
  match acc.1 !! tt_node_id t with
  | Some e => (<[tt_node_id t := record_outcome e t]> acc.1, true)
  | None => acc
  end.

Definition record_timing_outcomes (c : TestCache) (l : list TestTiming) : TestCache :=
  let '(m, changed) := fold_left record_step l (timings (inner c), false) in
  set_timings c m (dirty c || changed).

(** ** Collected modules ([src/cache/module.rs]) *)

Definition rebuild_id (key : string) (item : TestItem) : TestItem :=
  {| node_id := NodeId.new key (fn_name item) (param_id item);
     fn_name := fn_name item; lineno := lineno item; markers := markers item;
     param_id := param_id item; param_values := param_values item;
     is_async := is_async item; fixture_deps := fixture_deps item;
     fixref_deps := fixref_deps item; arranged := arranged item |}.

Definition cached_module_items (c : TestCache) (path : string) (current : Z)
    : option (list TestItem) :=
  match modules (inner c) !! path with
  | None => None
  | Some mc =>
      if (fingerprint mc =? current)%Z then Some (map (rebuild_id path) (cached_items mc)) else None
  end.

Definition update_module_cache (c : TestCache) (path : string) (fp : Z) (l : list TestItem)
    : TestCache :=
  set_modules c (<[path := mk_module_entry fp l]> (modules (inner c))) true.

Definition invalidate_modules (exists_on_disk : string → bool) (c : TestCache) : TestCache :=
  let kept := map_imap (λ key e, if exists_on_disk key then Some e else None)
                (modules (inner c)) in
  set_modules c kept (dirty c || negb (size kept =? size (modules (inner c)))).

(** ** The file ([src/cache/mod.rs]) *)

Section Disk.
Context {json : Type} (to_string_pretty : CacheFile → option json)
  (from_str : json → option CacheFile).

(** [file] is the content of [timings.json], if it can be read. *)
Definition load (file : option json) : TestCache :=
  match file with
  | None => empty_cache
  | Some content =>
      match from_str content with
      | None => empty_cache
      | Some f =>
          if negb (version f =? CACHE_VERSION)%Z then empty_cache else mk_cache f false
      end
  end.

(** The file after [save]; [dir_ok] is the result of [create_dir_all], and
    [write content file] what [std::fs::write] leaves, its result ignored. *)
Definition save (write : json → option json → option json) (dir_ok : bool)
    (c : TestCache) (file : option json) : option json :=
  if negb (dirty c) then file
  else if negb dir_ok then file
  else match to_string_pretty (inner c) with
  | None => file
  | Some content => write content file
  end.

(** [finalize] of [src/pipeline/helpers.rs] *)
Definition finalize (write : json → option json → option json) (dir_ok : bool)
    (c : TestCache) (l : list TestTiming) (cache_max_age : Z) (file : option json)
    : TestCache * option json :=
  let c1 := merge_timings c l cache_max_age in
  let c2 := record_timing_outcomes c1 l in
  (c2, save write dir_ok c2 file).

End Disk.

(** * Theorems *)

(** ** Heaviest-first ordering *)

(** Every cached duration is a non-negative number. *)
Definition durations_ok (c : TestCache) : Prop :=
  ∀ k e, timings (inner c) !! k = Some e → nonneg (duration_ms e) = true.

Lemma sum_and_count_nonneg c l : durations_ok c → nonneg (sum_and_count c l).1 = true.
Proof.
  intros Hc. unfold sum_and_count.
  assert (Hgen : ∀ acc, nonneg acc.1 = true → nonneg (fold_left (sum_step c) l acc).1 = true).
  { induction l as [|i l IH]; intros acc Ha; simpl; [done|]. apply IH. unfold sum_step.
    destruct (timings (inner c) !! node_id i) as [e|] eqn:E; simpl; [|done].
    apply f64_add_nonneg; [done|by eapply Hc]. }
  by apply Hgen.
Qed.

Definition keyed_ok (k : keyed) : Prop :=
  match k.1.1 with Some d => is_nan d = false | None => True end.

Lemma key_group_ok c g : durations_ok c → keyed_ok (key_group c g).
Proof.
  intros Hc. unfold keyed_ok, key_group, module_duration_sum. simpl.
  pose proof (sum_and_count_nonneg c (items g) Hc).
  destruct (sum_and_count c (items g)) as [t n]. destruct (0 <? n); [|done].
  by apply nonneg_not_nan.
Qed.

#[export] Instance keyed_cmp_laws : CmpLaws keyed_cmp keyed_ok.
Proof.
  split.
  - intros [[[a|] n] g] [[[b|] m] h]; unfold keyed_ok, keyed_cmp; simpl; intros; try done.
    + by apply cmp_or_equal_opp.
    + apply Nat.compare_antisym.
  - intros [[[a|] n] g] [[[b|] m] h] [[[d|] o] i]; unfold keyed_ok, keyed_cmp; simpl;
      intros; try done.
    + by eapply (cmp_or_equal_trans d b a).
    + rewrite Nat.compare_le_iff in *. lia.
Qed.

(** [a] may come before [b]: known durations first, longer first; then the
    unknown ones, more tests first. *)
Definition heavier (c : TestCache) (a b : ModuleGroup) : Prop :=
  match module_duration_sum c (items a), module_duration_sum c (items b) with
  | Some da, Some db => cmp_or_equal db da ≠ Gt
  | Some _, None => True
  | None, Some _ => False
  | None, None => length (items b) ≤ length (items a)
  end.

Lemma sort_groups_as_sort c gs :
  sort_groups c gs = sort_by (λ a b, keyed_cmp (key_group c a) (key_group c b)) gs.
Proof.
  unfold sort_groups. rewrite (sort_by_map keyed_cmp), map_map. by rewrite map_id.
Qed.

#[export] Instance group_cmp_laws c :
  CmpLaws (λ a b, keyed_cmp (key_group c a) (key_group c b)) (λ g, keyed_ok (key_group c g)).
Proof.
  split.
  - intros x y Hx Hy. by apply (@cmp_opp _ keyed_cmp keyed_ok _).
  - intros x y z Hx Hy Hz. by apply (@cmp_trans _ keyed_cmp keyed_ok _).
Qed.

(** The groups of a run are a permutation of the input sorted
    heaviest-first, and groups of equal weight keep their order, as long as the
    cached durations are non-negative numbers; their sums are then never NaN,
    so the comparator's fallback is never taken. *)
Theorem sort_groups_heaviest_first c gs :
  durations_ok c →
  sort_groups c gs ≡ₚ gs ∧
  StronglySorted (heavier c) (sort_groups c gs) ∧
  ∀ g, List.filter (λ h, is_eq (keyed_cmp (key_group c g) (key_group c h))) (sort_groups c gs)
     = List.filter (λ h, is_eq (keyed_cmp (key_group c g) (key_group c h))) gs.
Proof.
  intros Hc. rewrite sort_groups_as_sort.
  assert (Forall (λ g, keyed_ok (key_group c g)) gs) as Hok.
  { apply Forall_forall. intros g _. by apply key_group_ok. }
  split_and!.
  - apply sort_by_perm.
  - pose proof (sort_by_sorted _ _ gs Hok) as H. revert H.
    apply strongly_sorted_impl. intros a b H. unfold cmp_le, keyed_cmp in H.
    unfold heavier. simpl in H. repeat case_match; try done. by apply Nat.compare_le_iff.
  - intros g. apply (sort_by_stable (λ a b, keyed_cmp (key_group c a) (key_group c b))
      (λ g, keyed_ok (key_group c g)) gs g); [by apply key_group_ok|done].
Qed.

Definition demo_item (id : string) : TestItem :=
  {| node_id := id; fn_name := id; lineno := 1; markers := MarkerSet.new; param_id := None;
     param_values := []; is_async := false; fixture_deps := []; fixref_deps := [];
     arranged := [] |}.

Definition demo_cache : TestCache :=
  mk_cache (mk_file CACHE_VERSION
    {["a" := mk_entry (f64_of_Z 10) 0 (Some OutcomeKind.Failed) 0;
      "b" := mk_entry (f64_of_Z 30) 2 (Some OutcomeKind.Passed) 0]} ∅) false.

Lemma demo_durations_ok : durations_ok demo_cache.
Proof.
  intros k e H. unfold demo_cache in H. simpl in H.
  apply lookup_insert_Some in H as [[_ <-]|[_ H]]; [reflexivity|].
  by apply lookup_singleton_Some in H as [_ <-].
Qed.

Lemma sort_groups_heaviest_first_witness :
  sort_groups demo_cache [mk_group "m1" [demo_item "a"]; mk_group "m2" [demo_item "b"]]
  = [mk_group "m2" [demo_item "b"]; mk_group "m1" [demo_item "a"]] ∧
  StronglySorted (heavier demo_cache)
    (sort_groups demo_cache [mk_group "m1" [demo_item "a"]; mk_group "m2" [demo_item "b"]]).
Proof.
  split; [vm_compute; reflexivity|].
  apply (sort_groups_heaviest_first demo_cache), demo_durations_ok.
Defined.

Lemma failed_first_split shuffle gs c failed :
  apply_schedule_strategy shuffle gs FailedFirst c failed
  = List.filter (has_failed failed) (sort_groups c gs) ++
    List.filter (λ g, negb (has_failed failed g)) (sort_groups c gs).
Proof.
  simpl. rewrite sort_by_bool_key_partition. f_equal.
  apply filter_ext. intros g. apply negb_involutive.
Qed.

Lemma schedule_perm shuffle gs strategy c failed :
  (∀ l, shuffle l ≡ₚ l) → apply_schedule_strategy shuffle gs strategy c failed ≡ₚ gs.
Proof.
  intros Hs. destruct strategy; [| |by apply Hs].
  - simpl. rewrite sort_groups_as_sort. apply sort_by_perm.
  - rewrite failed_first_split, filter_split_perm, sort_groups_as_sort. apply sort_by_perm.
Qed.

(** Every schedule strategy runs every module exactly once; failed-first
    puts the modules with a previously failed test before all the others and
    changes nothing else in the heaviest-first order. *)
Theorem schedule_conserves_modules shuffle gs strategy c failed :
  (∀ l, shuffle l ≡ₚ l) →
  apply_schedule_strategy shuffle gs strategy c failed ≡ₚ gs ∧
  apply_schedule_strategy shuffle gs FailedFirst c failed
  = List.filter (has_failed failed) (sort_groups c gs) ++
    List.filter (λ g, negb (has_failed failed g)) (sort_groups c gs).
Proof.
  intros Hs. split; [by apply schedule_perm|apply failed_first_split].
Qed.

Lemma schedule_conserves_modules_witness :
  apply_schedule_strategy (λ l, l)
    [mk_group "m2" [demo_item "b"]; mk_group "m1" [demo_item "a"]] FailedFirst demo_cache {["a"]}
  = [mk_group "m1" [demo_item "a"]; mk_group "m2" [demo_item "b"]].
Proof.
  rewrite (proj2 (schedule_conserves_modules (λ l, l) _ FailedFirst demo_cache {["a"]}
    (λ l, Permutation_refl l))).
  vm_compute. reflexivity.
Defined.

(** ** Timeouts and estimates *)

(** A suggested timeout is given exactly for the tests with a cached
    timing, is at least one second and fits a [u64], whatever the duration and
    the multiplier (negative, infinite and NaN included); an estimate fits a
    [u64] too and is missing only for an empty run, or when less than half of
    the tests are cached and there is no fallback. *)
Theorem timeouts_and_estimates_bounded c item mult l ast :
  (suggested_timeout_secs c item mult = None ↔ timings (inner c) !! node_id item = None) ∧
  (∀ s, suggested_timeout_secs c item mult = Some s → (1 ≤ s ≤ u64_max)%Z) ∧
  (∀ d, estimated_duration c l ast = Some d → (0 ≤ d ≤ u64_max)%Z) ∧
  (estimated_duration c l ast = None ↔
     l = [] ∨ ast = None ∧ (sum_and_count c l).2 * 2 < length l).
Proof.
  split_and!.
  - unfold suggested_timeout_secs. by destruct (timings (inner c) !! node_id item).
  - unfold suggested_timeout_secs. intros s.
    destruct (timings (inner c) !! node_id item) as [e|]; [|done].
    generalize (f64_mul (f64_div (duration_ms e) (f64_of_Z 1000)) mult). intros x [= <-].
    pose proof (ceil_as_u64_bounds x). unfold u64_max in *. lia.
  - unfold estimated_duration. intros d. repeat case_match; intros; simplify_eq;
      apply as_u64_bounds.
  - unfold estimated_duration. destruct l as [|i l]; [naive_solver|].
    destruct (sum_and_count c (i :: l)) as [t n]. cbn [snd].
    destruct (Nat.leb_spec (length (i :: l)) (n * 2)).
    + split; [done|]. intros [?|[_ ?]]; [done|lia].
    + destruct ast; [|naive_solver]. destruct (n =? 0); split; naive_solver.
Qed.

(** ** Merging a run *)

(** The last timing a run reports for a test. *)
Definition last_of (k : string) (l : list TestTiming) : option TestTiming :=
  fold_left (λ acc t, if decide (tt_node_id t = k) then Some t else acc) l None.

Lemma last_of_snoc k l t :
  last_of k (l ++ [t]) = if decide (tt_node_id t = k) then Some t else last_of k l.
Proof. unfold last_of. by rewrite fold_left_app. Qed.

Lemma last_of_None k l : last_of k l = None ↔ k ∉ executed l.
Proof.
  unfold executed. rewrite elem_of_list_to_set.
  induction l as [|t l IH] using rev_ind; [set_solver|].
  rewrite last_of_snoc, map_app. simpl. destruct (decide (tt_node_id t = k)) as [<-|Hne].
  - split; [done|]. set_solver.
  - rewrite IH. set_solver.
Qed.

Lemma touch_all_lookup l m k :
  fold_left touch l m !! k =
  match last_of k l with
  | Some t =>
      let old := default fresh_entry (m !! k) in
      Some (mk_entry (tt_duration_ms t) 0 (last_outcome old) (flaky_count old))
  | None => m !! k
  end.
Proof.
  induction l as [|t l IH] using rev_ind; [done|].
  rewrite fold_left_app, last_of_snoc. cbn [fold_left]. unfold touch at 1. cbv zeta.
  destruct (decide (tt_node_id t = k)) as [<-|Hne].
  - rewrite lookup_insert_eq, IH. by destruct (last_of (tt_node_id t) l).
  - by rewrite lookup_insert_ne.
Qed.

(** What the age of an entry does in a run that does not execute it. *)
Definition aged (max_age : Z) (e : CacheEntry) : option CacheEntry :=
  if (age e + 1 <=? max_age)%Z
  then Some (mk_entry (duration_ms e) (age e + 1) (last_outcome e) (flaky_count e))
  else None.

Definition ages_ok (c : TestCache) : Prop :=
  ∀ k e, timings (inner c) !! k = Some e → (0 ≤ age e < u32_max)%Z.

Lemma merge_lookup c l max_age k :
  ages_ok c →
  timings (inner (merge_timings c l max_age)) !! k =
  match last_of k l with
  | Some t =>
      let old := default fresh_entry (timings (inner c) !! k) in
      Some (mk_entry (tt_duration_ms t) 0 (last_outcome old) (flaky_count old))
  | None => timings (inner c) !! k ≫= aged max_age
  end.
Proof.
  intros Hc. unfold merge_timings. simpl. rewrite map_lookup_imap, touch_all_lookup.
  destruct (last_of k l) as [t|] eqn:E; simpl.
  - unfold retain_aged. rewrite bool_decide_eq_true_2; [done|].
    destruct (decide (k ∈ executed l)) as [|Hn]; [done|]. apply last_of_None in Hn. congruence.
  - apply last_of_None in E. destruct (timings (inner c) !! k) as [e|] eqn:Ek; simpl; [|done].
    unfold retain_aged, aged. rewrite bool_decide_eq_false_2 by done.
    apply Hc in Ek. rewrite Z.mod_small by lia. done.
Qed.

Lemma merge_ages_ok c l max_age :
  ages_ok c → (max_age < u32_max)%Z → ages_ok (merge_timings c l max_age).
Proof.
  intros Hc Hm k e. rewrite merge_lookup by done.
  destruct (last_of k l); [intros [= <-]; simpl; unfold u32_max; lia|].
  destruct (timings (inner c) !! k) as [e'|] eqn:E; simpl; [|done].
  unfold aged. destruct (Z.leb_spec (age e' + 1) max_age); [|done]. intros [= <-]. simpl.
  apply Hc in E. lia.
Qed.

#[export] Hint Resolve merge_ages_ok : oxi.

(** Merging a run's timings gives every executed test its last reported
    duration and age zero and keeps its history, ages every other entry by one
    and drops it exactly when its age would exceed the limit, and creates
    nothing else; and the limit bounds all ages from then on. *)
Theorem merge_timings_entry c l max_age k :
  ages_ok c → (0 ≤ max_age < u32_max)%Z →
  timings (inner (merge_timings c l max_age)) !! k =
  match last_of k l with
  | Some t =>
      let old := default fresh_entry (timings (inner c) !! k) in
      Some (mk_entry (tt_duration_ms t) 0 (last_outcome old) (flaky_count old))
  | None => timings (inner c) !! k ≫= aged max_age
  end ∧
  ∀ e, timings (inner (merge_timings c l max_age)) !! k = Some e → (0 ≤ age e ≤ max_age)%Z.
Proof.
  intros Hc Hm. split; [by apply merge_lookup|]. intros e. rewrite merge_lookup by done.
  destruct (last_of k l); [intros [= <-]; simpl; lia|].
  destruct (timings (inner c) !! k) as [e'|] eqn:E; simpl; [|done].
  unfold aged. destruct (Z.leb_spec (age e' + 1) max_age); [|done]. intros [= <-]. simpl.
  apply Hc in E. lia.
Qed.

Lemma demo_ages_ok : ages_ok demo_cache.
Proof.
  intros k e H. unfold demo_cache in H. simpl in H.
  apply lookup_insert_Some in H as [[_ <-]|[_ H]]; [by vm_compute|].
  by apply lookup_singleton_Some in H as [_ <-].
Qed.

Lemma merge_timings_entry_witness :
  timings (inner (merge_timings demo_cache
    [{| tt_node_id := "a"; tt_duration_ms := f64_of_Z 7; tt_outcome := OutcomeKind.Passed |}] 2)) !! "b"
  = None.
Proof.
  rewrite (proj1 (merge_timings_entry demo_cache _ 2 "b" demo_ages_ok ltac:(vm_compute; split; congruence))).
  vm_compute. reflexivity.
Defined.

(** An entry whose test is not executed survives run after run until its
    age passes the limit, and is gone from then on. *)
Theorem unexecuted_entry_evicted_past_max_age c runs max_age k e :
  ages_ok c → (0 ≤ max_age < u32_max)%Z →
  timings (inner c) !! k = Some e → (age e ≤ max_age)%Z →
  (∀ l, l ∈ runs → k ∉ executed l) →
  timings (inner (fold_left (λ c l, merge_timings c l max_age) runs c)) !! k =
  if (age e + Z.of_nat (length runs) <=? max_age)%Z
  then Some (mk_entry (duration_ms e) (age e + Z.of_nat (length runs)) (last_outcome e) (flaky_count e))
  else None.
Proof.
  intros Hc Hm Hk Ha Hruns.
  assert (Hgone : ∀ runs c, ages_ok c → (∀ l, l ∈ runs → k ∉ executed l) →
    timings (inner c) !! k = None →
    timings (inner (fold_left (λ c l, merge_timings c l max_age) runs c)) !! k = None).
  { clear -Hm. induction runs as [|l runs IH]; intros c Hc Hr Hk; simpl; [done|].
    apply IH.
    - apply merge_ages_ok; [done|lia].
    - set_solver.
    - rewrite merge_lookup by done.
      rewrite (proj2 (last_of_None k l)) by set_solver. by rewrite Hk. }
  revert c e Hc Hk Ha Hruns. induction runs as [|l runs IH]; intros c e Hc Hk Ha Hruns; simpl.
  { rewrite Z.add_0_r. rewrite (proj2 (Z.leb_le _ _) Ha). by destruct e. }
  pose proof (merge_lookup c l max_age k Hc) as Hl.
  rewrite (proj2 (last_of_None k l)), Hk in Hl by set_solver. simpl in Hl. unfold aged in Hl.
  assert (ages_ok (merge_timings c l max_age)) as Hc' by (apply merge_ages_ok; [done|lia]).
  destruct (Z.leb_spec (age e + 1) max_age).
  - rewrite (IH _ _ Hc' Hl) by (simpl; lia || set_solver). simpl.
    replace (age e + 1 + Z.of_nat (length runs))%Z with (age e + Z.of_nat (S (length runs)))%Z by lia.
    done.
  - rewrite Hgone by (done || set_solver).
    destruct (Z.leb_spec (age e + Z.of_nat (S (length runs))) max_age); [lia|done].
Qed.

Lemma unexecuted_entry_evicted_past_max_age_witness :
  timings (inner (fold_left (λ c l, merge_timings c l 4) [[]; []] demo_cache)) !! "b"
  = Some (mk_entry (f64_of_Z 30) 4 (Some OutcomeKind.Passed) 0) ∧
  timings (inner (fold_left (λ c l, merge_timings c l 4) [[]; []; []] demo_cache)) !! "b" = None.
Proof.
  split.
  - rewrite (unexecuted_entry_evicted_past_max_age demo_cache [[]; []] 4 "b"
      (mk_entry (f64_of_Z 30) 2 (Some OutcomeKind.Passed) 0));
      [reflexivity|exact demo_ages_ok|vm_compute; split; congruence|reflexivity|simpl; lia|].
    intros l Hl. set_unfold in Hl. destruct_or? Hl; subst; [set_solver..|done].
  - rewrite (unexecuted_entry_evicted_past_max_age demo_cache [[]; []; []] 4 "b"
      (mk_entry (f64_of_Z 30) 2 (Some OutcomeKind.Passed) 0));
      [reflexivity|exact demo_ages_ok|vm_compute; split; congruence|reflexivity|simpl; lia|].
    intros l Hl. set_unfold in Hl. destruct_or? Hl; subst; [set_solver..|done].
Defined.

(** ** Last-failed after a run *)

Lemma record_all_lookup l m k :
  match (fold_left record_step l (m, false)).1 !! k, m !! k with
  | Some e', Some e =>
      duration_ms e' = duration_ms e ∧ age e' = age e ∧
      last_outcome e' = match last_of k l with
                        | Some t => Some (tt_outcome t) | None => last_outcome e end
  | None, None => True
  | _, _ => False
  end.
Proof.
  induction l as [|t l IH] using rev_ind.
  { simpl. by destruct (m !! k). }
  rewrite fold_left_app, last_of_snoc. cbn [fold_left].
  destruct (fold_left record_step l (m, false)) as [m' b]. simpl in IH.
  unfold record_step. cbn [fst]. destruct (decide (tt_node_id t = k)) as [<-|Hne].
  - destruct (m' !! tt_node_id t) as [e'|] eqn:E.
    + simpl. rewrite lookup_insert_eq. destruct (m !! tt_node_id t); naive_solver.
    + simpl. rewrite E. by destruct (m !! tt_node_id t).
  - destruct (m' !! tt_node_id t) as [e'|] eqn:E; simpl; [|done].
    rewrite lookup_insert_ne by done. done.
Qed.

Lemma elem_of_last_failed c k :
  k ∈ last_failed_ids c ↔ ∃ e, timings (inner c) !! k = Some e ∧ entry_failed e = true.
Proof.
  unfold last_failed_ids. rewrite elem_of_dom. unfold is_Some.
  setoid_rewrite map_lookup_filter_Some. naive_solver.
Qed.

Section Finalize.
Context {json : Type} (to_string_pretty : CacheFile → option json)
  (write : json → option json → option json) (dir_ok : bool).

(** C31: After a run is finalized, the last-failed set holds exactly the tests
    whose last report in the run is a failure, error or timeout, and those not
    executed that failed before and whose entry has not aged out. *)
Theorem finalize_last_failed c l max_age file k :
  ages_ok c →
  k ∈ last_failed_ids (finalize to_string_pretty write dir_ok c l max_age file).1 ↔
  match last_of k l with
  | Some t => OutcomeKind.is_retryable_failure (tt_outcome t) = true
  | None => ∃ e, timings (inner c) !! k = Some e ∧ entry_failed e = true ∧ (age e < max_age)%Z
  end.
Proof.
  intros Hc. rewrite elem_of_last_failed. simpl. unfold record_timing_outcomes.
  pose proof (record_all_lookup l (timings (inner (merge_timings c l max_age))) k) as Hr.
  rewrite (merge_lookup c l max_age k Hc) in Hr.
  destruct (fold_left record_step l _) as [m ch]. cbn [fst] in Hr. simpl.
  destruct (last_of k l) as [t|]; simpl in Hr.
  - destruct (m !! k) as [e'|]; [|done]. destruct Hr as (_ & _ & Ho).
    unfold entry_failed. split; [intros (e & [= <-] & He); by rewrite Ho in He|].
    intros Ht. exists e'. by rewrite Ho.
  - destruct (timings (inner c) !! k) as [e|]; simpl in Hr.
    + unfold aged in Hr. destruct (Z.leb_spec (age e + 1) max_age).
      * destruct (m !! k) as [e'|]; [|done]. destruct Hr as (_ & _ & Ho). simpl in Ho.
        unfold entry_failed. split.
        -- intros (e0 & [= <-] & He). exists e. rewrite Ho in He. split_and!; [done..|lia].
        -- intros (e0 & [= <-] & He & _). exists e'. by rewrite Ho.
      * destruct (m !! k); [done|]. split; [intros (? & ? & _); done|].
        intros (e0 & [= <-] & _ & ?). lia.
    + destruct (m !! k); [done|]. split; intros (? & ? & _); done.
Qed.

(** A run executed on a narrowed selection forgets every other test: once
    [invalidate] has been called with the selected items, a test that was not
    selected has neither timing nor outcome after [finalize], whatever
    [cache_max_age] is, so the ageing of [merge_timings] never applies to it. *)
Theorem narrowed_run_forgets_unselected c selected l max_age file k :
  k ∉ map node_id selected → k ∉ executed l →
  timings (inner (finalize to_string_pretty write dir_ok
    (invalidate c selected) l max_age file).1) !! k = None.
Proof.
  intros Hk Hl. simpl. unfold record_timing_outcomes.
  set (c1 := merge_timings (invalidate c selected) l max_age).
  pose proof (record_all_lookup l (timings (inner c1)) k) as Hr.
  assert (timings (inner c1) !! k = None) as E.
  { unfold c1, merge_timings. simpl. rewrite map_lookup_imap, touch_all_lookup.
    rewrite (proj2 (last_of_None k l)) by done.
    unfold invalidate. simpl. rewrite map_lookup_imap.
    destruct (timings (inner c) !! k); simpl; [|done].
    rewrite bool_decide_eq_false_2; [done|]. by rewrite elem_of_list_to_set. }
  rewrite E in Hr. destruct (fold_left record_step l _) as [m ch]. cbn [fst] in Hr. simpl.
  by destruct (m !! k).
Qed.

End Finalize.

Lemma finalize_last_failed_witness :
  "a" ∈ last_failed_ids (finalize (λ f, Some f) (λ c _, Some c) true demo_cache [] 3 None).1.
Proof.
  apply (proj2 (finalize_last_failed (λ f, Some f) (λ c _, Some c) true demo_cache [] 3 None "a"
    demo_ages_ok)).
  exists (mk_entry (f64_of_Z 10) 0 (Some OutcomeKind.Failed) 0).
  split; [reflexivity|]. split; [reflexivity|simpl; lia].
Defined.

Lemma narrowed_run_forgets_unselected_witness :
  timings (inner demo_cache) !! "b" ≠ None ∧
  timings (inner (finalize (λ f, Some f) (λ c _, Some c) true
    (invalidate demo_cache [demo_item "a"])
    [{| tt_node_id := "a"; tt_duration_ms := f64_zero; tt_outcome := OutcomeKind.Passed |}]
    50 None).1) !! "b" = None.
Proof.
  split; [discriminate|].
  apply (narrowed_run_forgets_unselected (λ f, Some f) (λ c _, Some c) true).
  - simpl. set_solver.
  - unfold executed. simpl. set_solver.
Defined.

(** ** Collected modules *)

(** [#[serde(skip, default)]]: the node id of a serialised item is lost. *)
Definition skip_node_id (item : TestItem) : TestItem :=
  {| node_id := ""; fn_name := fn_name item; lineno := lineno item; markers := markers item;
     param_id := param_id item; param_values := param_values item;
     is_async := is_async item; fixture_deps := fixture_deps item;
     fixref_deps := fixref_deps item; arranged := arranged item |}.

Definition skip_node_ids (f : CacheFile) : CacheFile :=
  mk_file (version f) (timings f)
    ((λ e, mk_module_entry (fingerprint e) (map skip_node_id (cached_items e))) <$> modules f).

(** The items of a module carry the ids its path, functions and parameters give. *)
Definition ids_of (path : string) (l : list TestItem) : Prop :=
  Forall (λ i, node_id i = NodeId.new path (fn_name i) (param_id i)) l.

Lemma rebuild_skip path l : ids_of path l → map (rebuild_id path) (map skip_node_id l) = l.
Proof.
  induction 1 as [|i l Hi _ IH]; simpl; [done|]. rewrite IH. f_equal.
  destruct i; unfold rebuild_id; simpl in *. by rewrite <-Hi.
Qed.

Section ModuleRoundTrip.
Context {json : Type} (to_string_pretty : CacheFile → option json)
  (from_str : json → option CacheFile).
(** What the [serde] derive documents: reading back what was written gives the
    value, the skipped fields excepted. *)
Context (serde_roundtrip : ∀ f j, to_string_pretty f = Some j → from_str j = Some (skip_node_ids f)).
Context (serde_total : ∀ f, is_Some (to_string_pretty f)).

(** The items collected from a module, stored in the cache, saved and
    loaded by a later run are served unchanged, ids included, if the source has
    the same fingerprint, and not at all if it has another one. *)
Theorem module_cache_roundtrip c path fp fp' l file :
  version (inner c) = CACHE_VERSION → ids_of path l →
  let c' := load from_str
    (save to_string_pretty (λ content _, Some content) true (update_module_cache c path fp l) file) in
  cached_module_items c' path fp = Some l ∧
  (fp' ≠ fp → cached_module_items c' path fp' = None) ∧
  timings (inner c') = timings (inner c) ∧
  dirty c' = false.
Proof.
  intros Hv Hl c'.
  assert (c' = mk_cache (skip_node_ids (inner (update_module_cache c path fp l))) false) as ->.
  { unfold c', save. simpl.
    destruct (serde_total (inner (update_module_cache c path fp l))) as [j Hj].
    unfold update_module_cache, set_modules in Hj |- *. simpl in *. rewrite Hj. simpl.
    rewrite (serde_roundtrip _ _ Hj). simpl. by rewrite Hv. }
  unfold cached_module_items. simpl. rewrite lookup_fmap, lookup_insert_eq. simpl.
  rewrite Z.eqb_refl, rebuild_skip by done. split_and!; try done.
  intros Hne. by rewrite (proj2 (Z.eqb_neq fp fp')) by done.
Qed.
End ModuleRoundTrip.

Lemma module_cache_roundtrip_witness :
  let i := {| node_id := "t.py::test_a[x]"; fn_name := "test_a"; lineno := 3;
     markers := MarkerSet.new; param_id := Some "x"; param_values := []; is_async := false;
     fixture_deps := []; fixref_deps := []; arranged := [] |} in
  cached_module_items (load Some (save (λ f, Some (skip_node_ids f)) (λ content _, Some content)
    true (update_module_cache empty_cache "t.py" 7 [i]) None)) "t.py" 7 = Some [i].
Proof.
  intros i.
  refine (proj1 (module_cache_roundtrip (λ f, Some (skip_node_ids f)) Some _ _
    empty_cache "t.py" 7 8 [i] None eq_refl _)).
  - intros f j [= <-]. reflexivity.
  - intros f. eexists. reflexivity.
  - repeat constructor.
Defined.

(** ** The fingerprint *)

Lemma fnv1a_from_range s h : (0 ≤ h < 2 ^ 64)%Z → (0 ≤ fnv1a_from h s < 2 ^ 64)%Z.
Proof.
  revert h. induction s as [|a s IH]; intros h Hh; simpl; [done|]. apply IH.
  unfold wrap64. apply Z.mod_pos_bound. lia.
Qed.

(** Multiplying by the odd prime is invertible modulo [2^64]. *)
Lemma prime_mul_inj x y :
  (0 ≤ x < 2 ^ 64)%Z → (0 ≤ y < 2 ^ 64)%Z → wrap64 (x * PRIME) = wrap64 (y * PRIME) → x = y.
Proof.
  unfold wrap64, PRIME. intros Hx Hy H.
  assert (Hinv : ∀ z, (0 ≤ z < 2 ^ 64)%Z →
    (((z * 1099511628211) mod 18446744073709551616 * 14886173955864302971)
      mod 18446744073709551616)%Z = z).
  { intros z Hz. rewrite Z.mul_mod_idemp_l by done. rewrite <-Z.mul_assoc.
    change (1099511628211 * 14886173955864302971)%Z
      with (1 + 887285111055 * 18446744073709551616)%Z.
    rewrite Z.mul_add_distr_l, Z.mul_1_r, Z.mul_assoc, Z.mod_add by done.
    apply Z.mod_small. lia. }
  rewrite <-(Hinv x Hx), <-(Hinv y Hy). by rewrite H.
Qed.

Lemma lxor_range h b : (0 ≤ h < 2 ^ 64)%Z → (0 ≤ b < 256)%Z → (0 ≤ Z.lxor h b < 2 ^ 64)%Z.
Proof.
  intros Hh Hb. split; [apply Z.lxor_nonneg; lia|].
  destruct (Z.eq_dec (Z.lxor h b) 0) as [->|Hne]; [done|].
  apply Z.log2_lt_pow2.
  - assert (0 ≤ Z.lxor h b)%Z by (apply Z.lxor_nonneg; lia). lia.
  - pose proof (Z.log2_lxor h b ltac:(lia) ltac:(lia)).
    assert (∀ x, (0 ≤ x < 2 ^ 64)%Z → (Z.log2 x < 64)%Z) as Hl.
    { intros x Hx. destruct (Z.eq_dec x 0) as [->|]; [done|]. apply Z.log2_lt_pow2; lia. }
    pose proof (Hl h Hh). pose proof (Hl b ltac:(lia)). lia.
Qed.

Lemma lxor_inj_l a b c : Z.lxor a b = Z.lxor a c → b = c.
Proof.
  intros H. apply (f_equal (Z.lxor a)) in H.
  by rewrite <-!Z.lxor_assoc, Z.lxor_nilpotent, !Z.lxor_0_l in H.
Qed.

Lemma byte_range a : (0 ≤ Z.of_N (N_of_ascii a) < 256)%Z.
Proof. pose proof (N_ascii_bounded a). lia. Qed.

Lemma fnv1a_from_inj s h h' :
  (0 ≤ h < 2 ^ 64)%Z → (0 ≤ h' < 2 ^ 64)%Z → fnv1a_from h s = fnv1a_from h' s → h = h'.
Proof.
  revert h h'. induction s as [|a s IH]; intros h h' Hh Hh' H; simpl in H; [done|].
  apply IH in H; [|by apply Z.mod_pos_bound..].
  pose proof (byte_range a). apply prime_mul_inj in H; [|by apply lxor_range..].
  rewrite !(Z.lxor_comm _ (Z.of_N _)) in H. by apply lxor_inj_l in H.
Qed.

Lemma fnv1a_from_app h s1 s2 : fnv1a_from h (s1 +:+ s2) = fnv1a_from (fnv1a_from h s1) s2.
Proof. revert h. induction s1 as [|a s1 IH]; intros h; [done|]. rewrite str_app_cons. apply IH. Qed.

(** The fingerprint is a 64-bit value, is that of FNV-1a on the published
    test vectors, and changing any single byte of a source always changes it,
    so such an edit never serves a stale module. *)
Theorem fingerprint_detects_byte_edit p a b s :
  (0 ≤ from_source (p +:+ String a s) < 2 ^ 64)%Z ∧
  (from_source (p +:+ String a s) = from_source (p +:+ String b s) ↔ a = b) ∧
  from_source "a" = 12638187200555641996%Z ∧
  from_source "foobar" = 9625390261332436968%Z.
Proof.
  unfold from_source, fnv1a. split; [by apply fnv1a_from_range|].
  split; [|split; vm_compute; reflexivity]. split; [|by intros ->]. rewrite !fnv1a_from_app. simpl. intros H.
  assert (0 ≤ fnv1a_from OFFSET_BASIS p < 2 ^ 64)%Z as Hh by (by apply fnv1a_from_range).
  apply fnv1a_from_inj in H; [|by apply Z.mod_pos_bound..].
  pose proof (byte_range a). pose proof (byte_range b).
  apply prime_mul_inj in H; [|by apply lxor_range..].
  apply lxor_inj_l in H. apply N2Z.inj in H.
  by rewrite <-(ascii_N_embedding a), <-(ascii_N_embedding b), H.
Qed.
