(* ===== verification/Filter.v ===== *)
(** * Filter: selecting and grouping tests ([src/filter.rs])

    Marker validation, [--lf]/[--ff], node-id selection at item level and at
    prescan level, target display, grouping by module and by declaring package;
    with them the entry conversion, the file filter and the DSL filter of
    [src/pipeline/transitions/mod.rs], [filter_metadata] of [prescanned.rs], the
    item selection of [strict_or_skip] ([collected.rs]) and
    [FilterConfig::source_files] ([src/config/mod.rs]).

    The [globset] crate is a parameter ([glob_build], [glob_is_match]), and so
    is the query DSL's outside world (see [Query.v]).  A [HashSet] of ids is a
    [gset string]; a [HashSet<Utf8PathBuf>] is a list searched with path
    equality. *)
From Stdlib Require Import Ascii.
From S2P Require Import Prelude Collections Text F64 Paths Types Scheduler Query.

(** ** Markers *)

Definition BUILTIN_MARKERS : list string := ["skip"; "xfail"; "timeout"; "inprocess"].

Definition dquote : string := String (ascii_of_nat 34) "".

Definition unknown_marker (name id : string) : CollectError :=
  PyError ("unknown marker '" +:+ name +:+ "' on " +:+ id +:+ newline
    +:+ "Hint: register it in pyproject.toml:" +:+ newline +:+ "  [tool.oxitest]" +:+ newline
    +:+ "  markers = [" +:+ dquote +:+ name +:+ ": <description>" +:+ dquote +:+ "]").

Definition validate_markers (l : list TestItem) (registered : gset string) : list CollectError :=
  flat_map (λ item,
    flat_map (λ name,
      if negb (bool_decide (name ∈ BUILTIN_MARKERS)) && negb (bool_decide (name ∈ registered))
      then [unknown_marker name (node_id item)] else [])
      (MarkerSet.iter (markers item))) l.

(** ** Last failed *)

Definition is_failed (failed_ids : gset string) (item : TestItem) : bool :=
  bool_decide (node_id item ∈ failed_ids).

Definition partition_by_failed (l : list TestItem) (failed_ids : gset string)
    : list TestItem * list TestItem :=
  List.partition (is_failed failed_ids) l.

Definition filter_last_failed (l : list TestItem) (failed_ids : gset string) : list TestItem :=
  (partition_by_failed l failed_ids).1.

Definition sort_failed_first (l : list TestItem) (failed_ids : gset string) : list TestItem :=
  let '(failed, remaining) := partition_by_failed l failed_ids in failed ++ remaining.

(** ** Node ids *)

(** [s.strip_prefix(r"\\?\").unwrap_or(s)] *)
Definition verbatim_prefix : string :=
  String (ascii_of_nat 92) (String (ascii_of_nat 92)
    (String (ascii_of_nat 63) (String (ascii_of_nat 92) ""))).

Definition without_verbatim_prefix (s : string) : string :=
  default s (strip_prefix verbatim_prefix s).

Definition contains_glob_chars (s : string) : bool :=
  let s := without_verbatim_prefix s in
  contains "*" s || contains "?" s || contains "[" s.

Fixpoint escape_node_id_brackets (id : string) : string :=
  match id with
  | "" => ""
  | String c r =>
      (if Ascii.eqb c "[" then "[[]" else if Ascii.eqb c "]" then "[]]" else String c "")
      +:+ escape_node_id_brackets r
  end.

(** [item_id] continues [target] with a bracket or with [::]. *)
Definition descends (item_id target : string) : bool :=
  match strip_prefix target item_id with
  | Some rest => starts_with "[" rest || starts_with "::" rest
  | None => false
  end.

Definition matches_node_id_prefix (item_id target : string) (bidirectional : bool) : bool :=
  if String.eqb item_id target || descends item_id target then true
  else bidirectional && descends target item_id.

Definition path_mem (p : string) (l : list string) : bool := existsb (path_eqb p) l.

(** [FilterConfig::source_files] *)
Definition source_files (node_ids : list string) : list string :=
  flat_map (λ id, match NodeId.module_path id with Some m => [m] | None => [] end)
    (List.filter (λ id, negb (contains_glob_chars id)) node_ids).

Section Globs.
Context {glob : Type} (glob_build : string → option glob) (glob_is_match : glob → string → bool).

Definition build_glob_matchers (glob_ids : list string) : list glob :=
  flat_map (λ id, match glob_build (escape_node_id_brackets id) with
                  | Some g => [g] | None => [] end) glob_ids.

Definition item_matches_node_ids (item : TestItem) (literal_ids : list string)
    (glob_matchers : list glob) (sources : list string) : bool :=
  if match sources with [] => false | _ => true end
     && negb (path_mem (item_module_path item) sources) then true
  else if existsb (λ target, matches_node_id_prefix (node_id item) target false) literal_ids
  then true
  else existsb (λ m, glob_is_match m (node_id item)) glob_matchers.

Definition filter_by_node_ids (l : list TestItem) (node_ids : list string)
    (sources : list string) : list TestItem :=
  match node_ids with
  | [] => l
  | _ =>
      let '(glob_ids, literal_ids) := List.partition contains_glob_chars node_ids in
      let glob_matchers := build_glob_matchers glob_ids in
      List.filter (λ item, item_matches_node_ids item literal_ids glob_matchers sources) l
  end.

Definition unmatched_literal_targets (l : list TestItem) (node_ids : list string) : list string :=
  List.filter (λ target,
      negb (existsb (λ item, matches_node_id_prefix (node_id item) target false) l))
    (List.filter (λ id, negb (contains_glob_chars id)) node_ids).

(** ** Displaying targets *)

Definition is_sep (c : ascii) : bool := Ascii.eqb c "/" || Ascii.eqb c (ascii_of_nat 92).

(** [trim_start_matches(['/', '\\'])] *)
Fixpoint trim_start_seps (s : string) : string :=
  match s with
  | String c r => if is_sep c then trim_start_seps r else s
  | "" => ""
  end.

(** [trim_end_matches(['/', '\\'])] *)
Fixpoint trim_end_seps (s : string) : string :=
  match s with
  | "" => ""
  | String c r =>
      match trim_end_seps r with
      | "" => if is_sep c then "" else String c ""
      | r' => String c r'
      end
  end.

Definition strip_verbatim_prefix (path : string) : string :=
  default path (strip_prefix verbatim_prefix path).

Definition starts_with_sep (s : string) : bool :=
  match s with String c _ => is_sep c | "" => false end.

Definition relativise (path base : string) : option string :=
  let path := strip_verbatim_prefix path in
  let base := trim_end_seps (strip_verbatim_prefix base) in
  if String.eqb base "" then None
  else match strip_prefix base path with
  | None => None
  | Some tail =>
      if negb (String.eqb tail "") && negb (starts_with_sep tail) then None
      else
        let rest := trim_start_seps tail in
        if String.eqb rest "" then None else Some rest
  end.

Definition display_target (node_id base : string) : string :=
  match split_once "::" node_id with
  | None => node_id
  | Some (path, rest) =>
      match relativise path base with
      | None => node_id
      | Some rel => rel +:+ "::" +:+ rest
      end
  end.

Definition render_unmatched_targets (unmatched : list string) (rootdir : string) : string :=
  "error: no such test" +:+ newline
  +:+ join "" (map (λ id, "  " +:+ display_target id rootdir +:+ newline) unmatched)
  +:+ newline +:+ "A node ID that matches no test is a usage error, not an empty run." +:+ newline
  +:+ "Nothing ran. See docs/user/reference/exit-codes.md." +:+ newline.

(** ** Grouping *)

Definition group_by_module (l : list TestItem) : list ModuleGroup :=
  map (λ '(p, its), mk_group p its) (group_by path_eqb item_module_path l).

Definition outermost_declaring_ancestor (module_path : string) (declaring_dirs : list string)
    : option string :=
  min_by_key depth (List.filter (λ dir, path_starts_with dir module_path) declaring_dirs).

(** One step of the loop: [merged] is the index map, [out] the singletons. *)
Definition package_step (declaring_dirs : list string)
    (st : list (string * list ModuleGroup) * list TaskGroup.t) (group : ModuleGroup)
    : list (string * list ModuleGroup) * list TaskGroup.t :=
  match outermost_declaring_ancestor (module_path group) declaring_dirs with
  | Some anchor => (index_push path_eqb anchor group st.1, st.2)
  | None => (st.1, st.2 ++ [TaskGroup.single group])
  end.

Definition group_by_package (groups : list ModuleGroup) (declaring_dirs : list string)
    : list TaskGroup.t :=
  match declaring_dirs with
  | [] => map TaskGroup.single groups
  | _ =>
      let '(merged, out) := fold_left (package_step declaring_dirs) groups ([], []) in
      out ++ map (λ '(anchor, ms), TaskGroup.package anchor ms) merged
  end.

(** ** Prescan-level filtering *)

Record PrescanMarker := { pm_name : string; pm_has_dynamic_args : bool }.

Record FxUsage := {
  fx_namespace : option string;
  fx_name : string;
  fx_lineno : nat
}.

Record PrescanItem := {
  pi_fn_name : string;
  pi_lineno : nat;
  pi_is_async : bool;
  pi_markers : list PrescanMarker;
  pi_param_ids : list string;
  pi_fixture_params : list string;
  pi_fx_usages : list FxUsage;
  pi_is_class_method : bool;
  pi_class_name : option string;
  pi_body_weight : f64
}.

Definition prescan_node_id (file_path : string) (item : PrescanItem) : string :=
  match pi_class_name item with
  | Some class => file_path +:+ "::" +:+ class +:+ "::" +:+ pi_fn_name item
  | None => file_path +:+ "::" +:+ pi_fn_name item
  end.

Definition prescan_item_matches_node_ids (item : PrescanItem) (file_path : string)
    (literal_ids : list string) (glob_matchers : list glob) : bool :=
  let id := prescan_node_id file_path item in
  if existsb (λ target, matches_node_id_prefix id target true) literal_ids then true
  else existsb (λ m, glob_is_match m id) glob_matchers.

(** The narrower glob test: [[] stays literal here. *)
Definition has_glob (s : string) : bool :=
  let s := without_verbatim_prefix s in contains "*" s || contains "?" s.

Definition file_matches_node_ids (l : list PrescanItem) (file_path : string)
    (node_ids : list string) : bool :=
  match node_ids with
  | [] => true
  | _ =>
      let '(glob_ids, literal_ids) := List.partition has_glob node_ids in
      let glob_matchers := build_glob_matchers glob_ids in
      existsb (λ item, prescan_item_matches_node_ids item file_path literal_ids glob_matchers) l
  end.

Definition file_matches_last_failed (l : list PrescanItem) (file_path : string)
    (failed_ids : gset string) : bool :=
  existsb (λ item,
    let id := prescan_node_id file_path item in
    existsb (λ fid, String.eqb fid id || starts_with (id +:+ "[") fid) (elements failed_ids)) l.

(** [bool::to_string] *)
Definition show_bool (b : bool) : string := if b then "true" else "false".

Definition prescan_item_to_query_entry (item : PrescanItem) (file_path : string) : QueryEntry :=
  {| fields := <["name" := prescan_node_id file_path item]>
       (<["source" := file_path]>
       (<["mark" := join "," (map pm_name (pi_markers item))]>
       (<["async" := show_bool (pi_is_async item)]> ∅))) |}.

Definition push_new (acc : list string) (m : string) : list string :=
  if bool_decide (m ∈ acc) then acc else acc ++ [m].

Definition prescan_item_to_query_entry_with_module_marks (item : PrescanItem)
    (file_path : string) (module_marks : list string) : QueryEntry :=
  let entry := prescan_item_to_query_entry item file_path in
  let existing := default "" (fields entry !! "mark") in
  let item_marks := if String.eqb existing "" then [] else split "," existing in
  let all_marks := fold_left push_new module_marks item_marks in
  {| fields := <["mark" := join "," all_marks]> (fields entry) |}.

(** [item_to_query_entry] of [transitions/mod.rs] *)
Definition item_to_query_entry (item : TestItem) : QueryEntry :=
  {| fields := <["name" := node_id item]>
       (<["source" := item_module_path item]>
       (<["mark" := MarkerSet.join (markers item) ","]>
       (<["async" := show_bool (is_async item)]> ∅))) |}.

Section WithDsl.
Context (uni_alnum : N → bool).
Context {regex : Type} (regex_new : string → result regex string)
  (regex_is_match : regex → string → bool).

Definition file_matches_expression (l : list PrescanItem) (file_path expression : string)
    (module_marks : option (list string)) : bool :=
  let marks := default [] module_marks in
  match lex uni_alnum expression with
  | Err _ => true
  | Ok tokens =>
      match parse regex_new tokens with
      | Err _ => true
      | Ok parsed =>
          existsb (λ item, eval regex_is_match parsed
            (prescan_item_to_query_entry_with_module_marks item file_path marks)) l
      end
  end.

(** The error is the one rendered by [dsl_error_exit]. *)
Definition apply_query_dsl_filter (l : list TestItem) (expression : string)
    : result (list TestItem) DslError :=
  let? tokens := lex uni_alnum expression in
  let? parsed := parse regex_new tokens in
  let? _ := validate_predicates parsed Tests in
  Ok (List.filter (λ item, eval regex_is_match parsed (item_to_query_entry item)) l).

Record FilterPredicates := {
  fp_node_ids : list string;
  fp_expression : option string;
  fp_failed_ids : gset string;
  fp_sources : list string;
  fp_has_node_ids : bool;
  fp_has_failed_filter : bool
}.

(** [module_markers.get(path)], keyed by path. *)
Definition module_marks_of (mm : list (string * list string)) (path : string)
    : option (list string) :=
  snd <$> find (λ kv, path_eqb kv.1 path) mm.

Definition file_passes_all_filters (path : string) (l : list PrescanItem)
    (preds : FilterPredicates) (module_markers : list (string * list string)) : bool :=
  let is_node_id_source :=
    match fp_sources preds with [] => true | _ => path_mem path (fp_sources preds) end in
  if fp_has_node_ids preds && is_node_id_source
     && negb (file_matches_node_ids l path (fp_node_ids preds)) then false
  else if match fp_expression preds with
          | Some expr => negb (file_matches_expression l path expr
                                 (module_marks_of module_markers path))
          | None => false
          end then false
  else if fp_has_failed_filter preds && negb (bool_decide (fp_failed_ids preds = ∅))
          && negb (file_matches_last_failed l path (fp_failed_ids preds)) then false
  else true.

(** ** [filter_metadata] ([prescanned.rs]) *)

Inductive FailedMode := Only | First.

Record MetadataConfig := {
  fc_node_ids : list string;
  fc_expression : option string;
  fc_failed : option FailedMode;
  fc_affected : bool
}.

(** The [fixture_module] field is never read by this phase. *)
Record PrescanModule := {
  pmod_path : string;
  pmod_items : list PrescanItem;
  pmod_has_dynamic_collection : bool
}.

Definition is_only (f : option FailedMode) : bool := match f with Some Only => true | _ => false end.

Definition filter_metadata (cfg : MetadataConfig) (last_failed : gset string)
    (prescan_data : list PrescanModule) (module_markers : list (string * list string))
    : list string :=
  let has_node_ids := match fc_node_ids cfg with [] => false | _ => true end in
  let has_expression := match fc_expression cfg with Some _ => true | None => false end in
  let has_failed_filter := is_only (fc_failed cfg) in
  if negb (has_node_ids || has_expression || has_failed_filter || fc_affected cfg)
  then map pmod_path prescan_data
  else
    let preds := {| fp_node_ids := fc_node_ids cfg; fp_expression := fc_expression cfg;
                    fp_failed_ids := if has_failed_filter then last_failed else ∅;
                    fp_sources := source_files (fc_node_ids cfg);
                    fp_has_node_ids := has_node_ids;
                    fp_has_failed_filter := has_failed_filter |} in
    map pmod_path (List.filter (λ m, pmod_has_dynamic_collection m
      || file_passes_all_filters (pmod_path m) (pmod_items m) preds module_markers) prescan_data).

(** The item selection of [strict_or_skip] ([collected.rs]), after strict mode. *)
Definition select_items (cfg : MetadataConfig) (last_failed : gset string) (l : list TestItem)
    : result (list TestItem) DslError :=
  let l := filter_by_node_ids l (fc_node_ids cfg) (source_files (fc_node_ids cfg)) in
  let? l := match fc_expression cfg with
            | Some expr => apply_query_dsl_filter l expr
            | None => Ok l
            end in
  match fc_failed cfg with
  | Some Only => if bool_decide (last_failed = ∅) then Ok l else Ok (filter_last_failed l last_failed)
  | Some First => Ok (sort_failed_first l last_failed)
  | None => Ok l
  end.

End WithDsl.
End Globs.

(** * Theorems *)

(** ** Prefix matching *)

Lemma descends_true item target :
  descends item target = true ↔
  ∃ r, item = target +:+ "[" +:+ r ∨ item = target +:+ "::" +:+ r.
Proof.
  unfold descends. destruct (strip_prefix target item) as [rest|] eqn:E.
  - apply strip_prefix_Some in E as ->. rewrite orb_true_iff, !starts_with_true. split.
    + intros [[r ->]|[r ->]]; eauto.
    + intros [r [H|H]]; apply str_app_inv_l in H; eauto.
  - split; [done|]. intros [r [H|H]]; apply strip_prefix_Some in H; congruence.
Qed.

Lemma matches_true item target :
  matches_node_id_prefix item target false = true ↔ item = target ∨ descends item target = true.
Proof.
  unfold matches_node_id_prefix. destruct (String.eqb_spec item target); simpl; [naive_solver|].
  destruct (descends item target); naive_solver.
Qed.

Lemma matches_bidir_true item target :
  matches_node_id_prefix item target true = true ↔
  item = target ∨ descends item target = true ∨ descends target item = true.
Proof.
  unfold matches_node_id_prefix. destruct (String.eqb_spec item target); simpl; [naive_solver|].
  destruct (descends item target); naive_solver.
Qed.

(** Two decompositions of one string: one part extends the other. *)
Lemma str_app_cases a b c d :
  a +:+ b = c +:+ d →
  (∃ x, a = c +:+ x ∧ d = x +:+ b) ∨ (∃ x, x ≠ "" ∧ c = a +:+ x ∧ b = x +:+ d).
Proof.
  revert c. induction a as [|h a IH]; intros c H.
  - destruct c as [|k c].
    + left. exists "". by rewrite !str_app_nil_l in *.
    + right. exists (String k c). rewrite str_app_nil_l in *. done.
  - destruct c as [|k c].
    + left. exists (String h a). by rewrite !str_app_nil_l in *.
    + rewrite !str_app_cons in H. injection H as -> H.
      destruct (IH c H) as [(x & -> & ->)|(x & Hx & -> & ->)].
      * left. by exists x.
      * right. by exists x.
Qed.

Definition param_suffix (p : option string) : string :=
  match p with Some id => "[" +:+ id +:+ "]" | None => "" end.

(** A literal target that selects a test of a function selects the function's
    prescan id in one of the two directions. *)
Lemma prescan_over_approx pid p target :
  matches_node_id_prefix (pid +:+ param_suffix p) target false = true →
  matches_node_id_prefix pid target true = true.
Proof.
  rewrite matches_true, matches_bidir_true, !descends_true. intros H.
  assert (∃ ext, pid +:+ param_suffix p = target +:+ ext ∧
    (ext = "" ∨ (∃ r, ext = "[" +:+ r) ∨ (∃ r, ext = "::" +:+ r))) as (ext & E & Hext).
  { destruct H as [->|[r [->| ->]]]; [exists ""; rewrite str_app_nil_r|..]; eauto 10. }
  clear H. apply str_app_cases in E as [(x & -> & ->)|(x & Hx & -> & Es)].
  - destruct x as [|c x]; [left; by rewrite str_app_nil_r|]. right. left.
    rewrite str_app_cons in Hext. destruct Hext as [?|[[r Hr]|[r Hr]]]; [done|..].
    + change "[" with (String "[" "") in Hr. rewrite str_app_cons in Hr. injection Hr as -> Hr.
      exists x. left. by rewrite str_app_cons, str_app_nil_l.
    + change "::" with (String ":" (String ":" "")) in Hr. rewrite !str_app_cons in Hr.
      injection Hr as -> Hr. destruct x as [|c x].
      * rewrite str_app_nil_l in Hr. by destruct p.
      * rewrite str_app_cons in Hr. injection Hr as -> Hr. exists x. right. done.
  - right. right. destruct p as [id|]; simpl in Es.
    + destruct x as [|c x]; [done|]. rewrite str_app_cons in Es. injection Es as <- _.
      exists x. left. by rewrite str_app_cons, str_app_nil_l.
    + symmetry in Es. by apply str_app_eq_nil in Es as [-> _].
Qed.

(** ** Escaping *)

Lemma escape_app a b :
  escape_node_id_brackets (a +:+ b) = escape_node_id_brackets a +:+ escape_node_id_brackets b.
Proof.
  induction a as [|c a IH]; [done|]. rewrite str_app_cons. simpl. by rewrite IH, str_app_assoc.
Qed.

Lemma escape_inj a b : escape_node_id_brackets a = escape_node_id_brackets b → a = b.
Proof.
  assert (Hhd : ∀ c, ∃ x r, (if Ascii.eqb c "[" then "[[]" else if Ascii.eqb c "]" then "[]]"
    else String c "") = String x r) by (intros c; repeat case_match; eauto).
  revert b. induction a as [|c a IH]; intros [|d b]; simpl; [done|..].
  - destruct (Hhd d) as (x & r & ->). by rewrite str_app_cons.
  - destruct (Hhd c) as (x & r & ->). by rewrite str_app_cons.
  - destruct (Ascii.eqb_spec c "["), (Ascii.eqb_spec c "]"), (Ascii.eqb_spec d "["),
      (Ascii.eqb_spec d "]"); subst; try done; rewrite !str_app_cons; intros H;
      injection H; intros; subst; try done; f_equal; by apply IH.
Qed.

(** ** The prescan filter never drops a selected test *)

(** No character that [globset] gives a meaning to, brackets apart. *)
Definition plain_id (id : string) : bool :=
  negb (has_glob id || contains "{" id || contains "}" id
        || contains (String (ascii_of_nat 92) "") id).

(** [item] is a (possibly parametrized) test of the scanned function [p]. *)
Definition collected_from (path : string) (p : PrescanItem) (item : TestItem) : Prop :=
  ∃ param, node_id item = prescan_node_id path p +:+ param_suffix param.

Lemma collected_module_path path p item :
  clean_path path → collected_from path p item → item_module_path item = path.
Proof.
  intros Hc [param E]. unfold item_module_path, NodeId.module_path, NodeId.split_node_id_once.
  rewrite E. unfold prescan_node_id. destruct (pi_class_name p); rewrite !str_app_assoc;
    by rewrite clean_path_split.
Qed.

Lemma has_glob_literal id : contains_glob_chars id = false → has_glob id = false.
Proof. unfold contains_glob_chars, has_glob. by intros [? _]%orb_false_iff. Qed.

Section Prescan.
Context {glob : Type} (glob_build : string → option glob) (glob_is_match : glob → string → bool).
Lemma build_glob_matchers_elem ids g :
  g ∈ build_glob_matchers glob_build ids ↔
  ∃ id, id ∈ ids ∧ glob_build (escape_node_id_brackets id) = Some g.
Proof.
  unfold build_glob_matchers. rewrite flat_map_elem. split.
  - intros (id & Hid & Hg). exists id. split; [done|].
    destruct (glob_build _); set_solver.
  - intros (id & Hid & Hg). exists id. rewrite Hg. set_solver.
Qed.

Lemma node_id_match_elem ids id :
  (if existsb (λ t, matches_node_id_prefix id t false)
        (List.filter (λ x, negb (contains_glob_chars x)) ids) then true
   else existsb (λ g, glob_is_match g id)
          (build_glob_matchers glob_build (List.filter contains_glob_chars ids))) = true ↔
  (∃ t, t ∈ ids ∧ contains_glob_chars t = false ∧ matches_node_id_prefix id t false = true) ∨
  (∃ t g, t ∈ ids ∧ contains_glob_chars t = true ∧
     glob_build (escape_node_id_brackets t) = Some g ∧ glob_is_match g id = true).
Proof.
  destruct (existsb (λ t, matches_node_id_prefix id t false) _) eqn:E1.
  - apply existsb_elem in E1 as (t & [Ht Hn]%filter_elem & Hm). apply negb_true_iff in Hn.
    split; [|done]. eauto.
  - rewrite existsb_elem. rewrite existsb_false in E1. split.
    + intros (g & (t & [Ht Hc]%filter_elem & Hg)%build_glob_matchers_elem & Hm). eauto 10.
    + intros [(t & Ht & Hc & Hm)|(t & g & Ht & Hc & Hg & Hm)].
      * rewrite E1 in Hm; [done|]. apply filter_elem. by rewrite Hc.
      * exists g. split; [|done]. apply build_glob_matchers_elem. exists t.
        by rewrite filter_elem.
Qed.

Lemma filter_by_node_ids_elem l ids sources i :
  ids ≠ [] →
  i ∈ filter_by_node_ids glob_build glob_is_match l ids sources ↔
  i ∈ l ∧
  ((sources ≠ [] ∧ path_mem (item_module_path i) sources = false) ∨
   (∃ t, t ∈ ids ∧ contains_glob_chars t = false ∧ matches_node_id_prefix (node_id i) t false = true) ∨
   (∃ t g, t ∈ ids ∧ contains_glob_chars t = true ∧
      glob_build (escape_node_id_brackets t) = Some g ∧ glob_is_match g (node_id i) = true)).
Proof.
  intros Hids.
  assert (filter_by_node_ids glob_build glob_is_match l ids sources =
    List.filter (λ item, item_matches_node_ids glob_is_match item
      (List.filter (λ x, negb (contains_glob_chars x)) ids)
      (build_glob_matchers glob_build (List.filter contains_glob_chars ids)) sources) l) as ->.
  { unfold filter_by_node_ids. rewrite partition_as_filters. by destruct ids. }
  rewrite filter_elem. apply and_iff_compat_l. rewrite <-node_id_match_elem.
  unfold item_matches_node_ids.
  destruct (path_mem (item_module_path i) sources), sources; cbn [andb negb]; naive_solver.
Qed.

Lemma file_matches_node_ids_literal l path ids p t :
  p ∈ l → t ∈ ids → has_glob t = false →
  matches_node_id_prefix (prescan_node_id path p) t true = true →
  file_matches_node_ids glob_build glob_is_match l path ids = true.
Proof.
  intros Hp Ht Hg Hm. unfold file_matches_node_ids. destruct ids as [|id0 ids0]; [done|].
  rewrite partition_as_filters. apply existsb_elem. exists p. split; [done|].
  unfold prescan_item_matches_node_ids.
  rewrite (proj2 (existsb_elem _ _)); [done|]. exists t. split; [|done].
  apply filter_elem. by rewrite Hg.
Qed.

(** The documented meaning of a pattern whose only special characters are the
    classes [[[]] and [[]]]: it matches the one string it spells. *)
Context (glob_literal : ∀ id g s, plain_id id = true →
  glob_build (escape_node_id_brackets id) = Some g → glob_is_match g s = true → s = id).

Lemma node_ids_file_kept l path p ids its i :
  Forall (λ id, plain_id id = true) ids → p ∈ its → clean_path path → collected_from path p i →
  i ∈ filter_by_node_ids glob_build glob_is_match l ids (source_files ids) →
  ids = [] ∨
  (source_files ids ≠ [] ∧ path_mem path (source_files ids) = false) ∨
  file_matches_node_ids glob_build glob_is_match its path ids = true.
Proof.
  intros Hplain Hp Hc Hi Hin. destruct (decide (ids = [])) as [|Hne]; [by left|]. right.
  apply filter_by_node_ids_elem in Hin as [_ Hin]; [|done].
  rewrite (collected_module_path path p i Hc Hi) in Hin.
  destruct Hin as [?|Hin]; [by left|right].
  assert (∃ t, t ∈ ids ∧ has_glob t = false ∧
    matches_node_id_prefix (node_id i) t false = true) as (t & Ht & Hg & Hm).
  { destruct Hin as [(t & Ht & Hg & Hm)|(t & g & Ht & Hg & Hb & Hm)].
    - exists t. split_and!; [done| |done]. by apply has_glob_literal.
    - rewrite Forall_forall in Hplain. pose proof (Hplain t Ht) as Hpl.
      apply (glob_literal t g _ Hpl Hb) in Hm. exists t. split_and!; [done| |].
      + unfold plain_id in Hpl. breflect. done.
      + apply matches_true. by left. }
  destruct Hi as [param E]. rewrite E in Hm. apply prescan_over_approx in Hm.
  by eapply file_matches_node_ids_literal.
Qed.

Lemma failed_file_kept its path p i failed :
  p ∈ its → collected_from path p i → node_id i ∈ failed →
  file_matches_last_failed its path failed = true.
Proof.
  intros Hp [param E] Hf. apply existsb_elem. exists p. split; [done|].
  apply existsb_elem. exists (node_id i). rewrite elem_of_elements. split; [done|].
  rewrite E. destruct param as [id|]; simpl.
  - rewrite (proj2 (starts_with_true _ _)), orb_true_r; [done|].
    exists (id +:+ "]"). by rewrite !str_app_assoc.
  - by rewrite str_app_nil_r, String.eqb_refl.
Qed.

Context (uni_alnum : N → bool) {regex : Type} (regex_new : string → result regex string)
  (regex_is_match : regex → string → bool).

(** C7: The metadata filter is safe: with plain node-id targets (literal or
    with a parameter in brackets) and [--failed], and no expression, every
    module that holds a test the later item selection keeps is imported, so
    lazy collection changes what is imported, never what is run. *)
Theorem metadata_filter_keeps_selected cfg last_failed data mm m p l i sel :
  fc_expression cfg = None → Forall (λ id, plain_id id = true) (fc_node_ids cfg) →
  m ∈ data → p ∈ pmod_items m → clean_path (pmod_path m) → collected_from (pmod_path m) p i →
  select_items glob_build glob_is_match uni_alnum regex_new regex_is_match cfg last_failed l = Ok sel →
  i ∈ sel →
  pmod_path m ∈ filter_metadata glob_build glob_is_match uni_alnum regex_new regex_is_match
    cfg last_failed data mm.
Proof.
  intros He Hplain Hm Hp Hc Hi Hsel Hin. unfold select_items in Hsel. rewrite He in Hsel.
  simpl in Hsel.
  assert (i ∈ filter_by_node_ids glob_build glob_is_match l (fc_node_ids cfg)
            (source_files (fc_node_ids cfg)) ∧
          (is_only (fc_failed cfg) = true → last_failed = ∅ ∨ node_id i ∈ last_failed)) as [Hk Hf].
  { destruct (fc_failed cfg) as [[]|]; [case_bool_decide|..]; simplify_eq; [eauto|..|done].
    - unfold filter_last_failed, partition_by_failed in Hin. rewrite partition_as_filters in Hin.
      apply filter_elem in Hin as [? Hfi]. unfold is_failed in Hfi. breflect. eauto.
    - unfold sort_failed_first, partition_by_failed in Hin. rewrite partition_as_filters in Hin.
      rewrite filter_split_perm in Hin. done. }
  unfold filter_metadata. clear Hsel. destruct (negb _); [by apply map_elem; eauto|].
  apply map_elem. exists m. split; [|done]. apply filter_elem. split; [done|].
  apply orb_true_iff. right. unfold file_passes_all_filters. simpl. rewrite He.
  assert (match fc_node_ids cfg with [] => false | _ => true end
    && match source_files (fc_node_ids cfg) with [] => true
       | _ => path_mem (pmod_path m) (source_files (fc_node_ids cfg)) end
    && negb (file_matches_node_ids glob_build glob_is_match (pmod_items m) (pmod_path m)
         (fc_node_ids cfg)) = false) as ->.
  { destruct (node_ids_file_kept l (pmod_path m) p (fc_node_ids cfg) (pmod_items m) i)
      as [->|[[Hs Hpm]| ->]]; try done.
    - destruct (source_files _); [done|]. by rewrite Hpm, andb_false_r.
    - by rewrite andb_false_r. }
  destruct (is_only (fc_failed cfg)) eqn:Eo; simpl; [|done].
  destruct (Hf eq_refl) as [->|Hif]; [done|].
  rewrite (failed_file_kept _ _ p i) by done. by rewrite andb_false_r.
Qed.
End Prescan.

(** A toy glob engine: a pattern matches the id it was escaped from. *)
Definition toy_glob_build (p : string) : option string := Some p.
Definition toy_glob_match (g s : string) : bool := String.eqb g (escape_node_id_brackets s).

Lemma toy_glob_literal id g s :
  plain_id id = true → toy_glob_build (escape_node_id_brackets id) = Some g →
  toy_glob_match g s = true → s = id.
Proof. intros _ [= <-] H%String.eqb_eq. symmetry. by apply escape_inj. Qed.

Definition demo_test (path fn : string) (param : option string) : TestItem :=
  {| node_id := NodeId.new path fn param; fn_name := fn; lineno := 1; markers := MarkerSet.new;
     param_id := param; param_values := []; is_async := false; fixture_deps := [];
     fixref_deps := []; arranged := [] |}.

Definition demo_scan (fn : string) : PrescanItem :=
  {| pi_fn_name := fn; pi_lineno := 1; pi_is_async := false; pi_markers := [];
     pi_param_ids := []; pi_fixture_params := []; pi_fx_usages := [];
     pi_is_class_method := false; pi_class_name := None; pi_body_weight := f64_zero |}.

Definition demo_cfg (ids : list string) (expr : option string) : MetadataConfig :=
  {| fc_node_ids := ids; fc_expression := expr; fc_failed := None; fc_affected := false |}.

Definition demo_module (path fn : string) : PrescanModule :=
  {| pmod_path := path; pmod_items := [demo_scan fn]; pmod_has_dynamic_collection := false |}.

Lemma metadata_filter_keeps_selected_witness :
  "t/b.py" ∈ filter_metadata toy_glob_build toy_glob_match (λ _, false) toy_regex_new toy_is_match
    (demo_cfg ["t/b.py::test_mul[3]"] None) ∅ [demo_module "t/b.py" "test_mul"; demo_module "t/c.py" "x"] [].
Proof.
  apply (metadata_filter_keeps_selected toy_glob_build toy_glob_match toy_glob_literal
    (λ _, false) toy_regex_new toy_is_match (demo_cfg ["t/b.py::test_mul[3]"] None) ∅ _ []
    (demo_module "t/b.py" "test_mul") (demo_scan "test_mul")
    [demo_test "t/b.py" "test_mul" (Some "3"); demo_test "t/b.py" "test_mul" (Some "4")]
    (demo_test "t/b.py" "test_mul" (Some "3")) [demo_test "t/b.py" "test_mul" (Some "3")]).
  - reflexivity.
  - repeat constructor.
  - left.
  - left.
  - reflexivity.
  - exists (Some "3"). reflexivity.
  - vm_compute. reflexivity.
  - left.
Defined.

(** ** Unmatched targets *)

(** A literal target is reported as unmatched exactly when no test kept
    by the node-id filter descends from it; so when nothing is reported, every
    literal target of the command line selects at least one test that runs. *)
Theorem unmatched_targets_iff_nothing_selected {glob} (gb : string → option glob) gm l ids sources t :
  t ∈ ids → contains_glob_chars t = false →
  (t ∈ unmatched_literal_targets l ids ↔
   ∀ i, i ∈ filter_by_node_ids gb gm l ids sources →
        matches_node_id_prefix (node_id i) t false = false).
Proof.
  intros Ht Hg. unfold unmatched_literal_targets. rewrite !filter_elem, !negb_true_iff, existsb_false.
  assert (ids ≠ []) by (by destruct ids; [set_solver|]). split.
  - intros [_ H'] i [Hi _]%filter_by_node_ids_elem; auto.
  - intros H'. split; [done|]. intros i Hi. apply not_true_iff_false. intros Hm.
    rewrite (H' i) in Hm; [done|]. apply filter_by_node_ids_elem; [done|]. eauto 10.
Qed.

Lemma unmatched_targets_iff_nothing_selected_witness :
  "a.py::nope" ∈ unmatched_literal_targets [demo_test "a.py" "test_x" None] ["a.py::nope"].
Proof.
  apply (unmatched_targets_iff_nothing_selected toy_glob_build toy_glob_match _ _ []).
  - left.
  - reflexivity.
  - intros i Hi. vm_compute in Hi. by apply elem_of_nil in Hi.
Defined.

(** Selecting tests by node id from two files, one of them through a
    parametrized (bracketed) id, runs tests of the second file that no target
    names: a bracketed id counts as a glob and its file is missing from
    [source_files], so all items of that file pass through. *)
Theorem bracketed_target_beside_literal_selects_whole_file :
  let ids := ["a.py::test_x"; "b.py::test_y[1]"] in
  let l := [demo_test "a.py" "test_x" None; demo_test "b.py" "test_y" (Some "1");
            demo_test "b.py" "test_z" None] in
  source_files ids = ["a.py"] ∧
  filter_by_node_ids toy_glob_build toy_glob_match l ids (source_files ids) = l ∧
  filter_by_node_ids toy_glob_build toy_glob_match l ["b.py::test_y[1]"]
    (source_files ["b.py::test_y[1]"]) = [demo_test "b.py" "test_y" (Some "1")].
Proof. vm_compute. auto. Qed.

(** An expression that matches a test only through its parameter id keeps
    the test at item level, but the metadata filter, which evaluates the
    expression on the unparametrized id, never imports its module. *)
Theorem expression_on_param_id_drops_module :
  let cfg := demo_cfg [] (Some "name(case1)") in
  let l := [demo_test "a.py" "test_x" (Some "case1")] in
  select_items toy_glob_build toy_glob_match (λ _, false) toy_regex_new toy_is_match cfg ∅ l = Ok l ∧
  filter_metadata toy_glob_build toy_glob_match (λ _, false) toy_regex_new toy_is_match
    cfg ∅ [demo_module "a.py" "test_x"] [] = [].
Proof. vm_compute. auto. Qed.

(** ** Markers and order *)

(** Marker validation reports one error per unknown marker of each test
    and nothing else; it accepts a suite exactly when every marker is builtin
    or registered. *)
Theorem validate_markers_complete l registered :
  (validate_markers l registered = [] ↔
   ∀ i name, i ∈ l → name ∈ MarkerSet.iter (markers i) →
             name ∈ BUILTIN_MARKERS ∨ name ∈ registered) ∧
  (∀ e, e ∈ validate_markers l registered ↔
   ∃ i name, i ∈ l ∧ name ∈ MarkerSet.iter (markers i) ∧ (name ∉ BUILTIN_MARKERS) ∧
             (name ∉ registered) ∧ e = unknown_marker name (node_id i)).
Proof.
  assert (Hin : ∀ e, e ∈ validate_markers l registered ↔
   ∃ i name, i ∈ l ∧ name ∈ MarkerSet.iter (markers i) ∧ (name ∉ BUILTIN_MARKERS) ∧
             (name ∉ registered) ∧ e = unknown_marker name (node_id i)).
  { intros e. unfold validate_markers. rewrite flat_map_elem. setoid_rewrite flat_map_elem. split.
    - intros (i & Hi & name & Hn & He). exists i, name.
      repeat case_bool_decide; simpl in He; set_solver.
    - intros (i & name & Hi & Hn & Hb & Hr & ->). exists i. split; [done|]. exists name.
      split; [done|]. rewrite !bool_decide_eq_false_2 by done. set_solver. }
  split; [|done]. split.
  - intros E i name Hi Hn. destruct (decide (name ∈ BUILTIN_MARKERS)); [by left|].
    destruct (decide (name ∈ registered)); [by right|]. exfalso.
    assert (unknown_marker name (node_id i) ∈ validate_markers l registered) as H'
      by (apply Hin; eauto 10).
    rewrite E in H'. by apply elem_of_nil in H'.
  - intros H. destruct (validate_markers l registered) as [|e r]; [done|].
    destruct (proj1 (Hin e) ltac:(left)) as (i & name & Hi & Hn & ? & ? & _).
    by destruct (H i name Hi Hn).
Qed.

(** Failed-first loses no test and puts exactly the last-failed ones in
    front, both halves in their collected order; last-failed is the front
    half. *)
Theorem failed_first_is_stable l failed :
  sort_failed_first l failed
  = filter_last_failed l failed ++ List.filter (λ i, negb (is_failed failed i)) l ∧
  filter_last_failed l failed = List.filter (is_failed failed) l ∧
  sort_failed_first l failed ≡ₚ l.
Proof.
  unfold sort_failed_first, filter_last_failed, partition_by_failed.
  rewrite partition_as_filters. split_and!; [done..|]. apply filter_split_perm.
Qed.

(** ** Grouping *)

Lemma group_by_module_items l : flat_map items (group_by_module l) ≡ₚ l.
Proof.
  rewrite <-(group_by_perm path_eqb item_module_path l) at 2. unfold group_by_module.
  induction (group_by path_eqb item_module_path l) as [|[p its] m IH]; simpl; [done|]. by rewrite IH.
Qed.

(** Grouping by module loses and duplicates no test, makes one group per
    path, keeps each module's tests in collected order and builds no empty
    group. *)
Theorem group_by_module_partitions l :
  flat_map items (group_by_module l) ≡ₚ l ∧
  (∀ g, g ∈ group_by_module l →
     items g = List.filter (λ i, path_eqb (module_path g) (item_module_path i)) l ∧ items g ≠ []) ∧
  NoDup (map module_path (group_by_module l)) ∧
  (∀ g1 g2, g1 ∈ group_by_module l → g2 ∈ group_by_module l →
     path_eqb (module_path g1) (module_path g2) = true → g1 = g2).
Proof.
  pose proof (group_by_grouped path_eqb path_eqb_refl path_eqb_sym path_eqb_trans
    item_module_path l) as [Hmem Hne [Hnd Hd] Hc].
  unfold group_by_module. set (m := group_by path_eqb item_module_path l) in *.
  assert (Hfst : map module_path (map (λ '(p, its), mk_group p its) m) = map fst m).
  { rewrite map_map. apply map_ext. by intros [p its]. }
  assert (Hel : ∀ g, g ∈ map (λ '(p, its), mk_group p its) m → (module_path g, items g) ∈ m).
  { intros g ([p its] & Hin & <-)%map_elem. done. }
  split_and!.
  - apply group_by_module_items.
  - intros g Hg%Hel. split; [by apply Hmem|by eapply Hne].
  - by rewrite Hfst.
  - intros g1 g2 H1%Hel H2%Hel E. destruct g1 as [p1 i1], g2 as [p2 i2]; simpl in *.
    assert (p1 = p2) as ->.
    { apply Hd; [apply map_elem; by exists (p1, i1)|apply map_elem; by exists (p2, i2)|done]. }
    by rewrite (Hmem _ _ H1), (Hmem _ _ H2).
Qed.

Lemma outermost_Some p dirs a :
  outermost_declaring_ancestor p dirs = Some a →
  a ∈ dirs ∧ path_starts_with a p = true ∧
  ∀ d, d ∈ dirs → path_starts_with d p = true → depth a ≤ depth d.
Proof.
  intros [Hin Hmin]%min_by_key_Some. apply filter_elem in Hin as [? ?].
  split_and!; [done..|]. intros d Hd Hs. apply Hmin, filter_elem. done.
Qed.

Lemma outermost_None p dirs :
  outermost_declaring_ancestor p dirs = None ↔ ∀ d, d ∈ dirs → path_starts_with d p = false.
Proof.
  unfold outermost_declaring_ancestor. split.
  - intros H d Hd. apply not_true_iff_false. intros Hs.
    destruct (min_by_key_is_Some depth (List.filter (λ dir, path_starts_with dir p) dirs) d)
      as [? ?]; [by apply filter_elem|congruence].
  - intros H. rewrite filter_none; [done|]. auto.
Qed.

(** Two modules under one declaring directory have the same outermost anchor. *)
Lemma outermost_same p1 p2 dirs d a1 a2 :
  d ∈ dirs → path_starts_with d p1 = true → path_starts_with d p2 = true →
  outermost_declaring_ancestor p1 dirs = Some a1 →
  outermost_declaring_ancestor p2 dirs = Some a2 → path_eqb a1 a2 = true.
Proof.
  intros Hd Hd1 Hd2 (H1 & S1 & M1)%outermost_Some (H2 & S2 & M2)%outermost_Some.
  assert (Habove : ∀ a p, path_starts_with a p = true → path_starts_with d p = true →
    depth a ≤ depth d → path_starts_with a d = true).
  { intros a p Sa Sd Hle. destruct (path_starts_with_total a d p Sa Sd) as [|S]; [done|].
    pose proof (path_starts_with_depth _ _ S).
    rewrite path_starts_with_true.
    pose proof (path_ancestor_depth a d p Sa Sd ltac:(lia)) as E%path_eqb_true. by rewrite E. }
  assert (path_starts_with a1 p2 = true) as S12
    by (eapply path_starts_with_trans; [apply (Habove a1 p1)|]; auto).
  assert (path_starts_with a2 p1 = true) as S21
    by (eapply path_starts_with_trans; [apply (Habove a2 p2)|]; auto).
  apply (path_ancestor_depth a1 a2 p2); [done..|].
  pose proof (M1 a2 H2 S21). pose proof (M2 a1 H1 S12). lia.
Qed.

Definition has_anchor (dirs : list string) (g : ModuleGroup) : bool :=
  match outermost_declaring_ancestor (module_path g) dirs with Some _ => true | None => false end.

Definition anchor_key (dirs : list string) (g : ModuleGroup) : string :=
  default "" (outermost_declaring_ancestor (module_path g) dirs).

Lemma package_fold dirs gs m out :
  fold_left (package_step dirs) gs (m, out) =
  (fold_left (λ m v, index_push path_eqb (anchor_key dirs v) v m) (List.filter (has_anchor dirs) gs) m,
   out ++ map TaskGroup.single (List.filter (λ g, negb (has_anchor dirs g)) gs)).
Proof.
  revert m out. induction gs as [|g gs IH]; intros m out; simpl; [by rewrite app_nil_r|].
  assert (package_step dirs (m, out) g =
    if has_anchor dirs g then (index_push path_eqb (anchor_key dirs g) g m, out)
    else (m, out ++ [TaskGroup.single g])) as ->.
  { unfold package_step, has_anchor, anchor_key. by case_match. }
  destruct (has_anchor dirs g); rewrite IH; simpl; [done|]. by rewrite <-(assoc_L (++)).
Qed.

Lemma group_by_package_split gs dirs :
  dirs ≠ [] →
  group_by_package gs dirs =
  map TaskGroup.single (List.filter (λ g, negb (has_anchor dirs g)) gs) ++
  map (λ '(anchor, ms), TaskGroup.package anchor ms)
    (group_by path_eqb (anchor_key dirs) (List.filter (has_anchor dirs) gs)).
Proof. intros Hd. unfold group_by_package. destruct dirs; [done|]. by rewrite package_fold. Qed.

Lemma group_by_package_elem gs dirs t :
  dirs ≠ [] → t ∈ group_by_package gs dirs →
  (∃ g, t = TaskGroup.single g ∧ g ∈ gs ∧ has_anchor dirs g = false) ∨
  (∃ k, t = TaskGroup.package k (TaskGroup.modules t) ∧
     (k, TaskGroup.modules t) ∈ group_by path_eqb (anchor_key dirs) (List.filter (has_anchor dirs) gs)).
Proof.
  intros Hd. rewrite group_by_package_split, elem_of_app by done. intros [Ht|Ht].
  - left. apply map_elem in Ht as (g & [Hg Hn]%filter_elem & <-). exists g.
    by apply negb_true_iff in Hn.
  - right. apply map_elem in Ht as ([k ms] & Hin & <-). by exists k.
Qed.

Lemma group_by_package_perm gs dirs : flat_map TaskGroup.modules (group_by_package gs dirs) ≡ₚ gs.
Proof.
  destruct (decide (dirs = [])) as [->|Hd].
  { simpl. induction gs as [|g gs IH]; simpl; [done|]. by rewrite IH. }
  rewrite group_by_package_split by done. rewrite flat_map_app.
  rewrite <-(filter_split_perm (has_anchor dirs) gs) at 3.
  rewrite Permutation_app_comm. apply Permutation_app.
  - rewrite <-(group_by_perm path_eqb (anchor_key dirs) (List.filter (has_anchor dirs) gs)) at 2.
    induction (group_by _ _ _) as [|[k ms] m IH]; simpl; [done|]. by rewrite IH.
  - induction (List.filter _ gs) as [|g l IH]; simpl; [done|]. by rewrite IH.
Qed.

(** The merged groups: keyed apart, and each module's outermost anchor is its
    group's key. *)
Lemma merged_grouped gs dirs :
  let m := group_by path_eqb (anchor_key dirs) (List.filter (has_anchor dirs) gs) in
  (∀ k ms, (k, ms) ∈ m → ms ≠ []) ∧
  (∀ k1 ms1 k2 ms2, (k1, ms1) ∈ m → (k2, ms2) ∈ m → path_eqb k1 k2 = true → k1 = k2 ∧ ms1 = ms2) ∧
  (∀ k ms g, (k, ms) ∈ m → g ∈ ms →
     ∃ a, outermost_declaring_ancestor (module_path g) dirs = Some a ∧ path_eqb k a = true).
Proof.
  intros m.
  pose proof (group_by_grouped path_eqb path_eqb_refl path_eqb_sym path_eqb_trans
    (anchor_key dirs) (List.filter (has_anchor dirs) gs)) as [Hmem Hne [Hnd Hdis] _].
  fold m in Hmem, Hne, Hnd, Hdis. split_and!; [by eapply Hne|..].
  - intros k1 ms1 k2 ms2 I1 I2 E. assert (k1 = k2) as ->.
    { apply Hdis; [by apply (list_elem_of_fmap_2 fst) in I1|by apply (list_elem_of_fmap_2 fst) in I2|done]. }
    split; [done|]. by rewrite (Hmem _ _ I1), (Hmem _ _ I2).
  - intros k ms g Hin Hg. rewrite (Hmem k ms Hin), !filter_elem in Hg.
    destruct Hg as [[_ Ha] Hk]. unfold has_anchor, anchor_key in *.
    destruct (outermost_declaring_ancestor _ _) as [a|]; [eauto|done].
Qed.

(** The group of a module below a declaring directory is a merged one. *)
Lemma package_of_member gs dirs d t g :
  d ∈ dirs → t ∈ group_by_package gs dirs → g ∈ TaskGroup.modules t →
  path_starts_with d (module_path g) = true →
  ∃ k a, t = TaskGroup.package k (TaskGroup.modules t) ∧
    (k, TaskGroup.modules t) ∈ group_by path_eqb (anchor_key dirs) (List.filter (has_anchor dirs) gs) ∧
    outermost_declaring_ancestor (module_path g) dirs = Some a ∧ path_eqb k a = true.
Proof.
  intros Hd Ht Hg Hs. destruct (merged_grouped gs dirs) as (_ & _ & Hkey).
  apply group_by_package_elem in Ht as [(g' & -> & _ & Hn)|(k & E & Hin)]; [|..|by intros ->; apply elem_of_nil in Hd].
  - apply list_elem_of_singleton in Hg as ->. unfold has_anchor in Hn.
    destruct (outermost_declaring_ancestor _ _) eqn:En; [done|].
    rewrite outermost_None in En. by rewrite En in Hs.
  - destruct (Hkey _ _ _ Hin Hg) as (a & Ha & Hk). eauto 10.
Qed.

(** Merging packages into task groups keeps every module in exactly one
    group; all modules below one declaring directory share one group, whatever
    nested directories declare, and so are never run by two workers; a group
    with an anchor holds only modules below that directory, and modules below
    no declaring directory stay groups of one. *)
Theorem group_by_package_colocates gs dirs :
  flat_map TaskGroup.modules (group_by_package gs dirs) ≡ₚ gs ∧
  (∀ d g1 g2 t1 t2, d ∈ dirs →
     path_starts_with d (module_path g1) = true → path_starts_with d (module_path g2) = true →
     t1 ∈ group_by_package gs dirs → t2 ∈ group_by_package gs dirs →
     g1 ∈ TaskGroup.modules t1 → g2 ∈ TaskGroup.modules t2 → t1 = t2) ∧
  (∀ t, t ∈ group_by_package gs dirs →
     match TaskGroup.anchor t with
     | Some a => TaskGroup.modules t ≠ [] ∧ (∃ d, d ∈ dirs ∧ path_eqb a d = true) ∧
         ∀ g, g ∈ TaskGroup.modules t → path_starts_with a (module_path g) = true
     | None => ∃ g, t = TaskGroup.single g ∧
         ∀ d, d ∈ dirs → path_starts_with d (module_path g) = false
     end).
Proof.
  destruct (merged_grouped gs dirs) as (Hne & Hdis & Hkey). split_and!.
  - apply group_by_package_perm.
  - intros d g1 g2 t1 t2 Hdd S1 S2 T1 T2 G1 G2.
    destruct (package_of_member gs dirs d t1 g1) as (k1 & a1 & E1 & I1 & A1 & K1); [done..|].
    destruct (package_of_member gs dirs d t2 g2) as (k2 & a2 & E2 & I2 & A2 & K2); [done..|].
    destruct (Hdis _ _ _ _ I1 I2) as [-> Em]; [|by rewrite E1, E2, Em].
    apply (path_eqb_trans _ a1); [done|]. apply (path_eqb_trans _ a2); [|by rewrite path_eqb_sym].
    by eapply (outermost_same (module_path g1) (module_path g2) dirs d).
  - intros t Ht. destruct (decide (dirs = [])) as [->|Hd].
    { apply map_elem in Ht as (g & _ & <-). exists g. split; [done|set_solver]. }
    apply group_by_package_elem in Ht as [(g & -> & _ & Hn)|(k & E & Hin)]; [|..|done].
    + simpl. exists g. split; [done|]. apply outermost_None. unfold has_anchor in Hn.
      by destruct (outermost_declaring_ancestor _ _).
    + rewrite E. simpl. split_and!.
      * by eapply Hne.
      * destruct (TaskGroup.modules t) as [|g ms] eqn:Em; [by apply Hne in Hin|].
        destruct (Hkey k (g :: ms) g Hin ltac:(left)) as (a & Ha & Hk).
        exists a. apply outermost_Some in Ha as [? _]. eauto.
      * intros g Hg. destruct (Hkey _ _ _ Hin Hg) as (a & (_ & Ha & _)%outermost_Some & Hk).
        apply path_eqb_true in Hk. rewrite path_starts_with_true in *. by rewrite Hk.
Qed.

(** ** Displaying targets *)

Lemma trim_start_seps_split s :
  ∃ a, s = a +:+ trim_start_seps s ∧ starts_with_sep (trim_start_seps s) = false ∧
       (starts_with_sep s = true → a ≠ "").
Proof.
  induction s as [|c s (a & E & Hs & Ha)]; [by exists ""|]. simpl. destruct (is_sep c) eqn:Ec.
  - exists (String c a). rewrite str_app_cons. split_and!; [by rewrite <-E|done|done].
  - exists "". rewrite str_app_nil_l. simpl. rewrite Ec. done.
Qed.

(** A target is displayed relative to the root directory only by removing
    the directory and the separators after it: what is left names a file below
    the directory (a sibling that merely shares the prefix is refused) and is
    not empty and not absolute. *)
Theorem relativise_removes_whole_components path base rel :
  relativise path base = Some rel →
  ∃ seps, strip_verbatim_prefix path = trim_end_seps (strip_verbatim_prefix base) +:+ seps +:+ rel ∧
    starts_with_sep (seps +:+ rel) = true ∧ starts_with_sep rel = false ∧ rel ≠ "".
Proof.
  unfold relativise. destruct (String.eqb_spec (trim_end_seps (strip_verbatim_prefix base)) ""); [done|].
  destruct (strip_prefix _ _) as [tail|] eqn:E; [|done]. apply strip_prefix_Some in E. rewrite E.
  destruct (String.eqb_spec tail "") as [->|Hne]; simpl; [done|].
  destruct (starts_with_sep tail) eqn:Hs; simpl; [|done].
  destruct (String.eqb_spec (trim_start_seps tail) "") as [|Hr]; [done|]. intros [= <-].
  destruct (trim_start_seps_split tail) as (a & Ea & Hsep & _). exists a.
  rewrite <-Ea. done.
Qed.

Lemma relativise_removes_whole_components_witness :
  relativise "/work/project2/test.py" "/work/project" = None ∧
  relativise "/work/project/sub/test.py" "/work/project/" = Some "sub/test.py" ∧
  starts_with_sep "sub/test.py" = false.
Proof.
  split; [reflexivity|]. split; [reflexivity|].
  destruct (relativise_removes_whole_components "/work/project/sub/test.py" "/work/project/"
    "sub/test.py" eq_refl) as (_ & _ & _ & H & _).
  exact H.
Defined.
