(* ===== verification/Arrange.v ===== *)
(** * Arrange: the execution plan ([src/pipeline/arrange.rs])

    How the module groups of a run are split between the coordinator
    ([inprocess]), the serial arranged phases (one per fixture component) and
    the parallel remainder, and how many workers are used
    ([compute_optimal_workers] and the mode types of [src/config/mod.rs]).

    [usize] counts that take part in arithmetic are [Z].  A [HashMap] that is
    only iterated ([arranged_display]) is a list, its unspecified order.
    [arranged[i].push(x)] is [bucket_push]; the indices are proved in range
    ([component_lt]), so the no-op of [alter] outside it never stands for a
    panic. *)
From S2P Require Import Prelude Collections F64 Paths Types Scheduler Filter.

(** ** Modes and worker counts ([src/config/mod.rs]) *)

Inductive DebugMode := PostMortem | Always.

Inductive WorkerCount := Auto | Fixed (n : Z).

Inductive ExecutionMode :=
  | SerialMode
  | DebugM (m : DebugMode)
  | ParallelMode (workers : WorkerCount).

Definition is_serial (m : ExecutionMode) : bool :=
  match m with SerialMode | DebugM _ => true | ParallelMode _ => false end.

Definition try_from_count (n : Z) : result WorkerCount string :=
  if (n =? 0)%Z then Err "worker count must be at least 1" else Ok (Fixed n).

(** [Config::worker_count] *)
Definition config_worker_count (m : ExecutionMode) (cpu_count : Z) : Z :=
  match m with
  | SerialMode | DebugM _ => 1
  | ParallelMode (Fixed n) => n
  | ParallelMode Auto => cpu_count
  end.

Definition compute_optimal_workers (mode : ExecutionMode) (cpu_count : Z)
    (estimated : option Z) (spawn_overhead_ms : f64) : Z :=
  match mode with
  | SerialMode | DebugM _ => 1
  | ParallelMode (Fixed n) => n
  | ParallelMode Auto =>
      match estimated with
      | Some est =>
          let needed := ceil_as_u64 (f64_div (f64_of_Z est) spawn_overhead_ms) in
          Z.max (Z.min cpu_count needed) 1
      | None => cpu_count
      end
  end.

(** ** The inprocess partition *)

Definition any_inprocess (l : list TestItem) : bool :=
  existsb (λ i, MarkerSet.has_inprocess (markers i)) l.

Definition hot_package_anchors (groups : list ModuleGroup) (declaring_dirs : list string)
    : list string :=
  List.filter (λ dir, existsb (λ g, path_starts_with dir (module_path g) && any_inprocess (items g))
                 groups) declaring_dirs.

Record InprocessPartition := mk_inprocess {
  ip_inprocess : list ModuleGroup;
  ip_parallel : list ModuleGroup
}.

Definition group_if_any (path : string) (l : list TestItem) : list ModuleGroup :=
  match l with [] => [] | _ => [mk_group path l] end.

Definition declares_module (declaring_modules : list string) (path : string) : bool :=
  existsb (λ m, String.eqb m path) declaring_modules.

(** What one group contributes to the two lists. *)
Definition inprocess_split (hot declaring_modules : list string) (g : ModuleGroup)
    : list ModuleGroup * list ModuleGroup :=
  if existsb (λ dir, path_starts_with dir (module_path g)) hot then ([g], [])
  else if declares_module declaring_modules (module_path g) && any_inprocess (items g)
  then ([g], [])
  else
    let '(inp, par) := List.partition (λ i, MarkerSet.has_inprocess (markers i)) (items g) in
    (group_if_any (module_path g) inp, group_if_any (module_path g) par).

Definition partition_inprocess_groups (groups : list ModuleGroup)
    (declaring_modules declaring_dirs : list string) : InprocessPartition :=
  let hot := hot_package_anchors groups declaring_dirs in
  fold_left (λ acc g, let '(a, b) := inprocess_split hot declaring_modules g in
    mk_inprocess (ip_inprocess acc ++ a) (ip_parallel acc ++ b)) groups (mk_inprocess [] []).

(** ** The fixture partition *)

Record FixturePartition := mk_fixture {
  fp_arranged : list (list ModuleGroup);
  fp_remaining : list ModuleGroup
}.

(** The map from a fixture name to its component: later entries overwrite, then
    the spellings are aliased onto the components of their resolved names. *)
Definition insert_component (m : gmap string nat) (e : string * nat) : gmap string nat :=
  <[e.1 := e.2]> m.

Definition component_entries (fixture_groups : list (list string)) : list (string * nat) :=
  concat (imap (λ gi fg, map (λ f, (f, gi)) fg) fixture_groups).

Definition alias (m : gmap string nat) (e : string * string) : gmap string nat :=
  match m !! e.1 with
  | Some gi => <[e.2 := gi]> m
  | None => m
  end.

Definition fixture_to_group (fixture_groups : list (list string))
    (arranged_display : list (string * string)) : gmap string nat :=
  fold_left alias arranged_display
    (fold_left insert_component (component_entries fixture_groups) ∅).

(** The component of an item: that of its first dependency that has one. *)
Definition item_component (m : gmap string nat) (i : TestItem) : option nat :=
  find_map (λ d, m !! d.1) (fixture_deps i).

Definition subtree_component (m : gmap string nat) (groups : list ModuleGroup) (dir : string)
    : option nat :=
  find_map (item_component m)
    (flat_map items (List.filter (λ g, path_starts_with dir (module_path g)) groups)).

(** Buckets of one undeclared module: [group_buckets] and [unassigned]. *)
Definition bucket_step (m : gmap string nat) (acc : list (list TestItem) * list TestItem)
    (i : TestItem) : list (list TestItem) * list TestItem :=
  match item_component m i with
  | Some gi => (bucket_push gi i acc.1, acc.2)
  | None => (acc.1, acc.2 ++ [i])
  end.

Definition bucket_items (m : gmap string nat) (n : nat) (l : list TestItem)
    : list (list TestItem) * list TestItem :=
  fold_left (bucket_step m) l (replicate n [], []).

Definition push_buckets (path : string) (arranged : list (list ModuleGroup))
    (buckets : list (list TestItem)) : list (list ModuleGroup) :=
  zip_with (λ a b, a ++ group_if_any path b) arranged buckets.

Definition push_whole (acc : FixturePartition) (g : ModuleGroup) (c : option nat)
    : FixturePartition :=
  match c with
  | Some gi => mk_fixture (bucket_push gi g (fp_arranged acc)) (fp_remaining acc)
  | None => mk_fixture (fp_arranged acc) (fp_remaining acc ++ [g])
  end.

(** One iteration of the loop over the groups; [all] are the groups the subtree
    components were computed from. *)
Definition fixture_step (m : gmap string nat) (n : nat) (all : list ModuleGroup)
    (declaring_modules declaring_dirs : list string) (acc : FixturePartition) (g : ModuleGroup)
    : FixturePartition :=
  match outermost_declaring_ancestor (module_path g) declaring_dirs with
  | Some anchor => push_whole acc g (subtree_component m all anchor)
  | None =>
      if declares_module declaring_modules (module_path g)
      then push_whole acc g (find_map (item_component m) (items g))
      else
        let '(buckets, unassigned) := bucket_items m n (items g) in
        mk_fixture (push_buckets (module_path g) (fp_arranged acc) buckets)
          (fp_remaining acc ++ group_if_any (module_path g) unassigned)
  end.

Definition partition_by_fixture_groups (groups : list ModuleGroup)
    (fixture_groups : list (list string)) (declaring_modules declaring_dirs : list string)
    (arranged_display : list (string * string)) : FixturePartition :=
  match fixture_groups with
  | [] => mk_fixture [] groups
  | _ =>
      let m := fixture_to_group fixture_groups arranged_display in
      let n := length fixture_groups in
      fold_left (fixture_step m n groups declaring_modules declaring_dirs) groups
        (mk_fixture (replicate n []) [])
  end.

(** ** The plan *)

Inductive ExecutionStrategy := Serial | Parallel (worker_count : Z).

Record ExecutionPlan := mk_plan {
  strategy : ExecutionStrategy;
  inprocess_groups : list ModuleGroup;
  arranged_groups : list (list ModuleGroup);
  parallel_groups : list ModuleGroup
}.

Definition use_parallel (mode : ExecutionMode) (worker_count_cfg : Z) (spawn_overhead_ms : f64)
    (min_parallel_tests total_tests : nat) (estimated : option Z) : bool :=
  negb (is_serial mode) && (1 <? worker_count_cfg)%Z &&
  (match mode with ParallelMode (Fixed _) => true | _ => false end
   || match estimated with
      | Some est => f64_gt (f64_of_Z est) (f64_mul spawn_overhead_ms (f64_of_Z worker_count_cfg))
      | None => min_parallel_tests <=? total_tests
      end).

Definition plan_execution (groups : list ModuleGroup) (mode : ExecutionMode)
    (worker_count_cfg : Z) (spawn_overhead_ms : f64) (min_parallel_tests : nat)
    (arranged_fixture_groups : list (list string)) (declaring_modules declaring_dirs : list string)
    (arranged_display : list (string * string)) (estimated : option Z) (cpu_count : Z)
    : ExecutionPlan :=
  let total_tests := sum_list_with (λ g, length (items g)) groups in
  if negb (use_parallel mode worker_count_cfg spawn_overhead_ms min_parallel_tests total_tests
             estimated)
  then mk_plan Serial [] [] groups
  else
    let p := partition_inprocess_groups groups declaring_modules declaring_dirs in
    let optimal := compute_optimal_workers mode cpu_count estimated spawn_overhead_ms in
    match arranged_fixture_groups with
    | [] => mk_plan (Parallel optimal) (ip_inprocess p) [] (ip_parallel p)
    | _ =>
        let f := partition_by_fixture_groups (ip_parallel p) arranged_fixture_groups
                   declaring_modules declaring_dirs arranged_display in
        mk_plan (Parallel optimal) (ip_inprocess p) (fp_arranged f) (fp_remaining f)
    end.

(** * Theorems *)

(** ** Worker counts *)

(** The worker count of a parallel run is the one asked for when it is
    fixed, and otherwise between one and the number of CPUs, whatever the
    estimate and the overhead (zero, negative and NaN overheads included); a
    parallel plan is made only with more than one configured worker, never in
    serial or debug mode, and always when a fixed count above one is asked
    for. *)
Theorem worker_count_bounds mode cpu est overhead :
  (1 ≤ cpu)%Z →
  (∀ n, mode = ParallelMode (Fixed n) → compute_optimal_workers mode cpu est overhead = n) ∧
  (mode = ParallelMode Auto → (1 ≤ compute_optimal_workers mode cpu est overhead ≤ cpu)%Z) ∧
  (∀ cfg min total, use_parallel mode cfg overhead min total est = true →
     is_serial mode = false ∧ (1 < cfg)%Z) ∧
  (∀ n min total, mode = ParallelMode (Fixed n) → (1 < n)%Z →
     use_parallel mode (config_worker_count mode cpu) overhead min total est = true).
Proof.
  intros Hcpu. split_and!.
  - by intros n ->.
  - intros ->. simpl. destruct est; simpl; lia.
  - intros cfg min total H. unfold use_parallel in H. breflect. split; [done|lia].
  - intros n min total -> Hn. unfold use_parallel. simpl.
    rewrite (proj2 (Z.ltb_lt 1 n)) by lia. done.
Qed.

Lemma worker_count_bounds_witness :
  compute_optimal_workers (ParallelMode Auto) 8 (Some 1000%Z) (f64_of_Z 300) = 4%Z ∧
  (1 ≤ compute_optimal_workers (ParallelMode Auto) 8 (Some 0%Z) (f64_of_Z 0) ≤ 8)%Z.
Proof.
  split; [vm_compute; reflexivity|].
  destruct (worker_count_bounds (ParallelMode Auto) 8 (Some 0%Z) (f64_of_Z 0)) as (_ & H & _); [lia|].
  apply H. reflexivity.
Defined.

(** ** The inprocess partition *)

Lemma partition_inprocess_flat gs dm dirs :
  let hot := hot_package_anchors gs dirs in
  partition_inprocess_groups gs dm dirs =
  mk_inprocess (flat_map (λ g, (inprocess_split hot dm g).1) gs)
               (flat_map (λ g, (inprocess_split hot dm g).2) gs).
Proof.
  intros hot. unfold partition_inprocess_groups. fold hot.
  assert (Hgen : ∀ l a b, fold_left (λ acc g, let '(a, b) := inprocess_split hot dm g in
    mk_inprocess (ip_inprocess acc ++ a) (ip_parallel acc ++ b)) l (mk_inprocess a b) =
    mk_inprocess (a ++ flat_map (λ g, (inprocess_split hot dm g).1) l)
                 (b ++ flat_map (λ g, (inprocess_split hot dm g).2) l)).
  { induction l as [|g l IH]; intros a b; simpl; [by rewrite !app_nil_r|].
    destruct (inprocess_split hot dm g) as [x y]. simpl. by rewrite IH, <-!(assoc_L (++)). }
  apply (Hgen gs [] []).
Qed.

Lemma group_if_any_items p l : flat_map items (group_if_any p l) = l.
Proof. destruct l; [done|]. simpl. by rewrite app_nil_r. Qed.

Lemma group_if_any_elem p l g :
  g ∈ group_if_any p l ↔ g = mk_group p l ∧ l ≠ [].
Proof. destruct l; simpl; set_solver. Qed.

Lemma inprocess_split_items hot dm g :
  flat_map items (inprocess_split hot dm g).1 ++ flat_map items (inprocess_split hot dm g).2
  ≡ₚ items g.
Proof.
  unfold inprocess_split. destruct (existsb _ hot); [simpl; by rewrite !app_nil_r|].
  destruct (_ && _); [simpl; by rewrite !app_nil_r|].
  rewrite partition_as_filters. simpl. rewrite !group_if_any_items. apply filter_split_perm.
Qed.

Lemma flat_map_app_perm {A B} (f g : A → list B) l :
  flat_map f l ++ flat_map g l ≡ₚ flat_map (λ x, f x ++ g x) l.
Proof.
  induction l as [|x l IH]; simpl; [done|]. rewrite <-IH.
  rewrite <-!(assoc_L (++)). apply Permutation_app_head.
  rewrite !(assoc_L (++)). apply Permutation_app_tail, Permutation_app_comm.
Qed.

Lemma flat_map_ext_perm {A B} (f g : A → list B) l :
  (∀ x, x ∈ l → f x ≡ₚ g x) → flat_map f l ≡ₚ flat_map g l.
Proof.
  induction l as [|x l IH]; simpl; intros H; [done|].
  rewrite (H x) by set_solver. rewrite IH; [done|set_solver].
Qed.

Lemma partition_inprocess_items gs dm dirs :
  flat_map items (ip_inprocess (partition_inprocess_groups gs dm dirs)) ++
  flat_map items (ip_parallel (partition_inprocess_groups gs dm dirs)) ≡ₚ flat_map items gs.
Proof.
  rewrite partition_inprocess_flat. simpl.
  rewrite !flat_map_flat_map, flat_map_app_perm.
  apply flat_map_ext_perm. intros g _. apply inprocess_split_items.
Qed.

(** Where a group of either list comes from. *)
Lemma inprocess_split_elem hot dm g0 g :
  (g ∈ (inprocess_split hot dm g0).1 →
     module_path g = module_path g0 ∧
     (g = g0 ∨ ∀ i, i ∈ items g → MarkerSet.has_inprocess (markers i) = true)) ∧
  (g ∈ (inprocess_split hot dm g0).2 →
     module_path g = module_path g0 ∧ existsb (λ d, path_starts_with d (module_path g0)) hot = false ∧
     (∀ i, i ∈ items g → MarkerSet.has_inprocess (markers i) = false) ∧
     (declares_module dm (module_path g0) = true → g = g0)).
Proof.
  unfold inprocess_split. destruct (existsb _ hot) eqn:Eh; simpl; [split; set_solver|].
  destruct (declares_module dm (module_path g0) && any_inprocess (items g0)) eqn:Ed; simpl;
    [split; set_solver|].
  rewrite partition_as_filters. simpl. rewrite !group_if_any_elem. split.
  - intros [-> _]. simpl. split; [done|]. right. by intros i [_ ?]%filter_elem.
  - intros [-> _]. simpl. split_and!; [done..| |].
    + by intros i [_ ?%negb_true_iff]%filter_elem.
    + intros Hd. rewrite Hd in Ed. simpl in Ed. destruct g0 as [p l]. simpl in *. f_equal.
      apply filter_all. intros i Hi. unfold any_inprocess in Ed. rewrite existsb_false in Ed.
      by rewrite Ed.
Qed.

(** A subtree is hot for all its modules or for none. *)
Lemma hot_subtree gs dirs d p1 p2 :
  d ∈ dirs → path_starts_with d p1 = true → path_starts_with d p2 = true →
  existsb (λ h, path_starts_with h p1) (hot_package_anchors gs dirs) = true →
  existsb (λ h, path_starts_with h p2) (hot_package_anchors gs dirs) = true.
Proof.
  intros Hd S1 S2 (h & Hh & Sh)%existsb_elem. apply existsb_elem.
  destruct (path_starts_with_total h d p1 Sh S1) as [S|S].
  - exists h. split; [done|]. by eapply path_starts_with_trans.
  - exists d. split; [|done]. unfold hot_package_anchors in *.
    apply filter_elem in Hh as [_ (g & Hg & E)%existsb_elem]. apply filter_elem. split; [done|].
    apply existsb_elem. exists g. split; [done|]. apply andb_true_iff in E as [E1 ->].
    by rewrite (path_starts_with_trans _ _ _ S E1).
Qed.

(** ** The fixture partition *)

Definition components_lt (n : nat) (m : gmap string nat) : Prop :=
  ∀ k gi, m !! k = Some gi → gi < n.

Lemma component_entries_lt fgs k gi : (k, gi) ∈ component_entries fgs → gi < length fgs.
Proof.
  unfold component_entries. rewrite list_elem_of_In, in_concat.
  intros (l & Hl%list_elem_of_In & Hin%list_elem_of_In).
  apply elem_of_lookup_imap in Hl as (j & fg & -> & Hj).
  apply map_elem in Hin as (f & _ & [= <- <-]). by apply lookup_lt_Some in Hj.
Qed.

(** Every index the partition uses is that of a component. *)
Lemma component_lt fgs display : components_lt (length fgs) (fixture_to_group fgs display).
Proof.
  unfold fixture_to_group.
  assert (Hbase : components_lt (length fgs)
    (fold_left insert_component (component_entries fgs) ∅)).
  { assert (Hgen : ∀ l m, (∀ k gi, (k, gi) ∈ l → gi < length fgs) → components_lt (length fgs) m →
      components_lt (length fgs) (fold_left insert_component l m)).
    { induction l as [|[k gi] l IH]; intros m Hl Hm; simpl; [done|]. apply IH; [set_solver|].
      unfold insert_component. intros k' gi' [[_ <-]|[_ ?]]%lookup_insert_Some; simpl; [|by eapply Hm].
      apply (Hl k). left. }
    apply Hgen; [apply component_entries_lt|]. intros k gi. by rewrite lookup_empty. }
  revert Hbase. generalize (fold_left insert_component (component_entries fgs) ∅).
  induction display as [|[r s] l IH]; intros m Hm; simpl; [done|]. apply IH.
  unfold alias. simpl. destruct (m !! r) as [gi|] eqn:E; [|done].
  intros k gi' [[_ <-]|[_ ?]]%lookup_insert_Some; by eapply Hm.
Qed.

Lemma item_component_lt n m i gi :
  components_lt n m → item_component m i = Some gi → gi < n.
Proof. intros Hm (d & _ & Hd)%find_map_Some. by eapply Hm. Qed.

Lemma items_component_lt n m l gi :
  components_lt n m → find_map (item_component m) l = Some gi → gi < n.
Proof. intros Hm (i & _ & Hi)%find_map_Some. by eapply item_component_lt. Qed.

(** The items of a list that have component [c]. *)
Definition of_component (m : gmap string nat) (c : option nat) (l : list TestItem) : list TestItem :=
  List.filter (λ i, bool_decide (item_component m i = c)) l.

Lemma bucket_items_spec m n l :
  components_lt n m →
  bucket_items m n l = (map (λ k, of_component m (Some k) l) (seq 0 n), of_component m None l).
Proof.
  intros Hm. unfold bucket_items, of_component.
  induction l as [|i l IH] using rev_ind.
  { simpl. f_equal. apply list_eq. intros k. rewrite list_lookup_fmap.
    destruct (decide (k < n)).
    - rewrite lookup_replicate_2, lookup_seq_lt by done. done.
    - rewrite (proj1 (lookup_replicate_None n [] k)), lookup_seq_ge by lia. done. }
  rewrite fold_left_app, IH. cbn [fold_left]. unfold bucket_step. cbn [fst snd].
  assert (Hsnoc : ∀ c, List.filter (λ i, bool_decide (item_component m i = c)) (l ++ [i]) =
    List.filter (λ i, bool_decide (item_component m i = c)) l ++
      (if bool_decide (item_component m i = c) then [i] else [])).
  { intros c. rewrite List.filter_app. simpl. by destruct (bool_decide _). }
  setoid_rewrite Hsnoc. destruct (item_component m i) as [gi|] eqn:E.
  - f_equal; [|by rewrite app_nil_r]. apply list_eq. intros k. unfold bucket_push.
    assert (gi < n) by (by eapply item_component_lt).
    destruct (decide (gi = k)) as [<-|Hne].
    + rewrite list_lookup_alter_eq, !list_lookup_fmap, lookup_seq_lt by done. simpl.
      by rewrite bool_decide_eq_true_2.
    + rewrite list_lookup_alter_ne, !list_lookup_fmap by done.
      destruct (seq 0 n !! k) as [j|] eqn:Ej; simpl; [|done].
      apply lookup_seq in Ej as [-> _]. simpl.
      rewrite bool_decide_eq_false_2 by congruence. by rewrite app_nil_r.
  - f_equal. apply map_ext. intros k.
    rewrite bool_decide_eq_false_2 by done. by rewrite app_nil_r.
Qed.

Lemma push_buckets_lookup path arranged buckets k :
  length arranged = length buckets →
  push_buckets path arranged buckets !! k =
  match arranged !! k, buckets !! k with
  | Some a, Some b => Some (a ++ group_if_any path b)
  | _, _ => None
  end.
Proof.
  intros Hl. unfold push_buckets. rewrite lookup_zip_with.
  by destruct (arranged !! k), (buckets !! k).
Qed.

Lemma push_buckets_items path arranged buckets :
  length arranged = length buckets →
  flat_map items (concat (push_buckets path arranged buckets)) ≡ₚ
  flat_map items (concat arranged) ++ concat buckets.
Proof.
  unfold push_buckets. revert buckets.
  induction arranged as [|a arranged IH]; intros [|b buckets] Hl; simpl in *; try done.
  rewrite !flat_map_app, group_if_any_items, IH by lia.
  rewrite <-!(assoc_L (++)). apply Permutation_app_head. rewrite !(assoc_L (++)).
  apply Permutation_app_tail, Permutation_app_comm.
Qed.

Lemma bucket_items_perm m n l :
  components_lt n m →
  concat (bucket_items m n l).1 ++ (bucket_items m n l).2 ≡ₚ l ∧ length (bucket_items m n l).1 = n.
Proof.
  intros Hm. unfold bucket_items.
  assert (Hgen : ∀ bs un, length bs = n →
    concat (fold_left (bucket_step m) l (bs, un)).1 ++ (fold_left (bucket_step m) l (bs, un)).2
      ≡ₚ concat bs ++ un ++ l ∧ length (fold_left (bucket_step m) l (bs, un)).1 = n).
  { induction l as [|i l IH]; intros bs un Hl; simpl; [by rewrite app_nil_r|].
    unfold bucket_step at 2 4 6. simpl. destruct (item_component m i) as [gi|] eqn:E.
    - destruct (IH (bucket_push gi i bs) un) as [IH1 IH2]; [by rewrite length_bucket_push|].
      split; [|done]. rewrite IH1, bucket_push_perm by (rewrite Hl; by eapply item_component_lt).
      rewrite <-!(assoc_L (++)). apply Permutation_app_head. simpl.
      by rewrite <-Permutation_middle.
    - destruct (IH bs (un ++ [i]) Hl) as [IH1 IH2]. split; [|done].
      rewrite IH1. by rewrite <-!(assoc_L (++)). }
  destruct (Hgen (replicate n []) [] ltac:(by rewrite length_replicate)) as [H1 H2].
  by rewrite concat_replicate_nil in H1.
Qed.

(** Group [g] of phase [c] comes from group [g0] of the input. *)
Definition placed (m : gmap string nat) (all : list ModuleGroup) (dm dirs : list string)
    (c : option nat) (g0 g : ModuleGroup) : Prop :=
  module_path g = module_path g0 ∧
  match outermost_declaring_ancestor (module_path g0) dirs with
  | Some a => g = g0 ∧ c = subtree_component m all a
  | None =>
      if declares_module dm (module_path g0)
      then g = g0 ∧ c = find_map (item_component m) (items g0)
      else items g = of_component m c (items g0)
  end.

Record fixture_inv (m : gmap string nat) (n : nat) (all : list ModuleGroup) (dm dirs : list string)
    (done : list ModuleGroup) (p : FixturePartition) : Prop := {
  fi_length : length (fp_arranged p) = n;
  fi_items : flat_map items (concat (fp_arranged p)) ++ flat_map items (fp_remaining p)
             ≡ₚ flat_map items done;
  fi_arranged k P g : fp_arranged p !! k = Some P → g ∈ P →
    ∃ g0, g0 ∈ done ∧ placed m all dm dirs (Some k) g0 g;
  fi_remaining g : g ∈ fp_remaining p → ∃ g0, g0 ∈ done ∧ placed m all dm dirs None g0 g
}.

Lemma push_whole_inv m n all dm dirs done p g c :
  fixture_inv m n all dm dirs done p → (∀ gi, c = Some gi → gi < n) →
  placed m all dm dirs c g g →
  fixture_inv m n all dm dirs (done ++ [g]) (push_whole p g c).
Proof.
  intros [Hl Hi Ha Hr] Hc Hp. destruct c as [gi|]; simpl; split; simpl.
  - by rewrite length_bucket_push.
  - rewrite bucket_push_perm by (rewrite Hl; auto). rewrite !flat_map_app, <-Hi.
    rewrite <-!(assoc_L (++)). apply Permutation_app_head, Permutation_app_comm.
  - intros k P g' HP Hg'. unfold bucket_push in HP. destruct (decide (gi = k)) as [<-|Hne].
    + rewrite list_lookup_alter_eq in HP. destruct (fp_arranged p !! gi) as [P0|] eqn:E; simplify_eq/=.
      apply elem_of_app in Hg' as [Hg'| ->%list_elem_of_singleton].
      * destruct (Ha gi P0 g' E Hg') as (g0 & ? & ?). exists g0. set_solver.
      * exists g. set_solver.
    + rewrite list_lookup_alter_ne in HP by done.
      destruct (Ha k P g' HP Hg') as (g0 & ? & ?). exists g0. set_solver.
  - intros g' Hg'. destruct (Hr g' Hg') as (g0 & ? & ?). exists g0. set_solver.
  - done.
  - rewrite !flat_map_app, <-Hi. by rewrite <-!(assoc_L (++)).
  - intros k P g' HP Hg'. destruct (Ha k P g' HP Hg') as (g0 & ? & ?). exists g0. set_solver.
  - intros g' [Hg'| ->%list_elem_of_singleton]%elem_of_app.
    + destruct (Hr g' Hg') as (g0 & ? & ?). exists g0. set_solver.
    + exists g. set_solver.
Qed.

Lemma push_buckets_inv m n all dm dirs done p g :
  components_lt n m → fixture_inv m n all dm dirs done p →
  outermost_declaring_ancestor (module_path g) dirs = None →
  declares_module dm (module_path g) = false →
  fixture_inv m n all dm dirs (done ++ [g])
    (mk_fixture (push_buckets (module_path g) (fp_arranged p) (bucket_items m n (items g)).1)
       (fp_remaining p ++ group_if_any (module_path g) (bucket_items m n (items g)).2)).
Proof.
  intros Hm [Hl Hi Ha Hr] Ho Hd.
  destruct (bucket_items_perm m n (items g) Hm) as [Hperm Hlen].
  pose proof (bucket_items_spec m n (items g) Hm) as Hspec.
  destruct (bucket_items m n (items g)) as [bs un]. simpl in *.
  assert (Hplace : ∀ c, placed m all dm dirs c g (mk_group (module_path g) (of_component m c (items g)))).
  { intros c. unfold placed. simpl. by rewrite Ho, Hd. }
  injection Hspec as Hbs Hun. split; simpl.
  - unfold push_buckets. rewrite length_zip_with. lia.
  - rewrite push_buckets_items by (by rewrite Hl, Hlen).
    rewrite !flat_map_app, group_if_any_items. simpl. rewrite app_nil_r, <-Hi.
    trans ((flat_map items (concat (fp_arranged p)) ++ flat_map items (fp_remaining p)) ++
      (concat bs ++ un)); [|by rewrite Hperm].
    rewrite <-!(assoc_L (++)). apply Permutation_app_head.
    rewrite !(assoc_L (++)). apply Permutation_app_tail, Permutation_app_comm.
  - intros k P g' HP Hg'. rewrite push_buckets_lookup in HP by (by rewrite Hl, Hlen).
    destruct (fp_arranged p !! k) as [P0|] eqn:E; [|done].
    rewrite Hbs, list_lookup_fmap in HP. destruct (seq 0 n !! k) as [j|] eqn:Ej; simplify_eq/=.
    apply lookup_seq in Ej as [-> _].
    apply elem_of_app in Hg' as [Hg'|[-> _]%group_if_any_elem].
    + destruct (Ha k P0 g' E Hg') as (g0 & ? & ?). exists g0. set_solver.
    + exists g. split; [set_solver|apply Hplace].
  - intros g' [Hg'|[-> _]%group_if_any_elem]%elem_of_app.
    + destruct (Hr g' Hg') as (g0 & ? & ?). exists g0. set_solver.
    + exists g. rewrite Hun. split; [set_solver|apply Hplace].
Qed.

Lemma fixture_step_inv m n all dm dirs done p g :
  components_lt n m → fixture_inv m n all dm dirs done p →
  fixture_inv m n all dm dirs (done ++ [g]) (fixture_step m n all dm dirs p g).
Proof.
  intros Hm Hinv. unfold fixture_step.
  destruct (outermost_declaring_ancestor (module_path g) dirs) as [a|] eqn:Ho.
  - apply push_whole_inv; [done| |].
    + intros gi. by apply items_component_lt.
    + unfold placed. by rewrite Ho.
  - destruct (declares_module dm (module_path g)) eqn:Hd.
    + apply push_whole_inv; [done| |].
      * intros gi. by apply items_component_lt.
      * unfold placed. by rewrite Ho, Hd.
    + pose proof (push_buckets_inv m n all dm dirs done p g Hm Hinv Ho Hd) as H.
      by destruct (bucket_items m n (items g)).
Qed.

Lemma partition_by_fixture_inv gs fgs dm dirs display :
  fgs ≠ [] →
  fixture_inv (fixture_to_group fgs display) (length fgs) gs dm dirs gs
    (partition_by_fixture_groups gs fgs dm dirs display).
Proof.
  intros Hne. unfold partition_by_fixture_groups. destruct fgs as [|fg fgs]; [done|].
  set (n := length (fg :: fgs)). set (m := fixture_to_group (fg :: fgs) display).
  assert (Hm : components_lt n m) by apply component_lt.
  assert (Hgen : ∀ l done p, fixture_inv m n gs dm dirs done p →
    fixture_inv m n gs dm dirs (done ++ l) (fold_left (fixture_step m n gs dm dirs) l p)).
  { induction l as [|g l IH]; intros done p Hp; simpl; [by rewrite app_nil_r|].
    rewrite (cons_middle g done l), (assoc_L (++)). by apply IH, fixture_step_inv. }
  apply (Hgen gs []). split; cbn [fp_arranged fp_remaining].
  - apply length_replicate.
  - by rewrite concat_replicate_nil.
  - intros k P g [-> _]%lookup_replicate Hg. by apply elem_of_nil in Hg.
  - intros g Hg. by apply elem_of_nil in Hg.
Qed.

(** ** The plan *)

(** Phase 0 is the coordinator, phase 1 the parallel remainder, the others
    the arranged components. *)
Definition phases (p : ExecutionPlan) : list (list ModuleGroup) :=
  inprocess_groups p :: parallel_groups p :: arranged_groups p.

Definition in_phase (p : ExecutionPlan) (j : nat) (g : ModuleGroup) : Prop :=
  ∃ P, phases p !! j = Some P ∧ g ∈ P.

Section Plan.
Context (groups : list ModuleGroup) (mode : ExecutionMode) (cfg : Z) (overhead : f64)
  (min_tests : nat) (fgs : list (list string)) (dm dirs : list string)
  (display : list (string * string)) (est : option Z) (cpu : Z).
Abbreviation plan := (plan_execution groups mode cfg overhead min_tests fgs dm dirs display est cpu).
Abbreviation hot := (hot_package_anchors groups dirs).
Abbreviation par := (ip_parallel (partition_inprocess_groups groups dm dirs)).

Lemma plan_items : flat_map items (concat (phases plan)) ≡ₚ flat_map items groups.
Proof.
  unfold plan_execution. destruct (negb _).
  { unfold phases. simpl. by rewrite app_nil_r. }
  assert (Hip := partition_inprocess_items groups dm dirs).
  destruct fgs as [|fg fgs'] eqn:E; unfold phases; simpl.
  - rewrite app_nil_r, flat_map_app. done.
  - pose proof (fi_items _ _ _ _ _ _ _ (partition_by_fixture_inv par (fg :: fgs') dm dirs display
      ltac:(done))) as Hf.
    rewrite !flat_map_app. rewrite <-Hip. apply Permutation_app_head.
    rewrite <-Hf. apply Permutation_app_comm.
Qed.

(** C6: Every test of a run is in exactly one phase of the plan, whatever the
    marks, the arranged components and the declaring modules and packages. *)
Theorem plan_conserves_tests :
  flat_map items (concat (phases plan)) ≡ₚ flat_map items groups.
Proof. apply plan_items. Qed.

(** Where the groups of a parallel plan come from. *)
Lemma plan_phase_cases j g :
  in_phase plan j g →
  (strategy plan = Serial ∧ j = 1 ∧ g ∈ groups) ∨
  strategy plan ≠ Serial ∧
  ((j = 0 ∧ ∃ g0, g0 ∈ groups ∧ g ∈ (inprocess_split hot dm g0).1) ∨
  (fgs = [] ∧ j = 1 ∧ g ∈ par) ∨
  (fgs ≠ [] ∧ j ≠ 0 ∧ ∃ g0, g0 ∈ par ∧
     placed (fixture_to_group fgs display) par dm dirs (if j =? 1 then None else Some (j - 2)) g0 g)).
Proof.
  intros (P & HP & Hg). unfold plan_execution in *. destruct (negb _).
  { left. destruct j as [|[|j]]; simplify_eq/=; [by apply elem_of_nil in Hg|done]. }
  right. split; [by destruct fgs|]. destruct j as [|j].
  { left. split; [done|].
    assert (g ∈ ip_inprocess (partition_inprocess_groups groups dm dirs)) as Hin
      by (destruct fgs; simpl in HP; by simplify_eq).
    rewrite partition_inprocess_flat in Hin. by apply flat_map_elem in Hin. }
  right. destruct fgs as [|fg fgs'] eqn:E; [left|right].
  - by destruct j as [|j]; simplify_eq/=.
  - split_and!; [done..|]. rewrite <-E in *.
    pose proof (partition_by_fixture_inv par fgs dm dirs display ltac:(by rewrite E)) as [_ _ Ha Hr].
    destruct j as [|j]; simpl in *; [simplify_eq; auto|].
    rewrite Nat.sub_0_r. eauto.
Qed.

Lemma par_elem g0 :
  g0 ∈ par → ∃ g1, g1 ∈ groups ∧ g0 ∈ (inprocess_split hot dm g1).2.
Proof. rewrite partition_inprocess_flat. simpl. by intros ?%flat_map_elem. Qed.

(** Modules that no phase boundary may cut: those below a declaring directory
    and those that declare a module-lifetime fixture. *)
Definition whole (path : string) : Prop :=
  (∃ d, d ∈ dirs ∧ path_starts_with d path = true) ∨ declares_module dm path = true.

Definition coordinator (g : ModuleGroup) : bool :=
  existsb (λ d, path_starts_with d (module_path g)) hot ||
  declares_module dm (module_path g) && any_inprocess (items g).

Lemma inprocess_split_whole g :
  g ∈ groups → whole (module_path g) →
  inprocess_split hot dm g =
  if coordinator g then ([g], []) else ([], group_if_any (module_path g) (items g)).
Proof.
  intros Hg Hw. unfold inprocess_split, coordinator. destruct (existsb _ hot) eqn:Eh; [done|].
  simpl. destruct (declares_module dm (module_path g) && any_inprocess (items g)) eqn:Ed; [done|].
  assert (any_inprocess (items g) = false) as Hn.
  { destruct Hw as [(d & Hd & Hs)|Hw]; [|by rewrite Hw in Ed].
    apply not_true_iff_false. intros Ha. rewrite existsb_false in Eh. rewrite Eh in Hs; [done|].
    unfold hot_package_anchors. apply filter_elem. split; [done|]. apply existsb_elem.
    exists g. by rewrite Hs, Ha. }
  unfold any_inprocess in Hn. rewrite existsb_false in Hn.
  rewrite partition_as_filters, filter_none, filter_all; [done| |done].
  intros i Hi. by rewrite Hn.
Qed.

(** The phase an uncut module runs in. *)
Definition place (g : ModuleGroup) : nat :=
  match strategy plan with
  | Serial => 1
  | Parallel _ =>
      if coordinator g then 0
      else match fgs with
      | [] => 1
      | _ =>
          match
            match outermost_declaring_ancestor (module_path g) dirs with
            | Some a => subtree_component (fixture_to_group fgs display) par a
            | None => find_map (item_component (fixture_to_group fgs display)) (items g)
            end with
          | None => 1
          | Some k => S (S k)
          end
      end
  end.

Lemma par_whole g0 :
  whole (module_path g0) → g0 ∈ par → g0 ∈ groups ∧ coordinator g0 = false.
Proof.
  intros Hw (g1 & Hg1 & Hin)%par_elem.
  assert (module_path g0 = module_path g1) as Hp by (by apply inprocess_split_elem in Hin as [? _]).
  rewrite Hp in Hw. rewrite inprocess_split_whole in Hin by done.
  destruct (coordinator g1) eqn:Ec; simpl in Hin; [by apply elem_of_nil in Hin|].
  apply group_if_any_elem in Hin as [-> _]. by destruct g1.
Qed.

Lemma whole_place j g :
  whole (module_path g) → in_phase plan j g → g ∈ groups ∧ j = place g.
Proof.
  intros Hw Hin. unfold place.
  destruct (plan_phase_cases j g Hin)
    as [(-> & -> & ?)|(Hs & [(-> & g0 & Hg0 & Hg)|[(Hf & -> & Hg)|(Hf & Hj & g0 & Hg0 & Hp & Hc)]])];
    [done|..]; destruct (strategy plan) as [|w] eqn:Es; try done.
  - assert (module_path g = module_path g0) as Hp by (by apply inprocess_split_elem in Hg as [? _]).
    rewrite Hp in Hw. rewrite inprocess_split_whole in Hg by done.
    destruct (coordinator g0) eqn:Ec; simpl in Hg; [|by apply elem_of_nil in Hg].
    apply list_elem_of_singleton in Hg as ->. by rewrite Ec.
  - destruct (par_whole g Hw Hg) as [? ->]. by rewrite Hf.
  - rewrite Hp in Hw. destruct (par_whole g0 Hw Hg0) as [Hin0 Hc0].
    assert (g = g0 ∧ (if j =? 1 then None else Some (j - 2)) =
      match outermost_declaring_ancestor (module_path g0) dirs with
      | Some a => subtree_component (fixture_to_group fgs display) par a
      | None => find_map (item_component (fixture_to_group fgs display)) (items g0) end) as [-> <-].
    { destruct (outermost_declaring_ancestor (module_path g0) dirs) eqn:Eo; [done|].
      destruct Hw as [(d & Hd & Hsd)|Hw]; [|by rewrite Hw in Hc].
      rewrite outermost_None in Eo. by rewrite Eo in Hsd. }
    split; [done|]. rewrite Hc0. destruct fgs; [done|].
    destruct (Nat.eqb_spec j 1); [done|lia].
Qed.

Lemma subtree_component_eqb m gs a b :
  path_eqb a b = true → subtree_component m gs a = subtree_component m gs b.
Proof.
  intros E%path_eqb_true. unfold subtree_component, path_starts_with. by rewrite E.
Qed.

(** Of modules run together, those below one declaring directory share a group. *)
Lemma one_task_group gs d g1 g2 :
  d ∈ dirs → path_starts_with d (module_path g1) = true → path_starts_with d (module_path g2) = true →
  g1 ∈ gs → g2 ∈ gs →
  ∃ t, t ∈ group_by_package gs dirs ∧ g1 ∈ TaskGroup.modules t ∧ g2 ∈ TaskGroup.modules t ∧
    ∀ t', t' ∈ group_by_package gs dirs → g1 ∈ TaskGroup.modules t' ∨ g2 ∈ TaskGroup.modules t' → t' = t.
Proof.
  intros Hd S1 S2 H1 H2. destruct (group_by_package_colocates gs dirs) as (Hp & Hc & _).
  rewrite <-Hp in H1, H2. apply flat_map_elem in H1 as (t1 & T1 & G1), H2 as (t2 & T2 & G2).
  assert (t1 = t2) as <- by exact (Hc d g1 g2 t1 t2 Hd S1 S2 T1 T2 G1 G2).
  exists t1. split_and!; [done..|]. intros t' T' [G'|G'].
  - exact (Hc d g1 g1 t' t1 Hd S1 S1 T' T1 G' G1).
  - exact (Hc d g2 g2 t' t1 Hd S2 S2 T' T1 G' G2).
Qed.

(** C30: The modules below a directory that declares a package-lifetime fixture
    are never cut and all belong to the same phase of the plan; and whenever
    two of them are run together (in that phase, or with other phases as a
    serial plan does), exactly one task group holds them, both of them.  A task
    group is what one worker, or the serial loop, takes whole. *)
Theorem package_subtree_in_one_phase d g1 g2 j1 j2 :
  d ∈ dirs →
  path_starts_with d (module_path g1) = true → path_starts_with d (module_path g2) = true →
  in_phase plan j1 g1 → in_phase plan j2 g2 →
  j1 = j2 ∧ g1 ∈ groups ∧ g2 ∈ groups ∧
  ∀ gs, g1 ∈ gs → g2 ∈ gs →
    ∃ t, t ∈ group_by_package gs dirs ∧ g1 ∈ TaskGroup.modules t ∧ g2 ∈ TaskGroup.modules t ∧
      ∀ t', t' ∈ group_by_package gs dirs → g1 ∈ TaskGroup.modules t' ∨ g2 ∈ TaskGroup.modules t' → t' = t.
Proof.
  intros Hd S1 S2 P1 P2. split; [|split; [|split]].
  2: by apply whole_place in P1 as [? _]; [|left; eauto].
  2: by apply whole_place in P2 as [? _]; [|left; eauto].
  2: intros gs; by apply (one_task_group gs d).
  apply whole_place in P1 as [G1 ->]; [|left; eauto].
  apply whole_place in P2 as [G2 ->]; [|left; eauto].
  unfold place. destruct (strategy plan) eqn:Es; [done|].
  (* a declaring module with a mark below [d] makes [d] hot *)
  assert (Hco : ∀ g, g ∈ groups → path_starts_with d (module_path g) = true →
    coordinator g = existsb (λ h, path_starts_with h (module_path g)) hot).
  { intros g Hg Hs. unfold coordinator. destruct (existsb _ hot) eqn:E; [done|]. simpl.
    apply not_true_iff_false. intros [_ Ha]%andb_true_iff. rewrite existsb_false in E.
    rewrite E in Hs; [done|]. apply filter_elem. split; [done|]. apply existsb_elem.
    exists g. by rewrite Hs, Ha. }
  rewrite !Hco by done.
  assert (existsb (λ h, path_starts_with h (module_path g1)) hot =
          existsb (λ h, path_starts_with h (module_path g2)) hot) as ->.
  { apply eq_true_iff_eq. split; by apply (hot_subtree groups dirs d). }
  destruct (existsb _ hot); [done|]. destruct fgs; [done|].
  destruct (outermost_declaring_ancestor (module_path g1) dirs) as [a1|] eqn:E1;
    [|rewrite outermost_None in E1; by rewrite E1 in S1].
  destruct (outermost_declaring_ancestor (module_path g2) dirs) as [a2|] eqn:E2;
    [|rewrite outermost_None in E2; by rewrite E2 in S2].
  by rewrite (subtree_component_eqb _ _ a1 a2)
    by (by eapply (outermost_same (module_path g1) (module_path g2) dirs d)).
Qed.

(** A module that declares a module-lifetime fixture is never cut: it
    appears in the plan with all its tests and, module paths being distinct,
    in one phase only. *)
Theorem declaring_module_in_one_phase g1 g2 j1 j2 :
  NoDup (map module_path groups) →
  declares_module dm (module_path g1) = true → module_path g2 = module_path g1 →
  in_phase plan j1 g1 → in_phase plan j2 g2 →
  g1 ∈ groups ∧ g1 = g2 ∧ j1 = j2.
Proof.
  intros Hnd Hd Hp P1 P2.
  apply whole_place in P1 as [G1 ->]; [|by right].
  apply whole_place in P2 as [G2 ->]; [|right; by rewrite Hp].
  assert (g1 = g2) as ->; [|done].
  apply list_elem_of_lookup in G1 as [i1 L1], G2 as [i2 L2].
  assert (i1 = i2) as ->; [|congruence].
  eapply (NoDup_lookup (map module_path groups)); [done|..]; rewrite list_lookup_fmap;
    [by rewrite L1|by rewrite L2; simpl; rewrite Hp].
Qed.

(** In a parallel plan every test marked [inprocess] runs on the
    coordinator, and no other phase holds one. *)
Theorem inprocess_marks_honoured j g i :
  strategy plan ≠ Serial → in_phase plan j g → i ∈ items g →
  MarkerSet.has_inprocess (markers i) = true → j = 0.
Proof.
  intros Hs Hin Hi Hm.
  assert (Hpar : ∀ g0, g0 ∈ par → ∀ i, i ∈ items g0 → MarkerSet.has_inprocess (markers i) = false).
  { intros g0 (g1 & _ & Hg)%par_elem. by apply inprocess_split_elem in Hg as (_ & _ & ? & _). }
  destruct (plan_phase_cases j g Hin)
    as [(? & _)|(_ & [(-> & _)|[(_ & _ & Hg)|(_ & _ & g0 & Hg0 & _ & Hc)]])]; [done|done|..].
  - rewrite (Hpar g Hg i Hi) in Hm. done.
  - assert (i ∈ items g0) as Hi0.
    { destruct (outermost_declaring_ancestor _ _); [by destruct Hc as [-> _]|].
      destruct (declares_module _ _); [by destruct Hc as [-> _]|].
      rewrite Hc in Hi. by apply filter_elem in Hi as [? _]. }
    rewrite (Hpar g0 Hg0 i Hi0) in Hm. done.
Qed.

End Plan.

(** A small suite: a package [p] that declares, with one marked test, and a
    module that is arranged on [db]. *)
Definition demo_plan_item (id : string) (marks : list string) (deps : list (string * string))
    : TestItem :=
  {| node_id := id; fn_name := id; lineno := 1; markers := MarkerSet.from_vec marks;
     param_id := None; param_values := []; is_async := false; fixture_deps := deps;
     fixref_deps := []; arranged := [] |}.

Definition demo_groups : list ModuleGroup :=
  [mk_group "p/a.py" [demo_plan_item "p/a.py::t" ["inprocess"] []];
   mk_group "p/b.py" [demo_plan_item "p/b.py::t" [] []];
   mk_group "q.py" [demo_plan_item "q.py::t" [] [("db", "x")]; demo_plan_item "q.py::u" [] []];
   mk_group "r.py" [demo_plan_item "r.py::t" [] [("db", "x")]; demo_plan_item "r.py::u" [] []]].

Definition demo_plan : ExecutionPlan :=
  plan_execution demo_groups (ParallelMode (Fixed 2)) 2 (f64_of_Z 200) 10 [["db"]] ["r.py"] ["p"]
    [] None 4.

(** A package that declares, with a package below it, one of whose modules is
    arranged on [db] and takes the other along. *)
Definition demo_packages : list ModuleGroup :=
  [mk_group "p/a.py" [demo_plan_item "p/a.py::t" [] []];
   mk_group "p/sub/b.py" [demo_plan_item "p/sub/b.py::t" [] [("db", "x")]];
   mk_group "q.py" [demo_plan_item "q.py::t" [] []]].

Definition demo_package_plan : ExecutionPlan :=
  plan_execution demo_packages (ParallelMode (Fixed 2)) 2 (f64_of_Z 200) 10 [["db"]] [] ["p"; "p/sub"]
    [] None 4.

Lemma package_subtree_in_one_phase_witness :
  strategy demo_package_plan = Parallel 2 ∧
  phases demo_package_plan !! 2 = Some (take 2 demo_packages) ∧
  phases demo_package_plan !! 1 = Some (drop 2 demo_packages) ∧
  ∃ t, t ∈ group_by_package (take 2 demo_packages) ["p"; "p/sub"] ∧
    mk_group "p/a.py" [demo_plan_item "p/a.py::t" [] []] ∈ TaskGroup.modules t ∧
    mk_group "p/sub/b.py" [demo_plan_item "p/sub/b.py::t" [] [("db", "x")]] ∈ TaskGroup.modules t.
Proof.
  split; [vm_compute; reflexivity|]. split; [vm_compute; reflexivity|]. split; [vm_compute; reflexivity|].
  destruct (package_subtree_in_one_phase demo_packages (ParallelMode (Fixed 2)) 2 (f64_of_Z 200) 10
    [["db"]] [] ["p"; "p/sub"] [] None 4 "p"
    (mk_group "p/a.py" [demo_plan_item "p/a.py::t" [] []])
    (mk_group "p/sub/b.py" [demo_plan_item "p/sub/b.py::t" [] [("db", "x")]]) 2 2) as (_ & _ & _ & H).
  - left.
  - reflexivity.
  - reflexivity.
  - eexists. split; [vm_compute; reflexivity|]. left.
  - eexists. split; [vm_compute; reflexivity|]. right. left.
  - destruct (H (take 2 demo_packages)) as (t & H1 & H2 & H3 & _); [left|right; left|].
    exists t. split; [exact H1|]. split; [exact H2|exact H3].
Defined.

Lemma declaring_module_in_one_phase_witness :
  mk_group "r.py" [demo_plan_item "r.py::t" [] [("db", "x")]; demo_plan_item "r.py::u" [] []]
    ∈ demo_groups.
Proof.
  refine (proj1 (declaring_module_in_one_phase demo_groups (ParallelMode (Fixed 2)) 2
    (f64_of_Z 200) 10 [["db"]] ["r.py"] ["p"] [] None 4
    (mk_group "r.py" [demo_plan_item "r.py::t" [] [("db", "x")]; demo_plan_item "r.py::u" [] []])
    (mk_group "r.py" [demo_plan_item "r.py::t" [] [("db", "x")]; demo_plan_item "r.py::u" [] []])
    2 2 _ eq_refl eq_refl _ _)).
  - apply (bool_decide_unpack _). vm_compute. exact I.
  - eexists. split; [vm_compute; reflexivity|]. right. left.
  - eexists. split; [vm_compute; reflexivity|]. right. left.
Defined.

Lemma inprocess_marks_honoured_witness :
  strategy demo_plan = Parallel 2 ∧ 0 = 0.
Proof.
  split; [vm_compute; reflexivity|].
  apply (inprocess_marks_honoured demo_groups (ParallelMode (Fixed 2)) 2 (f64_of_Z 200) 10
    [["db"]] ["r.py"] ["p"] [] None 4 0
    (mk_group "p/a.py" [demo_plan_item "p/a.py::t" ["inprocess"] []])
    (demo_plan_item "p/a.py::t" ["inprocess"] [])).
  - vm_compute. discriminate.
  - eexists. split; [reflexivity|]. left.
  - left.
  - vm_compute. reflexivity.
Defined.
