(* ===== verification/Report.v ===== *)
(** * Report: run statistics and the exit code ([src/reporter/])

    [RunStats] and its [record] dispatch ([stats.rs]), [ReporterSession]
    ([session.rs]), [compute_exit_code] ([exit.rs]), the votes of
    [CompositeReporter] ([composite.rs], [traits.rs]), the outcome
    classifications of [outcome_fmt.rs] and the vote of a strict abort
    ([src/pipeline/helpers.rs]).

    The counters are a [usize] array of length 10, a list here; [increment] and
    [decrement] index it with the kind.  What a reporter other than the
    composite prints is not modelled: an inner reporter is the [ExitVote] its
    [finish] returns, as a function of the session. *)
From S2P Require Import Prelude F64 Types.

(** ** Diagnostics ([src/reporter/stats.rs]) *)

Inductive DiagnosticSeverity := SevError | SevWarning | SevNotice.

Definition severity_from_wire (severity : string) : DiagnosticSeverity :=
  if String.eqb severity "error" then SevError
  else if String.eqb severity "warning" then SevWarning
  else SevNotice.

Record DiagnosticEntry := mk_diag {
  de_severity : DiagnosticSeverity;
  de_context : string;
  de_message : string;
  de_file : option string;
  de_lineno : option nat
}.

(** [DiagnosticEntry::from_wire] *)
Definition diagnostic_from_wire (severity context message file : string) (lineno : nat)
    : DiagnosticEntry :=
  mk_diag (severity_from_wire severity) context message
    (if String.eqb file "" then None else Some file)
    (if lineno =? 0 then None else Some lineno).

Record TipLine := mk_tip { tip_file : string; tip_lineno : nat }.

Record FixtureCacheEntry := { fce_name : string; fce_hits : nat; fce_misses : nat }.

Record FixtureCacheStats := mk_fixture_cache {
  fcs_hits : nat;
  fcs_misses : nat;
  fcs_breakdown : list FixtureCacheEntry
}.

Definition cache_pct (s : FixtureCacheStats) : nat :=
  100 * fcs_hits s / (fcs_hits s + fcs_misses s).

Definition cache_summary (s : FixtureCacheStats) : string :=
  let total := fcs_hits s + fcs_misses s in
  if total =? 0 then "fixture cache: no fixtures used"
  else "fixture cache: " +:+ TestOutcome.show_nat (fcs_hits s) +:+ "/"
    +:+ TestOutcome.show_nat total +:+ " hits (" +:+ TestOutcome.show_nat (cache_pct s) +:+ "%)".

Record FixtureTimingEntry := {
  fte_name : string;
  fte_total_setup : f64;
  fte_setup_count : nat;
  fte_total_teardown : f64;
  fte_teardown_count : nat
}.

Record TimingEntry := mk_timing { te_node_id : string; te_duration_ms : f64 }.

(** ** Counters and run statistics *)

Module OutcomeCounters.

Abbreviation t := (list nat) (only parsing).

Definition zero : t := replicate OutcomeKind.COUNT 0.

Definition get (c : t) (k : OutcomeKind.t) : nat := default 0 (c !! OutcomeKind.index k).

Definition increment (c : t) (k : OutcomeKind.t) : t := alter S (OutcomeKind.index k) c.

(** [saturating_sub(1)] *)
Definition decrement (c : t) (k : OutcomeKind.t) : t := alter pred (OutcomeKind.index k) c.

End OutcomeCounters.

Record RunStats := mk_stats {
  counts : OutcomeCounters.t;
  xpassed_strict : nat;
  suite_violations : nat;
  tip_lines : list TipLine;
  entries : list DiagnosticEntry;
  run_timings : list TimingEntry;
  fixture_cache : option FixtureCacheStats;
  fixture_timings : list FixtureTimingEntry;
  usage_error_ids : gset string
}.

Definition new_stats : RunStats := mk_stats OutcomeCounters.zero 0 0 [] [] [] None [] ∅.

Definition with_counts (s : RunStats) (c : OutcomeCounters.t) : RunStats :=
  mk_stats c (xpassed_strict s) (suite_violations s) (tip_lines s) (entries s) (run_timings s)
    (fixture_cache s) (fixture_timings s) (usage_error_ids s).

Definition bump (s : RunStats) (k : OutcomeKind.t) : RunStats :=
  with_counts s (OutcomeCounters.increment (counts s) k).

Definition collect_tips (s : RunStats) (item : TestItem) (lines : list nat) : RunStats :=
  mk_stats (counts s) (xpassed_strict s) (suite_violations s)
    (tip_lines s ++ map (mk_tip (item_module_path item)) lines) (entries s) (run_timings s)
    (fixture_cache s) (fixture_timings s) (usage_error_ids s).

Definition push_entry (s : RunStats) (e : DiagnosticEntry) : RunStats :=
  mk_stats (counts s) (xpassed_strict s) (suite_violations s) (tip_lines s) (entries s ++ [e])
    (run_timings s) (fixture_cache s) (fixture_timings s) (usage_error_ids s).

Definition with_usage (s : RunStats) (ids : gset string) : RunStats :=
  mk_stats (counts s) (xpassed_strict s) (suite_violations s) (tip_lines s) (entries s)
    (run_timings s) (fixture_cache s) (fixture_timings s) ids.

Definition record_passed (s : RunStats) (item : TestItem) (lines : list nat) : RunStats :=
  collect_tips (bump s OutcomeKind.Passed) item lines.

Definition record_warned (s : RunStats) (item : TestItem) (reason : string) (lines : list nat)
    : RunStats :=
  collect_tips
    (push_entry (bump s OutcomeKind.Warned) (mk_diag SevWarning (fn_name item) reason None None))
    item lines.

Definition record_xpassed (s : RunStats) (strict : bool) : RunStats :=
  let s := bump s OutcomeKind.XPassed in
  mk_stats (counts s) (if strict then S (xpassed_strict s) else xpassed_strict s)
    (suite_violations s) (tip_lines s) (entries s) (run_timings s) (fixture_cache s)
    (fixture_timings s) (usage_error_ids s).

Definition record_flaky (s : RunStats) (id : string) (original : OutcomeKind.t) : RunStats :=
  let s := bump s OutcomeKind.Flaky in
  let s := match original with
           | OutcomeKind.Failed | OutcomeKind.Error | OutcomeKind.Timeout =>
               with_counts s (OutcomeCounters.decrement (counts s) original)
           | _ => s
           end in
  with_usage s (usage_error_ids s ∖ {[id]}).

Definition record_errored (s : RunStats) (item : TestItem) (d : FailureDiagnostic) : RunStats :=
  let s := bump s OutcomeKind.Error in
  if diag_usage_error d then with_usage s ({[node_id item]} ∪ usage_error_ids s) else s.

(** [RunStats::record] *)
Definition record (s : RunStats) (item : TestItem) (outcome : TestOutcome.t) : RunStats :=
  match outcome with
  | TestOutcome.Passed tips => record_passed s item (default [] tips)
  | TestOutcome.Failed _ => bump s OutcomeKind.Failed
  | TestOutcome.Error d => record_errored s item d
  | TestOutcome.Skipped _ => bump s OutcomeKind.Skipped
  | TestOutcome.Warned reason tips => record_warned s item reason (default [] tips)
  | TestOutcome.XFailed _ => bump s OutcomeKind.XFailed
  | TestOutcome.XPassed strict => record_xpassed s strict
  | TestOutcome.Timeout _ => bump s OutcomeKind.Timeout
  | TestOutcome.Flaky _ original => record_flaky s (node_id item) original
  end.

Definition record_timing (s : RunStats) (id : string) (d : f64) : RunStats :=
  mk_stats (counts s) (xpassed_strict s) (suite_violations s) (tip_lines s) (entries s)
    (run_timings s ++ [mk_timing id d]) (fixture_cache s) (fixture_timings s) (usage_error_ids s).

Definition record_strict_suite (s : RunStats) (count : nat) : RunStats :=
  mk_stats (counts s) (xpassed_strict s) (suite_violations s + count) (tip_lines s) (entries s)
    (run_timings s) (fixture_cache s) (fixture_timings s) (usage_error_ids s).

(** ** The session ([src/reporter/session.rs]) *)

Record ReporterSession := mk_session {
  stats : RunStats;
  strict_suite_count : nat
}.

Definition new_session (strict_suite_count : nat) : ReporterSession :=
  mk_session new_stats strict_suite_count.

Definition record_outcome (s : ReporterSession) (item : TestItem) (outcome : TestOutcome.t)
    (duration_ms : f64) : ReporterSession :=
  mk_session (record_timing (record (stats s) item outcome) (node_id item) duration_ms)
    (strict_suite_count s).

Definition session_record_strict_suite (s : ReporterSession) : ReporterSession :=
  mk_session (record_strict_suite (stats s) (strict_suite_count s)) (strict_suite_count s).

Definition record_diagnostics (s : ReporterSession) (l : list DiagnosticEntry) : ReporterSession :=
  mk_session (fold_left push_entry l (stats s)) (strict_suite_count s).

Definition record_teardown_warning (s : ReporterSession) (context error : string)
    : ReporterSession :=
  mk_session (push_entry (stats s) (mk_diag SevWarning context error None None))
    (strict_suite_count s).

(** ** The exit code ([src/reporter/exit.rs]) *)

Definition compute_exit_code (s : RunStats) (collect_err_count : nat) (interrupted : bool)
    : ExitCode.t :=
  if negb (bool_decide (usage_error_ids s = ∅)) then ExitCode.UsageError
  else if 0 <? collect_err_count then ExitCode.CollectErr
  else if interrupted then ExitCode.Interrupted
  else if (0 <? OutcomeCounters.get (counts s) OutcomeKind.Failed)
          || (0 <? OutcomeCounters.get (counts s) OutcomeKind.Error)
          || (0 <? xpassed_strict s)
          || (0 <? OutcomeCounters.get (counts s) OutcomeKind.Timeout)
          || (0 <? suite_violations s)
  then ExitCode.Failure
  else ExitCode.Success.

(** ** Votes ([src/reporter/traits.rs], [composite.rs]) *)

Inductive ExitVote := Abstain | Code (c : ExitCode.t).

Definition vote_code (v : ExitVote) : ExitCode.t :=
  match v with Abstain => ExitCode.Success | Code c => c end.

(** [std::cmp::max_by_key(a, b, key)]: the second on a tie. *)
Definition max_by_code (a b : ExitCode.t) : ExitCode.t :=
  if (ExitCode.as_i32 a <=? ExitCode.as_i32 b)%Z then b else a.

(** [iter().max_by_key(key)]: the last of the greatest. *)
Definition max_code (l : list ExitCode.t) : option ExitCode.t :=
  match l with
  | [] => None
  | c :: l' => Some (fold_left max_by_code l' c)
  end.

Definition cast_codes (votes : list ExitVote) : list ExitCode.t :=
  flat_map (λ v, match v with Code c => [c] | Abstain => [] end) votes.

(** A reporter's [finish], as the vote it returns. *)
Abbreviation reporter := (list CollectError → bool → ReporterSession → ExitVote) (only parsing).

(** [CompositeReporter::finish] *)
Definition composite_finish (reporters : list reporter) (session : ReporterSession)
    (collect_errors : list CollectError) (interrupted : bool) : ExitVote * ReporterSession :=
  let session := session_record_strict_suite session in
  let votes := map (λ r, r collect_errors interrupted session) reporters in
  (match max_code (cast_codes votes) with
   | Some c => Code c
   | None => Code ExitCode.Success
   end, session).

(** [standard_finish]: the vote of the console reporters. *)
Definition standard_finish : reporter :=
  λ collect_errors interrupted session,
    Code (compute_exit_code (stats session) (length collect_errors) interrupted).

(** [write_strict_abort_report]: the votes of the artifacts that were asked for. *)
Definition strict_abort_code (json_vote junit_vote : option ExitVote) : ExitCode.t :=
  let vote := ExitCode.CollectErr in
  let vote := match json_vote with Some v => max_by_code vote (vote_code v) | None => vote end in
  match junit_vote with Some v => max_by_code vote (vote_code v) | None => vote end.

(** ** Classifications ([src/reporter/outcome_fmt.rs]) *)

Inductive ColorCategory := ColPass | ColFail | ColError | ColSkip | ColWarn | ColDim | ColTimeout.

Inductive JunitCategory := JPassed | JFailed | JError | JSkipped.

(** Characters by code point; 183 is the middle dot. *)
Definition dot_char (o : TestOutcome.t) : N :=
  match o with
  | TestOutcome.Passed None => 46
  | TestOutcome.Passed (Some _) => 183
  | TestOutcome.Failed _ => 70
  | TestOutcome.Error _ => 69
  | TestOutcome.Skipped _ => 115
  | TestOutcome.Warned _ _ => 46
  | TestOutcome.XFailed _ => 120
  | TestOutcome.XPassed _ => 88
  | TestOutcome.Timeout _ => 84
  | TestOutcome.Flaky _ _ => 102
  end.

Definition label (o : TestOutcome.t) : string :=
  match o with
  | TestOutcome.Failed _ => "FAIL "
  | TestOutcome.Error _ => "ERROR"
  | TestOutcome.Skipped _ => "SKIP "
  | TestOutcome.Warned _ _ => "WARN "
  | TestOutcome.XFailed _ => "XFAIL"
  | TestOutcome.XPassed _ => "XPASS"
  | TestOutcome.Timeout _ => "TIME "
  | TestOutcome.Flaky _ _ => "FLAKY"
  | TestOutcome.Passed _ => ""
  end.

Definition color_category (o : TestOutcome.t) : ColorCategory :=
  match o with
  | TestOutcome.Passed _ => ColPass
  | TestOutcome.Failed _ | TestOutcome.XPassed true => ColFail
  | TestOutcome.Error _ => ColError
  | TestOutcome.Skipped _ => ColSkip
  | TestOutcome.Warned _ _ | TestOutcome.XPassed false | TestOutcome.Flaky _ _ => ColWarn
  | TestOutcome.XFailed _ => ColDim
  | TestOutcome.Timeout _ => ColTimeout
  end.

Definition junit_category (o : TestOutcome.t) : JunitCategory :=
  match o with
  | TestOutcome.Passed _ | TestOutcome.Warned _ _ | TestOutcome.XPassed false
  | TestOutcome.Flaky _ _ => JPassed
  | TestOutcome.Failed _ | TestOutcome.XPassed true => JFailed
  | TestOutcome.Error _ | TestOutcome.Timeout _ => JError
  | TestOutcome.Skipped _ | TestOutcome.XFailed _ => JSkipped
  end.

Definition ctrf_status (o : TestOutcome.t) : string :=
  match o with
  | TestOutcome.Passed _ | TestOutcome.Warned _ _ | TestOutcome.XPassed false
  | TestOutcome.Flaky _ _ => "passed"
  | TestOutcome.Failed _ | TestOutcome.Error _ | TestOutcome.XPassed true
  | TestOutcome.Timeout _ => "failed"
  | TestOutcome.Skipped _ | TestOutcome.XFailed _ => "skipped"
  end.

(** * Theorems *)

(** ** Classifications *)

(** All the views of an outcome agree on what a failure is: it is a hard
    failure for [--maxfail] exactly when CTRF says failed, JUnit counts it as
    failed or error and the terminal colours it as a failure; the JUnit and
    CTRF skips coincide, and only a passing test has no label. *)
Theorem outcome_views_agree o :
  (TestOutcome.is_hard_failure o = true ↔ ctrf_status o = "failed") ∧
  (TestOutcome.is_hard_failure o = true ↔ junit_category o = JFailed ∨ junit_category o = JError) ∧
  (TestOutcome.is_hard_failure o = true ↔
     color_category o = ColFail ∨ color_category o = ColError ∨ color_category o = ColTimeout) ∧
  (junit_category o = JSkipped ↔ ctrf_status o = "skipped") ∧
  (label o = "" ↔ TestOutcome.kind o = OutcomeKind.Passed).
Proof. destruct o as [| | | | | |[]| |]; simpl; split_and!; naive_solver. Qed.

(** ** Counters *)

Lemma kind_index_inj k k' : OutcomeKind.index k = OutcomeKind.index k' → k = k'.
Proof. by destruct k, k'. Qed.

Lemma get_increment c k k' :
  length c = OutcomeKind.COUNT →
  OutcomeCounters.get (OutcomeCounters.increment c k) k' =
  OutcomeCounters.get c k' + if decide (k = k') then 1 else 0.
Proof.
  intros Hc. unfold OutcomeCounters.get, OutcomeCounters.increment.
  destruct (decide (k = k')) as [<-|Hne].
  - rewrite list_lookup_alter_eq.
    destruct (c !! OutcomeKind.index k) eqn:E; simpl; [lia|].
    apply lookup_ge_None in E. rewrite Hc in E. unfold OutcomeKind.COUNT in E. destruct k; simpl in E; lia.
  - rewrite list_lookup_alter_ne; [lia|]. intros ?. by apply Hne, kind_index_inj.
Qed.

Lemma get_decrement c k k' :
  OutcomeCounters.get (OutcomeCounters.decrement c k) k' =
  OutcomeCounters.get c k' - if decide (k = k') then 1 else 0.
Proof.
  unfold OutcomeCounters.get, OutcomeCounters.decrement.
  destruct (decide (k = k')) as [<-|Hne].
  - rewrite list_lookup_alter_eq. destruct (c !! OutcomeKind.index k); simpl; lia.
  - rewrite list_lookup_alter_ne; [lia|]. intros ?. by apply Hne, kind_index_inj.
Qed.

Lemma length_increment c k : length (OutcomeCounters.increment c k) = length c.
Proof. apply length_alter. Qed.

Lemma length_decrement c k : length (OutcomeCounters.decrement c k) = length c.
Proof. apply length_alter. Qed.

(** ** Recording a run *)

(** An event is what [test_completed] is called with. *)
Definition event := (TestItem * TestOutcome.t * f64)%type.
Definition ev_id (e : event) : string := node_id e.1.1.
Definition ev_outcome (e : event) : TestOutcome.t := e.1.2.

Definition complete (s : ReporterSession) (e : event) : ReporterSession :=
  record_outcome s e.1.1 e.1.2 e.2.

Definition run_session (n : nat) (l : list event) : ReporterSession :=
  fold_left complete l (new_session n).

Definition not_flaky (o : TestOutcome.t) : bool :=
  match o with TestOutcome.Flaky _ _ => false | _ => true end.

Definition is_usage (o : TestOutcome.t) : bool :=
  match o with TestOutcome.Error d => diag_usage_error d | _ => false end.

Definition is_strict_xpass (o : TestOutcome.t) : bool :=
  match o with TestOutcome.XPassed true => true | _ => false end.

Definition of_kind (k : OutcomeKind.t) (l : list event) : list event :=
  List.filter (λ e, bool_decide (TestOutcome.kind (ev_outcome e) = k)) l.

Definition usage_ids (l : list event) : gset string :=
  list_to_set (map ev_id (List.filter (λ e, is_usage (ev_outcome e)) l)).

(** What the statistics hold after the main run. *)
Record stats_of (l : list event) (s : RunStats) : Prop := {
  so_length : length (counts s) = OutcomeKind.COUNT;
  so_counts k : OutcomeCounters.get (counts s) k = length (of_kind k l);
  so_strict : xpassed_strict s = length (List.filter (λ e, is_strict_xpass (ev_outcome e)) l);
  so_usage : usage_error_ids s = usage_ids l;
  so_suite : suite_violations s = 0
}.

Lemma record_bump s item o :
  not_flaky o = true →
  counts (record s item o) = OutcomeCounters.increment (counts s) (TestOutcome.kind o) ∧
  xpassed_strict (record s item o) = xpassed_strict s + (if is_strict_xpass o then 1 else 0) ∧
  usage_error_ids (record s item o) =
    (if is_usage o then {[node_id item]} ∪ usage_error_ids s else usage_error_ids s) ∧
  suite_violations (record s item o) = suite_violations s.
Proof.
  destruct o as [| |d| | | |[]| |]; try done; intros _; simpl; try (split_and!; try done; lia).
  unfold record_errored. destruct (diag_usage_error d); split_and!; simpl; done || lia.
Qed.

Lemma filter_snoc_length {A} (f : A → bool) l x :
  length (List.filter f (l ++ [x])) = length (List.filter f l) + if f x then 1 else 0.
Proof. rewrite List.filter_app, length_app. simpl. by destruct (f x). Qed.

Lemma run_stats_of n l :
  Forall (λ e, not_flaky (ev_outcome e) = true) l → stats_of l (stats (run_session n l)).
Proof.
  unfold run_session. induction l as [|e l IH] using rev_ind; intros Hl.
  { split; try done. intros []; done. }
  apply Forall_app in Hl as [Hl He]. rewrite Forall_singleton in He. destruct (IH Hl) as [H1 H2 H3 H4 H5].
  rewrite fold_left_app. simpl. set (s := stats _) in *.
  destruct (record_bump s e.1.1 e.1.2 He) as (E1 & E2 & E3 & E4). split; simpl.
  - by rewrite E1, length_increment.
  - intros k. rewrite E1, get_increment, H2 by done. unfold of_kind. rewrite filter_snoc_length.
    f_equal. unfold ev_outcome. by destruct (decide _), (bool_decide_reflect (TestOutcome.kind e.1.2 = k)).
  - rewrite E2, H3, filter_snoc_length. done.
  - rewrite E3, H4. unfold usage_ids. rewrite List.filter_app, map_app, list_to_set_app_L. simpl.
    change (ev_outcome e) with e.1.2. destruct (is_usage e.1.2); simpl; rewrite union_empty_r_L; [|done].
    apply union_comm_L.
  - by rewrite E4, H5.
Qed.

(** The events of the retry phase. *)
Definition flaky_events (fl : list (TestItem * OutcomeKind.t * string * f64)) : list event :=
  map (λ f, (f.1.1.1, TestOutcome.Flaky f.1.2 f.1.1.2, f.2)) fl.

Definition fl_id (f : TestItem * OutcomeKind.t * string * f64) : string := node_id f.1.1.1.
Definition fl_kind (f : TestItem * OutcomeKind.t * string * f64) : OutcomeKind.t := f.1.1.2.
Definition fl_of_kind (k : OutcomeKind.t) (fl : list (TestItem * OutcomeKind.t * string * f64)) :=
  List.filter (λ f, bool_decide (fl_kind f = k)) fl.

(** A flaky event takes one failure of its kind off the counters and its own
    id off the usage errors. *)
Lemma record_flaky_effect s f k :
  length (counts s) = OutcomeKind.COUNT →
  OutcomeKind.is_retryable_failure (fl_kind f) = true → OutcomeKind.is_retryable_failure k = true →
  let s' := record_flaky s (fl_id f) (fl_kind f) in
  length (counts s') = OutcomeKind.COUNT ∧
  OutcomeCounters.get (counts s') k =
    OutcomeCounters.get (counts s) k - (if decide (fl_kind f = k) then 1 else 0) ∧
  usage_error_ids s' = usage_error_ids s ∖ {[fl_id f]} ∧
  xpassed_strict s' = xpassed_strict s ∧ suite_violations s' = suite_violations s.
Proof.
  intros Hl Hf Hk. unfold record_flaky.
  assert (fl_kind f = OutcomeKind.Failed ∨ fl_kind f = OutcomeKind.Error ∨
          fl_kind f = OutcomeKind.Timeout) as [E|[E|E]] by (destruct (fl_kind f); naive_solver);
    rewrite E; simpl; rewrite get_decrement, get_increment, length_decrement, length_increment by done;
    split_and!; try done;
    (destruct (decide (OutcomeKind.Flaky = k)) as [<-|]; [done|lia]).
Qed.

Lemma run_flaky n l fl k :
  Forall (λ e, not_flaky (ev_outcome e) = true) l →
  Forall (λ f, OutcomeKind.is_retryable_failure (fl_kind f) = true) fl →
  OutcomeKind.is_retryable_failure k = true →
  let s := stats (run_session n (l ++ flaky_events fl)) in
  length (counts s) = OutcomeKind.COUNT ∧
  OutcomeCounters.get (counts s) k = length (of_kind k l) - length (fl_of_kind k fl) ∧
  usage_error_ids s = usage_ids l ∖ list_to_set (map fl_id fl) ∧
  xpassed_strict s = length (List.filter (λ e, is_strict_xpass (ev_outcome e)) l) ∧
  suite_violations s = 0.
Proof.
  intros Hl Hfl Hk. pose proof (run_stats_of n l Hl) as [H1 H2 H3 H4 H5].
  unfold run_session in *. rewrite fold_left_app. cbv zeta.
  induction fl as [|f fl IH] using rev_ind.
  { simpl. rewrite difference_empty_L. split_and!; try done. rewrite H2. simpl. lia. }
  apply Forall_app in Hfl as [Hfl Hf]. rewrite Forall_singleton in Hf.
  destruct (IH Hfl) as (I1 & I2 & I3 & I4 & I5).
  unfold flaky_events. rewrite map_app, fold_left_app. simpl. fold (flaky_events fl).
  set (s := stats (fold_left complete (flaky_events fl) _)) in *.
  destruct (record_flaky_effect s f k I1 Hf Hk) as (E1 & E2 & E3 & E4 & E5).
  split_and!; [done| | |by rewrite <-I4|by rewrite <-I5].
  - unfold fl_of_kind. rewrite filter_snoc_length. etrans; [exact E2|]. rewrite I2.
    unfold fl_of_kind. destruct (decide _), (bool_decide_reflect (fl_kind f = k)); done || lia.
  - etrans; [exact E3|]. rewrite I3, map_app, list_to_set_app_L. simpl.
    by rewrite union_empty_r_L, difference_difference_l_L.
Qed.

(** Removing distinct members leaves something exactly when one is left. *)
Lemma length_diff_pos {A} `{EqDecision A} (l1 l2 : list A) :
  NoDup l1 → NoDup l2 → l2 ⊆ l1 →
  0 < length l1 - length l2 ↔ ∃ a, a ∈ l1 ∧ a ∉ l2.
Proof.
  intros H1 H2 Hsub. assert (l2 ⊆+ l1) as Hs by (by apply NoDup_submseteq).
  pose proof (submseteq_length _ _ Hs) as Hle. split.
  - intros Hpos. destruct (decide (Forall (.∈ l2) l1)) as [Hall|Hn].
    + rewrite Forall_forall in Hall.
      assert (l1 ⊆+ l2) as Hs' by (by apply NoDup_submseteq).
      apply submseteq_length in Hs'. lia.
    + apply not_Forall_Exists in Hn; [|apply _]. apply Exists_exists in Hn as (a & Ha & Hna). eauto.
  - intros (a & Ha & Hna). destruct (decide (length l1 - length l2 = 0)); [|lia]. exfalso.
    assert (l2 ≡ₚ l1) as Hp by (apply submseteq_length_Permutation; [done|lia]).
    by rewrite Hp in Hna.
Qed.

Lemma ids_filter_NoDup (f : event → bool) l : NoDup (map ev_id l) → NoDup (map ev_id (List.filter f l)).
Proof.
  induction l as [|e l IH]; simpl; [done|]. intros [Hn Hd]%NoDup_cons.
  destruct (f e); simpl; [|auto]. apply NoDup_cons. split; [|auto].
  intros (x & [Hx _]%filter_elem & E)%map_elem. apply Hn. apply map_elem. eauto.
Qed.

Lemma same_id_same_event l e e' :
  NoDup (map ev_id l) → e ∈ l → e' ∈ l → ev_id e = ev_id e' → e = e'.
Proof.
  intros Hnd [i Hi]%list_elem_of_lookup [j Hj]%list_elem_of_lookup E.
  assert (i = j) as ->; [|congruence].
  eapply (NoDup_lookup (map ev_id l)); [done|..]; rewrite list_lookup_fmap;
    [by rewrite Hi|by rewrite Hj; simpl; rewrite E].
Qed.

(** The retry phase re-reports as flaky some tests that failed, once each. *)
Record retried (l : list event) (fl : list (TestItem * OutcomeKind.t * string * f64)) : Prop := {
  rt_main : Forall (λ e, not_flaky (ev_outcome e) = true) l;
  rt_ids : NoDup (map ev_id l);
  rt_fl_ids : NoDup (map fl_id fl);
  rt_failed f : f ∈ fl → OutcomeKind.is_retryable_failure (fl_kind f) = true ∧
    ∃ e, e ∈ l ∧ ev_id e = fl_id f ∧ TestOutcome.kind (ev_outcome e) = fl_kind f
}.

(** A failure of kind [k] is left exactly when one was not retried to success. *)
Lemma kind_left l fl k :
  retried l fl →
  0 < length (of_kind k l) - length (fl_of_kind k fl) ↔
  ∃ e, e ∈ l ∧ TestOutcome.kind (ev_outcome e) = k ∧ ev_id e ∉ map fl_id fl.
Proof.
  intros [_ Hids Hfids Hf].
  rewrite <-(length_map ev_id (of_kind k l)), <-(length_map fl_id (fl_of_kind k fl)).
  rewrite length_diff_pos.
  - split.
    + intros (a & (e & [He Hk]%filter_elem & <-)%map_elem & Hn). breflect.
      exists e. split_and!; [done..|]. intros (f & Hfin & E)%map_elem. apply Hn.
      apply map_elem. exists f. split; [|done]. apply filter_elem. split; [done|].
      apply bool_decide_eq_true. destruct (Hf f Hfin) as (_ & e' & He' & Ei & Ek).
      assert (e = e') as <- by (eapply same_id_same_event; [done..|congruence]). congruence.
    + intros (e & He & Hk & Hn). exists (ev_id e). split.
      * apply map_elem. exists e. split; [|done]. apply filter_elem. by rewrite bool_decide_eq_true.
      * intros (f & [Hfin _]%filter_elem & E)%map_elem. apply Hn. apply map_elem. eauto.
  - by apply ids_filter_NoDup.
  - clear -Hfids. induction fl as [|f fl IH]; simpl; [constructor|].
    apply NoDup_cons in Hfids as [Hn Hd]. unfold fl_of_kind. simpl.
    destruct (bool_decide (fl_kind f = k)); simpl; [|by apply IH]. apply NoDup_cons.
    split; [|by apply IH]. intros (x & [Hx _]%filter_elem & E)%map_elem. apply Hn. apply map_elem. eauto.
  - intros a (f & [Hfin Hk]%filter_elem & <-)%map_elem. breflect.
    destruct (Hf f Hfin) as (_ & e & He & Ei & Ek). apply map_elem. exists e.
    split; [|done]. apply filter_elem. split; [done|]. apply bool_decide_eq_true. congruence.
Qed.

(** The events whose result stands after the retries. *)
Definition standing (l : list event) (fl : list (TestItem * OutcomeKind.t * string * f64)) : list event :=
  List.filter (λ e, negb (bool_decide (ev_id e ∈ map fl_id fl))) l.

Lemma standing_elem l fl e : e ∈ standing l fl ↔ e ∈ l ∧ ev_id e ∉ map fl_id fl.
Proof. unfold standing. by rewrite filter_elem, negb_true_iff, bool_decide_eq_false. Qed.

Lemma hard_left n l fl :
  retried l fl →
  let s := stats (run_session n (l ++ flaky_events fl)) in
  (0 <? OutcomeCounters.get (counts s) OutcomeKind.Failed)
  || (0 <? OutcomeCounters.get (counts s) OutcomeKind.Error) || (0 <? xpassed_strict s)
  || (0 <? OutcomeCounters.get (counts s) OutcomeKind.Timeout) =
  existsb (λ e, TestOutcome.is_hard_failure (ev_outcome e)) (standing l fl).
Proof.
  intros Hr s. pose proof Hr as [Hmain Hids _ Hf].
  assert (Hret : Forall (λ f, OutcomeKind.is_retryable_failure (fl_kind f) = true) fl).
  { apply Forall_forall. intros f Hfin. by apply Hf. }
  destruct (run_flaky n l fl OutcomeKind.Failed Hmain Hret eq_refl) as (_ & EF & _ & EX & _).
  destruct (run_flaky n l fl OutcomeKind.Error Hmain Hret eq_refl) as (_ & EE & _).
  destruct (run_flaky n l fl OutcomeKind.Timeout Hmain Hret eq_refl) as (_ & ET & _).
  fold s in EF, EE, ET, EX. rewrite EF, EE, ET, EX.
  apply eq_true_iff_eq. rewrite !orb_true_iff, !Nat.ltb_lt, !kind_left, existsb_elem by done.
  setoid_rewrite standing_elem. split.
  - intros [[[(e & He & Hk & Hn)|(e & He & Hk & Hn)]|Hx]|(e & He & Hk & Hn)].
    1,2,4: exists e; split; [done|]; by destruct (ev_outcome e).
    destruct (List.filter _ l) as [|e r] eqn:E; [simpl in Hx; lia|].
    assert (e ∈ List.filter (λ e, is_strict_xpass (ev_outcome e)) l) as [He Hs]%filter_elem
      by (rewrite E; left).
    exists e. destruct (ev_outcome e) as [| | | | | |[]| |] eqn:Eo; try done. split; [|done].
    split; [done|]. intros (f & Hfin & Ei)%map_elem. destruct (Hf f Hfin) as (Hrt & e' & He' & Ei' & Ek).
    assert (e = e') as <- by (eapply same_id_same_event; [done..|congruence]).
    rewrite Eo in Ek. simpl in Ek. by rewrite <-Ek in Hrt.
  - intros (e & [He Hn] & Hh). destruct (ev_outcome e) as [| | | | | |[]| |] eqn:Eo; try done.
    + left. left. left. exists e. by rewrite Eo.
    + left. left. right. exists e. by rewrite Eo.
    + left. right. destruct (List.filter _ l) as [|x r] eqn:E; [|simpl; lia].
      assert (e ∈ List.filter (λ e, is_strict_xpass (ev_outcome e)) l) as Hin
        by (apply filter_elem; by rewrite Eo).
      rewrite E in Hin. by apply elem_of_nil in Hin.
    + right. exists e. by rewrite Eo.
Qed.

Lemma exit_code_standing n l fl errs interrupted :
  retried l fl →
  let s := session_record_strict_suite (run_session n (l ++ flaky_events fl)) in
  compute_exit_code (stats s) errs interrupted =
  if existsb (λ e, is_usage (ev_outcome e)) (standing l fl) then ExitCode.UsageError
  else if 0 <? errs then ExitCode.CollectErr
  else if interrupted then ExitCode.Interrupted
  else if existsb (λ e, TestOutcome.is_hard_failure (ev_outcome e)) (standing l fl) || (0 <? n)
  then ExitCode.Failure
  else ExitCode.Success.
Proof.
  intros Hr s. pose proof Hr as [Hmain _ _ Hf].
  assert (Hret : Forall (λ f, OutcomeKind.is_retryable_failure (fl_kind f) = true) fl).
  { apply Forall_forall. intros f Hfin. by apply Hf. }
  destruct (run_flaky n l fl OutcomeKind.Failed Hmain Hret eq_refl) as (_ & _ & EU & _ & ES).
  assert (Hcount : ∀ l0, strict_suite_count (run_session n l0) = n).
  { induction l0 as [|e l0 IH] using rev_ind; [done|]. unfold run_session in *.
    by rewrite fold_left_app. }
  unfold compute_exit_code. unfold s. simpl. rewrite EU, ES, Hcount, (hard_left n l fl Hr). simpl.
  assert (negb (bool_decide (usage_ids l ∖ list_to_set (map fl_id fl) = ∅)) =
    existsb (λ e, is_usage (ev_outcome e)) (standing l fl)) as ->; [|done].
  apply eq_true_iff_eq. rewrite negb_true_iff, bool_decide_eq_false, existsb_elem.
  setoid_rewrite standing_elem. split.
  - intros (id & Hid)%set_choose_L. apply elem_of_difference in Hid as [Hin Hn].
    unfold usage_ids in Hin. rewrite elem_of_list_to_set in Hin, Hn.
    apply map_elem in Hin as (e & [He Hu]%filter_elem & <-). eauto.
  - intros (e & [He Hn] & Hu) E.
    assert (ev_id e ∈ usage_ids l ∖ list_to_set (map fl_id fl)) as Hin.
    { apply elem_of_difference. rewrite elem_of_list_to_set. split; [|done].
      unfold usage_ids. rewrite elem_of_list_to_set. apply map_elem. exists e.
      by rewrite filter_elem. }
    rewrite E in Hin. by apply elem_of_empty in Hin.
Qed.

(** C4: The exit code of a run with retries is decided by the results that
    stand, those of the tests not re-reported as flaky: 4 if one of them is a
    usage error, else 3 on collection errors, else 2 when interrupted, else 1
    if one of them is a hard failure or the suite has strict violations, else
    0. *)
Theorem exit_code_after_retries n l fl errs interrupted :
  retried l fl →
  let s := session_record_strict_suite (run_session n (l ++ flaky_events fl)) in
  compute_exit_code (stats s) errs interrupted =
  if existsb (λ e, is_usage (ev_outcome e)) (standing l fl) then ExitCode.UsageError
  else if 0 <? errs then ExitCode.CollectErr
  else if interrupted then ExitCode.Interrupted
  else if existsb (λ e, TestOutcome.is_hard_failure (ev_outcome e)) (standing l fl) || (0 <? n)
  then ExitCode.Failure
  else ExitCode.Success.
Proof. apply exit_code_standing. Qed.

Definition demo_ev (id : string) (o : TestOutcome.t) : event :=
  ({| node_id := id; fn_name := id; lineno := 1; markers := MarkerSet.new; param_id := None;
      param_values := []; is_async := false; fixture_deps := []; fixref_deps := [];
      arranged := [] |}, o, f64_zero).

Lemma exit_code_after_retries_witness :
  compute_exit_code (stats (session_record_strict_suite (run_session 0
    ([demo_ev "a" (TestOutcome.Failed (diagnostic_sentinel "x")); demo_ev "b" (TestOutcome.Passed None)]
     ++ flaky_events [((demo_ev "a" (TestOutcome.Passed None)).1.1, OutcomeKind.Failed, "m", f64_zero)]))))
    0 false = ExitCode.Success.
Proof.
  rewrite (exit_code_after_retries 0
    [demo_ev "a" (TestOutcome.Failed (diagnostic_sentinel "x")); demo_ev "b" (TestOutcome.Passed None)]
    [((demo_ev "a" (TestOutcome.Passed None)).1.1, OutcomeKind.Failed, "m", f64_zero)] 0 false).
  - vm_compute. reflexivity.
  - split.
    + repeat constructor.
    + apply (bool_decide_unpack _). vm_compute. exact I.
    + apply (bool_decide_unpack _). vm_compute. exact I.
    + intros f Hf. apply list_elem_of_singleton in Hf as ->. split; [reflexivity|].
      exists (demo_ev "a" (TestOutcome.Failed (diagnostic_sentinel "x"))).
      split; [left|split; reflexivity].
Defined.

(** ** Votes *)

Lemma max_by_code_spec a b :
  (ExitCode.as_i32 a ≤ ExitCode.as_i32 (max_by_code a b))%Z ∧
  (ExitCode.as_i32 b ≤ ExitCode.as_i32 (max_by_code a b))%Z ∧
  (max_by_code a b = a ∨ max_by_code a b = b).
Proof. unfold max_by_code. destruct (Z.leb_spec (ExitCode.as_i32 a) (ExitCode.as_i32 b)); split_and!; auto; lia. Qed.

Lemma max_code_spec l c :
  max_code l = Some c →
  c ∈ l ∧ ∀ c', c' ∈ l → (ExitCode.as_i32 c' ≤ ExitCode.as_i32 c)%Z.
Proof.
  destruct l as [|c0 l]; [done|]. simpl. intros [= <-]. revert c0.
  induction l as [|c1 l IH]; intros c0; simpl.
  { split; [left|]. intros c' ->%list_elem_of_singleton. lia. }
  destruct (IH (max_by_code c0 c1)) as [Hin Hmax].
  destruct (max_by_code_spec c0 c1) as (H0 & H1 & Hor). split.
  - apply elem_of_cons in Hin as [->|Hin]; [|set_solver]. destruct Hor as [->| ->]; set_solver.
  - intros c' [->|[->|Hc']%elem_of_cons]%elem_of_cons.
    + specialize (Hmax (max_by_code c0 c1) ltac:(left)). lia.
    + specialize (Hmax (max_by_code c0 c1) ltac:(left)). lia.
    + apply Hmax. by right.
Qed.

Lemma cast_codes_elem votes c : c ∈ cast_codes votes ↔ Code c ∈ votes.
Proof.
  unfold cast_codes. rewrite flat_map_elem. split.
  - intros ([|c'] & Hv & Hc); [by apply elem_of_nil in Hc|].
    by apply list_elem_of_singleton in Hc as ->.
  - intros H. exists (Code c). split; [done|left].
Qed.

(** The composite reporter exits with the most severe code any of its
    reporters votes, by numeric value and not by declaration order, so that a
    reporter can raise the code of a run and never lower it; with the console
    reporter among them the code is at least that of the statistics, suite
    violations included. *)
Theorem composite_exit_is_max_vote reporters session errs interrupted :
  let '(vote, session') := composite_finish reporters session errs interrupted in
  let votes := map (λ r, r errs interrupted session') reporters in
  stats session' = record_strict_suite (stats session) (strict_suite_count session) ∧
  (∀ c, Code c ∈ votes → (ExitCode.as_i32 c ≤ ExitCode.as_i32 (vote_code vote))%Z) ∧
  (vote ∈ votes ∨ vote = Code ExitCode.Success ∧ ∀ v, v ∈ votes → v = Abstain) ∧
  (standard_finish ∈ reporters →
     (ExitCode.as_i32 (compute_exit_code (stats session') (length errs) interrupted)
        ≤ ExitCode.as_i32 (vote_code vote))%Z).
Proof.
  unfold composite_finish. set (session' := session_record_strict_suite session).
  set (votes := map (λ r : reporter, r errs interrupted session') reporters).
  assert (Hmax : ∀ c, Code c ∈ votes → (ExitCode.as_i32 c ≤ ExitCode.as_i32 (vote_code
    (match max_code (cast_codes votes) with Some c => Code c | None => Code ExitCode.Success end)))%Z).
  { intros c Hc%cast_codes_elem. destruct (max_code (cast_codes votes)) as [m|] eqn:E.
    - by apply (max_code_spec _ _ E).
    - destruct (cast_codes votes); [by apply elem_of_nil in Hc|done]. }
  split_and!; [done|exact Hmax| |].
  - destruct (max_code (cast_codes votes)) as [m|] eqn:E.
    + left. by apply cast_codes_elem, (max_code_spec _ _ E).
    + right. split; [done|]. intros [|c] Hv; [done|]. apply cast_codes_elem in Hv.
      destruct (cast_codes votes); [by apply elem_of_nil in Hv|done].
  - intros Hin. apply Hmax. apply map_elem. exists standard_finish. done.
Qed.

(** A strict abort never exits below 3, and exits 4 when one of the
    requested artifacts could not be written. *)
Theorem strict_abort_at_least_collect_error json junit :
  (3 ≤ ExitCode.as_i32 (strict_abort_code json junit))%Z ∧
  (json = Some (Code ExitCode.UsageError) ∨ junit = Some (Code ExitCode.UsageError) →
     strict_abort_code json junit = ExitCode.UsageError) ∧
  strict_abort_code (Some Abstain) (Some Abstain) = ExitCode.CollectErr.
Proof.
  split_and!; [..|done].
  - destruct json as [[|[]]|], junit as [[|[]]|]; vm_compute; congruence.
  - intros [->| ->]; [destruct junit as [[|[]]|]|destruct json as [[|[]]|]]; done.
Qed.
