(* ===== verification/Artifacts.v ===== *)
(** * Artifacts: the JSON and JUnit reports

    [reporter/json.rs] and [reporter/junit.rs]: what the two artifact reporters
    accumulate and the documents they write.  The JSON document is the record
    given to [serde_json]; the XML document is the sequence of events given to
    [quick_xml], whose escaping of markup characters is its own. *)
From Stdlib Require Import Ascii.
From stdpp Require Import pretty.
From S2P Require Import Prelude Collections Text F64 Types Report.

(** ** CTRF ([reporter/json.rs]) *)

Record CtrfTest := mk_ctrf {
  ct_name : string;
  ct_status : string;
  ct_duration : f64;
  ct_message : option string
}.

Record CtrfSummary := mk_ctrf_summary {
  cs_tests : nat;
  cs_passed : nat;
  cs_failed : nat;
  cs_skipped : nat;
  cs_other : nat
}.

Record CtrfOutput := mk_ctrf_output {
  co_tool : string;
  co_summary : CtrfSummary;
  co_tests : list CtrfTest
}.

Definition collect_error_name (e : CollectError) : string :=
  match e with
  | ImportError path _ => path
  | PyError _ | AffectedErr _ => "<collection>"
  end.

(** The state of a [JsonReporter] is its vector of entries. *)
Definition record_run_failure (tests : list CtrfTest) (name message : string) : list CtrfTest :=
  tests ++ [mk_ctrf name "failed" f64_zero (Some message)].

Definition json_test_completed (tests : list CtrfTest) (e : event) : list CtrfTest :=
  tests ++ [mk_ctrf (node_id e.1.1) (ctrf_status e.1.2) e.2 (TestOutcome.message e.1.2)].

Definition has_status (status : string) (t : CtrfTest) : bool := String.eqb (ct_status t) status.

Definition count_status (status : string) (tests : list CtrfTest) : nat :=
  length (List.filter (has_status status) tests).

Definition name_cmp (a b : CtrfTest) : comparison := String.compare (ct_name a) (ct_name b).

(** The document [finish] writes, and its vote; [written] tells whether the
    document could be serialised and written. *)
Definition json_finish (written : bool) (tests : list CtrfTest) (collect_errors : list CollectError)
    : CtrfOutput * ExitVote :=
  let tests := fold_left (λ ts e, record_run_failure ts (collect_error_name e) (show_collect_error e))
                 collect_errors tests in
  (mk_ctrf_output "oxitest"
     (mk_ctrf_summary (length tests) (count_status "passed" tests) (count_status "failed" tests)
        (count_status "skipped" tests) 0)
     (sort_by name_cmp tests),
   if written then Abstain else Code ExitCode.UsageError).

(** ** JUnit ([reporter/junit.rs]) *)

Record JunitResult := mk_junit {
  jr_classname : string;
  jr_name : string;
  jr_time_secs : f64;
  jr_category : JunitCategory;
  jr_message : string
}.

Definition to_classname (module_path : string) : string :=
  join "." (split "/" (default module_path (strip_suffix ".py" module_path))).

Definition to_testname (item : TestItem) : string :=
  match param_id item with
  | Some pid => fn_name item +:+ "[" +:+ pid +:+ "]"
  | None => fn_name item
  end.

Definition split_identity (id : string) : string * string :=
  match NodeId.split_node_id_once id with
  | Some (module, rest) => (to_classname module, rest)
  | None => ("", id)
  end.

Definition record_strict_violation (results : list JunitResult) (id : option string) (message : string)
    : list JunitResult :=
  let '(classname, name) := match id with None => ("", "<strict>") | Some id => split_identity id end in
  results ++ [mk_junit classname name f64_zero JFailed message].

Definition record_collect_error (results : list JunitResult) (e : CollectError) : list JunitResult :=
  let classname := match e with
                   | ImportError path _ => to_classname path
                   | PyError _ | AffectedErr _ => ""
                   end in
  results ++ [mk_junit classname "<collection>" f64_zero JError (show_collect_error e)].

Definition junit_message (o : TestOutcome.t) : string :=
  match o with
  | TestOutcome.XPassed true => "expected failure but test passed (strict xfail)"
  | _ => default "" (TestOutcome.message o)
  end.

Definition junit_test_completed (results : list JunitResult) (e : event) : list JunitResult :=
  let '(item, outcome, duration_ms) := e in
  results ++ [mk_junit (to_classname (item_module_path item)) (to_testname item)
    (f64_div duration_ms (f64_of_Z 1000)) (junit_category outcome) (junit_message outcome)].

(** [LINE_BREAKS]; the characters looked for are ASCII, so bytes do. *)
Definition line_break (c : char) : bool := (c =? 10)%N || (c =? 13)%N.

Definition is_line_break (a : ascii) : bool := line_break (N_of_ascii a).

Fixpoint first_line (s : string) : string :=
  match s with
  | String a s' => if is_line_break a then "" else String a (first_line s')
  | EmptyString => ""
  end.

(** A C0 control character other than tab, newline and carriage return. *)
Definition forbidden (c : char) : bool :=
  (c <? 32)%N && negb ((c =? 9)%N || (c =? 10)%N || (c =? 13)%N).

Definition forbidden_byte (a : ascii) : bool := forbidden (N_of_ascii a).

Definition replacement : char := 65533.

Definition xml_safe (s : string) : string :=
  if existsb forbidden_byte (String.list_ascii_of_string s)
  then of_chars (map (λ c, if forbidden c then replacement else c) (chars s))
  else s.

Inductive xml_event :=
  | XDecl (version encoding : string)
  | XStart (tag : string) (attrs : list (string * string))
  | XEmpty (tag : string) (attrs : list (string * string))
  | XText (text : string)
  | XEnd (tag : string).

Definition write_child (tag : string) (message : option string) : list xml_event :=
  let text := default "" message in
  let attrs := match message with
               | Some value => [("message", xml_safe (first_line value))]
               | None => []
               end in
  if existsb is_line_break (String.list_ascii_of_string text)
  then [XStart tag attrs; XText (xml_safe text); XEnd tag]
  else [XEmpty tag attrs].

(** [{:.3}] of a float: to the nearest thousandth, ties to even. *)
Definition thousandths (m : positive) (e : Z) : Z :=
  let n := (Zpos m * 1000)%Z in
  if (0 <=? e)%Z then (n * 2 ^ e)%Z
  else
    let d := (2 ^ (- e))%Z in
    let q := (n / d)%Z in
    match ((2 * (n mod d)) ?= d)%Z with
    | Lt => q
    | Gt => q + 1
    | Eq => if Z.even q then q else q + 1
    end%Z.

Definition pad3 (n : Z) : string :=
  let s := pretty n in
  if (n <? 10)%Z then "00" +:+ s else if (n <? 100)%Z then "0" +:+ s else s.

Definition fixed3 (x : f64) : string :=
  let show n := pretty (n / 1000)%Z +:+ "." +:+ pad3 (n mod 1000)%Z in
  match x with
  | S754_nan => "NaN"
  | S754_infinity neg => if neg then "-inf" else "inf"
  | S754_zero neg => if neg then "-0.000" else "0.000"
  | S754_finite neg m e => (if neg then "-" else "") +:+ show (thousandths m e)
  end.

Definition child_of (r : JunitResult) : option (string * option string) :=
  match jr_category r with
  | JPassed => None
  | JFailed => Some ("failure", Some (jr_message r))
  | JError => Some ("error", Some (jr_message r))
  | JSkipped => Some ("skipped", if String.eqb (jr_message r) "" then None else Some (jr_message r))
  end.

Definition testcase (r : JunitResult) : list xml_event :=
  let attrs := [("classname", xml_safe (jr_classname r)); ("name", xml_safe (jr_name r));
                ("time", fixed3 (jr_time_secs r))] in
  match child_of r with
  | None => [XEmpty "testcase" attrs]
  | Some (tag, message) => XStart "testcase" attrs :: write_child tag message ++ [XEnd "testcase"]
  end.

Definition in_category (k : JunitCategory) (r : JunitResult) : bool :=
  match k, jr_category r with
  | JPassed, JPassed | JFailed, JFailed | JError, JError | JSkipped, JSkipped => true
  | _, _ => false
  end.

Definition count_category (k : JunitCategory) (results : list JunitResult) : nat :=
  length (List.filter (in_category k) results).

(** [elapsed] is the wall-clock time since the reporter was made. *)
Definition write_xml (elapsed : f64) (results : list JunitResult) : list xml_event :=
  let total := ("tests", pretty (length results)) in
  let failures := ("failures", pretty (count_category JFailed results)) in
  let errors := ("errors", pretty (count_category JError results)) in
  let skipped := ("skipped", pretty (count_category JSkipped results)) in
  let time := ("time", fixed3 elapsed) in
  XDecl "1.0" "UTF-8"
    :: XStart "testsuites" [total; failures; errors; time]
    :: XStart "testsuite" [("name", "oxitest"); total; failures; errors; skipped; time]
    :: flat_map testcase results ++ [XEnd "testsuite"; XEnd "testsuites"].

Definition junit_finish (written : bool) (elapsed : f64) (results : list JunitResult)
    (collect_errors : list CollectError) : list xml_event * ExitVote :=
  (write_xml elapsed (fold_left record_collect_error collect_errors results),
   if written then Abstain else Code ExitCode.UsageError).

(** * Theorems *)

(** ** Counts *)

Definition ctrf_of (e : event) : CtrfTest :=
  mk_ctrf (ev_id e) (ctrf_status (ev_outcome e)) e.2 (TestOutcome.message (ev_outcome e)).

Definition ctrf_error (e : CollectError) : CtrfTest :=
  mk_ctrf (collect_error_name e) "failed" f64_zero (Some (show_collect_error e)).

Definition junit_of (e : event) : JunitResult :=
  mk_junit (to_classname (item_module_path e.1.1)) (to_testname e.1.1) (f64_div e.2 (f64_of_Z 1000))
    (junit_category (ev_outcome e)) (junit_message (ev_outcome e)).

Definition junit_error (e : CollectError) : JunitResult :=
  mk_junit (match e with ImportError path _ => to_classname path | _ => "" end) "<collection>" f64_zero
    JError (show_collect_error e).

Lemma fold_push {A B} (f : list B → A → list B) (g : A → B) l acc :
  (∀ acc x, f acc x = acc ++ [g x]) → fold_left f l acc = acc ++ map g l.
Proof.
  intros Hf. revert acc. induction l as [|x l IH]; intros acc; simpl; [by rewrite app_nil_r|].
  by rewrite IH, Hf, <-app_assoc.
Qed.

Lemma json_entries l errs :
  fold_left (λ ts e, record_run_failure ts (collect_error_name e) (show_collect_error e)) errs
    (fold_left json_test_completed l []) = map ctrf_of l ++ map ctrf_error errs.
Proof. rewrite (fold_push _ ctrf_error), (fold_push _ ctrf_of) by done. done. Qed.

Lemma junit_entries l errs :
  fold_left record_collect_error errs (fold_left junit_test_completed l []) =
    map junit_of l ++ map junit_error errs.
Proof.
  rewrite (fold_push _ junit_error), (fold_push _ junit_of); [done|by intros acc [[]]|].
  by intros acc [].
Qed.

Lemma count_map {A B} (f : A → B) (p : B → bool) l :
  length (List.filter p (map f l)) = length (List.filter (λ x, p (f x)) l).
Proof. induction l as [|x l IH]; simpl; [done|]. by destruct (p (f x)); simpl; rewrite IH. Qed.

Lemma count_all {A} (p : A → bool) l : (∀ x, p x = true) → length (List.filter p l) = length l.
Proof. intros H. by rewrite filter_all. Qed.

Lemma count_never {A} (p : A → bool) l : (∀ x, p x = false) → length (List.filter p l) = 0.
Proof. intros H. by rewrite filter_none. Qed.

Lemma count_two {A} (p q r : A → bool) l :
  (∀ x, p x = q x || r x) → (∀ x, q x && r x = false) →
  length (List.filter p l) = length (List.filter q l) + length (List.filter r l).
Proof.
  intros Hp Hq. induction l as [|x l IH]; simpl; [done|]. specialize (Hp x). specialize (Hq x).
  destruct (q x), (r x); simpl in *; rewrite Hp; simpl; try done; lia.
Qed.

Definition hard_count (l : list event) : nat :=
  length (List.filter (λ e, TestOutcome.is_hard_failure (ev_outcome e)) l).

(** The counters of both documents in terms of the run. *)
Lemma json_summary l errs written :
  let s := co_summary (json_finish written (fold_left json_test_completed l []) errs).1 in
  cs_tests s = length l + length errs ∧
  cs_failed s = hard_count l + length errs ∧
  cs_passed s = length (List.filter (λ e, String.eqb (ctrf_status (ev_outcome e)) "passed") l) ∧
  cs_skipped s = length (List.filter (λ e, String.eqb (ctrf_status (ev_outcome e)) "skipped") l).
Proof.
  unfold json_finish. rewrite json_entries. simpl. unfold count_status.
  rewrite length_app, !List.length_map, !List.filter_app, !length_app, !count_map. split_and!; [done|..].
  - f_equal; [|by apply count_all]. unfold hard_count. f_equal. apply List.filter_ext. intros e.
    unfold has_status. simpl. by destruct (ev_outcome e) as [| | | | | |[]| |].
  - rewrite (count_never (λ e, has_status "passed" (ctrf_error e))) by done. by rewrite Nat.add_0_r.
  - rewrite (count_never (λ e, has_status "skipped" (ctrf_error e))) by done. by rewrite Nat.add_0_r.
Qed.

Lemma junit_counts l errs :
  let r := fold_left record_collect_error errs (fold_left junit_test_completed l []) in
  length r = length l + length errs ∧
  count_category JFailed r + count_category JError r = hard_count l + length errs ∧
  count_category JPassed r =
    length (List.filter (λ e, String.eqb (ctrf_status (ev_outcome e)) "passed") l) ∧
  count_category JSkipped r =
    length (List.filter (λ e, String.eqb (ctrf_status (ev_outcome e)) "skipped") l).
Proof.
  rewrite junit_entries. unfold count_category.
  rewrite length_app, !List.length_map, !List.filter_app, !length_app, !count_map. split_and!; [done|..].
  - rewrite (count_never (λ e, in_category JFailed (junit_error e))) by done.
    rewrite (count_all (λ e, in_category JError (junit_error e))) by done. unfold hard_count.
    rewrite (count_two (λ e, TestOutcome.is_hard_failure (ev_outcome e))
      (λ e, in_category JFailed (junit_of e)) (λ e, in_category JError (junit_of e)) l).
    + lia.
    + intros e. unfold in_category. simpl. by destruct (ev_outcome e) as [| | | | | |[]| |].
    + intros e. unfold in_category. simpl. by destruct (junit_category _).
  - rewrite (count_never (λ e, in_category JPassed (junit_error e))) by done. rewrite Nat.add_0_r.
    f_equal. apply List.filter_ext. intros e. unfold in_category. simpl.
    by destruct (ev_outcome e) as [| | | | | |[]| |].
  - rewrite (count_never (λ e, in_category JSkipped (junit_error e))) by done. rewrite Nat.add_0_r.
    f_equal. apply List.filter_ext. intros e. unfold in_category. simpl.
    by destruct (ev_outcome e) as [| | | | | |[]| |].
Qed.

(** ** The two documents *)

Lemma string_compare_trans a b c :
  String.compare a b ≠ Gt → String.compare b c ≠ Gt → String.compare a c ≠ Gt.
Proof.
  revert b c. induction a as [|x a IH]; intros [|y b] [|z c]; simpl; try done.
  unfold Ascii.compare. destruct (N.compare_spec (N_of_ascii x) (N_of_ascii y)) as [E|E|E];
    destruct (N.compare_spec (N_of_ascii y) (N_of_ascii z)) as [E'|E'|E']; try done;
    destruct (N.compare_spec (N_of_ascii x) (N_of_ascii z)) as [E''|E''|E'']; try done; try lia.
  apply IH.
Qed.

#[export] Instance name_cmp_laws : CmpLaws name_cmp (λ _, True).
Proof.
  split.
  - intros x y _ _. apply String.compare_antisym.
  - intros x y z _ _ _. apply string_compare_trans.
Qed.

(** The JSON and the JUnit document of a run tell the same story: each test and
    each collection error is one entry of both, both count as failed the hard
    failures and the errors, so a run with one is never shown as clean, and the
    JSON entries are those of the run, ordered by name. *)
Theorem artifacts_agree l errs written :
  let json := (json_finish written (fold_left json_test_completed l []) errs).1 in
  let s := co_summary json in
  let junit := fold_left record_collect_error errs (fold_left junit_test_completed l []) in
  cs_tests s = length l + length errs ∧ length junit = cs_tests s ∧
  cs_failed s = hard_count l + length errs ∧
  count_category JFailed junit + count_category JError junit = cs_failed s ∧
  count_category JPassed junit = cs_passed s ∧ count_category JSkipped junit = cs_skipped s ∧
  cs_passed s + cs_failed s + cs_skipped s = cs_tests s ∧
  co_tests json ≡ₚ map ctrf_of l ++ map ctrf_error errs ∧
  StronglySorted (cmp_le name_cmp) (co_tests json).
Proof.
  intros json s junit. destruct (json_summary l errs written) as (H1 & H2 & H3 & H4).
  destruct (junit_counts l errs) as (J1 & J2 & J3 & J4). fold junit in J1, J2, J3, J4.
  fold json in H1, H2, H3, H4. fold s in H1, H2, H3, H4.
  assert (length l = length (List.filter (λ e, String.eqb (ctrf_status (ev_outcome e)) "passed") l)
    + hard_count l + length (List.filter (λ e, String.eqb (ctrf_status (ev_outcome e)) "skipped") l)) as Hl.
  { unfold hard_count. clear. induction l as [|e l IH]; simpl; [done|].
    destruct (ev_outcome e) as [| | | | | |[]| |]; simpl; lia. }
  split_and!; try lia.
  - subst json. unfold json_finish. rewrite json_entries. simpl. apply sort_by_perm.
  - subst json. unfold json_finish. simpl. apply (sort_by_sorted _ (λ _, True)). by apply Forall_true.
Qed.

Lemma retried_failures l fl :
  retried l fl → hard_count l = hard_count (standing l fl) + length fl.
Proof.
  intros [_ Hids Hfids Hf]. unfold hard_count, standing. rewrite filter_filter.
  set (hard e := TestOutcome.is_hard_failure (ev_outcome e)).
  set (flaky e := bool_decide (ev_id e ∈ map fl_id fl)).
  rewrite (count_two hard (λ e, negb (flaky e) && hard e) (λ e, flaky e && hard e));
    [|intros e; by destruct (flaky e), (hard e)..].
  f_equal. rewrite <-(List.length_map fl_id fl), <-(List.length_map ev_id (List.filter _ l)).
  apply Permutation_length, NoDup_Permutation; [by apply ids_filter_NoDup|done|].
  intros id. rewrite map_elem. split.
  - intros (e & [_ [He%bool_decide_eq_true _]%andb_true_iff]%filter_elem & <-). done.
  - intros Hid. pose proof Hid as (f & Hfin & <-)%map_elem. destruct (Hf f Hfin) as (Hret & e & He & Ei & Ek).
    exists e. split; [|done]. apply filter_elem. split; [done|]. apply andb_true_iff. split.
    + apply bool_decide_eq_true. by rewrite Ei.
    + unfold hard. rewrite <-Ek in Hret. by destruct (ev_outcome e) as [| | | | | |[]| |].
Qed.

(** C19: A test that passes on retry stays failed in both documents: its first entry
    is kept and the flaky one is added, so [summary.tests] counts it twice and
    [summary.failed] still counts it, although the exit code of the run is that
    of the failures that stand. *)
Theorem flaky_tests_stay_failed_in_artifacts l fl written :
  retried l fl →
  let events := l ++ flaky_events fl in
  let s := co_summary (json_finish written (fold_left json_test_completed events []) []).1 in
  let junit := fold_left junit_test_completed events [] in
  cs_tests s = length l + length fl ∧ cs_failed s = hard_count l ∧
  length junit = length l + length fl ∧
  count_category JFailed junit + count_category JError junit = hard_count l ∧
  hard_count l = hard_count (standing l fl) + length fl.
Proof.
  intros Hr events s junit.
  destruct (json_summary events [] written) as (H1 & H2 & _).
  destruct (junit_counts events []) as (J1 & J2 & _). simpl in J1, J2. fold junit in J1, J2.
  fold s in H1, H2.
  assert (hard_count events = hard_count l) as Hh.
  { unfold hard_count, events. rewrite List.filter_app, length_app.
    rewrite (filter_none _ (flaky_events fl)); [simpl; lia|].
    intros e He. unfold flaky_events in He. apply map_elem in He as (f & _ & <-).
    by destruct f as [[[]]]. }
  assert (length events = length l + length fl) as Hlen.
  { unfold events, flaky_events. by rewrite length_app, List.length_map. }
  simpl in *. split_and!; try lia. by apply retried_failures.
Qed.

(** ** The XML document *)

(** Strings of the program are UTF-8. *)
Definition utf8 (s : string) : Prop := ∃ l, Forall (λ c, c < 1114112)%N l ∧ s = of_chars l.

(** No byte XML 1.0 refuses as a control character. *)
Definition clean (s : string) : Prop := existsb forbidden_byte (String.list_ascii_of_string s) = false.

Lemma clean_app a b : clean (a +:+ b) ↔ clean a ∧ clean b.
Proof. unfold clean. by rewrite list_ascii_app, existsb_app, orb_false_iff. Qed.

(** The bytes of a character are those of an ASCII character, or all high. *)
Lemma encode_cases c :
  (c < 1114112)%N →
  (c < 128)%N ∧ encode_utf8 c = String (byte c) "" ∨
  (128 ≤ c)%N ∧ Forall (λ a, 128 ≤ N_of_ascii a)%N (String.list_ascii_of_string (encode_utf8 c)).
Proof.
  intros Hc. unfold encode_utf8.
  assert (∀ n, (n mod 64 < 64)%N) as Hm by (intros n; by apply N.mod_upper_bound).
  pose proof (N.Div0.div_lt_upper_bound c 64 32) as D1.
  pose proof (N.Div0.div_lt_upper_bound c 4096 16) as D2.
  pose proof (N.Div0.div_lt_upper_bound c 262144 5) as D3.
  pose proof (Hm c). pose proof (Hm (c / 64)%N). pose proof (Hm (c / 4096)%N).
  destruct (N.ltb_spec c 128); [by left|right; split; [done|]].
  destruct (N.ltb_spec c 2048); [|destruct (N.ltb_spec c 65536)]; simpl;
    repeat (apply Forall_cons; split); try apply Forall_nil_2; rewrite byte_val;
    try lia.
  all: eapply N.le_trans; [|apply N.le_add_r]; done.
Qed.

(** A class of ASCII characters the characters avoid is avoided by the bytes. *)
Lemma of_chars_avoid (bad : N → bool) l :
  (∀ n, (128 ≤ n)%N → bad n = false) →
  Forall (λ c, c < 1114112)%N l → Forall (λ c, bad c = false) l →
  existsb (λ a, bad (N_of_ascii a)) (String.list_ascii_of_string (of_chars l)) = false.
Proof.
  intros Hbad. induction 1 as [|c l Hc _ IH]; intros Hf; [done|]. apply Forall_cons in Hf as [Hf HF].
  simpl. rewrite list_ascii_app, existsb_app, (IH HF), orb_false_r.
  destruct (encode_cases c Hc) as [[Hl ->]|[_ Hh]].
  - simpl. rewrite byte_val by lia. by rewrite Hf.
  - apply existsb_false. intros a Ha. apply Hbad. rewrite Forall_forall in Hh. by apply Hh.
Qed.

Lemma forbidden_ascii n : (128 ≤ n)%N → forbidden n = false.
Proof. intros Hn. unfold forbidden. destruct (N.ltb_spec n 32); [lia|done]. Qed.

Lemma line_break_ascii n : (128 ≤ n)%N → line_break n = false.
Proof. intros Hn. unfold line_break. destruct (N.eqb_spec n 10), (N.eqb_spec n 13); try done; lia. Qed.

Lemma xml_safe_clean s : utf8 s → clean (xml_safe s).
Proof.
  intros (l & Hl & ->). unfold xml_safe.
  destruct (existsb _ _) eqn:E; [|done]. rewrite chars_of_chars by done.
  apply (of_chars_avoid forbidden); [apply forbidden_ascii|..]; apply Forall_map; [|apply Forall_true; intros c; simpl; by destruct (forbidden c) eqn:F].
  eapply Forall_impl; [exact Hl|]. intros c Hc. simpl. by destruct (forbidden c).
Qed.

Lemma pretty_go_clean x s : clean s → clean (pretty_N_go x s).
Proof.
  revert s. induction (N.lt_wf_0 x) as [x _ IH]. intros s Hs.
  destruct (decide (x = 0)%N) as [->|Hne]; [by rewrite pretty_N_go_0|].
  rewrite pretty_N_go_step by lia. apply IH; [apply N.div_lt; lia|].
  assert (x `mod` 10 < 10)%N as Hd by (by apply N.mod_upper_bound).
  unfold clean in *. cbn [String.list_ascii_of_string existsb]. rewrite Hs, orb_false_r.
  revert Hd. generalize (x `mod` 10)%N. intros d Hd.
  assert (d = 0 ∨ d = 1 ∨ d = 2 ∨ d = 3 ∨ d = 4 ∨ d = 5 ∨ d = 6 ∨ d = 7 ∨ d = 8 ∨ d = 9)%N as H by lia.
  destruct_or! H; subst; done.
Qed.

Lemma pretty_N_clean (n : N) : clean (pretty n).
Proof. unfold pretty, pretty_N. destruct (decide _); [done|]. by apply pretty_go_clean. Qed.

Lemma pretty_nat_clean (n : nat) : clean (pretty n).
Proof. apply pretty_N_clean. Qed.

Lemma pretty_Z_clean (n : Z) : clean (pretty n).
Proof.
  destruct n as [|p|p]; [done|apply (pretty_N_clean (Npos p))|].
  change (pretty (Zneg p)) with ("-" +:+ pretty (Npos p)). apply clean_app.
  split; [done|apply pretty_N_clean].
Qed.

Lemma fixed3_clean x : clean (fixed3 x).
Proof.
  destruct x as [[]|[]| |neg m e]; try done. unfold fixed3, pad3. cbv zeta.
  repeat (apply clean_app; split); try apply pretty_Z_clean; try done; [by destruct neg|].
  repeat destruct (_ <? _)%Z; try (apply clean_app; split; [done|]); apply pretty_Z_clean.
Qed.

(** ** Messages *)

Lemma first_line_high p s :
  Forall (λ a, 128 ≤ N_of_ascii a)%N (String.list_ascii_of_string p) →
  first_line (p +:+ s) = p +:+ first_line s.
Proof.
  induction p as [|a p IH]; [done|]. intros [Ha Hp]%Forall_cons. rewrite !str_app_cons. simpl.
  unfold is_line_break. by rewrite line_break_ascii, IH.
Qed.

Lemma first_line_chars l :
  Forall (λ c, c < 1114112)%N l →
  first_line (of_chars l) = of_chars (take_while (λ c, negb (line_break c)) l).
Proof.
  induction 1 as [|c l Hc _ IH]; [done|]. simpl. destruct (encode_cases c Hc) as [[Hl E]|[Hh HF]].
  - rewrite E, str_app_cons, str_app_nil_l. simpl. unfold is_line_break. rewrite byte_val by lia.
    destruct (line_break c) eqn:Eb; simpl; [done|].
    by rewrite E, str_app_cons, str_app_nil_l, IH.
  - rewrite first_line_high by done. rewrite line_break_ascii by done. simpl. by rewrite IH.
Qed.

Lemma take_while_forall {A} (f : A → bool) l (P : A → Prop) : Forall P l → Forall P (take_while f l).
Proof. induction 1; simpl; [done|]. destruct (f x); by constructor. Qed.

Lemma take_while_true {A} (f : A → bool) l : Forall (λ x, f x = true) (take_while f l).
Proof. induction l as [|x l IH]; simpl; [done|]. destruct (f x) eqn:E; by constructor. Qed.

Lemma first_line_utf8 s : utf8 s → utf8 (first_line s).
Proof. intros (l & Hl & ->). rewrite first_line_chars by done. eexists. split; [|done]. by apply take_while_forall. Qed.

(** What a reader of the document takes as the text of a child element. *)
Definition child_text (events : list xml_event) : option string :=
  match events with
  | [XStart _ _; XText body; XEnd _] => Some body
  | [XEmpty _ [("message", value)]] => Some value
  | _ => None
  end.

Lemma bytes_avoid (bad : N → bool) l :
  (∀ n, (128 ≤ n)%N → bad n = false) → Forall (λ c, c < 1114112)%N l →
  existsb (λ a, bad (N_of_ascii a)) (String.list_ascii_of_string (of_chars l)) = false →
  Forall (λ c, bad c = false) l.
Proof.
  intros Hbad. induction 1 as [|c l Hc _ IH]; [done|]. simpl.
  rewrite list_ascii_app, existsb_app, orb_false_iff. intros [He Hl]. constructor; [|auto].
  destruct (encode_cases c Hc) as [[Hlow E]|[Hh _]]; [|by apply Hbad].
  rewrite E in He. simpl in He. rewrite byte_val in He by lia. by apply orb_false_iff in He as [].
Qed.

(** The characters of a safe string: each refused one replaced, none moved. *)
Lemma xml_safe_chars l :
  Forall (λ c, c < 1114112)%N l →
  xml_safe (of_chars l) = of_chars (map (λ c, if forbidden c then replacement else c) l).
Proof.
  intros Hl. unfold xml_safe. destruct (existsb _ _) eqn:E; [by rewrite chars_of_chars|].
  apply (bytes_avoid forbidden) in E; [|apply forbidden_ascii|done]. f_equal.
  induction E as [|c l Hc E IH]; [done|]. apply Forall_cons in Hl as [_ Hl]. simpl.
  by rewrite Hc, <-IH.
Qed.

Lemma first_line_whole s : existsb is_line_break (String.list_ascii_of_string s) = false → first_line s = s.
Proof.
  induction s as [|a s IH]; [done|]. simpl. rewrite orb_false_iff. intros [-> Hs]. by rewrite IH.
Qed.

Lemma safe_first_line_one_line m :
  utf8 m → existsb is_line_break (String.list_ascii_of_string (xml_safe (first_line m))) = false.
Proof.
  intros (l & Hl & ->). rewrite first_line_chars by done.
  pose proof (take_while_forall (λ c, negb (line_break c)) l _ Hl) as Hl'.
  pose proof (take_while_true (λ c, negb (line_break c)) l) as Hb. revert Hl' Hb.
  generalize (take_while (λ c, negb (line_break c)) l). intros l' Hl' Hb.
  rewrite xml_safe_chars by done. apply (of_chars_avoid line_break); [apply line_break_ascii|..];
    apply Forall_map.
  - eapply Forall_impl; [exact Hl'|]. intros c Hc. simpl. by destruct (forbidden c).
  - eapply Forall_impl; [exact Hb|]. intros c Hc%negb_true_iff. simpl. by destruct (forbidden c).
Qed.

(** No text of a failure is lost: a reader that takes the body of the child
    element, or its attribute when there is no body, reads the whole message,
    with the control characters XML refuses replaced one for one; the attribute
    is one line, which a conforming parser leaves as it is. *)
Theorem junit_message_survives tag m :
  utf8 m →
  child_text (write_child tag (Some m)) = Some (xml_safe m) ∧
  chars (xml_safe m) = map (λ c, if forbidden c then replacement else c) (chars m) ∧
  existsb is_line_break (String.list_ascii_of_string (xml_safe (first_line m))) = false ∧
  ∃ rest, write_child tag (Some m) = XStart tag [("message", xml_safe (first_line m))] :: rest ∨
    write_child tag (Some m) = [XEmpty tag [("message", xml_safe (first_line m))]].
Proof.
  intros Hu. split_and!.
  - unfold write_child. simpl. destruct (existsb _ _) eqn:E; [done|]. by rewrite first_line_whole.
  - destruct Hu as (l & Hl & ->). rewrite xml_safe_chars, !chars_of_chars; try done.
    apply Forall_map. eapply Forall_impl; [exact Hl|]. intros c Hc. simpl. by destruct (forbidden c).
  - by apply safe_first_line_one_line.
  - unfold write_child. simpl. destruct (existsb _ _); eauto. Unshelve. exact [].
Qed.

(** ** Nesting *)

(** The open elements after the events, [None] when an end tag does not match. *)
Fixpoint nest (open : list string) (events : list xml_event) : option (list string) :=
  match events with
  | [] => Some open
  | XStart tag _ :: es => nest (tag :: open) es
  | XEnd tag :: es =>
      match open with
      | t :: open' => if String.eqb t tag then nest open' es else None
      | [] => None
      end
  | _ :: es => nest open es
  end.

Definition event_strings (e : xml_event) : list string :=
  match e with
  | XDecl v enc => [v; enc]
  | XStart _ attrs | XEmpty _ attrs => map snd attrs
  | XText t => [t]
  | XEnd _ => []
  end.

Lemma nest_app open a b : nest open (a ++ b) = nest open a ≫= λ o, nest o b.
Proof.
  revert open. induction a as [|e a IH]; intros open; [done|].
  destruct e; simpl; try apply IH. destruct open as [|t open]; [done|]. by destruct (String.eqb t tag).
Qed.

Lemma nest_child open tag m : nest open (write_child tag m) = Some open.
Proof. unfold write_child. destruct (existsb _ _); simpl; [|done]. by rewrite String.eqb_refl. Qed.

Lemma nest_testcases open results : nest open (flat_map testcase results) = Some open.
Proof.
  induction results as [|r results IH]; [done|]. simpl. rewrite nest_app.
  assert (nest open (testcase r) = Some open) as ->; [|exact IH].
  unfold testcase. destruct (child_of r) as [[tag m]|]; [|done]. simpl.
  by rewrite nest_app, nest_child.
Qed.

Definition result_utf8 (r : JunitResult) : Prop :=
  utf8 (jr_classname r) ∧ utf8 (jr_name r) ∧ utf8 (jr_message r).

Lemma testcase_clean r : result_utf8 r → Forall clean (flat_map event_strings (testcase r)).
Proof.
  intros (Hc & Hn & Hm). unfold testcase.
  assert (Forall clean (map snd [("classname", xml_safe (jr_classname r)); ("name", xml_safe (jr_name r));
    ("time", fixed3 (jr_time_secs r))])) as Ha.
  { repeat (constructor; [first [by apply xml_safe_clean|apply fixed3_clean]|]). constructor. }
  assert (∀ tag m, m = None ∨ m = Some (jr_message r) →
    Forall clean (flat_map event_strings (write_child tag m))) as Hw.
  { intros tag m Hcase. unfold write_child.
    destruct Hcase as [->| ->]; simpl; [constructor|].
    destruct (existsb is_line_break _); simpl; repeat constructor; apply xml_safe_clean; try done;
      by apply first_line_utf8. }
  unfold child_of. destruct (jr_category r); cbn [flat_map event_strings]; rewrite ?app_nil_r; try done;
    rewrite flat_map_app; apply Forall_app; (split; [done|]); apply Forall_app; (split; [|done]);
    apply Hw; try destruct (String.eqb _ _); auto.
Qed.

(** The document JUnit readers get is well formed whatever the tests printed:
    every tag is closed in order, and no control character XML refuses is in an
    attribute or a text. *)
Theorem junit_document_well_formed elapsed results errs written :
  Forall result_utf8 (fold_left record_collect_error errs results) →
  let doc := (junit_finish written elapsed results errs).1 in
  nest [] doc = Some [] ∧ Forall clean (flat_map event_strings doc).
Proof.
  unfold junit_finish. simpl. set (rs := fold_left _ errs results). intros HF. unfold write_xml. split.
  - cbn [nest]. by rewrite nest_app, nest_testcases.
  - cbn [flat_map event_strings map snd]. rewrite flat_map_app, flat_map_flat_map. cbn [flat_map event_strings].
    rewrite !app_nil_r. repeat (apply Forall_app; split);
      repeat (constructor; [first [done|apply pretty_nat_clean|apply fixed3_clean]|]); try constructor.
    apply Forall_flat_map. eapply Forall_impl; [exact HF|]. intros r. apply testcase_clean.
Qed.

(** ** Examples *)

Definition flaky_run : list event :=
  [demo_ev "t.py::a" (TestOutcome.Failed (diagnostic_sentinel "boom"));
   demo_ev "t.py::b" (TestOutcome.Passed None)].

Definition flaky_retries : list (TestItem * OutcomeKind.t * string * f64) :=
  [((demo_ev "t.py::a" (TestOutcome.Passed None)).1.1, OutcomeKind.Failed, "boom", f64_zero)].

Lemma flaky_tests_stay_failed_in_artifacts_witness :
  let s := co_summary (json_finish true
    (fold_left json_test_completed (flaky_run ++ flaky_events flaky_retries) []) []).1 in
  cs_tests s = 3 ∧ cs_failed s = 1 ∧
  compute_exit_code (stats (session_record_strict_suite
    (run_session 0 (flaky_run ++ flaky_events flaky_retries)))) 0 false = ExitCode.Success.
Proof.
  pose proof (flaky_tests_stay_failed_in_artifacts flaky_run flaky_retries true) as H.
  destruct H as (H1 & H2 & _).
  - split; [by repeat constructor|..].
    + apply NoDup_cons. split; [|apply NoDup_singleton]. intros H%list_elem_of_singleton. done.
    + apply NoDup_singleton.
    + intros f ->%list_elem_of_singleton. split; [done|].
      exists (demo_ev "t.py::a" (TestOutcome.Failed (diagnostic_sentinel "boom"))).
      split; [apply elem_of_cons; by left|done].
  - split; [exact H1|]. split; [exact H2|vm_compute; reflexivity].
Defined.

(** A message of two lines with an escape character. *)
Definition demo_message : string := of_chars [69; 58; 27; 91; 10; 120]%N.

Lemma demo_message_utf8 : utf8 demo_message.
Proof. eexists. split; [|reflexivity]. repeat (constructor; [done|]). constructor. Qed.

Lemma junit_message_survives_witness :
  child_text (write_child "failure" (Some demo_message)) =
    Some (of_chars [69; 58; 65533; 91; 10; 120]%N).
Proof.
  destruct (junit_message_survives "failure" demo_message demo_message_utf8) as [H _].
  rewrite H. vm_compute. reflexivity.
Defined.

Lemma junit_document_well_formed_witness :
  nest [] (junit_finish true f64_zero
    [mk_junit "a" "test_x" (f64_of_Z 2) JFailed demo_message] [PyError "boom"]).1 = Some [].
Proof.
  apply (junit_document_well_formed f64_zero [mk_junit "a" "test_x" (f64_of_Z 2) JFailed demo_message]
    [PyError "boom"] true).
  assert (∀ l, forallb (λ c, c <? 1114112)%N l = true → utf8 (of_chars l)) as Hu.
  { intros l Hl. exists l. split; [|done]. apply Forall_forall. intros c Hc.
    rewrite forallb_elem in Hl. by apply N.ltb_lt, Hl. }
  repeat constructor; try apply demo_message_utf8.
  - exact (Hu [97]%N eq_refl).
  - exact (Hu (chars "test_x") eq_refl).
  - exact (Hu [] eq_refl).
  - exact (Hu (chars "<collection>") eq_refl).
  - exact (Hu (chars "boom") eq_refl).
Defined.
