(* ===== verification/Retry.v ===== *)
(** * Retry: re-running failed tests ([src/retry.rs])

    [identify_failed_items], [run_retries], [merge_flaky_timings] and the
    [retry] transition of [src/pipeline/transitions/executed.rs].

    Running a test goes through Python ([execution::run_timed]); it is a
    parameter that takes and returns the state of that world, so two attempts
    of one test may differ.  The sleep between attempts has no effect on it. *)
From S2P Require Import Prelude F64 Types Report.

Definition add_failed (m : gmap string OutcomeKind.t) (t : TestTiming) : gmap string OutcomeKind.t :=
  if OutcomeKind.is_retryable_failure (tt_outcome t) then <[tt_node_id t := tt_outcome t]> m else m.

Definition failed_map (l : list TestTiming) : gmap string OutcomeKind.t := fold_left add_failed l ∅.

Definition identify_failed_items (items : list TestItem) (timings : list TestTiming)
    : list (TestItem * OutcomeKind.t) :=
  flat_map (λ i, match failed_map timings !! node_id i with
                 | Some kind => [(i, kind)]
                 | None => []
                 end) items.

Definition merge_flaky_timings (original : list TestTiming) (flaky_ids : list string)
    (retry_timings : list TestTiming) : list TestTiming :=
  List.filter (λ t, negb (bool_decide (tt_node_id t ∈ flaky_ids))) original ++ retry_timings.

Record RetryResult := mk_retry {
  rr_flaky_ids : list string;
  rr_retry_timings : list TestTiming;
  (** the [test_completed] calls, in order *)
  rr_reported : list event
}.

Section Run.
Context {world : Type} (run_timed : world → TestItem → TestOutcome.t * f64 * world).

Definition retry_message (attempt max_retries : nat) : string :=
  "passed on retry " +:+ TestOutcome.show_nat attempt +:+ " of " +:+ TestOutcome.show_nat max_retries.

(** The loop [for attempt in 1..=max_retries]: the first attempt that is not a
    hard failure, with its number and duration. *)
Fixpoint attempts (left attempt : nat) (w : world) (item : TestItem)
    : option (nat * f64) * world :=
  match left with
  | 0 => (None, w)
  | S left' =>
      let '(outcome, duration_ms, w') := run_timed w item in
      if TestOutcome.is_hard_failure outcome then attempts left' (S attempt) w' item
      else (Some (attempt, duration_ms), w')
  end.

Definition retry_one (max_retries : nat) (st : RetryResult * world)
    (failed : TestItem * OutcomeKind.t) : RetryResult * world :=
  let '(acc, w) := st in
  let '(item, original_kind) := failed in
  match attempts max_retries 1 w item with
  | (None, w') => (acc, w')
  | (Some (attempt, duration_ms), w') =>
      (mk_retry (rr_flaky_ids acc ++ [node_id item])
         (rr_retry_timings acc ++
            [{| tt_node_id := node_id item; tt_duration_ms := duration_ms;
                tt_outcome := OutcomeKind.Flaky |}])
         (rr_reported acc ++
            [(item, TestOutcome.Flaky (retry_message attempt max_retries) original_kind,
              duration_ms)]), w')
  end.

Definition run_retries (max_retries : nat) (w : world) (failed_items : list (TestItem * OutcomeKind.t))
    : RetryResult * world :=
  fold_left (retry_one max_retries) failed_items (mk_retry [] [] [], w).

(** The [retry] transition: the timings and the reporter's session after it. *)
Definition retry (max_retries : nat) (interrupted : bool) (items : list TestItem)
    (timings : list TestTiming) (session : ReporterSession) (w : world)
    : list TestTiming * ReporterSession * world :=
  if (max_retries =? 0) || interrupted then (timings, session, w)
  else
    match identify_failed_items items timings with
    | [] => (timings, session, w)
    | failed =>
        let '(r, w') := run_retries max_retries w failed in
        (merge_flaky_timings timings (rr_flaky_ids r) (rr_retry_timings r),
         fold_left complete (rr_reported r) session, w')
    end.

End Run.

(** * Theorems *)

(** ** Which tests are retried *)

Lemma failed_map_lookup l k kind :
  NoDup (map tt_node_id l) →
  failed_map l !! k = Some kind ↔
  ∃ t, t ∈ l ∧ tt_node_id t = k ∧ tt_outcome t = kind ∧ OutcomeKind.is_retryable_failure kind = true.
Proof.
  unfold failed_map. induction l as [|t l IH] using rev_ind; intros Hnd.
  { simpl. rewrite lookup_empty. split; [done|]. intros (? & ?%elem_of_nil & _). done. }
  rewrite map_app in Hnd. apply NoDup_app in Hnd as (Hl & Hdis & _).
  rewrite fold_left_app. simpl. unfold add_failed at 1.
  assert (Hold : ∀ k, k ≠ tt_node_id t →
    (∃ t0, t0 ∈ l ++ [t] ∧ tt_node_id t0 = k ∧ tt_outcome t0 = kind ∧
       OutcomeKind.is_retryable_failure kind = true) ↔
    (∃ t0, t0 ∈ l ∧ tt_node_id t0 = k ∧ tt_outcome t0 = kind ∧
       OutcomeKind.is_retryable_failure kind = true)).
  { intros k' Hk. split.
    - intros (t0 & [Ht0| ->%list_elem_of_singleton]%elem_of_app & E & Hr); [eauto|].
      by destruct Hk.
    - intros (t0 & Ht0 & Hr). exists t0. rewrite elem_of_app. eauto. }
  assert (Hnot : ∀ t0, t0 ∈ l → tt_node_id t0 ≠ tt_node_id t).
  { intros t0 Ht0 E. apply (Hdis (tt_node_id t)); [|left]. apply map_elem. eauto. }
  destruct (decide (k = tt_node_id t)) as [->|Hne].
  - destruct (OutcomeKind.is_retryable_failure (tt_outcome t)) eqn:Hr.
    + rewrite lookup_insert_eq. split.
      * intros [= <-]. exists t. split_and!; [apply elem_of_app; right; left|done..].
      * intros (t0 & [Ht0| ->%list_elem_of_singleton]%elem_of_app & E & <- & _); [|done].
        by apply Hnot in E.
    + rewrite IH by done. split.
      * intros (t0 & Ht0 & E & _). by apply Hnot in E.
      * intros (t0 & [Ht0| ->%list_elem_of_singleton]%elem_of_app & E & <- & Hr'); [|congruence].
        by apply Hnot in E.
  - rewrite Hold by done. rewrite <-IH by done.
    destruct (OutcomeKind.is_retryable_failure (tt_outcome t)); [|done].
    by rewrite lookup_insert_ne.
Qed.

Lemma identify_elem items timings i kind :
  (i, kind) ∈ identify_failed_items items timings ↔
  i ∈ items ∧ failed_map timings !! node_id i = Some kind.
Proof.
  unfold identify_failed_items. rewrite flat_map_elem. split.
  - intros (i' & Hi & H). destruct (failed_map timings !! node_id i') as [k'|] eqn:E.
    + apply list_elem_of_singleton in H as [= -> ->]. done.
    + by apply elem_of_nil in H.
  - intros [Hi E]. exists i. rewrite E. split; [done|left].
Qed.

Lemma identify_ids_NoDup items timings :
  NoDup (map node_id items) → NoDup (map (λ f, node_id f.1) (identify_failed_items items timings)).
Proof.
  unfold identify_failed_items. induction items as [|i items IH]; simpl; [constructor|].
  intros [Hn Hd]%NoDup_cons. destruct (failed_map timings !! node_id i) as [k|]; simpl; [|auto].
  apply NoDup_cons. split; [|auto].
  intros ([j k'] & Hin & E)%map_elem. apply identify_elem in Hin as [Hj _].
  apply Hn. apply map_elem. simpl in E. eauto.
Qed.

(** ** The retry loop *)

Section Proofs.
Context {world : Type} (run_timed : world → TestItem → TestOutcome.t * f64 * world).

(** Consecutive runs of [item] from one state of the world to another. *)
Inductive attempted (item : TestItem) : world → list TestOutcome.t → world → Prop :=
  | attempted_nil w : attempted item w [] w
  | attempted_cons w o d w' os w'' :
      run_timed w item = (o, d, w') → attempted item w' os w'' → attempted item w (o :: os) w''.

Abbreviation all_hard := (Forall (λ o, TestOutcome.is_hard_failure o = true)).

(** What retrying means: in order, each failed test is run again until its
    first run that is not a hard failure, and at most [max] times; it becomes
    flaky, with the number and the duration of that run, exactly when there is
    one. *)
Inductive retry_trace (max : nat) : world → list (TestItem * OutcomeKind.t) →
    list (TestItem * OutcomeKind.t * string * f64) → world → Prop :=
  | trace_nil w : retry_trace max w [] [] w
  | trace_pass w item kind fs w1 o d w2 rest fl w' :
      attempted item w fs w1 → all_hard fs → S (length fs) ≤ max →
      run_timed w1 item = (o, d, w2) → TestOutcome.is_hard_failure o = false →
      retry_trace max w2 rest fl w' →
      retry_trace max w ((item, kind) :: rest)
        ((item, kind, retry_message (S (length fs)) max, d) :: fl) w'
  | trace_fail w item kind fs w1 rest fl w' :
      attempted item w fs w1 → all_hard fs → length fs = max →
      retry_trace max w1 rest fl w' →
      retry_trace max w ((item, kind) :: rest) fl w'.

Lemma attempts_spec left attempt w item r w' :
  attempts run_timed left attempt w item = (r, w') →
  match r with
  | None => ∃ fs, attempted item w fs w' ∧ all_hard fs ∧ length fs = left
  | Some (n, d) => ∃ fs w1 o, attempted item w fs w1 ∧ all_hard fs ∧ S (length fs) ≤ left ∧
      run_timed w1 item = (o, d, w') ∧ TestOutcome.is_hard_failure o = false ∧ n = attempt + length fs
  end.
Proof.
  revert attempt w. induction left as [|left IH]; intros attempt w; simpl.
  { intros [= <- <-]. exists []. split_and!; [constructor|constructor|done]. }
  destruct (run_timed w item) as [[o d] w1] eqn:E.
  destruct (TestOutcome.is_hard_failure o) eqn:Hh.
  - intros H. apply IH in H. destruct r as [[n dur]|].
    + destruct H as (fs & w2 & o' & ? & ? & ? & ? & ? & ->). exists (o :: fs), w2, o'.
      split_and!; [by econstructor|by constructor|simpl; lia|done|done|simpl; lia].
    + destruct H as (fs & ? & ? & <-). exists (o :: fs). split_and!; [by econstructor|by constructor|done].
  - intros [= <- <-]. exists [], w, o. split_and!; [constructor|constructor|simpl; lia|done|done|simpl; lia].
Qed.

Definition flaky_timing (f : TestItem * OutcomeKind.t * string * f64) : TestTiming :=
  {| tt_node_id := fl_id f; tt_duration_ms := f.2; tt_outcome := OutcomeKind.Flaky |}.

(** The loop over the failed tests extends its three lists by one trace. *)
Lemma run_retries_spec max failed acc w r w' :
  fold_left (retry_one run_timed max) failed (acc, w) = (r, w') →
  ∃ fl, retry_trace max w failed fl w' ∧
    rr_reported r = rr_reported acc ++ flaky_events fl ∧
    rr_flaky_ids r = rr_flaky_ids acc ++ map fl_id fl ∧
    rr_retry_timings r = rr_retry_timings acc ++ map flaky_timing fl.
Proof.
  revert acc w. induction failed as [|[i k] failed IH]; intros acc w; simpl.
  { intros [= <- <-]. exists []. simpl. rewrite !app_nil_r. split; [constructor|done]. }
  destruct (attempts run_timed max 1 w i) as [[[n d]|] w1] eqn:E; apply attempts_spec in E;
    intros (fl & Ht & H1 & H2 & H3)%IH.
  - destruct E as (fs & w0 & o & ? & ? & ? & ? & ? & ->).
    exists ((i, k, retry_message (S (length fs)) max, d) :: fl). split; [by eapply trace_pass|].
    unfold flaky_events in *. simpl in *. by rewrite H1, H2, H3, <-!(assoc_L (++)).
  - destruct E as (fs & ? & ? & ?). exists fl. split; [by eapply trace_fail|done].
Qed.

Lemma trace_sublist max w failed fl w' :
  retry_trace max w failed fl w' → map (λ f, f.1.1) fl `sublist_of` failed.
Proof. induction 1; simpl; by constructor. Qed.

(** With no retries allowed, every failure stands. *)
Lemma trace_zero w failed : retry_trace 0 w failed [] w.
Proof.
  induction failed as [|[i k] failed IH]; [constructor|].
  apply (trace_fail 0 w i k [] w); [constructor|constructor|done|done].
Qed.

(** The main run, as its events, gives the items and the timings. *)
Definition timing_of (e : event) : TestTiming :=
  {| tt_node_id := ev_id e; tt_duration_ms := e.2; tt_outcome := TestOutcome.kind (ev_outcome e) |}.

Lemma timings_elem l t : t ∈ map timing_of l ↔ ∃ e, e ∈ l ∧ timing_of e = t.
Proof. apply map_elem. Qed.

(** The failures of the main run, in order. *)
Definition failures (l : list event) : list (TestItem * OutcomeKind.t) :=
  flat_map (λ e, if OutcomeKind.is_retryable_failure (TestOutcome.kind (ev_outcome e))
                 then [(e.1.1, TestOutcome.kind (ev_outcome e))] else []) l.

Lemma identify_failures l :
  NoDup (map ev_id l) → identify_failed_items (map (λ e, e.1.1) l) (map timing_of l) = failures l.
Proof.
  intros Hnd. assert (Htt : map tt_node_id (map timing_of l) = map ev_id l) by (by rewrite map_map).
  unfold identify_failed_items, failures. rewrite flat_map_concat_map, map_map, flat_map_concat_map.
  f_equal. apply map_ext_in. intros e He%list_elem_of_In.
  destruct (failed_map (map timing_of l) !! node_id e.1.1) as [kind|] eqn:E.
  - apply failed_map_lookup in E; [|by rewrite Htt].
    destruct E as (t & (e' & He' & <-)%map_elem & Hid & <- & Hret).
    assert (e = e') as <- by (by eapply same_id_same_event).
    simpl in Hret |- *. by rewrite Hret.
  - destruct (OutcomeKind.is_retryable_failure _) eqn:Hret; [|done].
    assert (failed_map (map timing_of l) !! node_id e.1.1 = Some (TestOutcome.kind (ev_outcome e))) as E'.
    { apply failed_map_lookup; [by rewrite Htt|]. exists (timing_of e).
      split_and!; [apply map_elem; eauto|done..]. }
    congruence.
Qed.

Lemma failures_elem l item kind :
  (item, kind) ∈ failures l ↔
  OutcomeKind.is_retryable_failure kind = true ∧
  ∃ e, e ∈ l ∧ e.1.1 = item ∧ TestOutcome.kind (ev_outcome e) = kind.
Proof.
  unfold failures. rewrite flat_map_elem. split.
  - intros (e & He & H). destruct (OutcomeKind.is_retryable_failure _) eqn:Hret.
    + apply list_elem_of_singleton in H as [= -> ->]. split; [done|]. by exists e.
    + by apply elem_of_nil in H.
  - intros (Hret & e & He & <- & <-). exists e. split; [done|]. rewrite Hret. left.
Qed.

Lemma failures_ids_NoDup l : NoDup (map ev_id l) → NoDup (map (λ f, node_id f.1) (failures l)).
Proof.
  intros Hnd. rewrite <-identify_failures by done. apply identify_ids_NoDup.
  rewrite map_map. exact Hnd.
Qed.

Lemma trace_retried max w l fl w' :
  Forall (λ e, not_flaky (ev_outcome e) = true) l → NoDup (map ev_id l) →
  retry_trace max w (failures l) fl w' → retried l fl.
Proof.
  intros Hnf Hnd Hs%trace_sublist. split; [done|done| |].
  - assert (map fl_id fl = map (λ f, node_id f.1) (map (λ f, f.1.1) fl)) as -> by (by rewrite map_map).
    eapply sublist_NoDup; [|exact (fmap_sublist (λ f : TestItem * OutcomeKind.t, node_id f.1) _ _ Hs)].
    by apply failures_ids_NoDup.
  - intros f Hf. assert (f.1.1 ∈ failures l) as Hin.
    { eapply elem_of_sublist; [|exact Hs]. apply map_elem. eauto. }
    destruct f as [[[i k] m] d]. simpl in Hin. apply failures_elem in Hin as (Hret & e & He & <- & <-).
    split; [done|]. by exists e.
Qed.

(** The timings after the transition, in terms of the tests that became flaky. *)
Definition merged (l : list event) (fl : list (TestItem * OutcomeKind.t * string * f64)) : list TestTiming :=
  merge_flaky_timings (map timing_of l) (map fl_id fl) (map flaky_timing fl).

Lemma merged_nil l : merged l [] = map timing_of l.
Proof.
  unfold merged, merge_flaky_timings. simpl. rewrite app_nil_r. apply filter_all. done.
Qed.

Lemma retry_shape n max l w :
  NoDup (map ev_id l) →
  ∃ fl w', retry_trace max w (failures l) fl w' ∧
    retry run_timed max false (map (λ e, e.1.1) l) (map timing_of l) (run_session n l) w
    = (merged l fl, run_session n (l ++ flaky_events fl), w').
Proof.
  intros Hnd. unfold retry. rewrite orb_false_r, identify_failures by done.
  destruct (Nat.eqb_spec max 0) as [->|Hmax].
  { exists [], w. rewrite merged_nil, app_nil_r. split; [apply trace_zero|done]. }
  destruct (run_retries run_timed max w (failures l)) as [r w'] eqn:E.
  destruct (run_retries_spec _ _ _ _ _ _ E) as (fl & Ht & H1 & H2 & H3). simpl in H1, H2, H3.
  exists fl, w'. split; [done|]. destruct (failures l) as [|f fs].
  - inversion Ht; subst. by rewrite merged_nil, app_nil_r.
  - rewrite E, H1, H2, H3. unfold run_session. by rewrite fold_left_app.
Qed.

Lemma filter_negb_perm {A B} `{EqDecision B} (f : A → B) (l : list A) (b : list B) :
  NoDup (map f l) → NoDup b → b ⊆ map f l →
  map f (List.filter (λ x, negb (bool_decide (f x ∈ b))) l) ++ b ≡ₚ map f l.
Proof.
  intros Hl Hb Hsub. apply NoDup_Permutation.
  - apply NoDup_app. split_and!; [|intros x (y & [_ Hy]%filter_elem & <-)%map_elem; by breflect|done].
    clear Hsub. induction l as [|x l IH]; simpl in *; [done|]. apply NoDup_cons in Hl as [Hn Hd].
    destruct (negb _); simpl; [|auto]. apply NoDup_cons. split; [|auto].
    intros (y & [Hy _]%filter_elem & E)%map_elem. apply Hn, map_elem. eauto.
  - done.
  - intros x. rewrite elem_of_app. split.
    + intros [(y & [Hy _]%filter_elem & <-)%map_elem|Hx]; [apply map_elem; eauto|auto].
    + intros (y & Hy & <-)%map_elem. destruct (decide (f y ∈ b)); [by right|left].
      apply map_elem. exists y. split; [|done]. apply filter_elem. split; [done|].
      by rewrite negb_true_iff, bool_decide_eq_false.
Qed.

Lemma merged_ids l fl : retried l fl → map tt_node_id (merged l fl) ≡ₚ map ev_id l.
Proof.
  intros [_ Hnd Hfd Hf]. unfold merged, merge_flaky_timings. rewrite map_app, map_map. simpl.
  change (map (λ x, tt_node_id (flaky_timing x)) fl) with (map fl_id fl).
  assert (map tt_node_id (map timing_of l) = map ev_id l) as E by (by rewrite map_map).
  rewrite <-E. apply (filter_negb_perm tt_node_id); [by rewrite E|done|].
  rewrite E. intros id (f & Hfin & <-)%map_elem. destruct (Hf f Hfin) as (_ & e & He & Ei & _).
  rewrite <-Ei. apply map_elem. eauto.
Qed.

(** The transition with the collected items in any order, and any session. *)
Lemma retry_any_order max items l s w :
  Forall (λ e, not_flaky (ev_outcome e) = true) l → NoDup (map ev_id l) → NoDup (map node_id items) →
  ∃ fl w', retried l fl ∧
    retry_trace max w (identify_failed_items items (map timing_of l)) fl w' ∧
    retry run_timed max false items (map timing_of l) s w =
      (merged l fl, fold_left complete (flaky_events fl) s, w').
Proof.
  intros Hnf Hnd Hitems.
  assert (∃ fl w', retry_trace max w (identify_failed_items items (map timing_of l)) fl w' ∧
    retry run_timed max false items (map timing_of l) s w =
      (merged l fl, fold_left complete (flaky_events fl) s, w')) as (fl & w' & Ht & E).
  { unfold retry. rewrite orb_false_r. destruct (Nat.eqb_spec max 0) as [->|Hmax].
    { exists [], w. rewrite merged_nil. split; [apply trace_zero|done]. }
    destruct (run_retries run_timed max w (identify_failed_items items (map timing_of l))) as [r w'] eqn:E.
    destruct (run_retries_spec _ _ _ _ _ _ E) as (fl & Ht & H1 & H2 & H3). simpl in H1, H2, H3.
    exists fl, w'. split; [done|]. destruct (identify_failed_items _ _) as [|f fs].
    - inversion Ht; subst. by rewrite merged_nil.
    - by rewrite E, H1, H2, H3. }
  exists fl, w'. split; [|done]. pose proof (trace_sublist _ _ _ _ _ Ht) as Hsub. split; [done|done| |].
  - assert (map fl_id fl = map (λ f, node_id f.1) (map (λ f, f.1.1) fl)) as -> by (by rewrite map_map).
    eapply sublist_NoDup; [|exact (fmap_sublist (λ f : TestItem * OutcomeKind.t, node_id f.1) _ _ Hsub)].
    by apply identify_ids_NoDup.
  - intros f Hf. assert (f.1.1 ∈ identify_failed_items items (map timing_of l)) as Hin.
    { eapply elem_of_sublist; [|exact Hsub]. apply map_elem. eauto. }
    destruct f as [[[i k] m] d]. simpl in Hin. apply identify_elem in Hin as [_ Hk].
    apply failed_map_lookup in Hk as (t & (e & He & <-)%map_elem & Hid & Hko & Hret);
      [|by rewrite map_map]. split; [done|]. by exists e.
Qed.

(** C5: The retry phase composes with the report.  In order, each failure of
    the run is tried again until its first run that is not a hard failure, at
    most [max] times, and becomes flaky exactly when there is one; the merged
    timings hold every test of the run exactly once, flaky where the retry
    succeeded and unchanged elsewhere; and the exit code is that of the
    failures that stand, so a run whose failures all pass on retry exits 0 and
    every other failing run still fails. *)
Theorem retry_phase_end_to_end n max items l w errs :
  Forall (λ e, not_flaky (ev_outcome e) = true) l → NoDup (map ev_id l) →
  items = map (λ e, e.1.1) l →
  ∃ fl,
    let '(timings, session, w') :=
      retry run_timed max false items (map timing_of l) (run_session n l) w in
    retry_trace max w (failures l) fl w' ∧
    map tt_node_id timings ≡ₚ map ev_id l ∧
    (∀ e, e ∈ standing l fl → timing_of e ∈ timings) ∧
    (∀ f, f ∈ fl → flaky_timing f ∈ timings) ∧
    session = run_session n (l ++ flaky_events fl) ∧
    compute_exit_code (stats (session_record_strict_suite session)) errs false =
      if existsb (λ e, is_usage (ev_outcome e)) (standing l fl) then ExitCode.UsageError
      else if 0 <? errs then ExitCode.CollectErr
      else if existsb (λ e, TestOutcome.is_hard_failure (ev_outcome e)) (standing l fl) || (0 <? n)
      then ExitCode.Failure else ExitCode.Success.
Proof.
  intros Hnf Hnd ->.
  destruct (retry_shape n max l w Hnd) as (fl & w' & Ht & ->).
  assert (Hr : retried l fl) by by eapply trace_retried.
  exists fl. split_and!; try done.
  - by apply merged_ids.
  - intros e [He Hn]%standing_elem. apply elem_of_app. left. apply filter_elem. split.
    + apply map_elem. eauto.
    + by rewrite negb_true_iff, bool_decide_eq_false.
  - intros f Hf. apply elem_of_app. right. apply map_elem. eauto.
  - by rewrite (exit_code_standing n l fl errs false Hr).
Qed.
End Proofs.

(** A world that counts attempts: every test fails once more, then passes. *)
Definition toy_run (w : nat) (item : TestItem) : TestOutcome.t * f64 * nat :=
  (if w <? 1 then TestOutcome.Failed (diagnostic_sentinel "x") else TestOutcome.Passed None,
   f64_zero, S w).

Definition demo_run : list event :=
  [demo_ev "a" (TestOutcome.Failed (diagnostic_sentinel "x")); demo_ev "b" (TestOutcome.Passed None)].

Lemma retry_phase_end_to_end_witness :
  compute_exit_code (stats (session_record_strict_suite
    (retry toy_run 2 false (map (λ e, e.1.1) demo_run) (map timing_of demo_run)
       (run_session 0 demo_run) 0).1.2)) 0 false = ExitCode.Success ∧
  ∃ fl w', retry_trace toy_run 2 0 (failures demo_run) fl w' ∧
    (∀ f, f ∈ fl → flaky_timing f ∈
      (retry toy_run 2 false (map (λ e, e.1.1) demo_run) (map timing_of demo_run)
         (run_session 0 demo_run) 0).1.1).
Proof.
  split; [vm_compute; reflexivity|].
  destruct (retry_phase_end_to_end toy_run 0 2 (map (λ e, e.1.1) demo_run) demo_run 0 0)
    as (fl & H).
  - repeat constructor.
  - apply (bool_decide_unpack _). vm_compute. exact I.
  - reflexivity.
  - destruct (retry _ _ _ _ _ _ _) as [[timings session] w']. exists fl, w'.
    exact (conj (proj1 H) (proj1 (proj2 (proj2 (proj2 H))))).
Defined.
