(* ===== verification/Wire.v ===== *)
(** * Wire: the worker protocol's messages ([src/worker_result/])

    The task sent to a worker ([WorkerTask], [build_task] of
    [src/worker_session.rs]), the result lines it answers with ([WireResult],
    [wire.rs]) and their conversion to outcomes ([convert.rs]).

    JSON text is read and written by [serde_json], which is not part of the
    sources: [Codec] is the record of the decoders the runner calls, and every
    definition that reads a line takes one.  [u64] line numbers are [N], the
    [i64] tips are [Z]; [usize::try_from] of either is total on a 64-bit target
    once the sign has been tested. *)
From S2P Require Import Prelude F64 Types Scheduler Report.

(** ** Tasks *)

Definition PROTOCOL_VERSION : N := 8.

Record WorkerTaskItem := {
  wti_fn_name : string;
  wti_param_id : option string;
  wti_node_id : string;
  wti_markers : list string
}.

Record WorkerTaskModule := {
  wtm_module_path : string;
  wtm_items : list WorkerTaskItem
}.

(** The two pre-serialised payloads are opaque JSON text. *)
Record WorkerTask := {
  task_protocol_version : N;
  task_modules : list WorkerTaskModule;
  task_fixture_modules : string;
  task_plugins : string;
  task_timeout_secs : option Z;
  task_keep_tmp : string;
  task_rootdir : string;
  task_show_locals : option bool;
  task_show_internals : option bool
}.

Definition task_item (item : TestItem) : WorkerTaskItem :=
  {| wti_fn_name := fn_name item; wti_param_id := param_id item;
     wti_node_id := node_id item; wti_markers := MarkerSet.iter (markers item) |}.

Definition task_module (m : ModuleGroup) : WorkerTaskModule :=
  {| wtm_module_path := module_path m; wtm_items := map task_item (items m) |}.

Definition build_task (group : TaskGroup.t) (fixture_modules_json plugins_json : string)
    (timeout_secs : option Z) (keep_tmp rootdir : string) (show_locals show_internals : bool)
    : WorkerTask :=
  {| task_protocol_version := PROTOCOL_VERSION;
     task_modules := map task_module (TaskGroup.modules group);
     task_fixture_modules := fixture_modules_json;
     task_plugins := plugins_json;
     task_timeout_secs := timeout_secs;
     task_keep_tmp := keep_tmp;
     task_rootdir := rootdir;
     task_show_locals := if show_locals then Some true else None;
     task_show_internals := if show_internals then Some true else None |}.

(** ** Result lines *)

Record RawFrame := {
  rf_file : string;
  rf_lineno : N;
  rf_name : string;
  rf_line : string;
  rf_locals : list LocalVar
}.

Module WireResult.

Inductive t :=
  | Passed (node_id : string) (duration_ms : f64) (protocol_version : N)
      (no_message_lines : list Z)
  | Failed (node_id : string) (duration_ms : f64) (protocol_version : N)
      (message file : string) (lineno : option N) (source_line : string)
      (frames : list RawFrame) (lhs rhs op : string) (field_diffs : list FieldDiff)
  | Error (node_id : string) (duration_ms : f64) (protocol_version : N)
      (message file : string) (lineno : option N) (source_line : string)
      (frames : list RawFrame) (usage_error : bool)
  | Skipped (node_id : string) (duration_ms : f64) (protocol_version : N) (message : string)
  | Warned (node_id : string) (duration_ms : f64) (protocol_version : N) (message : string)
      (no_message_lines : list Z)
  | XFailed (node_id : string) (duration_ms : f64) (protocol_version : N) (message : string)
  | XPassed (node_id : string) (duration_ms : f64) (protocol_version : N) (strict : bool)
  | Timeout (node_id : string) (duration_ms : f64) (protocol_version : N) (message : string).

Definition protocol_version (r : t) : N :=
  match r with
  | Passed _ _ v _ | Failed _ _ v _ _ _ _ _ _ _ _ _ | Error _ _ v _ _ _ _ _ _
  | Skipped _ _ v _ | Warned _ _ v _ _ | XFailed _ _ v _ | XPassed _ _ v _
  | Timeout _ _ v _ => v
  end.

(** The [node_id] and [duration_ms] every variant carries, and the value of the
    [outcome] tag that selects it. *)
Definition id (r : t) : string :=
  match r with
  | Passed i _ _ _ | Failed i _ _ _ _ _ _ _ _ _ _ _ | Error i _ _ _ _ _ _ _ _
  | Skipped i _ _ _ | Warned i _ _ _ _ | XFailed i _ _ _ | XPassed i _ _ _
  | Timeout i _ _ _ => i
  end.

Definition duration (r : t) : f64 :=
  match r with
  | Passed _ d _ _ | Failed _ d _ _ _ _ _ _ _ _ _ _ | Error _ d _ _ _ _ _ _ _
  | Skipped _ d _ _ | Warned _ d _ _ _ | XFailed _ d _ _ | XPassed _ d _ _
  | Timeout _ d _ _ => d
  end.

Definition tag (r : t) : string :=
  match r with
  | Passed _ _ _ _ => "passed" | Failed _ _ _ _ _ _ _ _ _ _ _ _ => "failed"
  | Error _ _ _ _ _ _ _ _ _ => "error" | Skipped _ _ _ _ => "skipped"
  | Warned _ _ _ _ _ => "warned" | XFailed _ _ _ _ => "xfailed"
  | XPassed _ _ _ _ => "xpassed" | Timeout _ _ _ _ => "timeout"
  end.

End WireResult.

Record WireMinimal := mk_minimal { wm_node_id : string; wm_duration_ms : f64 }.

Record WireDiagnostic := {
  wd_severity : string;
  wd_context : string;
  wd_message : string;
  wd_file : string;
  wd_lineno : nat
}.

(** [serde_json::from_str] at each type the coordinator reads a line as;
    [None] and [Err] are its error, with the error's text where the runner
    prints it. *)
Record Codec := {
  from_str_envelope : string → option string;
  from_str_result : string → result WireResult.t string;
  from_str_minimal : string → option WireMinimal;
  from_str_diagnostic : string → option WireDiagnostic
}.

(** ** Conversion ([src/worker_result/convert.rs]) *)

Definition raw_frame_into (f : RawFrame) : Frame :=
  {| fr_file := rf_file f; fr_lineno := N.to_nat (rf_lineno f); fr_name := rf_name f;
     fr_line := rf_line f; fr_locals := rf_locals f |}.

Definition wire_lineno (lineno : option N) : nat :=
  match lineno with Some n => N.to_nat n | None => 0 end.

Definition wire_frames (raw : list RawFrame) : list Frame := map raw_frame_into raw.

Definition filter_tips (lines : list Z) : list nat :=
  map Z.to_nat (List.filter (λ n, (0 <? n)%Z) lines).

Definition build_diagnostic (message file : string) (lineno : nat) (source_line : string)
    (frames : list Frame) (comparison : option ComparisonDetail) (usage_error : bool)
    : FailureDiagnostic :=
  {| diag_message := message; diag_file := file; diag_lineno := lineno;
     diag_source_line := source_line; diag_frames := frames;
     diag_comparison := comparison; diag_usage_error := usage_error |}.

Module RawOutcome.

Inductive t :=
  | Passed (no_message_lines : list nat)
  | Failed (message file : string) (lineno : nat) (source_line : string)
      (frames : list Frame) (comparison : ComparisonDetail)
  | Error (message file : string) (lineno : nat) (source_line : string)
      (frames : list Frame) (usage_error : bool)
  | Skipped (reason : string)
  | Warned (reason : string) (no_message_lines : list nat)
  | XFailed (reason : string)
  | XPassed (strict : bool)
  | Timeout (message : string).

Definition boxed_tips (lines : list nat) : option (list nat) :=
  match lines with [] => None | _ => Some lines end.

Definition into_test_outcome (r : t) : TestOutcome.t :=
  match r with
  | Passed lines => TestOutcome.Passed (boxed_tips lines)
  | Failed message file lineno source_line frames comparison =>
      TestOutcome.Failed
        (build_diagnostic message file lineno source_line frames (Some comparison) false)
  | Error message file lineno source_line frames usage_error =>
      TestOutcome.Error
        (build_diagnostic message file lineno source_line frames None usage_error)
  | Skipped reason => TestOutcome.Skipped reason
  | Warned reason lines => TestOutcome.Warned reason (boxed_tips lines)
  | XFailed reason => TestOutcome.XFailed reason
  | XPassed strict => TestOutcome.XPassed strict
  | Timeout message => TestOutcome.Timeout message
  end.

End RawOutcome.

(** The [RawOutcome] each arm of [into_outcome] builds. *)
Definition wire_raw (r : WireResult.t) : RawOutcome.t :=
  match r with
  | WireResult.Passed _ _ _ lines => RawOutcome.Passed (filter_tips lines)
  | WireResult.Failed _ _ _ message file lineno source_line frames lhs rhs op diffs =>
      RawOutcome.Failed message file (wire_lineno lineno) source_line (wire_frames frames)
        {| cd_left := lhs; cd_right := rhs; cd_op := op; cd_field_diffs := diffs |}
  | WireResult.Error _ _ _ message file lineno source_line frames usage_error =>
      RawOutcome.Error message file (wire_lineno lineno) source_line (wire_frames frames)
        usage_error
  | WireResult.Skipped _ _ _ message => RawOutcome.Skipped message
  | WireResult.Warned _ _ _ message lines => RawOutcome.Warned message (filter_tips lines)
  | WireResult.XFailed _ _ _ message => RawOutcome.XFailed message
  | WireResult.XPassed _ _ _ strict => RawOutcome.XPassed strict
  | WireResult.Timeout _ _ _ message => RawOutcome.Timeout message
  end.

Definition into_outcome (r : WireResult.t) : ResolvedOutcome :=
  {| ro_node_id := WireResult.id r;
     ro_duration_ms := WireResult.duration r;
     ro_outcome := RawOutcome.into_test_outcome (wire_raw r) |}.

(** * Theorems *)

Definition outcome_tips (o : TestOutcome.t) : option (list nat) :=
  match o with TestOutcome.Passed t | TestOutcome.Warned _ t => t | _ => None end.

Lemma filter_tips_positive lines : Forall (λ n, 0 < n) (filter_tips lines).
Proof.
  apply Forall_forall. intros n Hn. unfold filter_tips in Hn.
  apply map_elem in Hn as (z & [_ Hz%Z.ltb_lt]%filter_elem & <-). lia.
Qed.

Lemma filter_tips_Z lines :
  map Z.of_nat (filter_tips lines) = List.filter (λ n, (0 <? n)%Z) lines.
Proof.
  unfold filter_tips. rewrite map_map. induction lines as [|z lines IH]; simpl; [done|].
  destruct (Z.ltb_spec 0 z); simpl; [|done]. rewrite IH, Z2Nat.id by lia. done.
Qed.

Lemma boxed_tips_Some lines l : RawOutcome.boxed_tips lines = Some l → l = lines ∧ l ≠ [].
Proof. destruct lines; naive_solver. Qed.

Lemma into_outcome_usage (r : WireResult.t) :
  is_usage (ro_outcome (into_outcome r)) = true ↔
    ∃ id d v m f ln s fs, r = WireResult.Error id d v m f ln s fs true.
Proof.
  split.
  - destruct r; simpl; try done. intros ->. repeat eexists.
  - by intros (? & ? & ? & ? & ? & ? & ? & ? & ->).
Qed.

Lemma into_outcome_tips (r : WireResult.t) tips :
  outcome_tips (ro_outcome (into_outcome r)) = Some tips →
  tips ≠ [] ∧ Forall (λ n, 0 < n) tips ∧
  ∃ lines, map Z.of_nat tips = List.filter (λ n, (0 <? n)%Z) lines ∧
    ((∃ id d v, r = WireResult.Passed id d v lines) ∨
     (∃ id d v m, r = WireResult.Warned id d v m lines)).
Proof.
  destruct r; simpl; try done; intros [-> ?]%boxed_tips_Some;
    (split; [done|]); (split; [apply filter_tips_positive|]);
    eexists; (split; [apply filter_tips_Z|]).
  - left. repeat eexists.
  - right. repeat eexists.
Qed.

(** Converting a worker's result keeps its node id, its duration and the
    kind its [outcome] tag names; it never makes a flaky outcome; only an
    [error] line that says so is a usage error (exit 4), an assertion failure
    never is; and the tips it keeps are the strictly positive lines it sent, in
    order, never an empty list. *)
Theorem into_outcome_faithful (r : WireResult.t) :
  let ro := into_outcome r in
  ro_node_id ro = WireResult.id r ∧
  ro_duration_ms ro = WireResult.duration r ∧
  OutcomeKind.as_str (TestOutcome.kind (ro_outcome ro)) = WireResult.tag r ∧
  not_flaky (ro_outcome ro) = true ∧
  (is_usage (ro_outcome ro) = true ↔
     ∃ id d v m f ln s fs, r = WireResult.Error id d v m f ln s fs true) ∧
  (∀ tips, outcome_tips (ro_outcome ro) = Some tips →
     tips ≠ [] ∧ Forall (λ n, 0 < n) tips ∧
     ∃ lines, map Z.of_nat tips = List.filter (λ n, (0 <? n)%Z) lines ∧
       ((∃ id d v, r = WireResult.Passed id d v lines) ∨
        (∃ id d v m, r = WireResult.Warned id d v m lines))).
Proof.
  split_and!; [by destruct r..|apply into_outcome_usage|apply into_outcome_tips].
Qed.

(** The task built for a group lists exactly the group's tests, module by module
    and in order: as many as results are then waited for. *)
Lemma build_task_covers_group group fixture_modules plugins timeout keep_tmp rootdir sl si :
  let task := build_task group fixture_modules plugins timeout keep_tmp rootdir sl si in
  flat_map (λ m, map wti_node_id (wtm_items m)) (task_modules task) =
    map node_id (TaskGroup.group_items group) ∧
  length (flat_map wtm_items (task_modules task)) = TaskGroup.item_count group ∧
  map wtm_module_path (task_modules task) = map module_path (TaskGroup.modules group).
Proof.
  simpl. unfold TaskGroup.group_items, TaskGroup.item_count.
  induction (TaskGroup.modules group) as [|m ms (E & L & F)]; simpl; [done|].
  by rewrite map_app, <-E, length_app, L, length_map, map_map, F.
Qed.
