(* ===== verification/Drain.v ===== *)
(** * Drain: reading one worker's output ([src/parallel/drain.rs])

    The line classification, the per-result watchdog loop
    ([drain_worker_results]), the tail read after the last group
    ([drain_until_eof]), what is sent for a group whose worker died
    ([handle_drain_outcome]), and the turn a worker thread takes on one group
    (the loop body of [run_worker_loop], [src/worker_session.rs]).

    The clock and the channel are the input: a [Tick] is one iteration of a
    receive loop, with the time the loop reads before it waits ([checked]),
    what [recv_timeout] answers ([recv]) and the time it reads after handling a
    line ([resumed]).  Times are milliseconds.  A loop consumes a list of ticks
    and is [None] when the list ends while it would still be waiting, so a
    theorem about [Some] is about a loop that has returned.  Log lines are not
    modelled; the channel sender's messages are returned in order. *)
From S2P Require Import Prelude F64 Text Types Scheduler Report Wire.

Inductive WorkerMessage :=
  | MResult (resolved : ResolvedOutcome) (worker_id : nat)
  | MDiagnostic (entry : DiagnosticEntry).

Inductive LineKind := Consumed | LResult | NonProtocol.

Inductive DrainOutcome := Complete | TimedOut | Disconnected.

Inductive Recv := RLine (line : string) | RTimeout | RDisconnected.

Record Tick := mk_tick { checked : nat; recv : Recv; resumed : nat }.

Definition MAX_TAIL_LINES : nat := 1024.

Section Drain.
Context (cd : Codec).

(** ** Lines *)

Definition forward_diagnostic (trimmed : string) : list WorkerMessage :=
  match from_str_diagnostic cd trimmed with
  | None => []
  | Some wd =>
      [MDiagnostic (diagnostic_from_wire (wd_severity wd) (wd_context wd) (wd_message wd)
                      (wd_file wd) (wd_lineno wd))]
  end.

Definition classify_line (trimmed : string) : LineKind * list WorkerMessage :=
  match from_str_envelope cd trimmed with
  | None => (NonProtocol, [])
  | Some msg_type =>
      if String.eqb msg_type "diagnostic" then (Consumed, forward_diagnostic trimmed)
      else if String.eqb msg_type "trace" then (Consumed, [])
      else if String.eqb msg_type "result" then (LResult, [])
      else (Consumed, [])
  end.

(** The outcome sent for a line that claims to be a result: the decoded result,
    or an error under the salvaged id, or under a placeholder id. *)
Definition result_of_line (trimmed : string) : ResolvedOutcome :=
  match from_str_result cd trimmed with
  | Ok r => into_outcome r
  | Err e =>
      match from_str_minimal cd trimmed with
      | Some m =>
          {| ro_node_id := wm_node_id m; ro_duration_ms := wm_duration_ms m;
             ro_outcome := TestOutcome.error_sentinel ("Unknown wire result: " +:+ e) |}
      | None =>
          {| ro_node_id := "<worker>::malformed_output"; ro_duration_ms := f64_zero;
             ro_outcome := TestOutcome.error_sentinel
               ("Malformed worker result (JSON, but not a result): " +:+ e) |}
      end
  end.

(** Whether a decoded result speaks another protocol version: it is warned of
    once per drain. *)
Definition version_mismatch (trimmed : string) : bool :=
  match from_str_result cd trimmed with
  | Ok r => negb (N.eqb (WireResult.protocol_version r) PROTOCOL_VERSION)
  | Err _ => false
  end.

(** ** The watchdog loop *)

Record DrainState := mk_drain {
  received : nat;
  result_deadline : nat;
  version_warned : bool;
  sent : list WorkerMessage
}.

(** One received line: the [Ok(line)] arm. *)
Definition on_line (watchdog worker_id now : nat) (line : string) (st : DrainState) : DrainState :=
  let trimmed := trim line in
  if String.eqb trimmed "" then st
  else
    match classify_line trimmed with
    | (Consumed, msgs) =>
        mk_drain (received st) (now + watchdog) (version_warned st) (sent st ++ msgs)
    | (NonProtocol, msgs) =>
        mk_drain (received st) (result_deadline st) (version_warned st) (sent st ++ msgs)
    | (LResult, msgs) =>
        mk_drain (S (received st)) (now + watchdog)
          (version_warned st || version_mismatch trimmed)
          (sent st ++ msgs ++ [MResult (result_of_line trimmed) worker_id])
    end.

Fixpoint drain_loop (expected watchdog worker_id : nat) (ticks : list Tick) (st : DrainState)
    : option (DrainOutcome * DrainState) :=
  if expected <=? received st then Some (Complete, st)
  else
    match ticks with
    | [] => None
    | t :: rest =>
        if result_deadline st - checked t =? 0 then Some (TimedOut, st)
        else
          match recv t with
          | RLine line =>
              drain_loop expected watchdog worker_id rest
                (on_line watchdog worker_id (resumed t) line st)
          | RTimeout => Some (TimedOut, st)
          | RDisconnected => Some (Disconnected, st)
          end
    end.

(** [started] is the time the group is dispatched. *)
Definition drain_worker_results (started : nat) (ticks : list Tick)
    (expected watchdog worker_id : nat) : option (DrainOutcome * nat * list WorkerMessage) :=
  match drain_loop expected watchdog worker_id ticks (mk_drain 0 (started + watchdog) false []) with
  | Some (o, st) => Some (o, received st, sent st)
  | None => None
  end.

(** ** The tail *)

Fixpoint tail_loop (watchdog : nat) (ticks : list Tick) (deadline lines_read : nat)
    (out : list WorkerMessage) : option (list WorkerMessage) :=
  match ticks with
  | [] => None
  | t :: rest =>
      if deadline - checked t =? 0 then Some out
      else
        match recv t with
        | RLine line =>
            let trimmed := trim line in
            if String.eqb trimmed "" then tail_loop watchdog rest deadline lines_read out
            else if MAX_TAIL_LINES <? S lines_read then Some out
            else tail_loop watchdog rest (resumed t + watchdog) (S lines_read)
                   (out ++ (classify_line trimmed).2)
        | RTimeout | RDisconnected => Some out
        end
  end.

Definition drain_until_eof (started : nat) (ticks : list Tick) (watchdog : nat)
    : option (list WorkerMessage) :=
  tail_loop watchdog ticks (started + watchdog) 0 [].

(** ** A group whose worker is done, stuck or dead *)

Definition skipped_teardown_message (worker_id : nat) (cause : string) (names : list string)
    : option string :=
  match names with
  | [] => None
  | _ =>
      Some ("worker " +:+ TestOutcome.show_nat worker_id +:+ " was " +:+ cause
        +:+ ", so any process-lifetime fixture it had built was never torn down. "
        +:+ "No other process runs those teardowns. Declared in this suite: "
        +:+ join ", " names
        +:+ " — this worker may have built only some of them. Anything they release "
        +:+ "outside the process, such as a temp directory, a database or a lock, is still held.")
  end.

Definition warn_skipped_process_teardowns (worker_id : nat) (process_fixtures : list string)
    (cause : string) : list WorkerMessage :=
  match skipped_teardown_message worker_id cause process_fixtures with
  | None => []
  | Some message =>
      [MDiagnostic (diagnostic_from_wire "warning" "process-lifetime teardown" message "" 0)]
  end.

Definition sentinel_timed_out (watchdog worker_id : nat) (item : TestItem) : WorkerMessage :=
  let '(outcome, duration_ms) := TestOutcome.timed_out_sentinel watchdog in
  MResult {| ro_node_id := node_id item; ro_duration_ms := duration_ms; ro_outcome := outcome |}
    worker_id.

Definition sentinel_crashed (worker_id : nat) (item : TestItem) : WorkerMessage :=
  MResult {| ro_node_id := node_id item; ro_duration_ms := f64_zero;
             ro_outcome := TestOutcome.crashed_sentinel |} worker_id.

(** The returned flag, whether the child was killed, and the messages sent. *)
Definition handle_drain_outcome (outcome : DrainOutcome) (received watchdog worker_id : nat)
    (items : list TestItem) (process_fixtures : list string)
    : bool * bool * list WorkerMessage :=
  match outcome with
  | Complete => (true, false, [])
  | TimedOut =>
      (false, true,
       warn_skipped_process_teardowns worker_id process_fixtures "killed as unresponsive"
         ++ map (sentinel_timed_out watchdog worker_id) (drop received items))
  | Disconnected =>
      (false, false,
       warn_skipped_process_teardowns worker_id process_fixtures "lost before it finished"
         ++ map (sentinel_crashed worker_id) (drop received items))
  end.

(** ** One group's turn ([run_worker_loop]'s body) *)

(** Seconds of grace on top of a configured timeout, or a ten-minute cap. *)
Definition watchdog_secs (timeout_secs : option Z) : Z :=
  match timeout_secs with
  | Some t => Z.min (t + 30) u64_max
  | None => 600
  end.

(** What the environment does during the turn: whether the task could be
    written to the worker's stdin, and the ticks of the drain. *)
Record TurnInput := mk_turn { send_ok : bool; started : nat; ticks : list Tick }.

(** What the worker thread does after the turn: take another group, leave the
    loop with a live worker (its tail is read), or leave it with a dead one. *)
Inductive After := NextGroup | LeaveAlive | LeaveDead.

Definition worker_turn (watchdog worker_id : nat) (process_fixtures : list string)
    (group : TaskGroup.t) (input : TurnInput) : option (After * list WorkerMessage) :=
  let group_items := TaskGroup.group_items group in
  if negb (send_ok input) then Some (LeaveAlive, map (sentinel_crashed worker_id) group_items)
  else
    match drain_worker_results (started input) (ticks input) (TaskGroup.item_count group)
            watchdog worker_id with
    | None => None
    | Some (outcome, received, msgs) =>
        let '(alive, _, more) :=
          handle_drain_outcome outcome received watchdog worker_id group_items process_fixtures in
        Some (if alive then NextGroup else LeaveDead, msgs ++ more)
    end.

(** * Theorems *)

(** The results among the messages, and the lines that claim a result slot. *)
Definition msg_result (m : WorkerMessage) : option ResolvedOutcome :=
  match m with MResult r _ => Some r | MDiagnostic _ => None end.

Definition results (l : list WorkerMessage) : list ResolvedOutcome := omap msg_result l.
Definition result_ids (l : list WorkerMessage) : list string := map ro_node_id (results l).

Definition line_kind (line : string) : LineKind :=
  if String.eqb (trim line) "" then NonProtocol else (classify_line (trim line)).1.

Definition tick_kind (t : Tick) : LineKind :=
  match recv t with RLine line => line_kind line | _ => NonProtocol end.

Definition claimed (t : Tick) : option ResolvedOutcome :=
  match recv t with
  | RLine line => match line_kind line with LResult => Some (result_of_line (trim line)) | _ => None end
  | _ => None
  end.

(** The last time the worker showed protocol traffic. *)
Fixpoint last_activity (since : nat) (l : list Tick) : nat :=
  match l with
  | [] => since
  | t :: l' =>
      last_activity (match tick_kind t with NonProtocol => since | _ => resumed t end) l'
  end.

Lemma classify_no_results trimmed : results (classify_line trimmed).2 = [].
Proof.
  unfold classify_line, forward_diagnostic. repeat case_one; done.
Qed.

Lemma results_app l1 l2 : results (l1 ++ l2) = results l1 ++ results l2.
Proof. apply omap_app. Qed.

Lemma warn_no_results w names cause : results (warn_skipped_process_teardowns w names cause) = [].
Proof. unfold warn_skipped_process_teardowns. by case_one. Qed.

Lemma results_timed_out watchdog w l :
  result_ids (map (sentinel_timed_out watchdog w) l) = map node_id l.
Proof. induction l as [|i l IH]; [done|]. unfold result_ids in *. simpl. by rewrite IH. Qed.

Lemma results_crashed w l : result_ids (map (sentinel_crashed w) l) = map node_id l.
Proof. induction l as [|i l IH]; [done|]. unfold result_ids in *. simpl. by rewrite IH. Qed.

Lemma result_ids_app l1 l2 : result_ids (l1 ++ l2) = result_ids l1 ++ result_ids l2.
Proof. unfold result_ids. by rewrite results_app, map_app. Qed.

Lemma result_ids_length l : length (result_ids l) = length (results l).
Proof. apply length_map. Qed.

(** One line moves the state by its kind only. *)
Lemma on_line_effect watchdog w now line st :
  let st' := on_line watchdog w now line st in
  received st' = received st + (match line_kind line with LResult => 1 | _ => 0 end) ∧
  result_deadline st' =
    (match line_kind line with NonProtocol => result_deadline st | _ => now + watchdog end) ∧
  results (sent st') = results (sent st) ++
    (match line_kind line with LResult => [result_of_line (trim line)] | _ => [] end).
Proof.
  unfold on_line, line_kind. simpl. destruct (String.eqb_spec (trim line) ""); simpl.
  { rewrite app_nil_r. split_and!; [lia|done|done]. }
  pose proof (classify_no_results (trim line)) as Hn.
  destruct (classify_line (trim line)) as [[] msgs]; simpl in *;
    rewrite ?results_app, Hn; simpl; rewrite ?app_nil_r; split_and!; done || lia.
Qed.

(** The loop stops without reading a line. *)
Ltac stopped_here :=
  intros ? ?; simplify_eq; exists 0; rewrite take_0, app_nil_r;
  split_and!; try done; try lia; split; done || lia.

(** What the loop has done when it returns: the results sent are those of the
    first claiming lines, one per slot, and it is complete exactly when all
    slots are filled. *)
Lemma drain_loop_spec expected watchdog w l st o st' :
  drain_loop expected watchdog w l st = Some (o, st') →
  received st ≤ expected →
  ∃ n, n ≤ length (omap claimed l) ∧
    received st' = received st + n ∧
    results (sent st') = results (sent st) ++ take n (omap claimed l) ∧
    received st' ≤ expected ∧ (o = Complete ↔ received st' = expected).
Proof.
  revert st. induction l as [|t l IH]; intros st; csimpl;
    destruct (Nat.leb_spec expected (received st)); try done; [by stopped_here..|].
  destruct (_ =? 0); [by stopped_here|].
  assert (claimed t = match recv t with
    | RLine line => match line_kind line with
                    | LResult => Some (result_of_line (trim line)) | _ => None end
    | _ => None end) as -> by done.
  destruct (recv t) as [line| |]; [|by stopped_here..].
  intros E Hle. destruct (on_line_effect watchdog w (resumed t) line st) as (E1 & E2 & E3).
  assert (received (on_line watchdog w (resumed t) line st) ≤ expected) as Hle'.
  { rewrite E1. destruct (line_kind line); lia. }
  destruct (IH _ E Hle') as (n & Hn & R1 & R2 & R3 & R4). rewrite E1 in R1. rewrite E3 in R2.
  destruct (line_kind line); csimpl in *.
  - exists n. rewrite app_nil_r in R2. split_and!; done || lia.
  - exists (S n). rewrite <-(assoc_L (++)) in R2. split_and!; csimpl; done || lia.
  - exists n. rewrite app_nil_r in R2. split_and!; done || lia.
Qed.

Lemma drain_results_spec started l expected watchdog w o n msgs :
  drain_worker_results started l expected watchdog w = Some (o, n, msgs) →
  results msgs = take n (omap claimed l) ∧ length (results msgs) = n ∧
  n ≤ expected ∧ (o = Complete ↔ n = expected).
Proof.
  unfold drain_worker_results. destruct (drain_loop _ _ _ _ _) as [[o' st']|] eqn:E; [|done].
  intros ?; simplify_eq.
  apply drain_loop_spec in E as (n & Hn & R1 & R2 & R3 & R4); [|simpl; lia].
  simpl in R1, R2. rewrite R1 in *. rewrite R2, length_take. split_and!; done || lia.
Qed.

(** A worker that keeps the protocol names the group's tests in task order. *)
Definition answers_in_order (items : list TestItem) (input : TurnInput) : Prop :=
  map ro_node_id (take (length items) (omap claimed (ticks input))) `prefix_of` map node_id items.

(** The messages of [handle_drain_outcome] answer the slots left open. *)
Lemma handle_drain_ids o n watchdog w items names :
  n ≤ length items → (o = Complete ↔ n = length items) →
  result_ids (handle_drain_outcome o n watchdog w items names).2 = map node_id (drop n items).
Proof.
  intros Hn Ho. destruct o; simpl.
  - rewrite drop_ge by (rewrite (proj1 Ho) by done; done). done.
  - rewrite result_ids_app, results_timed_out. unfold result_ids. by rewrite warn_no_results.
  - rewrite result_ids_app, results_crashed. unfold result_ids. by rewrite warn_no_results.
Qed.

Lemma handle_drain_errors o n watchdog w items names r :
  r ∈ results (handle_drain_outcome o n watchdog w items names).2 →
  TestOutcome.kind (ro_outcome r) = OutcomeKind.Error.
Proof.
  destruct o; simpl; [by intros ?%elem_of_nil|..]; rewrite results_app, warn_no_results; simpl;
    (induction (drop n items) as [|i l IH]; simpl; [by intros ?%elem_of_nil|]);
    intros [->|?]%elem_of_cons; auto.
Qed.

(** The turn is the worker's answers for some first tests, then sentinels. *)
Lemma turn_split watchdog w names group input after msgs :
  worker_turn watchdog w names group input = Some (after, msgs) →
  ∃ n answered rest, msgs = answered ++ rest ∧
    n ≤ length (TaskGroup.group_items group) ∧
    results answered = take n (omap claimed (ticks input)) ∧ length (results answered) = n ∧
    result_ids rest = map node_id (drop n (TaskGroup.group_items group)) ∧
    (∀ r, r ∈ results rest → TestOutcome.kind (ro_outcome r) = OutcomeKind.Error).
Proof.
  unfold worker_turn. destruct (send_ok input); simpl.
  - destruct (drain_worker_results _ _ _ _ _) as [[[o n] answered]|] eqn:E; [|done].
    apply drain_results_spec in E as (R1 & R2 & R3 & R4). rewrite item_count_length in *.
    pose proof (handle_drain_ids o n watchdog w (TaskGroup.group_items group) names R3 R4) as H1.
    pose proof (handle_drain_errors o n watchdog w (TaskGroup.group_items group) names) as H2.
    destruct (handle_drain_outcome _ _ _ _ _ _) as [[alive killed] rest].
    intros ?; simplify_eq. simpl in *. by exists (length (results answered)), answered, rest.
  - intros ?; simplify_eq.
    exists 0, [], (map (sentinel_crashed w) (TaskGroup.group_items group)).
    rewrite drop_0, results_crashed. split_and!; try done; [lia|].
    induction (TaskGroup.group_items group) as [|i l IH]; simpl; [by intros ? ?%elem_of_nil|].
    intros r [->|?]%elem_of_cons; auto.
Qed.

Lemma in_order_take items (ids : list string) n :
  n ≤ length items → length (take n ids) = n →
  take (length items) ids `prefix_of` map node_id items →
  take n ids = take n (map node_id items).
Proof.
  intros Hn Hlen [k Hk]. rewrite Hk. rewrite take_app_le.
  - by rewrite take_take, Nat.min_l.
  - rewrite length_take in *. lia.
Qed.

Lemma turn_in_order watchdog w names group input after msgs :
  worker_turn watchdog w names group input = Some (after, msgs) →
  answers_in_order (TaskGroup.group_items group) input →
  result_ids msgs = map node_id (TaskGroup.group_items group).
Proof.
  intros (n & answered & rest & -> & Hn & R1 & R2 & R3 & _)%turn_split Hord.
  unfold answers_in_order in Hord. rewrite <-firstn_map in Hord.
  rewrite result_ids_app, R3. unfold result_ids. rewrite R1 in *. rewrite <-firstn_map.
  rewrite (in_order_take (TaskGroup.group_items group)); [|done| |done].
  - rewrite firstn_map, <-map_app, take_drop. done.
  - by rewrite firstn_map, length_map.
Qed.


(** ** The watchdog *)

Lemma drain_loop_waiting expected watchdog w l st since :
  drain_loop expected watchdog w l st = None →
  result_deadline st = since + watchdog →
  received st + length (omap claimed l) < expected ∧
  ∀ pre t post, l = pre ++ t :: post →
    checked t < last_activity since pre + watchdog ∧ ∃ line, recv t = RLine line.
Proof.
  revert st since. induction l as [|t l IH]; intros st since; csimpl;
    destruct (Nat.leb_spec expected (received st)) as [|Hlt]; try done.
  { intros _ _. split; [lia|]. by intros [] ? ?. }
  destruct (Nat.eqb_spec (result_deadline st - checked t) 0) as [|Hd]; [done|].
  destruct (recv t) as [line| |] eqn:Hr; try done. intros E Hs.
  destruct (on_line_effect watchdog w (resumed t) line st) as (E1 & E2 & _).
  assert (tick_kind t = line_kind line) as Hk by (unfold tick_kind; by rewrite Hr).
  destruct (IH _ (match line_kind line with NonProtocol => since | _ => resumed t end) E) as [H1 H2].
  { rewrite E2. by destruct (line_kind line). }
  split.
  - rewrite E1 in H1. assert (claimed t = match line_kind line with
      | LResult => Some (result_of_line (trim line)) | _ => None end) as ->
      by (unfold claimed; by rewrite Hr).
    destruct (line_kind line); csimpl; lia.
  - intros [|t' pre] t'' post; simpl; intros ?; simplify_eq.
    + split; [lia|]. eauto.
    + rewrite Hk. by apply (H2 pre t'' post).
Qed.

Lemma on_line_noise watchdog w now line st :
  line_kind line = NonProtocol → on_line watchdog w now line st = st.
Proof.
  unfold on_line, line_kind. destruct (String.eqb _ _); [done|].
  unfold classify_line. destruct st. repeat case_one; simpl; intros; simplify_eq; try done.
  by rewrite app_nil_r.
Qed.

Lemma drain_loop_noise expected watchdog w pre t post st :
  received st < expected →
  Forall (λ u, tick_kind u = NonProtocol ∧ ∃ line, recv u = RLine line) pre →
  result_deadline st ≤ checked t →
  drain_loop expected watchdog w (pre ++ t :: post) st = Some (TimedOut, st).
Proof.
  intros Hlt Hpre Ht. induction Hpre as [|u pre [Hk [line Hu]] _ IH]; simpl;
    (destruct (Nat.leb_spec expected (received st)); [lia|]).
  - destruct (Nat.eqb_spec (result_deadline st - checked t) 0); [done|lia].
  - destruct (_ =? 0); [done|]. rewrite Hu. unfold tick_kind in Hk. rewrite Hu in Hk.
    by rewrite on_line_noise.
Qed.

(** C28: The drain of a group always ends: once every slot is claimed, once the
    channel times out or disconnects, or at the first moment the clock is one
    watchdog past the worker's last protocol line.  Blank lines and lines that
    are not protocol traffic do not count as activity: a worker that prints
    nothing else is timed out with no result counted and nothing forwarded. *)
Theorem drain_ends_within_watchdog started l expected watchdog w :
  (expected ≤ length (omap claimed l) ∨
   (∃ pre t post, l = pre ++ t :: post ∧
      (recv t = RTimeout ∨ recv t = RDisconnected ∨
       last_activity started pre + watchdog ≤ checked t)) →
   is_Some (drain_worker_results started l expected watchdog w)) ∧
  (∀ pre t post, l = pre ++ t :: post → 0 < expected →
     Forall (λ u, tick_kind u = NonProtocol ∧ ∃ line, recv u = RLine line) pre →
     started + watchdog ≤ checked t →
     drain_worker_results started l expected watchdog w = Some (TimedOut, 0, [])).
Proof.
  unfold drain_worker_results. split.
  - intros H. destruct (drain_loop _ _ _ _ _) as [[]|] eqn:E; [done|exfalso].
    apply (drain_loop_waiting _ _ _ _ _ started) in E as [Hc Hw]; [|done]. simpl in Hc.
    destruct H as [?|(pre & t & post & -> & Ht)]; [lia|].
    destruct (Hw pre t post eq_refl) as [? [line Hl]]. rewrite Hl in Ht.
    destruct Ht as [?|[?|?]]; done || lia.
  - intros pre t post -> Hlt Hpre Ht. by rewrite drain_loop_noise.
Qed.

(** ** The tail *)

Definition nonempty_line (t : Tick) : bool :=
  match recv t with RLine line => negb (String.eqb (trim line) "") | _ => false end.

Lemma classify_at_most_one trimmed : length (classify_line trimmed).2 ≤ 1.
Proof. unfold classify_line, forward_diagnostic. repeat case_one; simpl; lia. Qed.

Lemma tail_loop_spec watchdog l deadline n out out' :
  n ≤ MAX_TAIL_LINES →
  tail_loop watchdog l deadline n out = Some out' →
  results out' = results out ∧ length out' + n ≤ length out + MAX_TAIL_LINES.
Proof.
  revert deadline n out. induction l as [|t l IH]; intros deadline n out Hn; [done|].
  cbn [tail_loop]. destruct (_ =? 0); [intros ?; simplify_eq; split; [done|lia]|].
  destruct (recv t); [|intros ?; simplify_eq; split; [done|lia]..].
  destruct (String.eqb _ _); [by apply IH|].
  destruct (Nat.ltb_spec MAX_TAIL_LINES (S n)); [intros ?; simplify_eq; split; [done|lia]|].
  intros [E1 E2]%IH; [|lia].
  rewrite results_app, classify_no_results, app_nil_r in E1. split; [done|].
  rewrite length_app in E2. pose proof (classify_at_most_one (trim line)). lia.
Qed.

Lemma tail_loop_ends watchdog l deadline n out :
  MAX_TAIL_LINES < n + length (List.filter nonempty_line l) →
  n ≤ MAX_TAIL_LINES →
  is_Some (tail_loop watchdog l deadline n out).
Proof.
  revert deadline n out. induction l as [|t l IH]; intros deadline n out; [simpl; lia|].
  cbn [tail_loop List.filter]. destruct (_ =? 0); [done|]. unfold nonempty_line at 1.
  destruct (recv t); [|done..]. destruct (String.eqb _ _); simpl; [by apply IH|].
  intros. destruct (Nat.ltb_spec MAX_TAIL_LINES (S n)); [done|]. apply IH; lia.
Qed.

(** What is read after a worker's last group is bounded and decides no
    outcome: at most 1024 messages, none of them a test result, and a worker
    that keeps printing is abandoned after 1025 non-blank lines however it
    spaces them. *)
Theorem tail_is_bounded started l watchdog :
  (∀ out, drain_until_eof started l watchdog = Some out →
     results out = [] ∧ length out ≤ MAX_TAIL_LINES) ∧
  (MAX_TAIL_LINES < length (List.filter nonempty_line l) →
     is_Some (drain_until_eof started l watchdog)).
Proof.
  unfold drain_until_eof. split.
  - intros out [E1 E2]%tail_loop_spec; [|lia]. simpl in *. split; [done|lia].
  - intros. apply tail_loop_ends; lia.
Qed.
End Drain.

(** ** Witnesses *)

(** A decoder for a toy line format: [{<node id>] is a passed result, [!<text>]
    a diagnostic, anything else is not protocol traffic. *)
Definition demo_codec : Codec := {|
  from_str_envelope := λ s,
    if starts_with "{" s then Some "result"
    else if starts_with "!" s then Some "diagnostic" else None;
  from_str_result := λ s,
    match strip_prefix "{" s with
    | Some id => Ok (WireResult.Passed id f64_zero PROTOCOL_VERSION [])
    | None => Err "expected value"
    end;
  from_str_minimal := λ _, None;
  from_str_diagnostic := λ s,
    match strip_prefix "!" s with
    | Some m => Some {| wd_severity := "warning"; wd_context := ""; wd_message := m;
                        wd_file := ""; wd_lineno := 0 |}
    | None => None
    end
|}.

Definition demo_item (id : string) : TestItem :=
  {| node_id := id; fn_name := "f"; lineno := 1; markers := MarkerSet.new; param_id := None;
     param_values := []; is_async := false; fixture_deps := []; fixref_deps := []; arranged := [] |}.

Definition demo_group : TaskGroup.t :=
  TaskGroup.single (mk_group "a.py" [demo_item "a.py::t1"; demo_item "a.py::t2"; demo_item "a.py::t3"]).

(** The worker prints noise, answers the first test, reports a diagnostic and
    dies. *)
Definition demo_turn : TurnInput :=
  mk_turn true 0
    [mk_tick 0 (RLine "hello") 1; mk_tick 1 (RLine "{a.py::t1") 2;
     mk_tick 2 (RLine "!leak") 3; mk_tick 3 RDisconnected 3].

