(* ===== verification/Parallel.v ===== *)
(** * Parallel: the worker pool and its coordinator ([src/parallel/mod.rs])

    [run_phase_parallel] as a transition system.  The coordinator's handling of
    one message, the lookup table, the pool size and the crash report of the
    groups left over are functions; which messages arrive, and when, is decided
    by the step relation, one constructor per thing a worker thread
    ([run_worker_loop], [src/worker_session.rs]) or the coordinator can do next:

    - a worker thread starts, or fails to spawn its process;
    - it pops a group and serves it ([worker_turn]), which fixes the messages it
      will send; they reach the channel one at a time, so the messages of
      several workers interleave freely;
    - it leaves its loop, reading the worker's tail when the worker is alive;
    - the coordinator takes the next message, until [--maxfail] stops it.

    [channel] is the unbounded message queue, [in_flight] the shared set of
    running tests.  [log] is a history variable: the messages taken so far. *)
From S2P Require Import Prelude F64 Types Scheduler Report Wire Drain.

(** ** The coordinator *)

Definition pool_size (worker_count : nat) (groups : list TaskGroup.t) : nat :=
  Nat.min (Nat.max worker_count 1) (Nat.max (length groups) 1).

(** [collect()] into a map: a later item replaces an earlier one with its id. *)
Definition item_lookup (groups : list TaskGroup.t) : gmap string TestItem :=
  fold_left (λ m item, <[node_id item := item]> m) (flat_map TaskGroup.group_items groups) ∅.

Record Coord := mk_coord {
  rep : ReporterSession;
  timings : list TestTiming;
  acc : FailureAccumulator.t;
  interrupted : bool
}.

(** [handle_worker_result]: the outcome, when the id is a scheduled test. *)
Definition handle_worker_result (lookup : gmap string TestItem) (resolved : ResolvedOutcome)
    (rep : ReporterSession) (timings : list TestTiming)
    : option TestOutcome.t * ReporterSession * list TestTiming :=
  match lookup !! ro_node_id resolved with
  | None => (None, rep, timings)
  | Some item =>
      (Some (ro_outcome resolved),
       record_outcome rep item (ro_outcome resolved) (ro_duration_ms resolved),
       timings ++ [{| tt_node_id := ro_node_id resolved;
                      tt_duration_ms := ro_duration_ms resolved;
                      tt_outcome := TestOutcome.kind (ro_outcome resolved) |}])
  end.

(** One iteration of [for message in rx]. *)
Definition on_message (lookup : gmap string TestItem) (c : Coord) (m : WorkerMessage) : Coord :=
  match m with
  | MDiagnostic entry =>
      mk_coord (record_diagnostics (rep c) [entry]) (timings c) (acc c) (interrupted c)
  | MResult resolved _ =>
      match handle_worker_result lookup resolved (rep c) (timings c) with
      | (None, r, t) => mk_coord r t (acc c) (interrupted c)
      | (Some outcome, r, t) =>
          let '(a, stop) := FailureAccumulator.record (acc c) outcome in
          mk_coord r t a (if stop then true else interrupted c)
      end
  end.

Definition crashed_resolved (item : TestItem) : ResolvedOutcome :=
  {| ro_node_id := node_id item; ro_duration_ms := f64_zero;
     ro_outcome := TestOutcome.crashed_sentinel |}.

Definition report_crashed (lookup : gmap string TestItem) (s : ReporterSession * list TestTiming)
    (item : TestItem) : ReporterSession * list TestTiming :=
  let '(_, r, t) := handle_worker_result lookup (crashed_resolved item) s.1 s.2 in (r, t).

(** [while let Some(group) = sched.pop()]; each pop shortens the queue, so its
    length is enough fuel. *)
Fixpoint drain_queue (fuel : nat) (lookup : gmap string TestItem) (sched : Scheduler.t)
    (s : ReporterSession * list TestTiming) : ReporterSession * list TestTiming :=
  match fuel with
  | 0 => s
  | S fuel' =>
      match Scheduler.pop sched with
      | (None, _) => s
      | (Some group, sched') =>
          drain_queue fuel' lookup sched'
            (fold_left (report_crashed lookup) (TaskGroup.group_items group) s)
      end
  end.

Definition drain_remaining_into_crashed (lookup : gmap string TestItem) (sched : Scheduler.t)
    (rep : ReporterSession) (timings : list TestTiming) (interrupted : bool)
    : ReporterSession * list TestTiming :=
  if interrupted then (rep, timings)
  else drain_queue (length (Scheduler.queue sched)) lookup sched (rep, timings).

(** ** The pool *)

(** Where a worker thread is: its process not started yet, between two groups,
    sending the messages of a group, sending its tail, or finished. *)
Inductive WPhase :=
  | Starting
  | Idle
  | Busy (pending : list WorkerMessage) (after : After)
  | Leaving (pending : list WorkerMessage)
  | Done.

Record Pool := mk_pool {
  sched : Scheduler.t;
  workers : list WPhase;
  channel : list WorkerMessage;
  in_flight : gset string;
  cancelled : bool;
  coord : Coord;
  log : list WorkerMessage
}.

Definition start (groups : list TaskGroup.t) (worker_count maxfail : nat) (rep : ReporterSession)
    : Pool :=
  mk_pool (Scheduler.new groups) (replicate (pool_size worker_count groups) Starting) [] ∅ false
    (mk_coord rep [] (FailureAccumulator.new maxfail) false) [].

Definition set_worker (p : Pool) (w : nat) (ph : WPhase) : Pool :=
  mk_pool (sched p) (<[w := ph]> (workers p)) (channel p) (in_flight p) (cancelled p) (coord p)
    (log p).

Definition group_ids (g : TaskGroup.t) : list string := map node_id (TaskGroup.group_items g).

(** A worker takes a group: it is popped, its tests are marked in flight when
    the task could be sent, and the turn's messages are pending. *)
Definition take_group (p : Pool) (w : nat) (g : TaskGroup.t) (s : Scheduler.t) (sent_ok : bool)
    (msgs : list WorkerMessage) (after : After) : Pool :=
  mk_pool s (<[w := Busy msgs after]> (workers p)) (channel p)
    (if sent_ok then list_to_set (group_ids g) ∪ in_flight p else in_flight p)
    (cancelled p) (coord p) (log p).

Definition push (p : Pool) (w : nat) (ph : WPhase) (m : WorkerMessage) : Pool :=
  mk_pool (sched p) (<[w := ph]> (workers p)) (channel p ++ [m]) (in_flight p) (cancelled p)
    (coord p) (log p).

(** The coordinator takes a message: a result's test is no longer in flight. *)
Definition deliver (lookup : gmap string TestItem) (p : Pool) (m : WorkerMessage)
    (rest : list WorkerMessage) : Pool :=
  mk_pool (sched p) (workers p) rest
    (match m with MResult r _ => in_flight p ∖ {[ro_node_id r]} | MDiagnostic _ => in_flight p end)
    (cancelled p) (on_message lookup (coord p) m) (log p ++ [m]).

Definition set_cancelled (p : Pool) : Pool :=
  mk_pool (sched p) (workers p) (channel p) (in_flight p) true (coord p) (log p).

Section Pool.
Context (cd : Codec) (watchdog : nat) (process_fixtures : list string).
Context (lookup : gmap string TestItem).

(** One move of one thread.  [step_take] assumes that results come back in task
    order, which the worker protocol promises
    ([docs/internals/src/worker-protocol.md]). *)
Inductive step (p : Pool) : Pool → Prop :=
  | step_spawn_failed w :
      workers p !! w = Some Starting → step p (set_worker p w Done)
  | step_spawned w :
      workers p !! w = Some Starting → step p (set_worker p w Idle)
  | step_take w g s input after msgs :
      workers p !! w = Some Idle → cancelled p = false →
      Scheduler.pop (sched p) = (Some g, s) →
      answers_in_order cd (TaskGroup.group_items g) input →
      worker_turn cd watchdog w process_fixtures g input = Some (after, msgs) →
      step p (take_group p w g s (send_ok input) msgs after)
  | step_leave w started ticks out :
      workers p !! w = Some Idle →
      cancelled p = true ∨ Scheduler.pop (sched p) = (None, sched p) →
      drain_until_eof cd started ticks watchdog = Some out →
      step p (set_worker p w (Leaving out))
  | step_send w m ms after :
      workers p !! w = Some (Busy (m :: ms) after) → step p (push p w (Busy ms after) m)
  | step_next w :
      workers p !! w = Some (Busy [] NextGroup) → step p (set_worker p w Idle)
  | step_dead w :
      workers p !! w = Some (Busy [] LeaveDead) → step p (set_worker p w Done)
  | step_unsent w started ticks out :
      workers p !! w = Some (Busy [] LeaveAlive) →
      drain_until_eof cd started ticks watchdog = Some out →
      step p (set_worker p w (Leaving out))
  | step_tail w m ms :
      workers p !! w = Some (Leaving (m :: ms)) → step p (push p w (Leaving ms) m)
  | step_exit w :
      workers p !! w = Some (Leaving []) → step p (set_worker p w Done)
  | step_deliver m rest :
      interrupted (coord p) = false → channel p = m :: rest →
      step p (deliver lookup p m rest)
  | step_cancel :
      interrupted (coord p) = true → cancelled p = false → step p (set_cancelled p).

(** The receive loop is over: [--maxfail] stopped it, or every sender is gone
    and the channel is empty. *)
Definition loop_over (p : Pool) : Prop :=
  interrupted (coord p) = true ∨
  (channel p = [] ∧ Forall (λ ph, ph = Done) (workers p)).

(** What [run_phase_parallel] reports at that point. *)
Definition phase_result (p : Pool) : bool * list TestTiming :=
  (interrupted (coord p),
   (drain_remaining_into_crashed lookup (sched p) (rep (coord p)) (timings (coord p))
      (interrupted (coord p))).2).

(** * Theorems *)

Definition pending_ids (ph : WPhase) : list string :=
  match ph with Busy l _ | Leaving l => result_ids l | _ => [] end.

Definition all_pending (p : Pool) : list string := flat_map pending_ids (workers p).

(** Every test is in exactly one place: reported, on the channel, pending in a
    worker thread, or still queued; and a test in flight will be answered. *)
Record inv (groups : list TaskGroup.t) (init : Coord) (p : Pool) : Prop := {
  i_ids : map tt_node_id (timings (coord p)) ++ result_ids (channel p) ++ all_pending p
            ++ flat_map group_ids (Scheduler.queue (sched p)) ≡ₚ flat_map group_ids groups;
  i_flight x : x ∈ in_flight p → x ∈ result_ids (channel p) ++ all_pending p;
  i_coord : coord p = fold_left (on_message lookup) (log p) init
}.

Lemma pending_split ws w ph ph' :
  ws !! w = Some ph →
  ∃ rest, flat_map pending_ids ws ≡ₚ pending_ids ph ++ rest ∧
    flat_map pending_ids (<[w := ph']> ws) ≡ₚ pending_ids ph' ++ rest.
Proof.
  intros Hw. exists (flat_map pending_ids (take w ws) ++ flat_map pending_ids (drop (S w) ws)).
  rewrite insert_take_drop by (by eapply lookup_lt_Some).
  rewrite <-(take_drop_middle ws w ph Hw) at 1. rewrite !flat_map_app. simpl.
  split; solve_Permutation.
Qed.

Lemma result_ids_cons m ms : result_ids (m :: ms) = result_ids [m] ++ result_ids ms.
Proof. apply (result_ids_app [m] ms). Qed.

Lemma inv_set_worker groups init p w ph ph' :
  workers p !! w = Some ph → pending_ids ph' = pending_ids ph →
  inv groups init p → inv groups init (set_worker p w ph').
Proof.
  intros Hw Hp [H1 H2 H3]. destruct (pending_split _ _ _ ph' Hw) as (rest & E1 & E2).
  rewrite Hp in E2. unfold all_pending in *.
  split; unfold all_pending; simpl; [|intros x Hx|done].
  - by rewrite E2, <-E1.
  - rewrite E2, <-E1. auto.
Qed.

Lemma inv_take groups init p w g s ok msgs after :
  workers p !! w = Some Idle → Scheduler.pop (sched p) = (Some g, s) →
  result_ids msgs = group_ids g →
  inv groups init p → inv groups init (take_group p w g s ok msgs after).
Proof.
  intros Hw Hpop Hids [H1 H2 H3].
  destruct (pending_split _ _ _ (Busy msgs after) Hw) as (rest & E1 & E2). simpl in E1, E2.
  unfold Scheduler.pop in Hpop. destruct (Scheduler.queue (sched p)) as [|g' q] eqn:Hq; simplify_eq.
  unfold all_pending in *. simpl in H1. rewrite E1 in H1.
  split; unfold all_pending; simpl; [|intros x|done].
  - rewrite E2, Hids, <-H1. solve_Permutation.
  - rewrite E2, Hids. setoid_rewrite E1 in H2. destruct ok; set_solver.
Qed.

Lemma inv_push groups init p w ph ph' m :
  workers p !! w = Some ph → pending_ids ph = result_ids [m] ++ pending_ids ph' →
  inv groups init p → inv groups init (push p w ph' m).
Proof.
  intros Hw Hp [H1 H2 H3]. destruct (pending_split _ _ _ ph' Hw) as (rest & E1 & E2).
  rewrite Hp in E1. unfold all_pending in *. rewrite E1 in H1.
  split; unfold all_pending; simpl; [|intros x Hx|done].
  - rewrite E2, result_ids_app, <-H1. solve_Permutation.
  - rewrite E2, result_ids_app. apply H2 in Hx. rewrite E1 in Hx. set_solver.
Qed.

(** A message about scheduled tests is entered in the timings. *)
Lemma on_message_timings c m :
  (∀ x, x ∈ result_ids [m] → is_Some (lookup !! x)) →
  map tt_node_id (timings (on_message lookup c m)) =
    map tt_node_id (timings c) ++ result_ids [m].
Proof.
  destruct m as [r w|e]; simpl; [|by rewrite app_nil_r]. intros Hl.
  unfold handle_worker_result, result_ids. simpl.
  destruct (Hl (ro_node_id r)) as [item ->]; [by apply elem_of_cons; left|].
  destruct (FailureAccumulator.record (acc c) (ro_outcome r)) as [a stop]. simpl.
  by rewrite map_app.
Qed.

Lemma inv_deliver groups init p m rest :
  (∀ x, x ∈ flat_map group_ids groups → is_Some (lookup !! x)) →
  channel p = m :: rest →
  inv groups init p → inv groups init (deliver lookup p m rest).
Proof.
  intros Hl Hc [H1 H2 H3]. rewrite Hc in H1, H2. rewrite result_ids_cons in H1, H2.
  split; unfold all_pending in *; simpl.
  - rewrite on_message_timings; [|intros x Hx; apply Hl; rewrite <-H1; set_solver].
    rewrite <-H1. solve_Permutation.
  - destruct m as [r w|e]; unfold result_ids at 1 in H2; simpl in H2; [|done].
    intros x [Hx Hne]%elem_of_difference. apply H2 in Hx. set_solver.
  - by rewrite fold_left_app, <-H3.
Qed.

Lemma tail_result_ids started ticks out :
  drain_until_eof cd started ticks watchdog = Some out → result_ids out = [].
Proof.
  intros [E _]%tail_loop_spec; [|lia]. unfold result_ids. by rewrite E.
Qed.

Lemma inv_step groups init p p' :
  (∀ x, x ∈ flat_map group_ids groups → is_Some (lookup !! x)) →
  inv groups init p → step p p' → inv groups init p'.
Proof.
  intros Hl Hp Hs. destruct Hs.
  - by eapply inv_set_worker.
  - by eapply inv_set_worker.
  - eapply inv_take; [done..| |done]. by eapply turn_in_order.
  - eapply inv_set_worker; [done| |done]. simpl. by eapply tail_result_ids.
  - eapply inv_push; [done| |done]. simpl. apply result_ids_cons.
  - by eapply inv_set_worker.
  - by eapply inv_set_worker.
  - eapply inv_set_worker; [done| |done]. simpl. by eapply tail_result_ids.
  - eapply inv_push; [done| |done]. simpl. apply result_ids_cons.
  - by eapply inv_set_worker.
  - by eapply inv_deliver.
  - destruct Hp. by split.
Qed.

(** The groups nobody was left to run are all reported. *)
Lemma fold_report_crashed l s :
  (∀ x, x ∈ map node_id l → is_Some (lookup !! x)) →
  map tt_node_id (fold_left (report_crashed lookup) l s).2 = map tt_node_id s.2 ++ map node_id l.
Proof.
  revert s. induction l as [|i l IH]; intros s Hl; simpl; [by rewrite app_nil_r|].
  rewrite IH by (intros x Hx; apply Hl; simpl; set_solver).
  unfold report_crashed at 1, handle_worker_result. simpl.
  destruct (Hl (node_id i)) as [item ->]; [simpl; by apply elem_of_cons; left|]. simpl.
  by rewrite map_app, <-app_assoc.
Qed.

Lemma drain_queue_ids fuel q s :
  length q ≤ fuel → (∀ x, x ∈ flat_map group_ids q → is_Some (lookup !! x)) →
  map tt_node_id (drain_queue fuel lookup (Scheduler.mk q) s).2 =
    map tt_node_id s.2 ++ flat_map group_ids q.
Proof.
  revert q s. induction fuel as [|fuel IH]; intros [|g q] s Hf Hl; simpl in *;
    try (by rewrite app_nil_r); [lia|].
  rewrite IH; [|lia|intros x Hx; apply Hl, elem_of_app; auto].
  rewrite fold_report_crashed by (intros x Hx; apply Hl, elem_of_app; auto).
  by rewrite <-app_assoc.
Qed.

(** ** The phase always ends *)

Definition rank (ph : WPhase) : nat :=
  match ph with Starting => 5 | Idle => 2 | Busy _ _ => 4 | Leaving _ => 1 | Done => 0 end.

Definition backlog (ph : WPhase) : nat :=
  match ph with Busy l _ | Leaving l => length l | _ => 0 end.

(** Work left to start, then messages left to move. *)
Definition weight (p : Pool) : nat * nat :=
  (10 * length (Scheduler.queue (sched p)) + sum_list_with rank (workers p)
     + (if cancelled p then 0 else 1),
   2 * sum_list_with backlog (workers p) + length (channel p)).

Definition lighter (a b : nat * nat) : Prop := a.1 < b.1 ∨ (a.1 = b.1 ∧ a.2 < b.2).

Lemma lighter_wf : well_founded lighter.
Proof.
  intros [a b]. revert b. induction (lt_wf a) as [a _ IHa]. intros b.
  induction (lt_wf b) as [b _ IHb]. constructor. intros [a' b'] [H|[H1 H2]]; simpl in *.
  - by apply IHa.
  - subst. by apply IHb.
Qed.

Lemma sum_insert (f : WPhase → nat) ws w ph ph' :
  ws !! w = Some ph →
  sum_list_with f (<[w := ph']> ws) + f ph = sum_list_with f ws + f ph'.
Proof.
  revert w. induction ws as [|x ws IH]; intros [|w] Hw; simpl in *; simplify_eq; [lia|].
  specialize (IH w Hw). lia.
Qed.

Ltac by_weight ph' :=
  match goal with
  | H : workers _ !! _ = Some ?ph |- _ =>
      pose proof (sum_insert rank _ _ _ ph' H); pose proof (sum_insert backlog _ _ _ ph' H);
      unfold lighter, weight; simpl in *; lia
  end.

Lemma step_lighter p p' : step p p' → lighter (weight p') (weight p).
Proof.
  intros Hs. destruct Hs.
  - by_weight Done.
  - by_weight Idle.
  - unfold Scheduler.pop in *. destruct (Scheduler.queue (sched p)) eqn:Hq; simplify_eq.
    pose proof (sum_insert rank _ _ _ (Busy msgs after) H).
    unfold lighter, weight. simpl. rewrite Hq. simpl in *. lia.
  - by_weight (Leaving out).
  - pose proof (sum_insert rank _ _ _ (Busy ms after) H).
    pose proof (sum_insert backlog _ _ _ (Busy ms after) H).
    unfold lighter, weight. simpl in *. rewrite length_app. simpl. lia.
  - by_weight Idle.
  - by_weight Done.
  - by_weight (Leaving out).
  - pose proof (sum_insert rank _ _ _ (Leaving ms) H).
    pose proof (sum_insert backlog _ _ _ (Leaving ms) H).
    unfold lighter, weight. simpl in *. rewrite length_app. simpl. lia.
  - by_weight Done.
  - unfold lighter, weight. simpl. rewrite H0. simpl. lia.
  - unfold lighter, weight. simpl. rewrite H0. simpl. lia.
Qed.

Lemma closed_tail : drain_until_eof cd 0 [mk_tick 0 RDisconnected 0] watchdog = Some [].
Proof. unfold drain_until_eof. simpl. by destruct (watchdog - 0 =? 0). Qed.

Lemma worker_can_step p w ph :
  workers p !! w = Some ph → ph ≠ Done → ∃ p', step p p'.
Proof.
  intros Hw Hd. destruct ph as [| |[|m ms] []|[|m ms]|]; try done.
  - eexists. by eapply step_spawned.
  - destruct (cancelled p) eqn:Hc.
    { eexists. eapply step_leave; [done|by left|apply closed_tail]. }
    destruct (Scheduler.pop (sched p)) as [[g|] s] eqn:Hp.
    + eexists. eapply (step_take p w g s (mk_turn false 0 [])); try done.
      unfold answers_in_order. simpl. by rewrite take_nil; exists (group_ids g).
    + eexists. eapply step_leave; [done| |apply closed_tail]. right.
      unfold Scheduler.pop in *. by destruct (Scheduler.queue (sched p)).
  - eexists. by eapply step_next.
  - eexists. eapply step_unsent; [done|apply closed_tail].
  - eexists. by eapply step_dead.
  - eexists. by eapply step_send.
  - eexists. by eapply step_send.
  - eexists. by eapply step_send.
  - eexists. by eapply step_exit.
  - eexists. by eapply step_tail.
Qed.

(** C11: The parallel phase always ends: no run of the pool is infinite, and a
    run that cannot go on is one whose receive loop is over; no worker thread
    and no message is ever stuck, in any state and not only in reachable ones. *)
Theorem parallel_phase_ends :
  well_founded (λ p' p, step p p') ∧
  (∀ p, loop_over p ∨ ∃ p', step p p').
Proof.
  split.
  - eapply wf_projected; [|apply lighter_wf]. intros p' p. apply step_lighter.
  - intros p. destruct (interrupted (coord p)) eqn:Hi; [left; by left|].
    destruct (channel p) as [|m rest] eqn:Hc; [|right; eexists; by eapply step_deliver].
    destruct (decide (Forall (λ ph, rank ph = 0) (workers p))) as [Hf|Hf].
    + left. right. split; [done|]. eapply Forall_impl; [done|]. by intros [].
    + right. apply not_Forall_Exists, Exists_exists in Hf as (ph & [w Hw]%list_elem_of_lookup & Hr);
        [|intros ?; apply Nat.eq_dec].
      eapply worker_can_step; [done|]. intros ->. by apply Hr.
Qed.

(** ** The failure limit *)

(** The outcomes the coordinator has reported. *)
Definition reported (m : WorkerMessage) : option TestOutcome.t :=
  match m with
  | MResult r _ => match lookup !! ro_node_id r with Some _ => Some (ro_outcome r) | None => None end
  | MDiagnostic _ => None
  end.

Lemma hard_failures_app l1 l2 : hard_failures (l1 ++ l2) = hard_failures l1 + hard_failures l2.
Proof. induction l1 as [|o l1 IH]; simpl; [done|]. lia. Qed.

Record limit_inv (maxfail : nat) (p : Pool) : Prop := {
  l_count : FailureAccumulator.count (acc (coord p)) = hard_failures (omap reported (log p));
  l_max : FailureAccumulator.max (acc (coord p)) = maxfail;
  l_stop : interrupted (coord p) = (0 <? maxfail) && (maxfail <=? hard_failures (omap reported (log p)));
  l_le : 0 < maxfail → hard_failures (omap reported (log p)) ≤ maxfail
}.

Lemma limit_step maxfail p p' : limit_inv maxfail p → step p p' → limit_inv maxfail p'.
Proof.
  intros [H1 H2 H3 H4] Hs. destruct Hs as [| | | | | | | | | |m rest Hi Hc|]; try (by split).
  rewrite H3 in Hi. unfold deliver. simpl.
  assert (∀ o, omap reported (log p ++ [m]) = omap reported (log p) ++ option_list o →
    reported m = o → limit_inv maxfail (deliver lookup p m rest)) as Hgoal; [|].
  2: { eapply Hgoal; [|done]. rewrite omap_app. csimpl. by destruct (reported m). }
  intros o Ho Hm. assert (hard_failures (omap reported (log p ++ [m])) =
    hard_failures (omap reported (log p)) + hard_failures (option_list o)) as Hh
    by (by rewrite Ho, hard_failures_app).
  destruct m as [r w|e]; simpl in Hm.
  - unfold deliver. simpl. unfold handle_worker_result.
    destruct (lookup !! ro_node_id r); subst o; simpl in Hh.
    + unfold FailureAccumulator.record. rewrite H1, H2.
      split; simpl; rewrite ?Hh; destruct (TestOutcome.is_hard_failure _); simpl;
        rewrite ?H3, ?Nat.add_0_r, ?Nat.add_1_r; try done;
        destruct (Nat.ltb_spec 0 maxfail); simpl in *; try lia;
        destruct (Nat.leb_spec maxfail (hard_failures (omap reported (log p)))); simpl in *; try lia;
        try done; by destruct (_ <=? _).
    + split; simpl; rewrite ?Hh, ?Nat.add_0_r; done.
  - subst o. simpl in Hh. split; simpl; rewrite ?Hh, ?Nat.add_0_r; done.
Qed.

End Pool.

Lemma item_lookup_covers groups x :
  x ∈ flat_map group_ids groups → is_Some (item_lookup groups !! x).
Proof.
  unfold item_lookup, group_ids.
  assert (flat_map (λ g, map node_id (TaskGroup.group_items g)) groups =
    map node_id (flat_map TaskGroup.group_items groups)) as ->
    by (induction groups; simpl; rewrite ?map_app; congruence).
  generalize (flat_map TaskGroup.group_items groups). intros l.
  induction l as [|i l IH] using rev_ind; [by intros ?%elem_of_nil|].
  rewrite map_app, fold_left_app. simpl. intros [Hx|Hx]%elem_of_app.
  - destruct (decide (node_id i = x)) as [->|]; [by rewrite lookup_insert_eq|].
    rewrite lookup_insert_ne by done. auto.
  - apply list_elem_of_singleton in Hx as ->. by rewrite lookup_insert_eq.
Qed.

Section Run.
Context (cd : Codec) (watchdog : nat) (process_fixtures : list string).
Context (groups : list TaskGroup.t) (worker_count maxfail : nat) (rep0 : ReporterSession).

(** The runs of [run_phase_parallel]. *)
Definition reachable (p : Pool) : Prop :=
  rtc (step cd watchdog process_fixtures (item_lookup groups))
    (start groups worker_count maxfail rep0) p.

Lemma flat_map_replicate_nil {A B} (f : A → list B) n a :
  f a = [] → flat_map f (replicate n a) = [].
Proof. intros H. induction n; simpl; [done|]. by rewrite H. Qed.

Lemma reachable_inv p :
  reachable p →
  inv (item_lookup groups) groups (coord (start groups worker_count maxfail rep0)) p ∧
  limit_inv (item_lookup groups) maxfail p.
Proof.
  intros Hr. pattern p. refine (rtc_ind_r _ (start groups worker_count maxfail rep0) _ _ p Hr).
  - split.
    + split; simpl; [|set_solver|done].
      unfold all_pending. simpl. by rewrite flat_map_replicate_nil.
    + split; simpl; try done; [|lia]. by destruct maxfail.
  - intros q q' _ Hs [Hi Hl]. split; [|by eapply limit_step].
    eapply inv_step; [|done..]. intros x. apply item_lookup_covers.
Qed.

Lemma phase_conserves p :
  reachable p → loop_over p →
  let '(stopped, t) := phase_result (item_lookup groups) p in
  (stopped = false → map tt_node_id t ≡ₚ flat_map group_ids groups ∧ in_flight p = ∅) ∧
  (stopped = true → map tt_node_id t ⊆+ flat_map group_ids groups).
Proof.
  intros Hr Hover. destruct (reachable_inv p Hr) as [[H1 H2 H3] _]. simpl.
  unfold drain_remaining_into_crashed.
  assert (∀ x, x ∈ flat_map group_ids (Scheduler.queue (sched p)) →
    is_Some (item_lookup groups !! x)) as Hq.
  { intros x Hx. apply item_lookup_covers. rewrite <-H1. set_solver. }
  split; intros Hi; rewrite Hi.
  - destruct Hover as [?|[Hc Hd]]; [congruence|].
    assert (all_pending p = []) as Hp.
    { unfold all_pending. clear -Hd. induction Hd as [|ph ws ->]; simpl; done. }
    rewrite Hc, Hp in H1, H2. simpl in H1, H2. destruct (sched p) as [q]. split.
    + rewrite drain_queue_ids by done. done.
    + apply set_eq. intros x. split; [|set_solver]. intros Hx. apply H2 in Hx. set_solver.
  - simpl. rewrite <-H1. apply submseteq_inserts_r. done.
Qed.

(** C2: When the parallel phase was not stopped, every test of every group is
    reported exactly once, whichever workers ran it, however their messages
    interleave and whichever workers crash, hang, stop half-way or never start,
    and no test is left marked in flight; when [--maxfail] stopped it, no test
    is reported twice and none is reported that was not scheduled.  A worker is
    only assumed to answer the tests of a group in the order of its task
    ([answers_in_order], a premise of [step_take]). *)
Theorem parallel_reports_each_test_once p :
  reachable p → loop_over p →
  let '(stopped, t) := phase_result (item_lookup groups) p in
  (stopped = false → map tt_node_id t ≡ₚ flat_map group_ids groups ∧ in_flight p = ∅) ∧
  (stopped = true → map tt_node_id t ⊆+ flat_map group_ids groups).
Proof. apply phase_conserves. Qed.

(** Once stopped, the coordinator's tallies are final. *)
Lemma stopped_is_final lookup p p' :
  interrupted (coord p) = true →
  rtc (step cd watchdog process_fixtures lookup) p p' → coord p' = coord p.
Proof.
  intros Hi Hr. induction Hr as [|p q r Hs _ IH]; [done|].
  assert (coord q = coord p) as E.
  { destruct Hs as [| | | | | | | | | |m rest Hi'|]; try done. congruence. }
  rewrite <-E. apply IH. by rewrite E.
Qed.

(** With [--maxfail n] the pool stops at the first moment [n] hard failures
    have been reported and never reports more than [n] of them; it never stops
    otherwise; and once stopped nothing the workers still do changes what is
    reported, so tests that did not run are not reported as crashes. *)
Theorem parallel_maxfail p :
  reachable p →
  let failures := hard_failures (omap (reported (item_lookup groups)) (log p)) in
  (interrupted (coord p) = true ↔ 0 < maxfail ∧ failures = maxfail) ∧
  (0 < maxfail → failures ≤ maxfail) ∧
  (interrupted (coord p) = true → ∀ p',
     rtc (step cd watchdog process_fixtures (item_lookup groups)) p p' →
     phase_result (item_lookup groups) p' = (true, timings (coord p))).
Proof.
  intros Hr. destruct (reachable_inv p Hr) as [_ [_ _ H3 H4]]. simpl. split_and!; [|done|].
  - rewrite H3, andb_true_iff, Nat.ltb_lt, Nat.leb_le. lia.
  - intros Hi p' Hp'. unfold phase_result. rewrite (stopped_is_final _ _ _ Hi Hp'). by rewrite Hi.
Qed.

End Run.

(** ** Witnesses *)

(** One worker: it answers the first test, reports a diagnostic and dies; the
    other two tests are answered by sentinels. *)
Ltac next_step tac := eapply rtc_l; [tac; vm_compute; reflexivity|].

Lemma demo_pool_run maxfail :
  maxfail = 0 ∨ maxfail = 2 →
  ∃ p, reachable demo_codec 1000 [] [demo_group] 4 maxfail (new_session 0) p ∧
    channel p = [] ∧ workers p = [Done] ∧
    map tt_node_id (timings (coord p)) = ["a.py::t1"; "a.py::t2"; "a.py::t3"] ∧
    interrupted (coord p) = (maxfail =? 2) ∧
    hard_failures (omap (reported (item_lookup [demo_group])) (log p)) = 2.
Proof.
  intros Hm. eexists. split.
  - unfold reachable.
    next_step ltac:(eapply (step_spawned _ _ _ _ _ 0)).
    eapply rtc_l.
    { eapply (step_take _ _ _ _ _ 0 demo_group (Scheduler.mk []) demo_turn LeaveDead);
        [vm_compute; reflexivity..| |vm_compute; reflexivity].
      exists ["a.py::t2"; "a.py::t3"]. reflexivity. }
    do 4 next_step ltac:(eapply (step_send _ _ _ _ _ 0)).
    next_step ltac:(eapply (step_dead _ _ _ _ _ 0)).
    do 4 (eapply rtc_l; [eapply step_deliver; [destruct Hm as [-> | ->]|]; vm_compute; reflexivity|]).
    apply rtc_refl.
  - destruct Hm as [-> | ->]; vm_compute; split_and!; reflexivity.
Qed.

Lemma parallel_reports_each_test_once_witness :
  ∃ t, map tt_node_id t ≡ₚ ["a.py::t1"; "a.py::t2"; "a.py::t3"] ∧ length t = 3.
Proof.
  destruct (demo_pool_run 0) as (p & Hr & Hc & Hw & Ht & Hi & _); [by left|].
  destruct (parallel_reports_each_test_once demo_codec 1000 [] [demo_group] 4 0 (new_session 0) p Hr)
    as [H _].
  - right. rewrite Hw. split; [done|]. by constructor.
  - rewrite Hi in H. destruct (H eq_refl) as [E _].
    eexists. split; [exact E|]. apply Permutation_length in E. by rewrite length_map in E.
Defined.

Lemma parallel_maxfail_witness :
  ∃ p, reachable demo_codec 1000 [] [demo_group] 4 2 (new_session 0) p ∧
    interrupted (coord p) = true.
Proof.
  destruct (demo_pool_run 2) as (p & Hr & _ & _ & _ & _ & Hf); [by right|].
  exists p. split; [done|].
  apply (parallel_maxfail demo_codec 1000 [] [demo_group] 4 2 (new_session 0) p Hr). simpl.
  split; [lia|done].
Defined.
