(* ===== verification/Strict.v ===== *)
(** * Strict: strict-mode violations ([src/strict.rs])

    The violations ([PerTestViolation], [SuiteViolation]), their decoding from
    the raw records of the Python bridge ([check_collected]), their rendering,
    and the split of the collected items they cause ([apply_strict_mode],
    [src/pipeline/helpers.rs]).  The raw records' kinds are those of
    [src/bridge.rs].

    A line number is a [usize]: [N], with the bound of [str::parse] written
    out.  [{:<60}] pads by characters.  The abort report's two artefact writers
    are their exit votes, as in [Report.v]. *)
From S2P Require Import Prelude Text F64 Types Report.
From stdpp Require Import pretty.

(** ** Standard library: words and numbers *)

(** [s.split_whitespace()], on characters: [cur] is the word being read. *)
Fixpoint words_from (cur : list char) (l : list char) : list string :=
  match l with
  | [] => match cur with [] => [] | _ => [of_chars cur] end
  | c :: l' =>
      if is_whitespace c
      then match cur with [] => words_from [] l' | _ => of_chars cur :: words_from [] l' end
      else words_from (cur ++ [c]) l'
  end.

Definition split_whitespace (s : string) : list string := words_from [] (chars s).

Definition digit_value (c : char) : option N :=
  if ((48 <=? c) && (c <=? 57))%N then Some (c - 48)%N else None.

Fixpoint digits_from (acc : N) (l : list char) : option N :=
  match l with
  | [] => Some acc
  | c :: l' =>
      match digit_value c with
      | Some d =>
          let acc' := (acc * 10 + d)%N in
          if (acc' <=? 18446744073709551615)%N then digits_from acc' l' else None
      | None => None
      end
  end.

(** [s.parse::<usize>().ok()]: an optional [+], then decimal digits. *)
Definition parse_usize (s : string) : option N :=
  let cs := chars s in
  let ds := match cs with c :: rest => if (c =? 43)%N then rest else cs | [] => [] end in
  match ds with [] => None | _ => digits_from 0 ds end.

(** [s.rsplit_once(' ')] *)
Fixpoint rsplit_once_space (s : string) : option (string * string) :=
  match s with
  | "" => None
  | String a s' =>
      match rsplit_once_space s' with
      | Some (x, y) => Some (String a x, y)
      | None => if (Ascii.N_of_ascii a =? 32)%N then Some ("", s') else None
      end
  end.

(** [format!("{:<60}", s)] *)
Definition pad60 (s : string) : string :=
  s +:+ of_chars (replicate (60 - length (chars s)) 32%N).

(** ** Violations *)

Inductive PerTestViolation :=
  | BareAssert (node_id : string) (lines : list N)
  | BroadFixtureType (node_id detail : string)
  | DictParametrize (node_id : string)
  | InvalidModuleMark (node_id detail : string)
  | MissingMarkReason (node_id mark_name : string)
  | ModuleLevelDef (node_id fn_name : string) (lineno : N)
  | MissingReturnAnnotation (node_id fixture_name : string)
  | SingleCaseParametrize (node_id : string)
  | TestReturnsValue (node_id : string) (lines : list N)
  | UnusedFixture (node_id fixture_name : string).

Inductive SuiteViolation := MarkerNoDescription (marker_name : string).

Inductive StrictViolation :=
  | PerTest (v : PerTestViolation)
  | Suite (v : SuiteViolation).

Definition pt_node_id (v : PerTestViolation) : string :=
  match v with
  | BareAssert id _ | BroadFixtureType id _ | DictParametrize id | InvalidModuleMark id _
  | MissingMarkReason id _ | ModuleLevelDef id _ _ | MissingReturnAnnotation id _
  | SingleCaseParametrize id | TestReturnsValue id _ | UnusedFixture id _ => id
  end.

Definition violation_node_id (v : StrictViolation) : option string :=
  match v with PerTest p => Some (pt_node_id p) | Suite _ => None end.

(** ** Raw records ([src/bridge.rs]) *)

Inductive ViolationKind :=
  | VBareAssert | VBroadFixtureType | VDictParametrize | VInvalidModuleMark
  | VMissingMarkReason | VMissingReturnAnnotation | VModuleLevelDef
  | VSingleCaseParametrize | VTestReturnsValue | VUnusedFixture | VUnknown.

Definition kind_of_wire (s : string) : ViolationKind :=
  if String.eqb s "bare_assert" then VBareAssert
  else if String.eqb s "broad_fixture_type" then VBroadFixtureType
  else if String.eqb s "dict_parametrize" then VDictParametrize
  else if String.eqb s "invalid_module_mark" then VInvalidModuleMark
  else if String.eqb s "missing_mark_reason" then VMissingMarkReason
  else if String.eqb s "missing_return_annotation" then VMissingReturnAnnotation
  else if String.eqb s "module_level_def" then VModuleLevelDef
  else if String.eqb s "single_case_parametrize" then VSingleCaseParametrize
  else if String.eqb s "test_returns_value" then VTestReturnsValue
  else if String.eqb s "unused_fixture" then VUnusedFixture
  else VUnknown.

Record RawViolation := mk_raw {
  rv_node_id : string;
  rv_kind : ViolationKind;
  rv_detail : string
}.

(** ** Detection *)

Definition check_config (markers_without_description : list string) : list StrictViolation :=
  map (λ name, Suite (MarkerNoDescription name)) markers_without_description.

Definition detail_lines (detail : string) : list N := omap parse_usize (split_whitespace detail).

(** One record: the closure of [filter_map]. *)
Definition check_one (r : RawViolation) : option StrictViolation :=
  let id := rv_node_id r in
  match rv_kind r with
  | VBareAssert => Some (PerTest (BareAssert id (detail_lines (rv_detail r))))
  | VBroadFixtureType => Some (PerTest (BroadFixtureType id (rv_detail r)))
  | VDictParametrize => Some (PerTest (DictParametrize id))
  | VInvalidModuleMark => Some (PerTest (InvalidModuleMark id (rv_detail r)))
  | VModuleLevelDef =>
      match rsplit_once_space (rv_detail r) with
      | None => None
      | Some (fn_name, lineno) =>
          match parse_usize lineno with
          | None => None
          | Some n => Some (PerTest (ModuleLevelDef id fn_name n))
          end
      end
  | VMissingMarkReason => Some (PerTest (MissingMarkReason id (rv_detail r)))
  | VMissingReturnAnnotation => Some (PerTest (MissingReturnAnnotation id (rv_detail r)))
  | VSingleCaseParametrize => Some (PerTest (SingleCaseParametrize id))
  | VTestReturnsValue => Some (PerTest (TestReturnsValue id (detail_lines (rv_detail r))))
  | VUnusedFixture => Some (PerTest (UnusedFixture id (rv_detail r)))
  | VUnknown => None
  end.

Definition check_collected (raw : list RawViolation) : list StrictViolation := omap check_one raw.

Definition suite_of (v : StrictViolation) : option SuiteViolation :=
  match v with Suite s => Some s | PerTest _ => None end.

Definition suite_level (violations : list StrictViolation) : list SuiteViolation :=
  omap suite_of violations.

(** ** Rendering *)

Definition lines_phrase (lines : list N) : string :=
  (if length lines =? 1 then "line" else "lines") +:+ " " +:+ Text.join ", " (map pretty lines).

Definition per_test_line (v : PerTestViolation) : string :=
  pad60 (pt_node_id v) +:+
  match v with
  | BareAssert _ [] => "  bare-assert"
  | BareAssert _ lines => "  bare-assert        " +:+ lines_phrase lines
  | BroadFixtureType _ d => "  broad-fixture-type   " +:+ d
  | DictParametrize _ => "  dict-parametrize"
  | InvalidModuleMark _ d => "  invalid-module-mark   " +:+ d
  | MissingMarkReason _ m => "  missing-mark-reason   " +:+ m
  | MissingReturnAnnotation _ f => "  missing-return-annotation   " +:+ f
  | ModuleLevelDef _ f n => "  module-level-def   " +:+ f +:+ " line " +:+ pretty n
  | SingleCaseParametrize _ => "  single-case-parametrize"
  | TestReturnsValue _ lines => "  test-returns-value   " +:+ lines_phrase lines
  | UnusedFixture _ f => "  unused-fixture   " +:+ f
  end.

Definition quote : string := String (Ascii.ascii_of_nat 34) "".

Definition suite_line (v : SuiteViolation) : string :=
  match v with
  | MarkerNoDescription m => "markers[" +:+ quote +:+ m +:+ quote +:+ "]   no description"
  end.

Definition format_violation_line (v : StrictViolation) : string :=
  match v with PerTest p => per_test_line p | Suite s => suite_line s end.

Definition violation_message (v : PerTestViolation) : string :=
  match v with
  | BareAssert _ [] => "strict: bare assert (no line info)"
  | BareAssert _ lines => "strict: bare assert on " +:+ lines_phrase lines
  | BroadFixtureType _ d => "strict: broad fixture type — " +:+ d
  | DictParametrize _ => "strict: use a frozen dataclass instead of dict for parametrize cases"
  | InvalidModuleMark _ d => "strict: invalid module-level mark " +:+ d
  | MissingMarkReason _ m => "strict: @mark." +:+ m +:+ " requires reason="
  | MissingReturnAnnotation _ f =>
      "strict: fixture '" +:+ f +:+ "' is missing a return type annotation"
  | ModuleLevelDef _ f n =>
      "strict: '" +:+ f +:+ "' (line " +:+ pretty n +:+ ") is a module-level definition in a "
      +:+ "test file that is neither a test nor a fixture declaration. Move it "
      +:+ "to a module tests can import, or prefix it with '_' to mark it file-local"
  | SingleCaseParametrize _ => "strict: @parametrize with a single case — use a plain test instead"
  | TestReturnsValue _ lines =>
      "strict: a test function returns None, but this one returns a value ("
      +:+ lines_phrase lines +:+ "). oxitest discards it, so an assertion written as "
      +:+ "`return a == b` never runs. Use `assert a == b, " +:+ quote +:+ "why it matters"
      +:+ quote +:+ "`"
  | UnusedFixture _ f => "strict: fixture '" +:+ f +:+ "' is defined but never used"
  end.

Definition per_test_error (v : PerTestViolation) : TestOutcome.t :=
  TestOutcome.Error (diagnostic_sentinel (violation_message v)).

(** ** The split of the items ([src/pipeline/helpers.rs]) *)

Inductive StrictMode := StrictAbort | Enforce | Off.

Record StrictModeResult := mk_strict {
  clean_items : list TestItem;
  violated_items : list TestItem;
  all_violations : list StrictViolation;
  suite_lines : list string
}.

Definition is_violated (violations : list StrictViolation) (item : TestItem) : bool :=
  bool_decide (node_id item ∈ (list_to_set (omap violation_node_id violations) : gset string)).

(** [json_vote], [junit_vote]: the votes of the two artefact writers asked for. *)
Definition apply_strict_mode (strict : option StrictMode)
    (markers_without_description : list string) (items : list TestItem)
    (raw_violations : list RawViolation) (json_vote junit_vote : option ExitVote)
    : result StrictModeResult ExitCode.t :=
  match strict with
  | None => Ok (mk_strict items [] [] [])
  | Some mode =>
      let violations := check_config markers_without_description ++ check_collected raw_violations in
      match mode, violations with
      | StrictAbort, _ :: _ => Err (strict_abort_code json_vote junit_vote)
      | Enforce, _ =>
          let '(violated, clean) := List.partition (is_violated violations) items in
          Ok (mk_strict clean violated violations (map suite_line (suite_level violations)))
      | _, _ => Ok (mk_strict items [] violations [])
      end
  end.

(** [report_violations] ([src/pipeline/execution.rs]): the events reported for
    the violated items, in order. *)
Definition violation_of (violations : list StrictViolation) (item : TestItem)
    : option PerTestViolation :=
  find_map (λ v, match v with
                 | PerTest p => if String.eqb (pt_node_id p) (node_id item) then Some p else None
                 | Suite _ => None
                 end) violations.

Definition violation_event (violations : list StrictViolation) (item : TestItem) : option event :=
  match violation_of violations item with
  | Some p => Some (item, per_test_error p, f64_zero)
  | None => None
  end.

Definition report_violations (violated : list TestItem) (violations : list StrictViolation)
    (rep : ReporterSession) : ReporterSession :=
  fold_left complete (omap (violation_event violations) violated) rep.

(** * Theorems *)

(** ** Numbers in a record's detail *)

Definition is_digit (c : char) : Prop := (48 ≤ c ≤ 57)%N.

Lemma chars_app l t :
  Forall is_digit l → chars (of_chars l +:+ t) = l ++ chars t.
Proof.
  induction 1 as [|c l Hc _ IH]; simpl; [done|].
  rewrite str_app_assoc, chars_encode by (unfold is_digit in Hc; lia). by rewrite IH.
Qed.

Lemma digits_from_app acc l1 l2 :
  digits_from acc (l1 ++ l2) = match digits_from acc l1 with Some a => digits_from a l2 | None => None end.
Proof.
  revert acc. induction l1 as [|c l1 IH]; intros acc; simpl; [done|].
  destruct (digit_value c); [|done]. by destruct (_ <=? _)%N.
Qed.

Lemma pretty_char_digit d :
  (d < 10)%N → String (pretty_N_char d) "" = of_chars [(48 + d)%N] ∧ digit_value (48 + d) = Some d.
Proof.
  intros Hd. assert (d = 0 ∨ d = 1 ∨ d = 2 ∨ d = 3 ∨ d = 4 ∨ d = 5 ∨ d = 6 ∨ d = 7 ∨ d = 8 ∨ d = 9)%N
    as H by lia.
  destruct_or! H; subst; done.
Qed.

Lemma pretty_go_digits x s :
  (x ≤ 18446744073709551615)%N →
  ∃ l, Forall is_digit l ∧ pretty_N_go x s = of_chars l +:+ s ∧ digits_from 0 l = Some x ∧
    ((0 < x)%N → l ≠ []).
Proof.
  revert s. induction (N.lt_wf_0 x) as [x _ IH]. intros s Hx.
  destruct (decide (x = 0)%N) as [->|Hne].
  { exists []. split_and!; [done|by rewrite pretty_N_go_0|done|done]. }
  rewrite pretty_N_go_step by lia.
  assert (x mod 10 < 10)%N as Hm by (apply N.mod_lt; lia).
  destruct (pretty_char_digit _ Hm) as [Hc Hd].
  assert (x = x / 10 * 10 + x mod 10)%N as Hx10
    by (rewrite N.mul_comm; apply N.div_mod; lia).
  destruct (IH (x / 10)%N) with (s := String (pretty_N_char (x mod 10)) s) as (l & Hl & E & D & _).
  { apply N.div_lt; lia. } { assert (x / 10 < x)%N by (apply N.div_lt; lia). lia. }
  exists (l ++ [(48 + x mod 10)%N]). split_and!.
  - apply Forall_app. split; [done|]. apply Forall_singleton. unfold is_digit.
    clear -Hm. generalize dependent (x mod 10)%N. intros d Hm. lia.
  - rewrite E, of_chars_app, str_app_assoc, <-Hc. done.
  - rewrite digits_from_app, D. simpl. rewrite Hd, <-Hx10.
    by rewrite (proj2 (N.leb_le x _)) by lia.
  - intros _. by destruct l.
Qed.

Lemma pretty_digits n :
  (n ≤ 18446744073709551615)%N →
  ∃ l, Forall is_digit l ∧ pretty n = of_chars l ∧ digits_from 0 l = Some n ∧ l ≠ [].
Proof.
  intros Hn. unfold pretty, pretty_N. destruct (decide (n = 0)%N) as [->|Hne].
  - exists [48%N]. split_and!; [|done..]. apply Forall_singleton. unfold is_digit. lia.
  - destruct (pretty_go_digits n "" Hn) as (l & Hl & E & D & Hne').
    exists l. rewrite E, str_app_nil_r. split_and!; [done..|]. apply Hne'. lia.
Qed.

Lemma parse_digits l n :
  Forall is_digit l → l ≠ [] → digits_from 0 l = Some n → parse_usize (of_chars l) = Some n.
Proof.
  intros Hl Hne D. unfold parse_usize.
  rewrite <-(str_app_nil_r (of_chars l)), chars_app by done. rewrite app_nil_r.
  destruct l as [|c l]; [done|]. apply Forall_cons in Hl as [Hc _]. unfold is_digit in Hc.
  by destruct (N.eqb_spec c 43); [lia|].
Qed.

Lemma words_digits cur l rest :
  Forall is_digit l → words_from cur (l ++ rest) = words_from (cur ++ l) rest.
Proof.
  intros Hl. revert cur. induction Hl as [|c l Hc _ IH]; intros cur; simpl; [by rewrite app_nil_r|].
  assert (is_whitespace c = false) as ->.
  { unfold is_digit in Hc. assert (c = 48 ∨ c = 49 ∨ c = 50 ∨ c = 51 ∨ c = 52 ∨ c = 53 ∨ c = 54
      ∨ c = 55 ∨ c = 56 ∨ c = 57)%N as H by lia. by destruct_or! H; subst. }
  by rewrite IH, <-(assoc_L (++)).
Qed.

(** A list of line numbers joined by spaces is read back. *)
Lemma detail_lines_roundtrip (lines : list N) :
  Forall (λ n, n ≤ 18446744073709551615)%N lines →
  detail_lines (Text.join " " (map pretty lines)) = lines.
Proof.
  intros H. unfold detail_lines, split_whitespace.
  induction H as [|n lines Hn Hl IH]; [done|].
  destruct (pretty_digits n Hn) as (l & Hd & E & D & Hne).
  destruct lines as [|n' lines].
  - simpl. unfold join. simpl. rewrite E, <-(str_app_nil_r (of_chars l)), chars_app by done.
    rewrite words_digits by done. simpl. destruct l as [|c l]; [done|].
    simpl. change (encode_utf8 c +:+ of_chars l) with (of_chars (c :: l)).
    by rewrite (parse_digits (c :: l) n).
  - rewrite map_cons, join_cons by done. rewrite E, chars_app by done.
    rewrite words_digits by done. simpl app.
    change (chars (" " +:+ ?x)) with (32%N :: chars x). cbn [words_from].
    change (is_whitespace 32) with true. destruct l as [|c l]; [done|]. cbn iota.
    change (omap parse_usize (?a :: ?b)) with
      (match parse_usize a with Some y => y :: omap parse_usize b | None => omap parse_usize b end).
    rewrite (parse_digits (c :: l) n) by done. f_equal. apply IH.
Qed.

(** ** The split *)

Lemma violation_of_node_id violations item :
  is_Some (violation_of violations item) ↔ is_violated violations item = true.
Proof.
  unfold is_violated. rewrite bool_decide_eq_true, elem_of_list_to_set, list_elem_of_omap. split.
  - intros [p H]. apply find_map_Some in H as (v & Hv & E). exists v. split; [done|].
    destruct v as [q|]; [|done]. destruct (String.eqb_spec (pt_node_id q) (node_id item)); [|done].
    simpl. by f_equal.
  - intros (v & Hv & E). destruct (violation_of violations item) as [p|] eqn:Hn; [done|exfalso].
    unfold violation_of in Hn. rewrite find_map_None in Hn. specialize (Hn v Hv).
    destruct v as [q|]; [|done]. simpl in E. injection E as E. rewrite E, String.eqb_refl in Hn. done.
Qed.

(** Every violated item is reported once, as an error. *)
Lemma violation_events violations l :
  Forall (λ i, is_violated violations i = true) l →
  map ev_id (omap (violation_event violations) l) = map node_id l ∧
  Forall (λ e, TestOutcome.is_hard_failure (ev_outcome e) = true)
    (omap (violation_event violations) l).
Proof.
  induction 1 as [|i l Hi _ [IH1 IH2]]; [done|]. csimpl.
  apply violation_of_node_id in Hi as [p Hp].
  assert (violation_event violations i = Some (i, per_test_error p, f64_zero)) as ->
    by (unfold violation_event; by rewrite Hp).
  csimpl. split; [by f_equal|by constructor].
Qed.

(** Strict mode never loses a test: unless it aborts, every collected item
    is either run or violated; in enforce mode the violated ones are exactly
    those a violation names, and reporting them yields one error per item,
    which fails the run; every other mode leaves all items to run.  It aborts
    exactly in abort mode with some violation, suite-level ones included, and
    then with an exit code of at least 3. *)
Theorem strict_mode_conserves_items strict undescribed items raw json junit :
  let violations := check_config undescribed ++ check_collected raw in
  match apply_strict_mode strict undescribed items raw json junit with
  | Ok r =>
      violated_items r ++ clean_items r ≡ₚ items ∧
      (strict = Some StrictAbort → violations = []) ∧
      (∀ i, i ∈ violated_items r ↔
         i ∈ items ∧ strict = Some Enforce ∧ is_violated violations i = true) ∧
      let events := omap (violation_event (all_violations r)) (violated_items r) in
      map ev_id events = map node_id (violated_items r) ∧
      Forall (λ e, TestOutcome.is_hard_failure (ev_outcome e) = true) events
  | Err c => strict = Some StrictAbort ∧ violations ≠ [] ∧ (3 ≤ ExitCode.as_i32 c)%Z
  end.
Proof.
  simpl. unfold apply_strict_mode. set (vs := check_config undescribed ++ check_collected raw).
  destruct strict as [[]|].
  - destruct vs as [|v vs'] eqn:E; simpl.
    + split_and!; try done. intros i. split; [by intros ?%elem_of_nil|naive_solver].
    + split_and!; [done..|]. destruct json as [[|[]]|], junit as [[|[]]|]; vm_compute; congruence.
  - destruct (List.partition (is_violated vs) items) as [violated clean] eqn:Hp.
    rewrite partition_as_filters in Hp. injection Hp as <- <-. simpl.
    assert (Forall (λ i, is_violated vs i = true) (List.filter (is_violated vs) items)) as Hf.
    { apply Forall_forall. by intros i [_ ?]%filter_elem. }
    split_and!; [apply filter_split_perm|done| |apply violation_events, Hf..].
    intros i. rewrite filter_elem. naive_solver.
  - simpl. split_and!; try done. intros i. split; [by intros ?%elem_of_nil|naive_solver].
  - simpl. split_and!; try done. intros i. split; [by intros ?%elem_of_nil|naive_solver].
Qed.

(** The line numbers of a bare-assert or return-value record come back as
    they were sent, space-separated; a record of a kind this version does not
    know, or a definition record without its line number, yields no violation,
    and every other record yields one violation of its test. *)
Theorem check_collected_faithful id :
  (∀ lines, Forall (λ n, n ≤ 18446744073709551615)%N lines →
     check_one (mk_raw id VBareAssert (Text.join " " (map pretty lines)))
       = Some (PerTest (BareAssert id lines)) ∧
     check_one (mk_raw id VTestReturnsValue (Text.join " " (map pretty lines)))
       = Some (PerTest (TestReturnsValue id lines))) ∧
  (∀ k detail, match check_one (mk_raw id k detail) with
     | Some v => violation_node_id v = Some id ∧ k ≠ VUnknown
     | None => k = VUnknown ∨ k = VModuleLevelDef
     end).
Proof.
  split.
  - intros lines H. unfold check_one. simpl. by rewrite detail_lines_roundtrip.
  - intros k detail. destruct k; simpl; try (by split); try (by left).
    unfold check_one; cbn [rv_kind rv_detail]. destruct (rsplit_once_space detail) as [[f n]|]; [|by right].
    destruct (parse_usize n); simpl; [by split|by right].
Qed.
