(* ===== verification/Config.v ===== *)
(** * Config: the merged configuration and its two sources ([src/config/])

    [Config] with its sub-records and compiled defaults ([config/mod.rs]), the
    [\[tool.oxitest\]] table as serde delivers it and the custom deserialisers
    ([config/pyproject.rs]), the parsed command-line arguments
    ([config/cli/*.rs]), the merges ([config/merge.rs]), root-directory
    discovery and [Config::load].

    The TOML parser, the derived part of the deserialiser and the filesystem are
    parameters.  [usize] options the runner only stores and compares are [nat].
    A [HashMap] is a [gmap]; [toml::Value] is the tree [toml].  The
    [std::process::exit(4)] of [Config::load] is the [Err] of its result. *)
From Stdlib Require Import Ascii.
From S2P Require Import Prelude Collections Text F64 Paths Types Query Cache Filter Arrange Strict.

(** ** Enumerations *)

Definition debug_mode_str (m : DebugMode) : string :=
  match m with PostMortem => "post-mortem" | Always => "always" end.

Definition debug_mode (m : ExecutionMode) : option DebugMode :=
  match m with DebugM d => Some d | _ => None end.

Definition mode_workers (m : ExecutionMode) : option WorkerCount :=
  match m with ParallelMode w => Some w | _ => None end.

Inductive TbStyle := Detail | Line | No.
Inductive ColorMode := ColorAuto | ColorAlways | ColorNever.
Inductive KeepTmpMode := KeepCleanup | KeepFailed | KeepAlways.
Inductive Verbosity := VNormal | VDetailed | VFull.
Inductive CovReportFormat := CovTerm | CovHtml | CovXml | CovJson | CovNone.

#[export] Instance TbStyle_eq_dec : EqDecision TbStyle.
Proof. solve_decision. Defined.
#[export] Instance StrictMode_eq_dec : EqDecision StrictMode.
Proof. solve_decision. Defined.

Definition keep_tmp_str (m : KeepTmpMode) : string :=
  match m with KeepCleanup => "cleanup" | KeepFailed => "failed" | KeepAlways => "always" end.

Definition cov_format_str (f : CovReportFormat) : string :=
  match f with
  | CovTerm => "term" | CovHtml => "html" | CovXml => "xml" | CovJson => "json" | CovNone => "none"
  end.

(** [ColorMode::resolve]: the answer and the new value of the [console] crate's
    global switch. *)
Definition color_resolve (m : ColorMode) (is_tty colors_enabled : bool) : bool * bool :=
  match m with
  | ColorAlways => (true, true)
  | ColorNever => (false, colors_enabled)
  | ColorAuto => (is_tty && colors_enabled, colors_enabled)
  end.

(** [s.eq_ignore_ascii_case("auto")] *)
Definition is_auto (s : string) : bool := String.eqb (to_ascii_lowercase s) "auto".

(** [WorkerCount::from_str] *)
Definition worker_count_from_str (s : string) : result WorkerCount string :=
  if is_auto s then Ok Auto
  else match parse_usize s with
  | None => Err ("expected " +:+ dquote +:+ "auto" +:+ dquote +:+ " or a positive integer, got "
                 +:+ dquote +:+ s +:+ dquote)
  | Some n => try_from_count (Z.of_N n)
  end.

(** ** [toml::Value] *)

Unset Elimination Schemes.
Inductive toml :=
  | TString (s : string)
  | TInteger (n : Z)
  | TFloat (x : f64)
  | TBoolean (b : bool)
  | TDatetime (s : string)
  | TArray (l : list toml)
  | TTable (t : gmap string toml).
Set Elimination Schemes.

(** [value.get(key)] and [value.as_table()], [value.as_array()] *)
Definition toml_get (key : string) (v : toml) : option toml :=
  match v with TTable t => t !! key | _ => None end.

Definition as_table (v : toml) : option (gmap string toml) :=
  match v with TTable t => Some t | _ => None end.

Definition as_array (v : toml) : option (list toml) :=
  match v with TArray l => Some l | _ => None end.

(** ** Doctest scope entries ([config/pyproject.rs]) *)

Inductive ScopeEntry :=
  | Prefix (p : string)
  | File (f : string)
  | Symbol (file name : string)
  | Member (file cls name : string).

Inductive DoctestScope :=
  | Public
  | ScopeList (l : list ScopeEntry).

Record DoctestConfig := {
  dt_scope : option DoctestScope;
  dt_roots : list string;
  dt_skip : list ScopeEntry
}.

Definition doctest_default : DoctestConfig := {| dt_scope := None; dt_roots := []; dt_skip := [] |}.

Definition looks_like_windows_drive (raw : string) : bool :=
  match chars raw !! 1, chars raw !! 2 with
  | Some colon, Some sep => (colon =? 58)%N && ((sep =? 92)%N || (sep =? 47)%N)
  | _, _ => false
  end.

Definition backslash : string := String (ascii_of_nat 92) "".

Definition parse_scope_entry_str (raw : string) : result ScopeEntry string :=
  if starts_with "/" raw || starts_with backslash raw || looks_like_windows_drive raw then
    Err ("entry '" +:+ raw +:+ "' must be a rootdir-relative path, not absolute")
  else if existsb (String.eqb "..") (split "/" raw) then
    Err ("entry '" +:+ raw +:+ "' must not contain '..' components")
  else
    let '(file_part, chain) := NodeId.split_node_id_str raw in
    match chain with
    | [] =>
        if ends_with "/" raw then Ok (Prefix raw)
        else if ends_with ".py" raw then Ok (File raw)
        else Err ("entry '" +:+ raw +:+ "' is ambiguous — add trailing / for a directory, .py for a file, or ::name for a symbol")
    | _ =>
        if existsb (String.eqb "") chain then
          Err ("entry '" +:+ raw +:+ "' has an empty segment after ::")
        else if negb (ends_with ".py" file_part) then
          Err ("entry '" +:+ raw +:+ "' — path before :: must end in .py (got '" +:+ file_part +:+ "')")
        else match chain with
        | [name] => Ok (Symbol file_part name)
        | [cls; name] => Ok (Member file_part cls name)
        | _ => Err ("entry '" +:+ raw +:+ "' has too many :: segments")
        end
    end.

Definition render_entry (e : ScopeEntry) : string :=
  match e with
  | Prefix p => p
  | File f => f
  | Symbol file name => file +:+ "::" +:+ name
  | Member file cls name => file +:+ "::" +:+ cls +:+ "::" +:+ name
  end.

(** ** The hand-written deserialisers

    [Custom] carries the messages of the source; [InvalidType] is serde's own
    refusal of a value of another shape. *)
Inductive de_error := Custom (msg : string) | InvalidType.

Definition de_scope_entry (v : toml) : result ScopeEntry de_error :=
  match v with
  | TString s => map_err Custom (parse_scope_entry_str s)
  | _ => Err InvalidType
  end.

Definition scope_visit_str (v : string) : result DoctestScope de_error :=
  if String.eqb v "public" then Ok Public
  else if String.eqb v "off" then
    Err (Custom "scope value 'off' is no longer supported; remove the whole [tool.oxitest.doctest] table to disable coverage")
  else Err (Custom ("expected " +:+ dquote +:+ "public" +:+ dquote +:+ " or a list, got scope = "
                    +:+ dquote +:+ v +:+ dquote)).

Fixpoint scope_visit_seq (l : list toml) : result (list ScopeEntry) de_error :=
  match l with
  | [] => Ok []
  | v :: r => let? e := de_scope_entry v in let? es := scope_visit_seq r in Ok (e :: es)
  end.

Definition de_doctest_scope (v : toml) : result DoctestScope de_error :=
  match v with
  | TString s => scope_visit_str s
  | TArray l => let? es := scope_visit_seq l in Ok (ScopeList es)
  | _ => Err InvalidType
  end.

Definition worker_visit_str (v : string) : result WorkerCount de_error :=
  if is_auto v then Ok Auto
  else Err (Custom ("expected " +:+ dquote +:+ "auto" +:+ dquote +:+ ", got " +:+ dquote +:+ v +:+ dquote)).

Definition worker_visit_i64 (v : Z) : result WorkerCount de_error :=
  if (v <? 0)%Z then Err (Custom "worker count must be at least 1")
  else map_err Custom (try_from_count v).

Definition de_worker_count (v : toml) : result WorkerCount de_error :=
  match v with
  | TString s => worker_visit_str s
  | TInteger n => worker_visit_i64 n
  | _ => Err InvalidType
  end.

(** ** [Config] and its compiled defaults ([config/mod.rs]) *)

Record PathConfig := {
  testpaths : list string;
  declared_testpaths : list string;
  python_files : list string;
  norecursedirs : list string;
  use_gitignore : bool
}.

Definition path_default : PathConfig := {|
  testpaths := ["."];
  declared_testpaths := [];
  python_files := ["test_*.py"; "*_test.py"];
  norecursedirs := [".git"; "__pycache__"; ".venv"; "venv"; ".tox"; "dist"; "build"; "node_modules"];
  use_gitignore := true
|}.

Record ExecConfig := {
  mode : ExecutionMode;
  maxfail : nat;
  timeout_secs : option Z;
  timeout_multiplier : option f64;
  spawn_overhead : f64;
  min_parallel_tests : nat;
  retries : nat;
  retries_delay_secs : Z;
  inspect_timeout_secs : Z
}.

Definition exec_default : ExecConfig := {|
  mode := ParallelMode Auto;
  maxfail := 0;
  timeout_secs := None;
  timeout_multiplier := None;
  spawn_overhead := f64_of_Z 250;
  min_parallel_tests := 100;
  retries := 0;
  retries_delay_secs := 0;
  inspect_timeout_secs := 30
|}.

Record OutputConfig := {
  tb : TbStyle;
  show_locals : bool;
  show_internals : bool;
  verbosity : Verbosity;
  durations : option nat;
  color : ColorMode;
  collection_profile : bool;
  keep_tmp : KeepTmpMode
}.

Definition output_default : OutputConfig := {|
  tb := Detail; show_locals := false; show_internals := false; verbosity := VNormal;
  durations := None; color := ColorAuto; collection_profile := false; keep_tmp := KeepCleanup
|}.

Record MarkerConfig := {
  registered_markers : list string;
  markers_without_description : list string;
  strict : option StrictMode
}.

Definition marker_default : MarkerConfig :=
  {| registered_markers := []; markers_without_description := []; strict := None |}.

Record FilterConfig := {
  schedule : ScheduleStrategy;
  failed : option FailedMode;
  node_ids : list string;
  has_explicit_paths : bool;
  affected : option string;
  affected_base : string
}.

Definition filter_default : FilterConfig := {|
  schedule := LongestFirst; failed := None; node_ids := []; has_explicit_paths := false;
  affected := None; affected_base := "HEAD"
|}.

Record FeatureConfig := {
  plugins : list string;
  plugin_settings : gmap string toml;
  async_backend : string;
  cov : bool;
  cov_report : option CovReportFormat;
  cache_max_age : Z;
  plugin_cli_values : gmap string (gmap string toml)
}.

Definition feature_default : FeatureConfig := {|
  plugins := []; plugin_settings := ∅; async_backend := "asyncio"; cov := false;
  cov_report := None; cache_max_age := 50; plugin_cli_values := ∅
|}.

Record Config := mk_config {
  rootdir : string;
  invocation_dir : string;
  paths : PathConfig;
  exec : ExecConfig;
  output : OutputConfig;
  marker_cfg : MarkerConfig;
  filter_cfg : FilterConfig;
  features : FeatureConfig;
  doctest : option DoctestConfig
}.

Definition config_default : Config :=
  mk_config "." "." path_default exec_default output_default marker_default filter_default
    feature_default None.

Definition doctest_enabled (c : Config) : bool :=
  match doctest c with Some _ => true | None => false end.

Definition worker_count (c : Config) (cpu_count : Z) : Z :=
  config_worker_count (mode (exec c)) cpu_count.

(** Assignment to one field of a [Config]. *)
Definition with_paths (c : Config) (p : PathConfig) : Config :=
  mk_config (rootdir c) (invocation_dir c) p (exec c) (output c) (marker_cfg c) (filter_cfg c)
    (features c) (doctest c).
Definition with_exec (c : Config) (e : ExecConfig) : Config :=
  mk_config (rootdir c) (invocation_dir c) (paths c) e (output c) (marker_cfg c) (filter_cfg c)
    (features c) (doctest c).
Definition with_output (c : Config) (o : OutputConfig) : Config :=
  mk_config (rootdir c) (invocation_dir c) (paths c) (exec c) o (marker_cfg c) (filter_cfg c)
    (features c) (doctest c).
Definition with_markers (c : Config) (m : MarkerConfig) : Config :=
  mk_config (rootdir c) (invocation_dir c) (paths c) (exec c) (output c) m (filter_cfg c)
    (features c) (doctest c).
Definition with_filter (c : Config) (f : FilterConfig) : Config :=
  mk_config (rootdir c) (invocation_dir c) (paths c) (exec c) (output c) (marker_cfg c) f
    (features c) (doctest c).
Definition with_features (c : Config) (f : FeatureConfig) : Config :=
  mk_config (rootdir c) (invocation_dir c) (paths c) (exec c) (output c) (marker_cfg c)
    (filter_cfg c) f (doctest c).
Definition with_doctest (c : Config) (d : option DoctestConfig) : Config :=
  mk_config (rootdir c) (invocation_dir c) (paths c) (exec c) (output c) (marker_cfg c)
    (filter_cfg c) (features c) d.

(** Assignments inside a sub-record that several merges make. *)
Definition set_testpaths (l : list string) (p : PathConfig) : PathConfig := {|
  testpaths := l; declared_testpaths := declared_testpaths p; python_files := python_files p;
  norecursedirs := norecursedirs p; use_gitignore := use_gitignore p |}.

Definition set_use_gitignore (b : bool) (p : PathConfig) : PathConfig := {|
  testpaths := testpaths p; declared_testpaths := declared_testpaths p;
  python_files := python_files p; norecursedirs := norecursedirs p; use_gitignore := b |}.

Definition set_mode (m : ExecutionMode) (e : ExecConfig) : ExecConfig := {|
  mode := m; maxfail := maxfail e; timeout_secs := timeout_secs e;
  timeout_multiplier := timeout_multiplier e; spawn_overhead := spawn_overhead e;
  min_parallel_tests := min_parallel_tests e; retries := retries e;
  retries_delay_secs := retries_delay_secs e; inspect_timeout_secs := inspect_timeout_secs e |}.

Definition set_maxfail (n : nat) (e : ExecConfig) : ExecConfig := {|
  mode := mode e; maxfail := n; timeout_secs := timeout_secs e;
  timeout_multiplier := timeout_multiplier e; spawn_overhead := spawn_overhead e;
  min_parallel_tests := min_parallel_tests e; retries := retries e;
  retries_delay_secs := retries_delay_secs e; inspect_timeout_secs := inspect_timeout_secs e |}.

Definition set_timeout (t : option Z) (e : ExecConfig) : ExecConfig := {|
  mode := mode e; maxfail := maxfail e; timeout_secs := t;
  timeout_multiplier := timeout_multiplier e; spawn_overhead := spawn_overhead e;
  min_parallel_tests := min_parallel_tests e; retries := retries e;
  retries_delay_secs := retries_delay_secs e; inspect_timeout_secs := inspect_timeout_secs e |}.

Definition set_verbosity (v : Verbosity) (o : OutputConfig) : OutputConfig := {|
  tb := tb o; show_locals := show_locals o; show_internals := show_internals o; verbosity := v;
  durations := durations o; color := color o; collection_profile := collection_profile o;
  keep_tmp := keep_tmp o |}.

Definition set_color (v : ColorMode) (o : OutputConfig) : OutputConfig := {|
  tb := tb o; show_locals := show_locals o; show_internals := show_internals o;
  verbosity := verbosity o; durations := durations o; color := v;
  collection_profile := collection_profile o; keep_tmp := keep_tmp o |}.

Definition set_strict (s : option StrictMode) (m : MarkerConfig) : MarkerConfig := {|
  registered_markers := registered_markers m;
  markers_without_description := markers_without_description m; strict := s |}.

(** ** Sources *)

(** [\[tool.oxitest\]] ([OxitestConfig]) *)
Record OxitestConfig := {
  tc_testpaths : option (list string);
  tc_python_files : option (list string);
  tc_norecursedirs : option (list string);
  tc_markers : option (list string);
  tc_timeout : option Z;
  tc_cache_max_age : option Z;
  tc_min_parallel_tests : option nat;
  tc_timeout_multiplier : option f64;
  tc_spawn_overhead_ms : option f64;
  tc_strict : option StrictMode;
  tc_workers : option WorkerCount;
  tc_schedule : option ScheduleStrategy;
  tc_failed : option FailedMode;
  tc_tb : option TbStyle;
  tc_verbosity : option Verbosity;
  tc_maxfail : option nat;
  tc_durations : option nat;
  tc_serial : option bool;
  tc_color : option ColorMode;
  tc_plugins : option (list string);
  tc_plugin_settings : gmap string toml;
  tc_async_backend : option string;
  tc_affected_base : option string;
  tc_retries : option nat;
  tc_retries_delay : option Z;
  tc_keep_tmp : option KeepTmpMode;
  tc_show_locals : option bool;
  tc_show_internals : option bool;
  tc_use_gitignore : option bool;
  tc_doctest : option DoctestConfig;
  tc_inspect_timeout : option Z
}.

(** [OxitestConfig::default()] *)
Definition oxitest_default : OxitestConfig := {|
  tc_testpaths := None; tc_python_files := None; tc_norecursedirs := None; tc_markers := None;
  tc_timeout := None; tc_cache_max_age := None; tc_min_parallel_tests := None;
  tc_timeout_multiplier := None; tc_spawn_overhead_ms := None; tc_strict := None;
  tc_workers := None; tc_schedule := None; tc_failed := None; tc_tb := None;
  tc_verbosity := None; tc_maxfail := None; tc_durations := None; tc_serial := None;
  tc_color := None; tc_plugins := None; tc_plugin_settings := ∅; tc_async_backend := None;
  tc_affected_base := None; tc_retries := None; tc_retries_delay := None; tc_keep_tmp := None;
  tc_show_locals := None; tc_show_internals := None; tc_use_gitignore := None;
  tc_doctest := None; tc_inspect_timeout := None
|}.

(** Flags shared by the sub-commands ([config/cli/shared.rs]) *)
Record FilteringArgs := { fa_expression : option string; fa_affected : option string }.

Record FailedFilterArgs := { ff_failed : option FailedMode; ff_lf : bool; ff_ff : bool }.

Definition failed_resolve (a : FailedFilterArgs) : option FailedMode :=
  if ff_lf a then Some Only else if ff_ff a then Some First else ff_failed a.

Record VerbosityArgs := { va_verbose_count : Z; va_verbose : option Verbosity }.

Definition verbosity_validate (a : VerbosityArgs) : result unit string :=
  match va_verbose a with
  | Some _ => if (0 <? va_verbose_count a)%Z
              then Err "use -v/-vv or --verbose=LEVEL, not both." else Ok tt
  | None => Ok tt
  end.

Definition verbosity_resolve (a : VerbosityArgs) : option Verbosity :=
  match va_verbose a with
  | Some level => Some level
  | None =>
      if (2 <=? va_verbose_count a)%Z then Some VFull
      else if (va_verbose_count a =? 1)%Z then Some VDetailed
      else None
  end.

Record RunArgs := {
  ra_paths : list string;
  ra_node_ids : list string;
  ra_filter : FilteringArgs;
  ra_failed_filter : FailedFilterArgs;
  ra_verbosity : VerbosityArgs;
  ra_exitfirst : bool;
  ra_maxfail : option nat;
  ra_serial : bool;
  ra_doctest_modules : bool;
  ra_workers : option WorkerCount;
  ra_schedule : option ScheduleStrategy;
  ra_timeout : option Z;
  ra_retries : option nat;
  ra_strict : option StrictMode;
  ra_quiet : bool;
  ra_tb : option TbStyle;
  ra_show_locals : bool;
  ra_show_internals : bool;
  ra_tips : bool;
  ra_warnings : bool;
  ra_color : option ColorMode;
  ra_durations : option nat;
  ra_collection_profile : bool;
  ra_keep_tmp : option KeepTmpMode;
  ra_json : option string;
  ra_junit_xml : option string;
  ra_cov : bool;
  ra_cov_report : option CovReportFormat
}.

(** The [tb] given on the command line is not [detail]. *)
Definition tb_not_detail (t : option TbStyle) : bool :=
  match t with Some Line | Some No => true | _ => false end.

Definition run_validate (a : RunArgs) : result unit string :=
  if ra_exitfirst a && bool_decide (is_Some (ra_maxfail a)) then
    Err "-x and --maxfail both control when to stop after failures. Use one or the other."
  else if bool_decide (is_Some (ra_schedule a)) && ra_serial a then
    Err "--schedule controls parallel worker ordering, which has no effect with --serial."
  else if ra_show_locals a && tb_not_detail (ra_tb a) then Err "--show-locals requires --tb=detail."
  else if ra_show_internals a && tb_not_detail (ra_tb a) then
    Err "--show-internals requires --tb=detail."
  else if bool_decide (is_Some (ra_cov_report a)) && negb (ra_cov a) then
    Err "--cov-report requires --cov."
  else verbosity_validate (ra_verbosity a).

Record DebugArgs := {
  da_paths : list string;
  da_node_ids : list string;
  da_always : bool;
  da_filter : FilteringArgs;
  da_failed_filter : FailedFilterArgs;
  da_verbosity : VerbosityArgs;
  da_quiet : bool;
  da_tb : option TbStyle;
  da_show_locals : bool;
  da_keep_tmp : option KeepTmpMode;
  da_color : option ColorMode
}.

Definition debug_args_mode (a : DebugArgs) : DebugMode := if da_always a then Always else PostMortem.

Definition debug_validate (a : DebugArgs) : result unit string := verbosity_validate (da_verbosity a).

Record QueryArgs := {
  qa_resource : ResourceKind;
  qa_expression : option string;
  qa_fzf : bool;
  qa_detail : option string;
  qa_jsonl : bool;
  qa_count : bool;
  qa_tree : bool;
  qa_color : option ColorMode;
  qa_paths : list string
}.

(** ** Merging ([config/merge.rs]) *)

Record Overrides := {
  ov_schedule : option ScheduleStrategy;
  ov_retries : option nat;
  ov_retries_delay_secs : option Z;
  ov_failed : option FailedMode;
  ov_tb : option TbStyle;
  ov_color : option ColorMode;
  ov_durations : option nat;
  ov_strict : option StrictMode;
  ov_keep_tmp : option KeepTmpMode;
  ov_show_locals : option bool;
  ov_show_internals : option bool
}.

(** [apply_if_some!(.., wrap)] *)
Definition wrap_over {A} (v old : option A) : option A :=
  match v with Some x => Some x | None => old end.

Definition apply_overrides (c : Config) (ovr : Overrides) : Config :=
  let f := filter_cfg c in
  let e := exec c in
  let o := output c in
  let c := with_filter c {|
    schedule := default (schedule f) (ov_schedule ovr);
    failed := wrap_over (ov_failed ovr) (failed f);
    node_ids := node_ids f; has_explicit_paths := has_explicit_paths f;
    affected := affected f; affected_base := affected_base f |} in
  let c := with_exec c {|
    mode := mode e; maxfail := maxfail e; timeout_secs := timeout_secs e;
    timeout_multiplier := timeout_multiplier e; spawn_overhead := spawn_overhead e;
    min_parallel_tests := min_parallel_tests e;
    retries := default (retries e) (ov_retries ovr);
    retries_delay_secs := default (retries_delay_secs e) (ov_retries_delay_secs ovr);
    inspect_timeout_secs := inspect_timeout_secs e |} in
  let c := with_output c {|
    tb := default (tb o) (ov_tb ovr);
    show_locals := default (show_locals o) (ov_show_locals ovr);
    show_internals := default (show_internals o) (ov_show_internals ovr);
    verbosity := verbosity o;
    durations := wrap_over (ov_durations ovr) (durations o);
    color := default (color o) (ov_color ovr);
    collection_profile := collection_profile o;
    keep_tmp := default (keep_tmp o) (ov_keep_tmp ovr) |} in
  with_markers c (set_strict (wrap_over (ov_strict ovr) (strict (marker_cfg c))) (marker_cfg c)).

Definition resolve_testpaths (l : list string) (root : string) : list string :=
  map (path_join root) l.

Definition parse_marker_descriptions (raw_markers : list string) : list string * list string :=
  fold_left (λ '(names, no_desc) s,
    match split_once ":" s with
    | Some (name, _) => (names ++ [trim name], no_desc)
    | None => (names ++ [trim s], no_desc ++ [trim s])
    end) raw_markers ([], []).

(** The paths and doctest part of [merge_toml]; [root] joins the declared paths. *)
Definition merge_toml_paths (c : Config) (tc : OxitestConfig) (root : option string) : Config :=
  let p := paths c in
  let resolved := match root with
                  | Some r => λ l, resolve_testpaths l r
                  | None => λ l, l
                  end in
  let c := with_paths c {|
    testpaths := match tc_testpaths tc with Some l => resolved l | None => testpaths p end;
    declared_testpaths := match tc_testpaths tc with Some l => resolved l | None => declared_testpaths p end;
    python_files := default (python_files p) (tc_python_files tc);
    norecursedirs := default (norecursedirs p) (tc_norecursedirs tc);
    use_gitignore := default (use_gitignore p) (tc_use_gitignore tc) |} in
  with_doctest c match tc_doctest tc with
                 | Some dt => Some {| dt_scope := dt_scope dt; dt_roots := resolved (dt_roots dt);
                                      dt_skip := dt_skip dt |}
                 | None => doctest c
                 end.

(** The assignments only the TOML source makes. *)
Definition merge_toml_unique (c : Config) (tc : OxitestConfig) : Config :=
  let e := exec c in
  let c := with_exec c {|
    mode := match tc_serial tc with Some true => SerialMode | _ => mode e end;
    maxfail := default (maxfail e) (tc_maxfail tc);
    timeout_secs := tc_timeout tc;
    timeout_multiplier := tc_timeout_multiplier tc;
    spawn_overhead := default (spawn_overhead e) (tc_spawn_overhead_ms tc);
    min_parallel_tests := default (min_parallel_tests e) (tc_min_parallel_tests tc);
    retries := retries e; retries_delay_secs := retries_delay_secs e;
    inspect_timeout_secs := default (inspect_timeout_secs e) (tc_inspect_timeout tc) |} in
  let g := features c in
  let c := with_features c {|
    plugins := default (plugins g) (tc_plugins tc);
    plugin_settings := tc_plugin_settings tc;
    async_backend := default (async_backend g) (tc_async_backend tc);
    cov := cov g; cov_report := cov_report g;
    cache_max_age := default (cache_max_age g) (tc_cache_max_age tc);
    plugin_cli_values := plugin_cli_values g |} in
  let c := with_output c (set_verbosity (default (verbosity (output c)) (tc_verbosity tc)) (output c)) in
  let f := filter_cfg c in
  let c := with_filter c {|
    schedule := schedule f; failed := failed f; node_ids := node_ids f;
    has_explicit_paths := has_explicit_paths f; affected := affected f;
    affected_base := default (affected_base f) (tc_affected_base tc) |} in
  let m := marker_cfg c in
  let parsed := parse_marker_descriptions <$> tc_markers tc in
  with_markers c {|
    registered_markers := default (registered_markers m) (fst <$> parsed);
    markers_without_description := default (markers_without_description m) (snd <$> parsed);
    strict := strict m |}.

Definition apply_workers (c : Config) (w : option WorkerCount) : Config :=
  let e := exec c in
  with_exec c (set_mode match w with Some n => ParallelMode n | None => mode e end e).

Definition merge_toml (c : Config) (tc : OxitestConfig) (root : option string) : Config :=
  let c := merge_toml_unique (merge_toml_paths c tc root) tc in
  let c := apply_overrides c {|
    ov_schedule := tc_schedule tc; ov_retries := tc_retries tc;
    ov_retries_delay_secs := tc_retries_delay tc; ov_failed := tc_failed tc; ov_tb := tc_tb tc;
    ov_color := tc_color tc; ov_durations := tc_durations tc; ov_strict := tc_strict tc;
    ov_keep_tmp := tc_keep_tmp tc; ov_show_locals := tc_show_locals tc;
    ov_show_internals := tc_show_internals tc |} in
  apply_workers c (tc_workers tc).

(** [resolve_target] ([config/mod.rs]) *)
Definition is_absolute (p : string) : bool := starts_with "/" p.

Definition resolve_target (base path : string) : string :=
  if is_absolute path then path else path_join base path.

(** A conditional assignment is written inside the field: [if b { x.f = v }]
    is the record whose [f] is [if b then v else f x]. *)
Definition merge_paths (c : Config) (l : list string) : Config :=
  let f := filter_cfg c in
  let c := with_filter c {|
    schedule := schedule f; failed := failed f; node_ids := node_ids f;
    has_explicit_paths := match l with [] => has_explicit_paths f | _ => true end;
    affected := affected f; affected_base := affected_base f |} in
  with_paths c (set_testpaths
    match l with
    | [] => testpaths (paths c)
    | _ => map (resolve_target (invocation_dir c)) l
    end (paths c)).

Definition merge_affected (c : Config) (a : option string) : Config :=
  let f := filter_cfg c in
  with_filter c {|
    schedule := schedule f; failed := failed f; node_ids := node_ids f;
    has_explicit_paths := match a with Some _ => true | None => has_explicit_paths f end;
    affected := match a with
                | Some val => if String.eqb val "" then Some (affected_base f) else a
                | None => affected f
                end;
    affected_base := affected_base f |}.

Definition flag_override (b : bool) : option bool := if b then Some true else None.

Section Filesystem.
(** [std::fs::canonicalize] followed by the UTF-8 check, [Path::exists] and
    [Path::is_file]. *)
Context (canonicalize : string → option string) (exists_ is_file : string → bool).

Definition canonical_node_id (base id : string) : string :=
  match NodeId.split_node_id_once id with
  | None => id
  | Some (file_part, rest) =>
      let abs_path := resolve_target base file_part in
      if contains_glob_chars file_part then abs_path +:+ "::" +:+ rest
      else match canonicalize abs_path with
      | Some utf8 => utf8 +:+ "::" +:+ rest
      | None => id
      end
  end.

(** With the test for an empty list its callers make. *)
Definition canonicalize_node_ids (c : Config) (raw_ids : list string) : Config :=
  let f := filter_cfg c in
  with_filter c {|
    schedule := schedule f; failed := failed f;
    node_ids := match raw_ids with
                | [] => node_ids f
                | _ => map (canonical_node_id (invocation_dir c)) raw_ids
                end;
    has_explicit_paths := has_explicit_paths f; affected := affected f;
    affected_base := affected_base f |}.

(** The paths and the node ids of a command line, as [run] and [debug] merge them. *)
Definition merge_targets (c : Config) (l ids : list string) : Config :=
  canonicalize_node_ids (merge_paths c l) ids.

Definition merge_run_args (c : Config) (args : RunArgs) : Config :=
  let c := merge_targets c (ra_paths args) (ra_node_ids args) in
  let e := exec c in
  let e := set_maxfail (if ra_exitfirst args then 1 else maxfail e) e in
  let e := set_maxfail match ra_maxfail args with
                       | Some n => if 0 <? n then n else maxfail e
                       | None => maxfail e
                       end e in
  let e := set_mode (if ra_serial args then SerialMode else mode e) e in
  let e := set_timeout (wrap_over (ra_timeout args) (timeout_secs e)) e in
  let c := with_exec c e in
  let c := with_doctest c (if ra_doctest_modules args then
                             let dt := default doctest_default (doctest c) in
                             Some {| dt_scope := Some Public; dt_roots := dt_roots dt;
                                     dt_skip := dt_skip dt |}
                           else doctest c) in
  let c := merge_affected c (fa_affected (ra_filter args)) in
  let g := features c in
  let c := with_features c {|
    plugins := plugins g; plugin_settings := plugin_settings g; async_backend := async_backend g;
    cov := ra_cov args;
    cov_report := wrap_over (ra_cov_report args) (cov_report g);
    cache_max_age := cache_max_age g; plugin_cli_values := plugin_cli_values g |} in
  let o := output c in
  let c := with_output c {|
    tb := tb o; show_locals := show_locals o; show_internals := show_internals o;
    verbosity := default (verbosity o) (verbosity_resolve (ra_verbosity args));
    durations := durations o; color := color o;
    collection_profile := ra_collection_profile args; keep_tmp := keep_tmp o |} in
  let c := apply_overrides c {|
    ov_schedule := ra_schedule args; ov_retries := ra_retries args;
    ov_retries_delay_secs := None; ov_failed := failed_resolve (ra_failed_filter args);
    ov_tb := ra_tb args; ov_color := ra_color args; ov_durations := ra_durations args;
    ov_strict := ra_strict args; ov_keep_tmp := ra_keep_tmp args;
    ov_show_locals := flag_override (ra_show_locals args);
    ov_show_internals := flag_override (ra_show_internals args) |} in
  let m := marker_cfg c in
  let c := with_markers c (set_strict (if bool_decide (strict m = Some Off) then None else strict m) m) in
  apply_workers c (ra_workers args).

Definition merge_debug_args (c : Config) (args : DebugArgs) : Config :=
  let c := merge_targets c (da_paths args) (da_node_ids args) in
  let m := debug_args_mode args in
  let c := with_exec c (set_timeout None (set_mode (DebugM m) (exec c))) in
  let o := output c in
  let c := with_output c {|
    tb := match da_tb args with None => Detail | Some _ => tb o end;
    show_locals := show_locals o; show_internals := true; verbosity := verbosity o;
    durations := durations o; color := color o; collection_profile := collection_profile o;
    keep_tmp := keep_tmp o |} in
  let c := with_exec c (set_maxfail match m with PostMortem => 1 | Always => maxfail (exec c) end
                          (exec c)) in
  let c := merge_affected c (fa_affected (da_filter args)) in
  let o := output c in
  let c := with_output c
    (set_verbosity (default (verbosity o) (verbosity_resolve (da_verbosity args))) o) in
  apply_overrides c {|
    ov_schedule := None; ov_retries := None; ov_retries_delay_secs := None;
    ov_failed := failed_resolve (da_failed_filter args); ov_tb := da_tb args;
    ov_color := da_color args; ov_durations := None; ov_strict := None;
    ov_keep_tmp := da_keep_tmp args; ov_show_locals := flag_override (da_show_locals args);
    ov_show_internals := None |}.

Definition merge_query_args (c : Config) (args : QueryArgs) : Config :=
  let c := merge_paths c (qa_paths args) in
  with_output c (set_color (default (color (output c)) (qa_color args)) (output c)).

(** ** Root directory ([find_rootdir]) *)

Definition has_marker (dir : string) : bool :=
  exists_ (path_join dir "pyproject.toml") || exists_ (path_join dir "setup.cfg")
  || exists_ (path_join dir "tox.ini").

(** Where the walk begins. *)
Definition walk_start (start : option string) (invocation_dir : string) : string :=
  let start := match start with
               | Some path => resolve_target invocation_dir path
               | None => invocation_dir
               end in
  let start := if is_file start then default start (path_parent start) else start in
  default start (canonicalize start).

(** The loop.  [None] is out of fuel; each turn drops a component
    ([walk_up_total]), so it never is. *)
Fixpoint walk_up (fuel : nat) (start current : string) : option string :=
  match fuel with
  | 0 => None
  | S n =>
      if has_marker current then Some current
      else match path_parent current with
      | Some parent => if path_eqb parent current then Some start else walk_up n start parent
      | None => Some start
      end
  end.

Definition find_rootdir (start : option string) (invocation_dir : string) : string :=
  let s := walk_start start invocation_dir in default s (walk_up (S (depth s)) s s).

(** [missing_paths] ([src/target.rs]) *)
Definition missing_paths (l : list string) : list string := List.filter (λ p, negb (exists_ p)) l.

(** ** [pyproject.toml] ([config/pyproject.rs], [Config::load]) *)

Section Pyproject.
(** [std::fs::read_to_string], [toml::from_str] to a value, and
    [Value::try_into::<OxitestConfig>] (the derived deserialiser). *)
Context {toml_error : Type} (read_to_string : string → option string)
        (toml_from_str : string → result toml toml_error)
        (try_into : toml → result OxitestConfig de_error).

Inductive ConfigError :=
  | LegacyKey (key replacement : string)
  | Toml (e : de_error).

Inductive ParseOutcome :=
  | Present (c : OxitestConfig)
  | Absent
  | WholeFileParseError (e : toml_error).

Definition oxitest_table (v : toml) : option toml := toml_get "tool" v ≫= toml_get "oxitest".

Definition check_no_legacy_keys (raw : string) : result unit ConfigError :=
  match toml_from_str raw with
  | Err _ => Ok tt
  | Ok v =>
      match oxitest_table v ≫= as_table with
      | None => Ok tt
      | Some oxitest =>
          match oxitest !! "doctest_modules" with
          | Some _ => Err (LegacyKey "tool.oxitest.doctest_modules" "[tool.oxitest.doctest]")
          | None => Ok tt
          end
      end
  end.

Definition parse_oxitest_config (raw : string) : result ParseOutcome ConfigError :=
  match toml_from_str raw with
  | Err e => Ok (WholeFileParseError e)
  | Ok v =>
      match oxitest_table v with
      | None => Ok Absent
      | Some oxitest_value => let? c := map_err Toml (try_into oxitest_value) in Ok (Present c)
      end
  end.

Definition has_plugins_configured (root : string) : bool :=
  match read_to_string (path_join root "pyproject.toml") with
  | None => false
  | Some content =>
      match toml_from_str content with
      | Err _ => false
      | Ok v =>
          match (oxitest_table v ≫= toml_get "plugins") ≫= as_array with
          | Some (_ :: _) => true
          | _ => false
          end
      end
  end.

(** The configuration before any source is read. *)
Definition base_config (root inv : string) : Config :=
  mk_config root inv (set_testpaths [root] path_default) exec_default output_default
    marker_default filter_default feature_default None.

Definition config_load (root inv : string) : result Config ExitCode.t :=
  let config := base_config root inv in
  match read_to_string (path_join root "pyproject.toml") with
  | None => Ok config
  | Some content =>
      match check_no_legacy_keys content with
      | Err _ => Err ExitCode.UsageError
      | Ok _ =>
          match parse_oxitest_config content with
          | Ok (Present cfg) => Ok (merge_toml config cfg (Some root))
          | Ok Absent => Ok (merge_toml config oxitest_default (Some root))
          | Ok (WholeFileParseError _) => Ok (merge_toml config oxitest_default (Some root))
          | Err _ => Err ExitCode.UsageError
          end
      end
  end.
End Pyproject.
End Filesystem.

Definition indented (path : string) : string := "  " +:+ path +:+ newline.

Definition render_missing_paths (bad : list string) : string :=
  "error: no such path" +:+ newline +:+ String.concat "" (map indented bad)
  +:+ newline +:+ "A path that does not exist is a usage error, not an empty run." +:+ newline
  +:+ "Nothing ran. See docs/user/reference/exit-codes.md." +:+ newline.

(** ** Scope entries round-trip *)

(** [render_entry] gives back the very string an entry was parsed from, so a
    diagnostic quotes what the user wrote: whenever [parse_scope_entry_str]
    accepts [raw] as [e], [render_entry e] is [raw]. *)
Theorem scope_entry_roundtrip raw e :
  parse_scope_entry_str raw = Ok e → render_entry e = raw.
Proof.
  unfold parse_scope_entry_str, NodeId.split_node_id_str, NodeId.split_node_id_once.
  case_one; [done|]. case_one; [done|].
  destruct (split_once "::" raw) as [[file rest]|] eqn:Hs.
  - apply split_once_Some in Hs as ->. pose proof (join_split "::" rest) as Hj.
    destruct (split "::" rest) as [|a [|b [|? ?]]]; repeat case_one; intros; simplify_eq;
      simpl in *; try done.
  - repeat case_one; intros; simplify_eq; done.
Qed.

Lemma scope_entry_roundtrip_witness :
  render_entry (Member "pkg/mod.py" "Cls" "meth") = "pkg/mod.py::Cls::meth".
Proof. apply (scope_entry_roundtrip "pkg/mod.py::Cls::meth"). vm_compute. reflexivity. Defined.

(** ** Precedence: command line, then [pyproject.toml], then the default *)

Definition layered {A} (cli toml : option A) (dflt : A) : A :=
  match cli, toml with
  | Some v, _ => v
  | None, Some v => v
  | None, None => dflt
  end.

Definition layered_option {A} (cli toml : option A) : option A :=
  match cli with Some v => Some v | None => toml end.

(** What the documentation says of the execution mode: [-n] and [--serial]
    exclude each other, and either beats the keys of the table. *)
Definition layered_mode (args : RunArgs) (tc : OxitestConfig) : ExecutionMode :=
  match ra_workers args, ra_serial args with
  | Some w, _ => ParallelMode w
  | None, true => SerialMode
  | None, false =>
      match tc_workers tc, tc_serial tc with
      | Some w, _ => ParallelMode w
      | None, Some true => SerialMode
      | None, _ => ParallelMode Auto
      end
  end.

(** [off] is the absence of strict mode. *)
Definition strict_level (s : option StrictMode) : option StrictMode :=
  match s with Some Off => None | _ => s end.

Lemma wrap_over_layered {A} (a b : option A) : wrap_over a (wrap_over b None) = layered_option a b.
Proof. by destruct a, b. Qed.

Lemma flag_over b d : default d (flag_override b) = b || d.
Proof. by destruct b. Qed.

Lemma strict_off s : (if bool_decide (s = Some Off) then None else s) = strict_level s.
Proof. by destruct s as [[]|]. Qed.

Section Merged.
Context (canonicalize : string → option string) (exists_ is_file : string → bool).

(** The configuration [oxitest run] uses, from a table and a command line. *)
Definition run_config (root inv : string) (tc : OxitestConfig) (args : RunArgs) : Config :=
  merge_run_args canonicalize (merge_toml (base_config root inv) tc (Some root)) args.

(** The parts of a configuration the command line cannot reach. *)
Definition declared (c : Config) : string * string * list string * list string * list string :=
  (rootdir c, invocation_dir c, declared_testpaths (paths c), python_files (paths c),
   norecursedirs (paths c)).

Lemma merge_paths_declared c l : declared (merge_paths c l) = declared c.
Proof. reflexivity. Qed.

Lemma merge_run_declared c args : declared (merge_run_args canonicalize c args) = declared c.
Proof. reflexivity. Qed.

Lemma merge_debug_declared c args : declared (merge_debug_args canonicalize c args) = declared c.
Proof. reflexivity. Qed.

Lemma merge_query_declared c args : declared (merge_query_args c args) = declared c.
Proof. reflexivity. Qed.

(** The stop-after-failures limit: [-x], then a positive [--maxfail], then the
    table, then no limit. *)
Definition layered_maxfail (args : RunArgs) (tc : OxitestConfig) : nat :=
  match ra_maxfail args with
  | Some (S n) => S n
  | _ => if ra_exitfirst args then 1 else default 0 (tc_maxfail tc)
  end.

(** C26: The three layers of the configuration of [oxitest run].  Every setting
    that a flag and a key of the table share takes the flag when it is given,
    the key otherwise, and the compiled default when neither is: schedule,
    retries, failed mode, traceback style, colour, durations, kept directories,
    verbosity, timeout and the two display switches; the execution mode puts
    [-n] over [--serial] over the table's [workers] over its [serial]; strict
    mode [off] on either layer is no strict mode. *)
Theorem run_settings_layered root inv tc args :
  let c := run_config root inv tc args in
  schedule (filter_cfg c) = layered (ra_schedule args) (tc_schedule tc) LongestFirst ∧
  retries (exec c) = layered (ra_retries args) (tc_retries tc) 0 ∧
  retries_delay_secs (exec c) = default 0%Z (tc_retries_delay tc) ∧
  failed (filter_cfg c) = layered_option (failed_resolve (ra_failed_filter args)) (tc_failed tc) ∧
  tb (output c) = layered (ra_tb args) (tc_tb tc) Detail ∧
  color (output c) = layered (ra_color args) (tc_color tc) ColorAuto ∧
  durations (output c) = layered_option (ra_durations args) (tc_durations tc) ∧
  keep_tmp (output c) = layered (ra_keep_tmp args) (tc_keep_tmp tc) KeepCleanup ∧
  verbosity (output c) = layered (verbosity_resolve (ra_verbosity args)) (tc_verbosity tc) VNormal ∧
  timeout_secs (exec c) = layered_option (ra_timeout args) (tc_timeout tc) ∧
  show_locals (output c) = ra_show_locals args || default false (tc_show_locals tc) ∧
  show_internals (output c) = ra_show_internals args || default false (tc_show_internals tc) ∧
  maxfail (exec c) = layered_maxfail args tc ∧
  mode (exec c) = layered_mode args tc ∧
  strict (marker_cfg c) = strict_level (layered_option (ra_strict args) (tc_strict tc)) ∧
  use_gitignore (paths c) = default true (tc_use_gitignore tc).
Proof.
  intros c. subst c. cbn -[bool_decide].
  rewrite strict_off, !wrap_over_layered, !flag_over.
  unfold layered_mode, layered_maxfail, layered.
  split_and!; repeat first [progress simpl | case_match]; done.
Qed.

(** [--maxfail 0] is documented as "no limit" and as overriding the table,
    but it cannot lift a limit the table sets: the run still stops after the
    table's [n] failures. *)
Theorem maxfail_zero_keeps_table_limit root inv tc args n :
  tc_maxfail tc = Some n → ra_maxfail args = Some 0 → ra_exitfirst args = false →
  maxfail (exec (run_config root inv tc args)) = n.
Proof. intros Ht Ha Hx. cbn. by rewrite Ha, Hx, Ht. Qed.

(** Two command lines that differ in [-q] only. *)
Definition set_quiet (b : bool) (a : RunArgs) : RunArgs := {|
  ra_paths := ra_paths a; ra_node_ids := ra_node_ids a; ra_filter := ra_filter a;
  ra_failed_filter := ra_failed_filter a; ra_verbosity := ra_verbosity a;
  ra_exitfirst := ra_exitfirst a; ra_maxfail := ra_maxfail a; ra_serial := ra_serial a;
  ra_doctest_modules := ra_doctest_modules a; ra_workers := ra_workers a;
  ra_schedule := ra_schedule a; ra_timeout := ra_timeout a; ra_retries := ra_retries a;
  ra_strict := ra_strict a; ra_quiet := b; ra_tb := ra_tb a; ra_show_locals := ra_show_locals a;
  ra_show_internals := ra_show_internals a; ra_tips := ra_tips a; ra_warnings := ra_warnings a;
  ra_color := ra_color a; ra_durations := ra_durations a;
  ra_collection_profile := ra_collection_profile a; ra_keep_tmp := ra_keep_tmp a;
  ra_json := ra_json a; ra_junit_xml := ra_junit_xml a; ra_cov := ra_cov a;
  ra_cov_report := ra_cov_report a |}.

(** [-q] is accepted and read nowhere: neither the validation nor the merged
    configuration depends on it, so [-v -q] is as verbose as [-v]. *)
Theorem quiet_flag_is_ignored c args b :
  run_validate (set_quiet b args) = run_validate args ∧
  merge_run_args canonicalize c (set_quiet b args) = merge_run_args canonicalize c args.
Proof. split; reflexivity. Qed.

(** [oxitest debug]: one process, no timeout, internal frames shown, and in
    post-mortem mode a stop after the first failure; the table's [timeout],
    [workers], [show_internals] and (post-mortem) [maxfail] do not matter. *)
Theorem debug_settings root inv tc args :
  let c := merge_debug_args canonicalize (merge_toml (base_config root inv) tc (Some root)) args in
  mode (exec c) = DebugM (debug_args_mode args) ∧
  (∀ cpus, worker_count c cpus = 1%Z) ∧
  timeout_secs (exec c) = None ∧
  show_internals (output c) = true ∧
  tb (output c) = default Detail (da_tb args) ∧
  maxfail (exec c) = (if da_always args then default 0 (tc_maxfail tc) else 1) ∧
  verbosity (output c) = layered (verbosity_resolve (da_verbosity args)) (tc_verbosity tc) VNormal.
Proof.
  cbn. unfold debug_args_mode, layered.
  split_and!; repeat first [progress simpl | case_match]; done.
Qed.

(** ** Targets are relative to the invocation directory *)

Lemma path_join_absolute base p :
  is_absolute base = true → is_absolute (path_join base p) = true.
Proof.
  unfold is_absolute, path_join. intros Hb. case_one; [done|].
  apply starts_with_true in Hb as [r ->]. simpl. case_one; by apply (starts_with_app "/").
Qed.

Lemma resolve_target_absolute base p :
  is_absolute base = true → is_absolute (resolve_target base p) = true.
Proof. unfold resolve_target. intros Hb. case_one; [done|]. by apply path_join_absolute. Qed.

(** The targets of a command line are resolved against the directory the
    runner was started from and never against the root directory, which is
    itself found from them: with positional paths, the test paths of [run],
    [debug] and [query] are the paths resolved against [inv], absolute when
    [inv] is, whatever the root directory and the table. *)
Theorem targets_resolve_against_invocation_dir root inv tc rargs dargs qargs l :
  l ≠ [] → is_absolute inv = true →
  ra_paths rargs = l → da_paths dargs = l → qa_paths qargs = l →
  let c := merge_toml (base_config root inv) tc (Some root) in
  let targets := map (resolve_target inv) l in
  testpaths (paths (merge_run_args canonicalize c rargs)) = targets ∧
  testpaths (paths (merge_debug_args canonicalize c dargs)) = targets ∧
  testpaths (paths (merge_query_args c qargs)) = targets ∧
  Forall (λ p, is_absolute p = true) targets.
Proof.
  intros Hl Hinv Hr Hd Hq. cbn. rewrite Hr, Hd, Hq. split_and!; try (by destruct l).
  apply Forall_forall. intros p (q & -> & _)%list_elem_of_fmap. by apply resolve_target_absolute.
Qed.
End Merged.

(** ** The root directory *)

(** [ancestor p d]: [d] is [p], its parent, the parent's parent, ... *)
Inductive ancestor : string → string → Prop :=
  | ancestor_self p : ancestor p p
  | ancestor_up p q d : path_parent p = Some q → ancestor q d → ancestor p d.

Lemma path_parent_depth p q : path_parent p = Some q → depth p = S (depth q).
Proof.
  intros (c & Hc)%path_parent_components. unfold depth. rewrite Hc, length_app. simpl. lia.
Qed.

(** The walk of [find_rootdir] ends from every path, relative ones included. *)
Lemma walk_up_total exists_ fuel start cur :
  depth cur < fuel → is_Some (walk_up exists_ fuel start cur).
Proof.
  revert cur. induction fuel as [|fuel IH]; intros cur Hf; [lia|]. simpl.
  case_one; [done|]. destruct (path_parent cur) as [q|] eqn:Hq; [|done].
  case_one; [done|]. apply IH. apply path_parent_depth in Hq. lia.
Qed.

Lemma parent_depth p q :
  is_absolute p = true → path_parent p = Some q → is_absolute q = true ∧ depth p = S (depth q).
Proof.
  intros Hp Hq. split; [|by apply path_parent_depth]. by destruct (path_parent_abs p q Hp Hq).
Qed.

Lemma ancestor_absolute p d :
  ancestor p d → is_absolute p = true → is_absolute d = true ∧ depth d ≤ depth p.
Proof.
  induction 1 as [p|p q d Hq _ IH]; intros Hp; [done|].
  destruct (parent_depth p q Hp Hq) as [Hq' ->]. destruct (IH Hq') as [? ?]. split; [done|lia].
Qed.

(** The ancestors of an absolute path are all its prefixes, down to the root. *)
Lemma ancestor_prefix cs p :
  is_absolute p = true → cs ≠ [] → cs `prefix_of` components p →
  ∃ d, ancestor p d ∧ components d = cs.
Proof.
  remember (depth p) as n eqn:Hn. revert p Hn.
  induction n as [|n IH]; intros p Hn Hp Hcs Hpre.
  - destruct (components p) eqn:E; [|unfold depth in Hn; by rewrite E in Hn].
    by apply prefix_nil_inv in Hpre.
  - destruct (path_parent p) as [q|] eqn:Hq.
    + destruct (path_parent_abs p q Hp Hq) as (Hq' & c & Hc).
      destruct (parent_depth p q Hp Hq) as [_ Hd]. rewrite Hc in Hpre.
      destruct Hpre as [k Hk]. destruct k as [|x k _] using rev_ind.
      * exists p. split; [constructor|]. by rewrite Hc, Hk, app_nil_r.
      * rewrite app_assoc in Hk. apply app_inj_tail in Hk as [Hk _].
        destruct (IH q) as (d & Hd' & <-); [lia|done..|by exists k|].
        exists d. split; [by eapply ancestor_up|done].
    + apply path_parent_root in Hq; [|done]. rewrite Hq in Hpre. destruct Hpre as [k Hk].
      destruct cs as [|c cs]; [done|]. destruct cs; [|by destruct cs].
      exists p. split; [constructor|]. by simplify_eq/=.
Qed.

Section Rootdir.
Context (canonicalize : string → option string) (exists_ is_file : string → bool).
Abbreviation has_marker := (has_marker exists_).

Lemma ancestor_inv p d :
  ancestor p d → d = p ∨ ∃ q, path_parent p = Some q ∧ ancestor q d.
Proof. destruct 1; eauto. Qed.

Lemma walk_up_spec fuel start cur :
  is_absolute cur = true → depth cur < fuel →
  ∃ r, walk_up exists_ fuel start cur = Some r ∧
    ((ancestor cur r ∧ has_marker r = true ∧
      ∀ d, ancestor cur d → depth r < depth d → has_marker d = false) ∨
     (r = start ∧ ∀ d, ancestor cur d → has_marker d = false)).
Proof.
  revert cur. induction fuel as [|fuel IH]; intros cur Hc Hf; [lia|]. simpl.
  destruct (has_marker cur) eqn:Hm.
  { exists cur. split; [done|]. left. split_and!; [constructor|done|].
    intros d Hd Hlt. pose proof (ancestor_absolute _ _ Hd Hc). lia. }
  destruct (path_parent cur) as [q|] eqn:Hq.
  2:{ exists start. split; [done|]. right. split; [done|].
      intros d [->|(q & Hq' & _)]%ancestor_inv; congruence. }
  destruct (parent_depth cur q Hc Hq) as [Hq' Hd].
  destruct (path_eqb q cur) eqn:E.
  { apply path_eqb_true in E. unfold depth in Hd. rewrite E in Hd. lia. }
  destruct (IH q Hq') as (r & Hr & Hspec); [lia|]. exists r. split; [done|].
  assert (∀ d, ancestor cur d → d = cur ∨ ancestor q d) as Hinv.
  { intros d [->|(q' & ? & ?)]%ancestor_inv; simplify_eq; auto. }
  destruct Hspec as [(Ha & Hmr & Hn)|[-> Hn]]; [left|right].
  - split_and!; [by eapply ancestor_up|done|]. intros d [->|?]%Hinv ?; auto.
  - split; [done|]. intros d [->|?]%Hinv; auto.
Qed.

Lemma walk_start_absolute start inv :
  (∀ p q, canonicalize p = Some q → is_absolute q = true) → is_absolute inv = true →
  is_absolute (walk_start canonicalize is_file start inv) = true.
Proof.
  intros Hcan Hinv. unfold walk_start.
  destruct (canonicalize _) as [q|] eqn:E; [by eapply Hcan|]. simpl.
  assert (is_absolute match start with
                      | Some path => resolve_target inv path | None => inv end = true) as Hs.
  { destruct start; [by apply resolve_target_absolute|done]. }
  case_one; [|done]. destruct (path_parent _) as [q|] eqn:Hq; [|done].
  by apply parent_depth in Hq as [? _].
Qed.

(** Root-directory discovery.  From an absolute invocation directory, with
    [canonicalize] giving absolute paths, the walk ends (its fuel, one more than
    the number of components, is enough) with an absolute directory: the nearest
    ancestor of the starting directory that holds one of the three marker files,
    or the starting directory when none does; the ancestors tried are every
    prefix of the starting directory, the root included. *)
Theorem find_rootdir_nearest start inv :
  (∀ p q, canonicalize p = Some q → is_absolute q = true) → is_absolute inv = true →
  let s := walk_start canonicalize is_file start inv in
  let r := find_rootdir canonicalize exists_ is_file start inv in
  is_Some (walk_up exists_ (S (depth s)) s s) ∧ is_absolute r = true ∧
    ((ancestor s r ∧ has_marker r = true ∧
      ∀ d, ancestor s d → depth r < depth d → has_marker d = false) ∨
     (r = s ∧ ∀ d, ancestor s d → has_marker d = false)) ∧
    ∀ cs, cs ≠ [] → cs `prefix_of` components s → ∃ d, ancestor s d ∧ components d = cs.
Proof.
  intros Hcan Hinv s. pose proof (walk_start_absolute start inv Hcan Hinv) as Hs. fold s in Hs.
  destruct (walk_up_spec (S (depth s)) s s Hs) as (r' & Hr & Hspec); [lia|].
  unfold find_rootdir. fold s. rewrite Hr. simpl.
  split_and!; [by exists r'| |done|].
  - destruct Hspec as [(Ha & _)|[-> _]]; [|done]. by apply (ancestor_absolute s r').
  - intros cs. by apply ancestor_prefix.
Qed.
End Rootdir.

(** The documentation of [find_rootdir] says its value is always absolute.  In a
    working directory that is not UTF-8 the invocation directory is ["."] and
    cannot be made canonical, and ["."] is returned. *)
Theorem rootdir_relative_in_non_utf8_cwd exists_ is_file :
  is_file "." = false → exists_ "pyproject.toml" = exists_ "./pyproject.toml" →
  exists_ "setup.cfg" = exists_ "./setup.cfg" → exists_ "tox.ini" = exists_ "./tox.ini" →
  find_rootdir (λ _, None) exists_ is_file None "." = "." ∧ is_absolute "." = false.
Proof.
  intros Hf H1 H2 H3. split; [|done]. unfold find_rootdir, walk_start. rewrite Hf.
  assert (has_marker exists_ "" = has_marker exists_ ".") as Hm.
  { change (exists_ "pyproject.toml" || exists_ "setup.cfg" || exists_ "tox.ini"
            = exists_ "./pyproject.toml" || exists_ "./setup.cfg" || exists_ "./tox.ini").
    by rewrite H1, H2, H3. }
  change (default "." (walk_up exists_ 2 "." ".") = "."). cbn [walk_up]. rewrite <-Hm.
  destruct (has_marker exists_ "") eqn:E; [done|]. cbn. by rewrite E.
Qed.

(** ** Loading is fail-closed on its own table only *)

Lemma merge_toml_default root inv :
  merge_toml (base_config root inv) oxitest_default (Some root) = base_config root inv.
Proof. reflexivity. Qed.

Section Load.
Context {toml_error : Type} (read_to_string : string → option string)
        (toml_from_str : string → result toml toml_error)
        (try_into : toml → result OxitestConfig de_error).
Abbreviation load := (config_load read_to_string toml_from_str try_into).

(** The [\[tool.oxitest\]] value of a readable, well-formed [pyproject.toml]. *)
Definition own_table (root : string) (sub : toml) : Prop :=
  ∃ content v, read_to_string (path_join root "pyproject.toml") = Some content ∧
    toml_from_str content = Ok v ∧ oxitest_table v = Some sub.

Definition refused (sub : toml) : Prop :=
  (∃ t x, sub = TTable t ∧ t !! "doctest_modules" = Some x) ∨ ∃ e, try_into sub = Err e.

Lemma load_own_table root inv sub :
  own_table root sub →
  load root inv = match as_table sub ≫= lookup "doctest_modules", try_into sub with
                  | None, Ok tc => Ok (merge_toml (base_config root inv) tc (Some root))
                  | _, _ => Err ExitCode.UsageError
                  end.
Proof.
  intros (content & v & Hr & Hp & Ht). unfold config_load, check_no_legacy_keys, parse_oxitest_config.
  rewrite Hr, Hp. cbn. rewrite Ht. cbn.
  destruct (as_table sub) as [t|]; cbn; [destruct (t !! _); [done|]|]; by destruct (try_into sub).
Qed.

Lemma load_no_table root inv :
  (∀ sub, ¬ own_table root sub) → load root inv = Ok (base_config root inv).
Proof.
  intros Hno. unfold config_load, check_no_legacy_keys, parse_oxitest_config.
  destruct (read_to_string _) as [content|] eqn:Hr; [|done].
  destruct (toml_from_str content) as [v|e] eqn:Hp; [|by rewrite merge_toml_default].
  destruct (oxitest_table v) as [sub|] eqn:Ht; cbn; [|by rewrite merge_toml_default].
  destruct (Hno sub). by exists content, v.
Qed.

(** The configuration is refused, with exit code 4, exactly when the
    [\[tool.oxitest\]] table of a well-formed [pyproject.toml] holds the removed
    key [doctest_modules] or does not deserialise; when the file is missing, not
    TOML at all, or has no such table, the compiled defaults are used and
    nothing is refused, whatever the other tables hold. *)
Theorem load_refuses_only_its_table root inv :
  (∀ code, load root inv = Err code ↔
     code = ExitCode.UsageError ∧ ∃ sub, own_table root sub ∧ refused sub) ∧
  ((∀ sub, ¬ own_table root sub) → load root inv = Ok (base_config root inv)) ∧
  (∀ sub tc, own_table root sub → ¬ refused sub → try_into sub = Ok tc →
     load root inv = Ok (merge_toml (base_config root inv) tc (Some root))).
Proof.
  assert (∀ sub, refused sub ↔
    is_Some (as_table sub ≫= lookup "doctest_modules") ∨ ∃ e, try_into sub = Err e) as Href.
  { intros sub. unfold refused, is_Some. destruct sub; cbn; naive_solver. }
  split_and!.
  - intros code. split.
    + destruct (read_to_string (path_join root "pyproject.toml")) as [content|] eqn:Hr.
      2:{ unfold config_load. by rewrite Hr. }
      destruct (toml_from_str content) as [v|e] eqn:Hp.
      2:{ rewrite load_no_table; [done|]. intros sub (? & ? & ? & ? & _). congruence. }
      destruct (oxitest_table v) as [sub|] eqn:Ht.
      2:{ rewrite load_no_table; [done|]. intros sub (? & ? & ? & ? & ?). congruence. }
      assert (own_table root sub) as Hown by (by exists content, v).
      rewrite (load_own_table root inv sub Hown).
      destruct (as_table sub ≫= _) as [x|] eqn:Hk, (try_into sub) as [tc|e] eqn:Hi; intros [=];
        (split; [done|]; exists sub; split; [done|]; apply Href; rewrite Hk, Hi; eauto).
    + intros [-> (sub & Hown & Hr%Href)]. rewrite (load_own_table root inv sub Hown).
      destruct Hr as [[x ->]|[e ->]]; [done|]. by destruct (as_table sub ≫= _).
  - apply load_no_table.
  - intros sub tc Hown Hn Ht. rewrite (load_own_table root inv sub Hown), Ht.
    destruct (as_table sub ≫= _) as [x|] eqn:E; [|done].
    destruct Hn. apply Href. left. by exists x.
Qed.
End Load.

(** ** Concrete instances *)

(** [oxitest run] with paths, a [--maxfail] and nothing else. *)
Definition bare_run_args (l : list string) (limit : option nat) : RunArgs := {|
  ra_paths := l; ra_node_ids := []; ra_filter := {| fa_expression := None; fa_affected := None |};
  ra_failed_filter := {| ff_failed := None; ff_lf := false; ff_ff := false |};
  ra_verbosity := {| va_verbose_count := 0; va_verbose := None |}; ra_exitfirst := false;
  ra_maxfail := limit; ra_serial := false; ra_doctest_modules := false; ra_workers := None;
  ra_schedule := None; ra_timeout := None; ra_retries := None; ra_strict := None;
  ra_quiet := false; ra_tb := None; ra_show_locals := false; ra_show_internals := false;
  ra_tips := false; ra_warnings := false; ra_color := None; ra_durations := None;
  ra_collection_profile := false; ra_keep_tmp := None; ra_json := None; ra_junit_xml := None;
  ra_cov := false; ra_cov_report := None |}.

Definition bare_debug_args (l : list string) : DebugArgs := {|
  da_paths := l; da_node_ids := []; da_always := false;
  da_filter := {| fa_expression := None; fa_affected := None |};
  da_failed_filter := {| ff_failed := None; ff_lf := false; ff_ff := false |};
  da_verbosity := {| va_verbose_count := 0; va_verbose := None |};
  da_quiet := false; da_tb := None; da_show_locals := false; da_keep_tmp := None; da_color := None |}.

Definition bare_query_args (l : list string) : QueryArgs := {|
  qa_resource := Tests; qa_expression := None; qa_fzf := false; qa_detail := None;
  qa_jsonl := false; qa_count := false; qa_tree := false; qa_color := None; qa_paths := l |}.

(** A table with a limit and declared test paths. *)
Definition demo_table : OxitestConfig := {|
  tc_testpaths := Some ["tests"]; tc_python_files := None; tc_norecursedirs := None;
  tc_markers := None; tc_timeout := None; tc_cache_max_age := None; tc_min_parallel_tests := None;
  tc_timeout_multiplier := None; tc_spawn_overhead_ms := None; tc_strict := None;
  tc_workers := None; tc_schedule := None; tc_failed := None; tc_tb := None;
  tc_verbosity := None; tc_maxfail := Some 5; tc_durations := None; tc_serial := None;
  tc_color := None; tc_plugins := None; tc_plugin_settings := ∅; tc_async_backend := None;
  tc_affected_base := None; tc_retries := None; tc_retries_delay := None; tc_keep_tmp := None;
  tc_show_locals := None; tc_show_internals := None; tc_use_gitignore := None;
  tc_doctest := None; tc_inspect_timeout := None |}.

Lemma maxfail_zero_keeps_table_limit_witness :
  maxfail (exec (run_config (λ p, Some p) "/w" "/w" demo_table (bare_run_args [] (Some 0)))) = 5.
Proof. by apply (maxfail_zero_keeps_table_limit (λ p, Some p) "/w" "/w" demo_table). Defined.

Lemma targets_resolve_against_invocation_dir_witness :
  testpaths (paths (run_config (λ p, Some p) "/w" "/w/sub" demo_table (bare_run_args ["t.py"] None)))
  = ["/w/sub/t.py"].
Proof.
  by destruct (targets_resolve_against_invocation_dir (λ p, Some p) "/w" "/w/sub" demo_table
    (bare_run_args ["t.py"] None) (bare_debug_args ["t.py"]) (bare_query_args ["t.py"]) ["t.py"])
    as (H & _).
Defined.

Lemma find_rootdir_nearest_witness :
  is_absolute (find_rootdir (λ p, if is_absolute p then Some p else None)
                 (String.eqb "/w/pyproject.toml") (λ _, false) (Some "tests") "/w/sub") = true ∧
  find_rootdir (λ p, if is_absolute p then Some p else None)
    (String.eqb "/w/pyproject.toml") (λ _, false) (Some "tests") "/w/sub" = "/w".
Proof.
  split; [|reflexivity].
  eapply (find_rootdir_nearest (λ p, if is_absolute p then Some p else None)
    (String.eqb "/w/pyproject.toml") (λ _, false) (Some "tests") "/w/sub").
  - intros p q. by destruct (is_absolute p) eqn:E; intros [= <-].
  - reflexivity.
Defined.

Example worker_count_ex :
  map worker_count_from_str ["AUTO"; "4"; "0"]
  = [Ok Auto; Ok (Fixed 4); Err "worker count must be at least 1"].
Proof. reflexivity. Qed.

Example markers_ex :
  parse_marker_descriptions ["slow: takes long"; " smoke "] = (["slow"; "smoke"], ["smoke"]).
Proof. reflexivity. Qed.

Example scope_entry_ex :
  map parse_scope_entry_str ["pkg/"; "pkg/m.py::f"; "../m.py"]
  = [Ok (Prefix "pkg/"); Ok (Symbol "pkg/m.py" "f");
     Err "entry '../m.py' must not contain '..' components"].
Proof. reflexivity. Qed.
