(* ===== verification/Render.v ===== *)
(** * Render: the texts the console reporters print

    [reporter/format/{diagnostic,summary,suggestions}.rs], [reporter/print.rs],
    [reporter/options.rs], [parallel_context.rs] and the slowest entries of
    [reporter/stats.rs].  A function that prints returns the text it prints.
    The size of the terminal, the visible width of a text (crate [console]),
    the changes of two texts (crate [similar]) and the order in which an
    unstable sort leaves equal elements are parameters. *)
From stdpp Require Import pretty sorting.
From S2P Require Import Prelude Collections Text F64 Types Report Config Colors Diff.

Definition println (s : string) : string := s +:+ newline.
Definition str_repeat (s : string) (n : nat) : string := String.concat "" (replicate n s).

(** [{:>width$}] *)
Definition align_right (width : nat) (s : string) : string := repeat_space (width - length (chars s)) +:+ s.

(** ** Decimal printing of floats: [{:.n}] is the exact value, half to even. *)

Definition round_half_even (m : Z) (d : Z) : Z :=
  let q := (m / d)%Z in
  match Z.compare (2 * (m mod d)) d with
  | Lt => q
  | Gt => (q + 1)%Z
  | Eq => if Z.even q then q else (q + 1)%Z
  end.

(** [m * 2^e * 10^digits], rounded. *)
Definition scaled (digits : nat) (m : positive) (e : Z) : Z :=
  let n := (Zpos m * 10 ^ Z.of_nat digits)%Z in
  if (0 <=? e)%Z then (n * 2 ^ e)%Z else round_half_even n (2 ^ (- e)).

Definition zeros_before (width : nat) (s : string) : string := str_repeat "0" (width - String.length s) +:+ s.

Definition fixed_digits (digits : nat) (v : Z) : string :=
  let base := (10 ^ Z.of_nat digits)%Z in
  pretty (Z.to_N (v / base)) +:+
  (if digits =? 0 then "" else "." +:+ zeros_before digits (pretty (Z.to_N (v mod base)))).

Definition fmt_fixed (digits : nat) (x : f64) : string :=
  match x with
  | S754_nan => "NaN"
  | S754_infinity s => (if s then "-" else "") +:+ "inf"
  | S754_zero s => (if s then "-" else "") +:+ fixed_digits digits 0
  | S754_finite s m e => (if s then "-" else "") +:+ fixed_digits digits (scaled digits m e)
  end.

Example fmt_fixed_rounds :
  map (fmt_fixed 1) [f64_of_Z 12; f64_div (f64_of_Z 1) (f64_of_Z 4); f64_div (f64_of_Z 3) (f64_of_Z 4); S754_zero true]
  = ["12.0"; "0.2"; "0.8"; "-0.0"] ∧ fmt_fixed 2 (f64_div (f64_of_Z 1) (f64_of_Z 3)) = "0.33".
Proof. by vm_compute. Qed.

(** ** Options ([options.rs]) *)

Record ReporterOpts := mk_opts {
  ro_total : nat;
  ro_fn_count : nat;
  ro_async_count : nat;
  ro_use_color : bool;
  ro_tb : TbStyle;
  ro_show_tips : bool;
  ro_show_warnings : bool;
  ro_show_locals : bool;
  ro_verbosity : Verbosity;
  ro_show_durations : option nat;
  ro_name_width : nat;
  ro_strict_suite_lines : list string;
  ro_rootdir : option string
}.

Definition DEFAULT_NAME_WIDTH : nat := 45.

(** [v >= Verbosity::Detailed] *)
Definition detailed (v : Verbosity) : bool := match v with VNormal => false | VDetailed | VFull => true end.

Definition opts_from_config (cfg : Config) (use_color : bool) : ReporterOpts :=
  let o := output cfg in
  mk_opts 0 0 0 use_color (tb o) (detailed (verbosity o)) (detailed (verbosity o)) (show_locals o) (verbosity o)
    (durations o) DEFAULT_NAME_WIDTH [] (Some (rootdir cfg)).

(** [w.clamp(30, 70)] *)
Definition clamp_name_width (w : nat) : nat := Nat.min 70 (Nat.max 30 w).

(** The builder of [build_shared] and the setters of [Pipeline::execute]. *)
Definition run_opts (cfg : Config) (use_color tips warnings : bool) (clean violated : list TestItem)
    (suite_lines : list string) : ReporterOpts :=
  let base := opts_from_config cfg use_color in
  let all := clean ++ violated in
  mk_opts (length violated + length clean)
    (size (list_to_set (map (λ i, (item_module_path i, fn_name i)) all) : gset (string * string)))
    (length (List.filter is_async clean)) (ro_use_color base) (tb (output cfg))
    (ro_show_tips base || tips) (ro_show_warnings base || warnings) (ro_show_locals base) (ro_verbosity base)
    (ro_show_durations base)
    (clamp_name_width (match all with [] => 30 | _ => list_max (map (λ i, String.length (fn_name i)) all) end))
    suite_lines (ro_rootdir base).

(** ** Hints ([suggestions.rs]) *)

Definition suggest_fix (o : TestOutcome.t) : option string :=
  match o with
  | TestOutcome.Failed _ | TestOutcome.Error _ =>
      match TestOutcome.message o with
      | None => None
      | Some message =>
          if contains "can't be used in 'await'" message || contains "cannot be used in 'await'" message then
            Some "The test is async but a fixture returned a non-awaitable value. Mark the fixture as `async def` or make the test synchronous."
          else if contains "SharedFixtureMutationError" message then
            Some ("A fixture value that outlives one test is frozen to prevent cross-test mutation. Declare the fixture with `lifetime="
              +:+ String dquote_ "function" +:+ String dquote_ "` for a mutable per-test copy.")
          else None
      end
  | _ => None
  end.

Section Render.
Context {styling : Styling} (term_cols : nat) (measure_text_width : string → nat).
Context (changes : string → string → list (ChangeTag * string)).

Definition sep_width : nat := Nat.min term_cols 100.

(** ** Diagnostic blocks ([diagnostic.rs]) *)

Definition box_open : string := "┌".
Definition box_vert : string := "│".
Definition box_close : string := "└".
Definition box_margin : string := "      ".

Definition case_sep (use_color : bool) : string := if use_color then " · " else " - ".

Definition pad_to (s : string) (width : nat) : string :=
  let visual := measure_text_width s in
  if width <=? visual then s else s +:+ repeat_space (width - visual).

(** One line of the box, and the empty one between sections. *)
Definition box_line (use_color : bool) (s : string) : string :=
  println (box_margin +:+ color C_dim box_vert use_color +:+ s).

Definition box_gap (use_color : bool) : string := box_line use_color "".

Definition render_where (file : string) (lineno : nat) (use_color : bool) : string :=
  if String.eqb file "" then ""
  else println (box_margin +:+ color C_dim box_open use_color +:+ " "
         +:+ color C_dim_cyan (file +:+ ":" +:+ pretty lineno) use_color)
       +:+ box_gap use_color.

Definition render_param (use_color : bool) (p : ParamPair) : string :=
  color C_dim (pp_name p) use_color +:+ " " +:+ color C_dim "=" use_color +:+ " " +:+ pp_value p.

Definition render_params (param_values : list ParamPair) (use_color : bool) : string :=
  match param_values with
  | [] => ""
  | _ => box_line use_color ("  " +:+ join (color C_dim ", " use_color) (map (render_param use_color) param_values))
         +:+ box_gap use_color
  end.

Definition render_locals (locals : list LocalVar) (indent : nat) (use_color : bool) : string :=
  String.concat "" (map (λ l, box_line use_color (repeat_space indent
    +:+ color C_dim (lv_name l) use_color +:+ " = " +:+ color C_dim (lv_repr l) use_color)) locals).

(** The frame of the failure itself. *)
Definition failure_frame (diag : FailureDiagnostic) (f : Frame) : bool :=
  String.eqb (fr_file f) (diag_file diag) && (fr_lineno f =? diag_lineno diag).

Definition failure_locals (diag : FailureDiagnostic) : option (list LocalVar) :=
  find_map (λ f, match fr_locals f with
                 | [] => None
                 | l => if failure_frame diag f then Some l else None
                 end) (diag_frames diag).

Definition render_source (diag : FailureDiagnostic) (show_locals use_color : bool) : string :=
  if String.eqb (diag_source_line diag) "" then ""
  else box_line use_color ("  " +:+ color C_bold_white (diag_source_line diag) use_color)
       +:+ (if show_locals then
              match failure_locals diag with Some l => render_locals l 4 use_color | None => "" end
            else "")
       +:+ box_gap use_color.

Definition render_frame (show_locals use_color : bool) (f : Frame) : string :=
  box_line use_color ("    " +:+ color C_dim (fr_file f +:+ ":" +:+ pretty (fr_lineno f) +:+ " in " +:+ fr_name f) use_color)
  +:+ (if String.eqb (fr_line f) "" then "" else box_line use_color ("      " +:+ color C_bold_white (fr_line f) use_color))
  +:+ (if show_locals then render_locals (fr_locals f) 8 use_color else "").

Definition trace_frames (diag : FailureDiagnostic) : list Frame :=
  List.filter (λ f, negb (failure_frame diag f)) (diag_frames diag).

Definition render_trace (diag : FailureDiagnostic) (show_locals use_color : bool) : string :=
  match trace_frames diag with
  | [] => ""
  | frames => box_line use_color ("  " +:+ color C_dim "trace" use_color)
              +:+ String.concat (box_gap use_color) (map (render_frame show_locals use_color) frames)
              +:+ box_gap use_color
  end.

Definition render_hint (o : TestOutcome.t) (use_color : bool) : string :=
  match suggest_fix o with
  | Some hint_text => box_line use_color ("  " +:+ color C_blue ("hint: " +:+ hint_text) use_color) +:+ box_gap use_color
  | None => ""
  end.

Definition render_closing (message : string) (use_color : bool) : string :=
  if String.eqb message "" then println (box_margin +:+ color C_dim box_close use_color)
  else match str_lines message with
       | [] => ""
       | first :: rest =>
           println (box_margin +:+ color C_dim box_close use_color +:+ " " +:+ color C_dim first use_color)
           +:+ String.concat "" (map (λ l, box_line use_color ("  " +:+ color C_dim l use_color)) rest)
       end.

Definition box_lines (use_color : bool) (text : string) : string :=
  String.concat "" (map (λ l, box_line use_color ("  " +:+ l)) (str_lines text)).

Definition render_values (c : ComparisonDetail) (use_color : bool) : string :=
  let left := cd_left c in
  let right := cd_right c in
  let op := cd_op c in
  if negb (String.eqb op "") && negb (String.eqb left "") && negb (String.eqb right "") then
    let diff := fmt_diff changes left right op use_color in
    (if String.eqb diff "" then "" else box_lines use_color diff +:+ box_gap use_color)
    +:+ match cd_field_diffs c with
        | [] => ""
        | fds =>
            if String.eqb op "==" then
              let out := fmt_field_diffs fds left use_color in
              if String.eqb out "" then "" else box_gap use_color +:+ box_lines use_color out
            else ""
        end
  else if negb (String.eqb op "") then
    box_line use_color ("  " +:+ "left:  " +:+ color C_dim left use_color) +:+ box_gap use_color
  else if negb (String.eqb left "") then
    box_line use_color ("  " +:+ "value: " +:+ color C_dim left use_color) +:+ box_gap use_color
  else "".

Definition fmt_diagnostic_block (item : TestItem) (o : TestOutcome.t) (t : TbStyle) (show_locals use_color : bool)
    : string :=
  match t with
  | No | Line => ""
  | Detail =>
      match o with
      | TestOutcome.Timeout message => render_closing message use_color
      | _ =>
          match TestOutcome.diagnostic o with
          | None => ""
          | Some diag =>
              render_where (diag_file diag) (diag_lineno diag) use_color
              +:+ render_params (param_values item) use_color
              +:+ render_source diag show_locals use_color
              +:+ match diag_comparison diag with Some c => render_values c use_color | None => "" end
              +:+ render_trace diag show_locals use_color
              +:+ render_hint o use_color
              +:+ render_closing (diag_message diag) use_color
          end
      end
  end.

(** ** Summary ([summary.rs]) *)

Definition plural_s (n : nat) : string := if n =? 1 then "" else "s".

Definition push_stat (parts : list string) (count : nat) (label : string) (c : TextStyle) (use_color : bool)
    : list string :=
  if 0 <? count then parts ++ [color c (pretty count +:+ " " +:+ label) use_color] else parts.

Definition push_stat_plural (parts : list string) (count : nat) (label : string) (c : TextStyle) (use_color : bool)
    : list string :=
  if 0 <? count then parts ++ [color c (pretty count +:+ " " +:+ label +:+ plural_s count) use_color] else parts.

Definition summary_parts (s : RunStats) (collect_err_count : nat) (use_color : bool) : list string :=
  let get := OutcomeCounters.get (counts s) in
  let parts := push_stat [] (get OutcomeKind.Failed) "failed" C_fail use_color in
  let parts := push_stat_plural parts (get OutcomeKind.Error) "error" C_error_token use_color in
  let xpassed := get OutcomeKind.XPassed in
  let parts := if 0 <? xpassed then
                 parts ++ [color (if 0 <? xpassed_strict s then C_fail else C_warn) (pretty xpassed +:+ " xpassed") use_color]
               else parts in
  let parts := push_stat_plural parts (get OutcomeKind.Timeout) "timeout" C_timeout use_color in
  let parts := push_stat parts (get OutcomeKind.Passed) "passed" C_pass use_color in
  let parts := push_stat parts (get OutcomeKind.Skipped) "skipped" C_skip use_color in
  let parts := push_stat parts (get OutcomeKind.XFailed) "xfailed" C_dim use_color in
  let parts := push_stat_plural parts (get OutcomeKind.Warned) "warning" C_warn use_color in
  let parts := push_stat parts (get OutcomeKind.Flaky) "flaky" C_warn use_color in
  if 0 <? collect_err_count then
    parts ++ [pretty collect_err_count +:+ " collection error" +:+ plural_s collect_err_count]
  else parts.

Definition double_rule (width : nat) (use_color : bool) : string := color C_dim (str_repeat "═" width) use_color.

Definition fmt_summary (s : RunStats) (collect_err_count : nat) (use_color : bool) : string :=
  let sep := double_rule sep_width use_color in
  let parts := match summary_parts s collect_err_count use_color with [] => ["no tests ran"] | l => l end in
  println sep +:+ "  " +:+ println (join " · " parts) +:+ sep.

Definition fmt_tip_block (tip_lines : list TipLine) (show_tips use_color : bool) : string :=
  match tip_lines with
  | [] => ""
  | _ =>
      let head := "  " +:+ color C_cyan "tip" use_color +:+ "   " +:+ pretty (length tip_lines) in
      if show_tips then
        println (head +:+ " assertions without messages:")
        +:+ println (join newline (map (λ t,
              color C_dim ("        " +:+ tip_file t +:+ ":" +:+ pretty (tip_lineno t)) use_color) tip_lines))
      else println (head +:+ " assertions without messages  " +:+ color C_dim "(--tips to expand)" use_color)
  end.

(** Distinct diagnostics in the order they were first seen, with their number. *)
Definition diag_key : Type := DiagnosticSeverity * string * string.
Definition key_of (e : DiagnosticEntry) : diag_key := (de_severity e, de_context e, de_message e).

#[export] Instance severity_eq_dec : EqDecision DiagnosticSeverity.
Proof. solve_decision. Defined.

Fixpoint count_key (k : diag_key) (l : list (diag_key * nat)) : list (diag_key * nat) :=
  match l with
  | [] => [(k, 1)]
  | (k', n) :: l => if bool_decide (k' = k) then (k', S n) :: l else (k', n) :: count_key k l
  end.

Definition dedup_entries (entries : list DiagnosticEntry) : list (diag_key * nat) :=
  fold_left (λ l e, count_key (key_of e) l) entries [].

Definition severity_order (s : DiagnosticSeverity) : nat :=
  match s with SevError => 0 | SevWarning => 1 | SevNotice => 2 end.

Definition by_severity (l : list (diag_key * nat)) : list (diag_key * nat) :=
  sort_by (λ a b, Nat.compare (severity_order a.1.1.1) (severity_order b.1.1.1)) l.

Definition severity_count (s : DiagnosticSeverity) (l : list (diag_key * nat)) : nat :=
  sum_list (map snd (List.filter (λ p, bool_decide (p.1.1.1 = s)) l)).

Definition severity_style (s : DiagnosticSeverity) : TextStyle :=
  match s with SevError => C_fail | SevWarning => C_warn | SevNotice => C_dim end.

Definition diagnostic_box (use_color : bool) (p : diag_key * nat) : string :=
  let '(sev, context, message, count) := p in
  let count_suffix := if 1 <? count then " (×" +:+ pretty count +:+ ")" else "" in
  println ("        " +:+ color C_dim "┌─" use_color +:+ " " +:+ color C_dim context use_color +:+ count_suffix)
  +:+ String.concat "" (map (λ line,
        if String.eqb line "" then ""
        else println ("        " +:+ color C_dim "│" use_color +:+ "  " +:+ color (severity_style sev) line use_color))
        (split newline message))
  +:+ println ("        " +:+ color C_dim "└─" use_color).

Definition collapsed_parts (l : list (diag_key * nat)) (use_color : bool) : list string :=
  let part s word := let n := severity_count s l in
    if 0 <? n then [color (severity_style s) (pretty n +:+ " " +:+ word +:+ plural_s n) use_color] else [] in
  part SevError "error" ++ part SevWarning "warning" ++ part SevNotice "notice".

Definition fmt_diagnostics_block (entries : list DiagnosticEntry) (show_diagnostics use_color : bool) : string :=
  match entries with
  | [] => ""
  | _ =>
      let l := dedup_entries entries in
      if show_diagnostics then String.concat "" (map (diagnostic_box use_color) (by_severity l))
      else println ("  " +:+ join " · " (collapsed_parts l use_color) +:+ "  "
             +:+ color C_dim "(--warnings to expand)" use_color)
  end.

(** ** Slowest entries ([stats.rs]) *)

(** [sort_unstable_by], which leaves the order of equal elements open. *)
Context (sort_unstable : ∀ A : Type, (A → A → comparison) → list A → list A).

Definition top_n_by_key {A} (key : A → f64) (n : nat) (items : list A) : list A :=
  take n (sort_unstable A (λ a b, cmp_or_equal (key b) (key a)) items).

Definition slowest (s : RunStats) (n : nat) : list TimingEntry := top_n_by_key te_duration_ms n (run_timings s).

Definition fixture_total (e : FixtureTimingEntry) : f64 := f64_add (fte_total_setup e) (fte_total_teardown e).

Definition slowest_fixtures (s : RunStats) (n : nat) : list FixtureTimingEntry :=
  top_n_by_key fixture_total n (fixture_timings s).

(** ** Sections of the output ([print.rs]) *)

Definition print_collected (total fn_count async_count : nat) (root : option string) : string :=
  match root with Some r => println ("rootdir: " +:+ r) | None => "" end
  +:+ println (println ("collected " +:+ pretty total +:+ " item" +:+ plural_s total
        +:+ (if (0 <? fn_count) && (fn_count <? total) then " from " +:+ pretty fn_count +:+ " function" +:+ plural_s fn_count
             else "")
        +:+ (if 0 <? async_count then " (" +:+ pretty async_count +:+ " async)" else ""))).

Definition ms2 (x : f64) : string := fmt_fixed 2 x +:+ "ms".

Definition fixture_detail (e : FixtureTimingEntry) : string :=
  "setup " +:+ ms2 (fte_total_setup e) +:+ " (" +:+ pretty (fte_setup_count e) +:+ ")"
  +:+ (if 0 <? fte_teardown_count e then
         " + teardown " +:+ ms2 (fte_total_teardown e) +:+ " (" +:+ pretty (fte_teardown_count e) +:+ ")"
       else "").

Definition slowest_section {A} (title : string) (line : A → string) (l : list A) (use_color : bool) : string :=
  match l with
  | [] => ""
  | _ => newline +:+ println (color C_dim ("slowest " +:+ pretty (length l) +:+ " " +:+ title) use_color)
         +:+ String.concat "" (map (λ e, println (line e)) l)
  end.

Definition duration_cell (x : f64) : string := "  " +:+ align_right 8 (fmt_fixed 2 x) +:+ "ms  ".

Definition durations_section (s : RunStats) (opts : ReporterOpts) : string :=
  match ro_show_durations opts with
  | None => ""
  | Some n =>
      slowest_section "tests" (λ e, duration_cell (te_duration_ms e) +:+ te_node_id e) (slowest s n) (ro_use_color opts)
      +:+ slowest_section "fixtures" (λ e, duration_cell (fixture_total e) +:+ fte_name e +:+ " — " +:+ fixture_detail e)
            (slowest_fixtures s n) (ro_use_color opts)
  end.

Definition cache_entry_line (e : FixtureCacheEntry) : string :=
  let total := fce_hits e + fce_misses e in
  println ("    " +:+ pad_field 14 (fce_name e) +:+ " " +:+ pretty (fce_hits e) +:+ "/" +:+ pretty total
    +:+ " (" +:+ pretty (if total =? 0 then 0 else 100 * fce_hits e / total) +:+ "%)").

Definition cache_section (s : RunStats) (opts : ReporterOpts) : string :=
  match fixture_cache s with
  | None => ""
  | Some cache =>
      newline +:+ println (color C_dim (cache_summary cache) (ro_use_color opts))
      +:+ (if detailed (ro_verbosity opts) then
             String.concat "" (map cache_entry_line
               (sort_by (λ a b, Nat.compare (fce_hits b + fce_misses b) (fce_hits a + fce_misses a)) (fcs_breakdown cache)))
           else "")
  end.

Definition print_summary_section (s : RunStats) (opts : ReporterOpts) (collect_errors : list CollectError)
    (interrupted : bool) : string * ExitCode.t :=
  let c := ro_use_color opts in
  let tip_block := fmt_tip_block (tip_lines s) (ro_show_tips opts) c in
  let warn_block := fmt_diagnostics_block (entries s) (ro_show_warnings opts) c in
  (newline +:+ println (fmt_summary s (length collect_errors) c)
   +:+ durations_section s opts +:+ cache_section s opts +:+ tip_block +:+ warn_block
   +:+ (if String.eqb tip_block "" && String.eqb warn_block "" then "" else println (double_rule sep_width c)),
   compute_exit_code s (length collect_errors) interrupted).

Definition fmt_collect_errors (collect_errors : list CollectError) (use_color : bool) : string :=
  match collect_errors with
  | [] => ""
  | _ => newline +:+ println "COLLECTION ERRORS" +:+ println (double_rule sep_width use_color)
         +:+ join (newline +:+ newline) (map show_collect_error collect_errors)
  end.

Definition print_collect_errors (collect_errors : list CollectError) (use_color : bool) : string :=
  let block := fmt_collect_errors collect_errors use_color in
  if String.eqb block "" then "" else println block.

Definition print_strict_suite_section (opts : ReporterOpts) : string :=
  match ro_strict_suite_lines opts with
  | [] => ""
  | l => newline +:+ println ("STRICT " +:+ double_rule (sep_width - 7) (ro_use_color opts))
         +:+ String.concat "" (map (λ line, println ("  " +:+ line)) l)
  end.

Definition print_strict_abort (formatted_lines : list string) (use_color : bool) : string :=
  newline +:+ println "STRICT VIOLATIONS" +:+ println (double_rule sep_width use_color)
  +:+ String.concat "" (map (λ line, println ("  " +:+ line)) formatted_lines)
  +:+ println "strict violations found — aborting (exit 3)".

(** ** Parallel context ([parallel_context.rs]) *)

(** A context keeps the number of a worker and a reference to the shared set; the
    tests it names are those in flight when the line is formatted. *)
Definition context_line (worker_id : nat) (in_flight : list string) (use_color : bool) : string :=
  let concurrent :=
    match in_flight with
    | [] => "(none)"
    | _ =>
        let short_names := map (rsplit_next "::") in_flight in
        let remaining := length short_names - 3 in
        join ", " (take 3 short_names) +:+
        (if 0 <? remaining then " (+" +:+ pretty remaining +:+ " more)" else "")
    end in
  color C_dim ("  worker #" +:+ pretty worker_id +:+ " | concurrent: " +:+ concurrent) use_color.

End Render.

(** * Theorems *)

Lemma println_nonempty s : println s ≠ "".
Proof. unfold println. intros [_ E]%str_app_eq_nil. done. Qed.

Lemma app_nonempty_r a b : b ≠ "" → a +:+ b ≠ "".
Proof. by intros Hb [_ ?]%str_app_eq_nil. Qed.

Lemma lines_of_nonnil p l : lines_of (p :: l) = [] → p = "" ∧ l = [].
Proof. simpl. destruct l; [|done]. by destruct (String.eqb_spec p ""). Qed.

Lemma str_lines_nonnil s : s ≠ "" → str_lines s ≠ [].
Proof.
  intros Hs E. unfold str_lines in E. pose proof (join_split newline s) as Hj.
  destruct (split newline s) as [|p l]; [by subst|]. apply lines_of_nonnil in E as [-> ->]. by subst.
Qed.

Section RenderTheorems.
Context {styling : Styling}.

Lemma render_closing_nonempty message use_color : render_closing message use_color ≠ "".
Proof.
  unfold render_closing. destruct (String.eqb_spec message "") as [|Hm]; [apply println_nonempty|].
  pose proof (str_lines_nonnil _ Hm). destruct (str_lines message) as [|a l]; [done|].
  intros [E _]%str_app_eq_nil. by apply println_nonempty in E.
Qed.

(** A block is printed for every failure that has one to show, however little is
    known of it: exactly for failed, errored and timed-out tests, unless the
    traceback style asks for none. *)
Theorem block_shown_for_each_failure changes item o t show_locals use_color :
  fmt_diagnostic_block changes item o t show_locals use_color ≠ "" ↔
  t = Detail ∧ TestOutcome.kind o ∈ [OutcomeKind.Failed; OutcomeKind.Error; OutcomeKind.Timeout].
Proof.
  unfold fmt_diagnostic_block. destruct t; [|set_solver..].
  destruct o; cbn [TestOutcome.diagnostic TestOutcome.kind]; split; try done;
    try (intros [_ H]; set_solver); intros _; try (split; [done|set_solver]);
    try apply render_closing_nonempty; repeat apply app_nonempty_r; apply render_closing_nonempty.
Qed.
End RenderTheorems.

(** ** Diagnostics *)

Lemma count_key_severity s k l :
  severity_count s (count_key k l) = severity_count s l + (if bool_decide (k.1.1 = s) then 1 else 0).
Proof.
  unfold severity_count. induction l as [|[k' n] l IH]; cbn [count_key].
  - cbn [List.filter fst snd]. by destruct (bool_decide _).
  - destruct (bool_decide (k' = k)) eqn:Ek; cbn [List.filter fst snd].
    + apply bool_decide_eq_true in Ek as ->. destruct (bool_decide (k.1.1 = s)); simpl; lia.
    + destruct (bool_decide (k'.1.1 = s)); simpl; lia.
Qed.

Lemma count_key_in k l k' : k' ∈ map fst (count_key k l) ↔ k' = k ∨ k' ∈ map fst l.
Proof.
  induction l as [|[k0 n0] l IH]; cbn [count_key]; [set_solver|].
  destruct (bool_decide (k0 = k)) eqn:Ek; cbn [map fst]; [|set_solver].
  apply bool_decide_eq_true in Ek as ->. set_solver.
Qed.

Lemma count_key_NoDup k l : NoDup (map fst l) → NoDup (map fst (count_key k l)).
Proof.
  induction l as [|[k0 n0] l IH]; cbn [count_key map fst]; [intros _; apply NoDup_singleton|].
  intros [Hk0 Hnd]%NoDup_cons. destruct (bool_decide (k0 = k)) eqn:Ek; cbn [map fst]; apply NoDup_cons; [done|].
  apply bool_decide_eq_false in Ek. split; [|by apply IH]. rewrite count_key_in. naive_solver.
Qed.

(** The number a key has, 0 when it is not there. *)
Definition key_count (k : diag_key) (l : list (diag_key * nat)) : nat :=
  sum_list (map snd (List.filter (λ p, bool_decide (p.1 = k)) l)).

Lemma count_key_count k l k' :
  key_count k' (count_key k l) = key_count k' l + (if bool_decide (k = k') then 1 else 0).
Proof.
  unfold key_count. induction l as [|[k0 n] l IH]; cbn [count_key].
  - cbn [List.filter fst snd]. by destruct (bool_decide _).
  - destruct (bool_decide (k0 = k)) eqn:Ek; cbn [List.filter fst snd].
    + apply bool_decide_eq_true in Ek as ->. destruct (bool_decide (k = k')); simpl; lia.
    + destruct (bool_decide (k0 = k')); simpl; lia.
Qed.

Lemma key_count_elem k n l : NoDup (map fst l) → (k, n) ∈ l → key_count k l = n.
Proof.
  unfold key_count. induction l as [|[k0 n0] l IH]; [set_solver|]. cbn [map fst]. intros [Hk0 Hnd]%NoDup_cons.
  intros [[= -> ->]|Hin]%elem_of_cons; cbn [List.filter fst].
  - rewrite bool_decide_true by done. cbn [map snd sum_list]. rewrite filter_none; [simpl; lia|].
    intros [k' n'] Hin'. apply bool_decide_eq_false. simpl. intros ->. apply Hk0, map_elem. by exists (k0, n').
  - rewrite bool_decide_false; [by apply IH|]. intros ->. apply Hk0, map_elem. by exists (k, n).
Qed.

(** What the fold knows after the entries [done]. *)
Record counted (done : list DiagnosticEntry) (l : list (diag_key * nat)) : Prop := {
  ct_nodup : NoDup (map fst l);
  ct_pos k n : (k, n) ∈ l → 0 < n;
  ct_keys k : k ∈ map fst l ↔ k ∈ map key_of done;
  ct_count k : key_count k l = length (List.filter (λ e, bool_decide (key_of e = k)) done);
  ct_severity s : severity_count s l = length (List.filter (λ e, bool_decide (de_severity e = s)) done)
}.

Lemma count_key_pos k l : (∀ k' n, (k', n) ∈ l → 0 < n) → ∀ k' n, (k', n) ∈ count_key k l → 0 < n.
Proof.
  intros Hl. induction l as [|[k0 n0] l IH]; intros k' n; cbn [count_key].
  - intros [= _ ->]%list_elem_of_singleton. lia.
  - pose proof (Hl k0 n0 ltac:(set_solver)). destruct (bool_decide (k0 = k)).
    + intros [[= _ ->]|Hin]%elem_of_cons; [lia|]. apply (Hl k'). set_solver.
    + intros [[= _ ->]|Hin]%elem_of_cons; [lia|]. apply (IH ltac:(set_solver) k' n Hin).
Qed.

Lemma counted_step done l e : counted done l → counted (done ++ [e]) (count_key (key_of e) l).
Proof.
  intros [H1 H2 H3 H4 H5]. split.
  - by apply count_key_NoDup.
  - by apply count_key_pos.
  - intros k. rewrite count_key_in, H3, map_app. set_solver.
  - intros k. rewrite count_key_count, H4, filter_snoc_length. done.
  - intros s. rewrite count_key_severity, H5, filter_snoc_length. done.
Qed.

Lemma dedup_counted entries : counted entries (dedup_entries entries).
Proof.
  assert (∀ es before l, counted before l →
    counted (before ++ es) (fold_left (λ l e, count_key (key_of e) l) es l)) as Hfold.
  { intros es. induction es as [|e es IH]; intros before l H; simpl; [by rewrite app_nil_r|].
    change (e :: es) with ([e] ++ es). rewrite (assoc_L (++)). apply IH. by apply counted_step. }
  apply (Hfold entries [] []). split; [constructor|set_solver..|done|done].
Qed.

#[export] Instance severity_laws :
  CmpLaws (λ a b : diag_key * nat, Nat.compare (severity_order a.1.1.1) (severity_order b.1.1.1)) (λ _, True).
Proof.
  split; [intros; apply Nat.compare_antisym|]. intros x y z _ _ _. rewrite !Nat.compare_le_iff. lia.
Qed.

(** Folding the diagnostics of a run loses none and invents none: the collapsed
    line counts exactly the entries of each severity; the expanded list has one
    box per distinct diagnostic, with the number of times it was recorded, errors
    before warnings before notices. *)
Theorem diagnostics_folded_exactly entries :
  (∀ s, severity_count s (dedup_entries entries) = length (List.filter (λ e, bool_decide (de_severity e = s)) entries)) ∧
  NoDup (map fst (by_severity (dedup_entries entries))) ∧
  (∀ k n, (k, n) ∈ by_severity (dedup_entries entries) ↔
     0 < n ∧ n = length (List.filter (λ e, bool_decide (key_of e = k)) entries)) ∧
  StronglySorted (λ a b : diag_key * nat, severity_order a.1.1.1 ≤ severity_order b.1.1.1)
    (by_severity (dedup_entries entries)).
Proof.
  destruct (dedup_counted entries) as [H1 H2 H3 H4 H5]. unfold by_severity. split_and!.
  - exact H5.
  - by rewrite sort_by_perm.
  - intros k n. rewrite sort_by_elem. split.
    + intros Hin. split; [by apply (H2 k)|]. rewrite <-H4. symmetry. by apply key_count_elem.
    + intros [Hpos Hn]. assert (k ∈ map key_of entries) as Hk.
      { destruct (List.filter _ entries) as [|e l] eqn:E; simpl in Hn; [lia|].
        assert (e ∈ List.filter (λ e, bool_decide (key_of e = k)) entries) as [He Hk]%filter_elem
          by (rewrite E; set_solver). apply map_elem. exists e. by apply bool_decide_eq_true in Hk. }
      apply H3, map_elem in Hk as ([k' m] & Hin & <-). simpl. rewrite <-H4, (key_count_elem _ m) in Hn by done.
      by subst.
  - eapply strongly_sorted_impl; [|apply (sort_by_sorted _ (λ _, True)); by apply Forall_true].
    intros a b. unfold cmp_le. by rewrite Nat.compare_le_iff.
Qed.

(** ** Slowest entries *)

Section Slowest.
Context (sort_unstable : ∀ A : Type, (A → A → comparison) → list A → list A).
(** What the library documents: a permutation, in order when the comparison
    orders the elements. *)
Context (unstable_perm : ∀ A cmp l, sort_unstable A cmp l ≡ₚ l).
Context (unstable_sorted : ∀ A cmp (l : list A), CmpLaws cmp (λ x, x ∈ l) → StronglySorted (cmp_le cmp) (sort_unstable A cmp l)).

Lemma slower_laws {A} (key : A → f64) (l : list A) :
  (∀ x, x ∈ l → is_nan (key x) = false) → CmpLaws (λ a b, cmp_or_equal (key b) (key a)) (λ x, x ∈ l).
Proof.
  intros Hn. split; [intros; by apply cmp_or_equal_opp; apply Hn|].
  intros x y z Hx Hy Hz Hxy Hyz. by apply (cmp_or_equal_trans _ (key y)); auto.
Qed.

(** [--durations n] shows as many entries as there are, at most [n], from the
    slowest down, and every entry left out is at most as slow as every one shown. *)
Theorem slowest_are_shown {A} (key : A → f64) n (items : list A) :
  (∀ x, x ∈ items → is_nan (key x) = false) →
  let top := top_n_by_key sort_unstable key n items in
  length top = Nat.min n (length items) ∧
  StronglySorted (λ a b, cmp_or_equal (key b) (key a) ≠ Gt) top ∧
  ∃ rest, items ≡ₚ top ++ rest ∧ ∀ a b, a ∈ top → b ∈ rest → cmp_or_equal (key b) (key a) ≠ Gt.
Proof.
  intros Hn. unfold top_n_by_key. set (l := sort_unstable A _ items).
  pose proof (unstable_perm A (λ a b, cmp_or_equal (key b) (key a)) items) as Hp. fold l in Hp.
  pose proof (unstable_sorted A _ items (slower_laws key items Hn)) as Hs. fold l in Hs.
  rewrite <-(take_drop n l) in Hs at 1. split_and!.
  - by rewrite length_take, Hp.
  - by apply StronglySorted_app_1_l in Hs.
  - exists (drop n l). split; [by rewrite take_drop|]. intros a b Ha Hb.
    exact (StronglySorted_app_1_elem_of _ _ _ a b Hs Ha Hb).
Qed.
End Slowest.
