(* ===== verification/Terminal.v ===== *)
(** * Terminal: the two console reporters ([reporter/tty.rs], [reporter/ci.rs])

    With the buffer of parametrised cases ([parametrize_buffer.rs]),
    [remove_if_flaky] ([reporter/mod.rs]) and the printing half of
    [standard_finish] ([traits.rs]).  What a reporter has printed is part of its
    state.  A [ParallelContext] shares the set of tests in flight with the
    coordinator: a context holds the location of the set, and the functions that
    format one take the heap at that moment. *)
From stdpp Require Import pretty.
From S2P Require Import Prelude Collections Text F64 Types Scheduler Report Wire Drain Parallel Config Colors Diff Render.

(** ** Parallel contexts *)

Definition location : Type := nat.
Definition heap : Type := location → list string.

Record ParallelContext := mk_context { pc_worker_id : nat; pc_in_flight : location }.

Definition concurrent_tests (h : heap) (ctx : ParallelContext) : list string := h (pc_in_flight ctx).

(** What [test_completed] is called with. *)
Record completion := mk_completion {
  cm_item : TestItem;
  cm_outcome : TestOutcome.t;
  cm_ms : f64;
  cm_ctx : option ParallelContext
}.

Definition is_flaky (o : TestOutcome.t) : bool := match o with TestOutcome.Flaky _ _ => true | _ => false end.

Definition remove_if_flaky {A} (deferred : list A) (o : TestOutcome.t) (item : TestItem)
    (matches_node : A → string → bool) : list A :=
  if is_flaky o then List.filter (λ d, negb (matches_node d (node_id item))) deferred else deferred.

(** ** Parametrised cases *)

Record ParametrizeBuffer := mk_buffer {
  pb_fn_name : string;
  pb_results : list (TestItem * TestOutcome.t * f64);
  pb_total_ms : f64;
  pb_has_failure : bool;
  pb_passed_count : nat
}.

Definition new_buffer (fn : string) : ParametrizeBuffer := mk_buffer fn [] f64_zero false 0.

Definition push_case (b : ParametrizeBuffer) (item : TestItem) (o : TestOutcome.t) (ms : f64) : ParametrizeBuffer :=
  mk_buffer (pb_fn_name b) (pb_results b ++ [(item, o, ms)]) (f64_add (pb_total_ms b) ms)
    (pb_has_failure b || TestOutcome.is_hard_failure o)
    (match o with TestOutcome.Passed _ => S (pb_passed_count b) | _ => pb_passed_count b end).

(** ** Names *)

(** [char_indices], without the characters. *)
Fixpoint offsets_from (o : nat) (l : list N) : list nat :=
  match l with [] => [] | c :: l => o :: offsets_from (o + len_utf8 c) l end.

Definition truncate_name (name : string) (max_width : nat) : string :=
  if String.length name <=? max_width then name
  else
    let cut := max_width - 3 in
    let end_ := default 0 (last (take_while (λ i, i <=? cut) (offsets_from 0 (chars name)))) in
    String.substring 0 end_ name +:+ "...".

Definition fmt_quiet_line (symbol body : string) : string := " " +:+ symbol +:+ "  " +:+ body.

(** [TtyReporter::fmt_line] *)
Definition fmt_label_line (label name trailing : string) : string :=
  " " +:+ label +:+ "  " +:+ name +:+ " " +:+ trailing.

Section Terminal.
Context {styling : Styling} (term_cols : nat) (measure_text_width : string → nat).
Context (changes : string → string → list (ChangeTag * string)).
Context (sort_unstable : ∀ A : Type, (A → A → comparison) → list A → list A).

Definition context_text (h : heap) (ctx : ParallelContext) (use_color : bool) : string :=
  context_line (pc_worker_id ctx) (concurrent_tests h ctx) use_color.

Definition outcome_label (o : TestOutcome.t) (use_color : bool) : string :=
  let text := label o in
  match color_category o with
  | ColPass => ""
  | ColFail => color C_fail text use_color
  | ColError => color C_error_token text use_color
  | ColSkip => color C_skip text use_color
  | ColWarn => color C_warn text use_color
  | ColDim => color C_dim text use_color
  | ColTimeout => color C_timeout text use_color
  end.

(** ** The terminal reporter *)

Definition deferred : Type := TestItem * TestOutcome.t * f64 * option ParallelContext.

(** [tty_printed] has one element per call of [ProgressBar::println]. *)
Record TtyReporter := mk_tty {
  tty_opts : ReporterOpts;
  tty_printed : list string;
  tty_position : nat;
  tty_message : string;
  tty_pending : option ParametrizeBuffer;
  tty_deferred : list deferred;
  tty_running : list string
}.

Definition new_tty (opts : ReporterOpts) : TtyReporter := mk_tty opts [] 0 "" None [] [].

(** What both reporters print when they are made. *)
Definition opening (opts : ReporterOpts) : string :=
  print_collected (ro_total opts) (ro_fn_count opts) (ro_async_count opts) (ro_rootdir opts).

Definition tty_println (r : TtyReporter) (l : list string) : TtyReporter :=
  mk_tty (tty_opts r) (tty_printed r ++ l) (tty_position r) (tty_message r) (tty_pending r) (tty_deferred r) (tty_running r).

Definition tty_set_pending (r : TtyReporter) (p : option ParametrizeBuffer) : TtyReporter :=
  mk_tty (tty_opts r) (tty_printed r) (tty_position r) (tty_message r) p (tty_deferred r) (tty_running r).

Definition tty_set_deferred (r : TtyReporter) (d : list deferred) : TtyReporter :=
  mk_tty (tty_opts r) (tty_printed r) (tty_position r) (tty_message r) (tty_pending r) d (tty_running r).

Definition tty_set_running (r : TtyReporter) (l : list string) : TtyReporter :=
  mk_tty (tty_opts r) (tty_printed r) (tty_position r) (tty_message r) (tty_pending r) (tty_deferred r) l.

Definition ms1 (x : f64) : string := fmt_fixed 1 x +:+ "ms".

(** The kinds of warning in a reason: what stands before the first colon of each
    line, neighbours that are equal once. *)
Definition warning_types (reason : string) : list string :=
  dedup String.eqb (omap (λ line, match split_once ":" line with Some (t, _) => Some (trim t) | None => None end)
    (split newline reason)).

Definition format_test_line (opts : ReporterOpts) (item : TestItem) (o : TestOutcome.t) (duration_ms : f64) : string :=
  let c := ro_use_color opts in
  let ms := color C_dim (ms1 duration_ms) c in
  let param_suffix := match param_id item with Some pid => "[ " +:+ color C_bold_white pid c +:+ " ]" | None => "" end in
  let w := ro_name_width opts in
  let name_part := truncate_name (fn_name item) w in
  let quiet symbol := fmt_quiet_line symbol (color C_dim (pad_field w name_part +:+ " " +:+ ms1 duration_ms) c) in
  let named := pad_to measure_text_width (name_part +:+ param_suffix) w in
  match o with
  | TestOutcome.Passed None => quiet (color C_dim_green "✓    " c)
  | TestOutcome.Passed (Some _) => quiet (color C_dim "·    " c)
  | TestOutcome.Skipped reason | TestOutcome.XFailed reason =>
      fmt_label_line (outcome_label o c) named (color C_dim reason c)
  | TestOutcome.Warned reason _ =>
      fmt_label_line (outcome_label o c) named
        (ms +:+ match warning_types reason with [] => "" | types => "  " +:+ color C_warn (join ", " types) c end)
  | _ => fmt_label_line (outcome_label o c)
           (pad_to measure_text_width (color C_cyan name_part c +:+ param_suffix) w) ms
  end.

Definition running_message (running : list string) : string :=
  if length running <=? 3 then join ", " running
  else join ", " (take 3 running) +:+ ", +" +:+ pretty (length running - 3) +:+ " more".

Definition update_running_message (r : TtyReporter) : TtyReporter :=
  mk_tty (tty_opts r) (tty_printed r) (tty_position r) (running_message (tty_running r)) (tty_pending r)
    (tty_deferred r) (tty_running r).

(** [diag.trim_end()], when there is a block. *)
Definition trim_end (s : string) : string := of_chars (rev (drop_while is_whitespace (rev (chars s)))).

Definition block_lines (opts : ReporterOpts) (item : TestItem) (o : TestOutcome.t) : list string :=
  let diag := fmt_diagnostic_block changes item o (ro_tb opts) (ro_show_locals opts) (ro_use_color opts) in
  if String.eqb diag "" then [] else [trim_end diag].

Definition silent_case (o : TestOutcome.t) : bool :=
  match o with TestOutcome.Passed _ | TestOutcome.Skipped _ => true | _ => false end.

Definition flush_param_group (r : TtyReporter) (group : ParametrizeBuffer) : TtyReporter :=
  let opts := tty_opts r in
  let c := ro_use_color opts in
  let w := ro_name_width opts in
  if pb_has_failure group then
    let passed := pb_passed_count group in
    let failed := length (pb_results group) - passed in
    let line := fmt_label_line (color C_fail "FAIL " c)
                  (pad_to measure_text_width (truncate_name (pb_fn_name group) w) w)
                  (pretty passed +:+ " passed  " +:+ pretty failed +:+ " failed   "
                   +:+ color C_dim (ms1 (pb_total_ms group)) c) in
    tty_println r (line :: flat_map (λ '(item, o, _),
      if silent_case o then []
      else "" :: ("       " +:+ color C_dim (pb_fn_name group) c +:+ "[ " +:+ default "" (param_id item) +:+ " ]")
              :: block_lines opts item o) (pb_results group))
  else
    let count := length (pb_results group) in
    tty_println r [fmt_quiet_line (color C_dim_green "✓    " c)
      (color C_dim (pad_field w (truncate_name (pb_fn_name group) w) +:+ " " +:+ ms1 (pb_total_ms group)
        +:+ "  (" +:+ pretty count +:+ " case" +:+ plural_s count +:+ ")") c)].

Definition hard_cases (results : list (TestItem * TestOutcome.t * f64)) : list deferred :=
  omap (λ '(item, o, ms), if TestOutcome.is_hard_failure o then Some (item, o, ms, None) else None) results.

Definition dispatch_param_group (r : TtyReporter) (group : ParametrizeBuffer) : TtyReporter :=
  if detailed (ro_verbosity (tty_opts r)) then flush_param_group r group
  else tty_set_deferred r (tty_deferred r ++ hard_cases (pb_results group)).

(** [pending_group.take()] followed by [f]. *)
Definition take_pending (f : TtyReporter → ParametrizeBuffer → TtyReporter) (r : TtyReporter) : TtyReporter :=
  match tty_pending r with
  | Some group => f (tty_set_pending r None) group
  | None => r
  end.

Definition tty_test_started (r : TtyReporter) (item : TestItem) : TtyReporter :=
  update_running_message (tty_set_running r (tty_running r ++ [fn_name item])).

(** [Vec::remove] at the first position of a name. *)
Fixpoint remove_first (x : string) (l : list string) : list string :=
  match l with [] => [] | y :: l => if String.eqb y x then l else y :: remove_first x l end.

Definition tty_test_completed (r : TtyReporter) (e : completion) : TtyReporter :=
  let '(mk_completion item o ms ctx) := e in
  let r := tty_set_running r (remove_first (fn_name item) (tty_running r)) in
  let r := tty_set_deferred r (remove_if_flaky (tty_deferred r) o item
             (λ '(i, _, _, _) target, String.eqb (node_id i) target)) in
  let is_parametrized := match param_id item with Some _ => true | None => false end in
  let is_verbose := detailed (ro_verbosity (tty_opts r)) in
  let r :=
    if is_parametrized && negb is_verbose then
      let r := match tty_pending r with
               | Some group => if String.eqb (pb_fn_name group) (fn_name item) then r
                               else dispatch_param_group (tty_set_pending r None) group
               | None => r
               end in
      let group := default (new_buffer (fn_name item)) (tty_pending r) in
      tty_set_pending r (Some (push_case group item o ms))
    else if is_verbose then
      let r := take_pending flush_param_group r in
      tty_println r (format_test_line (tty_opts r) item o ms :: block_lines (tty_opts r) item o)
    else
      let r := take_pending dispatch_param_group r in
      if TestOutcome.is_hard_failure o then tty_set_deferred r (tty_deferred r ++ [(item, o, ms, ctx)]) else r in
  update_running_message
    (mk_tty (tty_opts r) (tty_printed r) (S (tty_position r)) (tty_message r) (tty_pending r) (tty_deferred r) (tty_running r)).

Definition deferred_lines (h : heap) (opts : ReporterOpts) (d : deferred) : list string :=
  let '(item, o, ms, ctx) := d in
  format_test_line opts item o ms
  :: match ctx with Some ctx => [context_text h ctx (ro_use_color opts)] | None => [] end
  ++ block_lines opts item o.

Definition tty_pre_finish (h : heap) (r : TtyReporter) : TtyReporter :=
  let r := take_pending dispatch_param_group r in
  let lines := flat_map (deferred_lines h (tty_opts r)) (tty_deferred r) in
  tty_println (tty_set_deferred r []) lines.

(** [standard_finish] after [pre_finish]: what goes to standard output, and the vote. *)
Definition finish_text (opts : ReporterOpts) (collect_errors : list CollectError) (interrupted : bool)
    (session : ReporterSession) : string * ExitVote :=
  let '(text, code) := print_summary_section term_cols sort_unstable (stats session) opts collect_errors interrupted in
  (print_collect_errors term_cols collect_errors (ro_use_color opts) +:+ text, Code code).

Definition tty_finish (h : heap) (r : TtyReporter) (collect_errors : list CollectError) (interrupted : bool)
    (session : ReporterSession) : TtyReporter * string * ExitVote :=
  let r := tty_pre_finish h r in
  let '(text, vote) := finish_text (tty_opts r) collect_errors interrupted session in
  (r, print_strict_suite_section term_cols (tty_opts r) +:+ text, vote).

(** ** The reporter of continuous integration *)

Record CiReporter := mk_ci { ci_opts : ReporterOpts; ci_deferred : list string; ci_dots : list N }.

Definition new_ci (opts : ReporterOpts) : CiReporter := mk_ci opts [] [].

(** The line of [--tb=line]; other outcomes have none. *)
Definition one_liner (h : heap) (opts : ReporterOpts) (item : TestItem) (o : TestOutcome.t)
    (ctx : option ParallelContext) : option string :=
  let line label message n :=
    pad_field 7 label +:+ " " +:+ node_id item +:+ "   :" +:+ pretty (n : nat) +:+ "   " +:+ message
    +:+ match ctx with Some ctx => "  " +:+ trim (context_text h ctx (ro_use_color opts)) | None => "" end in
  match o with
  | TestOutcome.Failed d => Some (line "FAILED" (diag_message d) (diag_lineno d))
  | TestOutcome.Error d => Some (line "ERROR" (diag_message d) (diag_lineno d))
  | TestOutcome.Timeout message => Some (line "TIMEOUT" message 0)
  | _ => None
  end.

Definition ci_header (opts : ReporterOpts) (item : TestItem) (o : TestOutcome.t) : string :=
  let c := ro_use_color opts in
  let failed := match o with TestOutcome.Failed _ => true | _ => false end in
  match param_id item with
  | Some pid => color (if failed then C_fail else C_error_token) pid c +:+ case_sep c +:+ color C_dim (fn_name item) c
  | None => if failed then color C_fail ("FAILED  " +:+ node_id item) c
            else color C_error_token ("ERROR   " +:+ node_id item) c
  end.

(** The entry [push_deferred_diag] adds, if any. *)
Definition ci_entry (h : heap) (opts : ReporterOpts) (item : TestItem) (o : TestOutcome.t)
    (ctx : option ParallelContext) : option string :=
  match ro_tb opts with
  | Line => one_liner h opts item o ctx
  | _ =>
      let diag := fmt_diagnostic_block changes item o (ro_tb opts) (ro_show_locals opts) (ro_use_color opts) in
      if String.eqb diag "" then None
      else Some (ci_header opts item o +:+ newline +:+ diag +:+
             match ctx with Some ctx => newline +:+ context_text h ctx (ro_use_color opts) | None => "" end)
  end.

Definition push_deferred_diag (h : heap) (r : CiReporter) (e : completion) : CiReporter :=
  match ci_entry h (ci_opts r) (cm_item e) (cm_outcome e) (cm_ctx e) with
  | Some entry => mk_ci (ci_opts r) (ci_deferred r ++ [entry]) (ci_dots r)
  | None => r
  end.

Definition ci_test_completed (h : heap) (r : CiReporter) (e : completion) : CiReporter :=
  let r := mk_ci (ci_opts r) (ci_deferred r) (ci_dots r ++ [dot_char (cm_outcome e)]) in
  match cm_outcome e with
  | TestOutcome.Failed _ | TestOutcome.Error _ | TestOutcome.Timeout _ => push_deferred_diag h r e
  | TestOutcome.Flaky _ _ =>
      mk_ci (ci_opts r) (remove_if_flaky (ci_deferred r) (cm_outcome e) (cm_item e) (λ d target, contains target d))
        (ci_dots r)
  | _ => r
  end.

Definition ci_pre_finish (r : CiReporter) : string :=
  (match ci_dots r with [] => "" | dots => println (of_chars dots) end)
  +:+ (match ci_deferred r with
       | [] => ""
       | entries => newline +:+ println ("FAILURES " +:+ double_rule (sep_width term_cols - 8) (ro_use_color (ci_opts r)))
                    +:+ String.concat "" (map println entries)
       end)
  +:+ print_strict_suite_section term_cols (ci_opts r).

Definition ci_finish (r : CiReporter) (collect_errors : list CollectError) (interrupted : bool)
    (session : ReporterSession) : string * ExitVote :=
  let '(text, vote) := finish_text (ci_opts r) collect_errors interrupted session in
  (ci_pre_finish r +:+ text, vote).

End Terminal.

(** * Theorems *)

Section TerminalTheorems.
Context {styling : Styling} (term_cols : nat) (measure_text_width : string → nat).
Context (changes : string → string → list (ChangeTag * string)).
Context (sort_unstable : ∀ A : Type, (A → A → comparison) → list A → list A).

Abbreviation tty_test_completed := (tty_test_completed measure_text_width changes).
Abbreviation tty_pre_finish := (tty_pre_finish measure_text_width changes).
Abbreviation dispatch_param_group := (dispatch_param_group measure_text_width changes).

(** Whatever was printed, the two reporters cast the vote the exit code is
    computed from. *)
Lemma console_votes h tty ci collect_errors interrupted session :
  (tty_finish term_cols measure_text_width changes sort_unstable h tty collect_errors interrupted session).2 =
    standard_finish collect_errors interrupted session ∧
  (ci_finish term_cols sort_unstable ci collect_errors interrupted session).2 =
    standard_finish collect_errors interrupted session.
Proof. done. Qed.

(** ** The terminal reporter, without [-v] *)

Definition tty_run (opts : ReporterOpts) (events : list completion) : TtyReporter :=
  fold_left tty_test_completed events (new_tty opts).

(** What is deferred for a hard failure: a parametrised case loses its context. *)
Definition deferred_of (e : completion) : deferred :=
  (cm_item e, cm_outcome e, cm_ms e, match param_id (cm_item e) with Some _ => None | None => cm_ctx e end).

Definition hard_event (e : completion) : bool := TestOutcome.is_hard_failure (cm_outcome e).

(** What [pre_finish] will list: the deferred failures, then those of the group
    that is still open. *)
Definition listed (r : TtyReporter) : list deferred :=
  tty_deferred r ++ match tty_pending r with Some g => hard_cases (pb_results g) | None => [] end.

(** A flaky test takes its failure off the deferred list, not out of the open group. *)
Definition unflaked (e : completion) (l : list deferred) : list deferred :=
  remove_if_flaky l (cm_outcome e) (cm_item e) (λ '(i, _, _, _) target, String.eqb (node_id i) target).

Lemma hard_cases_app l l' : hard_cases (l ++ l') = hard_cases l ++ hard_cases l'.
Proof. apply omap_app. Qed.

Lemma flush_opts r g : tty_opts (flush_param_group measure_text_width changes r g) = tty_opts r.
Proof. unfold flush_param_group. by destruct (pb_has_failure g). Qed.

Lemma dispatch_opts r g : tty_opts (dispatch_param_group r g) = tty_opts r.
Proof. unfold Terminal.dispatch_param_group. destruct (detailed _); [apply flush_opts|done]. Qed.

Lemma take_pending_opts f r : (∀ r g, tty_opts (f r g) = tty_opts r) → tty_opts (take_pending f r) = tty_opts r.
Proof. intros Hf. unfold take_pending. destruct (tty_pending r); [by rewrite Hf|done]. Qed.

Lemma completed_opts r e : tty_opts (tty_test_completed r e) = tty_opts r.
Proof.
  destruct e as [item o ms ctx]. unfold Terminal.tty_test_completed. cbv zeta.
  cbn [tty_opts update_running_message]. set (r0 := tty_set_deferred _ _).
  assert (tty_opts r0 = tty_opts r) as <- by done. generalize r0. clear. intros r.
  destruct (_ && _); [|destruct (detailed _)].
  - cbn [tty_opts tty_set_pending]. destruct (tty_pending r); [|done]. destruct (String.eqb _ _); [done|].
    by rewrite dispatch_opts.
  - cbn [tty_opts tty_println]. apply take_pending_opts, flush_opts.
  - destruct (TestOutcome.is_hard_failure o); cbn [tty_opts tty_set_deferred]; apply take_pending_opts, dispatch_opts.
Qed.

Lemma run_opts_kept opts events : tty_opts (tty_run opts events) = opts.
Proof.
  unfold tty_run. apply (fold_left_inv (λ r, tty_opts r = opts)); [done|].
  intros r e Hr. by rewrite completed_opts.
Qed.

Lemma completed_listed r e :
  detailed (ro_verbosity (tty_opts r)) = false →
  listed (tty_test_completed r e) =
    unflaked e (tty_deferred r) ++ match tty_pending r with Some g => hard_cases (pb_results g) | None => [] end
    ++ (if hard_event e then [deferred_of e] else []).
Proof.
  destruct r as [opts p n m pending d run_], e as [item o ms ctx]. simpl. intros Hv.
  unfold Terminal.tty_test_completed, take_pending, Terminal.dispatch_param_group, listed, unflaked, hard_event, deferred_of.
  simpl. rewrite Hv. simpl. destruct (param_id item) eqn:Ep; simpl.
  - destruct pending as [g|]; simpl.
    + destruct (String.eqb _ _); simpl; rewrite ?Hv; simpl; rewrite ?hard_cases_app; simpl.
      * destruct (TestOutcome.is_hard_failure o); simpl; by rewrite ?app_nil_r.
      * destruct (TestOutcome.is_hard_failure o); simpl; by rewrite <-?(assoc_L (++)).
    + by destruct (TestOutcome.is_hard_failure o).
  - destruct pending as [g|]; simpl; rewrite ?Hv; simpl;
      destruct (TestOutcome.is_hard_failure o); simpl; by rewrite ?app_nil_r, <-?(assoc_L (++)).
Qed.

Lemma unflaked_sublist e l : unflaked e l `sublist_of` l.
Proof.
  unfold unflaked, remove_if_flaky. destruct (is_flaky _); [|done].
  induction l as [|d l IH]; [done|]. cbn [List.filter]. destruct (negb _); by constructor.
Qed.

Lemma unflaked_keeps e d l :
  d ∈ l → (is_flaky (cm_outcome e) = true → node_id (cm_item e) ≠ node_id d.1.1.1) → d ∈ unflaked e l.
Proof.
  intros Hd Hne. unfold unflaked, remove_if_flaky. destruct (is_flaky _) eqn:Ef; [|done].
  apply filter_elem. split; [done|]. destruct d as [[[i o] ms] ctx]. apply negb_true_iff, String.eqb_neq.
  intros E. by apply (Hne eq_refl).
Qed.

Lemma run_snoc opts events e : tty_run opts (events ++ [e]) = tty_test_completed (tty_run opts events) e.
Proof. unfold tty_run. by rewrite fold_left_app. Qed.

Section Quiet.
Context (opts : ReporterOpts) (quiet : detailed (ro_verbosity opts) = false).

Lemma listed_snoc events e :
  listed (tty_run opts (events ++ [e])) =
    unflaked e (tty_deferred (tty_run opts events))
    ++ match tty_pending (tty_run opts events) with Some g => hard_cases (pb_results g) | None => [] end
    ++ (if hard_event e then [deferred_of e] else []).
Proof. rewrite run_snoc. apply completed_listed. by rewrite run_opts_kept. Qed.

Lemma listed_sublist events : listed (tty_run opts events) `sublist_of` map deferred_of (List.filter hard_event events).
Proof.
  induction events as [|e events IH] using rev_ind; [done|].
  rewrite listed_snoc, List.filter_app, map_app, (assoc_L (++)). apply sublist_app.
  - etrans; [|exact IH]. apply sublist_app; [apply unflaked_sublist|done].
  - cbn [List.filter]. by destruct (hard_event e).
Qed.

Lemma listed_keeps events e d :
  d ∈ listed (tty_run opts events) →
  (is_flaky (cm_outcome e) = true → node_id (cm_item e) ≠ node_id d.1.1.1) →
  d ∈ listed (tty_run opts (events ++ [e])).
Proof.
  intros Hd Hne. rewrite listed_snoc. unfold listed in Hd. rewrite elem_of_app in Hd.
  rewrite !elem_of_app. destruct Hd as [Hd|Hd]; [left; by apply unflaked_keeps|by right; left].
Qed.

Lemma pre_finish_lists h r :
  tty_opts r = opts →
  tty_printed (tty_pre_finish h r) =
    tty_printed r ++ flat_map (deferred_lines measure_text_width changes h opts) (listed r).
Proof.
  intros Ho. unfold Terminal.tty_pre_finish, take_pending, listed. destruct (tty_pending r) as [g|].
  - unfold Terminal.dispatch_param_group. cbn [tty_opts tty_set_pending]. rewrite Ho, quiet.
    cbn [tty_printed tty_println tty_set_deferred tty_deferred tty_set_pending tty_opts]. by rewrite Ho.
  - cbn [tty_printed tty_println tty_set_deferred]. by rewrite Ho, app_nil_r.
Qed.

Lemma dispatch_silent r g : tty_opts r = opts → tty_printed (dispatch_param_group r g) = tty_printed r.
Proof. intros Ho. unfold Terminal.dispatch_param_group. by rewrite Ho, quiet. Qed.

Lemma completed_silent r e : tty_opts r = opts → tty_printed (tty_test_completed r e) = tty_printed r.
Proof.
  destruct e as [item o ms ctx]. unfold Terminal.tty_test_completed. cbv zeta.
  cbn [tty_printed update_running_message]. set (r0 := tty_set_deferred _ _).
  assert (tty_printed r0 = tty_printed r) as <- by done. assert (tty_opts r0 = tty_opts r) as <- by done.
  generalize r0. clear r0. intros r0 Ho. rewrite Ho, quiet. destruct (_ && _).
  - cbn [tty_printed tty_set_pending]. destruct (tty_pending r0); [|done]. destruct (String.eqb _ _); [done|].
    by rewrite dispatch_silent.
  - assert (tty_printed (take_pending dispatch_param_group r0) = tty_printed r0) as Hp.
    { unfold take_pending. destruct (tty_pending r0); [by rewrite dispatch_silent|done]. }
    by destruct (TestOutcome.is_hard_failure o).
Qed.

Lemma run_silent events : tty_printed (tty_run opts events) = [].
Proof.
  induction events as [|e events IH] using rev_ind; [done|].
  by rewrite run_snoc, completed_silent by apply run_opts_kept.
Qed.

(** C17: Without [-v] nothing is printed while tests run; at the end the reporter
    prints, in the order of completion, only hard failures, and every one of them
    whose test did not pass on a later retry: grouping the cases of a
    parametrised test neither loses nor reorders a failure. *)
Theorem terminal_lists_standing_failures events h :
  tty_printed (tty_run opts events) = [] ∧
  tty_printed (tty_pre_finish h (tty_run opts events)) =
    flat_map (deferred_lines measure_text_width changes h opts) (listed (tty_run opts events)) ∧
  listed (tty_run opts events) `sublist_of` map deferred_of (List.filter hard_event events) ∧
  (∀ before e after, events = before ++ e :: after → hard_event e = true →
     (∀ e', e' ∈ after → is_flaky (cm_outcome e') = true → node_id (cm_item e') ≠ node_id (cm_item e)) →
     deferred_of e ∈ listed (tty_run opts events)).
Proof.
  split_and!; [apply run_silent| |apply listed_sublist|].
  - by rewrite pre_finish_lists, run_silent by apply run_opts_kept.
  - intros before e after -> He. induction after as [|e' after IH] using rev_ind; intros Ha.
    + rewrite listed_snoc, He, !elem_of_app. right. right. by left.
    + rewrite app_comm_cons, (assoc_L (++)). apply listed_keeps.
      * apply IH. intros e'' Hin. apply Ha. apply elem_of_app. by left.
      * intros Hf. apply (Ha e'); [|done]. apply elem_of_app. right. by left.
Qed.

(** The cases of one function stay in the open group. *)
Lemma completed_case r e :
  tty_opts r = opts → param_id (cm_item e) ≠ None →
  ∃ g, tty_pending (tty_test_completed r e) = Some g ∧
    (pb_fn_name g = fn_name (cm_item e)) ∧ (cm_item e, cm_outcome e, cm_ms e) ∈ pb_results g ∧
    ∀ g0, tty_pending r = Some g0 → pb_fn_name g0 = fn_name (cm_item e) → pb_results g0 ⊆ pb_results g.
Proof.
  intros Ho Hp. destruct r as [opts' p n m pending d run_], e as [item o ms ctx]. simpl in *. subst opts'.
  unfold Terminal.tty_test_completed, Terminal.dispatch_param_group. simpl. rewrite quiet.
  destruct (param_id item) eqn:Ep; [|done]. simpl. destruct pending as [g0|]; simpl.
  - destruct (String.eqb_spec (pb_fn_name g0) (fn_name item)) as [E|Hne]; simpl.
    + eexists. split_and!; [done|done|simpl; set_solver|]. intros ? [= <-] _. simpl. set_solver.
    + eexists. split_and!; [done|done|simpl; set_solver|]. by intros ? [= <-].
  - eexists. split_and!; [done|done|simpl; set_solver|done].
Qed.

Lemma open_group_keeps before e between :
  param_id (cm_item e) ≠ None →
  (∀ e', e' ∈ between → param_id (cm_item e') ≠ None ∧ fn_name (cm_item e') = fn_name (cm_item e)) →
  ∃ g, tty_pending (tty_run opts (before ++ e :: between)) = Some g ∧
    pb_fn_name g = fn_name (cm_item e) ∧ (cm_item e, cm_outcome e, cm_ms e) ∈ pb_results g.
Proof.
  intros Hp. induction between as [|e' between IH] using rev_ind; intros Hb.
  - rewrite run_snoc. destruct (completed_case (tty_run opts before) e) as (g & ? & ? & ? & _);
      [apply run_opts_kept|done|]. by exists g.
  - rewrite app_comm_cons, (assoc_L (++)), run_snoc.
    destruct IH as (g & Hg & Hn & Hin); [intros; apply Hb; set_solver|].
    destruct (Hb e' ltac:(set_solver)) as [Hp' Hn'].
    destruct (completed_case (tty_run opts (before ++ e :: between)) e') as (g' & ? & ? & _ & Hsub);
      [apply run_opts_kept|done|]. exists g'. split_and!; [done|congruence|]. apply (Hsub g); [done|congruence|done].
Qed.

(** A case of a parametrised test that fails and passes on retry is listed as a
    failure all the same when no other function completed in between: its failure
    is still in the open group, which retries do not prune. *)
Theorem flaky_case_of_open_group_is_listed before e between retry_ :
  hard_event e = true → param_id (cm_item e) ≠ None →
  (∀ e', e' ∈ between → param_id (cm_item e') ≠ None ∧ fn_name (cm_item e') = fn_name (cm_item e)) →
  cm_item retry_ = cm_item e → is_flaky (cm_outcome retry_) = true →
  deferred_of e ∈ listed (tty_run opts (before ++ e :: between ++ [retry_])).
Proof.
  intros He Hp Hb _ _. destruct (open_group_keeps before e between Hp Hb) as (g & Hg & _ & Hin).
  rewrite app_comm_cons, (assoc_L (++)), listed_snoc, Hg, !elem_of_app. right. left.
  unfold hard_cases. apply list_elem_of_omap. eexists. split; [exact Hin|]. unfold hard_event in He.
  simpl. rewrite He. unfold deferred_of. by destruct (param_id (cm_item e)).
Qed.
End Quiet.

(** ** The terminal reporter, with [-v] *)

Section Verbose.
Context (opts : ReporterOpts) (verbose : detailed (ro_verbosity opts) = true).

(** What is printed for a completed test. *)
Definition verbose_lines (e : completion) : list string :=
  format_test_line measure_text_width opts (cm_item e) (cm_outcome e) (cm_ms e)
  :: block_lines changes opts (cm_item e) (cm_outcome e).

Record verbose_inv (r : TtyReporter) : Prop := {
  vi_opts : tty_opts r = opts;
  vi_pending : tty_pending r = None;
  vi_deferred : tty_deferred r = []
}.

Lemma completed_verbose r e :
  verbose_inv r →
  verbose_inv (tty_test_completed r e) ∧ tty_printed (tty_test_completed r e) = tty_printed r ++ verbose_lines e.
Proof.
  intros [Ho Hp Hd]. split; [split; [by rewrite completed_opts|..]|]; destruct e as [item o ms ctx];
    unfold Terminal.tty_test_completed; cbv zeta;
    cbn [tty_pending tty_deferred tty_printed update_running_message tty_opts tty_set_deferred tty_set_running];
    rewrite Ho, verbose, andb_false_r;
    unfold take_pending; cbn [tty_pending tty_set_deferred tty_set_running]; rewrite Hp; try done.
  - cbn [tty_deferred tty_println tty_set_deferred tty_set_running]. rewrite Hd. unfold remove_if_flaky.
    by destruct (is_flaky o).
  - cbn [tty_printed tty_println tty_set_deferred tty_set_running tty_opts]. by rewrite Ho.
Qed.

(** With [-v] every completed test is printed at once, in order and once, with its
    block; no group is ever open, so the combined line of a parametrised test is
    never printed, and nothing is left for the end. *)
Theorem verbose_prints_each_test events h :
  tty_printed (tty_run opts events) = flat_map verbose_lines events ∧
  tty_pending (tty_run opts events) = None ∧
  tty_printed (tty_pre_finish h (tty_run opts events)) = tty_printed (tty_run opts events).
Proof.
  assert (verbose_inv (tty_run opts events) ∧ tty_printed (tty_run opts events) = flat_map verbose_lines events)
    as [[Ho Hp Hd] Hl].
  { induction events as [|e events [IH1 IH2]] using rev_ind; [by split|].
    rewrite run_snoc, flat_map_app. destruct (completed_verbose _ e IH1) as [? ->]. split; [done|].
    rewrite IH2. simpl. by rewrite app_nil_r. }
  split_and!; [done|done|]. unfold Terminal.tty_pre_finish, take_pending. rewrite Hp.
  cbn [tty_printed tty_println tty_set_deferred]. by rewrite Hd, app_nil_r.
Qed.
End Verbose.

(** ** The reporter of continuous integration *)

Abbreviation ci_test_completed := (ci_test_completed changes).

(** Each test completes with the heap of that moment. *)
Definition ci_run (opts : ReporterOpts) (events : list (heap * completion)) : CiReporter :=
  fold_left (λ r '(h, e), ci_test_completed h r e) events (new_ci opts).

(** The entry of a completed test. *)
Definition ci_entry_of (opts : ReporterOpts) (p : heap * completion) : option string :=
  match cm_outcome p.2 with
  | TestOutcome.Failed _ | TestOutcome.Error _ | TestOutcome.Timeout _ =>
      ci_entry changes p.1 opts (cm_item p.2) (cm_outcome p.2) (cm_ctx p.2)
  | _ => None
  end.

(** A flaky test takes away an entry in which its id occurs. *)
Definition takes_away (entry : string) (p : heap * completion) : bool :=
  is_flaky (cm_outcome p.2) && contains (node_id (cm_item p.2)) entry.

Fixpoint survivors (opts : ReporterOpts) (events : list (heap * completion)) : list string :=
  match events with
  | [] => []
  | p :: rest =>
      match ci_entry_of opts p with
      | Some entry => if existsb (takes_away entry) rest then [] else [entry]
      | None => []
      end ++ survivors opts rest
  end.

Lemma ci_completed_spec opts l dots h e :
  ci_test_completed h (mk_ci opts l dots) e =
    mk_ci opts (List.filter (λ d, negb (takes_away d (h, e))) l
                ++ match ci_entry_of opts (h, e) with Some entry => [entry] | None => [] end)
      (dots ++ [dot_char (cm_outcome e)]).
Proof.
  assert (∀ b : string → bool, (∀ d, b d = false) → List.filter (λ d, negb (b d)) l = l) as Hkeep
    by (intros b Hb; apply filter_all; intros d _; by rewrite Hb).
  unfold Terminal.ci_test_completed, ci_entry_of, takes_away, push_deferred_diag, remove_if_flaky.
  destruct e as [item o ms ctx]. cbn [cm_outcome cm_item cm_ctx fst snd ci_opts ci_deferred ci_dots].
  destruct o; cbn [is_flaky andb]; rewrite ?Hkeep, ?app_nil_r by done; try done;
    destruct (ci_entry _ _ _ _ _ _); by rewrite ?app_nil_r.
Qed.

Lemma ci_fold_spec opts events l dots :
  fold_left (λ r '(h, e), ci_test_completed h r e) events (mk_ci opts l dots) =
    mk_ci opts (List.filter (λ d, negb (existsb (takes_away d) events)) l ++ survivors opts events)
      (dots ++ map (λ p : heap * completion, dot_char (cm_outcome p.2)) events).
Proof.
  revert l dots. induction events as [|[h e] events IH]; intros l dots.
  - simpl. rewrite !app_nil_r, filter_all by done. done.
  - cbn [fold_left]. rewrite ci_completed_spec, IH, List.filter_app, filter_filter. f_equal.
    + cbn [survivors]. rewrite (assoc_L (++)). f_equal. f_equal.
      * apply List.filter_ext. intros d. cbn [existsb]. by rewrite negb_orb, andb_comm.
      * destruct (ci_entry_of opts (h, e)); [|done]. cbn [List.filter]. by destruct (existsb _ events).
    + simpl. by rewrite <-(assoc_L (++)).
Qed.

(** The reporter shows one character per completed test, in order, and under
    FAILURES, in order, exactly the entries of failed, errored and timed-out tests
    in which the id of no test that passed on a later retry occurs. *)
Theorem ci_failures_exact opts events :
  ci_deferred (ci_run opts events) = survivors opts events ∧
  ci_dots (ci_run opts events) = map (λ p, dot_char (cm_outcome p.2)) events.
Proof. unfold ci_run, new_ci. by rewrite ci_fold_spec. Qed.

Lemma contains_in a p b s : contains p s = true → contains p (a +:+ s +:+ b) = true.
Proof.
  rewrite !contains_true. intros (x & y & ->). exists (a +:+ x), (y +:+ b). by rewrite !str_app_assoc.
Qed.

(** Colour only puts text around what it colours, or is off. *)
Definition plain_or_wrapped (opts : ReporterOpts) : Prop :=
  ro_use_color opts = false ∨ ∀ c s, ∃ before after, style c s = before +:+ s +:+ after.

Lemma contains_color opts c s p :
  plain_or_wrapped opts → contains p s = true → contains p (color c s (ro_use_color opts)) = true.
Proof.
  intros [->|Hw] Hp; [done|]. unfold color. destruct (ro_use_color opts); [|done].
  destruct (Hw c s) as (a & b & ->). by apply contains_in.
Qed.

Lemma entry_names_test h opts item o ctx p entry :
  plain_or_wrapped opts → param_id item = None ∨ ro_tb opts = Line → contains p (node_id item) = true →
  ci_entry changes h opts item o ctx = Some entry → contains p entry = true.
Proof.
  intros Hc Hp Hid. unfold ci_entry.
  assert (∀ text, contains p (ci_header opts item o +:+ text) = true ∨ ro_tb opts = Line) as Hh.
  { intros text. destruct Hp as [Hp|]; [left|by right]. unfold ci_header. rewrite Hp.
    assert (∀ c l, contains p (color c (l +:+ node_id item) (ro_use_color opts)) = true) as Hl.
    { intros c l. apply contains_color; [done|]. rewrite <-(str_app_nil_r (node_id item)). by apply contains_in. }
    destruct o; apply (contains_in "" p text), Hl. }
  destruct (ro_tb opts).
  2: { unfold one_liner. destruct o; intros [= <-]; rewrite <-(str_app_assoc _ " " _); by apply contains_in. }
  all: destruct (String.eqb _ ""); [done|]; intros [= <-];
    match goal with |- contains _ (_ +:+ ?t) = true => by destruct (Hh t) end.
Qed.

Lemma survivors_app opts l l' p :
  (∀ entry, takes_away entry p = false) → ci_entry_of opts p = None ∨ (∃ entry, ci_entry_of opts p = Some entry ∧
     existsb (takes_away entry) l' = true) →
  survivors opts (l ++ p :: l') = survivors opts (l ++ l').
Proof.
  intros Hp Hl. induction l as [|q l IH]; cbn [survivors app].
  - destruct Hl as [->|(entry & -> & ->)]; done.
  - rewrite IH. destruct (ci_entry_of opts q); [|done]. by rewrite !existsb_app; cbn [existsb]; rewrite Hp.
Qed.

(** C18: Entries are matched by substring.  When a test passes on retry, every
    other test that failed, errored or timed out before, whose id contains the
    id of the flaky one, and whose entry shows its id, loses its entry too: what
    FAILURES lists is what it would list if that test had not run.  An entry
    shows the id of its test when the test has no parameters or the traceback
    style is [line]; colour, when it is on, is taken to put text around what it
    colours. *)
Theorem ci_drops_longer_ids opts before h e between h' retry_ after :
  plain_or_wrapped opts → param_id (cm_item e) = None ∨ ro_tb opts = Line → hard_event e = true →
  is_flaky (cm_outcome retry_) = true → contains (node_id (cm_item retry_)) (node_id (cm_item e)) = true →
  ci_deferred (ci_run opts (before ++ (h, e) :: between ++ (h', retry_) :: after)) =
  ci_deferred (ci_run opts (before ++ between ++ (h', retry_) :: after)).
Proof.
  intros Hc Hp He Hf Hid. unfold ci_run, new_ci. rewrite !ci_fold_spec. cbn [ci_deferred List.filter app].
  apply survivors_app.
  - intros entry. unfold takes_away. unfold hard_event in He. cbn [snd]. by destruct (cm_outcome e).
  - destruct (ci_entry_of opts (h, e)) as [entry|] eqn:E; [right|by left]. exists entry. split; [done|].
    rewrite existsb_app. apply orb_true_iff. right. cbn [existsb]. apply orb_true_iff. left.
    unfold takes_away. cbn [snd]. rewrite Hf. unfold ci_entry_of in E. cbn [fst snd] in E.
    destruct (cm_outcome e); try done; by apply (entry_names_test _ _ _ _ _ _ _ Hc Hp Hid) in E.
Qed.

End TerminalTheorems.

(** ** Contexts shown at the end *)

Section Contexts.
Context {styling : Styling}.
Context (cd : Codec) (watchdog : nat) (process_fixtures : list string).
Context (groups : list TaskGroup.t) (worker_count maxfail : nat) (rep0 : ReporterSession).

(** The terminal reporter formats the context of a failure when the run is over,
    and the set of tests in flight is shared with the coordinator, not copied: it
    is empty by then.  After a phase that was not stopped every such line says
    that no other test was running. *)
Theorem terminal_context_names_no_test p h ctx use_color :
  reachable cd watchdog process_fixtures groups worker_count maxfail rep0 p → loop_over p →
  interrupted (coord p) = false →
  h (pc_in_flight ctx) ≡ₚ elements (in_flight p) →
  context_text h ctx use_color =
    color C_dim ("  worker #" +:+ pretty (pc_worker_id ctx) +:+ " | concurrent: (none)") use_color.
Proof.
  intros Hr Ho Hi Hh.
  pose proof (phase_conserves cd watchdog process_fixtures groups worker_count maxfail rep0 p Hr Ho) as H.
  simpl in H. rewrite Hi in H. destruct H as [[_ He]%(λ f, f eq_refl) _]. rewrite He, elements_empty in Hh.
  apply Permutation_nil_r in Hh. unfold context_text, context_line, concurrent_tests. by rewrite Hh.
Qed.
End Contexts.

(** ** Names *)

Lemma substring_length n s : String.length (String.substring 0 n s) ≤ n.
Proof. revert n. induction s as [|c s IH]; intros [|n]; simpl; try lia. specialize (IH n). lia. Qed.

Lemma take_while_elem {A} (f : A → bool) l x : x ∈ take_while f l → f x = true.
Proof.
  induction l as [|a l IH]; cbn [take_while]; [by intros ?%elem_of_nil|].
  destruct (f a) eqn:E; [|by intros ?%elem_of_nil]. intros [->|?]%elem_of_cons; auto.
Qed.

(** A name is shown in at most the bytes of its column, which has at least 30. *)
Theorem truncated_name_fits name opts_width :
  String.length (truncate_name name (clamp_name_width opts_width)) ≤ clamp_name_width opts_width ∧
  30 ≤ clamp_name_width opts_width ≤ 70.
Proof.
  assert (30 ≤ clamp_name_width opts_width ≤ 70) as Hw by (unfold clamp_name_width; lia).
  split; [|done]. unfold truncate_name. destruct (Nat.leb_spec (String.length name) (clamp_name_width opts_width)); [done|].
  rewrite str_length_app. set (l := take_while _ _).
  assert (default 0 (last l) ≤ clamp_name_width opts_width - 3) as Hend.
  { destruct (last l) as [i|] eqn:El; simpl; [|lia]. apply last_Some_elem_of in El.
    apply take_while_elem, Nat.leb_le in El. done. }
  pose proof (substring_length (default 0 (last l)) name). simpl. lia.
Qed.

(** ** Witnesses *)

Definition shown_item (id fn : string) (pid : option string) : TestItem :=
  {| node_id := id; fn_name := fn; lineno := 1; markers := MarkerSet.from_vec []; param_id := pid; param_values := [];
     is_async := false; fixture_deps := []; fixref_deps := []; arranged := [] |}.

Definition failed_at (item : TestItem) (message : string) : completion :=
  mk_completion item (TestOutcome.Failed (diagnostic_error message "t.py" 3 "assert x" [])) f64_zero None.

Definition passed_on_retry (item : TestItem) : completion :=
  mk_completion item (TestOutcome.Flaky "passed on retry" OutcomeKind.Failed) f64_zero None.

Definition shown_opts (v : Verbosity) : ReporterOpts :=
  mk_opts 2 2 0 false Detail false false false v None 30 [] None.

Definition case_x : TestItem := shown_item "t.py::test_p[x]" "test_p" (Some "x").
Definition case_y : TestItem := shown_item "t.py::test_p[y]" "test_p" (Some "y").
Definition plain_a : TestItem := shown_item "t.py::test_a" "test_a" None.
Definition plain_ab : TestItem := shown_item "t.py::test_ab" "test_ab" None.

(** Two cases and a plain test fail, and the plain test passes on retry. *)
Lemma terminal_lists_standing_failures_witness :
  let events := [failed_at case_x "1"; failed_at case_y "2"; failed_at plain_a "3"; passed_on_retry plain_a] in
  let r := tty_run (styling:=unstyled) String.length (λ _ _, []) (shown_opts VNormal) events in
  tty_printed r = [] ∧ deferred_of (failed_at case_x "1") ∈ listed r ∧ length (listed r) = 2.
Proof.
  intros events r.
  destruct (terminal_lists_standing_failures (styling:=unstyled) String.length (λ _ _, []) (shown_opts VNormal) eq_refl
    events (λ _, [])) as (H1 & _ & _ & H2).
  split_and!; [exact H1| |vm_compute; reflexivity].
  apply (H2 [] (failed_at case_x "1") [failed_at case_y "2"; failed_at plain_a "3"; passed_on_retry plain_a] eq_refl eq_refl).
  intros e' He' Hf. rewrite !elem_of_cons, elem_of_nil in He'.
  destruct He' as [->|[->|[->|[]]]]; [discriminate Hf..|discriminate].
Defined.

Lemma flaky_case_of_open_group_is_listed_witness :
  deferred_of (failed_at case_x "1") ∈
    listed (tty_run (styling:=unstyled) String.length (λ _ _, []) (shown_opts VNormal)
      ([failed_at plain_a "3"] ++ failed_at case_x "1" :: [failed_at case_y "2"] ++ [passed_on_retry case_x])).
Proof.
  apply (flaky_case_of_open_group_is_listed String.length (λ _ _, []) (shown_opts VNormal) eq_refl);
    [reflexivity|discriminate| |reflexivity|reflexivity].
  intros e' ->%list_elem_of_singleton. by split.
Defined.

(** [test_a] passes on retry; the failure of [test_ab] is no longer shown. *)
Lemma ci_drops_longer_ids_witness :
  ci_deferred (ci_run (styling:=unstyled) (λ _ _, []) (shown_opts VNormal)
    ([((λ _, []) : heap, failed_at plain_a "1")] ++ ((λ _, []), failed_at plain_ab "2") :: []
     ++ ((λ _, []), passed_on_retry plain_a) :: [])) = [].
Proof.
  rewrite (ci_drops_longer_ids (styling:=unstyled) (λ _ _, []) (shown_opts VNormal)).
  - vm_compute. reflexivity.
  - left. reflexivity.
  - left. reflexivity.
  - reflexivity.
  - reflexivity.
  - reflexivity.
Defined.

(** A case that passes on retry keeps its entry, in which its id does not occur. *)
Example ci_keeps_flaky_case :
  length (ci_deferred (ci_run (styling:=unstyled) (λ _ _, []) (shown_opts VNormal)
    [((λ _, []) : heap, failed_at case_x "1"); ((λ _, []), passed_on_retry case_x)])) = 1.
Proof. by vm_compute. Qed.

Lemma terminal_context_names_no_test_witness :
  ∃ p, reachable demo_codec 1000 [] [demo_group] 4 0 (new_session 0) p ∧
    context_text (styling:=unstyled) (λ _, elements (in_flight p)) (mk_context 2 0) false =
      "  worker #2 | concurrent: (none)".
Proof.
  destruct (demo_pool_run 0) as (p & Hr & Hc & Hw & _ & Hi & _); [by left|].
  assert (loop_over p) as Ho by (right; rewrite Hw; split; [done|by constructor]).
  exists p. split; [exact Hr|].
  exact (terminal_context_names_no_test (styling:=unstyled) demo_codec 1000 [] [demo_group] 4 0 (new_session 0) p
    (λ _, elements (in_flight p)) (mk_context 2 0) false Hr Ho Hi (Permutation_refl _)).
Defined.
