(* ===== verification/Setup.v ===== *)
(** * Setup: from the command line to a configured pipeline

    Sub-commands and positional arguments ([src/config/cli/mod.rs]), plugin
    command-line extensions ([src/config/cli/plugin.rs] and the argv scanners of
    [src/pipeline/mod.rs]), [setup] with its plugin-recovery path, and the
    dispatch of [run].

    The clap parsers, the discovery of plugin extensions through Python, the
    filesystem and the TOML parser are parameters.  Text printed on the way is
    not modelled; the exit code is.  The table of plugin extensions is a
    [HashMap] in the source: here it is the list of its entries in the order
    the map iterates them, and the theorems hold for every order. *)
From Stdlib Require Import Ascii.
From S2P Require Import Prelude Collections Text F64 Paths Types Query Filter Arrange Strict Config.

(** ** Sub-commands and positional arguments *)

Record InspectArgs := {
  ia_name : option string;
  ia_filter : FilteringArgs;
  ia_failed_filter : FailedFilterArgs
}.

Inductive Command :=
  | Run (args : RunArgs)
  | Debug (args : DebugArgs)
  | QueryCmd (args : QueryArgs)
  | InspectCmd (args : InspectArgs)
  | Env
  | Completions (shell : string)
  | FixturesCmd (paths : list string).

Record OxitestCli := { no_use_gitignore : bool; command : option Command }.

(** [paths.contains(&p)] compares paths; a new path goes to the end. *)
Definition push_path (paths : list string) (p : string) : list string :=
  if path_mem p paths then paths else paths ++ [p].

Definition partition_step (acc : list string * list string) (arg : string)
    : list string * list string :=
  let '(paths, ids) := acc in
  let '(file_part, chain) := NodeId.split_node_id_str arg in
  match chain with
  | _ :: _ => (if contains_glob_chars file_part then paths else push_path paths file_part, ids ++ [arg])
  | [] => (push_path paths arg, ids)
  end.

Definition partition_positionals (raw : list string) : list string * list string :=
  fold_left partition_step raw ([], []).

Definition set_run_targets (l ids : list string) (a : RunArgs) : RunArgs := {|
  ra_paths := l; ra_node_ids := ids; ra_filter := ra_filter a;
  ra_failed_filter := ra_failed_filter a; ra_verbosity := ra_verbosity a;
  ra_exitfirst := ra_exitfirst a; ra_maxfail := ra_maxfail a; ra_serial := ra_serial a;
  ra_doctest_modules := ra_doctest_modules a; ra_workers := ra_workers a;
  ra_schedule := ra_schedule a; ra_timeout := ra_timeout a; ra_retries := ra_retries a;
  ra_strict := ra_strict a; ra_quiet := ra_quiet a; ra_tb := ra_tb a;
  ra_show_locals := ra_show_locals a; ra_show_internals := ra_show_internals a;
  ra_tips := ra_tips a; ra_warnings := ra_warnings a; ra_color := ra_color a;
  ra_durations := ra_durations a; ra_collection_profile := ra_collection_profile a;
  ra_keep_tmp := ra_keep_tmp a; ra_json := ra_json a; ra_junit_xml := ra_junit_xml a;
  ra_cov := ra_cov a; ra_cov_report := ra_cov_report a |}.

Definition set_debug_targets (l ids : list string) (a : DebugArgs) : DebugArgs := {|
  da_paths := l; da_node_ids := ids; da_always := da_always a; da_filter := da_filter a;
  da_failed_filter := da_failed_filter a; da_verbosity := da_verbosity a; da_quiet := da_quiet a;
  da_tb := da_tb a; da_show_locals := da_show_locals a; da_keep_tmp := da_keep_tmp a;
  da_color := da_color a |}.

Definition partition_command (cmd : Command) : Command :=
  match cmd with
  | Run a => let '(l, ids) := partition_positionals (ra_paths a) in Run (set_run_targets l ids a)
  | Debug a => let '(l, ids) := partition_positionals (da_paths a) in Debug (set_debug_targets l ids a)
  | _ => cmd
  end.

(** [clap::error::ErrorKind], the kinds the sources name. *)
Inductive ErrorKind :=
  | DisplayVersion | DisplayHelp | DisplayHelpOnMissing | UnknownArgument | InvalidSubcommand
  | MissingSubcommand | OtherKind.

#[export] Instance ErrorKind_eq_dec : EqDecision ErrorKind.
Proof. solve_decision. Defined.

Definition global_flags : list string := ["--no-use-gitignore"].

Definition is_global (arg : string) : bool := existsb (String.eqb arg) global_flags.

(** The arguments with [run] inserted: global flags first. *)
Definition insert_run (arg0 : string) (rest : list string) : list string :=
  arg0 :: List.filter is_global rest ++ "run" :: List.filter (λ a, negb (is_global a)) rest.

Section Resolve.
(** [OxitestCli::try_parse_from]; an error is a value with a kind. *)
Context {clap_error : Type} (kind_of : clap_error → ErrorKind) (missing_subcommand : clap_error)
        (try_parse_from : list string → result OxitestCli clap_error).

(** [args[0]] is the program name: [setup] never passes an empty list. *)
Definition resolve (arg0 : string) (rest : list string) : result (Command * bool) clap_error :=
  match try_parse_from (arg0 :: rest) with
  | Ok cli =>
      let use_gitignore := negb (no_use_gitignore cli) in
      match command cli with
      | Some cmd => Ok (partition_command cmd, use_gitignore)
      | None =>
          let? cli2 := try_parse_from [arg0; "run"] in
          match command cli2 with
          | Some cmd => Ok (partition_command cmd, use_gitignore)
          | None => Err missing_subcommand
          end
      end
  | Err e =>
      match kind_of e with
      | DisplayVersion | DisplayHelp | DisplayHelpOnMissing => Err e
      | k =>
          match rest with
          | [] => Err e
          | _ :: _ =>
              match try_parse_from (insert_run arg0 rest) with
              | Ok cli =>
                  match command cli with
                  | Some cmd => Ok (partition_command cmd, negb (no_use_gitignore cli))
                  | None => Err e
                  end
              | Err fallback => Err (if bool_decide (k = InvalidSubcommand) then fallback else e)
              end
          end
      end
  end.
End Resolve.

(** ** Plugin command-line extensions *)

Inductive PluginValueType := PString | PBool | PInt | PFloat.

Record PluginCliOption := {
  field_name : string;
  long_flag : string;
  short_flag : option N;
  help : string;
  value_type : PluginValueType;
  env : option string;
  has_default : bool
}.

(** Module, prefix and options, in the iteration order of the map. *)
Abbreviation Extensions := (list (string * (string * list PluginCliOption))) (only parsing).

(** The loop of [validate_prefix_uniqueness]; [seen] maps a prefix to its module. *)
Fixpoint validate_prefixes (seen : gmap string string) (ext : Extensions) : result unit string :=
  match ext with
  | [] => Ok tt
  | (m, (prefix, _)) :: r =>
      match seen !! prefix with
      | Some existing =>
          Err ("plugin CLI prefix conflict: plugins '" +:+ existing +:+ "' and '" +:+ m
               +:+ "' both use prefix '" +:+ prefix +:+ "'")
      | None => validate_prefixes (<[prefix := m]> seen) r
      end
  end.

Definition validate_prefix_uniqueness (ext : Extensions) : result unit string :=
  validate_prefixes ∅ ext.

(** *** Numbers in strings *)

Fixpoint digits_value (acc : Z) (s : string) : option Z :=
  match s with
  | "" => Some acc
  | String a r =>
      match digit_value (N_of_ascii a) with
      | Some d => digits_value (10 * acc + Z.of_N d) r
      | None => None
      end
  end.

(** One digit or more. *)
Definition parse_digits (s : string) : option Z :=
  if String.eqb s "" then None else digits_value 0 s.

(** [s.parse::<i64>()] *)
Definition parse_i64 (s : string) : option Z :=
  let '(neg, body) := match strip_prefix "-" s with
                      | Some r => (true, r)
                      | None => (false, default s (strip_prefix "+" s))
                      end in
  match parse_digits body with
  | Some n =>
      let z := if neg then (- n)%Z else n in
      if ((-9223372036854775808 <=? z) && (z <=? 9223372036854775807))%Z then Some z else None
  | None => None
  end.

(** [m * 10^e], rounded to nearest, ties to even. *)
Definition decimal (neg : bool) (m : Z) (e : Z) : f64 :=
  match m with
  | Zpos p =>
      if (0 <=? e)%Z then
        SFdiv prec64 emax64 (S754_finite neg (Z.to_pos (Zpos p * 10 ^ e)) 0) (S754_finite false 1 0)
      else SFdiv prec64 emax64 (S754_finite neg p 0) (S754_finite false (Z.to_pos (10 ^ (- e))) 0)
  | _ => S754_zero neg
  end.

(** [Digit+ | Digit+ '.' Digit* | Digit* '.' Digit+]: the digits and how many
    follow the point. *)
Definition parse_mantissa (s : string) : option (Z * Z) :=
  match split_once "." s with
  | None => (λ n, (n, 0%Z)) <$> parse_digits s
  | Some (a, b) =>
      if String.eqb a "" && String.eqb b "" then None
      else (λ n, (n, Z.of_nat (String.length b))) <$> parse_digits (a +:+ b)
  end.

Definition parse_exponent (s : string) : option Z :=
  match strip_prefix "-" s with
  | Some r => Z.opp <$> parse_digits r
  | None => parse_digits (default s (strip_prefix "+" s))
  end.

(** [s.parse::<f64>()] *)
Definition parse_f64 (s : string) : option f64 :=
  let '(neg, body) := match strip_prefix "-" s with
                      | Some r => (true, r)
                      | None => (false, default s (strip_prefix "+" s))
                      end in
  let low := to_ascii_lowercase body in
  if String.eqb low "inf" || String.eqb low "infinity" then Some (S754_infinity neg)
  else if String.eqb low "nan" then Some S754_nan
  else
    match split_once "e" low with
    | None => (λ '(m, k), decimal neg m (- k)) <$> parse_mantissa low
    | Some (a, b) =>
        match parse_mantissa a, parse_exponent b with
        | Some (m, k), Some e => Some (decimal neg m (e - k))
        | _, _ => None
        end
    end.

(** The value of a flag that takes one, on the argv path. *)
Definition argv_value (t : PluginValueType) (s : string) : toml :=
  match t with
  | PInt => match parse_i64 s with Some n => TInteger n | None => TString s end
  | PFloat => match parse_f64 s with Some x => TFloat x | None => TString s end
  | _ => TString s
  end.

Definition short_str (c : N) : string := "-" +:+ encode_utf8 c.

Definition is_bool (o : PluginCliOption) : bool := match value_type o with PBool => true | _ => false end.

Abbreviation Values := (gmap string (gmap string toml)) (only parsing).

(** [result.entry(module).or_default()], and the insertion of a field in it. *)
Definition entry_or_default (m : string) (res : Values) : Values :=
  match res !! m with Some _ => res | None => <[m := ∅]> res end.

Definition put (m field : string) (v : toml) (res : Values) : Values :=
  <[m := <[field := v]> (default ∅ (res !! m))]> res.

(** [arg] at its first [=]. *)
Definition split_flag (arg : string) : string * option string :=
  match split_once "=" arg with Some (b, v) => (b, Some v) | None => (arg, None) end.

(** The long-flag test for one option.  The flag is false when the source
    [continue]s before the short-flag test. *)
Definition long_step (argv : list string) (arg m : string) (o : PluginCliOption)
    (st : nat * Values) : nat * Values * bool :=
  let '(i, res) := st in
  let '(base, inline) := split_flag arg in
  if String.eqb base (long_flag o) then
    let res := entry_or_default m res in
    if is_bool o then (i, put m (field_name o) (TBoolean true) res, true)
    else match inline with
    | Some v => (i, put m (field_name o) (argv_value (value_type o) v) res, true)
    | None =>
        match argv !! (i + 1) with
        | Some v => (i + 1, put m (field_name o) (argv_value (value_type o) v) res, true)
        | None => (i, res, false)
        end
    end
  else (i, res, true).

Definition short_step (argv : list string) (arg m : string) (o : PluginCliOption)
    (st : nat * Values) : nat * Values :=
  let '(i, res) := st in
  match short_flag o with
  | Some c =>
      if String.eqb arg (short_str c) then
        let res := entry_or_default m res in
        if is_bool o then (i, put m (field_name o) (TBoolean true) res)
        else match argv !! (i + 1) with
        | Some v => (i + 1, put m (field_name o) (argv_value (value_type o) v) res)
        | None => (i, res)
        end
      else (i, res)
  | None => (i, res)
  end.

Definition option_step (argv : list string) (arg m : string) (st : nat * Values)
    (o : PluginCliOption) : nat * Values :=
  let '(i, res, go) := long_step argv arg m o st in
  if go then short_step argv arg m o (i, res) else (i, res).

(** One turn of the loop over [argv]. *)
Definition arg_step (ext : Extensions) (argv : list string) (arg : string) (st : nat * Values)
    : nat * Values :=
  fold_left (λ st '(m, (_, opts)), fold_left (option_step argv arg m) opts st) ext st.

Fixpoint extract_loop (fuel : nat) (ext : Extensions) (argv : list string) (i : nat)
    (res : Values) : Values :=
  match fuel with
  | 0 => res
  | S n =>
      match argv !! i with
      | None => res
      | Some arg => let '(i, res) := arg_step ext argv arg (i, res) in
                    extract_loop n ext argv (S i) res
      end
  end.

(** Each turn moves [i] forward, so [length argv] turns are enough. *)
Definition extract_plugin_values_from_argv (ext : Extensions) (argv : list string) : Values :=
  extract_loop (length argv) ext argv 0 ∅.

Definition all_options (ext : Extensions) : list PluginCliOption := flat_map (λ e, snd (snd e)) ext.

Definition has_short (arg : string) (o : PluginCliOption) : bool :=
  match short_flag o with Some c => String.eqb (short_str c) arg | None => false end.

(** [Some b]: the argument is a plugin flag, and [b] says that the next one is
    its value. *)
Definition flag_takes_next (ext : Extensions) (arg : string) : option bool :=
  let opts := all_options ext in
  let '(base, inline) := split_flag arg in
  if existsb (λ o, String.eqb (long_flag o) base) opts then
    Some match inline with
         | Some _ => false
         | None => negb (existsb (λ o, String.eqb (long_flag o) base && is_bool o) opts)
         end
  else if starts_with "-" arg && negb (starts_with "--" arg) && (String.length arg =? 2)
          && existsb (has_short arg) opts then
    Some (negb (existsb (λ o, has_short arg o && is_bool o) opts))
  else None.

Fixpoint strip_loop (ext : Extensions) (skip_next : bool) (argv : list string) : list string :=
  match argv with
  | [] => []
  | arg :: r =>
      if skip_next then strip_loop ext false r
      else match flag_takes_next ext arg with
      | Some takes => strip_loop ext takes r
      | None => arg :: strip_loop ext false r
      end
  end.

Definition strip_plugin_flags (ext : Extensions) (argv : list string) : list string :=
  strip_loop ext false argv.

(** ** The extended clap parser ([src/config/cli/plugin.rs]) *)

Inductive ArgAction := SetTrue | SetValue.

Record PluginArg := {
  arg_id : string;
  arg_long : string;
  arg_short : option N;
  arg_help : string;
  arg_action : ArgAction;
  arg_env : option string
}.

(** [s.trim_start_matches("--")] *)
Fixpoint trim_dashes (fuel : nat) (s : string) : string :=
  match fuel with
  | 0 => s
  | S n => match strip_prefix "--" s with Some r => trim_dashes n r | None => s end
  end.

Definition plugin_arg_id (prefix : string) (o : PluginCliOption) : string :=
  prefix +:+ "." +:+ field_name o.

Definition plugin_arg (prefix : string) (o : PluginCliOption) : PluginArg := {|
  arg_id := plugin_arg_id prefix o;
  arg_long := trim_dashes (String.length (long_flag o)) (long_flag o);
  arg_short := short_flag o;
  arg_help := help o;
  arg_action := if is_bool o then SetTrue else SetValue;
  arg_env := env o
|}.

(** The arguments [add_plugin_args] appends to the command. *)
Definition add_plugin_args (ext : Extensions) : list PluginArg :=
  flat_map (λ '(_, (prefix, opts)), map (plugin_arg prefix) opts) ext.

(** What the parser found for an id. *)
Record ArgMatches := { get_flag : string → bool; get_one : string → option string }.

Definition matched_value (matches : ArgMatches) (prefix : string) (o : PluginCliOption) : option toml :=
  let id := plugin_arg_id prefix o in
  match value_type o with
  | PBool => if get_flag matches id then Some (TBoolean true) else None
  | PInt => TInteger <$> (get_one matches id ≫= parse_i64)
  | PFloat => TFloat <$> (get_one matches id ≫= parse_f64)
  | PString => TString <$> get_one matches id
  end.

Definition matched_fields (matches : ArgMatches) (prefix : string) (opts : list PluginCliOption)
    : gmap string toml :=
  fold_left (λ values o, match matched_value matches prefix o with
                         | Some v => <[field_name o := v]> values
                         | None => values
                         end) opts ∅.

Definition extract_plugin_values (matches : ArgMatches) (ext : Extensions) : Values :=
  fold_left (λ res '(m, (prefix, opts)),
    let values := matched_fields matches prefix opts in
    if bool_decide (values = ∅) then res else <[m := values]> res) ext ∅.

(** ** Merging plugin values *)

(** One module's entry; the values win over the keys of the table, and an entry
    that is not a table is left alone. *)
Definition merge_plugin_entry (settings : option toml) (values : option (gmap string toml)) : option toml :=
  match values with
  | None => settings
  | Some vals =>
      match settings with
      | None => Some (TTable vals)
      | Some (TTable t) => Some (TTable (vals ∪ t))
      | Some other => Some other
      end
  end.

Definition merge_plugin_cli_values (c : Config) (values : Values) : Config :=
  if bool_decide (values = ∅) then c
  else
    let g := features c in
    with_features c {|
      plugins := plugins g;
      plugin_settings := merge merge_plugin_entry (plugin_settings g) values;
      async_backend := async_backend g; cov := cov g; cov_report := cov_report g;
      cache_max_age := cache_max_age g; plugin_cli_values := values |}.

(** ** The commands that build a pipeline *)

Inductive PipelineCommand :=
  | PRun (args : RunArgs)
  | PDebug (args : DebugArgs)
  | PQuery (args : QueryArgs)
  | PFixtures (paths : list string).

Definition from_command (cmd : Command) : option PipelineCommand :=
  match cmd with
  | Run a => Some (PRun a)
  | Debug a => Some (PDebug a)
  | QueryCmd a => Some (PQuery a)
  | FixturesCmd l => Some (PFixtures l)
  | InspectCmd _ | Env | Completions _ => None
  end.

Definition command_paths (pc : PipelineCommand) : list string :=
  match pc with
  | PRun a => ra_paths a
  | PDebug a => da_paths a
  | PQuery a => qa_paths a
  | PFixtures l => l
  end.

Definition first_path (pc : PipelineCommand) : option string := head (command_paths pc).

(** [oxitest fixtures] is [oxitest query fixtures] with every flag at its default. *)
Definition fixtures_query (l : list string) : QueryArgs := {|
  qa_resource := Fixtures; qa_expression := None; qa_fzf := false; qa_detail := None;
  qa_jsonl := false; qa_count := false; qa_tree := false; qa_color := None; qa_paths := l |}.

(** The validation both set-up paths make. *)
Definition validate_command (cmd : Command) : result unit string :=
  match cmd with
  | Run a => run_validate a
  | Debug a => debug_validate a
  | _ => Ok tt
  end.

Record PipelineShared := {
  sh_cfg : Config;
  sh_command : Command;
  sh_rootdir : string;
  sh_is_tty : bool;
  sh_use_color : bool
}.

Section Setup.
Context {clap_error toml_error py_error : Type}.
(** clap *)
Context (kind_of : clap_error → ErrorKind) (missing_subcommand : clap_error)
        (try_parse_from : list string → result OxitestCli clap_error)
        (try_get_matches_from : list PluginArg → list string → result ArgMatches clap_error).
(** The filesystem and the TOML parser, as in [Config]. *)
Context (canonicalize : string → option string) (exists_ is_file : string → bool)
        (read_to_string : string → option string)
        (toml_from_str : string → result toml toml_error)
        (try_into : toml → result OxitestConfig de_error).
(** Python: [discover_plugin_cli]; [sys.executable]; [inspect::run]. *)
Context (discover_plugin_cli : list string → gmap string toml → result Extensions py_error)
        (python_bin : result string py_error) (inspect_run : InspectArgs → Config → bool).
(** Standard output is a terminal; the [console] crate's switch. *)
Context (stdout_is_terminal colors_enabled : bool).

Abbreviation load := (config_load read_to_string toml_from_str try_into).
Abbreviation find_rootdir := (find_rootdir canonicalize exists_ is_file).
Abbreviation resolve := (resolve kind_of missing_subcommand try_parse_from).

Definition load_config (pc : PipelineCommand) (root inv : string) : result Config ExitCode.t :=
  let? cfg := load root inv in
  Ok match pc with
     | PRun a => merge_run_args canonicalize cfg a
     | PDebug a => merge_debug_args canonicalize cfg a
     | PQuery a => merge_query_args cfg a
     | PFixtures l => merge_query_args cfg (fixtures_query l)
     end.

Definition refuse_missing_targets (pc : PipelineCommand) : option ExitCode.t :=
  match missing_paths exists_ (command_paths pc) with
  | [] => None
  | _ => Some ExitCode.UsageError
  end.

Definition build_shared (cfg : Config) (cmd : Command) (root : string)
    : result PipelineShared py_error :=
  let debugging := bool_decide (is_Some (debug_mode (mode (exec cfg)))) in
  let is_tty := stdout_is_terminal && negb debugging in
  let? _ := python_bin in
  Ok {| sh_cfg := cfg; sh_command := cmd; sh_rootdir := root; sh_is_tty := is_tty;
        sh_use_color := fst (color_resolve (color (output cfg)) (is_tty || debugging) colors_enabled) |}.

(** What [setup] and the recovery path share: the command is validated, its
    targets are checked, and its configuration is loaded and merged. *)
Definition configure (cmd : Command) (use_gi : bool) (inv : string)
    : result (string * Config) ExitCode.t :=
  match from_command cmd with
  | None => Err ExitCode.UsageError
  | Some pc =>
      match refuse_missing_targets pc with
      | Some code => Err code
      | None =>
          let root := find_rootdir (first_path pc) inv in
          let? cfg := load_config pc root inv in
          Ok (root, if use_gi then cfg else with_paths cfg (set_use_gitignore false (paths cfg)))
      end
  end.

Definition is_help (k : ErrorKind) : bool :=
  match k with DisplayHelp | DisplayHelpOnMissing => true | _ => false end.

Definition finish {A} (r : result A py_error) : result (result A ExitCode.t) py_error :=
  let? a := r in Ok (Ok a).

(** The recovery path of a command line the core parser refused. *)
Definition setup_with_plugin_recovery (arg0 : string) (rest : list string) (phase1 : ErrorKind)
    (root inv : string) : result (result PipelineShared ExitCode.t) py_error :=
  match load root inv with
  | Err code => Ok (Err code)
  | Ok cfg =>
      let? ext := discover_plugin_cli (plugins (features cfg)) (plugin_settings (features cfg)) in
      match ext with
      | [] => Ok (Err (if is_help phase1 then ExitCode.Success else ExitCode.UsageError))
      | _ =>
          match validate_prefix_uniqueness ext with
          | Err _ => Ok (Err ExitCode.UsageError)
          | Ok _ =>
              if is_help phase1 then Ok (Err ExitCode.Success)
              else
                let values := extract_plugin_values_from_argv ext (arg0 :: rest) in
                (* The program name is no flag ([strip_keeps_program]), so one word is left. *)
                match strip_plugin_flags ext (arg0 :: rest) with
                | [] => Ok (Err ExitCode.UsageError)
                | a0 :: r =>
                    match resolve a0 r with
                    | Err _ => Ok (Err ExitCode.UsageError)
                    | Ok (cmd, use_gi) =>
                        match validate_command cmd with
                        | Err _ => Ok (Err ExitCode.UsageError)
                        | Ok _ =>
                            match configure cmd use_gi inv with
                            | Err code => Ok (Err code)
                            | Ok (root, cfg) =>
                                finish (build_shared (merge_plugin_cli_values cfg values) cmd root)
                            end
                        end
                    end
                end
          end
      end
  end.

(** Phase 2: the flags and environment variables of the plugins, through clap. *)
Definition phase2 (cfg : Config) (argv : list string)
    : result (result Config ExitCode.t) py_error :=
  match plugins (features cfg) with
  | [] => Ok (Ok cfg)
  | _ =>
      let? ext := discover_plugin_cli (plugins (features cfg)) (plugin_settings (features cfg)) in
      match ext with
      | [] => Ok (Ok cfg)
      | _ =>
          match validate_prefix_uniqueness ext with
          | Err _ => Ok (Err ExitCode.UsageError)
          | Ok _ =>
              match try_get_matches_from (add_plugin_args ext) argv with
              | Ok matches => Ok (Ok (merge_plugin_cli_values cfg (extract_plugin_values matches ext)))
              | Err e =>
                  match kind_of e with
                  | UnknownArgument | InvalidSubcommand | DisplayHelp | DisplayVersion => Ok (Ok cfg)
                  | _ => Ok (Err ExitCode.UsageError)
                  end
              end
          end
      end
  end.

Definition setup (args : list string) (inv : string)
    : result (result PipelineShared ExitCode.t) py_error :=
  match resolve "oxitest" args with
  | Err e =>
      let k := kind_of e in
      if bool_decide (k = DisplayVersion) then Ok (Err ExitCode.Success)
      else
        let first := match args with
                     | a :: _ => if starts_with "-" a then None else Some a
                     | [] => None
                     end in
        let root := find_rootdir first inv in
        if (is_help k || bool_decide (k = UnknownArgument))
           && has_plugins_configured read_to_string toml_from_str root
        then setup_with_plugin_recovery "oxitest" args k root inv
        else Ok (Err (if is_help k then ExitCode.Success else ExitCode.UsageError))
  | Ok (cmd, use_gi) =>
      match validate_command cmd with
      | Err _ => Ok (Err ExitCode.UsageError)
      | Ok _ =>
          match cmd with
          | Env | Completions _ => Ok (Err ExitCode.Success)
          | InspectCmd a =>
              match load (find_rootdir None inv) inv with
              | Err code => Ok (Err code)
              | Ok cfg => Ok (Err (if inspect_run a cfg then ExitCode.Success else ExitCode.Failure))
              end
          | _ =>
              match configure cmd use_gi inv with
              | Err code => Ok (Err code)
              | Ok (root, cfg) =>
                  let? r := phase2 cfg ("oxitest" :: args) in
                  match r with
                  | Err code => Ok (Err code)
                  | Ok cfg => finish (build_shared cfg cmd root)
                  end
              end
          end
      end
  end.
End Setup.

(** ** [run]: which sequence of transitions a command takes *)

Inductive Sequence :=
  | RunSequence
  | DebugSequence
  | QuerySequence (args : QueryArgs) (needs_session : bool)
  | NotAPipeline (code : ExitCode.t).

(** [char::is_alphanumeric] and the [regex] crate are parameters of the DSL. *)
Definition dispatch_command {regex : Type} (alphanumeric : N → bool)
    (regex_new : string → result regex string) (cmd : Command) : Sequence :=
  match cmd with
  | Run _ => RunSequence
  | Debug _ => DebugSequence
  | QueryCmd a => QuerySequence a (needs_python alphanumeric regex_new (qa_resource a) (qa_expression a) || qa_tree a)
  | FixturesCmd l => QuerySequence (fixtures_query l) true
  | InspectCmd _ | Env | Completions _ => NotAPipeline ExitCode.UsageError
  end.

(** ** One reading of the arguments

    The recovery path reads [argv] twice: once for the plugins' values, once for
    the words left to the core parser.  [scan] is one left-to-right reading; the
    two functions are its two projections. *)

Definition options_of (ext : Extensions) : list (string * PluginCliOption) :=
  flat_map (λ '(m, (_, opts)), map (pair m) opts) ext.

Definition answers (arg : string) (o : PluginCliOption) : bool :=
  String.eqb (fst (split_flag arg)) (long_flag o) || has_short arg o.

Definition owner (ext : Extensions) (arg : string) : option (string * PluginCliOption) :=
  List.find (λ x, answers arg (snd x)) (options_of ext).

Inductive argv_item :=
  | CoreArg (arg : string)
  | PluginFlag (m : string) (o : PluginCliOption) (value : option toml) (words : list string).

Fixpoint scan (ext : Extensions) (argv : list string) : list argv_item :=
  match argv with
  | [] => []
  | arg :: r =>
      match owner ext arg with
      | None => CoreArg arg :: scan ext r
      | Some (m, o) =>
          if is_bool o then PluginFlag m o (Some (TBoolean true)) [arg] :: scan ext r
          else match snd (split_flag arg) with
          | Some v => PluginFlag m o (Some (argv_value (value_type o) v)) [arg] :: scan ext r
          | None =>
              match r with
              | [] => [PluginFlag m o None [arg]]
              | v :: r' => PluginFlag m o (Some (argv_value (value_type o) v)) [arg; v] :: scan ext r'
              end
          end
      end
  end.

Definition item_words (x : argv_item) : list string :=
  match x with CoreArg a => [a] | PluginFlag _ _ _ w => w end.

Definition item_core (x : argv_item) : option string :=
  match x with CoreArg a => Some a | PluginFlag _ _ _ _ => None end.

Definition item_value (res : Values) (x : argv_item) : Values :=
  match x with
  | CoreArg _ => res
  | PluginFlag m o v _ =>
      let res := entry_or_default m res in
      match v with Some v => put m (field_name o) v res | None => res end
  end.

(** Long flags are [--...] words without an equals sign; short flags are ASCII,
    and neither a dash nor an equals sign; no flag names two options. *)
Record flags_ok (ext : Extensions) : Prop := {
  long_ok : Forall (λ x, starts_with "--" (long_flag (snd x)) = true ∧
                         contains "=" (long_flag (snd x)) = false) (options_of ext);
  short_ok : Forall (λ x, ∀ c, short_flag (snd x) = Some c → (c < 128 ∧ c ≠ 45 ∧ c ≠ 61)%N)
               (options_of ext);
  long_nodup : NoDup (map (λ x, long_flag (snd x)) (options_of ext));
  short_nodup : NoDup (omap (λ x, short_flag (snd x)) (options_of ext))
}.

Lemma short_str_ascii c :
  (c < 128)%N → short_str c = String "-" (String (ascii_of_N c) "").
Proof. intros Hc. unfold short_str, encode_utf8. by rewrite (proj2 (N.ltb_lt _ _)). Qed.

Lemma ascii_of_N_inj c d : (c < 256)%N → (d < 256)%N → ascii_of_N c = ascii_of_N d → c = d.
Proof.
  intros Hc Hd H. rewrite <-(N_ascii_embedding c), <-(N_ascii_embedding d) by done. by rewrite H.
Qed.

Lemma has_short_spec arg o c :
  short_flag o = Some c → has_short arg o = true → arg = short_str c.
Proof. unfold has_short. intros ->. by intros ->%String.eqb_eq. Qed.

(** A short flag is no long flag. *)
Lemma short_split c :
  (c < 128 ∧ c ≠ 45 ∧ c ≠ 61)%N →
  split_flag (short_str c) = (short_str c, None) ∧ starts_with "--" (short_str c) = false.
Proof.
  intros (Hc & H45 & H61). rewrite short_str_ascii by done. split.
  - unfold split_flag. rewrite (proj2 (split_once_None "=" _)); [done|].
    rewrite !contains_char_cons. destruct (Ascii.eqb_spec "=" (ascii_of_N c)) as [He|He].
    + change "="%char with (ascii_of_N 61) in He. apply ascii_of_N_inj in He; [|lia..]. by subst.
    + reflexivity.
  - destruct (starts_with "--" _) eqn:E; [|done]. apply starts_with_true in E as [r E].
    injection E as E _. change "-"%char with (ascii_of_N 45) in E.
    apply ascii_of_N_inj in E; [|lia..]. by subst.
Qed.

Section Scan.
Context (ext : Extensions) (Hok : flags_ok ext).

Lemma answers_long_or_short arg m o :
  (m, o) ∈ options_of ext → answers arg o = true →
  (fst (split_flag arg) = long_flag o ∧ has_short arg o = false) ∨
  (split_flag arg = (arg, None) ∧ has_short arg o = true ∧ starts_with "--" arg = false ∧
   ∃ c, short_flag o = Some c ∧ (c < 128)%N ∧ arg = short_str c).
Proof.
  intros Hin Ha. destruct (has_short arg o) eqn:Hs; [right|left].
  - pose proof Hs as Hs'. unfold has_short in Hs'. destruct (short_flag o) as [c|] eqn:Hc; [|done].
    pose proof (proj1 (Forall_forall _ _) (short_ok _ Hok) _ Hin c Hc) as Hr.
    pose proof (has_short_spec _ _ _ Hc Hs) as ->. destruct (short_split c Hr).
    split_and!; [done..|]. exists c. naive_solver.
  - unfold answers in Ha. rewrite Hs, orb_false_r in Ha. by apply String.eqb_eq in Ha.
Qed.

Lemma long_dashes m o : (m, o) ∈ options_of ext → starts_with "--" (long_flag o) = true.
Proof. intros Hin. by destruct (proj1 (Forall_forall _ _) (long_ok _ Hok) _ Hin). Qed.

(** No word names two options. *)
Lemma answers_unique arg l1 m o l2 m' o' :
  options_of ext = l1 ++ (m, o) :: l2 → answers arg o = true → (m', o') ∈ l1 ++ l2 →
  answers arg o' = false.
Proof.
  intros Heq Ha Hin. apply not_true_iff_false. intros Ha'.
  assert (options_of ext ≡ₚ (m, o) :: l1 ++ l2) as Hp by (rewrite Heq; symmetry; apply Permutation_middle).
  assert ((m, o) ∈ options_of ext) as Hin1 by (rewrite Hp; left).
  assert ((m', o') ∈ options_of ext) as Hin2 by (rewrite Hp; by right).
  pose proof (long_nodup _ Hok) as Hl. pose proof (short_nodup _ Hok) as Hs.
  rewrite Hp in Hl, Hs. simpl in Hl. apply NoDup_cons in Hl as [Hl _].
  destruct (answers_long_or_short arg m o Hin1 Ha) as [[H1 _]|(Hsp & _ & Hd & c & Hc & Hlt & He)],
    (answers_long_or_short arg m' o' Hin2 Ha') as [[H2 _]|(Hsp' & _ & Hd' & c' & Hc' & Hlt' & He')].
  - apply Hl. rewrite <-H1, H2. apply list_elem_of_fmap. by exists (m', o').
  - pose proof (long_dashes _ _ Hin1) as Hd. rewrite <-H1, Hsp' in Hd. simpl in Hd. congruence.
  - pose proof (long_dashes _ _ Hin2) as Hd'. rewrite <-H2, Hsp in Hd'. simpl in Hd'. congruence.
  - rewrite He, !short_str_ascii in He' by done. injection He' as He'.
    apply ascii_of_N_inj in He' as <-; [|lia..].
    cbn [omap list_omap snd] in Hs. rewrite Hc in Hs. apply NoDup_cons in Hs as [Hs _].
    apply Hs. apply list_elem_of_omap. by exists (m', o').
Qed.

Lemma owner_Some arg m o :
  owner ext arg = Some (m, o) →
  ∃ l1 l2, options_of ext = l1 ++ (m, o) :: l2 ∧ answers arg o = true ∧ (m, o) ∈ options_of ext.
Proof.
  unfold owner. intros H. apply find_some in H as [Hin Ha].
  apply list_elem_of_In in Hin. destruct (list_elem_of_split _ _ Hin) as (l1 & l2 & Heq).
  by exists l1, l2.
Qed.

Lemma owner_None arg m o : owner ext arg = None → (m, o) ∈ options_of ext → answers arg o = false.
Proof. unfold owner. intros H Hin. by apply (find_none _ _ H (m, o)), list_elem_of_In. Qed.

Abbreviation step_at argv arg := (λ st x, option_step argv arg (fst x) st (snd x)).

Lemma arg_step_flat argv arg st : arg_step ext argv arg st = fold_left (step_at argv arg) (options_of ext) st.
Proof.
  clear Hok. unfold arg_step, options_of. revert st.
  induction ext as [|[m [p opts]] e IH]; intros st; [done|]. simpl. rewrite fold_left_app, IH. f_equal.
  clear. revert st. induction opts as [|o opts IH]; intros st; [done|]. simpl. apply IH.
Qed.

Lemma option_step_id argv arg m st o : answers arg o = false → option_step argv arg m st o = st.
Proof.
  intros Ha. unfold answers, has_short in Ha. apply orb_false_elim in Ha as [Hl Hs].
  unfold option_step, long_step, short_step. destruct st as [i res].
  destruct (split_flag arg) as [base inline]. simpl in Hl. rewrite Hl.
  destruct (short_flag o); [|done]. by rewrite String.eqb_sym, Hs.
Qed.

Lemma steps_id argv arg l st :
  Forall (λ x, answers arg (snd x) = false) l → fold_left (step_at argv arg) l st = st.
Proof. intros HF. revert st. induction HF as [|x l Hx _ IH]; intros st; [done|]. simpl. by rewrite option_step_id. Qed.

(** What the option that answers to [arg] does. *)
Definition hit (argv : list string) (arg m : string) (o : PluginCliOption) (i : nat) (res : Values)
    : nat * Values :=
  let res := entry_or_default m res in
  if is_bool o then (i, put m (field_name o) (TBoolean true) res)
  else match snd (split_flag arg) with
  | Some v => (i, put m (field_name o) (argv_value (value_type o) v) res)
  | None =>
      match argv !! (i + 1) with
      | Some v => (i + 1, put m (field_name o) (argv_value (value_type o) v) res)
      | None => (i, res)
      end
  end.

Lemma option_step_hit argv arg m o i res :
  (m, o) ∈ options_of ext → answers arg o = true →
  option_step argv arg m (i, res) o = hit argv arg m o i res.
Proof.
  intros Hin Ha. unfold option_step, long_step, short_step, hit.
  destruct (answers_long_or_short arg m o Hin Ha) as [[Hl Hs]|(Hsp & Hs & Hd & c & Hc & _ & He)].
  - destruct (split_flag arg) as [base inline]. simpl in Hl. subst base.
    rewrite String.eqb_refl. unfold has_short in Hs. simpl.
    destruct (is_bool o), inline as [v|], (argv !! (i + 1)), (short_flag o); try done;
      by rewrite String.eqb_sym, Hs.
  - rewrite Hsp. cbn [fst snd].
    destruct (String.eqb_spec arg (long_flag o)) as [Heq|_].
    { pose proof (long_dashes m o Hin) as Hld. rewrite <-Heq in Hld. congruence. }
    rewrite Hc, <-He, String.eqb_refl. by destruct (is_bool o), (argv !! (i + 1)).
Qed.

Lemma arg_step_owner argv arg i res :
  arg_step ext argv arg (i, res) =
  match owner ext arg with Some (m, o) => hit argv arg m o i res | None => (i, res) end.
Proof.
  rewrite arg_step_flat. destruct (owner ext arg) as [[m o]|] eqn:Ho.
  - destruct (owner_Some _ _ _ Ho) as (l1 & l2 & Heq & Ha & Hin).
    assert (Forall (λ x, answers arg (snd x) = false) (l1 ++ l2)) as [H1 H2]%Forall_app.
    { apply Forall_forall. intros [m' o'] Hin'. by eapply answers_unique. }
    rewrite Heq, fold_left_app. simpl. rewrite (steps_id _ _ l1) by done.
    by rewrite option_step_hit, steps_id.
  - apply steps_id. apply Forall_forall. intros [m o] Hin. by eapply owner_None.
Qed.

Lemma extract_loop_scan fuel pre rest res :
  length rest ≤ fuel →
  extract_loop fuel ext (pre ++ rest) (length pre) res = fold_left item_value (scan ext rest) res.
Proof.
  revert pre rest res. induction fuel as [|fuel IH]; intros pre rest res Hf.
  { destruct rest; [done|simpl in Hf; lia]. }
  destruct rest as [|arg r]; simpl extract_loop.
  { by rewrite app_nil_r, lookup_ge_None_2. }
  rewrite list_lookup_middle by done. rewrite arg_step_owner. simpl in Hf.
  assert (∀ res, extract_loop fuel ext (pre ++ arg :: r) (S (length pre)) res
                 = fold_left item_value (scan ext r) res) as Hnext.
  { intros res'. rewrite <-(IH (pre ++ [arg]) r res') by lia.
    rewrite length_app, <-app_assoc. simpl. by rewrite Nat.add_1_r. }
  simpl scan. destruct (owner ext arg) as [[m o]|]; [|by rewrite Hnext].
  unfold hit. destruct (is_bool o); [by rewrite Hnext|].
  destruct (snd (split_flag arg)); [by rewrite Hnext|].
  rewrite lookup_app_r by lia. replace (length pre + 1 - length pre) with 1 by lia.
  destruct r as [|v r]; cbn [lookup list_lookup].
  - by rewrite Hnext.
  - cbn [fold_left item_value]. rewrite <-(IH (pre ++ [arg; v]) r) by (simpl in Hf; lia).
    rewrite length_app, <-app_assoc. simpl. f_equal. lia.
Qed.

Lemma all_options_of : all_options ext = map snd (options_of ext).
Proof.
  clear Hok. unfold all_options, options_of. induction ext as [|[m [p opts]] e IH]; [done|]. simpl.
  rewrite map_app, IH, map_map. f_equal. symmetry. apply map_id.
Qed.

(** A test on the options that answer to [arg] is a test on its owner. *)
Lemma existsb_owner (P Q : PluginCliOption → bool) arg m o :
  (∀ o', P o' = true → answers arg o' = true) → owner ext arg = Some (m, o) → P o = true →
  existsb (λ o', P o' && Q o') (all_options ext) = Q o.
Proof.
  intros HP Ho HPo. destruct (owner_Some _ _ _ Ho) as (l1 & l2 & Heq & Ha & Hin).
  assert (∀ x, x ∈ l1 ++ l2 → P (snd x) = false) as Hno.
  { intros [m' o'] Hx. apply not_true_iff_false. intros Hp%HP.
    simpl in Hp. by rewrite (answers_unique arg l1 m o l2 m' o') in Hp. }
  rewrite all_options_of, Heq, map_app, existsb_app. simpl. rewrite HPo.
  assert (∀ l : list (string * PluginCliOption), (∀ x, x ∈ l → P (snd x) = false) →
               existsb (λ o', P o' && Q o') (map snd l) = false) as Hf.
  { intros l Hl. apply existsb_false. intros y (x & -> & Hx)%list_elem_of_fmap. by rewrite Hl. }
  rewrite !Hf; [by rewrite orb_false_r|..]; intros x Hx; apply Hno, elem_of_app; auto.
Qed.

Lemma existsb_some (P : PluginCliOption → bool) m o :
  (m, o) ∈ options_of ext → P o = true → existsb P (all_options ext) = true.
Proof.
  intros Hin HP. rewrite all_options_of. apply existsb_elem. exists o. split; [|done].
  apply list_elem_of_fmap. by exists (m, o).
Qed.

Lemma existsb_none (P : PluginCliOption → bool) :
  (∀ m o, (m, o) ∈ options_of ext → P o = false) → existsb P (all_options ext) = false.
Proof.
  intros HP. rewrite all_options_of. apply existsb_false.
  intros y ([m o] & -> & Hx)%list_elem_of_fmap. by eapply HP.
Qed.

Lemma short_arg_shape c :
  (c < 128)%N → starts_with "-" (short_str c) = true ∧ String.length (short_str c) = 2.
Proof. intros Hc. by rewrite short_str_ascii. Qed.

(** The flag test of [strip_plugin_flags], by the option that answers. *)
Lemma flag_takes_next_owner arg :
  flag_takes_next ext arg =
  match owner ext arg with
  | None => None
  | Some (_, o) => Some (negb (is_bool o) && bool_decide (snd (split_flag arg) = None))
  end.
Proof.
  unfold flag_takes_next. destruct (owner ext arg) as [[m o]|] eqn:Ho.
  - destruct (owner_Some _ _ _ Ho) as (l1 & l2 & Heq & Ha & Hin).
    destruct (answers_long_or_short arg m o Hin Ha) as [[Hl Hs]|(Hsp & Hs & Hd & c & Hc & Hlt & He)].
    + assert (∀ Q, existsb (λ o', String.eqb (long_flag o') (fst (split_flag arg)) && Q o')
                     (all_options ext) = Q o) as Hq.
      { intros Q. eapply existsb_owner; [|done|by rewrite Hl, String.eqb_refl].
        intros o' H'. unfold answers. by rewrite String.eqb_sym, H'. }
      destruct (split_flag arg) as [base inline]. simpl in *.
      rewrite (existsb_some _ m o Hin) by (by rewrite Hl, String.eqb_refl). rewrite Hq.
      by destruct inline; rewrite ?andb_false_r, ?andb_true_r.
    + rewrite Hsp. cbn [snd]. rewrite existsb_none.
      2:{ intros m' o' Hin'. apply String.eqb_neq. intros <-.
          pose proof (long_dashes m' o' Hin'). congruence. }
      destruct (short_arg_shape c Hlt) as [H1 H2]. rewrite <-He in H1, H2. rewrite H1, Hd, H2.
      assert (∀ Q, existsb (λ o', has_short arg o' && Q o') (all_options ext) = Q o) as Hq.
      { intros Q. eapply existsb_owner; [|done|done].
        intros o' H'. unfold answers. by rewrite H', orb_true_r. }
      simpl. by rewrite (existsb_some _ m o Hin), Hq, andb_true_r.
  - destruct (split_flag arg) as [base inline] eqn:Hsp.
    assert (∀ m o, (m, o) ∈ options_of ext →
              String.eqb (long_flag o) base = false ∧ has_short arg o = false) as Hno.
    { intros m o Hin. pose proof (owner_None arg m o Ho Hin) as Hf. unfold answers in Hf.
      rewrite Hsp in Hf. apply orb_false_elim in Hf as [Hf ?]. by rewrite String.eqb_sym. }
    rewrite existsb_none by (intros m o Hin; apply (Hno m o Hin)).
    rewrite (existsb_none (has_short arg)) by (intros m o Hin; apply (Hno m o Hin)).
    by rewrite andb_false_r.
Qed.

Lemma scan_words argv : concat (map item_words (scan ext argv)) = argv.
Proof.
  induction argv as [argv IH] using (induction_ltof1 _ length). unfold ltof in IH.
  destruct argv as [|arg r]; [done|]. simpl scan.
  destruct (owner ext arg) as [[m o]|]; [|by rewrite map_cons, concat_cons, IH by (simpl; lia)].
  repeat case_match; cbn [map item_words]; rewrite ?concat_cons; simpl; try done;
    by rewrite IH by (simpl; lia).
Qed.

Lemma strip_loop_scan argv : strip_loop ext false argv = omap item_core (scan ext argv).
Proof.
  induction argv as [argv IH] using (induction_ltof1 _ length). unfold ltof in IH.
  destruct argv as [|arg r]; [done|]. simpl strip_loop. rewrite flag_takes_next_owner. simpl scan.
  destruct (owner ext arg) as [[m o]|]; [|simpl; by rewrite IH by (simpl; lia)].
  destruct (is_bool o); [simpl; by rewrite IH by (simpl; lia)|].
  destruct (snd (split_flag arg)); [simpl; by rewrite IH by (simpl; lia)|].
  destruct r as [|v r]; [done|]. simpl. by rewrite IH by (simpl; lia).
Qed.
End Scan.

Lemma extract_scan ext argv :
  flags_ok ext →
  extract_plugin_values_from_argv ext argv = fold_left item_value (scan ext argv) ∅.
Proof. intros Hok. by apply (extract_loop_scan ext Hok (length argv) [] argv). Qed.

(** The two readings of the arguments on the plugin-recovery path agree.
    When no word names two plugin options, there is one left-to-right division
    of [argv] into core words and plugin flags with their values, losing no word,
    such that [strip_plugin_flags] keeps exactly the core words, in order, and
    [extract_plugin_values_from_argv] stores exactly the values of the flags:
    no word is both given to the core parser and used as a plugin's value, and
    the fuel of the loop is enough. *)
Theorem plugin_flags_split_argv ext argv :
  flags_ok ext →
  concat (map item_words (scan ext argv)) = argv ∧
  strip_plugin_flags ext argv = omap item_core (scan ext argv) ∧
  extract_plugin_values_from_argv ext argv = fold_left item_value (scan ext argv) ∅.
Proof.
  intros Hok. split_and!; [by apply scan_words|by apply strip_loop_scan|by apply extract_scan].
Qed.

(** A plugin with a host ([-H]), a port and a switch. *)
Definition demo_option (name flag : string) (short : option N) (t : PluginValueType)
    (var : option string) : PluginCliOption := {|
  field_name := name; long_flag := flag; short_flag := short; help := ""; value_type := t;
  env := var; has_default := true |}.

Definition demo_ext : Extensions :=
  [("oxitest_infra", ("infra",
     [demo_option "host" "--infra-host" (Some 72%N) PString (Some "INFRA_HOST");
      demo_option "port" "--infra-port" None PInt None;
      demo_option "debug" "--infra-debug" None PBool None]))].

Lemma demo_flags_ok : flags_ok demo_ext.
Proof.
  split.
  - repeat constructor.
  - cbn. rewrite !Forall_cons. split_and!; [intros c H; simpl in H; by simplify_eq..|done].
  - apply (bool_decide_unpack _). vm_compute. done.
  - apply (bool_decide_unpack _). vm_compute. done.
Qed.

Definition demo_argv : list string :=
  ["oxitest"; "tests"; "-H"; "db1"; "--infra-port=80"; "--infra-debug"; "-v"].

Lemma plugin_flags_split_argv_witness :
  strip_plugin_flags demo_ext demo_argv = ["oxitest"; "tests"; "-v"] ∧
  extract_plugin_values_from_argv demo_ext demo_argv !! "oxitest_infra" ≫= lookup "port"
  = Some (TInteger 80).
Proof.
  destruct (plugin_flags_split_argv demo_ext demo_argv demo_flags_ok) as (_ & -> & ->).
  split; reflexivity.
Defined.

(** The program name is never taken for a flag. *)
Lemma strip_keeps_program ext arg0 rest :
  flags_ok ext → starts_with "-" arg0 = false →
  ∃ r, strip_plugin_flags ext (arg0 :: rest) = arg0 :: r.
Proof.
  intros Hok H0. unfold strip_plugin_flags. simpl. rewrite flag_takes_next_owner by done.
  destruct (owner ext arg0) as [[m o]|] eqn:Ho; [|by eexists].
  destruct (owner_Some _ _ _ _ Ho) as (_ & _ & _ & Ha & Hin). exfalso.
  destruct (answers_long_or_short _ Hok arg0 m o Hin Ha) as [[Hl _]|(_ & _ & _ & c & _ & Hc & ->)].
  - pose proof (long_dashes _ Hok m o Hin) as Hd. rewrite <-Hl in Hd.
    apply starts_with_true in Hd as [r Hd]. unfold split_flag in Hd.
    destruct (split_once "=" arg0) as [[b v]|] eqn:Hs; simpl in Hd; subst.
    + by apply split_once_Some in Hs as ->.
    + done.
  - by destruct (short_arg_shape c Hc) as [H1 _]; rewrite H1 in H0.
Qed.

(** ** What the recovery path gets wrong *)

Lemma split_flag_long ext m o v :
  flags_ok ext → (m, o) ∈ options_of ext →
  split_flag (long_flag o +:+ "=" +:+ v) = (long_flag o, Some v).
Proof.
  intros Hok Hin. unfold split_flag.
  destruct (proj1 (Forall_forall _ _) (long_ok _ Hok) _ Hin) as [_ Hc].
  by rewrite (split_once_char_app "=") by exact Hc.
Qed.

Lemma owner_answers ext arg m o :
  flags_ok ext → (m, o) ∈ options_of ext → answers arg o = true → owner ext arg = Some (m, o).
Proof.
  intros Hok Hin Ha. destruct (owner ext arg) as [[m' o']|] eqn:Ho.
  - destruct (owner_Some _ _ _ _ Ho) as (l1 & l2 & Heq & Ha' & _).
    rewrite Heq in Hin. assert ((m, o) = (m', o') ∨ (m, o) ∈ l1 ++ l2) as [->|Hin'];
      [|done|by rewrite (answers_unique ext Hok arg l1 m' o' l2 m o) in Ha].
    apply elem_of_app in Hin as [?|[?|?]%elem_of_cons]; rewrite elem_of_app; auto.
  - by rewrite (owner_None _ _ _ _ Ho Hin) in Ha.
Qed.

Lemma owner_long ext :
  flags_ok ext → ∀ m o v, (m, o) ∈ options_of ext →
  owner ext (long_flag o +:+ "=" +:+ v) = Some (m, o).
Proof.
  intros Hok m o v Hin. apply owner_answers; [done..|]. unfold answers.
  by rewrite (split_flag_long ext m o v), String.eqb_refl.
Qed.

(** On the recovery path a boolean plugin flag is set whatever is written
    after its equals sign: [--infra-debug=false] turns the option on. *)
Theorem bool_flag_value_ignored ext m o v :
  flags_ok ext → (m, o) ∈ options_of ext → is_bool o = true →
  extract_plugin_values_from_argv ext [long_flag o +:+ "=" +:+ v]
  = {[m := {[field_name o := TBoolean true]}]}.
Proof.
  intros Hok Hin Hb.
  rewrite extract_scan by done. simpl. rewrite (owner_long ext Hok m o v Hin), Hb. simpl.
  unfold entry_or_default, put. rewrite lookup_empty, lookup_insert_eq, insert_insert_eq. done.
Qed.

Lemma bool_flag_value_ignored_witness :
  extract_plugin_values_from_argv demo_ext ["--infra-debug=false"]
  = {["oxitest_infra" := {["debug" := TBoolean true]}]}.
Proof.
  apply (bool_flag_value_ignored demo_ext "oxitest_infra"
           (demo_option "debug" "--infra-debug" None PBool None) "false" demo_flags_ok).
  - do 2 right. left.
  - reflexivity.
Defined.

(** The same extensions without the environment variables the options declare. *)
Definition without_env (o : PluginCliOption) : PluginCliOption := {|
  field_name := field_name o; long_flag := long_flag o; short_flag := short_flag o;
  help := help o; value_type := value_type o; env := None; has_default := has_default o |}.

Definition erase_env (ext : Extensions) : Extensions :=
  map (λ '(m, (p, opts)), (m, (p, map without_env opts))) ext.

(** The recovery path reads flags only: environment variables that plugin
    options declare ([CLI > env > pyproject.toml] in the documentation) are
    ignored as soon as the command line holds one plugin flag. *)
Theorem recovery_ignores_environment ext argv :
  extract_plugin_values_from_argv (erase_env ext) argv = extract_plugin_values_from_argv ext argv.
Proof.
  unfold extract_plugin_values_from_argv. generalize 0, (∅ : Values).
  induction (length argv) as [|n IH]; intros i res; [done|]. simpl.
  destruct (argv !! i) as [arg|]; [|done].
  assert (arg_step (erase_env ext) argv arg (i, res) = arg_step ext argv arg (i, res)) as ->.
  { clear IH. unfold arg_step. generalize (i, res). induction ext as [|[m [p opts]] e IHe]; intros st; [done|].
    simpl. rewrite IHe. f_equal. revert st. induction opts as [|o opts IHo]; intros st; [done|].
    simpl. rewrite <-IHo. done. }
  destruct (arg_step ext argv arg (i, res)). apply IH.
Qed.

(** ** Positional arguments *)

Definition is_node_id (arg : string) : bool := contains "::" arg.

(** The path an argument asks to collect: itself, or the file of a node id that
    is not a pattern. *)
Definition arg_path (arg : string) : option string :=
  if is_node_id arg then
    let file := fst (NodeId.split_node_id_str arg) in
    if contains_glob_chars file then None else Some file
  else Some arg.

(** No two entries are the same path. *)
Definition distinct_paths (l : list string) : Prop :=
  ∀ i j p q, l !! i = Some p → l !! j = Some q → path_eqb p q = true → i = j.

Lemma path_mem_true p l : path_mem p l = true ↔ ∃ q, q ∈ l ∧ path_eqb p q = true.
Proof. apply existsb_elem. Qed.

Lemma push_path_mem l p q : path_mem q (push_path l p) = path_mem q l || path_eqb q p.
Proof.
  unfold push_path. destruct (path_mem p l) eqn:E.
  - destruct (path_eqb q p) eqn:Eq; [|by rewrite orb_false_r]. rewrite orb_true_r.
    apply path_mem_true in E as (r & Hr & Hpr). apply path_mem_true. exists r.
    split; [done|]. by apply (path_eqb_trans q p r).
  - unfold path_mem. rewrite existsb_app. simpl. by rewrite orb_false_r.
Qed.

Lemma push_path_distinct l p : distinct_paths l → distinct_paths (push_path l p).
Proof.
  intros Hl. unfold push_path. destruct (path_mem p l) eqn:E; [done|].
  assert (∀ i a, l !! i = Some a → path_eqb a p = false) as Hno.
  { intros i a Ha. apply not_true_iff_false. intros Hap. apply not_true_iff_false in E. apply E.
    apply path_mem_true. exists a. rewrite path_eqb_sym. split; [by eapply list_elem_of_lookup_2|done]. }
  intros i j a b Ha Hb Hab.
  apply lookup_snoc_Some in Ha as [[_ Ha]|[-> ->]], Hb as [[_ Hb]|[-> ->]]; [by eapply Hl|..|done].
  - by rewrite (Hno _ _ Ha) in Hab.
  - rewrite path_eqb_sym in Hab. by rewrite (Hno _ _ Hb) in Hab.
Qed.

Lemma partition_step_eq ps ids arg :
  partition_step (ps, ids) arg =
  (match arg_path arg with Some p => push_path ps p | None => ps end,
   if is_node_id arg then ids ++ [arg] else ids).
Proof.
  unfold partition_step, arg_path, is_node_id, NodeId.split_node_id_str, NodeId.split_node_id_once.
  destruct (split_once "::" arg) as [[file rest]|] eqn:E.
  - assert (contains "::" arg = true) as ->.
    { apply not_false_iff_true. intros Hc. apply split_once_None in Hc. congruence. }
    simpl. destruct (split "::" rest) eqn:Es; [by destruct (split_fuel_nonnil _ _ _ Es)|].
    by destruct (contains_glob_chars file).
  - apply split_once_None in E. by rewrite E.
Qed.

(** The state of the partition after some arguments. *)
Record partitioned (raw ps ids : list string) : Prop := {
  pt_ids : ids = List.filter is_node_id raw;
  pt_distinct : distinct_paths ps;
  pt_mem : ∀ q, path_mem q ps = true ↔ ∃ a p, a ∈ raw ∧ arg_path a = Some p ∧ path_eqb q p = true;
  pt_from : ∀ q, q ∈ ps → ∃ a, a ∈ raw ∧ arg_path a = Some q
}.

Lemma partitioned_step raw ps ids arg :
  partitioned raw ps ids →
  partitioned (raw ++ [arg]) (fst (partition_step (ps, ids) arg)) (snd (partition_step (ps, ids) arg)).
Proof.
  intros [Hi Hd Hm Hf]. rewrite partition_step_eq. simpl. split.
  - rewrite List.filter_app, <-Hi. simpl. destruct (is_node_id arg); [done|by rewrite app_nil_r].
  - destruct (arg_path arg); [by apply push_path_distinct|done].
  - intros q. setoid_rewrite elem_of_app. setoid_rewrite list_elem_of_singleton.
    destruct (arg_path arg) as [p|] eqn:Ea; [rewrite push_path_mem, orb_true_iff|]; rewrite Hm; naive_solver.
  - intros q Hq. assert (q ∈ ps ∨ arg_path arg = Some q) as [Hin|Ha].
    { destruct (arg_path arg) as [p|]; [|by left]. unfold push_path in Hq.
      destruct (path_mem p ps); [by left|].
      apply elem_of_app in Hq as [?|?%list_elem_of_singleton]; [by left|right; congruence]. }
    + destruct (Hf q Hin) as (a & ? & ?). exists a. rewrite elem_of_app. auto.
    + exists arg. rewrite elem_of_app, list_elem_of_singleton. auto.
Qed.

(** Positional arguments.  The node ids are the arguments that hold [::], in
    the order given; the paths are the plain arguments and the files of the node
    ids that are not patterns, each once (as paths, so [tests] and [tests/] are
    one), and nothing else. *)
Theorem positionals_partitioned raw :
  let '(ps, ids) := partition_positionals raw in
  ids = List.filter is_node_id raw ∧
  distinct_paths ps ∧
  (∀ q, path_mem q ps = true ↔ ∃ a p, a ∈ raw ∧ arg_path a = Some p ∧ path_eqb q p = true) ∧
  (∀ q, q ∈ ps → ∃ a, a ∈ raw ∧ arg_path a = Some q).
Proof.
  assert (partitioned raw (fst (partition_positionals raw)) (snd (partition_positionals raw))) as [].
  { unfold partition_positionals. induction raw as [|arg raw IH] using rev_ind.
    - split; simpl; [done|by intros []|intros q; split; [done|]|by intros q ?%not_elem_of_nil].
      by intros (a & ? & ?%not_elem_of_nil & _).
    - rewrite fold_left_app. simpl. destruct (fold_left partition_step raw ([], [])).
      by apply partitioned_step. }
  by destruct (partition_positionals raw).
Qed.

(** ** Set-up: what reaches the pipeline, and what is refused *)

Section SetupSpec.
Context {clap_error toml_error py_error : Type}.
Context (kind_of : clap_error → ErrorKind) (missing_subcommand : clap_error)
        (try_parse_from : list string → result OxitestCli clap_error)
        (try_get_matches_from : list PluginArg → list string → result ArgMatches clap_error)
        (canonicalize : string → option string) (exists_ is_file : string → bool)
        (read_to_string : string → option string)
        (toml_from_str : string → result toml toml_error)
        (try_into : toml → result OxitestConfig de_error)
        (discover_plugin_cli : list string → gmap string toml → result Extensions py_error)
        (python_bin : result string py_error) (inspect_run : InspectArgs → Config → bool)
        (stdout_is_terminal colors_enabled : bool).

Abbreviation setup := (setup kind_of missing_subcommand try_parse_from try_get_matches_from
  canonicalize exists_ is_file read_to_string toml_from_str try_into discover_plugin_cli
  python_bin inspect_run stdout_is_terminal colors_enabled).
Abbreviation recovery := (setup_with_plugin_recovery kind_of missing_subcommand try_parse_from
  canonicalize exists_ is_file read_to_string toml_from_str try_into discover_plugin_cli
  python_bin stdout_is_terminal colors_enabled).
Abbreviation configure := (configure canonicalize exists_ is_file read_to_string toml_from_str try_into).
Abbreviation load := (config_load read_to_string toml_from_str try_into).
Abbreviation find_rootdir := (find_rootdir canonicalize exists_ is_file).
Abbreviation build_shared := (build_shared python_bin stdout_is_terminal colors_enabled).

(** What the pipeline may rely on after set-up. *)
Record ready (inv : string) (sh : PipelineShared) : Prop := {
  ready_command : is_Some (from_command (sh_command sh));
  ready_valid : validate_command (sh_command sh) = Ok tt;
  ready_targets : ∀ pc, from_command (sh_command sh) = Some pc →
    Forall (λ p, exists_ p = true) (command_paths pc);
  ready_root : ∀ pc, from_command (sh_command sh) = Some pc →
    sh_rootdir sh = find_rootdir (first_path pc) inv;
  ready_declared : ∃ base, load (sh_rootdir sh) inv = Ok base ∧ declared (sh_cfg sh) = declared base;
  ready_debug : ∀ a, sh_command sh = Debug a →
    mode (exec (sh_cfg sh)) = DebugM (debug_args_mode a) ∧ timeout_secs (exec (sh_cfg sh)) = None
}.

Lemma configure_ready cmd use_gi inv root cfg :
  configure cmd use_gi inv = Ok (root, cfg) →
  ∃ pc base, from_command cmd = Some pc ∧ Forall (λ p, exists_ p = true) (command_paths pc) ∧
    root = find_rootdir (first_path pc) inv ∧ load root inv = Ok base ∧ declared cfg = declared base ∧
    ∀ a, cmd = Debug a →
      mode (exec cfg) = DebugM (debug_args_mode a) ∧ timeout_secs (exec cfg) = None.
Proof.
  unfold Setup.configure. destruct (from_command cmd) as [pc|] eqn:Hpc; [|done].
  unfold refuse_missing_targets. destruct (missing_paths _ _) eqn:Hm; [|done].
  intros (cfg' & Hl & [= <- <-])%result_bind_ok.
  apply result_bind_ok in Hl as (base & Hb & [= <-]).
  exists pc, base. split_and!; [done| |done|done| |].
  - apply Forall_forall. intros p Hp. apply not_false_iff_true. intros Hf.
    assert (p ∈ missing_paths exists_ (command_paths pc)) as Hin.
    { apply filter_elem. split; [done|]. by rewrite Hf. }
    rewrite Hm in Hin. by apply not_elem_of_nil in Hin.
  - by destruct use_gi, pc.
  - intros a ->. injection Hpc as <-. by destruct use_gi.
Qed.

(** What plugin values leave alone. *)
Definition kept (c : Config) := (declared c, exec c).

Lemma merge_plugin_kept cfg values : kept (merge_plugin_cli_values cfg values) = kept cfg.
Proof. unfold merge_plugin_cli_values. by case_bool_decide. Qed.

Lemma build_shared_Ok cfg cmd root sh :
  build_shared cfg cmd root = Ok sh →
  sh_cfg sh = cfg ∧ sh_command sh = cmd ∧ sh_rootdir sh = root.
Proof. unfold Setup.build_shared. by intros (? & _ & [= <-])%result_bind_ok. Qed.

Lemma phase2_kept cfg argv cfg' :
  phase2 kind_of try_get_matches_from discover_plugin_cli cfg argv = Ok (Ok cfg') →
  kept cfg' = kept cfg.
Proof.
  unfold phase2. destruct (plugins _); [by intros [= <-]|].
  intros (ext & _ & H)%result_bind_ok.
  repeat case_match; simplify_eq; try done. apply merge_plugin_kept.
Qed.

Lemma finish_Ok {A E} (r : result A E) (a : A) : finish r = Ok (Ok a) → r = Ok a.
Proof. unfold finish. by intros (? & -> & [= ->])%result_bind_ok. Qed.

Lemma ready_intro inv cmd use_gi root cfg cfg' sh :
  validate_command cmd = Ok tt → configure cmd use_gi inv = Ok (root, cfg) →
  kept cfg' = kept cfg → build_shared cfg' cmd root = Ok sh → ready inv sh.
Proof.
  intros Hv (pc & base & Hpc & HF & Hr & Hl & Hd & Hdbg)%configure_ready Hk
    (<- & <- & <-)%build_shared_Ok.
  pose proof (f_equal fst Hk) as Hd'. pose proof (f_equal snd Hk) as He. simpl in Hd', He.
  split; [by rewrite Hpc|done|naive_solver|naive_solver| |by rewrite He].
  exists base. split; [done|congruence].
Qed.

Lemma recovery_ready arg0 rest k root inv sh :
  recovery arg0 rest k root inv = Ok (Ok sh) → ready inv sh.
Proof.
  unfold setup_with_plugin_recovery. destruct (load root inv) as [cfg0|]; [|done].
  intros (ext & _ & H)%result_bind_ok.
  destruct ext as [|e ext]; [done|]. destruct (validate_prefix_uniqueness _); [|done].
  destruct (is_help k); [done|]. destruct (strip_plugin_flags _ _) as [|a0 r]; [done|].
  destruct (resolve _ _ _ a0 r) as [[cmd use_gi]|]; [|done].
  destruct (validate_command cmd) as [[]|] eqn:Hv; [|done].
  destruct (Setup.configure _ _ _ _ _ _ cmd use_gi inv) as [[root' cfg]|] eqn:Hc; [|done].
  apply finish_Ok in H. eapply ready_intro; [done..|apply merge_plugin_kept|done].
Qed.

Lemma setup_is_ready args inv sh : setup args inv = Ok (Ok sh) → ready inv sh.
Proof.
  unfold Setup.setup. destruct (resolve _ _ _ "oxitest" args) as [[cmd use_gi]|e].
  2:{ case_bool_decide; [done|]. case_match; [|by case_match]. apply recovery_ready. }
  destruct (validate_command cmd) as [[]|] eqn:Hv; [|done].
  assert (∀ body, (match Setup.configure canonicalize exists_ is_file read_to_string toml_from_str
                           try_into cmd use_gi inv with
                   | Ok rc => body rc
                   | Err code => Ok (Err code)
                   end : result (result PipelineShared ExitCode.t) py_error) = Ok (Ok sh) →
            ∃ root cfg, configure cmd use_gi inv = Ok (root, cfg) ∧ body (root, cfg) = Ok (Ok sh)) as Hb.
  { intros body. destruct (Setup.configure _ _ _ _ _ _ _ _ _) as [[root cfg]|]; [by eauto|done]. }
  destruct cmd; try done; try (by destruct (config_load _ _ _ _ _)).
  all: intros (root & cfg & Hc & H)%Hb; apply result_bind_ok in H as ([cfg'|code] & Hp & H); [|done];
    apply finish_Ok in H; apply phase2_kept in Hp; by eapply ready_intro.
Qed.

(** C27: Set-up hands the pipeline a command line that was validated, whose path
    targets all exist, with the root directory found from the first of them; under
    [debug] the mode is the debugger's and there is no timeout; and whatever the flags, the plugin flags and the path taken (plugin recovery
    included), the declared test tree, the file patterns and the skipped
    directories are those of the project's own table: nothing on the command
    line writes them. *)
Theorem setup_ready args inv sh : setup args inv = Ok (Ok sh) → ready inv sh.
Proof. apply setup_is_ready. Qed.

(** A target that does not exist is a usage error: exit code 4, and no pipeline. *)
Theorem setup_refuses_missing_targets args inv cmd use_gi pc p :
  resolve kind_of missing_subcommand try_parse_from "oxitest" args = Ok (cmd, use_gi) →
  validate_command cmd = Ok tt → from_command cmd = Some pc →
  p ∈ command_paths pc → exists_ p = false →
  setup args inv = Ok (Err ExitCode.UsageError).
Proof.
  intros Hr Hv Hpc Hin Hex. unfold Setup.setup. rewrite Hr, Hv.
  assert (configure cmd use_gi inv = Err ExitCode.UsageError) as Hc.
  { unfold Setup.configure, refuse_missing_targets. rewrite Hpc.
    assert (p ∈ missing_paths exists_ (command_paths pc)) as Hm
      by (apply filter_elem; split; [done|by rewrite Hex]).
    destruct (missing_paths _ _); [by apply not_elem_of_nil in Hm|done]. }
  rewrite Hc. by destruct cmd.
Qed.

(** A debug session never starts a worker: whatever the table says, the plan of
    its run is serial and holds every group. *)
Theorem debug_plan_is_serial args inv sh a groups workers overhead min_tests arranged dm dd disp est cpus :
  setup args inv = Ok (Ok sh) → sh_command sh = Debug a →
  plan_execution groups (mode (exec (sh_cfg sh))) workers overhead min_tests arranged dm dd disp est cpus
  = mk_plan Serial [] [] groups.
Proof. intros Hs Hc. by destruct (ready_debug _ _ (setup_is_ready _ _ _ Hs) a Hc) as [-> _]. Qed.
End SetupSpec.

(** ** Concrete instances *)

Example parse_f64_ex :
  map parse_f64 ["0.1"; "-2.5e-1"; "1e400"; ".5"; "."; "NaN"; "1e"]
  = [Some (S754_finite false 7205759403792794 (-56)); Some (S754_finite true 4503599627370496 (-54));
     Some (S754_infinity false); Some (S754_finite false 4503599627370496 (-53)); None; Some S754_nan; None].
Proof. vm_compute. reflexivity. Qed.

(** A parser that reads every command line as [run tests], a project in [/w]
    without a [pyproject.toml], and Python without plugins. *)
Abbreviation demo_setup :=
  (setup (py_error := unit) (λ _ : unit, OtherKind) tt
    (λ _, Ok {| no_use_gitignore := false; command := Some (Run (bare_run_args ["tests"] None)) |})
    (λ _ _, Err tt) (λ p, Some p) (λ p, String.eqb p "tests") (λ _, false) (λ _, None)
    (λ _, @Err toml unit tt) (λ _, Err InvalidType) (λ _ _, Err tt) (Ok "python")
    (λ _ _, true) true true ["tests"] "/w").

Definition is_ready {A B C} (r : result (result A B) C) : bool :=
  match r with Ok (Ok _) => true | _ => false end.

Lemma setup_ready_witness :
  ∃ sh, demo_setup = Ok (Ok sh) ∧
        ready (λ p, Some p) (λ p, String.eqb p "tests") (λ _, false) (λ _, None)
          (λ _, @Err toml unit tt) (λ _, Err InvalidType) "/w" sh.
Proof.
  assert (is_ready demo_setup = true) as Hr by (vm_compute; reflexivity).
  destruct demo_setup as [[sh|c]|e] eqn:E; [|discriminate Hr|discriminate Hr].
  exists sh. split; [reflexivity|]. exact (setup_ready _ _ _ _ _ _ _ _ _ _ _ _ _ _ _ _ _ _ E).
Defined.
