(* ===== verification/Ast.v ===== *)
(** * Ast: the Python syntax tree and [python_ast.rs]

    The tree is the one [rustpython_parser::ast] gives the runner, with the
    constructors the sources match on; every node carries its byte range.  The
    parser itself is not part of the repository: [parse] is a parameter of the
    functions that read a file.  The rest of the file is [python_ast.rs]: the
    line index, the walks over test definitions, the child relations of
    statements and expressions, and decorator marks. *)
From Stdlib Require Import Ascii.
From S2P Require Import Prelude Collections Text F64.

(** [x as u32] *)
Definition as_u32 (n : N) : N := (n mod 4294967296)%N.

Record range := { r_start : N; r_end : N }.

Inductive constant :=
  | CNone
  | CBool (b : bool)
  | CStr (s : string)
  | CBytes (bytes : list N)
  | CInt (n : Z)
  | CTuple (elts : list constant)
  | CFloat (x : f64)
  | CComplex (re im : f64)
  | CEllipsis.

(** The parts of an expression that are not expressions themselves. *)
Record arg_ (E : Type) := mk_arg { arg_name : string; arg_annotation : option E }.
Record arg_with_default (E : Type) := mk_awd { awd_def : arg_ E; awd_default : option E }.
Record arguments_ (E : Type) := mk_arguments {
  ag_posonlyargs : list (arg_with_default E);
  ag_args : list (arg_with_default E);
  ag_vararg : option (arg_ E);
  ag_kwonlyargs : list (arg_with_default E);
  ag_kwarg : option (arg_ E)
}.
Record keyword_ (E : Type) := mk_keyword { kw_arg : option string; kw_value : E }.
Record comprehension_ (E : Type) := mk_comprehension {
  comp_target : E;
  comp_iter : E;
  comp_ifs : list E
}.

Arguments mk_arg {E}. Arguments arg_name {E}. Arguments arg_annotation {E}.
Arguments mk_awd {E}. Arguments awd_def {E}. Arguments awd_default {E}.
Arguments mk_arguments {E}. Arguments ag_posonlyargs {E}. Arguments ag_args {E}.
Arguments ag_vararg {E}. Arguments ag_kwonlyargs {E}. Arguments ag_kwarg {E}.
Arguments mk_keyword {E}. Arguments kw_arg {E}. Arguments kw_value {E}.
Arguments mk_comprehension {E}. Arguments comp_target {E}. Arguments comp_iter {E}.
Arguments comp_ifs {E}.

Module Expr.

Inductive t :=
  | BoolOp (r : range) (values : list t)
  | NamedExpr (r : range) (target value : t)
  | BinOp (r : range) (left right : t)
  | UnaryOp (r : range) (operand : t)
  | Lambda (r : range) (params : arguments_ t) (body : t)
  | IfExp (r : range) (test body orelse : t)
  | Dict (r : range) (keys : list (option t)) (values : list t)
  | Set_ (r : range) (elts : list t)
  | ListComp (r : range) (elt : t) (generators : list (comprehension_ t))
  | SetComp (r : range) (elt : t) (generators : list (comprehension_ t))
  | DictComp (r : range) (key value : t) (generators : list (comprehension_ t))
  | GeneratorExp (r : range) (elt : t) (generators : list (comprehension_ t))
  | Await (r : range) (value : t)
  | Yield (r : range) (value : option t)
  | YieldFrom (r : range) (value : t)
  | Compare (r : range) (left : t) (comparators : list t)
  | Call (r : range) (func : t) (args : list t) (keywords : list (keyword_ t))
  | FormattedValue (r : range) (value : t) (format_spec : option t)
  | JoinedStr (r : range) (values : list t)
  | Constant (r : range) (value : constant)
  | Attribute (r : range) (value : t) (attr : string)
  | Subscript (r : range) (value slice : t)
  | Starred (r : range) (value : t)
  | Name (r : range) (id : string)
  | List (r : range) (elts : list t)
  | Tuple (r : range) (elts : list t)
  | Slice (r : range) (lower upper step : option t).

Definition range_of (e : t) : range :=
  match e with
  | BoolOp r _ | NamedExpr r _ _ | BinOp r _ _ | UnaryOp r _ | Lambda r _ _ | IfExp r _ _ _
  | Dict r _ _ | Set_ r _ | ListComp r _ _ | SetComp r _ _ | DictComp r _ _ _
  | GeneratorExp r _ _ | Await r _ | Yield r _ | YieldFrom r _ | Compare r _ _
  | Call r _ _ _ | FormattedValue r _ _ | JoinedStr r _ | Constant r _ | Attribute r _ _
  | Subscript r _ _ | Starred r _ | Name r _ | List r _ | Tuple r _ | Slice r _ _ _ => r
  end.

End Expr.

Abbreviation keyword := (keyword_ Expr.t).
Abbreviation arguments := (arguments_ Expr.t).
Abbreviation comprehension := (comprehension_ Expr.t).

(** The patterns of a [match] statement. *)
Inductive pattern :=
  | MatchValue (value : Expr.t)
  | MatchSingleton (value : constant)
  | MatchSequence (patterns : list pattern)
  | MatchMapping (keys : list Expr.t) (patterns : list pattern) (rest : option string)
  | MatchClass (cls : Expr.t) (patterns : list pattern) (kwd_attrs : list string)
      (kwd_patterns : list pattern)
  | MatchStar (name : option string)
  | MatchAs (pattern_ : option pattern) (name : option string)
  | MatchOr (patterns : list pattern).

Record alias := { al_name : string; al_asname : option string }.
Record with_item := { context_expr : Expr.t; optional_vars : option Expr.t }.

(** The parts of a statement that hold statements. *)
Record except_handler_ (S : Type) := mk_handler {
  eh_type : option Expr.t;
  eh_name : option string;
  eh_body : list S
}.
Record match_case_ (S : Type) := mk_case {
  mc_pattern : pattern;
  mc_guard : option Expr.t;
  mc_body : list S
}.
(** [StmtFunctionDef] and [StmtAsyncFunctionDef], which have the same fields. *)
Record fn_node_ (S : Type) := mk_fn {
  fn_range : range;
  fn_name : string;
  fn_args : arguments;
  fn_body : list S;
  fn_decorator_list : list Expr.t;
  fn_returns : option Expr.t
}.
Record class_node_ (S : Type) := mk_class {
  cls_range : range;
  cls_name : string;
  cls_bases : list Expr.t;
  cls_keywords : list keyword;
  cls_body : list S;
  cls_decorator_list : list Expr.t
}.

Arguments mk_handler {S}. Arguments eh_type {S}. Arguments eh_name {S}. Arguments eh_body {S}.
Arguments mk_case {S}. Arguments mc_pattern {S}. Arguments mc_guard {S}. Arguments mc_body {S}.
Arguments mk_fn {S}. Arguments fn_range {S}. Arguments fn_name {S}. Arguments fn_args {S}.
Arguments fn_body {S}. Arguments fn_decorator_list {S}. Arguments fn_returns {S}.
Arguments mk_class {S}. Arguments cls_range {S}. Arguments cls_name {S}.
Arguments cls_bases {S}. Arguments cls_keywords {S}. Arguments cls_body {S}.
Arguments cls_decorator_list {S}.

Module Stmt.

Inductive t :=
  | FunctionDef (f : fn_node_ t)
  | AsyncFunctionDef (f : fn_node_ t)
  | ClassDef (c : class_node_ t)
  | Return (r : range) (value : option Expr.t)
  | Delete (r : range) (targets : list Expr.t)
  | Assign (r : range) (targets : list Expr.t) (value : Expr.t)
  | TypeAlias (r : range) (name value : Expr.t)
  | AugAssign (r : range) (target value : Expr.t)
  | AnnAssign (r : range) (target annotation : Expr.t) (value : option Expr.t)
  | For (r : range) (target iter : Expr.t) (body orelse : list t)
  | AsyncFor (r : range) (target iter : Expr.t) (body orelse : list t)
  | While (r : range) (test : Expr.t) (body orelse : list t)
  | If (r : range) (test : Expr.t) (body orelse : list t)
  | With (r : range) (items : list with_item) (body : list t)
  | AsyncWith (r : range) (items : list with_item) (body : list t)
  | Match (r : range) (subject : Expr.t) (cases : list (match_case_ t))
  | Raise (r : range) (exc cause : option Expr.t)
  | Try (r : range) (body : list t) (handlers : list (except_handler_ t)) (orelse finalbody : list t)
  | TryStar (r : range) (body : list t) (handlers : list (except_handler_ t))
      (orelse finalbody : list t)
  | Assert (r : range) (test : Expr.t) (msg : option Expr.t)
  | Import (r : range) (names : list alias)
  | ImportFrom (r : range) (module : option string) (names : list alias) (level : option N)
  | Global (r : range) (names : list string)
  | Nonlocal (r : range) (names : list string)
  | Expr_ (r : range) (value : Expr.t)
  | Pass (r : range)
  | Break (r : range)
  | Continue (r : range).

Definition range_of (s : t) : range :=
  match s with
  | FunctionDef f | AsyncFunctionDef f => fn_range f
  | ClassDef c => cls_range c
  | Return r _ | Delete r _ | Assign r _ _ | TypeAlias r _ _ | AugAssign r _ _
  | AnnAssign r _ _ _ | For r _ _ _ _ | AsyncFor r _ _ _ _ | While r _ _ _ | If r _ _ _
  | With r _ _ | AsyncWith r _ _ | Match r _ _ | Raise r _ _ | Try r _ _ _ _
  | TryStar r _ _ _ _ | Assert r _ _ | Import r _ | ImportFrom r _ _ _ | Global r _
  | Nonlocal r _ | Expr_ r _ | Pass r | Break r | Continue r => r
  end.

End Stmt.

Abbreviation fn_node := (fn_node_ Stmt.t).
Abbreviation class_node := (class_node_ Stmt.t).
Abbreviation except_handler := (except_handler_ Stmt.t).
Abbreviation match_case := (match_case_ Stmt.t).

(** ** Lines: the byte-offset index *)

(** [source.bytes().enumerate()], keeping the positions of newlines. *)
Fixpoint newline_starts (i : N) (s : string) : list N :=
  match s with
  | "" => []
  | String a s => (if Ascii.eqb a "010" then [as_u32 (as_u32 i + 1)] else []) ++ newline_starts (N.succ i) s
  end.

Definition build_line_index (source : string) : list N := 0%N :: newline_starts 0 source.

(** [slice::binary_search] on a sorted slice: the position of the value, or the
    position where it would be inserted. *)
Definition binary_search (l : list N) (x : N) : result N N :=
  let i := N.of_nat (length (List.filter (λ y, (y <? x)%N) l)) in
  if existsb (N.eqb x) l then Ok i else Err i.

Definition offset_to_line (line_index : list N) (offset : N) : N :=
  match binary_search line_index offset with
  | Ok i => as_u32 (as_u32 i + 1)
  | Err i => as_u32 i
  end.

(** ** Reading and parsing a file *)

Inductive ParseFailure :=
  | Io (cause : string)
  | Parse (line : N) (cause : string).

(** The error [rustpython_parser] reports: a byte offset and a message. *)
Record ParseError := { pe_offset : N; pe_error : string }.

Section Parser.
(** [ast::Suite::parse] and [std::fs::read_to_string]. *)
Context (suite_parse : string → string → result (list Stmt.t) ParseError).
Context (read_to_string : string → result string string).

Definition parse_source (path source : string) : result (list Stmt.t) ParseFailure :=
  map_err (λ e,
    let offset := N.min (pe_offset e) (as_u32 (N.of_nat (String.length source) - 1)) in
    Parse (offset_to_line (build_line_index source) offset) (pe_error e))
  (suite_parse source path).

Definition try_parse_file (path : string) : result (string * list Stmt.t) ParseFailure :=
  match read_to_string path with
  | Err e => Err (Io e)
  | Ok source => result_bind (parse_source path source) (λ stmts, Ok (source, stmts))
  end.

Definition parse_file (path : string) : option (string * list Stmt.t) :=
  match try_parse_file path with Ok p => Some p | Err _ => None end.

End Parser.

(** ** Names *)

Definition is_test_fn (name : string) : bool := starts_with "test_" name.
Definition is_test_class (name : string) : bool := starts_with "Test" name.
Definition is_oxitest_namespace (s : string) : bool := String.eqb s "oxi" || String.eqb s "oxitest".

(** ** Function definitions *)

Inductive FnDef := Sync (f : fn_node) | Async (f : fn_node).

Definition try_from_stmt (s : Stmt.t) : option FnDef :=
  match s with
  | Stmt.FunctionDef f => Some (Sync f)
  | Stmt.AsyncFunctionDef f => Some (Async f)
  | _ => None
  end.

Definition def_node (d : FnDef) : fn_node := match d with Sync f | Async f => f end.
Definition def_name (d : FnDef) : string := match d with Sync f => fn_name f | Async f => fn_name f end.
Definition def_body (d : FnDef) : list Stmt.t :=
  match d with Sync f => fn_body f | Async f => fn_body f end.
Definition def_decorator_list (d : FnDef) : list Expr.t :=
  match d with Sync f => fn_decorator_list f | Async f => fn_decorator_list f end.
Definition def_args (d : FnDef) : arguments :=
  match d with Sync f => fn_args f | Async f => fn_args f end.
Definition def_range (d : FnDef) : range :=
  match d with Sync f => fn_range f | Async f => fn_range f end.
Definition def_is_async (d : FnDef) : bool := match d with Async _ => true | Sync _ => false end.

(** [walk_test_defs]: the definitions it visits, with the class they are in,
    in order. *)
Definition test_method (cls : class_node) (method : Stmt.t) : list (FnDef * option class_node) :=
  match try_from_stmt method with
  | Some def => if is_test_fn (def_name def) then [(def, Some cls)] else []
  | None => []
  end.

Definition walk_test_stmt (s : Stmt.t) : list (FnDef * option class_node) :=
  match try_from_stmt s with
  | Some def => if is_test_fn (def_name def) then [(def, None)] else []
  | None =>
      match s with
      | Stmt.ClassDef cls =>
          if is_test_class (cls_name cls) then flat_map (test_method cls) (cls_body cls) else []
      | _ => []
      end
  end.

Definition walk_test_defs (stmts : list Stmt.t) : list (FnDef * option class_node) :=
  flat_map walk_test_stmt stmts.

(** ** Children *)

Definition try_children (body : list Stmt.t) (handlers : list except_handler)
    (orelse finalbody : list Stmt.t) : list Stmt.t :=
  body ++ flat_map eh_body handlers ++ orelse ++ finalbody.

Definition compound_children (s : Stmt.t) : list Stmt.t :=
  match s with
  | Stmt.If _ _ body orelse => body ++ orelse
  | Stmt.While _ _ body orelse => body ++ orelse
  | Stmt.For _ _ _ body orelse => body ++ orelse
  | Stmt.AsyncFor _ _ _ body orelse => body ++ orelse
  | Stmt.With _ _ body => body
  | Stmt.AsyncWith _ _ body => body
  | Stmt.Try _ body handlers orelse finalbody => try_children body handlers orelse finalbody
  | Stmt.TryStar _ body handlers orelse finalbody => try_children body handlers orelse finalbody
  | Stmt.Match _ _ cases => flat_map mc_body cases
  | Stmt.ClassDef c => cls_body c
  | Stmt.FunctionDef f => fn_body f
  | Stmt.AsyncFunctionDef f => fn_body f
  | _ => []
  end.

Definition with_item_exprs (l : list with_item) : list Expr.t :=
  flat_map (λ item, context_expr item :: option_list (optional_vars item)) l.

Definition handler_exprs (handlers : list except_handler) : list Expr.t :=
  flat_map (λ h, option_list (eh_type h)) handlers.

Definition stmt_exprs (s : Stmt.t) : list Expr.t :=
  match s with
  | Stmt.Expr_ _ value => [value]
  | Stmt.Return _ value => option_list value
  | Stmt.Delete _ targets => targets
  | Stmt.Assign _ targets value => targets ++ [value]
  | Stmt.AugAssign _ target value => [target; value]
  | Stmt.AnnAssign _ target annotation value => [target; annotation] ++ option_list value
  | Stmt.If _ test _ _ => [test]
  | Stmt.While _ test _ _ => [test]
  | Stmt.For _ target iter _ _ => [target; iter]
  | Stmt.AsyncFor _ target iter _ _ => [target; iter]
  | Stmt.With _ l _ => with_item_exprs l
  | Stmt.AsyncWith _ l _ => with_item_exprs l
  | Stmt.Raise _ exc cause => option_list exc ++ option_list cause
  | Stmt.Assert _ test msg => test :: option_list msg
  | Stmt.Match _ subject _ => [subject]
  | Stmt.Try _ _ handlers _ _ => handler_exprs handlers
  | Stmt.TryStar _ _ handlers _ _ => handler_exprs handlers
  | Stmt.FunctionDef f => fn_decorator_list f
  | Stmt.AsyncFunctionDef f => fn_decorator_list f
  | Stmt.ClassDef c => cls_decorator_list c ++ cls_bases c
  | _ => []
  end.

Definition comprehension_exprs (generators : list comprehension) : list Expr.t :=
  flat_map (λ c, comp_target c :: comp_iter c :: comp_ifs c) generators.

Definition expr_children (e : Expr.t) : list Expr.t :=
  match e with
  | Expr.BoolOp _ values => values
  | Expr.NamedExpr _ target value => [target; value]
  | Expr.BinOp _ l r => [l; r]
  | Expr.UnaryOp _ operand => [operand]
  | Expr.Lambda _ _ body => [body]
  | Expr.IfExp _ test body orelse => [test; body; orelse]
  | Expr.Dict _ keys values => flat_map option_list keys ++ values
  | Expr.Set_ _ elts => elts
  | Expr.ListComp _ elt generators => elt :: comprehension_exprs generators
  | Expr.SetComp _ elt generators => elt :: comprehension_exprs generators
  | Expr.DictComp _ key value generators => key :: value :: comprehension_exprs generators
  | Expr.GeneratorExp _ elt generators => elt :: comprehension_exprs generators
  | Expr.Await _ value => [value]
  | Expr.Yield _ value => option_list value
  | Expr.YieldFrom _ value => [value]
  | Expr.Compare _ l comparators => l :: comparators
  | Expr.Call _ func args keywords => func :: args ++ map kw_value keywords
  | Expr.FormattedValue _ value format_spec => value :: option_list format_spec
  | Expr.JoinedStr _ values => values
  | Expr.Attribute _ value _ => [value]
  | Expr.Subscript _ value slice => [value; slice]
  | Expr.Starred _ value => [value]
  | Expr.List _ elts => elts
  | Expr.Tuple _ elts => elts
  | Expr.Slice _ lower upper step => option_list lower ++ option_list upper ++ option_list step
  | Expr.Constant _ _ | Expr.Name _ _ => []
  end.

(** ** Marks and stubs *)

Definition call_target (e : Expr.t) : Expr.t :=
  match e with Expr.Call _ func _ _ => func | other => other end.

Definition extract_mark_name (dec : Expr.t) : option string :=
  match call_target dec with
  | Expr.Attribute _ value mark_name =>
      if String.eqb mark_name "parametrize" then None
      else match value with
      | Expr.Attribute _ inner attr =>
          if negb (String.eqb attr "mark") then None
          else match inner with
          | Expr.Name _ id => if is_oxitest_namespace id then Some mark_name else None
          | _ => None
          end
      | _ => None
      end
  | _ => None
  end.

Definition is_stub_body (body : list Stmt.t) : bool :=
  match body with
  | [Stmt.Expr_ _ (Expr.Constant _ CEllipsis)] => true
  | _ => false
  end.

(** A [BTreeSet<String>] read back: sorted, without duplicates. *)
Definition btree_strings (l : list string) : list string :=
  dedup String.eqb (sort_by String.compare l).

Definition extract_decorator_marks (stmts : list Stmt.t) : list string :=
  btree_strings (flat_map (λ '(def, _), omap extract_mark_name (def_decorator_list def))
    (walk_test_defs stmts)).

(** ** Walks over statements

    The sources walk a body with an explicit stack: pop, look at the statement,
    push its children.  [walk_stmts] lists the statements in the order they are
    looked at; [prune] are the ones dropped without a look.  The fuel is the
    number of statements in the body, nested ones included. *)

(** The statements of a tree by structural recursion: a statement, then what is
    below it, none of it when the statement is pruned. *)
Fixpoint preorder (prune : Stmt.t → bool) (s : Stmt.t) : list Stmt.t :=
  if prune s then [] else s ::
  match s with
  | Stmt.If _ _ body orelse | Stmt.While _ _ body orelse
  | Stmt.For _ _ _ body orelse | Stmt.AsyncFor _ _ _ body orelse =>
      flat_map (preorder prune) body ++ flat_map (preorder prune) orelse
  | Stmt.With _ _ body | Stmt.AsyncWith _ _ body => flat_map (preorder prune) body
  | Stmt.Try _ body handlers orelse finalbody | Stmt.TryStar _ body handlers orelse finalbody =>
      flat_map (preorder prune) body ++
      flat_map (λ h, flat_map (preorder prune) (eh_body h)) handlers ++
      flat_map (preorder prune) orelse ++ flat_map (preorder prune) finalbody
  | Stmt.Match _ _ cases => flat_map (λ c, flat_map (preorder prune) (mc_body c)) cases
  | Stmt.ClassDef c => flat_map (preorder prune) (cls_body c)
  | Stmt.FunctionDef f | Stmt.AsyncFunctionDef f => flat_map (preorder prune) (fn_body f)
  | _ => []
  end.

Definition stmt_count (stack : list Stmt.t) : nat :=
  length (flat_map (preorder (λ _, false)) stack).

Fixpoint walk_loop (prune : Stmt.t → bool) (fuel : nat) (stack : list Stmt.t) : list Stmt.t :=
  match fuel with
  | 0 => []
  | S fuel =>
      match stack with
      | [] => []
      | s :: rest =>
          if prune s then walk_loop prune fuel rest
          else s :: walk_loop prune fuel (reverse (compound_children s) ++ rest)
      end
  end.

Definition walk_stmts (prune : Stmt.t → bool) (body : list Stmt.t) : list Stmt.t :=
  walk_loop prune (stmt_count body) (reverse body).

(** The nested functions a walk does not enter. *)
Definition is_function (s : Stmt.t) : bool :=
  match s with Stmt.FunctionDef _ | Stmt.AsyncFunctionDef _ => true | _ => false end.

(** ** Lines: what the index computes *)

(** The newlines among the first [off] bytes. *)
Fixpoint newlines_before (off : N) (s : string) : N :=
  match s with
  | "" => 0%N
  | String a s =>
      if (off =? 0)%N then 0%N
      else ((if Ascii.eqb a "010" then 1 else 0) + newlines_before (N.pred off) s)%N
  end.

Definition fits_u32 (source : string) : Prop := (N.of_nat (String.length source) < 4294967295)%N.

Lemma as_u32_small n : (n < 4294967296)%N → as_u32 n = n.
Proof. apply N.mod_small. Qed.

Lemma newlines_before_0 s : newlines_before 0 s = 0%N.
Proof. by destruct s. Qed.

Lemma newlines_before_le off s : (newlines_before off s ≤ N.of_nat (String.length s))%N.
Proof.
  revert off. induction s as [|a s IH]; intros off; simpl; [done|].
  destruct (off =? 0)%N; [lia|]. specialize (IH (N.pred off)). destruct (Ascii.eqb a "010"); lia.
Qed.

(** Entries below [x], and [x] itself: the newlines before [x]. *)
Lemma newline_starts_count i s x :
  (i + N.of_nat (String.length s) < 4294967296)%N →
  (N.of_nat (length (List.filter (λ y, (y <? x)%N) (newline_starts i s))) +
   (if existsb (N.eqb x) (newline_starts i s) then 1 else 0) = newlines_before (x - i) s)%N.
Proof.
  revert i. induction s as [|a s IH]; intros i Hi; [done|]. cbn [String.length] in Hi.
  specialize (IH (N.succ i) ltac:(lia)). simpl.
  replace (x - N.succ i)%N with (N.pred (x - i)) in IH by lia.
  destruct (Ascii.eqb a "010"); simpl.
  - rewrite !as_u32_small by (rewrite ?as_u32_small; lia).
    destruct (N.eqb_spec (x - i) 0) as [E|E].
    + rewrite E in IH. rewrite newlines_before_0 in IH.
      destruct (N.ltb_spec (i + 1) x); [lia|]. destruct (N.eqb_spec x (i + 1)); [lia|]. exact IH.
    + destruct (N.eqb_spec x (i + 1)) as [->|].
      * replace (N.pred (i + 1 - i)) with 0%N in * by lia. rewrite newlines_before_0 in *.
        destruct (N.ltb_spec (i + 1) (i + 1)); [lia|]. simpl.
        destruct (existsb _ _); lia.
      * destruct (N.ltb_spec (i + 1) x); [|lia]. simpl. rewrite <-IH. lia.
  - rewrite IH. destruct (N.eqb_spec (x - i) 0) as [->|]; [|done]. by rewrite newlines_before_0.
Qed.

(** The line of an offset is one more than the newlines before it. *)
Lemma offset_to_line_newlines source off :
  fits_u32 source →
  offset_to_line (build_line_index source) off = (newlines_before off source + 1)%N.
Proof.
  unfold fits_u32. intros Hlen. pose proof (newline_starts_count 0 source off ltac:(lia)) as Hc.
  rewrite N.sub_0_r in Hc. pose proof (newlines_before_le off source) as Hle.
  unfold offset_to_line, binary_search, build_line_index. simpl.
  destruct (N.eqb_spec off 0) as [->|Hoff]; simpl.
  - rewrite newlines_before_0 in Hc. rewrite newlines_before_0. simpl.
    replace (N.of_nat (length (List.filter (λ y, (y <? 0)%N) (newline_starts 0 source)))) with 0%N
      by lia. done.
  - destruct (N.ltb_spec 0 off); [|lia]. cbn [length]. rewrite Nat2N.inj_succ.
    destruct (existsb (N.eqb off) (newline_starts 0 source)); simpl;
      rewrite !as_u32_small by (rewrite ?as_u32_small; lia); lia.
Qed.

Lemma newlines_before_app off a b :
  newlines_before off (a +:+ b) =
  (newlines_before off a + newlines_before (off - N.of_nat (String.length a)) b)%N.
Proof.
  revert off. induction a as [|x a IH]; intros off.
  - rewrite str_app_nil_l. simpl. by rewrite N.sub_0_r.
  - rewrite str_app_cons. cbn [newlines_before String.length].
    destruct (N.eqb_spec off 0) as [->|].
    + by rewrite N.sub_0_l, newlines_before_0.
    + rewrite IH. replace (N.pred off - N.of_nat (String.length a))%N
        with (off - N.of_nat (S (String.length a)))%N by lia. lia.
Qed.

Lemma newlines_before_none off s : contains newline s = false → newlines_before off s = 0%N.
Proof.
  revert off. induction s as [|a s IH]; intros off; [done|].
  change newline with (String "010" ""). rewrite contains_char_cons. intros [Ha Hs]%orb_false_elim.
  simpl. destruct (off =? 0)%N; [done|]. rewrite Ascii.eqb_sym, Ha, IH by done. done.
Qed.

Lemma length_join_nil l : l ≠ [] → join newline l = "" → lines_of l = [].
Proof.
  destruct l as [|p [|q l]]; [done| |].
  - intros _. change (join newline [p]) with p. by intros ->.
  - intros _. rewrite join_cons by done. by destruct p.
Qed.

(** An offset inside a text is on one of its lines. *)
Lemma newlines_before_lines l off :
  l ≠ [] → Forall (λ p, contains newline p = false) l →
  (off ≤ N.of_nat (String.length (join newline l)) - 1)%N →
  (newlines_before off (join newline l) + 1 ≤ N.max 1 (N.of_nat (length (lines_of l))))%N.
Proof.
  intros Hl HF. revert off Hl. induction HF as [|p l Hp HF IH]; intros off Hl Hoff; [done|].
  destruct l as [|q l].
  - change (join newline [p]) with p. rewrite newlines_before_none by done. lia.
  - rewrite join_cons in Hoff |- * by done. rewrite !str_length_app in Hoff.
    rewrite !newlines_before_app, newlines_before_none by done.
    change (String.length newline) with 1%nat in Hoff.
    change (length (lines_of (p :: q :: l))) with (S (length (lines_of (q :: l)))).
    destruct (decide (off ≤ N.of_nat (String.length p))%N).
    { replace (off - N.of_nat (String.length p))%N with 0%N by lia.
      rewrite N.sub_0_l, !newlines_before_0. lia. }
    destruct (decide (join newline (q :: l) = "")) as [E|E]; [rewrite E in Hoff; cbn [String.length] in Hoff; lia|].
    specialize (IH (off - N.of_nat (String.length p) - 1)%N ltac:(done)).
    assert (String.length (join newline (q :: l)) ≠ 0%nat) by (by destruct (join newline (q :: l))).
    assert (length (lines_of (q :: l)) ≠ 0%nat) as Hne.
    { intros H0%length_zero_iff_nil. revert E H0. clear. revert q.
      induction l as [|r l IH]; intros q; [change (join newline [q]) with q; simpl;
        by destruct (String.eqb_spec q "")|]. done. }
    assert (newlines_before (off - N.of_nat (String.length p)) newline ≤ 1)%N
      by (apply (newlines_before_le _ newline)).
    change (N.of_nat (String.length newline)) with 1%N. lia.
Qed.

(** A syntax error names a line of the file, for any offset the parser
    reports: 1 for an empty file, and never past the last line. *)
Theorem parse_failure_line_exists suite_parse path source line cause :
  fits_u32 source →
  parse_source suite_parse path source = Err (Parse line cause) →
  (1 ≤ line ≤ N.max 1 (N.of_nat (length (str_lines source))))%N.
Proof.
  intros Hfit. unfold parse_source. destruct (suite_parse source path) as [stmts|e]; [done|].
  intros [= <- _]. rewrite offset_to_line_newlines by done. split; [lia|].
  unfold str_lines. rewrite <-(join_split newline source) at 2.
  apply newlines_before_lines; [apply split_fuel_nonnil| |].
  - apply Forall_forall. apply split_char_parts.
  - rewrite join_split. unfold fits_u32 in Hfit. rewrite as_u32_small by lia. lia.
Qed.

Lemma parse_failure_line_exists_witness :
  let bad _ _ := Err {| pe_offset := 99; pe_error := "unexpected EOF" |} in
  let source := "x = (" +:+ newline +:+ "y" +:+ newline in
  parse_source bad "a.py" source = Err (Parse 2 "unexpected EOF") ∧
  (1 ≤ 2 ≤ N.max 1 (N.of_nat (length (str_lines source))))%N.
Proof.
  split; [reflexivity|].
  apply (parse_failure_line_exists (λ _ _, Err {| pe_offset := 99; pe_error := "unexpected EOF" |})
    "a.py" _ 2 "unexpected EOF"); [unfold fits_u32; simpl; lia | reflexivity].
Defined.

(** ** Walks: the stack visits what recursion visits *)

Lemma preorder_unfold prune s :
  preorder prune s = if prune s then [] else s :: flat_map (preorder prune) (compound_children s).
Proof.
  destruct s; simpl; unfold try_children; destruct (prune _);
    rewrite ?flat_map_app, ?flat_map_flat_map; done.
Qed.

Lemma stmt_count_cons s stack :
  stmt_count (s :: stack) = S (stmt_count (compound_children s) + stmt_count stack).
Proof. unfold stmt_count. simpl. rewrite preorder_unfold, length_app. done. Qed.

Lemma stmt_count_app a b : stmt_count (a ++ b) = (stmt_count a + stmt_count b)%nat.
Proof. unfold stmt_count. by rewrite flat_map_app, length_app. Qed.

Lemma stmt_count_reverse a : stmt_count (reverse a) = stmt_count a.
Proof. unfold stmt_count. by rewrite (flat_map_perm _ _ _ (reverse_Permutation a)). Qed.

Lemma walk_loop_perm prune fuel stack :
  stmt_count stack ≤ fuel → walk_loop prune fuel stack ≡ₚ flat_map (preorder prune) stack.
Proof.
  revert stack. induction fuel as [|fuel IH]; intros [|s rest] Hf; simpl; try done.
  { rewrite stmt_count_cons in Hf. lia. }
  rewrite stmt_count_cons in Hf. rewrite preorder_unfold. destruct (prune s); simpl.
  - apply IH. lia.
  - constructor. rewrite IH by (rewrite stmt_count_app, stmt_count_reverse; lia).
    rewrite flat_map_app. by rewrite (flat_map_perm _ _ _ (reverse_Permutation _)).
Qed.

(** The explicit stack visits each statement recursion visits, once. *)
Lemma walk_stmts_perm prune body : walk_stmts prune body ≡ₚ flat_map (preorder prune) body.
Proof.
  unfold walk_stmts. rewrite walk_loop_perm by by rewrite stmt_count_reverse.
  apply flat_map_perm, reverse_Permutation.
Qed.

(** The statements of a body that no pruned statement holds. *)
Inductive under (prune : Stmt.t → bool) (body : list Stmt.t) : Stmt.t → Prop :=
  | under_top s : s ∈ body → prune s = false → under prune body s
  | under_child s c :
      under prune body s → c ∈ compound_children s → prune c = false → under prune body c.

Lemma under_trans prune body s c :
  under prune body s → under prune (compound_children s) c → under prune body c.
Proof. intros Hs. induction 1; [by eapply under_child|]. by eapply under_child. Qed.

Lemma under_elem prune body s : under prune body s ↔
  ∃ x, x ∈ body ∧ prune x = false ∧ (s = x ∨ under prune (compound_children x) s).
Proof.
  split.
  - induction 1 as [s Hs Hp|s c Hu (x & Hx & Hp & Hsx) Hc Hpc]; [eauto 6|].
    exists x. split_and!; [done..|]. right. destruct Hsx as [->|Hsx].
    + by apply under_top.
    + by eapply under_child.
  - intros (x & Hx & Hp & [->|Hu]); [by apply under_top|].
    eapply under_trans; [by apply under_top|done].
Qed.

Lemma elem_of_preorder_forest prune body s n :
  stmt_count body ≤ n → s ∈ flat_map (preorder prune) body ↔ under prune body s.
Proof.
  revert body. induction n as [|n IH]; intros body Hn; rewrite under_elem, flat_map_elem.
  - destruct body as [|x body]; [set_solver|]. rewrite stmt_count_cons in Hn. lia.
  - apply exist_proper. intros x. split.
    + intros [Hx Hs]. split; [done|]. rewrite preorder_unfold in Hs.
      destruct (prune x) eqn:E; [set_solver|]. split; [done|].
      apply elem_of_cons in Hs as [?|Hs]; [auto|]. right. apply IH; [|done].
      apply list_elem_of_split in Hx as (l1 & l2 & ->).
      rewrite stmt_count_app, stmt_count_cons in Hn. lia.
    + intros (Hx & E & Hs). split; [done|]. rewrite preorder_unfold, E. apply elem_of_cons.
      destruct Hs as [?|Hs]; [auto|]. right. apply IH; [|done].
      apply list_elem_of_split in Hx as (l1 & l2 & ->).
      rewrite stmt_count_app, stmt_count_cons in Hn. lia.
Qed.

Lemma elem_of_walk_stmts prune body s : s ∈ walk_stmts prune body ↔ under prune body s.
Proof. rewrite walk_stmts_perm. by eapply elem_of_preorder_forest. Qed.
