(* ===== verification/Prescan.v ===== *)
(** * Prescan: what a file declares, read off its syntax ([src/prescan.rs])

    The prescan reads a test file or a fixture module without importing it:
    markers and parameters of each test, the [fx.] accesses of its body, an
    estimate of its weight, the patterns that make a module's tests dynamic, and
    the fixture declarations of [__fixtures__.py] and [__init__.py].  With it the
    [prescan] transition of [pipeline/transitions/files_collected.rs], which
    gathers the results of every file, and the strict checks that read the same
    tree: [bare_asserts.rs], [module_defs.rs], [test_returns.rs].

    The parser and the file system are parameters, as in [Ast.v]; the set of
    standard-library module names is the value of the [STDLIB_NAMES] cell. *)
From Stdlib Require Import Ascii.
From S2P Require Import Prelude Collections Text F64 Paths Types Cache Filter Strict Ast.

(** ** Markers and parameters *)

Fixpoint is_literal_expr (e : Expr.t) : bool :=
  match e with
  | Expr.Constant _ _ => true
  | Expr.Tuple _ elts => forallb is_literal_expr elts
  | Expr.List _ elts => forallb is_literal_expr elts
  | Expr.Set_ _ elts => forallb is_literal_expr elts
  | Expr.Dict _ keys values =>
      forallb (λ k, match k with Some k => is_literal_expr k | None => false end) keys
      && forallb is_literal_expr values
  | _ => false
  end.

Definition extract_prescan_marker (dec : Expr.t) : option PrescanMarker :=
  match extract_mark_name dec with
  | None => None
  | Some name =>
      let has_dynamic_args :=
        match dec with
        | Expr.Call _ _ args keywords =>
            existsb (λ a, negb (is_literal_expr a)) args
            || existsb (λ kw, negb (is_literal_expr (kw_value kw))) keywords
        | _ => false
        end in
      Some {| pm_name := name; pm_has_dynamic_args := has_dynamic_args |}
  end.

Definition names_oxitest (e : Expr.t) : bool :=
  match e with Expr.Name _ id => is_oxitest_namespace id | _ => false end.

Definition is_parametrize_call (func : Expr.t) : bool :=
  match func with
  | Expr.Attribute _ value attr =>
      String.eqb attr "parametrize" &&
      (names_oxitest value
       || match value with
          | Expr.Attribute _ inner attr' => String.eqb attr' "mark" && names_oxitest inner
          | _ => false
          end
       || match value with Expr.Name _ id => String.eqb id "mark" | _ => false end)
  | _ => false
  end.

Definition extract_parametrize_kwarg_names (decorators : list Expr.t) : list string :=
  flat_map (λ dec,
    match dec with
    | Expr.Call _ func _ keywords => if is_parametrize_call func then omap kw_arg keywords else []
    | _ => []
    end) decorators.

Definition is_fixture_annotation (e : Expr.t) : bool :=
  match e with
  | Expr.Subscript _ value _ =>
      match value with
      | Expr.Name _ id => String.eqb id "Fixture"
      | Expr.Attribute _ v attr => String.eqb attr "Fixture" && names_oxitest v
      | _ => false
      end
  | _ => false
  end.

Definition is_fixtures_proxy_annotation (e : Expr.t) : bool :=
  match e with
  | Expr.Name _ id => String.eqb id "Fixtures"
  | Expr.Attribute _ v attr => String.eqb attr "Fixtures" && names_oxitest v
  | _ => false
  end.

(** The loop both extractors run, over the positional-or-keyword and the
    keyword-only parameters. *)
Definition annotated_params (p : Expr.t → bool) (a : arguments) : list string :=
  omap (λ arg, match arg_annotation (awd_def arg) with
               | Some annotation => if p annotation then Some (arg_name (awd_def arg)) else None
               | None => None
               end) (ag_args a ++ ag_kwonlyargs a).

Definition extract_fixture_param_names (a : arguments) : list string :=
  annotated_params is_fixture_annotation a.

Definition extract_proxy_param_names (a : arguments) : list string :=
  annotated_params is_fixtures_proxy_annotation a.

(** ** [fx.] accesses *)

Definition line_at (line_index : list N) (offset : N) : nat :=
  N.to_nat (offset_to_line line_index offset).

Definition is_proxy_root (proxy_params : list string) (candidate : Expr.t) : bool :=
  match candidate with
  | Expr.Name _ id => existsb (λ param, String.eqb param id) proxy_params
  | _ => false
  end.

(** The access rooted at an expression: the qualified form first, then the
    shortcut. *)
Definition fx_access (proxy_params : list string) (line_index : list N) (e : Expr.t)
    : option FxUsage :=
  match e with
  | Expr.Attribute r value attr =>
      let lineno := line_at line_index (r_start r) in
      let shortcut :=
        if is_proxy_root proxy_params value
        then Some {| fx_namespace := None; fx_name := attr; fx_lineno := lineno |} else None in
      match value with
      | Expr.Attribute _ inner ns =>
          if is_proxy_root proxy_params inner
          then Some {| fx_namespace := Some ns; fx_name := attr; fx_lineno := lineno |}
          else shortcut
      | _ => shortcut
      end
  | _ => None
  end.

(** [collect_fx_usages] recurses on [expr_children]; the fuel is the number of
    nodes below the expression. *)
Fixpoint expr_size (e : Expr.t) : nat :=
  let many := sum_list_with expr_size in
  let maybe := from_option expr_size 0 in
  let gens := sum_list_with (λ c,
    expr_size (comp_target c) + expr_size (comp_iter c) + sum_list_with expr_size (comp_ifs c)) in
  S match e with
  | Expr.BoolOp _ l | Expr.Set_ _ l | Expr.JoinedStr _ l | Expr.List _ l | Expr.Tuple _ l => many l
  | Expr.NamedExpr _ a b | Expr.BinOp _ a b | Expr.Subscript _ a b => expr_size a + expr_size b
  | Expr.UnaryOp _ a | Expr.Lambda _ _ a | Expr.Await _ a | Expr.YieldFrom _ a
  | Expr.Attribute _ a _ | Expr.Starred _ a => expr_size a
  | Expr.IfExp _ a b c => expr_size a + expr_size b + expr_size c
  | Expr.Dict _ ks vs => sum_list_with (λ k, from_option expr_size 0 k) ks + many vs
  | Expr.ListComp _ a g | Expr.SetComp _ a g | Expr.GeneratorExp _ a g => expr_size a + gens g
  | Expr.DictComp _ a b g => expr_size a + expr_size b + gens g
  | Expr.Yield _ a => maybe a
  | Expr.Compare _ a l => expr_size a + many l
  | Expr.Call _ f l ks => expr_size f + many l + sum_list_with (λ k, expr_size (kw_value k)) ks
  | Expr.FormattedValue _ a b => expr_size a + maybe b
  | Expr.Slice _ a b c => maybe a + maybe b + maybe c
  | Expr.Constant _ _ | Expr.Name _ _ => 0
  end.

Fixpoint collect_fx_loop (proxy_params : list string) (line_index : list N) (fuel : nat)
    (e : Expr.t) : list FxUsage :=
  match fuel with
  | 0 => []
  | S fuel =>
      match fx_access proxy_params line_index e with
      | Some usage => [usage]
      | None => flat_map (collect_fx_loop proxy_params line_index fuel) (expr_children e)
      end
  end.

Definition collect_fx_usages (e : Expr.t) (proxy_params : list string) (line_index : list N)
    : list FxUsage :=
  collect_fx_loop proxy_params line_index (expr_size e) e.

Definition extract_fx_usages (body : list Stmt.t) (proxy_params : list string)
    (line_index : list N) : list FxUsage :=
  match proxy_params with
  | [] => []
  | _ :: _ =>
      flat_map (λ s, flat_map (λ e, collect_fx_usages e proxy_params line_index) (stmt_exprs s))
        (walk_stmts (λ _, false) body)
  end.

(** ** Dynamic collection *)

Definition is_name (id : string) (e : Expr.t) : bool :=
  match e with Expr.Name _ x => String.eqb x id | _ => false end.

Definition is_dynamic_call (e : Expr.t) : bool :=
  match e with
  | Expr.Call _ func _ _ => is_name "exec" func || is_name "eval" func
  | _ => false
  end.

Definition is_globals_subscript (e : Expr.t) : bool :=
  match e with
  | Expr.Subscript _ value _ =>
      match value with Expr.Call _ func _ _ => is_name "globals" func | _ => false end
  | _ => false
  end.

Definition is_type_metaclass_call (e : Expr.t) : bool :=
  match e with
  | Expr.Call _ func args _ => is_name "type" func && (3 <=? length args)
  | _ => false
  end.

Definition has_exec_eval_call (s : Stmt.t) : bool :=
  match s with
  | Stmt.Expr_ _ value => is_dynamic_call value
  | Stmt.Assign _ _ value => is_dynamic_call value
  | _ => false
  end.

Definition has_globals_injection (s : Stmt.t) : bool :=
  match s with
  | Stmt.Expr_ _ value => is_globals_subscript value
  | Stmt.Assign _ targets value => is_globals_subscript value || existsb is_globals_subscript targets
  | _ => false
  end.

Definition has_type_metaclass_creation (s : Stmt.t) : bool :=
  match s with Stmt.Assign _ _ value => is_type_metaclass_call value | _ => false end.

Definition has_getattr_definition (s : Stmt.t) : bool :=
  match try_from_stmt s with Some d => String.eqb (def_name d) "__getattr__" | None => false end.

(** The part of a dotted name before its first dot. *)
Definition top_level (module : string) : string :=
  match split "." module with top :: _ => top | [] => module end.

(** [init_stdlib_names]: the first call fills the cell, with the empty set when
    [sys.stdlib_module_names] cannot be read; later calls change nothing. *)
Definition init_stdlib_names (cell : option (gset string)) (read : result (gset string) string)
    : option (gset string) :=
  match cell with
  | Some s => Some s
  | None => Some match read with Ok s => s | Err _ => ∅ end
  end.

Section Stdlib.
Context (stdlib : option (gset string)).

Definition is_stdlib_module (module : string) : bool :=
  match stdlib with Some s => bool_decide (top_level module ∈ s) | None => false end.

Definition has_nonstdlib_star_import (s : Stmt.t) : bool :=
  match s with
  | Stmt.ImportFrom _ module [a] _ =>
      String.eqb (al_name a) "*" && negb (is_stdlib_module (default "" module))
  | _ => false
  end.

Definition detect_dynamic_collection (stmts : list Stmt.t) : bool :=
  existsb (λ s, has_exec_eval_call s || has_globals_injection s || has_type_metaclass_creation s
    || has_getattr_definition s || has_nonstdlib_star_import s) stmts.
End Stdlib.

(** ** Module marks *)

Definition extract_mark_from_value (e : Expr.t) : option string :=
  match call_target e with
  | Expr.Attribute _ value mark_name =>
      match value with
      | Expr.Name _ id => if String.eqb id "mark" then Some mark_name else None
      | Expr.Attribute _ inner attr =>
          if String.eqb attr "mark" && names_oxitest inner then Some mark_name else None
      | _ => None
      end
  | _ => None
  end.

Definition extract_module_marks (stmts : list Stmt.t) : list string :=
  flat_map (λ s,
    match s with
    | Stmt.Assign _ [Expr.Name _ id] value =>
        if String.eqb id "oxi_mark" then
          option_list (extract_mark_from_value value) ++
          match value with
          | Expr.List _ elts => omap extract_mark_from_value elts
          | Expr.Tuple _ elts => omap extract_mark_from_value elts
          | _ => []
          end
        else []
    | _ => []
    end) stmts.

(** ** Weights *)

Definition HEAVY_IMPORT_PACKAGES : list string :=
  ["requests"; "httpx"; "aiohttp"; "sqlalchemy"; "django"; "boto3"; "psycopg2"; "pymongo";
   "selenium"; "playwright"].

Definition f64_nat (n : nat) : f64 := f64_of_Z (Z.of_nat n).

Definition is_known_sleep (func : Expr.t) : bool :=
  match func with
  | Expr.Attribute _ value attr => String.eqb attr "sleep" && (is_name "time" value || is_name "asyncio" value)
  | _ => false
  end.

Definition sleep_call_weight (e : Expr.t) : f64 :=
  match e with
  | Expr.Call _ func args _ =>
      if is_known_sleep func then
        match args with
        | Expr.Constant _ (CFloat f) :: _ => f64_mul f (f64_of_Z 1000)
        | Expr.Constant _ (CInt i) :: _ => f64_mul (f64_of_Z i) (f64_of_Z 1000)
        | _ => f64_of_Z 50
        end
      else f64_zero
  | _ => f64_zero
  end.

Definition stmt_sleep (s : Stmt.t) : option f64 :=
  match s with
  | Stmt.Expr_ _ (Expr.Await _ value) => Some (sleep_call_weight value)
  | Stmt.Expr_ _ other => Some (sleep_call_weight other)
  | _ => None
  end.

Definition compute_body_weight (body : list Stmt.t) (is_async : bool) (fixture_count : nat)
    (heavy_import_weight : f64) : f64 :=
  let visited := walk_stmts is_function body in
  let sleep_weight := fold_left f64_add (omap stmt_sleep visited) f64_zero in
  f64_add (f64_add (f64_add (f64_add (f64_add (f64_of_Z 2) sleep_weight)
    (if is_async then f64_of_Z 10 else f64_zero))
    (f64_mul (f64_nat fixture_count) (f64_of_Z 3)))
    (f64_div (f64_nat (length visited)) (f64_of_Z 10)))
    heavy_import_weight.

Definition is_heavy (top : string) : bool := existsb (String.eqb top) HEAVY_IMPORT_PACKAGES.

Definition imports_heavy (s : Stmt.t) : bool :=
  match s with
  | Stmt.Import _ l => existsb (λ a, is_heavy (top_level (al_name a))) l
  | Stmt.ImportFrom _ module _ _ => is_heavy (top_level (default "" module))
  | _ => false
  end.

Definition heavy_import_weight (stmts : list Stmt.t) : f64 :=
  if existsb imports_heavy stmts then f64_of_Z 20 else f64_zero.

(** ** One test, one file *)

Definition build_prescan_item (def : FnDef) (class_name : option string) (line_index : list N)
    (heavy_import_wt : f64) : PrescanItem :=
  let fixture_params := extract_fixture_param_names (def_args def) in
  let proxy_params := extract_proxy_param_names (def_args def) in
  {| pi_fn_name := def_name def;
     pi_lineno := line_at line_index (r_start (def_range def));
     pi_is_async := def_is_async def;
     pi_markers := omap extract_prescan_marker (def_decorator_list def);
     pi_param_ids := extract_parametrize_kwarg_names (def_decorator_list def);
     pi_fixture_params := fixture_params;
     pi_fx_usages := extract_fx_usages (def_body def) proxy_params line_index;
     pi_is_class_method := bool_decide (is_Some class_name);
     pi_class_name := class_name;
     pi_body_weight :=
       compute_body_weight (def_body def) (def_is_async def) (length fixture_params) heavy_import_wt |}.

Record PrescanPayload := {
  pp_source : string;
  pp_stmts : list Stmt.t;
  pp_items : list PrescanItem;
  pp_has_dynamic_collection : bool;
  pp_module_markers : list string;
  pp_fingerprint : Z;
  pp_has_fixture_shaped_decorator : bool
}.

Inductive PrescanResult :=
  | HasTests (p : PrescanPayload)
  | NoTests
  | TestsUnavailable.

Record PrescanDeclaration := {
  decl_fn_name : string;
  decl_lineno : nat;
  decl_lifetime : string;
  decl_is_async : bool
}.

Definition LIFETIME_PACKAGE : string := "package".
Definition LIFETIME_PROCESS : string := "process".

Inductive PrescanFixtureResult :=
  | HasFixtures (declarations : list PrescanDeclaration)
  | NoFixtures (has_decorated_functions : bool)
  | FixturesUnavailable (reason : ParseFailure).

(** ** Fixture declarations *)

Definition is_fixture_call (func : Expr.t) : bool :=
  match func with
  | Expr.Attribute _ value attr => if negb (String.eqb attr "fixture") then false else names_oxitest value
  | Expr.Name _ id => String.eqb id "fixture"
  | _ => false
  end.

Definition extract_fixture_decorator_lifetime (dec : Expr.t) : option string :=
  match dec with
  | Expr.Call _ func args keywords =>
      if negb (is_fixture_call func) then None
      else match args with
      | _ :: _ => None
      | [] =>
          match List.find (λ kw, match kw_arg kw with
                                 | Some arg => String.eqb arg "lifetime"
                                 | None => false
                                 end) keywords with
          | None => None
          | Some kw =>
              match kw_value kw with
              | Expr.Constant _ (CStr s) => Some s
              | _ => None
              end
          end
      end
  | _ => None
  end.

Definition collect_declarations (stmts : list Stmt.t) (line_index : list N)
    : list PrescanDeclaration :=
  omap (λ s,
    match try_from_stmt s with
    | None => None
    | Some def =>
        match find_map extract_fixture_decorator_lifetime (def_decorator_list def) with
        | Some lifetime =>
            Some {| decl_fn_name := def_name def;
                    decl_lineno := line_at line_index (r_start (def_range def));
                    decl_lifetime := lifetime;
                    decl_is_async := def_is_async def |}
        | None => None
        end
    end) stmts.

Definition is_fixture_shaped (dec : Expr.t) : bool :=
  match dec with
  | Expr.Call _ func _ _ =>
      match func with
      | Expr.Attribute _ _ attr => String.eqb attr "fixture"
      | Expr.Name _ id => String.eqb id "fixture"
      | _ => false
      end
  | _ => false
  end.

(** The decorators of a top-level function, none for another statement. *)
Definition fn_decorators (s : Stmt.t) : list Expr.t :=
  match s with
  | Stmt.FunctionDef f => fn_decorator_list f
  | Stmt.AsyncFunctionDef f => fn_decorator_list f
  | _ => []
  end.

Definition has_fixture_shaped_decorator (stmts : list Stmt.t) : bool :=
  existsb (λ s, existsb is_fixture_shaped (fn_decorators s)) stmts.

Section Files.
Context (suite_parse : string → string → result (list Stmt.t) ParseError).
Context (read_to_string : string → result string string).
Context (stdlib : option (gset string)).

Definition prescan_with_ast (path : string) (keep_ast : bool) : PrescanResult :=
  match parse_file suite_parse read_to_string path with
  | None => TestsUnavailable
  | Some (source, stmts) =>
      let line_index := build_line_index source in
      let heavy_import_wt := heavy_import_weight stmts in
      let l := map (λ '(def, class_opt),
        build_prescan_item def (cls_name <$> class_opt) line_index heavy_import_wt)
        (walk_test_defs stmts) in
      match l with
      | [] => NoTests
      | _ :: _ =>
          HasTests {| pp_source := if keep_ast then source else "";
                      pp_stmts := if keep_ast then stmts else [];
                      pp_items := l;
                      pp_has_dynamic_collection := detect_dynamic_collection stdlib stmts;
                      pp_module_markers := extract_module_marks stmts;
                      pp_fingerprint := from_source source;
                      pp_has_fixture_shaped_decorator := has_fixture_shaped_decorator stmts |}
      end
  end.

Definition prescan_fixture_module_from_source (path source : string) : PrescanFixtureResult :=
  match parse_source suite_parse path source with
  | Err failure => FixturesUnavailable failure
  | Ok stmts =>
      match collect_declarations stmts (build_line_index source) with
      | [] => NoFixtures (existsb (λ s, match fn_decorators s with [] => false | _ => true end) stmts)
      | declarations => HasFixtures declarations
      end
  end.

Definition prescan_fixture_module (path : string) : PrescanFixtureResult :=
  match read_to_string path with
  | Err e => FixturesUnavailable (Io e)
  | Ok source => prescan_fixture_module_from_source path source
  end.

(** ** The [prescan] transition: one pass over the files *)

Context (exists_ : string → bool).

Record Prescanned := {
  ps_data : list (PrescanModule * option PrescanFixtureResult);
  ps_module_markers : list (string * list string);
  ps_ast_weight_sum : f64;
  ps_fx_usages : list (string * list FxUsage)
}.

Definition sibling_fixtures (file : string) : option PrescanFixtureResult :=
  match path_parent file with
  | Some dir =>
      let p := path_join dir "__fixtures__.py" in
      if exists_ p then Some (prescan_fixture_module p) else None
  | None => None
  end.

(** [map.insert(file, v)], for the keys of one pass. *)
Definition put_path {V} (file : string) (v : V) (m : list (string * V)) : list (string * V) :=
  List.filter (λ kv, negb (path_eqb kv.1 file)) m ++ [(file, v)].

Definition put_some {V} (file : string) (v : list V) (m : list (string * list V))
    : list (string * list V) :=
  match v with [] => m | _ => put_path file v m end.

Definition prescan_step (st : Prescanned) (file : string) : Prescanned :=
  match prescan_with_ast file false with
  | HasTests p =>
      {| ps_data := ps_data st ++
           [({| pmod_path := file; pmod_items := pp_items p;
                pmod_has_dynamic_collection := pp_has_dynamic_collection p |},
             sibling_fixtures file)];
         ps_module_markers := put_some file (pp_module_markers p) (ps_module_markers st);
         ps_ast_weight_sum :=
           fold_left f64_add (map pi_body_weight (pp_items p)) (ps_ast_weight_sum st);
         ps_fx_usages := put_some file (flat_map pi_fx_usages (pp_items p)) (ps_fx_usages st) |}
  | NoTests => st
  | TestsUnavailable =>
      {| ps_data := ps_data st ++
           [({| pmod_path := file; pmod_items := []; pmod_has_dynamic_collection := true |},
             sibling_fixtures file)];
         ps_module_markers := ps_module_markers st;
         ps_ast_weight_sum := ps_ast_weight_sum st;
         ps_fx_usages := ps_fx_usages st |}
  end.

(** [Pipeline::prescan], and [shared.ast_weight]. *)
Definition prescan (test_files : list string) : Prescanned :=
  fold_left prescan_step test_files
    {| ps_data := []; ps_module_markers := []; ps_ast_weight_sum := f64_zero; ps_fx_usages := [] |}.

Definition ast_weight (st : Prescanned) : option f64 :=
  if f64_gt (ps_ast_weight_sum st) f64_zero then Some (ps_ast_weight_sum st) else None.

End Files.

(** * Theorems *)

(** ** [fx.] accesses *)

Lemma sum_flat_map {A B} (f : B → nat) (g : A → list B) l :
  sum_list_with f (flat_map g l) = sum_list_with (λ x, sum_list_with f (g x)) l.
Proof. induction l as [|x l IH]; simpl; [done|]. by rewrite sum_list_with_app, IH. Qed.

Lemma sum_map {A B} (f : B → nat) (g : A → B) l :
  sum_list_with f (map g l) = sum_list_with (λ x, f (g x)) l.
Proof. induction l as [|x l IH]; simpl; [done|]. by rewrite IH. Qed.

Lemma sum_ext {A} (f g : A → nat) l : (∀ x, f x = g x) → sum_list_with f l = sum_list_with g l.
Proof. intros Hfg. induction l as [|x l IH]; simpl; [done|]. by rewrite Hfg, IH. Qed.

Lemma sum_option (o : option Expr.t) : sum_list_with expr_size (option_list o) = from_option expr_size 0 o.
Proof. destruct o; simpl; lia. Qed.

Lemma sum_options (l : list (option Expr.t)) :
  sum_list_with expr_size (flat_map option_list l) = sum_list_with (λ k, from_option expr_size 0 k) l.
Proof. rewrite sum_flat_map. apply sum_ext, sum_option. Qed.

Lemma sum_comprehensions (l : list comprehension) :
  sum_list_with expr_size (comprehension_exprs l) = sum_list_with (λ c,
    expr_size (comp_target c) + expr_size (comp_iter c) + sum_list_with expr_size (comp_ifs c)) l.
Proof. unfold comprehension_exprs. rewrite sum_flat_map. apply sum_ext. intros c. simpl. lia. Qed.

Lemma expr_size_children e : expr_size e = S (sum_list_with expr_size (expr_children e)).
Proof.
  destruct e; simpl;
    rewrite ?sum_list_with_app, ?sum_options, ?sum_option, ?sum_map, ?sum_comprehensions; lia.
Qed.

Lemma expr_size_child e c : c ∈ expr_children e → expr_size c < expr_size e.
Proof.
  intros (l1 & l2 & Hl)%list_elem_of_split. rewrite (expr_size_children e), Hl.
  rewrite sum_list_with_app. simpl. lia.
Qed.

(** An access is found in an expression by descending through the
    sub-expressions that are not accesses themselves. *)
Inductive reads (proxy_params : list string) (line_index : list N) : Expr.t → FxUsage → Prop :=
  | reads_here e u : fx_access proxy_params line_index e = Some u → reads proxy_params line_index e u
  | reads_child e c u :
      fx_access proxy_params line_index e = None → c ∈ expr_children e →
      reads proxy_params line_index c u → reads proxy_params line_index e u.

Lemma elem_of_collect_fx_loop ps idx fuel e u :
  expr_size e ≤ fuel → u ∈ collect_fx_loop ps idx fuel e ↔ reads ps idx e u.
Proof.
  revert e. induction fuel as [|fuel IH]; intros e Hf; [rewrite expr_size_children in Hf; lia|].
  simpl. destruct (fx_access ps idx e) as [v|] eqn:E.
  - rewrite list_elem_of_singleton. split; [intros ->; by apply reads_here|].
    inversion 1; congruence.
  - rewrite flat_map_elem. split.
    + intros (c & Hc & Hu). eapply reads_child; [done..|]. apply IH; [|done].
      apply expr_size_child in Hc. lia.
    + inversion 1 as [|? c ? _ Hc Hu]; simplify_eq. exists c. split; [done|]. apply IH; [|done].
      apply expr_size_child in Hc. lia.
Qed.

(** The accesses of a test body are exactly those of its statements, nested
    definitions included; without a proxy parameter there are none. *)
Theorem fx_usages_of_body body proxy_params line_index u :
  u ∈ extract_fx_usages body proxy_params line_index ↔
  proxy_params ≠ [] ∧
  ∃ s e, under (λ _, false) body s ∧ e ∈ stmt_exprs s ∧ reads proxy_params line_index e u.
Proof.
  unfold extract_fx_usages. destruct proxy_params as [|p ps]; [set_solver|].
  rewrite flat_map_elem. split.
  - intros (s & Hs & Hu). split; [done|]. apply flat_map_elem in Hu as (e & He & Hu).
    exists s, e. split_and!; [by apply elem_of_walk_stmts|done|].
    by apply elem_of_collect_fx_loop in Hu.
  - intros (_ & s & e & Hs & He & Hu). exists s. split; [by apply elem_of_walk_stmts|].
    apply flat_map_elem. exists e. split; [done|]. by apply elem_of_collect_fx_loop.
Qed.

(** A usage is one chain: neither the node below a qualified access nor any
    other node of the chain is reported a second time. *)
Theorem fx_chain_reported_once r r' r0 p ns name ps idx :
  p ∈ ps →
  collect_fx_usages (Expr.Attribute r (Expr.Attribute r' (Expr.Name r0 p) ns) name) ps idx =
    [{| fx_namespace := Some ns; fx_name := name; fx_lineno := line_at idx (r_start r) |}] ∧
  collect_fx_usages (Expr.Attribute r (Expr.Name r0 p) name) ps idx =
    [{| fx_namespace := None; fx_name := name; fx_lineno := line_at idx (r_start r) |}].
Proof.
  intros Hp. assert (existsb (λ param, String.eqb param p) ps = true) as E.
  { apply existsb_elem. exists p. split; [done|]. by apply String.eqb_eq. }
  unfold collect_fx_usages. simpl. by rewrite E.
Qed.

Lemma fx_chain_reported_once_witness :
  let r := {| r_start := 0; r_end := 0 |} in
  collect_fx_usages (Expr.Attribute r (Expr.Attribute r (Expr.Name r "fx") "db") "conn") ["fx"] [0%N] =
    [{| fx_namespace := Some "db"; fx_name := "conn"; fx_lineno := 1 |}].
Proof.
  apply (fx_chain_reported_once {| r_start := 0; r_end := 0 |} {| r_start := 0; r_end := 0 |}
    {| r_start := 0; r_end := 0 |} "fx" "db" "conn" ["fx"] [0%N]). by apply list_elem_of_singleton.
Defined.

(** Positions the walk never looks at: the guard and the pattern of a [match]
    case, the parameters and the return annotation of a nested definition, the
    keywords of a nested class, the parameters of a lambda.  Whatever stands
    there changes no usage. *)
Theorem fx_usages_skip_guards_and_defaults ps idx :
  (∀ r subject cases cases', map mc_body cases = map mc_body cases' →
    extract_fx_usages [Stmt.Match r subject cases] ps idx =
    extract_fx_usages [Stmt.Match r subject cases'] ps idx) ∧
  (∀ f a ret, extract_fx_usages [Stmt.FunctionDef f] ps idx =
    extract_fx_usages [Stmt.FunctionDef (mk_fn (fn_range f) (fn_name f) a (fn_body f)
      (fn_decorator_list f) ret)] ps idx) ∧
  (∀ c kws, extract_fx_usages [Stmt.ClassDef c] ps idx =
    extract_fx_usages [Stmt.ClassDef (mk_class (cls_range c) (cls_name c) (cls_bases c) kws
      (cls_body c) (cls_decorator_list c))] ps idx) ∧
  (∀ r a a' body, collect_fx_usages (Expr.Lambda r a body) ps idx =
    collect_fx_usages (Expr.Lambda r a' body) ps idx).
Proof.
  split_and!; [|done..]. intros r subject cases cases' Hc. destruct ps as [|p ps]; [done|].
  assert (∀ l l' : list match_case, map mc_body l = map mc_body l' →
    flat_map mc_body l = flat_map mc_body l') as Hb by (intros l l' H; by rewrite !flat_map_concat, H).
  assert (stmt_count [Stmt.Match r subject cases] = stmt_count [Stmt.Match r subject cases']) as Hn.
  { rewrite !stmt_count_cons. simpl. by rewrite (Hb _ _ Hc). }
  unfold extract_fx_usages, walk_stmts. rewrite Hn.
  destruct (stmt_count _); [done|]. simpl. by rewrite (Hb _ _ Hc).
Qed.

(** ** Declarations and the item cache *)

Lemma fixture_lifetime_shaped dec lifetime :
  extract_fixture_decorator_lifetime dec = Some lifetime → is_fixture_shaped dec = true.
Proof.
  destruct dec as [| | | | | | | | | | | | | | | |r func args kws| | | | | | | | | |]; try done. simpl.
  destruct (is_fixture_call func) eqn:E; [|done]. intros _. unfold is_fixture_call in E.
  destruct func; try done. by destruct (String.eqb attr "fixture").
Qed.

(** A file in which the prescan can name a declaration is never served from the
    item cache: the loose shape test covers every spelling the strict one
    accepts. *)
Lemma declarations_are_shaped stmts line_index :
  collect_declarations stmts line_index ≠ [] → has_fixture_shaped_decorator stmts = true.
Proof.
  intros Hd. destruct (collect_declarations stmts line_index) as [|d l] eqn:E; [done|].
  assert (d ∈ collect_declarations stmts line_index) as Hin by (rewrite E; apply elem_of_cons; auto).
  unfold collect_declarations in Hin. apply list_elem_of_omap in Hin as (s & Hs & Hd').
  destruct (try_from_stmt s) as [def|] eqn:Es; [|done].
  destruct (find_map _ _) as [lifetime|] eqn:Ef; [|done]. clear Hd'.
  apply find_map_Some in Ef as (dec & Hin & Hdec).
  unfold has_fixture_shaped_decorator. apply existsb_elem. exists s. split; [done|].
  apply existsb_elem. exists dec. split; [|by eapply fixture_lifetime_shaped].
  replace (fn_decorators s) with (def_decorator_list def) by (destruct s; simplify_eq/=; done).
  done.
Qed.

(** ** The transition *)

Section Transition.
Context (suite_parse : string → string → result (list Stmt.t) ParseError).
Context (read_to_string : string → result string string).
Context (stdlib : option (gset string)) (exists_ : string → bool).

Abbreviation scan := (prescan_with_ast suite_parse read_to_string stdlib).

Lemma scan_spec path keep :
  match scan path keep with
  | TestsUnavailable => parse_file suite_parse read_to_string path = None
  | NoTests => ∃ source stmts, parse_file suite_parse read_to_string path = Some (source, stmts) ∧
      walk_test_defs stmts = []
  | HasTests p => ∃ source stmts, parse_file suite_parse read_to_string path = Some (source, stmts) ∧
      walk_test_defs stmts ≠ [] ∧
      map pi_fn_name (pp_items p) = map (λ d, def_name d.1) (walk_test_defs stmts) ∧
      pp_fingerprint p = from_source source
  end.
Proof.
  unfold prescan_with_ast. destruct (parse_file _ _ path) as [[source stmts]|] eqn:E; [|done].
  destruct (walk_test_defs stmts) as [|[d c] l] eqn:Ew; simpl; [eauto|].
  exists source, stmts. split_and!; [done|by rewrite Ew| |done].
  rewrite Ew. simpl. f_equal. rewrite map_map. apply map_ext. by intros [].
Qed.

(** The syntax tree is kept or dropped; nothing else depends on it. *)
Lemma scan_keep_ast path : 
  match scan path true, scan path false with
  | HasTests p, HasTests q =>
      pp_items p = pp_items q ∧ pp_has_dynamic_collection p = pp_has_dynamic_collection q ∧
      pp_module_markers p = pp_module_markers q ∧ pp_fingerprint p = pp_fingerprint q ∧
      pp_has_fixture_shaped_decorator p = pp_has_fixture_shaped_decorator q
  | NoTests, NoTests | TestsUnavailable, TestsUnavailable => True
  | _, _ => False
  end.
Proof.
  unfold prescan_with_ast. destruct (parse_file _ _ path) as [[source stmts]|]; [|done].
  by destruct (walk_test_defs stmts) as [|[d c] l].
Qed.

Definition is_no_tests (r : PrescanResult) : bool := match r with NoTests => true | _ => false end.

Lemma prescan_fold files st :
  map (λ m, pmod_path m.1) (ps_data (fold_left (prescan_step suite_parse read_to_string stdlib exists_)
    files st)) =
  map (λ m, pmod_path m.1) (ps_data st) ++ List.filter (λ f, negb (is_no_tests (scan f false))) files.
Proof.
  revert st. induction files as [|f files IH]; intros st; simpl; [by rewrite app_nil_r|].
  rewrite IH. unfold prescan_step. destruct (scan f false); simpl; [|done|];
    by rewrite map_app, <-app_assoc.
Qed.

(** A module declares a test when a function of it, or of a class [Test...] of
    it, is written down under a name that starts with [test_]. *)
Definition fn_in (f : fn_node) (stmts : list Stmt.t) : Prop :=
  Stmt.FunctionDef f ∈ stmts ∨ Stmt.AsyncFunctionDef f ∈ stmts.

Inductive declares_test (stmts : list Stmt.t) : Prop :=
  | declares_fn f : fn_in f stmts → starts_with "test_" (fn_name f) = true → declares_test stmts
  | declares_method c f :
      Stmt.ClassDef c ∈ stmts → starts_with "Test" (cls_name c) = true →
      fn_in f (cls_body c) → starts_with "test_" (fn_name f) = true → declares_test stmts.

Lemma test_defs_none stmts : walk_test_defs stmts = [] ↔ ¬ declares_test stmts.
Proof.
  assert ((∃ x, x ∈ walk_test_defs stmts) ↔ declares_test stmts) as H.
  { unfold walk_test_defs. setoid_rewrite flat_map_elem. split.
    - intros (x & s & Hs & Hx). unfold walk_test_stmt in Hx.
      destruct s; simpl in Hx; try (by apply elem_of_nil in Hx).
      1-2: destruct (is_test_fn _) eqn:E; [|by apply elem_of_nil in Hx];
        apply (declares_fn _ f); [by (left + right)|done].
      destruct (is_test_class _) eqn:Ec; [|by apply elem_of_nil in Hx].
      apply flat_map_elem in Hx as (m & Hm & Hx). unfold test_method in Hx.
      destruct m; simpl in Hx; try (by apply elem_of_nil in Hx).
      all: destruct (is_test_fn _) eqn:E; [|by apply elem_of_nil in Hx];
        apply (declares_method _ c f); [done|done|by (left + right)|done].
    - intros [f [Hf|Hf] Ht|c f Hc Ht [Hf|Hf] Hn].
      1-2: eexists _, _; split; [exact Hf|]; unfold walk_test_stmt; simpl; unfold is_test_fn; rewrite Ht; left.
      all: eexists _, _; split; [exact Hc|]; unfold walk_test_stmt; simpl; unfold is_test_class; rewrite Ht;
        apply flat_map_elem; eexists; split; [exact Hf|]; unfold test_method; simpl; unfold is_test_fn;
        rewrite Hn; left. }
  rewrite <-H. destruct (walk_test_defs stmts) as [|x l]; [|split; [done|intros Hn; exfalso; apply Hn; exists x; left]].
  split; [|done]. by intros _ [x ?%elem_of_nil].
Qed.

(** The five patterns of a statement that makes names while the module is
    imported, one constructor or two each. *)
Inductive called (f : string) : Expr.t → Prop :=
  | called_intro r r' args keywords : called f (Expr.Call r (Expr.Name r' f) args keywords).

Inductive globals_entry : Expr.t → Prop :=
  | globals_entry_intro r value slice : called "globals" value → globals_entry (Expr.Subscript r value slice).

Inductive stmt_value : Stmt.t → Expr.t → Prop :=
  | value_expr r v : stmt_value (Stmt.Expr_ r v) v
  | value_assign r targets v : stmt_value (Stmt.Assign r targets v) v.

Inductive makes_names : Stmt.t → Prop :=
  | mn_exec s e : stmt_value s e → called "exec" e ∨ called "eval" e → makes_names s
  | mn_globals s e : stmt_value s e → globals_entry e → makes_names s
  | mn_globals_target r targets v e : e ∈ targets → globals_entry e → makes_names (Stmt.Assign r targets v)
  | mn_type r targets r1 r2 args keywords :
      3 ≤ length args →
      makes_names (Stmt.Assign r targets (Expr.Call r1 (Expr.Name r2 "type") args keywords))
  | mn_getattr f s : fn_in f [s] → fn_name f = "__getattr__" → makes_names s
  | mn_star r module a level :
      al_name a = "*" → (∀ names, stdlib = Some names → top_level (default "" module) ∉ names) →
      makes_names (Stmt.ImportFrom r module [a] level).

Lemma is_name_true id e : is_name id e = true ↔ ∃ r, e = Expr.Name r id.
Proof.
  split; [|intros [r ->]; apply String.eqb_refl].
  destruct e; try done. simpl. intros ->%String.eqb_eq. eauto.
Qed.

Lemma dynamic_call_called e : is_dynamic_call e = true ↔ called "exec" e ∨ called "eval" e.
Proof.
  split; [|by intros [[]|[]]]. destruct e; try done. simpl.
  intros [[? ->]%is_name_true|[? ->]%is_name_true]%orb_true_iff; [left|right]; constructor.
Qed.

Lemma globals_subscript_entry e : is_globals_subscript e = true ↔ globals_entry e.
Proof.
  split; [|by intros [??? []]]. destruct e as [| | | | | | | | | | | | | | | | | | | | |r v sl| | | | |]; try done.
  destruct v; try done. simpl. intros [? ->]%is_name_true. repeat constructor.
Qed.

Lemma star_not_stdlib module :
  negb (is_stdlib_module stdlib module) = true ↔ (∀ names, stdlib = Some names → top_level module ∉ names).
Proof.
  unfold is_stdlib_module. destruct stdlib as [names|]; [|by split].
  rewrite negb_true_iff, bool_decide_eq_false. naive_solver.
Qed.

Definition dynamic_stmt (s : Stmt.t) : bool :=
  has_exec_eval_call s || has_globals_injection s || has_type_metaclass_creation s
  || has_getattr_definition s || has_nonstdlib_star_import stdlib s.

Lemma makes_names_complete s : makes_names s → dynamic_stmt s = true.
Proof.
  unfold dynamic_stmt.
  destruct 1 as [s e [] Hc|s e [] Hg|r targets v e He Hg|? ? ? ? args ? Hl|f s [Hf|Hf] Hn|? ? ? ? Ha Hs]; simpl.
  1-2: by apply dynamic_call_called in Hc as ->.
  1-2: apply globals_subscript_entry in Hg as ->; by rewrite ?orb_true_r.
  - rewrite (proj2 (existsb_elem _ _)); [by rewrite !orb_true_r|]. exists e. by rewrite globals_subscript_entry.
  - destruct args as [|? [|? [|]]]; simpl in Hl; [lia..|]. simpl. by rewrite orb_true_r.
  - apply list_elem_of_singleton in Hf as <-. unfold has_getattr_definition. simpl. by rewrite Hn.
  - apply list_elem_of_singleton in Hf as <-. unfold has_getattr_definition. simpl. by rewrite Hn.
  - apply star_not_stdlib in Hs. rewrite Hs, Ha. done.
Qed.

Lemma makes_names_sound s : dynamic_stmt s = true → makes_names s.
Proof.
  unfold dynamic_stmt. intros [[[[H|H]%orb_true_iff|H]%orb_true_iff|H]%orb_true_iff|H]%orb_true_iff.
  - destruct s; try done; apply dynamic_call_called in H; eapply mn_exec; [constructor|done|constructor|done].
  - destruct s; try done; simpl in H.
    + apply orb_true_iff in H as [H|(e & He & H)%existsb_elem]; apply globals_subscript_entry in H;
        [eapply mn_globals; [constructor|done]|by eapply mn_globals_target].
    + apply globals_subscript_entry in H. eapply mn_globals; [constructor|done].
  - destruct s; try done. destruct value; try done. unfold has_type_metaclass_creation, is_type_metaclass_call in H.
    apply andb_true_iff in H as [[? ->]%is_name_true H%Nat.leb_le]. by constructor.
  - unfold has_getattr_definition in H. destruct s; try done; simpl in H; apply String.eqb_eq in H;
      (eapply mn_getattr; [|exact H]); [left|right]; by apply list_elem_of_singleton.
  - destruct s; try done. destruct names as [|? []]; try done. unfold has_nonstdlib_star_import in H.
    apply andb_true_iff in H as [?%String.eqb_eq H]. constructor; [done|by apply star_not_stdlib].
Qed.

Lemma dynamic_makes_names stmts :
  detect_dynamic_collection stdlib stmts = true ↔ ∃ s, s ∈ stmts ∧ makes_names s.
Proof.
  unfold detect_dynamic_collection. rewrite existsb_elem.
  split; intros (s & Hs & H); exists s; (split; [done|]); [by apply makes_names_sound|by apply makes_names_complete].
Qed.

(** What the entry of a file says about it. *)
Lemma prescan_flags files st m o :
  (∀ m o, (m, o) ∈ ps_data st → pmod_has_dynamic_collection m =
     match parse_file suite_parse read_to_string (pmod_path m) with
     | Some (_, stmts) => detect_dynamic_collection stdlib stmts | None => true end) →
  (m, o) ∈ ps_data (fold_left (prescan_step suite_parse read_to_string stdlib exists_) files st) →
  pmod_has_dynamic_collection m =
    match parse_file suite_parse read_to_string (pmod_path m) with
    | Some (_, stmts) => detect_dynamic_collection stdlib stmts | None => true end.
Proof.
  revert st. induction files as [|g files IH]; intros st Hst; [by apply Hst|].
  cbn [fold_left]. apply IH. intros m' o'. unfold prescan_step.
  destruct (scan g false) as [p| |] eqn:E; simpl; [|by apply Hst|]; rewrite elem_of_app;
    (intros [Hm|Hm]; [by eapply Hst|]); apply list_elem_of_singleton in Hm as [= -> ->]; cbn; revert E;
    unfold prescan_with_ast; destruct (parse_file _ _ g) as [[source stmts]|]; try done;
    destruct (map _ _); try done. by intros [= <-].
Qed.

(** C40: The prescan drops exactly the files it could parse and in which no test
    is written down, as a function [test_...] of the module or of one of its
    classes [Test...]; the others stay, in order.  It marks as dynamic, and so
    keeps whatever the metadata filter says, the files it could not parse and,
    of the files that stay, those with a top-level statement that makes names
    while the module is imported: a call of [exec] or [eval], an entry of
    [globals()], a class made by [type], a function [__getattr__], or a star
    import from outside the standard library.  A file whose tests only come to
    be that way is therefore dropped in spite of its pattern, and so is one with
    tests for a plugin's collector only. *)
Theorem prescan_drops_only_testless_files files :
  let data := ps_data (prescan suite_parse read_to_string stdlib exists_ files) in
  (∃ keep : string → bool, map (λ m, pmod_path m.1) data = List.filter keep files ∧
     ∀ f, keep f = false ↔ ∃ source stmts,
       parse_file suite_parse read_to_string f = Some (source, stmts) ∧ ¬ declares_test stmts) ∧
  (∀ m o, (m, o) ∈ data → pmod_has_dynamic_collection m = true ↔
     ∀ source stmts, parse_file suite_parse read_to_string (pmod_path m) = Some (source, stmts) →
       ∃ s, s ∈ stmts ∧ makes_names s) ∧
  (∀ f source stmts, parse_file suite_parse read_to_string f = Some (source, stmts) →
     (∃ s, s ∈ stmts ∧ makes_names s) → ¬ declares_test stmts →
     f ∉ map (λ m, pmod_path m.1) data).
Proof.
  assert (∀ f, negb (is_no_tests (scan f false)) = false ↔ ∃ source stmts,
    parse_file suite_parse read_to_string f = Some (source, stmts) ∧ ¬ declares_test stmts) as Hkeep.
  { intros f. setoid_rewrite <-test_defs_none. rewrite negb_false_iff. pose proof (scan_spec f false) as Hs.
    destruct (scan f false); simpl; [split; [done|]; destruct Hs as (? & ? & ? & ? & _); naive_solver|tauto|].
    split; [done|]. naive_solver. }
  assert (map (λ m, pmod_path m.1) (ps_data (prescan suite_parse read_to_string stdlib exists_ files)) =
    List.filter (λ f, negb (is_no_tests (scan f false))) files) as Hmap by (unfold prescan; by rewrite prescan_fold).
  cbv zeta. split_and!; [by exists (λ f, negb (is_no_tests (scan f false)))|..].
  - intros m o Hm. eapply prescan_flags in Hm as ->; [|by intros ? ? ?%elem_of_nil].
    destruct (parse_file _ _ _) as [[source stmts]|]; [|by split]. rewrite dynamic_makes_names. naive_solver.
  - intros f source stmts Hp _ Ht. rewrite Hmap. intros [_ Hf]%filter_elem.
    assert (negb (is_no_tests (scan f false)) = false); [|congruence]. apply Hkeep. eauto.
Qed.
End Transition.
