(* ===== verification/Lint.v ===== *)
(** * Lint: the strict checks read off the syntax tree

    [bare_asserts.rs], [module_defs.rs] and [test_returns.rs]: each walks the
    test definitions of a file (or its top-level functions) and hands strict
    mode raw violations, which [Strict.v] reads back. *)
From stdpp Require Import pretty.
From S2P Require Import Prelude Collections Text F64 Types Filter Strict Ast Prescan.

(** ** Walks *)

(** A [Display]ed [u32]. *)
Definition show_u32 (n : N) : string := pretty n.

Definition test_node_id (path : string) (def : FnDef) (class : option class_node) : string :=
  match class with
  | Some cls => path +:+ "::" +:+ cls_name cls +:+ "::" +:+ def_name def
  | None => path +:+ "::" +:+ def_name def
  end.

(** The statement a check looks for, and where it starts. *)
Definition bare_assert_at (s : Stmt.t) : option range :=
  match s with Stmt.Assert r _ None => Some r | _ => None end.

Definition is_none_literal (e : Expr.t) : bool :=
  match e with Expr.Constant _ CNone => true | _ => false end.

Definition value_return_at (s : Stmt.t) : option range :=
  match s with
  | Stmt.Return r (Some value) => if is_none_literal value then None else Some r
  | _ => None
  end.

Definition offence_lines (at_ : Stmt.t → option range) (body : list Stmt.t) (line_index : list N)
    : list N :=
  sort_by N.compare (omap (λ s, (λ r, offset_to_line line_index (r_start r)) <$> at_ s)
    (walk_stmts is_function body)).

Definition walk_bare_asserts : list Stmt.t → list N → list N := offence_lines bare_assert_at.
Definition walk_value_returns : list Stmt.t → list N → list N := offence_lines value_return_at.

(** ** [bare_asserts.rs] *)

Record bare_assert := { ba_node_id : string; ba_lines : list N }.

Definition find_bare_asserts (path : string) (stmts : list Stmt.t) (line_index : list N)
    : list bare_assert :=
  omap (λ '(def, class),
    match walk_bare_asserts (def_body def) line_index with
    | [] => None
    | lines => Some {| ba_node_id := test_node_id path def class; ba_lines := lines |}
    end) (walk_test_defs stmts).

Definition to_violations (found : list bare_assert) : list RawViolation :=
  map (λ ba, mk_raw (ba_node_id ba) VBareAssert (join " " (map show_u32 (ba_lines ba)))) found.

Definition collect_bare_asserts_from_ast (path source : string) (stmts : list Stmt.t)
    : list RawViolation :=
  to_violations (find_bare_asserts path stmts (build_line_index source)).

(** ** [module_defs.rs] *)

Definition is_fixture_decorator (dec : Expr.t) : bool := is_fixture_call (call_target dec).

Definition module_def_violation (path : string) (line_index : list N) (s : Stmt.t)
    : option RawViolation :=
  match try_from_stmt s with
  | None => None
  | Some def =>
      let name := def_name def in
      if starts_with "test_" name || starts_with "_" name then None
      else if existsb is_fixture_decorator (def_decorator_list def) then None
      else Some (mk_raw (path +:+ "::" +:+ name) VModuleLevelDef
        (name +:+ " " +:+ show_u32 (offset_to_line line_index (r_start (def_range def)))))
  end.

Definition collect_module_defs_from_ast (path source : string) (stmts : list Stmt.t)
    : list RawViolation :=
  omap (module_def_violation path (build_line_index source)) stmts.

(** ** [test_returns.rs] *)

Definition collect_test_returns_from_ast (path source : string) (stmts : list Stmt.t)
    : list RawViolation :=
  let line_index := build_line_index source in
  omap (λ '(def, class),
    match walk_value_returns (def_body def) line_index with
    | [] => None
    | lines => Some (mk_raw (test_node_id path def class) VTestReturnsValue
                       (join " " (map show_u32 lines)))
    end) (walk_test_defs stmts).

(** ** From a path *)

Section Files.
Context (suite_parse : string → string → result (list Stmt.t) ParseError).
Context (read_to_string : string → result string string).

Definition of_file (check : string → string → list Stmt.t → list RawViolation) (path : string)
    : list RawViolation :=
  match parse_file suite_parse read_to_string path with
  | None => []
  | Some (source, stmts) => check path source stmts
  end.

Definition collect_bare_asserts : string → list RawViolation := of_file collect_bare_asserts_from_ast.
Definition collect_module_defs : string → list RawViolation := of_file collect_module_defs_from_ast.
Definition collect_test_returns : string → list RawViolation := of_file collect_test_returns_from_ast.

End Files.

(** * Theorems *)

#[export] Instance N_cmp_laws : CmpLaws N.compare (λ _, True).
Proof.
  split.
  - intros x y _ _. apply N.compare_antisym.
  - intros x y z _ _ _. rewrite !N.compare_le_iff. lia.
Qed.

Section Offences.
Context (at_ : Stmt.t → option range) (body : list Stmt.t) (line_index : list N).

Lemma elem_of_offence_lines line :
  line ∈ offence_lines at_ body line_index ↔
  ∃ s r, under is_function body s ∧ at_ s = Some r ∧
    line = offset_to_line line_index (r_start r).
Proof.
  unfold offence_lines. rewrite sort_by_elem, list_elem_of_omap. split.
  - intros (s & Hs & Hl). apply fmap_Some in Hl as (r & Hr & ->). exists s, r.
    split_and!; [|done..]. by apply elem_of_walk_stmts.
  - intros (s & r & Hs & Hr & ->). exists s. split; [by apply elem_of_walk_stmts|]. by rewrite Hr.
Qed.

Lemma offence_lines_sorted : StronglySorted N.le (offence_lines at_ body line_index).
Proof.
  eapply strongly_sorted_impl; [|apply (sort_by_sorted _ (λ _, True)); by apply Forall_forall].
  intros x y Hxy. by apply N.compare_le_iff.
Qed.
End Offences.

Lemma as_u32_lt n : (as_u32 n < 4294967296)%N.
Proof. by apply N.mod_lt. Qed.

Lemma offset_to_line_lt line_index offset : (offset_to_line line_index offset < 4294967296)%N.
Proof. unfold offset_to_line. destruct (binary_search _ _); apply as_u32_lt. Qed.

Lemma offence_lines_fit at_ body line_index :
  Forall (λ n, n ≤ 18446744073709551615)%N (offence_lines at_ body line_index).
Proof.
  apply Forall_forall. intros line (s & r & _ & _ & ->)%elem_of_offence_lines.
  pose proof (offset_to_line_lt line_index (r_start r)). lia.
Qed.

(** What strict mode reads back from a check: one violation for each test that
    has an offence, with the test's id and the lines of its offences. *)
Definition violations_of (at_ : Stmt.t → option range) (v : string → list N → PerTestViolation)
    (path source : string) (stmts : list Stmt.t) : list StrictViolation :=
  omap (λ '(def, class),
    match offence_lines at_ (def_body def) (build_line_index source) with
    | [] => None
    | lines => Some (PerTest (v (test_node_id path def class) lines))
    end) (walk_test_defs stmts).

Lemma omap_omap {A B C} (f : A → option B) (g : B → option C) (h : A → option C) (l : list A) :
  (∀ x, f x ≫= g = h x) → omap g (omap f l) = omap h l.
Proof.
  intros Hh. induction l as [|x l IH]; simpl; [done|]. rewrite <-Hh. destruct (f x) as [b|]; simpl; [|done].
  destruct (g b); [f_equal|]; exact IH.
Qed.

Lemma map_omap {A B C} (f : A → option B) (g : B → C) (l : list A) : map g (omap f l) = omap (λ x, g <$> f x) l.
Proof. induction l as [|x l IH]; simpl; [done|]. destruct (f x); simpl; [f_equal|]; exact IH. Qed.

Lemma read_back_bare_asserts path source stmts :
  check_collected (collect_bare_asserts_from_ast path source stmts) =
  violations_of bare_assert_at BareAssert path source stmts.
Proof.
  unfold check_collected, collect_bare_asserts_from_ast, to_violations, find_bare_asserts.
  rewrite map_omap. apply omap_omap. intros [def class]. unfold walk_bare_asserts.
  pose proof (offence_lines_fit bare_assert_at (def_body def) (build_line_index source)) as Hfit.
  destruct (offence_lines _ _ _) as [|n lines]; [done|]. cbn [fmap option_fmap option_map].
  change (check_one (mk_raw (test_node_id path def class) VBareAssert
    (join " " (map pretty (n :: lines)))) = Some (PerTest (BareAssert (test_node_id path def class) (n :: lines)))).
  unfold check_one. cbn [rv_kind rv_detail rv_node_id]. by rewrite detail_lines_roundtrip.
Qed.

Lemma read_back_test_returns path source stmts :
  check_collected (collect_test_returns_from_ast path source stmts) =
  violations_of value_return_at TestReturnsValue path source stmts.
Proof.
  unfold check_collected, collect_test_returns_from_ast.
  apply omap_omap. intros [def class]. unfold walk_value_returns.
  pose proof (offence_lines_fit value_return_at (def_body def) (build_line_index source)) as Hfit.
  destruct (offence_lines _ _ _) as [|n lines]; [done|].
  change (check_one (mk_raw (test_node_id path def class) VTestReturnsValue
    (join " " (map pretty (n :: lines)))) =
    Some (PerTest (TestReturnsValue (test_node_id path def class) (n :: lines)))).
  unfold check_one. cbn [rv_kind rv_detail rv_node_id]. by rewrite detail_lines_roundtrip.
Qed.

(** Strict mode names, for each test, exactly the lines of its bare asserts and
    of its valued returns: statements of the body at any depth, the bodies of
    nested functions apart, in increasing order. *)
Theorem offences_reported_exactly path source stmts :
  check_collected (collect_bare_asserts_from_ast path source stmts) =
    violations_of bare_assert_at BareAssert path source stmts ∧
  check_collected (collect_test_returns_from_ast path source stmts) =
    violations_of value_return_at TestReturnsValue path source stmts ∧
  (∀ at_ body, StronglySorted N.le (offence_lines at_ body (build_line_index source)) ∧
    ∀ line, line ∈ offence_lines at_ body (build_line_index source) ↔
      ∃ s r, under is_function body s ∧ at_ s = Some r ∧
        line = offset_to_line (build_line_index source) (r_start r)).
Proof.
  split_and!; [apply read_back_bare_asserts|apply read_back_test_returns|].
  intros at_ body. split; [apply offence_lines_sorted|]. apply elem_of_offence_lines.
Qed.

(** ** Module-level definitions *)

Lemma N_of_ascii_byte n : (n < 256)%N → Ascii.N_of_ascii (byte n) = n.
Proof. apply Ascii.N_ascii_embedding. Qed.

Lemma rsplit_digits_none l : Forall is_digit l → rsplit_once_space (of_chars l) = None.
Proof.
  induction 1 as [|c l Hc _ IH]; [done|]. unfold is_digit in Hc. simpl. unfold encode_utf8.
  destruct (N.ltb_spec c 128); [|lia]. rewrite str_app_cons, str_app_nil_l. simpl.
  rewrite IH, N_of_ascii_byte by lia. by destruct (N.eqb_spec c 32); [lia|].
Qed.

Lemma rsplit_once_space_app a b :
  rsplit_once_space b = None → rsplit_once_space (a +:+ " " +:+ b) = Some (a, b).
Proof.
  intros Hb. induction a as [|x a IH].
  - rewrite str_app_nil_l, str_app_cons, str_app_nil_l. simpl. by rewrite Hb.
  - rewrite str_app_cons. simpl. by rewrite IH.
Qed.

(** A module-level function is reported when its name is neither a test's nor
    private and no decorator of it names [fixture]; the report reads back with
    its name and line.  What the prescan records as a declaration is never
    reported. *)
Theorem module_defs_reported_exactly path source s :
  let line_index := build_line_index source in
  match try_from_stmt s with
  | None => collect_module_defs_from_ast path source [s] = []
  | Some def =>
      let name := def_name def in
      let legal := starts_with "test_" name || starts_with "_" name
        || existsb is_fixture_decorator (def_decorator_list def) in
      check_collected (collect_module_defs_from_ast path source [s]) =
        (if legal then [] else [PerTest (ModuleLevelDef (path +:+ "::" +:+ name) name
           (offset_to_line line_index (r_start (def_range def))))]) ∧
      (collect_declarations [s] line_index ≠ [] → collect_module_defs_from_ast path source [s] = [])
  end.
Proof.
  simpl. unfold collect_module_defs_from_ast. simpl. unfold module_def_violation.
  destruct (try_from_stmt s) as [def|] eqn:E; [|done].
  pose proof (offset_to_line_lt (build_line_index source) (r_start (def_range def))) as Hlt.
  destruct (starts_with "test_" (def_name def) || starts_with "_" (def_name def)); [done|].
  destruct (existsb is_fixture_decorator (def_decorator_list def)) eqn:Ex; [done|]. simpl. split.
  - unfold show_u32. destruct (pretty_digits (offset_to_line (build_line_index source)
      (r_start (def_range def)))) as (l & Hl & Hp & Hd & Hne); [lia|].
    rewrite Hp. unfold check_collected. simpl. unfold check_one. cbn [rv_kind rv_detail rv_node_id].
    rewrite rsplit_once_space_app by by apply rsplit_digits_none.
    by rewrite (parse_digits l _ Hl Hne Hd).
  - intros Hc. destruct (find_map extract_fixture_decorator_lifetime (def_decorator_list def))
      as [x|] eqn:Ef; [|done]. exfalso. apply find_map_Some in Ef as (dec & Hin & Hdec).
    rewrite (existsb_false is_fixture_decorator) in Ex. specialize (Ex dec Hin).
    destruct dec; try done. unfold extract_fixture_decorator_lifetime in Hdec.
    unfold is_fixture_decorator in Ex. simpl in Ex. by rewrite Ex in Hdec.
Qed.
