(* ===== verification/Rewriter.v ===== *)
(** * Rewriter: assertions that keep their operands ([assert_rewriter.rs])

    The tree is that of Python's [ast] module, with the node classes the
    rewriter looks at; every other expression or simple statement is opaque, of
    type [other].  A comparison pairs each operator class with its comparator.
    The rewriter changes the lists of the tree in place; a definition here
    returns the new list, and the context of the walk with it.

    The second half gives the tree a compositional semantics, of which Python's
    own evaluation is a parameter with named laws, and shows that the rewritten
    program does what the original does. *)
From S2P Require Import Prelude Collections Text.

(** A property of every element of a list, for nested induction. *)
Definition all_of {A} (P : A → Prop) (f : ∀ a, P a) : ∀ l, Forall P l :=
  fix go l := match l with [] => Forall_nil_2 _ | a :: l => Forall_cons_2 _ _ _ (f a) (go l) end.

(** [lineno] and [col_offset]. *)
Definition loc : Type := Z * Z.

Inductive expr_context := Load | Store.

Section Tree.
Context {other : Type}.

Inductive expr :=
  | Compare (l : loc) (lhs : expr) (rest : list (string * expr))
  | BoolOp (l : loc) (is_and : bool) (values : list expr)
  | UnaryNot (l : loc) (operand : expr)
  | Call (l : loc) (func : expr) (args : list expr)
  | Name (l : loc) (id : string) (ctx : expr_context)
  | Constant (l : loc) (value : string)
  | OtherExpr (l : loc) (o : other).

(** [h] is what a statement holds beside its blocks. *)
Inductive stmt :=
  | Assert (l : loc) (test : expr) (msg : option expr)
  | FunctionDef (is_async : bool) (name : string) (h : other) (body : list stmt)
  | ClassDef (h : other) (body : list stmt)
  | With (is_async : bool) (h : other) (body : list stmt)
  | For (is_async : bool) (h : other) (body orelse : list stmt)
  | While (h : other) (body orelse : list stmt)
  | If (l : loc) (test : expr) (body orelse : list stmt)
  | Match (h : other) (cases : list (other * list stmt))
  | Try (star : bool) (h : other) (body : list stmt) (handlers : list (other * list stmt))
      (orelse finalbody : list stmt)
  | Assign (l : loc) (target : expr) (value : expr)
  | Raise (l : loc) (exc : expr)
  | Simple (h : other).

(** ** Bare assertions *)

Record BareAssertCtx := mk_ctx { fn_stack : list string; by_fn : gmap string (list Z) }.

Definition new_ctx : BareAssertCtx := mk_ctx [] ∅.

Definition record_bare (ctx : BareAssertCtx) (lineno : Z) : BareAssertCtx :=
  match fn_stack ctx with
  | outer :: _ => mk_ctx (fn_stack ctx) (<[outer := default [] (by_fn ctx !! outer) ++ [lineno]]> (by_fn ctx))
  | [] => ctx
  end.

Definition push_fn (ctx : BareAssertCtx) (name : string) : BareAssertCtx :=
  mk_ctx (fn_stack ctx ++ [name]) (by_fn ctx).

(** [Vec::pop] *)
Definition pop_fn (ctx : BareAssertCtx) : BareAssertCtx := mk_ctx (removelast (fn_stack ctx)) (by_fn ctx).

Definition into_py_dict (ctx : BareAssertCtx) : gmap string (list Z) := sort_by Z.compare <$> by_fn ctx.

(** ** Nodes *)

Definition OP_MAP : list (string * string) :=
  [("Eq", "=="); ("NotEq", "!="); ("Lt", "<"); ("LtE", "<="); ("Gt", ">"); ("GtE", ">=");
   ("Is", "is"); ("IsNot", "is not"); ("In", "in"); ("NotIn", "not in")].

Definition op_str (op : string) : option string :=
  snd <$> List.find (λ p, String.eqb p.1 op) OP_MAP.

Definition make_name_load (l : loc) (id : string) : expr := Name l id Load.
Definition make_name_store (l : loc) (id : string) : expr := Name l id Store.
Definition make_constant (l : loc) (val : string) : expr := Constant l val.
Definition make_assign (l : loc) (target_name : string) (value : expr) : stmt :=
  Assign l (make_name_store l target_name) value.
Definition make_raise (l : loc) (exc : expr) : stmt := Raise l exc.
Definition make_call (l : loc) (func_name : string) (args : list expr) : expr :=
  Call l (make_name_load l func_name) args.
Definition make_if_not_raise (l : loc) (test_expr : expr) (raise_stmt : stmt) : stmt :=
  If l (UnaryNot l test_expr) [raise_stmt] [].

Definition msg_expr (l : loc) (msg : option expr) : expr :=
  match msg with None => make_constant l "" | Some m => m end.

(** ** One assertion *)

Definition rewrite_compare (l : loc) (lhs : expr) (rest : list (string * expr)) (msg : option expr)
    : option (list stmt) :=
  match rest with
  | [(op_node, comparator)] =>
      match op_str op_node with
      | None => None
      | Some op_string =>
          let new_compare :=
            Compare l (make_name_load l "_oxitest_l") [(op_node, make_name_load l "_oxitest_r")] in
          let call := make_call l "_OxitestAssertionError"
            [make_name_load l "_oxitest_l"; make_name_load l "_oxitest_r"; make_constant l op_string;
             msg_expr l msg] in
          Some [make_assign l "_oxitest_l" lhs; make_assign l "_oxitest_r" comparator;
                make_if_not_raise l new_compare (make_raise l call)]
      end
  | _ => None
  end.

Definition rewrite_value (l : loc) (test : expr) (msg : option expr) : list stmt :=
  let call := make_call l "_OxitestAssertionError"
    [make_name_load l "_oxitest_v"; make_name_load l "_oxitest_no_rhs"; make_constant l ""; msg_expr l msg] in
  [make_assign l "_oxitest_v" test; make_if_not_raise l (make_name_load l "_oxitest_v") (make_raise l call)].

Definition rewrite_assert (l : loc) (test : expr) (msg : option expr) : option (list stmt) :=
  match test with
  | Compare _ lhs rest => rewrite_compare l lhs rest msg
  | BoolOp _ _ _ => None
  | _ => Some (rewrite_value l test msg)
  end.

(** ** The walk *)

(** [rewrite_body], given what happens to one statement. *)
Definition rewrite_list (f : stmt → BareAssertCtx → list stmt * BareAssertCtx) :
    list stmt → BareAssertCtx → list stmt * BareAssertCtx :=
  fix go l ctx :=
    match l with
    | [] => ([], ctx)
    | s :: l =>
        let '(new, ctx) := f s ctx in
        let '(rest, ctx) := go l ctx in
        (new ++ rest, ctx)
    end.

(** The blocks of the cases of a [match], or of the handlers of a [try]. *)
Definition rewrite_blocks (f : stmt → BareAssertCtx → list stmt * BareAssertCtx) :
    list (other * list stmt) → BareAssertCtx → list (other * list stmt) * BareAssertCtx :=
  fix go l ctx :=
    match l with
    | [] => ([], ctx)
    | (h, body) :: l =>
        let '(body, ctx) := rewrite_list f body ctx in
        let '(rest, ctx) := go l ctx in
        ((h, body) :: rest, ctx)
    end.

(** The statements that take the place of one, with [recurse_into_children]. *)
Fixpoint rewrite_stmt (s : stmt) (ctx : BareAssertCtx) : list stmt * BareAssertCtx :=
  match s with
  | Assert l test msg =>
      let ctx := match msg with None => record_bare ctx l.1 | Some _ => ctx end in
      match rewrite_assert l test msg with
      | Some replacements => (replacements, ctx)
      | None => ([s], ctx)
      end
  | FunctionDef is_async name h body =>
      let '(body, ctx) := rewrite_list rewrite_stmt body (push_fn ctx name) in
      ([FunctionDef is_async name h body], pop_fn ctx)
  | ClassDef h body =>
      let '(body, ctx) := rewrite_list rewrite_stmt body ctx in ([ClassDef h body], ctx)
  | With is_async h body =>
      let '(body, ctx) := rewrite_list rewrite_stmt body ctx in ([With is_async h body], ctx)
  | For is_async h body orelse =>
      let '(body, ctx) := rewrite_list rewrite_stmt body ctx in
      let '(orelse, ctx) := rewrite_list rewrite_stmt orelse ctx in ([For is_async h body orelse], ctx)
  | While h body orelse =>
      let '(body, ctx) := rewrite_list rewrite_stmt body ctx in
      let '(orelse, ctx) := rewrite_list rewrite_stmt orelse ctx in ([While h body orelse], ctx)
  | If l test body orelse =>
      let '(body, ctx) := rewrite_list rewrite_stmt body ctx in
      let '(orelse, ctx) := rewrite_list rewrite_stmt orelse ctx in ([If l test body orelse], ctx)
  | Match h cases =>
      let '(cases, ctx) := rewrite_blocks rewrite_stmt cases ctx in ([Match h cases], ctx)
  | Try star h body handlers orelse finalbody =>
      let '(body, ctx) := rewrite_list rewrite_stmt body ctx in
      let '(orelse, ctx) := rewrite_list rewrite_stmt orelse ctx in
      let '(finalbody, ctx) := rewrite_list rewrite_stmt finalbody ctx in
      let '(handlers, ctx) := rewrite_blocks rewrite_stmt handlers ctx in
      ([Try star h body handlers orelse finalbody], ctx)
  | Assign _ _ _ | Raise _ _ | Simple _ => ([s], ctx)
  end.

Definition rewrite_body : list stmt → BareAssertCtx → list stmt * BareAssertCtx := rewrite_list rewrite_stmt.

(** The rewritten module, and the bare assertions by function. *)
Definition rewrite_asserts (body : list stmt) : list stmt * gmap string (list Z) :=
  let '(body, ctx) := rewrite_body body new_ctx in (body, into_py_dict ctx).

(** * Theorems *)

(** Induction with a hypothesis for the statements of every block. *)
Section Induction.
Context (P : stmt → Prop).
Context (HAssert : ∀ l test msg, P (Assert l test msg)).
Context (HFunctionDef : ∀ a name h body, Forall P body → P (FunctionDef a name h body)).
Context (HClassDef : ∀ h body, Forall P body → P (ClassDef h body)).
Context (HWith : ∀ a h body, Forall P body → P (With a h body)).
Context (HFor : ∀ a h body orelse, Forall P body → Forall P orelse → P (For a h body orelse)).
Context (HWhile : ∀ h body orelse, Forall P body → Forall P orelse → P (While h body orelse)).
Context (HIf : ∀ l test body orelse, Forall P body → Forall P orelse → P (If l test body orelse)).
Context (HMatch : ∀ h cases, Forall (λ c, Forall P c.2) cases → P (Match h cases)).
Context (HTry : ∀ star h body handlers orelse finalbody, Forall P body →
  Forall (λ c, Forall P c.2) handlers → Forall P orelse → Forall P finalbody →
  P (Try star h body handlers orelse finalbody)).
Context (HAssign : ∀ l target value, P (Assign l target value)).
Context (HRaise : ∀ l exc, P (Raise l exc)).
Context (HSimple : ∀ h, P (Simple h)).

Fixpoint stmt_rect' (s : stmt) : P s :=
  match s with
  | Assert l test msg => HAssert l test msg
  | FunctionDef a name h body => HFunctionDef a name h body (all_of P stmt_rect' body)
  | ClassDef h body => HClassDef h body (all_of P stmt_rect' body)
  | With a h body => HWith a h body (all_of P stmt_rect' body)
  | For a h body orelse => HFor a h body orelse (all_of P stmt_rect' body) (all_of P stmt_rect' orelse)
  | While h body orelse => HWhile h body orelse (all_of P stmt_rect' body) (all_of P stmt_rect' orelse)
  | If l test body orelse => HIf l test body orelse (all_of P stmt_rect' body) (all_of P stmt_rect' orelse)
  | Match h cases => HMatch h cases (all_of (λ c : other * list stmt, Forall P c.2) (λ c, all_of P stmt_rect' c.2) cases)
  | Try star h body handlers orelse finalbody =>
      HTry star h body handlers orelse finalbody (all_of P stmt_rect' body)
        (all_of (λ c : other * list stmt, Forall P c.2) (λ c, all_of P stmt_rect' c.2) handlers)
        (all_of P stmt_rect' orelse) (all_of P stmt_rect' finalbody)
  | Assign l target value => HAssign l target value
  | Raise l exc => HRaise l exc
  | Simple h => HSimple h
  end.
End Induction.

(** The statements do not depend on the context: what takes the place of one. *)
Fixpoint rw (s : stmt) : list stmt :=
  match s with
  | Assert l test msg => default [s] (rewrite_assert l test msg)
  | FunctionDef a name h body => [FunctionDef a name h (flat_map rw body)]
  | ClassDef h body => [ClassDef h (flat_map rw body)]
  | With a h body => [With a h (flat_map rw body)]
  | For a h body orelse => [For a h (flat_map rw body) (flat_map rw orelse)]
  | While h body orelse => [While h (flat_map rw body) (flat_map rw orelse)]
  | If l test body orelse => [If l test (flat_map rw body) (flat_map rw orelse)]
  | Match h cases => [Match h (map (λ c, (c.1, flat_map rw c.2)) cases)]
  | Try star h body handlers orelse finalbody =>
      [Try star h (flat_map rw body) (map (λ c, (c.1, flat_map rw c.2)) handlers) (flat_map rw orelse)
         (flat_map rw finalbody)]
  | _ => [s]
  end.

(** The bare assertions of a statement, with the outermost function each is in. *)
Fixpoint bare (outer : option string) (s : stmt) : list (string * Z) :=
  match s with
  | Assert l _ None => match outer with Some f => [(f, l.1)] | None => [] end
  | FunctionDef _ name _ body => flat_map (bare (Some (default name outer))) body
  | ClassDef _ body | With _ _ body => flat_map (bare outer) body
  | For _ _ body orelse | While _ body orelse | If _ _ body orelse =>
      flat_map (bare outer) body ++ flat_map (bare outer) orelse
  | Match _ cases => flat_map (λ c, flat_map (bare outer) c.2) cases
  | Try _ _ body handlers orelse finalbody =>
      flat_map (bare outer) body ++ flat_map (bare outer) orelse ++ flat_map (bare outer) finalbody ++
      flat_map (λ c, flat_map (bare outer) c.2) handlers
  | _ => []
  end.

Definition add_line (m : gmap string (list Z)) (p : string * Z) : gmap string (list Z) :=
  <[p.1 := default [] (m !! p.1) ++ [p.2]]> m.

Definition noted (ctx : BareAssertCtx) (l : list (string * Z)) : BareAssertCtx :=
  mk_ctx (fn_stack ctx) (fold_left add_line l (by_fn ctx)).

Lemma noted_nil ctx : noted ctx [] = ctx.
Proof. by destruct ctx. Qed.

Lemma noted_app ctx l l' : noted (noted ctx l) l' = noted ctx (l ++ l').
Proof. unfold noted. simpl. by rewrite fold_left_app. Qed.

(** What the walk does to one statement: new statements, and new notes. *)
Definition walked (s : stmt) : Prop :=
  ∀ ctx, rewrite_stmt s ctx = (rw s, noted ctx (bare (head (fn_stack ctx)) s)).

Lemma walked_list l : Forall walked l → ∀ ctx,
  rewrite_list rewrite_stmt l ctx = (flat_map rw l, noted ctx (flat_map (bare (head (fn_stack ctx))) l)).
Proof.
  induction 1 as [|s l Hs _ IH]; intros ctx; simpl; [by rewrite noted_nil|].
  rewrite Hs, IH. simpl. by rewrite noted_app.
Qed.

Lemma walked_blocks (l : list (other * list stmt)) : Forall (λ c, Forall walked c.2) l → ∀ ctx,
  rewrite_blocks rewrite_stmt l ctx =
    (map (λ c, (c.1, flat_map rw c.2)) l, noted ctx (flat_map (λ c, flat_map (bare (head (fn_stack ctx))) c.2) l)).
Proof.
  induction 1 as [|[h body] l Hs _ IH]; intros ctx; simpl; [by rewrite noted_nil|].
  rewrite walked_list, IH by done. simpl. by rewrite noted_app.
Qed.

Lemma pop_noted ctx name l : pop_fn (noted (push_fn ctx name) l) = noted ctx l.
Proof. unfold pop_fn, noted, push_fn. simpl. by rewrite removelast_last. Qed.

Lemma head_push ctx name : head (fn_stack (push_fn ctx name)) = Some (default name (head (fn_stack ctx))).
Proof. unfold push_fn. simpl. by destruct (fn_stack ctx). Qed.

Lemma stmt_walked s : walked s.
Proof.
  induction s using stmt_rect'; intros ctx; cbn [rewrite_stmt];
    rewrite ?walked_list, ?walked_blocks by done; cbn [fn_stack noted];
    rewrite ?walked_list, ?walked_blocks by done; cbn [fn_stack noted]; rewrite ?noted_app, ?noted_nil; try done.
  - cbn [rw bare]. destruct (rewrite_assert l test msg), msg; simpl; rewrite ?noted_nil; try done;
      unfold record_bare, noted; by destruct (fn_stack ctx) eqn:E; simpl; rewrite ?E; destruct ctx; simpl in *; subst.
  - rewrite head_push, pop_noted. done.
Qed.

Lemma body_walked l ctx :
  rewrite_body l ctx = (flat_map rw l, noted ctx (flat_map (bare (head (fn_stack ctx))) l)).
Proof. apply walked_list, Forall_forall. intros s _. apply stmt_walked. Qed.

Lemma asserts_rewritten body :
  rewrite_asserts body = (flat_map rw body, sort_by Z.compare <$> fold_left add_line (flat_map (bare None) body) ∅).
Proof. unfold rewrite_asserts. by rewrite body_walked. Qed.

(** ** Which lines are noted *)

Definition noted_lines (f : string) (l : list (string * Z)) : list Z :=
  map snd (List.filter (λ p, String.eqb p.1 f) l).

Lemma note_lookup l m f :
  fold_left add_line l m !! f =
    match noted_lines f l with [] => m !! f | lines => Some (default [] (m !! f) ++ lines) end.
Proof.
  revert m. induction l as [|[g n] l IH]; intros m; simpl; [done|]. rewrite IH. unfold noted_lines. simpl.
  unfold add_line. simpl. destruct (String.eqb_spec g f) as [->|Hne].
  - rewrite lookup_insert_eq. simpl. destruct (map snd _); [done|]. by rewrite <-app_assoc.
  - by rewrite lookup_insert_ne.
Qed.

(** The bare assertions a module hands to the executor are keyed by the name of
    the outermost function: for each name, the sorted lines of the assertions
    without a message, comparisons included, of every function of that name,
    those of methods of different classes together, and those of the functions
    nested in them; assertions outside functions are left out. *)
Theorem bare_asserts_by_outermost_function body f :
  (rewrite_asserts body).2 !! f =
    match noted_lines f (flat_map (bare None) body) with
    | [] => None
    | lines => Some (sort_by Z.compare lines)
    end.
Proof.
  rewrite asserts_rewritten. cbn [snd]. rewrite lookup_fmap, note_lookup, lookup_empty.
  by destruct (noted_lines _ _).
Qed.

(** ** Which assertions are left *)

(** The assertions of a statement. *)
Fixpoint asserts (s : stmt) : list (expr * option expr) :=
  match s with
  | Assert _ test msg => [(test, msg)]
  | FunctionDef _ _ _ body | ClassDef _ body | With _ _ body => flat_map asserts body
  | For _ _ body orelse | While _ body orelse | If _ _ body orelse =>
      flat_map asserts body ++ flat_map asserts orelse
  | Match _ cases => flat_map (λ c, flat_map asserts c.2) cases
  | Try _ _ body handlers orelse finalbody =>
      flat_map asserts body ++ flat_map (λ c, flat_map asserts c.2) handlers ++ flat_map asserts orelse ++
      flat_map asserts finalbody
  | _ => []
  end.

(** Operands are not captured for boolean operators and chained comparisons. *)
Definition left_alone (test : expr) : bool :=
  match test with
  | BoolOp _ _ _ => true
  | Compare _ _ [(op, _)] => bool_decide (op_str op = None)
  | Compare _ _ _ => true
  | _ => false
  end.

Lemma rewrite_assert_kept l test msg : rewrite_assert l test msg = None ↔ left_alone test = true.
Proof.
  destruct test as [? ? [|[op c] [|]]| | | | | |]; cbn [rewrite_assert rewrite_compare left_alone]; try done.
  rewrite bool_decide_eq_true. by destruct (op_str op).
Qed.

Lemma replacement_asserts l test msg new : rewrite_assert l test msg = Some new → flat_map asserts new = [].
Proof.
  destruct test as [? ? [|[op c] [|]]| | | | | |]; simpl; try done; [|intros [= <-]; done..].
  destruct (op_str op); [|done]. intros [= <-]. done.
Qed.

Abbreviation kept_only l := (List.filter (λ a : expr * option expr, left_alone a.1) l).

Definition leaves (s : stmt) : Prop :=
  flat_map asserts (rw s) = kept_only (asserts s) ∧ flat_map rw (rw s) = rw s.

Lemma leaves_list l : Forall leaves l →
  flat_map asserts (flat_map rw l) = kept_only (flat_map asserts l) ∧
  flat_map rw (flat_map rw l) = flat_map rw l.
Proof.
  induction 1 as [|s l [H1 H2] _ [IH1 IH2]]; simpl; [done|].
  rewrite !flat_map_app, List.filter_app, H1, H2, IH1, IH2. done.
Qed.

Lemma leaves_blocks (l : list (other * list stmt)) : Forall (λ c, Forall leaves c.2) l →
  let l' := map (λ c, (c.1, flat_map rw c.2)) l in
  flat_map (λ c, flat_map asserts c.2) l' = kept_only (flat_map (λ c, flat_map asserts c.2) l) ∧
  map (λ c, (c.1, flat_map rw c.2)) l' = l'.
Proof.
  induction 1 as [|[h body] l Hb _ [IH1 IH2]]; simpl; [done|].
  destruct (leaves_list body Hb) as [H1 H2]. by rewrite List.filter_app, H1, H2, IH1, IH2.
Qed.

Lemma stmt_leaves s : leaves s.
Proof.
  induction s using stmt_rect'; unfold leaves; simpl;
    repeat match goal with
    | H : Forall _ _ |- _ =>
        first [destruct (leaves_list _ H) as [? ?]|destruct (leaves_blocks _ H) as [? ?]]; clear H
    end; rewrite ?app_nil_r, ?List.filter_app; try (split; congruence).
  destruct (rewrite_assert l test msg) as [new|] eqn:E; simpl.
  - rewrite (replacement_asserts _ _ _ _ E). assert (left_alone test = false) as ->.
    { apply not_true_iff_false. rewrite <-(rewrite_assert_kept l test msg). congruence. }
    split; [done|]. destruct test as [? ? [|[op c] [|]]| | | | | |]; simpl in E; try done;
      [destruct (op_str op); [|done]|..]; by injection E as <-.
  - rewrite E, (proj1 (rewrite_assert_kept l test msg) E). done.
Qed.

(** The rewriter replaces every assertion of a module, at any depth, except
    those on a boolean operator and on a chained comparison, which it leaves;
    the replacements hold no assertion, and rewriting again changes nothing. *)
Theorem rewrites_every_capturable_assert body :
  flat_map asserts (rewrite_asserts body).1 = kept_only (flat_map asserts body) ∧
  (rewrite_asserts (rewrite_asserts body).1).1 = (rewrite_asserts body).1.
Proof.
  rewrite !asserts_rewritten. apply leaves_list, Forall_forall. intros s _. apply stmt_leaves.
Qed.

End Tree.

(** ** Meaning *)

(** What [compound] is told of a statement with blocks. *)
Inductive header {other : Type} :=
  | HFunctionDef (is_async : bool) (name : string) (h : other)
  | HClassDef (h : other)
  | HWith (is_async : bool) (h : other)
  | HFor (is_async : bool) (h : other)
  | HWhile (h : other)
  | HMatch (h : other) (cases : list other)
  | HTry (star : bool) (h : other) (handlers : list other).

Section Meaning.
Context {other value state exn jump : Type}.
Abbreviation expr := (@expr other).
Abbreviation stmt := (@stmt other).
Abbreviation M A := (state → state * result A exn).

(** How a statement ends; a [jump] is a [return], a [break] or a [continue]. *)
Inductive outcome := Done | Raised (x : exn) | Left (j : jump).

Abbreviation D := (state → state * outcome).

(** Python: evaluation of what the rewriter does not look into, names,
    operators, truth and calls, the exception of an assertion and of a [raise],
    and the compound statements as functions of their blocks. *)
Record Interpreter := {
  eval_other : other → M value;
  lookup_name : string → state → result value exn;
  store_name : string → value → state → state;
  compare_ : string → value → value → M value;
  truth : value → M bool;
  call_ : value → list value → M value;
  str_value : string → value;
  bool_value : bool → value;
  assertion_error : option value → exn;
  raised : value → exn;
  simple : other → D;
  compound : @header other → list D → D
}.

Context (py : Interpreter).

Definition ret {A} (a : A) : M A := λ s, (s, Ok a).
Definition mbind_ {A B} (m : M A) (k : A → M B) : M B := λ s,
  match m s with
  | (s, Ok a) => k a s
  | (s, Err x) => (s, Err x)
  end.
Local Notation "'let!' x := m 'in' k" := (mbind_ m (λ x, k)) (at level 10, x binder, m at level 100, k at level 200).

(** [v op c ...]: each comparison is tested before the next is made. *)
Definition eval_chain (ev : expr → M value) : value → list (string * expr) → M value :=
  fix go v rest :=
    match rest with
    | [] => ret v
    | (op, c) :: rest =>
        let! w := ev c in
        let! r := compare_ py op v w in
        match rest with
        | [] => ret r
        | _ => let! b := truth py r in if b then go w rest else ret r
        end
    end.

Definition eval_bool (ev : expr → M value) (is_and : bool) : list expr → M value :=
  fix go l :=
    match l with
    | [] => ret (bool_value py is_and)
    | e :: l =>
        let! v := ev e in
        match l with
        | [] => ret v
        | _ => let! b := truth py v in if Bool.eqb b is_and then go l else ret v
        end
    end.

Definition eval_args (ev : expr → M value) : list expr → M (list value) :=
  fix go l :=
    match l with
    | [] => ret []
    | e :: l => let! v := ev e in let! vs := go l in ret (v :: vs)
    end.

Fixpoint eval_expr (e : expr) : M value :=
  match e with
  | Compare _ lhs rest => let! v := eval_expr lhs in eval_chain eval_expr v rest
  | BoolOp _ is_and values => eval_bool eval_expr is_and values
  | UnaryNot _ operand => let! v := eval_expr operand in let! b := truth py v in ret (bool_value py (negb b))
  | Call _ func args => let! f := eval_expr func in let! vs := eval_args eval_expr args in call_ py f vs
  | Name _ id _ => λ s, (s, lookup_name py id s)
  | Constant _ value => ret (str_value py value)
  | OtherExpr _ o => eval_other py o
  end.

Definition eval_test (e : expr) : M bool := let! v := eval_expr e in truth py v.

(** An expression whose value, or exception, decides what happens. *)
Definition with_value {A} (m : M A) (k : A → D) : D := λ s,
  match m s with
  | (s, Ok a) => k a s
  | (s, Err x) => (s, Raised x)
  end.

Definition exec_list (f : stmt → D) : list stmt → D :=
  fix go l s :=
    match l with
    | [] => (s, Done)
    | st :: l => match f st s with (s, Done) => go l s | stopped => stopped end
    end.

Fixpoint exec (st : stmt) : D :=
  match st with
  | Assert _ test msg => with_value (eval_test test) (λ b,
      if b then λ s, (s, Done)
      else match msg with
      | None => λ s, (s, Raised (assertion_error py None))
      | Some m => with_value (eval_expr m) (λ v s, (s, Raised (assertion_error py (Some v))))
      end)
  | If _ test body orelse => with_value (eval_test test) (λ b,
      if b then exec_list exec body else exec_list exec orelse)
  | Assign _ target value => with_value (eval_expr value) (λ v s,
      match target with Name _ id _ => (store_name py id v s, Done) | _ => (s, Done) end)
  | Raise _ exc => with_value (eval_expr exc) (λ v s, (s, Raised (raised py v)))
  | Simple h => simple py h
  | FunctionDef a name h body => compound py (HFunctionDef a name h) [exec_list exec body]
  | ClassDef h body => compound py (HClassDef h) [exec_list exec body]
  | With a h body => compound py (HWith a h) [exec_list exec body]
  | For a h body orelse => compound py (HFor a h) [exec_list exec body; exec_list exec orelse]
  | While h body orelse => compound py (HWhile h) [exec_list exec body; exec_list exec orelse]
  | Match h cases => compound py (HMatch h (map fst cases)) (map (λ c, exec_list exec c.2) cases)
  | Try star h body handlers orelse finalbody =>
      compound py (HTry star h (map fst handlers))
        (exec_list exec body :: exec_list exec orelse :: exec_list exec finalbody
           :: map (λ c, exec_list exec c.2) handlers)
  end.

(** ** What the rewriting relies on *)

Definition temps : list string := ["_oxitest_l"; "_oxitest_r"; "_oxitest_v"].

Lemma temp_l : "_oxitest_l" ∈ temps.
Proof. repeat constructor. Qed.
Lemma temp_r : "_oxitest_r" ∈ temps.
Proof. repeat constructor. Qed.
Lemma temp_v : "_oxitest_v" ∈ temps.
Proof. repeat constructor. Qed.
Hint Resolve temp_l temp_r temp_v : core.

(** Two runs agree on results, up to the relations on values and exceptions. *)
Definition res_rel {A} (R : A → A → Prop) `{Equiv state, Equiv exn} (p p' : state * result A exn) : Prop :=
  p.1 ≡ p'.1 ∧
  match p.2, p'.2 with
  | Ok a, Ok a' => R a a'
  | Err x, Err x' => x ≡ x'
  | _, _ => False
  end.

Definition out_rel `{Equiv state, Equiv exn, Equiv jump} (p p' : state * outcome) : Prop :=
  p.1 ≡ p'.1 ∧
  match p.2, p'.2 with
  | Done, Done => True
  | Raised x, Raised x' => x ≡ x'
  | Left j, Left j' => j ≡ j'
  | _, _ => False
  end.

Definition block_rel `{Equiv state, Equiv exn, Equiv jump} (d d' : D) : Prop :=
  ∀ s s', s ≡ s' → out_rel (d s) (d' s').

(** States are related when they differ in the three temporaries, and in the
    code of the functions they hold; exceptions, when both are assertion errors
    with the same message.  The laws: what the rewriter does not look into
    respects the relations and leaves the temporaries of the frame alone; the
    loader has put the error class and the sentinel in the module; compound
    statements respect their blocks. *)
Class Laws `{Equiv value, Equiv state, Equiv exn, Equiv jump} (cls no_rhs : value)
    (error : value → value → value → value → value) : Prop := {
  law_other o s s' : s ≡ s' → res_rel (≡) (eval_other py o s) (eval_other py o s');
  law_compare op v v' w w' s s' : v ≡ v' → w ≡ w' → s ≡ s' →
    res_rel (≡) (compare_ py op v w s) (compare_ py op v' w' s');
  law_truth v v' s s' : v ≡ v' → s ≡ s' → res_rel eq (truth py v s) (truth py v' s');
  law_call f f' vs vs' s s' : f ≡ f' → Forall2 (≡) vs vs' → s ≡ s' →
    res_rel (≡) (call_ py f vs s) (call_ py f' vs' s');
  law_lookup x s s' : x ∉ temps → s ≡ s' →
    res_rel (≡) (s, lookup_name py x s) (s', lookup_name py x s');
  law_store x v v' s s' : v ≡ v' → s ≡ s' → store_name py x v s ≡ store_name py x v' s';
  law_store_temp t v s s' : t ∈ temps → s ≡ s' → s ≡ store_name py t v s';
  law_stored t v s : t ∈ temps → lookup_name py t (store_name py t v s) = Ok v;
  law_stored_ne t t' v s : t ∈ temps → t' ∈ temps → t ≠ t' →
    lookup_name py t (store_name py t' v s) = lookup_name py t s;
  law_keep_other o s t : t ∈ temps → lookup_name py t (eval_other py o s).1 = lookup_name py t s;
  law_keep_compare op v w s t : t ∈ temps → lookup_name py t (compare_ py op v w s).1 = lookup_name py t s;
  law_keep_truth v s t : t ∈ temps → lookup_name py t (truth py v s).1 = lookup_name py t s;
  law_keep_call f vs s t : t ∈ temps → lookup_name py t (call_ py f vs s).1 = lookup_name py t s;
  law_const x : str_value py x ≡ str_value py x;
  law_bool_refl b : bool_value py b ≡ bool_value py b;
  law_bool b s : truth py (bool_value py b) s = (s, Ok b);
  law_cls s : lookup_name py "_OxitestAssertionError" s = Ok cls;
  law_no_rhs s : lookup_name py "_oxitest_no_rhs" s = Ok no_rhs;
  law_error l r op m s : call_ py cls [l; r; op; m] s = (s, Ok (error l r op m));
  law_raised v v' : v ≡ v' → raised py v ≡ raised py v';
  law_assertion m m' : m ≡ m' → assertion_error py (Some m) ≡ assertion_error py (Some m');
  law_assertion_none : assertion_error py None ≡ assertion_error py None;
  law_error_some l r op m m' : m ≡ m' → assertion_error py (Some m) ≡ raised py (error l r op m');
  law_error_none l r op : assertion_error py None ≡ raised py (error l r op (str_value py ""));
  law_simple h : block_rel (simple py h) (simple py h);
  law_compound h ds ds' : Forall2 block_rel ds ds' → block_rel (compound py h ds) (compound py h ds')
}.

Section ExprInduction.
Context (P : expr → Prop).
Context (HCompare : ∀ l lhs rest, P lhs → Forall (λ c, P c.2) rest → P (Compare l lhs rest)).
Context (HBoolOp : ∀ l b values, Forall P values → P (BoolOp l b values)).
Context (HNot : ∀ l e, P e → P (UnaryNot l e)).
Context (HCall : ∀ l f args, P f → Forall P args → P (Call l f args)).
Context (HName : ∀ l id c, P (Name l id c)).
Context (HConstant : ∀ l v, P (Constant l v)).
Context (HOther : ∀ l o, P (OtherExpr l o)).

Fixpoint expr_rect' (e : expr) : P e :=
  match e with
  | Compare l lhs rest =>
      HCompare l lhs rest (expr_rect' lhs) (all_of (λ c : string * expr, P c.2) (λ c, expr_rect' c.2) rest)
  | BoolOp l b values => HBoolOp l b values (all_of P expr_rect' values)
  | UnaryNot l e => HNot l e (expr_rect' e)
  | Call l f args => HCall l f args (expr_rect' f) (all_of P expr_rect' args)
  | Name l id c => HName l id c
  | Constant l v => HConstant l v
  | OtherExpr l o => HOther l o
  end.
End ExprInduction.

(** Source code does not mention the temporaries. *)
Fixpoint plain (e : expr) : bool :=
  match e with
  | Compare _ lhs rest => plain lhs && forallb (λ c, plain c.2) rest
  | BoolOp _ _ values => forallb plain values
  | UnaryNot _ e => plain e
  | Call _ f args => plain f && forallb plain args
  | Name _ id _ => negb (bool_decide (id ∈ temps))
  | Constant _ _ | OtherExpr _ _ => true
  end.

Definition plain_opt (e : option expr) : bool := match e with Some e => plain e | None => true end.

Fixpoint plain_stmt (st : stmt) : bool :=
  match st with
  | Assert _ test msg => plain test && plain_opt msg
  | If _ test body orelse => plain test && forallb plain_stmt body && forallb plain_stmt orelse
  | Assign _ _ value => plain value
  | Raise _ exc => plain exc
  | Simple _ => true
  | FunctionDef _ _ _ body | ClassDef _ body | With _ _ body => forallb plain_stmt body
  | For _ _ body orelse | While _ body orelse => forallb plain_stmt body && forallb plain_stmt orelse
  | Match _ cases => forallb (λ c, forallb plain_stmt c.2) cases
  | Try _ _ body handlers orelse finalbody =>
      forallb plain_stmt body && forallb (λ c, forallb plain_stmt c.2) handlers
      && forallb plain_stmt orelse && forallb plain_stmt finalbody
  end.

Context `{Equiv value, Equiv state, Equiv exn, Equiv jump} {cls no_rhs : value}
  {error : value → value → value → value → value} `{!Laws cls no_rhs error}.

(** ** Expressions *)

(** [m] leaves the temporaries alone. *)
Definition keeps {A} (m : M A) : Prop :=
  ∀ s t, t ∈ temps → lookup_name py t (m s).1 = lookup_name py t s.

Lemma ret_keeps {A} (a : A) : keeps (ret a).
Proof. done. Qed.

Lemma bind_keeps {A B} (m : M A) (k : A → M B) : keeps m → (∀ a, keeps (k a)) → keeps (mbind_ m k).
Proof.
  intros Hm Hk s t Ht. unfold mbind_. specialize (Hm s t Ht).
  destruct (m s) as [s1 [a|x]]; simpl in *; [by rewrite Hk|done].
Qed.

Lemma truth_keeps v : keeps (truth py v).
Proof. intros s t. apply law_keep_truth. Qed.

Lemma chain_keeps ev rest : Forall (λ c, keeps (ev c.2)) rest → ∀ v, keeps (eval_chain ev v rest).
Proof.
  induction 1 as [|[op c] rest Hc _ IH]; intros v; cbn [eval_chain]; [apply ret_keeps|].
  apply bind_keeps; [done|]. intros w.
  apply bind_keeps; [by intros s t; apply law_keep_compare|]. intros r.
  destruct rest; [apply ret_keeps|]. apply bind_keeps; [apply truth_keeps|]. intros []; [apply IH|apply ret_keeps].
Qed.

Lemma bool_keeps ev is_and l : Forall (λ e, keeps (ev e)) l → keeps (eval_bool ev is_and l).
Proof.
  induction 1 as [|e l He _ IH]; cbn [eval_bool]; [apply ret_keeps|].
  apply bind_keeps; [done|]. intros v. destruct l; [apply ret_keeps|].
  apply bind_keeps; [apply truth_keeps|]. intros b. destruct (Bool.eqb b is_and); [apply IH|apply ret_keeps].
Qed.

Lemma args_keep ev l : Forall (λ e, keeps (ev e)) l → keeps (eval_args ev l).
Proof.
  induction 1 as [|e l He _ IH]; cbn [eval_args]; [apply ret_keeps|].
  apply bind_keeps; [done|]. intros v. apply bind_keeps; [done|]. intros vs. apply ret_keeps.
Qed.

Lemma eval_keeps e : keeps (eval_expr e).
Proof.
  induction e using expr_rect'; cbn [eval_expr].
  - apply bind_keeps; [done|]. by apply chain_keeps.
  - by apply bool_keeps.
  - apply bind_keeps; [done|]. intros v. apply bind_keeps; [apply truth_keeps|]. intros b. apply ret_keeps.
  - apply bind_keeps; [done|]. intros f. apply bind_keeps; [by apply args_keep|]. intros vs s t.
    apply law_keep_call.
  - done.
  - apply ret_keeps.
  - intros s t. apply law_keep_other.
Qed.

(** [m] and [m'] give related results in related states. *)
Definition agree {A} (R : A → A → Prop) (m m' : M A) : Prop := ∀ s s', s ≡ s' → res_rel R (m s) (m' s').

Lemma ret_agree {A} (R : A → A → Prop) a a' : R a a' → agree R (ret a) (ret a').
Proof. by intros HR s s' Hs. Qed.

Lemma bind_agree {A B} (R : A → A → Prop) (R' : B → B → Prop) (m m' : M A) (k k' : A → M B) :
  agree R m m' → (∀ a a', R a a' → agree R' (k a) (k' a')) → agree R' (mbind_ m k) (mbind_ m' k').
Proof.
  intros Hm Hk s s' Hs. unfold mbind_. destruct (Hm s s' Hs) as [Hs1 Hr].
  destruct (m s) as [s1 [a|x]], (m' s') as [s1' [a'|x']]; simpl in *; try done. by apply (Hk a a').
Qed.

Lemma truth_agree v v' : v ≡ v' → agree eq (truth py v) (truth py v').
Proof. intros Hv s s'. by apply law_truth. Qed.

Lemma chain_agree rest : Forall (λ c, agree (≡) (eval_expr c.2) (eval_expr c.2)) rest → ∀ v v', v ≡ v' →
  agree (≡) (eval_chain eval_expr v rest) (eval_chain eval_expr v' rest).
Proof.
  induction 1 as [|[op c] rest Hc _ IH]; intros v v' Hv; cbn [eval_chain]; [by apply ret_agree|].
  eapply bind_agree; [exact Hc|]. intros w w' Hw.
  apply (bind_agree (≡)); [by intros s s'; apply law_compare|]. intros r r' Hr.
  destruct rest; [by apply ret_agree|]. apply (bind_agree eq); [by apply truth_agree|].
  intros [] ? <-; [by apply IH|by apply ret_agree].
Qed.

Lemma bool_agree is_and l : Forall (λ e, agree (≡) (eval_expr e) (eval_expr e)) l →
  agree (≡) (eval_bool eval_expr is_and l) (eval_bool eval_expr is_and l).
Proof.
  induction 1 as [|e l He _ IH]; cbn [eval_bool]; [apply ret_agree, law_bool_refl|].
  eapply bind_agree; [exact He|]. intros v v' Hv. destruct l; [by apply ret_agree|].
  apply (bind_agree eq); [by apply truth_agree|]. intros b ? <-.
  destruct (Bool.eqb b is_and); [apply IH|by apply ret_agree].
Qed.

Lemma args_agree l : Forall (λ e, agree (≡) (eval_expr e) (eval_expr e)) l →
  agree (Forall2 (≡)) (eval_args eval_expr l) (eval_args eval_expr l).
Proof.
  induction 1 as [|e l He _ IH]; cbn [eval_args]; [by apply ret_agree|].
  eapply bind_agree; [exact He|]. intros v v' Hv. eapply bind_agree; [exact IH|]. intros vs vs' Hvs.
  by apply ret_agree, Forall2_cons.
Qed.

Lemma forallb_all {A} (f : A → bool) (Q : A → Prop) l :
  Forall (λ a, f a = true → Q a) l → forallb f l = true → Forall Q l.
Proof. induction 1; simpl; [done|]. intros [? ?]%andb_true_iff. constructor; auto. Qed.

Lemma plain_agree e : plain e = true → agree (≡) (eval_expr e) (eval_expr e).
Proof.
  induction e as [l lhs rest IH IHr|l b values IH|l e IH|l f args IH IHa|l id c|l v|l o] using expr_rect';
    cbn [eval_expr plain]; rewrite ?andb_true_iff.
  - intros [Hl Hr]. eapply bind_agree; [by apply IH|]. intros v v' Hv. apply chain_agree; [|done].
    by eapply forallb_all in Hr; [|exact IHr].
  - intros Hp. apply bool_agree. by eapply forallb_all.
  - intros Hp. eapply bind_agree; [by apply IH|]. intros v v' Hv. apply (bind_agree eq); [by apply truth_agree|].
    intros b ? <-. apply ret_agree, law_bool_refl.
  - intros [Hf Ha]. eapply bind_agree; [by apply IH|]. intros fv fv' Hfv.
    eapply bind_agree; [apply args_agree; by eapply forallb_all|]. intros vs vs' Hvs s s' Hs. by apply law_call.
  - intros Hn%negb_true_iff%bool_decide_eq_false s s'. by apply law_lookup.
  - intros _. apply ret_agree, law_const.
  - intros _ s s'. apply law_other.
Qed.

(** ** Statements *)

Lemma with_value_rel {A} (R : A → A → Prop) (m m' : M A) (k k' : A → D) :
  agree R m m' → (∀ a a', R a a' → block_rel (k a) (k' a')) → block_rel (with_value m k) (with_value m' k').
Proof.
  intros Hm Hk s s' Hs. unfold with_value. destruct (Hm s s' Hs) as [Hs1 Hr].
  destruct (m s) as [s1 [a|x]], (m' s') as [s1' [a'|x']]; simpl in *; try done. by apply Hk.
Qed.

Lemma test_agree e : plain e = true → agree eq (eval_test e) (eval_test e).
Proof. intros Hp. eapply bind_agree; [by apply plain_agree|]. intros v v' Hv. by apply truth_agree. Qed.

(** The exception of a failed assertion. *)
Definition fail_with (msg : option expr) : D :=
  match msg with
  | None => λ s, (s, Raised (assertion_error py None))
  | Some m => with_value (eval_expr m) (λ v s, (s, Raised (assertion_error py (Some v))))
  end.

(** The [raise] of a replacement, once its two operands have their values. *)
Lemma raise_rel l e1 e2 op msg v1 v2 s s' :
  plain_opt msg = true → s ≡ s' → eval_expr e1 s' = (s', Ok v1) → eval_expr e2 s' = (s', Ok v2) →
  out_rel (fail_with msg s)
    (exec (make_raise l (make_call l "_OxitestAssertionError" [e1; e2; make_constant l op; msg_expr l msg])) s').
Proof.
  intros Hm Hs E1 E2. unfold make_raise, make_call, make_name_load, make_constant.
  cbn [exec eval_expr eval_args]. unfold with_value at 1, mbind_. rewrite law_cls, E1, E2. cbn [ret].
  destruct msg as [m|]; cbn [msg_expr fail_with plain_opt] in *.
  - unfold with_value. destruct (plain_agree m Hm s s' Hs) as [Hs1 Hr].
    destruct (eval_expr m s) as [s1 [a|x]], (eval_expr m s') as [s1' [a'|x']]; simpl in *; try done.
    rewrite law_error. split; [done|]. by apply law_error_some.
  - simpl. rewrite law_error. split; [done|]. apply law_error_none.
Qed.

(** [if not t: r] runs [r] when [t] is false. *)
Lemma if_not_exec l t r s :
  exec (make_if_not_raise l t r) s =
    with_value (eval_test t) (λ b s, if b then (s, Done) else exec_list exec [r] s) s.
Proof.
  unfold make_if_not_raise. cbn [exec]. unfold with_value, eval_test, mbind_. cbn [eval_expr]. unfold mbind_.
  destruct (eval_expr t s) as [s1 [v|x]]; [|done]. destruct (truth py v s1) as [s2 [b|x]]; [|done].
  cbn [ret]. rewrite law_bool. by destruct b.
Qed.

Lemma exec_one st s : exec_list exec [st] s = exec st s.
Proof. cbn [exec_list]. by destruct (exec st s) as [s' []]. Qed.

Lemma exec_assert l test msg s :
  exec (Assert l test msg) s = with_value (eval_test test) (λ b, if b then λ s, (s, Done) else fail_with msg) s.
Proof. by destruct msg. Qed.

Lemma exec_assign l t e rest s :
  exec_list exec (make_assign l t e :: rest) s =
    with_value (eval_expr e) (λ v s, exec_list exec rest (store_name py t v s)) s.
Proof. cbn [exec_list make_assign make_name_store exec]. unfold with_value. by destruct (eval_expr e s) as [s1 []]. Qed.

(** An assertion whose test has come to [p], and the check of a replacement. *)
Lemma check_rel l t r msg p s' :
  res_rel eq p (eval_test t s') →
  (∀ s1, eval_test t s' = (s1, Ok false) → p.1 ≡ s1 → out_rel (fail_with msg p.1) (exec r s1)) →
  out_rel (with_value (λ _, p) (λ b, if b then λ s, (s, Done) else fail_with msg) s')
    (exec_list exec [make_if_not_raise l t r] s').
Proof.
  intros [Hs Hr] Hf. rewrite exec_one, if_not_exec. unfold with_value.
  destruct p as [s [b|x]], (eval_test t s') as [s1 [b'|x']]; simpl in *; try done. subst b'.
  destruct b; [done|]. pose proof (Hf s1 eq_refl Hs) as Ho. by destruct (exec r s1) as [s2 []].
Qed.

(** [assert test] and its replacement. *)
Lemma value_rewritten l test msg :
  plain test = true → plain_opt msg = true →
  block_rel (exec (Assert l test msg)) (exec_list exec (rewrite_value l test msg)).
Proof.
  intros Ht Hm s s' Hs. rewrite exec_assert. unfold rewrite_value. rewrite exec_assign.
  unfold with_value, eval_test, mbind_. destruct (plain_agree test Ht s s' Hs) as [Hs1 Hr].
  destruct (eval_expr test s) as [s1 [v|x]], (eval_expr test s') as [s1' [v'|x']]; simpl in Hs1, Hr; try done.
  set (s2 := store_name py "_oxitest_v" v' s1').
  assert (s1 ≡ s2) as Hs2 by (apply law_store_temp; [auto|done]).
  assert (lookup_name py "_oxitest_v" s2 = Ok v') as Hv by (apply law_stored; auto).
  assert (eval_test (make_name_load l "_oxitest_v") s2 = truth py v' s2) as Et
    by (unfold eval_test, mbind_; cbn [eval_expr make_name_load]; by rewrite Hv).
  apply (check_rel l _ _ msg (truth py v s1)); rewrite Et; [by apply law_truth|].
  intros s3 E3 H3. apply raise_rel with (v1 := v') (v2 := no_rhs); [done|done|..]; cbn [eval_expr make_name_load].
  - f_equal. assert (s3 = (truth py v' s2).1) as -> by by rewrite E3. rewrite law_keep_truth; auto.
  - by rewrite law_no_rhs.
Qed.

(** [assert lhs op rhs] and its replacement. *)
Lemma compare_rewritten l l' lhs op rhs msg new :
  rewrite_compare l lhs [(op, rhs)] msg = Some new →
  plain lhs = true → plain rhs = true → plain_opt msg = true →
  block_rel (exec (Assert l (Compare l' lhs [(op, rhs)]) msg)) (exec_list exec new).
Proof.
  unfold rewrite_compare. destruct (op_str op) as [op_string|]; [|done]. intros [= <-] Hl Hr Hm s s' Hs.
  rewrite exec_assert, exec_assign. unfold with_value at 2. unfold with_value, eval_test. cbn [eval_expr eval_chain].
  unfold mbind_ at 1 2. destruct (plain_agree lhs Hl s s' Hs) as [Hs1 Hr1].
  destruct (eval_expr lhs s) as [s1 [v|x]], (eval_expr lhs s') as [s1' [v'|x']]; simpl in Hs1, Hr1; try done.
  set (s2 := store_name py "_oxitest_l" v' s1').
  assert (s1 ≡ s2) as Hs2 by (apply law_store_temp; [auto|done]).
  rewrite exec_assign. unfold with_value, mbind_ at 1. destruct (plain_agree rhs Hr s1 s2 Hs2) as [Hs3 Hr3].
  assert (lookup_name py "_oxitest_l" (eval_expr rhs s2).1 = Ok v') as Hlv.
  { rewrite eval_keeps by auto. apply law_stored. auto. }
  destruct (eval_expr rhs s1) as [s3 [w|x]], (eval_expr rhs s2) as [s3' [w'|x']]; simpl in Hs3, Hr3, Hlv; try done.
  set (s4 := store_name py "_oxitest_r" w' s3').
  assert (s3 ≡ s4) as Hs4 by (apply law_store_temp; [auto|done]).
  assert (lookup_name py "_oxitest_r" s4 = Ok w') as Hrv by (apply law_stored; auto).
  assert (lookup_name py "_oxitest_l" s4 = Ok v') as Hlv'
    by (unfold s4; by rewrite law_stored_ne by auto).
  set (p := mbind_ (compare_ py op v w) (truth py) s3). set (test := Compare l _ _).
  assert (eval_test test s4 = mbind_ (compare_ py op v' w') (truth py) s4) as Et.
  { unfold eval_test, test, mbind_. cbn [eval_expr eval_chain make_name_load]. unfold mbind_. rewrite Hlv', Hrv.
    by destruct (compare_ py op v' w' s4) as [? []]. }
  match goal with |- out_rel ?a _ => assert (a =
    with_value (λ _, p) (λ b, if b then λ s, (s, Done) else fail_with msg) s4) as -> end.
  { unfold with_value, p, mbind_. by destruct (compare_ py op v w s3) as [? []]. }
  assert (∀ t, t ∈ temps → lookup_name py t (mbind_ (compare_ py op v' w') (truth py) s4).1 = lookup_name py t s4)
    as Hkeep by (apply bind_keeps; [by intros ? ?; apply law_keep_compare|apply truth_keeps]).
  apply check_rel; rewrite Et.
  - apply (bind_agree (≡)); [by intros ? ?; apply law_compare|apply truth_agree|done].
  - intros s5 E5 H5. apply raise_rel with (v1 := v') (v2 := w'); [done|done|..]; cbn [eval_expr make_name_load];
      f_equal; rewrite E5 in Hkeep; cbn [fst] in Hkeep; rewrite Hkeep; auto.
Qed.

(** ** Programs *)

Lemma exec_list_app a b s :
  exec_list exec (a ++ b) s = match exec_list exec a s with (s, Done) => exec_list exec b s | stopped => stopped end.
Proof.
  revert s. induction a as [|st a IH]; intros s; cbn [app exec_list]; [done|].
  destruct (exec st s) as [s1 []]; [apply IH|done..].
Qed.

Definition preserved (st : stmt) : Prop :=
  plain_stmt st = true → block_rel (exec st) (exec_list exec (rw st)).

Lemma preserved_list l : Forall preserved l → forallb plain_stmt l = true →
  block_rel (exec_list exec l) (exec_list exec (flat_map rw l)).
Proof.
  induction 1 as [|st l Hst _ IH]; cbn [forallb flat_map]; [by intros _ s s' Hs|].
  intros [Hp Hl]%andb_true_iff s s' Hs. rewrite exec_list_app. cbn [exec_list].
  destruct (Hst Hp s s' Hs) as [Hs1 Ho].
  destruct (exec st s) as [s1 []], (exec_list exec (rw st) s') as [s1' []]; simpl in *; try done. by apply IH.
Qed.

Lemma preserved_blocks (l : list (other * list stmt)) :
  Forall (λ c, Forall preserved c.2) l → forallb (λ c, forallb plain_stmt c.2) l = true →
  let l' := map (λ c, (c.1, flat_map rw c.2)) l in
  map fst l' = map fst l ∧
  Forall2 block_rel (map (λ c, exec_list exec c.2) l) (map (λ c, exec_list exec c.2) l').
Proof.
  induction 1 as [|[h body] l Hb _ IH]; simpl; [done|]. intros [Hp Hl]%andb_true_iff.
  destruct (IH Hl) as [-> IH2]. split; [done|]. constructor; [by apply preserved_list|done].
Qed.

Lemma assert_preserved l test msg : preserved (Assert l test msg).
Proof.
  unfold preserved. cbn [plain_stmt rw]. intros [Ht Hm]%andb_true_iff.
  assert (block_rel (exec (Assert l test msg)) (exec (Assert l test msg))) as Hrefl.
  { intros s s' Hs. rewrite !exec_assert. revert s s' Hs. apply (with_value_rel eq); [by apply test_agree|].
    intros b ? <-. destruct b; [by intros s s' Hs|]. destruct msg as [m|]; cbn [fail_with plain_opt] in *.
    - apply (with_value_rel (≡)); [by apply plain_agree|]. intros v v' Hv s s' Hs. split; [done|].
      by apply law_assertion.
    - intros s s' Hs. split; [done|]. apply law_assertion_none. }
  destruct (rewrite_assert l test msg) as [new|] eqn:E; cbn [default from_option id].
  - destruct test as [l' lhs [|[op rhs] [|]]| | | | | |]; cbn [rewrite_assert] in E; try done;
      [|injection E as <-; by apply value_rewritten..].
    apply andb_true_iff in Ht as [Hl Hr]. apply (compare_rewritten l l' lhs op rhs msg new E); [done| |done].
    cbn in Hr. by rewrite andb_true_r in Hr.
  - intros s s' Hs. rewrite exec_one. by apply Hrefl.
Qed.

(** A compound statement whose blocks are preserved. *)
Lemma compound_preserved h ds ds' st :
  exec st = compound py h ds' → Forall2 block_rel ds ds' → block_rel (compound py h ds) (exec_list exec [st]).
Proof. intros E Hd s s' Hs. rewrite exec_one, E. by apply law_compound. Qed.

Lemma stmt_preserved st : preserved st.
Proof.
  induction st as [| | | | | |l test body orelse IHb IHo|h cases IHc|star h body handlers orelse finalbody IHb IHh IHo IHf
    |l t v|l x|h] using stmt_rect'; [apply assert_preserved|..];
    unfold preserved; cbn [plain_stmt rw exec]; rewrite ?andb_true_iff.
  1-3: intros Hp; eapply compound_preserved; [done|]; by repeat constructor; apply preserved_list.
  1-2: intros [? ?]; eapply compound_preserved; [done|]; by repeat constructor; apply preserved_list.
  - intros [[Ht Hb] Ho] s s' Hs. rewrite exec_one. revert s s' Hs. cbn [exec].
    apply (with_value_rel eq); [by apply test_agree|]. intros b ? <-. destruct b; by apply preserved_list.
  - intros Hc. destruct (preserved_blocks cases IHc Hc) as [E Hd].
    eapply compound_preserved; [cbn [exec]; rewrite E; done|done].
  - intros [[[Hb Hh] Ho] Hf]. destruct (preserved_blocks handlers IHh Hh) as [E Hd].
    eapply compound_preserved; [cbn [exec]; rewrite E; done|]. repeat constructor; try by apply preserved_list. done.
  - intros Hp s s' Hs. rewrite exec_one. revert s s' Hs. cbn [exec].
    apply (with_value_rel (≡)); [by apply plain_agree|]. intros w w' Hw s s' Hs.
    destruct t; try done. split; [by apply law_store|done].
  - intros Hp s s' Hs. rewrite exec_one. revert s s' Hs. cbn [exec].
    apply (with_value_rel (≡)); [by apply plain_agree|]. intros w w' Hw s s' Hs.
    split; [done|]. by apply law_raised.
  - intros _ s s' Hs. rewrite exec_one. by apply law_simple.
Qed.

(** C15: The rewritten module does what the module does: run from related states, the
    two end in related states and in the same way, with related exceptions; an
    assertion that fails in the one fails in the other, with an assertion error
    that has the same message. *)
Theorem rewriting_preserves_behaviour body :
  forallb plain_stmt body = true →
  block_rel (exec_list exec body) (exec_list exec (rewrite_asserts body).1).
Proof.
  intros Hp. rewrite asserts_rewritten. apply preserved_list; [|done].
  apply Forall_forall. intros st _. apply stmt_preserved.
Qed.

End Meaning.

(** ** Examples *)

(** Two classes with a method of one name: the lines of both are handed to the
    executor for either method. *)
Example same_method_name_shares_lines :
  let test line := FunctionDef false "test_x" tt [Assert (line, 4%Z) (OtherExpr (line, 11%Z) tt) None] in
  (rewrite_asserts [ClassDef tt [test 3%Z]; ClassDef tt [test 7%Z]]).2 !! "test_x" = Some [3; 7]%Z.
Proof. reflexivity. Qed.

(** A small interpreter: integers, strings, booleans, the error class and its
    instances; a compound statement runs its first block. *)
Inductive dval :=
  | DInt (n : Z) | DStr (s : string) | DBool (b : bool) | DCls | DNoRhs
  | DErr (l r op m : dval).

Inductive dexn := XName | XRaised (v : dval) | XAssert (m : option dval).

Definition demo_state : Type := gmap string dval.

#[local] Instance dval_equiv : Equiv dval := eq.
#[local] Instance demo_state_equiv : Equiv demo_state := λ s s', ∀ x, x ∉ temps → s !! x = s' !! x.
#[local] Instance unit_jump_equiv : Equiv unit := eq.

(** The message of an assertion error. *)
Definition assertion_message (x : dexn) : option dval :=
  match x with
  | XAssert m => Some (default (DStr "") m)
  | XRaised (DErr _ _ _ m) => Some m
  | _ => None
  end.

#[local] Instance dexn_equiv : Equiv dexn := λ x x',
  x = x' ∨ ∃ m, assertion_message x = Some m ∧ assertion_message x' = Some m.

#[local] Instance dval_eq_dec : EqDecision dval.
Proof. solve_decision. Defined.

Definition demo_py : @Interpreter Z dval demo_state dexn unit := {|
  eval_other := λ o s, (s, Ok (DInt o));
  lookup_name := λ x s,
    if String.eqb x "_OxitestAssertionError" then Ok DCls
    else if String.eqb x "_oxitest_no_rhs" then Ok DNoRhs
    else match s !! x with Some v => Ok v | None => Err XName end;
  store_name := λ x v s, <[x := v]> s;
  compare_ := λ _ v w s, (s, Ok (DBool (bool_decide (v = w))));
  truth := λ v s, (s, Ok (match v with DBool b => b | _ => true end));
  call_ := λ f vs s, (s, match f, vs with DCls, [l; r; op; m] => Ok (DErr l r op m) | _, _ => Err XName end);
  str_value := DStr;
  bool_value := DBool;
  assertion_error := XAssert;
  raised := XRaised;
  simple := λ _ s, (s, Done);
  compound := λ _ ds, match ds with d :: _ => d | [] => λ s, (s, Done) end
|}.

#[local] Instance demo_laws : Laws demo_py DCls DNoRhs DErr.
Proof.
  assert (∀ x : dexn, x ≡ x) as Hx by by left.
  assert (∀ t, t ∈ temps → t ≠ "_OxitestAssertionError" ∧ t ≠ "_oxitest_no_rhs") as Ht.
  { unfold temps. intros t Ht. rewrite !elem_of_cons in Ht.
    destruct Ht as [->|[->|[->|[]%elem_of_nil]]]; split; discriminate. }
  split; unfold equiv, dval_equiv; simpl; try done.
  - by intros _ v v' w w' s s' <- <- Hs.
  - by intros v v' s s' <- Hs.
  - intros f f' vs vs' s s' <- ->%list_eq_Forall2 Hs. split; [done|]. simpl. by repeat case_match.
  - intros x s s' Hn Hs. split; [done|]. simpl. rewrite (Hs x Hn). by repeat case_match.
  - intros x v v' s s' <- Hs y Hy. unfold demo_state in *. rewrite !lookup_insert. case_decide; [done|]. by apply Hs.
  - intros t v s s' Ht' Hs y Hy. unfold demo_state in *. rewrite lookup_insert_ne by congruence. by apply Hs.
  - intros t v s [H1 H2]%Ht. unfold demo_state in *. by rewrite !(proj2 (String.eqb_neq _ _)), lookup_insert_eq.
  - intros t t' v s _ _ Hne. unfold demo_state in *. by rewrite lookup_insert_ne.
  - intros v ? <-. apply Hx.
  - intros m ? <-. apply Hx.
  - apply Hx.
  - intros l r op m ? <-. right. by exists m.
  - intros l r op. right. by exists (DStr "").
  - intros _ ds ds' [|d d' ds1 ds1' Hd _]; [by intros s s' Hs|exact Hd].
Qed.

(** [assert 1 == 2] *)
Definition demo_assert : @stmt Z :=
  Assert (5, 4)%Z (Compare (5, 11)%Z (OtherExpr (5, 11)%Z 1%Z) [("Eq", OtherExpr (5, 16)%Z 2%Z)]) None.

Lemma rewriting_preserves_behaviour_witness :
  out_rel (exec_list (exec demo_py) [demo_assert] ∅)
    (exec_list (exec demo_py) (rewrite_asserts [demo_assert]).1 ∅) ∧
  (exec_list (exec demo_py) (rewrite_asserts [demo_assert]).1 ∅).2 =
    Raised (XRaised (DErr (DInt 1) (DInt 2) (DStr "==") (DStr ""))).
Proof.
  split; [|vm_compute; reflexivity].
  apply (rewriting_preserves_behaviour demo_py (cls := DCls) (no_rhs := DNoRhs) (error := DErr) [demo_assert]);
    [vm_compute; reflexivity|done].
Defined.
