(* ===== verification/Doctest.v ===== *)
(** * Doctest: examples, public subjects and aliases ([src/doctest])

    [scanner.rs] finds the [>>>] examples of docstrings, [subjects.rs] lists the
    public names of a module, [alias.rs] follows a re-exported name to its
    definition.  The parser and the file system are parameters, and so is the
    directory walk of the [ignore] crate. *)
From Stdlib Require Import Ascii.
From S2P Require Import Prelude Collections Text Paths Types Ast.

(** ** Examples ([scanner.rs]) *)

Record DoctestExample := mk_example { ex_source : string; ex_want : string; ex_lineno : nat }.

Record PendingExample := mk_pending { pe_source : string; pe_lineno : nat }.

(** The variables of the loop of [parse_docstring_examples]. *)
Record doc_state := mk_doc {
  ds_examples : list DoctestExample;
  ds_pending : option PendingExample;
  ds_want : string
}.

(** [trimmed.strip_prefix("p ")], or the bare prompt. *)
Definition after_prompt (p trimmed : string) : option string :=
  match strip_prefix (p +:+ " ") trimmed with
  | Some rest => Some rest
  | None => if String.eqb trimmed p then Some "" else None
  end.

Definition flush (st : doc_state) : list DoctestExample :=
  match ds_pending st with
  | Some p => ds_examples st ++ [mk_example (pe_source p) (ds_want st) (pe_lineno p)]
  | None => ds_examples st
  end.

Definition doc_step (index : nat) (line : string) (st : doc_state) : doc_state :=
  let trimmed := trim line in
  match after_prompt ">>>" trimmed with
  | Some rest => mk_doc (flush st) (Some (mk_pending (rest +:+ newline) index)) ""
  | None =>
      match after_prompt "..." trimmed with
      | Some rest =>
          mk_doc (ds_examples st)
            ((λ p, mk_pending (pe_source p +:+ rest +:+ newline) (pe_lineno p)) <$> ds_pending st)
            (ds_want st)
      | None =>
          match ds_pending st with
          | Some p =>
              if String.eqb trimmed "" then mk_doc (flush st) None ""
              else mk_doc (ds_examples st) (Some p) (ds_want st +:+ trimmed +:+ newline)
          | None => st
          end
      end
  end.

Fixpoint doc_loop (index : nat) (l : list string) (st : doc_state) : doc_state :=
  match l with
  | [] => st
  | line :: l => doc_loop (S index) l (doc_step index line st)
  end.

Definition parse_docstring_examples (docstring : string) : list DoctestExample :=
  flush (doc_loop 0 (str_lines docstring) (mk_doc [] None "")).

Definition parse_docstring_examples_v2 (docstring : string) : bool * list DoctestExample :=
  (existsb (λ line, let trimmed := trim_start line in
      String.eqb trimmed "Examples:" || String.eqb trimmed "Example:") (str_lines docstring),
   parse_docstring_examples docstring).

Record DoctestLocation := mk_location {
  dl_name : string;
  dl_lineno : N;
  dl_example_count : nat
}.

Definition extract_docstring (body : list Stmt.t) : option string :=
  match body with
  | Stmt.Expr_ _ (Expr.Constant _ (CStr s)) :: _ => Some s
  | _ => None
  end.

(** The location [try_push_doctest] pushes, if any. *)
Definition try_push_doctest (name : string) (body : list Stmt.t) (lineno : N) : list DoctestLocation :=
  match extract_docstring body with
  | Some doc =>
      let count := length (parse_docstring_examples doc) in
      if 0 <? count then [mk_location name lineno count] else []
  | None => []
  end.

Definition doctests_of_stmt (module_name : string) (line_index : list N) (s : Stmt.t)
    : list DoctestLocation :=
  let at_ r := offset_to_line line_index (r_start r) in
  match try_from_stmt s with
  | Some def =>
      try_push_doctest (module_name +:+ "." +:+ def_name def) (def_body def) (at_ (def_range def))
  | None =>
      match s with
      | Stmt.ClassDef cls =>
          try_push_doctest (module_name +:+ "." +:+ cls_name cls) (cls_body cls) (at_ (cls_range cls)) ++
          flat_map (λ method,
            match try_from_stmt method with
            | Some def =>
                try_push_doctest (module_name +:+ "." +:+ cls_name cls +:+ "." +:+ def_name def)
                  (def_body def) (at_ (def_range def))
            | None => []
            end) (cls_body cls)
      | _ => []
      end
  end.

(** [path.file_stem()] *)
Definition path_file_stem (p : string) : option string := file_stem <$> file_name p.

Definition scan_parsed (path source : string) (stmts : list Stmt.t) : list DoctestLocation :=
  let module_name := default path (path_file_stem path) in
  try_push_doctest module_name stmts 1 ++
  flat_map (doctests_of_stmt module_name (build_line_index source)) stmts.

(** ** Subjects ([subjects.rs]) *)

Definition is_public_module_path (dotted : string) : bool :=
  forallb (λ component, negb (starts_with "_" component)) (split "." dotted).

(** A file name loses [.py], and [__init__] is the package itself. *)
Definition module_parts (parts : list string) : list string :=
  match reverse parts with
  | [] => []
  | last :: rest =>
      let last := default last (strip_suffix ".py" last) in
      if String.eqb last "__init__" then reverse rest else reverse (last :: rest)
  end.

Definition path_parts (rel : string) : list string := map component_str (components rel).

Definition dotted_path_for (rel : string) : string := join "." (module_parts (path_parts rel)).

Definition extract_dunder_all (stmts : list Stmt.t) : option (list string) :=
  find_map (λ s,
    match s with
    | Stmt.Assign _ [Expr.Name _ id] value =>
        if negb (String.eqb id "__all__") then None
        else match value with
        | Expr.List _ elts =>
            Some (omap (λ e, match e with Expr.Constant _ (CStr x) => Some x | _ => None end) elts)
        | _ => None
        end
    | _ => None
    end) stmts.

Inductive SubjectSource :=
  | LocalDefinition
  | AliasImport (source_module source_name : string)
  | LocalAlias (source_name : string)
  | CallRhs
  | UnknownSource.

Record Subject := mk_subject {
  sj_public_id : string;
  sj_name : string;
  sj_source : SubjectSource;
  sj_file : string;
  sj_class_context : option string
}.

Definition classify_rhs (rhs : Expr.t) : SubjectSource :=
  match rhs with
  | Expr.Name _ id => LocalAlias id
  | Expr.Call _ _ _ _ => CallRhs
  | _ => UnknownSource
  end.

Definition is_relative (level : option N) : bool :=
  match level with Some l => negb (l =? 0)%N | None => false end.

Definition classify_stmt (name : string) (s : Stmt.t) : option SubjectSource :=
  match s with
  | Stmt.ClassDef cls => if String.eqb (cls_name cls) name then Some LocalDefinition else None
  | Stmt.FunctionDef f => if String.eqb (fn_name f) name then Some LocalDefinition else None
  | Stmt.AsyncFunctionDef f => if String.eqb (fn_name f) name then Some LocalDefinition else None
  | Stmt.ImportFrom _ module l level =>
      if is_relative level then None
      else find_map (λ a,
        if String.eqb (default (al_name a) (al_asname a)) name
        then Some (AliasImport (default "" module) (al_name a)) else None) l
  | Stmt.Assign _ [Expr.Name _ id] value =>
      if String.eqb id name then Some (classify_rhs value) else None
  | _ => None
  end.

Definition classify_top_level_binding (stmts : list Stmt.t) (name : string) : option SubjectSource :=
  find_map (classify_stmt name) stmts.

Definition fallback_top_level_names (stmts : list Stmt.t) : list string :=
  omap (λ s,
    match s with
    | Stmt.ClassDef cls => if starts_with "_" (cls_name cls) then None else Some (cls_name cls)
    | Stmt.FunctionDef f => if starts_with "_" (fn_name f) then None else Some (fn_name f)
    | Stmt.AsyncFunctionDef f => if starts_with "_" (fn_name f) then None else Some (fn_name f)
    | Stmt.Assign _ [Expr.Name _ id] _ => if starts_with "_" id then None else Some id
    | _ => None
    end) stmts.

Definition subject_names (stmts : list Stmt.t) : list string :=
  match extract_dunder_all stmts with
  | Some explicit => explicit
  | None => fallback_top_level_names stmts
  end.

Definition enumerate_subjects (stmts : list Stmt.t) (module_dotted file : string) : list Subject :=
  omap (λ name, (λ source, mk_subject (module_dotted +:+ "." +:+ name) name source file None) <$>
    classify_top_level_binding stmts name) (subject_names stmts).

(** The definition a name has in a block: the first class, or the first function
    whose body is not [...]. *)
Definition def_at (name : string) (s : Stmt.t) : option (range * list Stmt.t) :=
  match s with
  | Stmt.ClassDef c => if String.eqb (cls_name c) name then Some (cls_range c, cls_body c) else None
  | Stmt.FunctionDef f | Stmt.AsyncFunctionDef f =>
      if String.eqb (fn_name f) name && negb (is_stub_body (fn_body f))
      then Some (fn_range f, fn_body f) else None
  | _ => None
  end.

(** [(0, None)] where the [debug_assert!] of a debug build stops. *)
Definition find_def_line_and_docstring (stmts : list Stmt.t) (name : string) (line_index : list N)
    : N * option string :=
  match find_map (def_at name) stmts with
  | Some (r, body) => (offset_to_line line_index (r_start r), extract_docstring body)
  | None => (0%N, None)
  end.

Section Files.
Context (suite_parse : string → string → result (list Stmt.t) ParseError).
Context (read_to_string : string → result string string).
Context (exists_ : string → bool).

Definition scan_doctests (path : string) : list DoctestLocation :=
  match parse_file suite_parse read_to_string path with
  | None => []
  | Some (source, stmts) => scan_parsed path source stmts
  end.

(** The walk of [dotted_path_for_file]: the components at or above the first
    ancestor without [__init__.py].  A path has at most [depth] ancestors. *)
Fixpoint strip_count_loop (rootdir : string) (fuel : nat) (current : option string) : nat :=
  match fuel with
  | 0 => 0
  | S fuel =>
      match current with
      | None => 0
      | Some dir =>
          if exists_ (path_join (path_join rootdir dir) "__init__.py")
          then strip_count_loop rootdir fuel (path_parent dir)
          else depth dir
      end
  end.

Definition dotted_path_for_file (rel rootdir : string) : string :=
  let strip_count := strip_count_loop rootdir (S (depth rel)) (path_parent rel) in
  if strip_count =? 0 then dotted_path_for rel
  else join "." (module_parts (drop strip_count (path_parts rel))).

(** ** Modules on disk ([alias.rs]) *)

(** An entry of the directory walk: its path, [None] when it is not UTF-8, its
    depth, and whether it is a directory, when its type is known. *)
Record walk_entry := { we_path : option string; we_depth : nat; we_is_dir : option bool }.
Context (walk_one : string → bool → list walk_entry).

Record ModuleRoot := { mr_root : string; mr_use_gitignore : bool }.

Definition try_resolve_under (base dotted : string) : option string :=
  let candidate := fold_left path_join (split "." dotted) base in
  let init := path_join candidate "__init__.py" in
  if exists_ init then Some init
  else let module_file := with_extension candidate "py" in
    if exists_ module_file then Some module_file else None.

Definition source_root_candidates (root : ModuleRoot) : list string :=
  omap (λ e,
    if we_depth e =? 0 then None
    else match we_is_dir e with
    | Some true =>
        match we_path e with
        | Some path => if exists_ (path_join path "__init__.py") then None else Some path
        | None => None
        end
    | _ => None
    end) (walk_one (mr_root root) (mr_use_gitignore root)).

Definition resolve_module (root : ModuleRoot) (dotted : string) : option string :=
  match try_resolve_under (mr_root root) dotted with
  | Some path => Some path
  | None => find_map (λ candidate, try_resolve_under candidate dotted) (source_root_candidates root)
  end.

Inductive AliasError :=
  | Cycle (path : list string)
  | UnknownTerminus (at_ : string)
  | ParseFailureAt (file : string)
  | NameNotFound (module name : string)
  | ModuleFileNotFound (module : string).

Record Resolved := mk_resolved { rs_file : string; rs_lineno : N; rs_docstring : option string }.

(** One turn of the loop of [resolve_alias] on a module and a name: a result, or
    where the walk goes next. *)
Definition alias_step (root : ModuleRoot) (key : string * string)
    : result Resolved AliasError + (string * string) :=
  let '(current_module, current_name) := key in
  match resolve_module root current_module with
  | None => inl (Err (ModuleFileNotFound current_module))
  | Some file =>
      match parse_file suite_parse read_to_string file with
      | None => inl (Err (ParseFailureAt file))
      | Some (source, stmts) =>
          match classify_top_level_binding stmts current_name with
          | None => inl (Err (NameNotFound current_module current_name))
          | Some LocalDefinition =>
              let '(lineno, docstring) :=
                find_def_line_and_docstring stmts current_name (build_line_index source) in
              inl (Ok (mk_resolved file lineno docstring))
          | Some (LocalAlias source_name) => inr (current_module, source_name)
          | Some (AliasImport source_module source_name) => inr (source_module, source_name)
          | Some CallRhs | Some UnknownSource =>
              inl (Err (UnknownTerminus (current_module +:+ "." +:+ current_name)))
          end
      end
  end.

Definition key_eqb (a b : string * string) : bool := String.eqb a.1 b.1 && String.eqb a.2 b.2.

Fixpoint alias_loop (root : ModuleRoot) (fuel : nat) (seen : list (string * string))
    (key : string * string) : option (result Resolved AliasError) :=
  match fuel with
  | 0 => None
  | S fuel =>
      if existsb (key_eqb key) seen
      then Some (Err (Cycle (map (λ k, k.1 +:+ "." +:+ k.2) seen)))
      else match alias_step root key with
      | inl r => Some r
      | inr next => alias_loop root fuel (seen ++ [key]) next
      end
  end.

(** Where the walk of an alias starts; another binding has no walk. *)
Definition alias_start (source : SubjectSource) (starting_module : string) : option (string * string) :=
  match source with
  | AliasImport source_module source_name => Some (source_module, source_name)
  | LocalAlias source_name => Some (starting_module, source_name)
  | LocalDefinition | CallRhs | UnknownSource => None
  end.

Definition resolve_alias (root : ModuleRoot) (fuel : nat) (source : SubjectSource)
    (starting_module : string) : option (result Resolved AliasError) :=
  match alias_start source starting_module with
  | Some key => alias_loop root fuel [] key
  | None => Some (Err (UnknownTerminus starting_module))
  end.

End Files.

(** * Theorems *)

(** ** Examples *)

(** A line of an example below its first: a continuation or expected output. *)
Inductive body_line := More (rest : string) | Output (text : string).

(** An example as it is written: the line after the prompt, the lines below it,
    and what follows up to the next prompt or the end: nothing, or a blank line
    and any prose. *)
Record written := mk_written { w_first : string; w_body : list body_line; w_gap : list string }.

Definition prompted (p l : string) : string := if String.eqb l "" then p else p +:+ " " +:+ l.

Definition write_line (b : body_line) : string :=
  match b with More rest => prompted "..." rest | Output text => text end.

Definition write_example (w : written) : list string :=
  prompted ">>>" (w_first w) :: map write_line (w_body w) ++ w_gap w.

Definition as_lines (l : list string) : string := String.concat "" (map (λ x, x +:+ newline) l).

Definition source_lines (l : list body_line) : list string :=
  omap (λ b, match b with More rest => Some rest | Output _ => None end) l.

Definition output_lines (l : list body_line) : list string :=
  omap (λ b, match b with Output text => Some text | More _ => None end) l.

Definition read_example (index : nat) (w : written) : DoctestExample :=
  mk_example (as_lines (w_first w :: source_lines (w_body w))) (as_lines (output_lines (w_body w))) index.

(** The examples of a docstring whose trimmed lines are the written examples. *)
Fixpoint read_examples (index : nat) (l : list written) : list DoctestExample :=
  match l with
  | [] => []
  | w :: l => read_example index w :: read_examples (index + length (write_example w)) l
  end.

Definition body_ok (b : body_line) : Prop :=
  match b with
  | More _ => True
  | Output l => l ≠ "" ∧ after_prompt ">>>" l = None ∧ after_prompt "..." l = None
  end.

Definition prose (l : list string) : Prop := Forall (λ x, after_prompt ">>>" x = None) l.

Definition example_ok (w : written) : Prop :=
  Forall body_ok (w_body w) ∧ (w_gap w = [] ∨ ∃ l, w_gap w = "" :: l ∧ prose l).

Lemma after_prompted p l : p ≠ "" → after_prompt p (prompted p l) = Some l.
Proof.
  intros Hp. unfold after_prompt, prompted. destruct (String.eqb_spec l "") as [->|].
  - assert (strip_prefix (p +:+ " ") p = None) as ->; [|by rewrite String.eqb_refl].
    destruct (strip_prefix (p +:+ " ") p) as [r|] eqn:E; [|done].
    apply strip_prefix_Some in E. apply (f_equal String.length) in E.
    rewrite !str_length_app in E. simpl in E. lia.
  - by rewrite <-str_app_assoc, strip_prefix_app.
Qed.

Lemma after_prompt_other l : after_prompt ">>>" (prompted "..." l) = None.
Proof. unfold prompted. by destruct (String.eqb l ""). Qed.

Lemma as_lines_cons x l : as_lines (x :: l) = x +:+ newline +:+ as_lines l.
Proof.
  unfold as_lines. destruct l as [|y l]; simpl.
  - by rewrite str_app_nil_r.
  - by rewrite str_app_nil_l, str_app_assoc.
Qed.

(** Three runs of the loop: continuations, outputs, the blank line. *)
(** The body of an example. *)
Lemma doc_loop_body index raws l st p :
  map trim raws = map write_line l → Forall body_ok l → ds_pending st = Some p →
  doc_loop index raws st = mk_doc (ds_examples st)
    (Some (mk_pending (pe_source p +:+ as_lines (source_lines l)) (pe_lineno p)))
    (ds_want st +:+ as_lines (output_lines l)).
Proof.
  revert index raws st p. induction l as [|x l IH]; intros index [|raw raws] st p; try done.
  - intros _ _ Hp. simpl. destruct st, p. simpl in *. by rewrite Hp, !str_app_nil_r.
  - intros [= Ht Hl] [Hx HF]%Forall_cons Hp. simpl. unfold doc_step. rewrite Ht. destruct x as [r|t]; simpl.
    + rewrite after_prompt_other, after_prompted by done. rewrite Hp. simpl. erewrite IH by done. simpl.
      by rewrite as_lines_cons, !str_app_assoc.
    + destruct Hx as (Hx & H1 & H2). rewrite H1, H2, Hp. destruct (String.eqb_spec t ""); [done|].
      erewrite IH by done. simpl. by rewrite as_lines_cons, !str_app_assoc.
Qed.

(** Prose outside an example leaves the state as it is. *)
Lemma doc_loop_prose index raws st :
  prose (map trim raws) → ds_pending st = None → doc_loop index raws st = st.
Proof.
  revert index. induction raws as [|raw raws IH]; intros index; [done|]. cbn [map doc_loop].
  intros [Hr HF]%Forall_cons Hp. assert (doc_step index raw st = st) as ->; [|by apply IH].
  unfold doc_step. rewrite Hr, Hp. destruct (after_prompt "..." (trim raw)); [|done].
  destruct st. simpl in *. by rewrite Hp.
Qed.

Lemma doc_loop_app index a b st :
  doc_loop index (a ++ b) st = doc_loop (index + length a) b (doc_loop index a st).
Proof.
  revert index st. induction a as [|x a IH]; intros index st; simpl; [by rewrite Nat.add_0_r|].
  rewrite IH. f_equal. lia.
Qed.

(** One example, from any state: what was pending is an example of its own. *)
Lemma doc_loop_example index raws w st :
  map trim raws = write_example w → example_ok w →
  flush (doc_loop index raws st) = flush st ++ [read_example index w].
Proof.
  intros Ht [HF Hg]. unfold write_example in Ht. destruct raws as [|raw raws]; [done|].
  injection Ht as Ht0 Ht. apply map_eq_app in Ht as (r1 & r2 & -> & H1 & H2).
  cbn [doc_loop]. unfold doc_step at 1. rewrite Ht0, after_prompted by done.
  rewrite doc_loop_app. erewrite (doc_loop_body _ r1) by done. cbn [ds_examples ds_want pe_source pe_lineno].
  rewrite str_app_nil_l, str_app_assoc, <-as_lines_cons.
  destruct Hg as [Hg|(l & Hg & Hl)]; rewrite Hg in H2.
  - apply map_eq_nil in H2 as ->. done.
  - destruct r2 as [|raw' r2]; [done|]. injection H2 as H2 H3. cbn [doc_loop].
    unfold doc_step at 1. rewrite H2. cbn. rewrite doc_loop_prose; [done|by rewrite H3|done].
Qed.

Lemma doc_loop_examples index raws l st :
  map trim raws = flat_map write_example l → Forall example_ok l →
  flush (doc_loop index raws st) = flush st ++ read_examples index l.
Proof.
  intros Ht HF. revert index raws st Ht. induction HF as [|w l Hw HF IH]; intros index raws st Ht.
  - apply map_eq_nil in Ht as ->. by rewrite app_nil_r.
  - change (flat_map write_example (w :: l)) with (write_example w ++ flat_map write_example l) in Ht.
    apply map_eq_app in Ht as (r1 & r2 & -> & H1 & H2). rewrite doc_loop_app, (IH _ r2) by done.
    rewrite (doc_loop_example _ r1 w) by done. cbn [read_examples]. by rewrite <-app_assoc, <-H1, length_map.
Qed.

(** C38: Reading back what is written.  Take any prose, then examples, each a
    prompt line, continuation and output lines in any order, and after them
    either a blank line with prose, or nothing, so that the next prompt or the
    end of the docstring follows at once.  A docstring whose trimmed lines are
    these parses to exactly those examples, each with its source lines, its
    expected lines, and the line it starts on. *)
Theorem docstring_examples_roundtrip docstring before l :
  map trim (str_lines docstring) = before ++ flat_map write_example l →
  prose before → Forall example_ok l →
  parse_docstring_examples docstring = read_examples (length before) l.
Proof.
  intros Ht Hb HF. unfold parse_docstring_examples. apply map_eq_app in Ht as (r1 & r2 & -> & H1 & H2).
  rewrite doc_loop_app, (doc_loop_prose 0 r1); [|by rewrite H1|done].
  rewrite (doc_loop_examples _ r2 l) by done. by rewrite <-H1, length_map.
Qed.

Definition demo_written : list written :=
  [mk_written "x = [1," [More "2]"] []; mk_written "x" [Output "[1, 2]"] [""; "Then:"];
   mk_written "f()" [] []; mk_written "g()" [Output "1"] []].

Definition demo_docstring : string :=
  join newline ["Two lists."; "  >>> x = [1,"; "  ... 2]"; "    >>> x"; "    [1, 2]"; ""; "Then:";
                ">>> f()"; ">>> g()"; "1"].

Lemma docstring_examples_roundtrip_witness :
  parse_docstring_examples demo_docstring =
  [mk_example ("x = [1," +:+ newline +:+ "2]" +:+ newline) "" 1;
   mk_example ("x" +:+ newline) ("[1, 2]" +:+ newline) 3;
   mk_example ("f()" +:+ newline) "" 7; mk_example ("g()" +:+ newline) ("1" +:+ newline) 8].
Proof.
  apply (docstring_examples_roundtrip demo_docstring ["Two lists."] demo_written); [reflexivity| |].
  - repeat constructor.
  - repeat (first [apply Forall_cons; split|apply Forall_nil; exact I]); split;
      repeat (first [apply Forall_cons; split|apply Forall_nil; exact I]); try exact I;
      try (split; [discriminate|split; reflexivity]); try (left; reflexivity).
    right. exists ["Then:"]. split; [reflexivity|]. repeat constructor.
Defined.

(** ** The alias walk *)

Section Alias.
Context (suite_parse : string → string → result (list Stmt.t) ParseError).
Context (read_to_string : string → result string string).
Context (exists_ : string → bool) (walk_one : string → bool → list walk_entry).
Context (root : ModuleRoot).

Abbreviation step_of := (alias_step suite_parse read_to_string exists_ walk_one root).
Abbreviation loop := (alias_loop suite_parse read_to_string exists_ walk_one root).

Definition alias_to (p q : string * string) : Prop := step_of p = inr q.

(** Where the walk stops: at a pair whose turn gives the result, or on a cycle. *)
Definition alias_outcome (start : string * string) (r : result Resolved AliasError) : Prop :=
  match r with
  | Err (Cycle _) => ∃ k, rtc alias_to start k ∧ tc alias_to k k
  | _ => ∃ k, rtc alias_to start k ∧ step_of k = inl r
  end.

Lemma alias_step_not_cycle p r : step_of p = inl r → ∀ path, r ≠ Err (Cycle path).
Proof.
  destruct p as [m n]. unfold alias_step. intros H path ->.
  repeat case_match; simplify_eq.
Qed.

Lemma key_eqb_eq a b : key_eqb a b = true ↔ a = b.
Proof.
  destruct a, b. unfold key_eqb. simpl. rewrite andb_true_iff, !String.eqb_eq. naive_solver.
Qed.

Lemma pair_seen key seen : existsb (key_eqb key) seen = true ↔ key ∈ seen.
Proof.
  rewrite existsb_elem. split; [|intros; exists key; by rewrite key_eqb_eq].
  intros (k & Hk & ->%key_eqb_eq). done.
Qed.

Lemma alias_outcome_step p q r : alias_to p q → alias_outcome q r → alias_outcome p r.
Proof.
  intros Hs. unfold alias_outcome. destruct r as [r|[]]; intros (k & Hk & H); exists k;
    (split; [by eapply rtc_l|done]).
Qed.

Lemma alias_loop_sound fuel seen key r :
  (∀ k, k ∈ seen → tc alias_to k key) → loop fuel seen key = Some r → alias_outcome key r.
Proof.
  revert seen key. induction fuel as [|fuel IH]; intros seen key Hseen; [done|]. simpl.
  destruct (existsb (key_eqb key) seen) eqn:E.
  - intros [= <-]. apply pair_seen in E. exists key. split; [done|]. by apply Hseen.
  - destruct (step_of key) as [r'|next] eqn:Es.
    + intros [= <-]. pose proof (alias_step_not_cycle key r' Es) as Hn.
      unfold alias_outcome. destruct r' as [|[]]; try (by exists key). by destruct (Hn path).
    + intros Hr. eapply alias_outcome_step; [exact Es|]. eapply IH; [|exact Hr].
      intros k [Hk| ->%list_elem_of_singleton]%elem_of_app.
      * eapply tc_r; [by apply Hseen|exact Es].
      * by apply tc_once.
Qed.

(** Every pair a turn can go to is written in the module's file. *)
Definition stmt_targets (m : string) (s : Stmt.t) : list (string * string) :=
  match s with
  | Stmt.Assign _ _ (Expr.Name _ id) => [(m, id)]
  | Stmt.ImportFrom _ module l _ => map (λ a, (default "" module, al_name a)) l
  | _ => []
  end.

Definition module_targets (m : string) : list (string * string) :=
  match resolve_module exists_ walk_one root m with
  | Some file =>
      match parse_file suite_parse read_to_string file with
      | Some (_, stmts) => flat_map (stmt_targets m) stmts
      | None => []
      end
  | None => []
  end.

Lemma classify_targets stmts n m q :
  match classify_top_level_binding stmts n with
  | Some (LocalAlias x) => q = (m, x)
  | Some (AliasImport y x) => q = (y, x)
  | _ => False
  end → q ∈ flat_map (stmt_targets m) stmts.
Proof.
  destruct (classify_top_level_binding stmts n) as [src|] eqn:E; [|done].
  apply find_map_Some in E as (s & Hs & Hc). intros Hq. apply flat_map_elem. exists s.
  split; [done|]. destruct s as [| | | | |r ts v| | | | | | | | | | | | | | | |r md l lv| | | | | |];
    simpl in Hc; try (repeat case_match; simplify_eq; done).
  - destruct ts as [|[] [|]]; try done. destruct (String.eqb id n); [|done]. injection Hc as <-.
    destruct v; try done. simpl in *. subst q. by apply list_elem_of_singleton.
  - destruct (is_relative lv); [done|]. apply find_map_Some in Hc as (a & Ha & Hc).
    destruct (String.eqb _ n); [|done]. injection Hc as <-. subst q. simpl. apply map_elem.
    by exists a.
Qed.

Lemma alias_to_targets p q : alias_to p q → q ∈ module_targets p.1.
Proof.
  destruct p as [m n]. unfold alias_to, alias_step, module_targets. simpl.
  destruct (resolve_module exists_ walk_one root m) as [file|]; [|done]. intros H.
  destruct (parse_file _ _ file) as [[source stmts]|]; [|done].
  apply (classify_targets stmts n). destruct (classify_top_level_binding stmts n) as [[]|]; try done;
    try (by destruct (find_def_line_and_docstring _ _ _)); by injection H as <-.
Qed.

(** The pairs a walk from [start] can meet, when [mods] holds its module and,
    with a module, the modules its file imports from. *)
Definition import_closed (mods : list string) : Prop :=
  ∀ m q, m ∈ mods → q ∈ module_targets m → q.1 ∈ mods.

Definition alias_universe (mods : list string) (start : string * string) : list (string * string) :=
  start :: flat_map module_targets mods.

Lemma import_closed_check mods :
  forallb (λ m, forallb (λ q, existsb (String.eqb q.1) mods) (module_targets m)) mods = true →
  import_closed mods.
Proof.
  intros H m q Hm Hq. rewrite forallb_elem in H. specialize (H m Hm). rewrite forallb_elem in H.
  specialize (H q Hq). apply existsb_elem in H as (x & Hx & ->%String.eqb_eq). done.
Qed.

Lemma alias_loop_total mods start fuel seen key :
  import_closed mods → NoDup seen → seen ⊆ alias_universe mods start →
  key ∈ alias_universe mods start → key.1 ∈ mods →
  length (alias_universe mods start) < length seen + fuel →
  is_Some (loop fuel seen key).
Proof.
  intros Hm. revert seen key. induction fuel as [|fuel IH]; intros seen key Hnd Hsub Hkey Hin Hlen.
  - exfalso. apply (NoDup_submseteq _ _ Hnd), submseteq_length in Hsub. lia.
  - simpl. destruct (existsb (key_eqb key) seen) eqn:E; [done|].
    destruct (step_of key) as [r|next] eqn:Es; [done|]. apply IH.
    + apply NoDup_app. split_and!; [done| |by apply NoDup_singleton].
      intros k Hk ->%list_elem_of_singleton. apply pair_seen in Hk. congruence.
    + intros k [Hk| ->%list_elem_of_singleton]%elem_of_app; [by apply Hsub|done].
    + apply alias_to_targets in Es. apply elem_of_cons. right. apply flat_map_elem. eauto.
    + apply alias_to_targets in Es. eauto.
    + rewrite length_app. change (length [key]) with 1. lia.
Qed.

(** Following an alias ends, in any project with finitely many imports: at a
    definition, at the first pair that has none, or with the cycle the chain
    runs into. *)
Theorem alias_walk_ends mods source starting_module key fuel :
  import_closed mods → alias_start source starting_module = Some key → key.1 ∈ mods →
  length (alias_universe mods key) < fuel →
  ∃ r, resolve_alias suite_parse read_to_string exists_ walk_one root fuel source starting_module
         = Some r ∧ alias_outcome key r.
Proof.
  intros Hm Hs Hin Hf. unfold resolve_alias. rewrite Hs.
  destruct (alias_loop_total mods key fuel [] key Hm) as [r Hr];
    [apply NoDup_nil_2|set_solver|apply elem_of_cons; by left|done|simpl in *; lia|].
  exists r. split; [done|]. eapply alias_loop_sound; [|exact Hr]. set_solver.
Qed.
End Alias.

(** A package [pkg] that re-exports [a] from [pkg.m], where [a] and [b] name each
    other. *)
Definition zero_range : range := {| r_start := 0; r_end := 0 |}.

Definition demo_modules : list (string * list Stmt.t) :=
  [("/p/pkg/__init__.py",
    [Stmt.ImportFrom zero_range (Some "pkg.m") [{| al_name := "a"; al_asname := None |}] None]);
   ("/p/pkg/m.py",
    [Stmt.Assign zero_range [Expr.Name zero_range "a"] (Expr.Name zero_range "b");
     Stmt.Assign zero_range [Expr.Name zero_range "b"] (Expr.Name zero_range "a")])].

Definition demo_read (p : string) : result string string :=
  if existsb (λ kv, String.eqb kv.1 p) demo_modules then Ok p else Err "no such file".

Definition demo_parse (source _ : string) : result (list Stmt.t) ParseError :=
  match find_map (λ kv : string * list Stmt.t, if String.eqb kv.1 source then Some kv.2 else None)
          demo_modules with
  | Some stmts => Ok stmts
  | None => Err {| pe_offset := 0; pe_error := "" |}
  end.

Definition demo_exists (p : string) : bool := existsb (λ kv, String.eqb kv.1 p) demo_modules.

Definition demo_root : ModuleRoot := {| mr_root := "/p"; mr_use_gitignore := true |}.

Lemma alias_walk_ends_witness :
  resolve_alias demo_parse demo_read demo_exists (λ _ _, []) demo_root 5
    (AliasImport "pkg" "a") "pkg" = Some (Err (Cycle ["pkg.a"; "pkg.m.a"; "pkg.m.b"])) ∧
  ∃ r, resolve_alias demo_parse demo_read demo_exists (λ _ _, []) demo_root 5
    (AliasImport "pkg" "a") "pkg" = Some r ∧
    alias_outcome demo_parse demo_read demo_exists (λ _ _, []) demo_root ("pkg", "a") r.
Proof.
  split; [vm_compute; reflexivity|].
  apply (alias_walk_ends demo_parse demo_read demo_exists (λ _ _, []) demo_root ["pkg"; "pkg.m"]
    (AliasImport "pkg" "a") "pkg" ("pkg", "a") 5).
  - apply import_closed_check. vm_compute. reflexivity.
  - reflexivity.
  - apply elem_of_cons; by left.
  - vm_compute. lia.
Defined.

(** A function whose only definition is a stub is classified as a definition,
    and then not found: the walk answers line 0 and no docstring, where a debug
    build stops at an assertion. *)
Theorem alias_to_stub_has_no_definition f line_index :
  is_stub_body (fn_body f) = true →
  classify_top_level_binding [Stmt.FunctionDef f] (fn_name f) = Some LocalDefinition ∧
  find_def_line_and_docstring [Stmt.FunctionDef f] (fn_name f) line_index = (0%N, None).
Proof.
  intros Hs. unfold classify_top_level_binding, find_def_line_and_docstring. simpl.
  rewrite String.eqb_refl, Hs. done.
Qed.

Lemma alias_to_stub_has_no_definition_witness :
  let f := mk_fn zero_range "f" (mk_arguments [] [] None [] None)
    [Stmt.Expr_ zero_range (Expr.Constant zero_range CEllipsis)] [] None in
  find_def_line_and_docstring [Stmt.FunctionDef f] "f" [0%N] = (0%N, None).
Proof.
  apply (alias_to_stub_has_no_definition (mk_fn zero_range "f" (mk_arguments [] [] None [] None)
    [Stmt.Expr_ zero_range (Expr.Constant zero_range CEllipsis)] [] None)). reflexivity.
Defined.
