(* ===== verification/Coverage.v ===== *)
(** * Coverage: the doctest coverage rule ([src/doctest/coverage.rs])

    Every public subject of a module must have a docstring with an [Examples:]
    header and an example.  The rule parses the files it is given, lists their
    subjects, drops re-exports of a definition it also sees, applies the
    configured scope and skip entries, and reports each gap.

    [resolve_alias_] is [resolve_alias root] of [Doctest.v], a total function on
    a finite project ([alias_walk_ends]); [resolve_] is [ModuleRoot::resolve]. *)
From Stdlib Require Import Ascii.
From stdpp Require Import pretty.
From S2P Require Import Prelude Collections Text Paths Types Report Config Ast Doctest.

Inductive CoverageGap := MissingHeader | HeaderNoExamples.

Inductive CheckOutcome :=
  | Covered
  | Gap (gap : CoverageGap) (file : string) (lineno : N)
  | WalkError (error : AliasError).

(** The verdict on a docstring: [None] when it is covered. *)
Definition gap_of (docstring : option string) : option CoverageGap :=
  let '(header_present, examples) :=
    match docstring with
    | Some d => parse_docstring_examples_v2 d
    | None => (false, [])
    end in
  match header_present, examples with
  | true, _ :: _ => None
  | false, _ => Some MissingHeader
  | true, [] => Some HeaderNoExamples
  end.

Definition diagnostic_for_gap (subject : Subject) (gap : CoverageGap) (file : string) (lineno : N)
    (severity : DiagnosticSeverity) : DiagnosticEntry :=
  let message :=
    match gap with
    | MissingHeader =>
        "`" +:+ sj_public_id subject +:+
        "` missing `Examples:` header — add an `Examples:` section with a `>>>` block"
    | HeaderNoExamples =>
        "`" +:+ sj_public_id subject +:+
        "` has `Examples:` header but no `>>>` block — add at least one runnable example"
    end in
  mk_diag severity "doctest.coverage" message (Some file) (Some (N.to_nat (N.max lineno 1))).

Definition diagnostic_for_walk_error (subject : Subject) (error : AliasError) (file : option string)
    (severity : DiagnosticSeverity) : DiagnosticEntry :=
  let id := "`" +:+ sj_public_id subject +:+ "`" in
  let message :=
    match error with
    | Cycle path =>
        id +:+ " alias cycle detected: " +:+ join " → " path +:+ " — cannot resolve source docstring"
    | UnknownTerminus at_ =>
        id +:+ " alias chain terminates on unknown shape at `" +:+ at_ +:+ "` — cannot check coverage"
    | ParseFailureAt bad =>
        id +:+ " alias source file failed to parse: " +:+ bad +:+ " — cannot check coverage"
    | NameNotFound module name =>
        id +:+ " alias target `" +:+ module +:+ "." +:+ name +:+ "` not defined in that module"
    | ModuleFileNotFound module =>
        id +:+ " alias target module `" +:+ module +:+ "` file not found"
    end in
  mk_diag severity "doctest.coverage.analysis" message file (Some 1).

(** ** Scope and skip *)

Definition subject_matches (entry : ScopeEntry) (s : Subject) : bool :=
  match entry with
  | Prefix p => path_starts_with p (sj_file s)
  | File f => path_eqb (sj_file s) f
  | Symbol file name => path_eqb (sj_file s) file && String.eqb (sj_name s) name
  | Member file cls name =>
      path_eqb (sj_file s) file
      && match sj_class_context s with Some c => String.eqb c cls | None => false end
      && String.eqb (sj_name s) name
  end.

(** The loop's state: what is kept, and which entries matched. *)
Record scope_state := mk_scope {
  sc_kept : list (string * Subject);
  sc_scope_hits : list bool;
  sc_skip_hits : list bool
}.

Definition or_hits (hits bits : list bool) : list bool := zip_with orb hits bits.

Definition scope_entries_of (scope : option DoctestScope) : list ScopeEntry * bool :=
  match scope with
  | None | Some Public => ([], true)
  | Some (ScopeList entries) => (entries, false)
  end.

Definition scope_step (entries : list ScopeEntry) (private_filter : bool) (skip : list ScopeEntry)
    (st : scope_state) (ms : string * Subject) : scope_state :=
  let subj := ms.2 in
  if private_filter && starts_with "_" (sj_name subj) then st
  else
    let bits := map (λ e, subject_matches e subj) entries in
    let scope_hits :=
      match entries with [] => sc_scope_hits st | _ => or_hits (sc_scope_hits st) bits end in
    let in_scope := match entries with [] => true | _ => existsb id bits end in
    if negb in_scope then mk_scope (sc_kept st) scope_hits (sc_skip_hits st)
    else
      let skip_bits := map (λ e, subject_matches e subj) skip in
      let skip_hits := or_hits (sc_skip_hits st) skip_bits in
      if existsb id skip_bits then mk_scope (sc_kept st) scope_hits skip_hits
      else mk_scope (sc_kept st ++ [ms]) scope_hits skip_hits.

Definition filter_subjects_by_scope (subjects : list (string * Subject))
    (scope : option DoctestScope) (skip : list ScopeEntry)
    : list (string * Subject) * (list bool * list bool) :=
  let '(entries, private_filter) := scope_entries_of scope in
  let st := fold_left (scope_step entries private_filter skip) subjects
    (mk_scope [] (replicate (length entries) false) (replicate (length skip) false)) in
  (sc_kept st, (sc_scope_hits st, sc_skip_hits st)).

(** [file_could_match] ([pipeline/collection.rs]) *)
Definition file_could_match (rel : string) (entries : list ScopeEntry) : bool :=
  existsb (λ e,
    match e with
    | Prefix p => path_starts_with p rel
    | File f | Symbol f _ | Member f _ _ => path_eqb rel f
    end) entries.

(** ** Definitions by name *)

Inductive DefTarget :=
  | TClass (c : class_node)
  | TFunction (f : fn_node)
  | TAsyncFunction (f : fn_node).

Definition def_target (name : string) (s : Stmt.t) : option DefTarget :=
  match s with
  | Stmt.ClassDef c => if String.eqb (cls_name c) name then Some (TClass c) else None
  | Stmt.FunctionDef f =>
      if String.eqb (fn_name f) name && negb (is_stub_body (fn_body f)) then Some (TFunction f) else None
  | Stmt.AsyncFunctionDef f =>
      if String.eqb (fn_name f) name && negb (is_stub_body (fn_body f))
      then Some (TAsyncFunction f) else None
  | _ => None
  end.

Definition find_def_by_name (stmts : list Stmt.t) (name : string) : option DefTarget :=
  find_map (def_target name) stmts.

Definition docstring_and_lineno_from (target : DefTarget) (line_index : list N) : option string * N :=
  match target with
  | TClass c => (extract_docstring (cls_body c), offset_to_line line_index (r_start (cls_range c)))
  | TFunction f => (extract_docstring (fn_body f), offset_to_line line_index (r_start (fn_range f)))
  | TAsyncFunction f =>
      (extract_docstring (fn_body f), offset_to_line line_index (r_start (fn_range f)))
  end.

Definition find_docstring_and_lineno_for_local_def (stmts : list Stmt.t) (name : string)
    (line_index : list N) : option string * N :=
  match find_def_by_name stmts name with
  | Some t => docstring_and_lineno_from t line_index
  | None => (None, 0%N)
  end.

Definition find_class_method (stmts : list Stmt.t) (class_name method_name : string)
    : option DefTarget :=
  match find_def_by_name stmts class_name with
  | Some (TClass c) =>
      match find_def_by_name (cls_body c) method_name with
      | Some (TClass _) | None => None
      | Some target => Some target
      end
  | _ => None
  end.

(** ** The check *)

Record ScannedFiles := { sf_parsed : list string; sf_parse_failed : list string }.

Definition is_local_definition (s : SubjectSource) : bool :=
  match s with LocalDefinition => true | _ => false end.

(** [public_id.rsplit('.').next()] *)
Definition last_dotted (id : string) : string :=
  match rsplit_once_dot id with Some (_, name) => name | None => id end.

Section Check.
Context (suite_parse : string → string → result (list Stmt.t) ParseError).
Context (read_to_string : string → result string string).
Context (exists_ : string → bool).
Context (resolve_alias_ : SubjectSource → string → result Resolved AliasError).
Context (resolve_ : string → option string).

Definition check_subject (subject : Subject) (starting_module : string)
    (direct_docstring : option string) (direct_lineno : N) (direct_file : option string)
    : CheckOutcome :=
  let verdict docstring file lineno :=
    match gap_of docstring with None => Covered | Some gap => Gap gap file lineno end in
  match sj_source subject with
  | LocalDefinition => verdict direct_docstring (default "" direct_file) direct_lineno
  | AliasImport _ _ | LocalAlias _ =>
      match resolve_alias_ (sj_source subject) starting_module with
      | Ok resolved => verdict (rs_docstring resolved) (rs_file resolved) (rs_lineno resolved)
      | Err (UnknownTerminus _) => Covered
      | Err error => WalkError error
      end
  | CallRhs => Covered
  | UnknownSource => Covered
  end.

(** The parsed modules, by dotted path: statements, file and line index. *)
Record scan_state := mk_scan {
  sn_per_module : gmap string (list Stmt.t * string * list N);
  sn_subjects : list (string * Subject);
  sn_scanned : ScannedFiles;
  sn_diagnostics : list DiagnosticEntry
}.

Definition parse_diagnostic (severity : DiagnosticSeverity) (file : string) (failure : ParseFailure)
    : DiagnosticEntry :=
  let '(detail, lineno) :=
    match failure with
    | Parse line cause =>
        ("`" +:+ file +:+ ":" +:+ pretty line +:+ "` " +:+ cause, Some (N.to_nat line))
    | Io cause => ("`" +:+ file +:+ "` could not be read: " +:+ cause, None)
    end in
  mk_diag severity "doctest.coverage.parse-error"
    (detail +:+ " — its definitions are invisible to doctest coverage") (Some file) lineno.

Definition file_explicitly_scoped (scope : option DoctestScope) (file : string) : bool :=
  match scope with Some (ScopeList entries) => file_could_match file entries | _ => false end.

Definition scan_file (root_dir : string) (severity : DiagnosticSeverity) (scope : option DoctestScope)
    (st : scan_state) (file : string) : scan_state :=
  let dotted := dotted_path_for_file exists_ file root_dir in
  if negb (is_public_module_path dotted) && negb (file_explicitly_scoped scope file) then st
  else
    let full := path_join root_dir file in
    match try_parse_file suite_parse read_to_string full with
    | Err failure =>
        mk_scan (sn_per_module st) (sn_subjects st)
          {| sf_parsed := sf_parsed (sn_scanned st);
             sf_parse_failed := sf_parse_failed (sn_scanned st) ++ [file] |}
          (sn_diagnostics st ++ [parse_diagnostic severity file failure])
    | Ok (src, stmts) =>
        mk_scan (<[dotted := (stmts, full, build_line_index src)]> (sn_per_module st))
          (sn_subjects st ++ map (pair dotted) (enumerate_subjects stmts dotted file))
          {| sf_parsed := sf_parsed (sn_scanned st) ++ [file];
             sf_parse_failed := sf_parse_failed (sn_scanned st) |}
          (sn_diagnostics st)
    end.

Definition scan_files (root_dir : string) (severity : DiagnosticSeverity)
    (scope : option DoctestScope) (files : list string) : scan_state :=
  fold_left (scan_file root_dir severity scope) files
    (mk_scan ∅ [] {| sf_parsed := []; sf_parse_failed := [] |} []).

(** The method subjects a [Member] entry asks for. *)
Definition seed_member (root_dir : string)
    (per_module : gmap string (list Stmt.t * string * list N)) (entry : ScopeEntry)
    : list (string * Subject) :=
  match entry with
  | Member file cls name =>
      let dotted := dotted_path_for_file exists_ file root_dir in
      match per_module !! dotted with
      | Some (stmts, _, _) =>
          match find_class_method stmts cls name with
          | Some _ =>
              [(dotted, mk_subject (dotted +:+ "." +:+ cls +:+ "." +:+ name) name LocalDefinition
                          file (Some cls))]
          | None => []
          end
      | None => []
      end
  | _ => []
  end.

Definition seed_members (root_dir : string) (scope : option DoctestScope) (st : scan_state)
    : list (string * Subject) :=
  sn_subjects st ++
  match scope with
  | Some (ScopeList entries) => flat_map (seed_member root_dir (sn_per_module st)) entries
  | _ => []
  end.

(** Re-exports of a name that is a definition of this scan go. *)
Definition dedup_subjects (all_subjects : list (string * Subject)) : list (string * Subject) :=
  let definition_sites :=
    map (λ ms, sj_public_id ms.2) (List.filter (λ ms, is_local_definition (sj_source ms.2)) all_subjects) in
  List.filter (λ ms,
    match sj_source ms.2 with
    | AliasImport source_module source_name =>
        negb (existsb (String.eqb (source_module +:+ "." +:+ source_name)) definition_sites)
    | _ => true
    end) all_subjects.

(** The docstring, line and file of a definition, looked up by module path. *)
Definition direct_lookup (per_module : gmap string (list Stmt.t * string * list N))
    (module_dotted : string) (subject : Subject) : option string * N * option string :=
  match sj_source subject with
  | LocalDefinition =>
      match per_module !! module_dotted with
      | Some (stmts, file, line_index) =>
          (match sj_class_context subject with
           | Some cls =>
               match find_class_method stmts cls (sj_name subject) with
               | Some t => docstring_and_lineno_from t line_index
               | None => (None, 0%N)
               end
           | None =>
               find_docstring_and_lineno_for_local_def stmts (last_dotted (sj_public_id subject))
                 line_index
           end, Some file)
      | None => (None, 0%N, None)
      end
  | _ => (None, 0%N, None)
  end.

Definition subject_diagnostics (severity : DiagnosticSeverity)
    (per_module : gmap string (list Stmt.t * string * list N)) (ms : string * Subject)
    : list DiagnosticEntry :=
  let '(module_dotted, subject) := ms in
  match sj_source subject with
  | UnknownSource =>
      [mk_diag severity "doctest.coverage.analysis"
         ("`" +:+ sj_public_id subject +:+ "` unknown export shape — cannot check coverage")
         (resolve_ module_dotted) (Some 1)]
  | _ =>
      let '(doc, lineno, file) := direct_lookup per_module module_dotted subject in
      match check_subject subject module_dotted doc lineno file with
      | Covered => []
      | Gap gap file lineno => [diagnostic_for_gap subject gap file lineno severity]
      | WalkError error =>
          [diagnostic_for_walk_error subject error (resolve_ module_dotted) severity]
      end
  end.

Definition run_coverage_check (files : list string) (root_dir : string)
    (severity : DiagnosticSeverity) (scope : option DoctestScope) (skip : list ScopeEntry)
    : list DiagnosticEntry * (list bool * list bool) * ScannedFiles :=
  let st := scan_files root_dir severity scope files in
  let deduped := dedup_subjects (seed_members root_dir scope st) in
  let '(kept, match_bits) := filter_subjects_by_scope deduped scope skip in
  (sn_diagnostics st ++ flat_map (subject_diagnostics severity (sn_per_module st)) kept,
   match_bits, sn_scanned st).

End Check.

(** * Theorems *)

(** ** Scope and skip *)

Section Scope.
Context (entries : list ScopeEntry) (private_filter : bool) (skip : list ScopeEntry).

Definition visible (s : Subject) : bool := negb (private_filter && starts_with "_" (sj_name s)).
Definition in_scope (s : Subject) : bool :=
  match entries with [] => true | _ => existsb (λ e, subject_matches e s) entries end.
Definition skipped (s : Subject) : bool := existsb (λ e, subject_matches e s) skip.

(** Whether an entry matched one of the subjects it was tried on. *)
Definition hits (tried : Subject → bool) (l : list ScopeEntry) (subjects : list (string * Subject))
    : list bool :=
  map (λ e, existsb (λ ms, tried ms.2 && subject_matches e ms.2) subjects) l.

Lemma existsb_map_id {A} (f : A → bool) l : existsb id (map f l) = existsb f l.
Proof. induction l as [|x l IH]; simpl; [done|]. by rewrite IH. Qed.

Lemma hits_nil tried l : hits tried l [] = replicate (length l) false.
Proof. unfold hits. induction l; simpl; [done|]. by f_equal. Qed.

Lemma hits_snoc tried l subjects ms :
  hits tried l (subjects ++ [ms]) =
  or_hits (hits tried l subjects) (map (λ e, tried ms.2 && subject_matches e ms.2) l).
Proof.
  unfold hits, or_hits. induction l as [|e l IH]; simpl; [done|]. rewrite IH. f_equal.
  rewrite existsb_app. simpl. by rewrite orb_false_r.
Qed.

Lemma or_hits_false (b : list bool) n : length b = n → or_hits b (replicate n false) = b.
Proof.
  intros <-. unfold or_hits. induction b as [|x b IH]; simpl; [done|]. by rewrite IH, orb_false_r.
Qed.

Lemma map_false {A} (f : A → bool) l : (∀ x, f x = false) → map f l = replicate (length l) false.
Proof. intros Hf. induction l as [|x l IH]; simpl; [done|]. by rewrite Hf, IH. Qed.

Lemma hits_untried tried l subjects ms :
  tried ms.2 = false → hits tried l (subjects ++ [ms]) = hits tried l subjects.
Proof.
  intros Ht. rewrite hits_snoc, map_false by (intros; by rewrite Ht). apply or_hits_false.
  apply length_map.
Qed.

Lemma hits_tried tried l subjects ms :
  tried ms.2 = true → hits tried l (subjects ++ [ms]) =
  or_hits (hits tried l subjects) (map (λ e, subject_matches e ms.2) l).
Proof. intros Ht. rewrite hits_snoc. by rewrite Ht. Qed.

Lemma scope_step_eq st ms :
  length (sc_scope_hits st) = length entries →
  scope_step entries private_filter skip st ms =
  if visible ms.2 then
    let scope_hits := or_hits (sc_scope_hits st) (map (λ e, subject_matches e ms.2) entries) in
    if in_scope ms.2
    then mk_scope (sc_kept st ++ if skipped ms.2 then [] else [ms]) scope_hits
           (or_hits (sc_skip_hits st) (map (λ e, subject_matches e ms.2) skip))
    else mk_scope (sc_kept st) scope_hits (sc_skip_hits st)
  else st.
Proof.
  intros Hlen. unfold scope_step, visible, in_scope, skipped.
  destruct (private_filter && starts_with "_" (sj_name ms.2)); [done|]. simpl.
  rewrite !existsb_map_id. destruct entries as [|e es].
  - destruct st as [kept [|] sk]; [|done]. simpl.
    destruct (existsb _ skip); simpl; by rewrite ?app_nil_r.
  - destruct (existsb _ (e :: es)); simpl; [|done]. destruct (existsb _ skip); by rewrite ?app_nil_r.
Qed.

Lemma scope_fold subjects :
  fold_left (scope_step entries private_filter skip) subjects
    (mk_scope [] (replicate (length entries) false) (replicate (length skip) false)) =
  mk_scope (List.filter (λ ms, visible ms.2 && in_scope ms.2 && negb (skipped ms.2)) subjects)
    (hits visible entries subjects) (hits (λ s, visible s && in_scope s) skip subjects).
Proof.
  induction subjects as [|ms subjects IH] using rev_ind; [by rewrite !hits_nil|].
  rewrite fold_left_app, IH, List.filter_app. cbn [fold_left].
  rewrite scope_step_eq by apply length_map. cbn [sc_scope_hits sc_kept sc_skip_hits List.filter].
  destruct (visible ms.2) eqn:Ev; simpl.
  2: { rewrite !hits_untried by (simpl; by rewrite ?Ev). by rewrite app_nil_r. }
  rewrite (hits_tried visible) by done. destruct (in_scope ms.2) eqn:Es; simpl.
  - rewrite hits_tried by (by rewrite Ev, Es). by destruct (skipped ms.2).
  - rewrite hits_untried by (by rewrite Ev, Es). by rewrite app_nil_r.
Qed.
End Scope.

(** What the scope filter keeps and which entries it marks: a subject is kept
    when its name is public (under [public] scope), it matches some scope entry
    (when there are any) and no skip entry; a scope entry is marked when it
    matches a visible subject, a skip entry when it matches one in scope. *)
Theorem scope_filter_exact subjects scope skip :
  let '(entries, private_filter) := scope_entries_of scope in
  let vis := visible private_filter in
  filter_subjects_by_scope subjects scope skip =
  (List.filter (λ ms, vis ms.2 && in_scope entries ms.2 && negb (skipped skip ms.2)) subjects,
   (map (λ e, existsb (λ ms, vis ms.2 && subject_matches e ms.2) subjects) entries,
    map (λ e, existsb (λ ms, vis ms.2 && in_scope entries ms.2 && subject_matches e ms.2) subjects)
      skip)).
Proof.
  unfold filter_subjects_by_scope. destruct (scope_entries_of scope) as [entries pf].
  by rewrite scope_fold.
Qed.

Lemma filter_subjects_kept subjects scope skip :
  (filter_subjects_by_scope subjects scope skip).1 =
  List.filter (λ ms, visible (scope_entries_of scope).2 ms.2 && in_scope (scope_entries_of scope).1 ms.2
    && negb (skipped skip ms.2)) subjects.
Proof.
  unfold filter_subjects_by_scope. destruct (scope_entries_of scope) as [entries pf].
  by rewrite scope_fold.
Qed.

(** ** What the rule asks of a definition *)

(** A class, or a function whose body is not a lone [...], of that name. *)
Inductive defines (name : string) : Stmt.t → range → list Stmt.t → Prop :=
  | defines_class c : cls_name c = name → defines name (Stmt.ClassDef c) (cls_range c) (cls_body c)
  | defines_fn f : fn_name f = name → is_stub_body (fn_body f) = false →
      defines name (Stmt.FunctionDef f) (fn_range f) (fn_body f)
  | defines_async_fn f : fn_name f = name → is_stub_body (fn_body f) = false →
      defines name (Stmt.AsyncFunctionDef f) (fn_range f) (fn_body f).

(** A definition, a from-import or an assignment to the name alone binds it. *)
Inductive binds (name : string) : Stmt.t → Prop :=
  | binds_class c : cls_name c = name → binds name (Stmt.ClassDef c)
  | binds_fn f : fn_name f = name → binds name (Stmt.FunctionDef f)
  | binds_async_fn f : fn_name f = name → binds name (Stmt.AsyncFunctionDef f)
  | binds_import r module l level a : a ∈ l → default (al_name a) (al_asname a) = name →
      binds name (Stmt.ImportFrom r module l level)
  | binds_assign r r' value : binds name (Stmt.Assign r [Expr.Name r' name] value).

(** The statements that may stand before the definition: those that do not bind
    the name, and functions that are stubs, as overloads are. *)
Inductive passes_over (name : string) : Stmt.t → Prop :=
  | passes_unbound s : ¬ binds name s → passes_over name s
  | passes_stub f : is_stub_body (fn_body f) = true → passes_over name (Stmt.FunctionDef f)
  | passes_async_stub f : is_stub_body (fn_body f) = true → passes_over name (Stmt.AsyncFunctionDef f).

(** The docstring is the string the body starts with. *)
Inductive docstring_is : list Stmt.t → string → Prop :=
  | docstring_first r r' d rest :
      docstring_is (Stmt.Expr_ r (Expr.Constant r' (CStr d)) :: rest) d.

Definition has_header (d : string) : Prop :=
  ∃ line, line ∈ str_lines d ∧ (trim_start line = "Examples:" ∨ trim_start line = "Example:").

Definition has_prompt (d : string) : Prop :=
  ∃ line, line ∈ str_lines d ∧ (trim line = ">>>" ∨ ∃ rest, trim line = ">>> " +:+ rest).

(** What is missing, of the header first. *)
Definition lacks (body : list Stmt.t) (gap : CoverageGap) : Prop :=
  match gap with
  | MissingHeader => ∀ d, docstring_is body d → ¬ has_header d
  | HeaderNoExamples => ∃ d, docstring_is body d ∧ has_header d ∧ ¬ has_prompt d
  end.

Lemma extract_docstring_is body d : extract_docstring body = Some d ↔ docstring_is body d.
Proof.
  split; [|by intros []]. unfold extract_docstring. destruct body as [|[] rest]; try done.
  repeat case_match; try done. intros [= <-]. constructor.
Qed.

Lemma after_prompt_is t : after_prompt ">>>" t = None ↔ ¬ (t = ">>>" ∨ ∃ rest, t = ">>> " +:+ rest).
Proof.
  unfold after_prompt. change (">>>" +:+ " ") with ">>> ".
  destruct (strip_prefix ">>> " t) as [r|] eqn:E.
  - apply strip_prefix_Some in E. split; [done|]. intros H. exfalso. apply H. eauto.
  - destruct (String.eqb_spec t ">>>") as [->|Hn]; [naive_solver|]. split; [|done]. intros _ [?|[r ->]]; [done|].
    assert (strip_prefix ">>> " (">>> " +:+ r) = Some r) by (by apply strip_prefix_Some). congruence.
Qed.

(** An example is found exactly when there is a prompt. *)
Lemma no_examples_loop l index st :
  flush (doc_loop index l st) = [] ↔ flush st = [] ∧ Forall (λ line, after_prompt ">>>" (trim line) = None) l.
Proof.
  revert index st. induction l as [|line l IH]; intros index st; cbn [doc_loop]; [by split; [|intros [? _]]|].
  rewrite IH, Forall_cons. clear IH. unfold doc_step.
  destruct (after_prompt ">>>" (trim line)) as [r|] eqn:E.
  - unfold flush at 1. simpl. split; [intros [H _]; by destruct (flush st)|intros (_ & ? & _); done].
  - assert (flush match after_prompt "..." (trim line) with
      | Some rest => mk_doc (ds_examples st)
          ((λ p, mk_pending (pe_source p +:+ rest +:+ newline) (pe_lineno p)) <$> ds_pending st) (ds_want st)
      | None => match ds_pending st with
          | Some p => if String.eqb (trim line) "" then mk_doc (flush st) None ""
                      else mk_doc (ds_examples st) (Some p) (ds_want st +:+ trim line +:+ newline)
          | None => st
          end
      end = [] ↔ flush st = []) as ->; [|naive_solver].
    unfold flush. destruct (after_prompt "..." (trim line)), (ds_pending st) as [q|] eqn:Ep; simpl; rewrite ?Ep; try done.
    all: try (destruct (String.eqb (trim line) ""); simpl; [done|]).
    all: by destruct (ds_examples st).
Qed.

Lemma examples_iff_prompt d : parse_docstring_examples d = [] ↔ ¬ has_prompt d.
Proof.
  unfold parse_docstring_examples. rewrite no_examples_loop, Forall_forall. unfold has_prompt. simpl. split.
  - intros [_ H] (line & Hl & Hp). by apply (proj1 (after_prompt_is _) (H line Hl)).
  - intros H. split; [done|]. intros line Hl. apply after_prompt_is. eauto.
Qed.

Lemma header_present d : (parse_docstring_examples_v2 d).1 = true ↔ has_header d.
Proof.
  unfold parse_docstring_examples_v2, has_header. simpl. rewrite existsb_elem.
  setoid_rewrite orb_true_iff. by setoid_rewrite String.eqb_eq.
Qed.

Lemma gap_of_lacks body gap : gap_of (extract_docstring body) = Some gap ↔ lacks body gap.
Proof.
  unfold gap_of. destruct (extract_docstring body) as [d|] eqn:E.
  - assert (∀ d', docstring_is body d' ↔ d' = d) as Hd
      by (intros d'; rewrite <-extract_docstring_is, E; naive_solver).
    pose proof (header_present d) as Hh. pose proof (examples_iff_prompt d) as He.
    unfold parse_docstring_examples_v2 in *. cbn [fst] in Hh. unfold lacks.
    destruct (existsb _ _), (parse_docstring_examples d) as [|x l];
      destruct gap; setoid_rewrite Hd; naive_solver.
  - assert (∀ d', ¬ docstring_is body d') as Hd by (intros d'; rewrite <-extract_docstring_is, E; naive_solver).
    unfold lacks. destruct gap; naive_solver.
Qed.

Lemma not_binds_none name s : ¬ binds name s → classify_stmt name s = None ∧ def_target name s = None.
Proof.
  intros H. split.
  - destruct (classify_stmt name s) as [src|] eqn:E; [|done]. exfalso. apply H. destruct s; simpl in E; try done.
    1-3: destruct (String.eqb _ name) eqn:Hn; [|done]; apply String.eqb_eq in Hn; by constructor.
    + repeat case_match; try done. destruct (String.eqb_spec id name) as [->|]; [constructor|done].
    + destruct (is_relative level); [done|]. apply find_map_Some in E as (a & Ha & Hb).
      destruct (String.eqb_spec (default (al_name a) (al_asname a)) name); [by econstructor|done].
  - destruct s; try done; simpl.
    all: destruct (String.eqb _ name) eqn:Hn; [|done]; apply String.eqb_eq in Hn; exfalso; apply H; by constructor.
Qed.

Lemma definition_found name pre st post r body :
  Forall (passes_over name) pre → defines name st r body →
  classify_top_level_binding (pre ++ st :: post) name = Some LocalDefinition ∧
  ∀ idx, find_docstring_and_lineno_for_local_def (pre ++ st :: post) name idx =
    (extract_docstring body, offset_to_line idx (r_start r)).
Proof.
  intros Hpre Hst. assert (∃ t, def_target name st = Some t ∧ ∀ idx,
    docstring_and_lineno_from t idx = (extract_docstring body, offset_to_line idx (r_start r))) as (t & Et & Ht).
  { destruct Hst as [c Hn|f Hn Hs|f Hn Hs]; eexists; simpl; rewrite Hn, String.eqb_refl, ?Hs; eauto. }
  assert (classify_stmt name st = Some LocalDefinition) as Ec
    by (destruct Hst as [c Hn|f Hn Hs|f Hn Hs]; simpl; by rewrite Hn, String.eqb_refl).
  unfold find_docstring_and_lineno_for_local_def, find_def_by_name, classify_top_level_binding.
  induction Hpre as [|s pre Hs Hpre [IH1 IH2]]; cbn [app find_map].
  - by rewrite Ec, Et.
  - destruct Hs as [s Hs|f Hf|f Hf].
    + by destruct (not_binds_none name s Hs) as [-> ->].
    + simpl. rewrite Hf, andb_false_r. split; [by destruct (String.eqb _ _)|done].
    + simpl. rewrite Hf, andb_false_r. split; [by destruct (String.eqb _ _)|done].
Qed.

(** ** The scan *)

Section Scan.
Context (suite_parse : string → string → result (list Stmt.t) ParseError).
Context (read_to_string : string → result string string).
Context (exists_ : string → bool).
Context (resolve_alias_ : SubjectSource → string → result Resolved AliasError).
Context (resolve_ : string → option string).
Context (root_dir : string) (severity : DiagnosticSeverity) (scope : option DoctestScope).

Abbreviation scan1 := (scan_file suite_parse read_to_string exists_ root_dir severity scope).
Abbreviation scan := (scan_files suite_parse read_to_string exists_ root_dir severity scope).
Abbreviation run := (run_coverage_check suite_parse read_to_string exists_ resolve_alias_ resolve_).
Abbreviation dotted f := (dotted_path_for_file exists_ f root_dir).
Abbreviation parse f := (try_parse_file suite_parse read_to_string (path_join root_dir f)).

(** A file is read when its module path is public or a scope entry names it. *)
Definition attempted (file : string) : bool :=
  is_public_module_path (dotted file) || file_explicitly_scoped scope file.

(** The file's statements, when it is read and parses. *)
Definition scanned_as (file : string) : option (string * list Stmt.t) :=
  if attempted file then match parse file with Ok p => Some p | Err _ => None end else None.

Definition parse_fails (file : string) : bool :=
  attempted file && match parse file with Err _ => true | Ok _ => false end.

Definition is_scanned (file : string) : bool := bool_decide (is_Some (scanned_as file)).

Lemma scan_file_eq st f :
  scan1 st f =
  match scanned_as f with
  | Some (src, stmts) =>
      mk_scan (<[dotted f := (stmts, path_join root_dir f, build_line_index src)]> (sn_per_module st))
        (sn_subjects st ++ map (pair (dotted f)) (enumerate_subjects stmts (dotted f) f))
        {| sf_parsed := sf_parsed (sn_scanned st) ++ [f];
           sf_parse_failed := sf_parse_failed (sn_scanned st) |} (sn_diagnostics st)
  | None =>
      match parse f with
      | Err failure =>
          if attempted f then
            mk_scan (sn_per_module st) (sn_subjects st)
              {| sf_parsed := sf_parsed (sn_scanned st);
                 sf_parse_failed := sf_parse_failed (sn_scanned st) ++ [f] |}
              (sn_diagnostics st ++ [parse_diagnostic severity f failure])
          else st
      | Ok _ => st
      end
  end.
Proof.
  unfold scan_file, scanned_as, attempted.
  destruct (is_public_module_path (dotted f)), (file_explicitly_scoped scope f); simpl;
    destruct (parse f) as [[]|]; done.
Qed.

Lemma scan_fold_sets files st :
  sf_parsed (sn_scanned (fold_left scan1 files st)) =
    sf_parsed (sn_scanned st) ++ List.filter is_scanned files ∧
  sf_parse_failed (sn_scanned (fold_left scan1 files st)) =
    sf_parse_failed (sn_scanned st) ++ List.filter parse_fails files ∧
  map de_file (sn_diagnostics (fold_left scan1 files st)) =
    map de_file (sn_diagnostics st) ++ map Some (List.filter parse_fails files) ∧
  sn_subjects (fold_left scan1 files st) = sn_subjects st ++ flat_map (λ f,
    match scanned_as f with
    | Some (_, stmts) => map (pair (dotted f)) (enumerate_subjects stmts (dotted f) f)
    | None => []
    end) files.
Proof.
  revert st. induction files as [|f files IH]; intros st; simpl; [by rewrite !app_nil_r|].
  destruct (IH (scan1 st f)) as (-> & -> & -> & ->). rewrite !scan_file_eq.
  unfold is_scanned, parse_fails, scanned_as. destruct (attempted f), (parse f) as [[src stmts]|e];
    simpl; rewrite <-?app_assoc; try done.
  rewrite map_app, <-app_assoc. by destruct e.
Qed.

(** A scanned file's module is looked up in that file, when no later file has
    the same module path. *)
Lemma scan_lookup_other files st d :
  (∀ f, f ∈ files → is_scanned f = true → dotted f ≠ d) →
  sn_per_module (fold_left scan1 files st) !! d = sn_per_module st !! d.
Proof.
  revert st. induction files as [|f files IH]; intros st Hd; [done|]. cbn [fold_left].
  rewrite IH by (intros g Hg; apply Hd; apply elem_of_cons; by right).
  rewrite scan_file_eq. destruct (scanned_as f) as [[src stmts]|] eqn:E.
  - simpl. rewrite lookup_insert_ne; [done|]. apply Hd; [apply elem_of_cons; by left|].
    unfold is_scanned. rewrite E. by apply bool_decide_eq_true.
  - by destruct (parse f), (attempted f).
Qed.

Lemma scan_lookup l1 f l2 src stmts :
  scanned_as f = Some (src, stmts) →
  (∀ g, g ∈ l2 → is_scanned g = true → dotted g ≠ dotted f) →
  sn_per_module (scan (l1 ++ f :: l2)) !! dotted f =
  Some (stmts, path_join root_dir f, build_line_index src).
Proof.
  intros Hf Hl2. unfold scan_files. rewrite fold_left_app. cbn [fold_left].
  rewrite scan_lookup_other by done. rewrite scan_file_eq, Hf. simpl. apply lookup_insert_eq.
Qed.

Lemma elem_of_subjects files ms :
  ms ∈ sn_subjects (scan files) ↔
  ∃ f src stmts, f ∈ files ∧ scanned_as f = Some (src, stmts) ∧
    ms.1 = dotted f ∧ ms.2 ∈ enumerate_subjects stmts (dotted f) f.
Proof.
  unfold scan_files. destruct (scan_fold_sets files (mk_scan ∅ [] {| sf_parsed := []; sf_parse_failed := [] |} []))
    as (_ & _ & _ & ->). simpl. rewrite flat_map_elem. split.
  - intros (f & Hf & Hm). destruct (scanned_as f) as [[src stmts]|] eqn:E; [|set_solver].
    apply map_elem in Hm as (s & Hs & <-). by exists f, src, stmts.
  - intros (f & src & stmts & Hf & E & H1 & H2). exists f. split; [done|]. rewrite E.
    apply map_elem. exists ms.2. split; [done|]. destruct ms. simpl in *. by subst.
Qed.

Lemma dedup_keeps_definitions l ms :
  ms ∈ l → is_local_definition (sj_source ms.2) = true → ms ∈ dedup_subjects l.
Proof.
  intros Hm Hd. unfold dedup_subjects. apply filter_elem. split; [done|].
  by destruct (sj_source ms.2).
Qed.

(** The subject a definition of a file gives, and what its lookup finds. *)
Lemma enumerate_definition stmts d f name :
  name ∈ subject_names stmts → classify_top_level_binding stmts name = Some LocalDefinition →
  mk_subject (d +:+ "." +:+ name) name LocalDefinition f None ∈ enumerate_subjects stmts d f.
Proof.
  intros Hn Hc. unfold enumerate_subjects. apply list_elem_of_omap. exists name. by rewrite Hc.
Qed.

Lemma rsplit_once_dot_app a b : contains "." b = false → rsplit_once_dot (a +:+ "." +:+ b) = Some (a, b).
Proof.
  intros Hb. induction a as [|x a IH].
  - rewrite str_app_nil_l, str_app_cons, str_app_nil_l. simpl.
    assert (rsplit_once_dot b = None) as ->; [|done]. induction b as [|y b IHb]; [done|].
    rewrite contains_char_cons in Hb. apply orb_false_elim in Hb as [Hy Hb]. simpl.
    rewrite IHb by done. by rewrite Ascii.eqb_sym, Hy.
  - rewrite str_app_cons. simpl. by rewrite IH.
Qed.

Lemma last_dotted_app a b : contains "." b = false → last_dotted (a +:+ "." +:+ b) = b.
Proof. intros Hb. unfold last_dotted. by rewrite rsplit_once_dot_app. Qed.

(** The public definition [name] of the module [d]. *)
Definition definition_subject (d name file : string) : Subject :=
  mk_subject (d +:+ "." +:+ name) name LocalDefinition file None.

(** A subject the configured scope asks for: it is public, unless the scope is a
    list; some entry matches it, unless there is none; and no skip entry does. *)
Definition selected (skip : list ScopeEntry) (subject : Subject) : Prop :=
  let '(entries, private_filter) := scope_entries_of scope in
  (private_filter = true → starts_with "_" (sj_name subject) = false) ∧
  (entries = [] ∨ ∃ e, e ∈ entries ∧ subject_matches e subject = true) ∧
  ∀ e, e ∈ skip → subject_matches e subject = false.

Lemma definition_kept files f src stmts name skip :
  f ∈ files → scanned_as f = Some (src, stmts) →
  name ∈ subject_names stmts → classify_top_level_binding stmts name = Some LocalDefinition →
  selected skip (definition_subject (dotted f) name f) →
  (dotted f, definition_subject (dotted f) name f) ∈
  (filter_subjects_by_scope (dedup_subjects (seed_members exists_ root_dir scope (scan files))) scope skip).1.
Proof.
  intros Hf Hs Hn Hc Hsel. rewrite filter_subjects_kept. apply filter_elem. split.
  - apply dedup_keeps_definitions; [|done]. unfold seed_members. apply elem_of_app. left.
    apply elem_of_subjects. exists f, src, stmts. split_and!; [done..|].
    by apply enumerate_definition.
  - unfold selected in Hsel. destruct (scope_entries_of scope) as [entries pf]. destruct Hsel as (Hp & He & Hk).
    cbn [fst snd]. rewrite !andb_true_iff. split_and!.
    + unfold visible. destruct pf; [|done]. by rewrite Hp.
    + unfold in_scope. destruct He as [->|(e & He & Hm)]; [done|]. destruct entries; [done|].
      apply existsb_elem. eauto.
    + apply negb_true_iff. unfold skipped. by apply existsb_false.
Qed.

Lemma definition_diagnostics per_module d name file stmts full idx :
  per_module !! d = Some (stmts, full, idx) → contains "." name = false →
  subject_diagnostics resolve_alias_ resolve_ severity per_module (d, definition_subject d name file) =
  let '(doc, line) := find_docstring_and_lineno_for_local_def stmts name idx in
  match gap_of doc with
  | None => []
  | Some gap => [diagnostic_for_gap (definition_subject d name file) gap full line severity]
  end.
Proof.
  intros Hm Hn. unfold subject_diagnostics, direct_lookup. simpl. rewrite Hm, last_dotted_app by done.
  destruct (find_docstring_and_lineno_for_local_def stmts name idx) as [doc line].
  unfold check_subject. simpl. by destruct (gap_of doc).
Qed.

(** What is reported: the files that do not parse, and what each kept subject gives. *)
Lemma run_reports files skip diag :
  diag ∈ (run files root_dir severity scope skip).1.1 ↔
  diag ∈ sn_diagnostics (scan files) ∨ ∃ ms,
    ms ∈ (filter_subjects_by_scope (dedup_subjects (seed_members exists_ root_dir scope (scan files))) scope skip).1 ∧
    diag ∈ subject_diagnostics resolve_alias_ resolve_ severity (sn_per_module (scan files)) ms.
Proof.
  unfold run_coverage_check. destruct (filter_subjects_by_scope _ scope skip) as [kept bits]. simpl.
  by rewrite elem_of_app, flat_map_elem.
Qed.

Lemma scan_diagnostics_context files diag :
  diag ∈ sn_diagnostics (scan files) → de_context diag = "doctest.coverage.parse-error".
Proof.
  unfold scan_files. set (ok := λ st : scan_state,
    ∀ d, d ∈ sn_diagnostics st → de_context d = "doctest.coverage.parse-error").
  assert (∀ st, ok st → ok (fold_left scan1 files st)) as H; [|by apply H; intros d ?%elem_of_nil].
  induction files as [|f files IH]; intros st Hst; [done|]. apply IH. rewrite scan_file_eq.
  destruct (scanned_as f) as [[]|]; [done|]. destruct (parse f) as [|failure]; [done|].
  destruct (attempted f); [|done]. intros d [Hd|Hd]%elem_of_app; [by apply Hst|].
  apply list_elem_of_singleton in Hd as ->. by destruct failure.
Qed.

Lemma str_app_inv_r a b c : a +:+ c = b +:+ c → a = b.
Proof.
  intros H. apply (str_app_split a b c c H). apply (f_equal String.length) in H.
  rewrite !str_length_app in H. lia.
Qed.

(** A message names its subject and its gap. *)
Lemma gap_message_inj s1 g1 file1 line1 s2 g2 file2 line2 :
  diagnostic_for_gap s1 g1 file1 line1 severity = diagnostic_for_gap s2 g2 file2 line2 severity →
  sj_public_id s1 = sj_public_id s2 ∧ g1 = g2.
Proof.
  intros H. apply (f_equal de_message) in H. unfold diagnostic_for_gap in H. cbn [de_message] in H.
  destruct g1, g2; apply str_app_inv_l in H.
  1, 4: by apply str_app_inv_r in H.
  all: exfalso; apply (f_equal (λ s, last (String.list_ascii_of_string s))) in H; rewrite !list_ascii_app, !last_app in H;
    vm_compute in H; discriminate H.
Qed.

(** What a subject gives under the rule's own heading is a gap of its own. *)
Lemma subject_gap per ms diag :
  diag ∈ subject_diagnostics resolve_alias_ resolve_ severity per ms → de_context diag = "doctest.coverage" →
  ∃ g file line, diag = diagnostic_for_gap ms.2 g file line severity.
Proof.
  destruct ms as [d subject]. unfold subject_diagnostics.
  assert (∀ doc line file, diag ∈ match check_subject resolve_alias_ subject d doc line file with
    | Covered => []
    | Gap gap file lineno => [diagnostic_for_gap subject gap file lineno severity]
    | WalkError error => [diagnostic_for_walk_error subject error (resolve_ d) severity]
    end → de_context diag = "doctest.coverage" →
    ∃ g file line, diag = diagnostic_for_gap subject g file line severity) as H.
  { intros doc line file. destruct (check_subject _ _ _ _ _ _) as [|g file' line'|e]; [by intros ?%elem_of_nil| |].
    - intros ->%list_elem_of_singleton _. eauto.
    - by intros ->%list_elem_of_singleton. }
  destruct (direct_lookup per d subject) as [[doc line] file]. cbn [snd].
  destruct (sj_source subject); [apply H..|]. by intros ->%list_elem_of_singleton.
Qed.

Lemma no_member_seeds per entries :
  (∀ e, e ∈ entries → match e with Member _ _ _ => False | _ => True end) →
  flat_map (seed_member exists_ root_dir per) entries = [].
Proof.
  induction entries as [|e entries IH]; intros H; [done|]. simpl. rewrite IH by set_solver.
  pose proof (H e ltac:(set_solver)). by destruct e.
Qed.

(** No other subject of the scan has the id of the definition. *)
Lemma only_definition l1 f l2 src stmts name ms :
  scanned_as f = Some (src, stmts) → (∀ g, g ∈ l1 ++ l2 → is_scanned g = true → dotted g ≠ dotted f) →
  (∀ g src' stmts' n, g ∈ l1 ++ f :: l2 → scanned_as g = Some (src', stmts') → n ∈ subject_names stmts' →
     contains "." n = false) → contains "." name = false →
  (∀ e, e ∈ (scope_entries_of scope).1 → match e with Member _ _ _ => False | _ => True end) →
  classify_top_level_binding stmts name = Some LocalDefinition →
  ms ∈ seed_members exists_ root_dir scope (scan (l1 ++ f :: l2)) →
  sj_public_id ms.2 = sj_public_id (definition_subject (dotted f) name f) →
  ms = (dotted f, definition_subject (dotted f) name f).
Proof.
  intros Hs Hsole Hdot Hname Hmem Hc Hin Eid. unfold seed_members in Hin.
  assert (match scope with Some (ScopeList entries) =>
    flat_map (seed_member exists_ root_dir (sn_per_module (scan (l1 ++ f :: l2)))) entries | _ => [] end = []) as En.
  { destruct scope as [[|entries]|]; [done| |done]. by apply no_member_seeds. }
  rewrite En, app_nil_r in Hin. apply elem_of_subjects in Hin as (g & src' & stmts' & Hg & Eg & E1 & E2).
  unfold enumerate_subjects in E2. apply list_elem_of_omap in E2 as (n & Hn & E2).
  apply fmap_Some in E2 as (source & Ec & E2). destruct ms as [d subject]. simpl in *. subst d subject.
  unfold definition_subject in *. simpl in Eid. pose proof (Hdot g src' stmts' n Hg Eg Hn) as Hnd.
  apply (f_equal rsplit_once_dot) in Eid. rewrite !rsplit_once_dot_app in Eid by done. injection Eid as Ed ->.
  assert (g = f) as ->.
  { destruct (decide (g ∈ l1 ++ l2)) as [Hin|Hnin]; [|set_solver]. destruct (Hsole g Hin); [|done].
    unfold is_scanned. rewrite Eg. by apply bool_decide_eq_true. }
  rewrite Hs in Eg. injection Eg as <- <-. rewrite Hc in Ec. by injection Ec as <-.
Qed.

Lemma public_name name pre st post r body :
  defines name st r body →
  match extract_dunder_all (pre ++ st :: post) with
  | Some names => name ∈ names
  | None => starts_with "_" name = false
  end → name ∈ subject_names (pre ++ st :: post).
Proof.
  unfold subject_names. intros Hst. destruct (extract_dunder_all _); [done|]. intros Hu.
  unfold fallback_top_level_names. apply list_elem_of_omap. exists st. split; [set_solver|].
  destruct Hst as [c Hn|f Hn _|f Hn _]; subst name; by rewrite Hu.
Qed.

Lemma definition_report f src stmts name body r per :
  fits_u32 src → per !! dotted f = Some (stmts, path_join root_dir f, build_line_index src) →
  contains "." name = false →
  (∀ idx, find_docstring_and_lineno_for_local_def stmts name idx =
     (extract_docstring body, offset_to_line idx (r_start r))) →
  ∀ diag, diag ∈ subject_diagnostics resolve_alias_ resolve_ severity per
      (dotted f, definition_subject (dotted f) name f) ↔
    ∃ gap, lacks body gap ∧ diag = diagnostic_for_gap (definition_subject (dotted f) name f) gap
      (path_join root_dir f) (newlines_before (r_start r) src + 1) severity.
Proof.
  intros Hfit Hm Hd Hfind diag. rewrite (definition_diagnostics _ _ name f _ _ _ Hm Hd), Hfind.
  rewrite offset_to_line_newlines by done. setoid_rewrite <-gap_of_lacks.
  destruct (gap_of (extract_docstring body)) as [gap|].
  - rewrite list_elem_of_singleton. naive_solver.
  - rewrite elem_of_nil. naive_solver.
Qed.

(** C39: A definition is judged on its own docstring.  Take a class or function
    of a file that is read and parses, with only statements before it that do
    not bind its name, or stubs; whose name is public (in the list of
    [__all__], or, without one, not beginning with an underscore) and which the
    scope asks for and no skip entry matches.  Then the run reports it, in its
    file and at the line it starts on, as without header exactly when its body
    does not start with a docstring that has a line [Examples:] or [Example:],
    and as without example exactly when it has one but no line is a prompt; and
    the run reports no gap of it anywhere else, so none at all when it has
    both.  Provided no other file that is read has its module path, no public
    name has a dot, and no entry of the scope is a method. *)
Theorem definition_judged_on_its_docstring l1 f l2 src pre st post name r body skip :
  let stmts := pre ++ st :: post in
  let subject := definition_subject (dotted f) name f in
  let reported := (run (l1 ++ f :: l2) root_dir severity scope skip).1.1 in
  let report gap := diagnostic_for_gap subject gap (path_join root_dir f)
    (newlines_before (r_start r) src + 1) severity in
  scanned_as f = Some (src, stmts) → fits_u32 src → Forall (passes_over name) pre → defines name st r body →
  match extract_dunder_all stmts with Some names => name ∈ names | None => starts_with "_" name = false end →
  selected skip subject →
  (∀ g, g ∈ l1 ++ l2 → is_scanned g = true → dotted g ≠ dotted f) →
  (∀ g src' stmts' n, g ∈ l1 ++ f :: l2 → scanned_as g = Some (src', stmts') → n ∈ subject_names stmts' →
     contains "." n = false) →
  (∀ e, e ∈ (scope_entries_of scope).1 → match e with Member _ _ _ => False | _ => True end) →
  (∀ gap, report gap ∈ reported ↔ lacks body gap) ∧
  ∀ gap file line, diagnostic_for_gap subject gap file line severity ∈ reported →
    diagnostic_for_gap subject gap file line severity = report gap.
Proof.
  intros stmts subject reported report Hs Hfit Hpre Hst Hpub Hsel Hsole Hdot Hmem.
  destruct (definition_found name pre st post r body Hpre Hst) as [Hc Hfind]. fold stmts in Hc, Hfind.
  assert (name ∈ subject_names stmts) as Hn by (by eapply public_name).
  assert (contains "." name = false) as Hd by (by apply (Hdot f src stmts name); [set_solver|..]).
  assert (sn_per_module (scan (l1 ++ f :: l2)) !! dotted f =
    Some (stmts, path_join root_dir f, build_line_index src)) as Hm
    by (apply scan_lookup; [done|]; intros g Hg; apply Hsole; set_solver).
  pose proof (definition_report f src stmts name body r _ Hfit Hm Hd Hfind) as Hrep.
  assert (∀ diag, diag ∈ subject_diagnostics resolve_alias_ resolve_ severity
      (sn_per_module (scan (l1 ++ f :: l2))) (dotted f, subject) → diag ∈ reported) as Hin.
  { intros diag H. apply run_reports. right. exists (dotted f, subject). split; [|done].
    by eapply definition_kept; [set_solver|..]. }
  assert (∀ gap file line, diagnostic_for_gap subject gap file line severity ∈ reported →
    lacks body gap ∧ diagnostic_for_gap subject gap file line severity = report gap) as Hout.
  { intros gap file line [H|(ms & Hk & H)]%run_reports; [by apply scan_diagnostics_context in H|].
    destruct (subject_gap _ _ _ H eq_refl) as (g & file' & line' & E).
    destruct (gap_message_inj _ _ _ _ _ _ _ _ E) as [Eid _]. rewrite filter_subjects_kept in Hk.
    apply filter_elem in Hk as [Hk _]. apply filter_elem in Hk as [Hk _].
    rewrite (only_definition l1 f l2 src stmts name ms) in H by done.
    apply Hrep in H as (gap' & Hl & E'). pose proof E' as E2. apply gap_message_inj in E2 as [_ <-]. done. }
  split; [|intros gap file line H; by apply Hout]. intros gap. split.
  - intros H. by eapply Hout.
  - intros Hl. apply Hin, Hrep. by exists gap.
Qed.

(** Two files with one module path: a name only the first defines is looked up in
    the second, and reported there as undocumented, whatever its docstring. *)
Theorem same_module_path_misreports f1 f2 src1 stmts1 src2 stmts2 name :
  scanned_as f1 = Some (src1, stmts1) → scanned_as f2 = Some (src2, stmts2) →
  dotted f1 = dotted f2 →
  name ∈ subject_names stmts1 → classify_top_level_binding stmts1 name = Some LocalDefinition →
  find_def_by_name stmts2 name = None →
  starts_with "_" name = false → contains "." name = false → (scope_entries_of scope).1 = [] →
  diagnostic_for_gap (definition_subject (dotted f1) name f1) MissingHeader (path_join root_dir f2) 0
    severity ∈ (run [f1; f2] root_dir severity scope []).1.1.
Proof.
  intros H1 H2 Hdot Hn Hc Hnone Hu Hd He.
  pose proof (scan_lookup [f1] f2 [] src2 stmts2 H2 ltac:(set_solver)) as Hm. simpl in Hm.
  rewrite <-Hdot in Hm. pose proof (definition_diagnostics _ _ name f1 _ _ _ Hm Hd) as Hdiag.
  unfold find_docstring_and_lineno_for_local_def in Hdiag. rewrite Hnone in Hdiag.
  cbv beta iota zeta in Hdiag. change (gap_of None) with (Some MissingHeader) in Hdiag.
  cbv beta iota in Hdiag.
  apply run_reports. right. exists (dotted f1, definition_subject (dotted f1) name f1).
  split; [|rewrite Hdiag; by apply list_elem_of_singleton].
  eapply definition_kept; [set_solver|exact H1|done|done|]. unfold selected.
  destruct (scope_entries_of scope) as [entries pf]. simpl in He. subst entries.
  split_and!; [done|by left|]. by intros e ?%elem_of_nil.
Qed.
End Scan.

(** Two scripts of one name in two directories, the first documented. *)
Definition demo_doc : string := join newline ["Add."; ""; "Examples:"; "    >>> add(1, 2)"; "    3"; ""].

Definition demo_def (name : string) (body : list Stmt.t) : Stmt.t :=
  Stmt.FunctionDef (mk_fn zero_range name (mk_arguments [] [] None [] None) body [] None).

Definition demo_files : list (string * list Stmt.t) :=
  [("/p/a/main.py", [demo_def "add" [Stmt.Expr_ zero_range (Expr.Constant zero_range (CStr demo_doc))]]);
   ("/p/b/main.py", [demo_def "_main" [Stmt.Pass zero_range]])].

Definition files_parse (source _ : string) : result (list Stmt.t) ParseError :=
  match find_map (λ kv : string * list Stmt.t, if String.eqb kv.1 source then Some kv.2 else None)
          demo_files with
  | Some stmts => Ok stmts
  | None => Err {| pe_offset := 0; pe_error := "" |}
  end.

Definition files_read (p : string) : result string string :=
  if existsb (λ kv, String.eqb kv.1 p) demo_files then Ok p else Err "no such file".

Abbreviation demo_run files := (run_coverage_check files_parse files_read (λ _, false)
  (λ _ _, Err (Cycle [])) (λ _, None) files "/p" SevWarning None []).

(** Three definitions of one file: documented, without a header, without an
    example. *)
Definition demo_docs : list Stmt.t :=
  map (λ p, demo_def p.1 [Stmt.Expr_ zero_range (Expr.Constant zero_range (CStr p.2))])
    [("add", demo_doc); ("sub", "Subtract."); ("mul", join newline ["Multiply."; ""; "Example:"; "  mul(1, 2)"])].

Definition docs_parse (source _ : string) : result (list Stmt.t) ParseError := Ok demo_docs.

Abbreviation docs_run := (run_coverage_check docs_parse (λ p, Ok p) (λ _, false)
  (λ _ _, Err (Cycle [])) (λ _, None) ["a.py"] "/p" SevWarning None []).

Lemma definition_judged_on_its_docstring_witness :
  docs_run.1.1 =
    [diagnostic_for_gap (definition_subject "a" "sub" "a.py") MissingHeader "/p/a.py" 1 SevWarning;
     diagnostic_for_gap (definition_subject "a" "mul" "a.py") HeaderNoExamples "/p/a.py" 1 SevWarning] ∧
  lacks [Stmt.Expr_ zero_range (Expr.Constant zero_range (CStr "Subtract."))] MissingHeader ∧
  ∀ gap file line,
    diagnostic_for_gap (definition_subject "a" "sub" "a.py") gap file line SevWarning ∈ docs_run.1.1 →
    diagnostic_for_gap (definition_subject "a" "sub" "a.py") gap file line SevWarning =
      diagnostic_for_gap (definition_subject "a" "sub" "a.py") gap "/p/a.py" 1 SevWarning.
Proof.
  assert (docs_run.1.1 =
    [diagnostic_for_gap (definition_subject "a" "sub" "a.py") MissingHeader "/p/a.py" 1 SevWarning;
     diagnostic_for_gap (definition_subject "a" "mul" "a.py") HeaderNoExamples "/p/a.py" 1 SevWarning]) as E
    by (vm_compute; reflexivity).
  split; [exact E|].
  destruct (definition_judged_on_its_docstring docs_parse (λ p, Ok p) (λ _, false)
    (λ _ _, Err (Cycle [])) (λ _, None) "/p" SevWarning None [] "a.py" [] "/p/a.py"
    (take 1 demo_docs) (nth 1 demo_docs (Stmt.Pass zero_range)) (drop 2 demo_docs) "sub" zero_range
    [Stmt.Expr_ zero_range (Expr.Constant zero_range (CStr "Subtract."))] []) as [H1 H2].
  - vm_compute. reflexivity.
  - vm_compute. reflexivity.
  - apply Forall_cons. split; [|apply Forall_nil; exact I]. apply passes_unbound. intros H. inversion H. discriminate.
  - apply defines_fn; reflexivity.
  - vm_compute. reflexivity.
  - split; [reflexivity|]. split; [left; reflexivity|]. intros e He. apply elem_of_nil in He. destruct He.
  - intros g Hg. apply elem_of_nil in Hg. destruct Hg.
  - intros g src' stmts' n Hg Hs Hn. apply list_elem_of_singleton in Hg as ->. vm_compute in Hs.
    injection Hs as <- <-. vm_compute in Hn. revert n Hn. apply Forall_forall. repeat constructor.
  - intros e He. apply elem_of_nil in He. destruct He.
  - split; [|exact H2]. apply H1.
    assert (diagnostic_for_gap (definition_subject "a" "sub" "a.py") MissingHeader "/p/a.py" 1 SevWarning
      ∈ docs_run.1.1) as H by (rewrite E; left). exact H.
Defined.

Lemma same_module_path_misreports_witness :
  (demo_run ["a/main.py"]).1.1 = [] ∧
  diagnostic_for_gap (definition_subject "main" "add" "a/main.py") MissingHeader "/p/b/main.py" 0
    SevWarning ∈ (demo_run ["a/main.py"; "b/main.py"]).1.1.
Proof.
  split; [vm_compute; reflexivity|].
  apply (same_module_path_misreports files_parse files_read (λ _, false) (λ _ _, Err (Cycle []))
    (λ _, None) "/p" SevWarning None "a/main.py" "b/main.py" "/p/a/main.py"
    [demo_def "add" [Stmt.Expr_ zero_range (Expr.Constant zero_range (CStr demo_doc))]] "/p/b/main.py"
    [demo_def "_main" [Stmt.Pass zero_range]] "add"); try reflexivity.
  apply elem_of_cons. by left.
Defined.
