(* ===== verification/Collect.v ===== *)
(** * Collect: from directories to test items

    [collector.rs] walks the configured paths for test files; the first part of
    [pipeline/collection.rs] finds the rootdir package, registers the
    declaration homes each test file can reach, and collects the tests of each
    file, from the module cache or by asking Python.

    The file system, the [globset] and [ignore] crates, and the parser are
    parameters.  Python is a deterministic process: an answer is a function of
    the calls made before it, so the session is the list of its calls. *)
From stdpp Require Import pretty.
From S2P Require Import Prelude Collections Text F64 Paths Types Cache Filter Report Strict Config Ast Prescan Lint Doctest.

(** ** Test files ([collector.rs]) *)

(** An entry of the directory walk: its path, [None] when it is not UTF-8, its
    file name, and whether it is a regular file, when its type is known. *)
Record found_entry := { fe_path : option string; fe_name : string; fe_is_file : option bool }.

Section Walk.
Context {glob globset glob_error : Type}.
Context (glob_new : string → result glob glob_error)
  (set_build : list glob → result globset glob_error) (is_match : globset → string → bool).
Context (is_file : string → bool) (canonicalize : string → option string).
(** [WalkBuilder]: the entries below a path, given [git_ignore] and the names of
    the directories not to enter. *)
Context (walk : string → bool → list string → list found_entry).

(** [canonicalize] is [None] when the call fails or its answer is not UTF-8. *)
Definition normalize_path (path : string) : string := default path (canonicalize path).

Fixpoint build_globs (patterns : list string) : result (list glob) glob_error :=
  match patterns with
  | [] => Ok []
  | p :: patterns => let? g := glob_new p in let? gs := build_globs patterns in Ok (g :: gs)
  end.

Definition build_glob_set (patterns : list string) : result globset glob_error :=
  let? gs := build_globs patterns in set_build gs.

Definition collect_from (path : string) (config : Config) (glob_set : globset) : list string :=
  if is_file path then
    match file_name path with
    | Some filename => if is_match glob_set filename then [normalize_path path] else []
    | None => []
    end
  else
    omap (λ e,
      match fe_is_file e with
      | Some true => if is_match glob_set (fe_name e) then normalize_path <$> fe_path e else None
      | _ => None
      end) (walk path (use_gitignore (paths config)) (norecursedirs (paths config))).

Definition walk_matching (roots : list string) (config : Config) (patterns : list string)
    : result (list string) glob_error :=
  let? glob_set := build_glob_set patterns in
  Ok (sort_by path_cmp (flat_map (λ root, collect_from root config glob_set) roots)).

Definition collect_files_in (roots : list string) (config : Config) : result (list string) glob_error :=
  walk_matching roots config (python_files (paths config)).

Definition collect_files (config : Config) : result (list string) glob_error :=
  collect_files_in (testpaths (paths config)) config.

Definition collect_doctest_files_in (roots : list string) (config : Config)
    : result (list string) glob_error :=
  walk_matching roots config ["*.py"].

Definition collect_doctest_files (config : Config) : result (list string) glob_error :=
  collect_doctest_files_in (testpaths (paths config)) config.

Definition coverage_roots (config : Config) : list string :=
  match doctest config with
  | Some {| dt_roots := (_ :: _) as roots |} => roots
  | _ =>
      match declared_testpaths (paths config) with
      | [] => [rootdir config]
      | declared => declared
      end
  end.

Definition collect_declared_doctest_files (config : Config) : result (list string) glob_error :=
  collect_doctest_files_in (coverage_roots config) config.

(** ** The rootdir package ([pipeline/collection.rs]) *)

(** [path.ancestors()]: a path has at most [depth] proper ancestors. *)
Fixpoint ancestors_loop (fuel : nat) (p : string) : list string :=
  match fuel with
  | 0 => []
  | S fuel => p :: match path_parent p with Some q => ancestors_loop fuel q | None => [] end
  end.

Definition ancestors (p : string) : list string := ancestors_loop (S (depth p)) p.

(** One step of the fold: the nearest ancestor of [common] that [dir] is under. *)
Definition common_ancestor (common dir : string) : string :=
  default "" (List.find (λ candidate, path_starts_with candidate dir) (ancestors common)).

Definition rootdir_package (declared_dirs : list string) (root : string) : option string :=
  match declared_dirs with
  | [] => None
  | first :: dirs =>
      let folded := fold_left common_ancestor dirs first in
      let any_inside := existsb (λ dir, path_starts_with root dir) declared_dirs in
      Some (if any_inside && negb (path_starts_with root folded) then root else folded)
  end.

Definition implied_declared_dirs (cfg : Config) : list string :=
  match collect_files_in [rootdir cfg] cfg with
  | Ok files => omap path_parent files
  | Err _ => [rootdir cfg]
  end.

Definition declared_dir (path : string) : string :=
  if is_file path then default path (path_parent path) else path.

Definition declared_dirs_holding_tests (cfg : Config) : list string :=
  let declared := map declared_dir (declared_testpaths (paths cfg)) in
  let holding := List.filter (λ dir,
    match collect_files_in [dir] cfg with
    | Ok [] => false
    | Ok (_ :: _) => true
    | Err _ => true
    end) declared in
  match holding with [] => declared | _ => holding end.

Inductive RootProvenance := DeclaredRoot | LayoutRoot.

Definition hint_clause (p : RootProvenance) : string :=
  match p with
  | DeclaredRoot => "the deepest directory covering your declared testpaths"
  | LayoutRoot => "derived from your test layout — no testpaths declared"
  end.

(** The rootdir package and where it came from, as both collection entry points
    compute it. *)
Definition tree_root_of (cfg : Config) : option string * RootProvenance :=
  let '(declared_dirs, provenance) :=
    match declared_testpaths (paths cfg) with
    | [] => (implied_declared_dirs cfg, LayoutRoot)
    | _ => (declared_dirs_holding_tests cfg, DeclaredRoot)
    end in
  (rootdir_package declared_dirs (rootdir cfg), provenance).

End Walk.

Definition registration_chain (parent : string) (tree_root : option string) : list string :=
  match tree_root with
  | Some root =>
      if path_starts_with root parent
      then reverse (take_while (λ dir, path_starts_with root dir) (ancestors parent))
      else [parent]
  | None => [parent]
  end.

(** ** Declaration homes *)

Inductive HomeFile := FixturesHome | InitHome.

Definition home_file_str (f : HomeFile) : string :=
  match f with FixturesHome => "__fixtures__.py" | InitHome => "__init__.py" end.

Inductive HomeKind :=
  | UserHome (tree_root : option string) (root_provenance : RootProvenance)
  | PluginHome (plugin_module namespace : string) (autouse : list string).

Record DeclarationHome := mk_home {
  dh_path : string;
  dh_anchor : string;
  dh_file : HomeFile;
  dh_kind : HomeKind
}.

(** A declaration: function name, lifetime, line. *)
Abbreviation declaration := (string * string * N)%type.

Definition ast_declarations (l : list PrescanDeclaration) : list declaration :=
  map (λ d, (decl_fn_name d, decl_lifetime d, as_u32 (N.of_nat (decl_lineno d)))) l.

(** The calls into Python that collection makes. *)
Inductive py_call :=
  | RegisterHome (path anchor : string)
  | RegisterPlugin (path plugin_module namespace : string) (autouse : list string)
  | ReadDeclarations (path : string)
  | CollectModule (file : string) (collect_violations : bool).

(** Python's answers, each a function of the calls before it. *)
Record Bridge := {
  register_fixture_module_for_path : list py_call → string → string → result unit CollectError;
  register_plugin_fixture_module :
    list py_call → string → string → string → list string → result unit CollectError;
  module_source_declarations : list py_call → string → result (list declaration) CollectError;
  collect_module : list py_call → string → bool →
    result (list TestItem * list RawViolation) CollectError;
  plugin_anchor_dirs : list string
}.

(** The accumulators the registration functions share, and the session. *)
Record reg_state := mk_reg {
  rg_calls : list py_call;
  rg_dirs : list string;
  rg_errors : list CollectError;
  rg_diagnostics : list DiagnosticEntry;
  rg_modules : list FixtureModule
}.

Definition call (c : py_call) (st : reg_state) : reg_state :=
  mk_reg (rg_calls st ++ [c]) (rg_dirs st) (rg_errors st) (rg_diagnostics st) (rg_modules st).
Definition push_errors (l : list CollectError) (st : reg_state) : reg_state :=
  mk_reg (rg_calls st) (rg_dirs st) (rg_errors st ++ l) (rg_diagnostics st) (rg_modules st).
Definition push_diagnostic (d : DiagnosticEntry) (st : reg_state) : reg_state :=
  mk_reg (rg_calls st) (rg_dirs st) (rg_errors st) (rg_diagnostics st ++ [d]) (rg_modules st).
Definition push_module (m : FixtureModule) (st : reg_state) : reg_state :=
  mk_reg (rg_calls st) (rg_dirs st) (rg_errors st) (rg_diagnostics st) (rg_modules st ++ [m]).
Definition insert_dir (dir : string) (st : reg_state) : reg_state :=
  mk_reg (rg_calls st) (rg_dirs st ++ [dir]) (rg_errors st) (rg_diagnostics st) (rg_modules st).

Definition registration_warning (path message : string) (line : option nat) : DiagnosticEntry :=
  mk_diag SevWarning "fixture registration" message (Some path) line.

Definition lifetime_is (lifetime : string) (d : declaration) : bool := String.eqb d.1.2 lifetime.

Definition root_hint (tree_root : option string) (provenance : RootProvenance) : string :=
  match tree_root with
  | None => "the root of your test tree"
  | Some root => root +:+ " (" +:+ hint_clause provenance +:+ ")"
  end.

Definition rule4_error (path anchor : string) (tree_root : option string)
    (provenance : RootProvenance) (fn : string) : CollectError :=
  PyError (fn +:+ " in " +:+ path +:+ " declares lifetime=" +:+ dquote +:+ "process" +:+ dquote
    +:+ ", but " +:+ anchor +:+ " is not a rootdir package." +:+ newline
    +:+ "process is the tier that does not constrain the scheduler, so anchoring it below the root "
    +:+ "attaches it to no boundary at all." +:+ newline
    +:+ "Hint: move the declaration to " +:+ root_hint tree_root provenance
    +:+ ", or drop to lifetime=" +:+ dquote +:+ "package" +:+ dquote +:+ " to scope it to " +:+ anchor
    +:+ ", or lifetime=" +:+ dquote +:+ "module" +:+ dquote +:+ " for per-file.").

Definition is_rootdir_package (tree_root : option string) (anchor : string) : bool :=
  match tree_root with Some root => path_eqb root anchor | None => false end.

Section Collection.
Context (py : Bridge).
Context (suite_parse : string → string → result (list Stmt.t) ParseError).
Context (read_to_string : string → result string string).
Context (stdlib : option (gset string)) (exists_ : string → bool).

(** The declarations of a user home: Python's when the module registers, the
    syntax tree's when it does not. *)
Definition register_user (home : DeclarationHome) (ast_fallback : list declaration) (st : reg_state)
    : list declaration * reg_state :=
  let path := dh_path home in
  let answer := register_fixture_module_for_path py (rg_calls st) path (dh_anchor home) in
  let st := call (RegisterHome path (dh_anchor home)) st in
  match answer with
  | Err e =>
      (ast_fallback,
       match dh_file home with
       | FixturesHome => push_errors [e] st
       | InitHome => push_diagnostic (registration_warning path
           (path +:+ " could not be imported, so any fixtures it declares are not registered: "
            +:+ show_collect_error e) None) st
       end)
  | Ok _ =>
      let answer := module_source_declarations py (rg_calls st) path in
      let st := call (ReadDeclarations path) st in
      match answer with
      | Ok declarations => (declarations, st)
      | Err e => (ast_fallback, push_errors [e] st)
      end
  end.

Definition register_and_record (home : DeclarationHome) (ast_fallback : list declaration)
    (st : reg_state) : reg_state :=
  let path := dh_path home in
  let anchor := dh_anchor home in
  match dh_kind home with
  | PluginHome plugin_module namespace autouse =>
      let answer :=
        register_plugin_fixture_module py (rg_calls st) path plugin_module namespace autouse in
      let st := call (RegisterPlugin path plugin_module namespace autouse) st in
      match answer with Err e => push_errors [e] st | Ok _ => st end
  | UserHome tree_root provenance =>
      let '(declarations, st) := register_user home ast_fallback st in
      let packages := map (λ d, {| pd_fn_name := d.1.1; pd_lineno := N.to_nat d.2 |})
        (List.filter (lifetime_is LIFETIME_PACKAGE) declarations) in
      let st :=
        if is_rootdir_package tree_root anchor then st
        else push_errors (map (λ d, rule4_error path anchor tree_root provenance d.1.1)
               (List.filter (lifetime_is LIFETIME_PROCESS) declarations)) st in
      push_module {| fm_module := path; fm_anchor := anchor; package_declarations := packages |} st
  end.

Definition unavailable_message (path : string) (reason : ParseFailure) : string * option nat :=
  match reason with
  | Parse line cause =>
      (path +:+ ":" +:+ pretty line +:+ ": " +:+ cause +:+
       "; fixtures in this file will not be registered", Some (N.to_nat line))
  | Io cause =>
      (path +:+ " could not be read: " +:+ cause +:+
       "; fixtures in this file will not be registered", None)
  end.

Definition register_declaration_home (home : DeclarationHome) (st : reg_state) : reg_state :=
  let path := dh_path home in
  match prescan_fixture_module suite_parse read_to_string path with
  | HasFixtures declarations => register_and_record home (ast_declarations declarations) st
  | FixturesUnavailable reason =>
      let '(message, line) := unavailable_message path reason in
      match dh_file home with
      | FixturesHome => push_errors [PyError message] st
      | InitHome => push_diagnostic (registration_warning path message line) st
      end
  | NoFixtures has_decorated_functions =>
      if has_decorated_functions then register_and_record home [] st else st
  end.

Record PluginFixtureHome := {
  pfh_anchor_dir : string;
  pfh_plugin_module : string;
  pfh_namespace : string;
  pfh_autouse : list string
}.

(** The diagnostics and modules of a plugin home are dropped by the caller's
    empty accumulators. *)
Definition register_plugin_home (home : PluginFixtureHome) (st : reg_state) : reg_state :=
  let path := path_join (pfh_anchor_dir home) (home_file_str FixturesHome) in
  let st' := register_declaration_home
    (mk_home path (pfh_anchor_dir home) FixturesHome
       (PluginHome (pfh_plugin_module home) (pfh_namespace home) (pfh_autouse home)))
    (mk_reg (rg_calls st) [] (rg_errors st) [] []) in
  mk_reg (rg_calls st') (rg_dirs st) (rg_errors st') (rg_diagnostics st) (rg_modules st).

(** The two homes of a directory. *)
Definition register_dir (tree_root : option string) (provenance : RootProvenance) (dir : string)
    (st : reg_state) : reg_state :=
  insert_dir dir (fold_left (λ st file_kind,
    let path := path_join dir (home_file_str file_kind) in
    if exists_ path
    then register_declaration_home (mk_home path dir file_kind (UserHome tree_root provenance)) st
    else st) [FixturesHome; InitHome] st).

Definition dir_registered (st : reg_state) (dir : string) : bool := existsb (path_eqb dir) (rg_dirs st).

Definition register_homes_in_chain (tree_root : option string) (provenance : RootProvenance)
    (parent_dir : string) (st : reg_state) : reg_state :=
  fold_left (λ st dir, if dir_registered st dir then st else register_dir tree_root provenance dir st)
    (registration_chain parent_dir tree_root) st.

Definition register_homes_of_file (tree_root : option string) (provenance : RootProvenance)
    (file : string) (st : reg_state) : reg_state :=
  match path_parent file with
  | Some parent_dir => register_homes_in_chain tree_root provenance parent_dir st
  | None => st
  end.

(** [registered_dirs] starts with the anchors of the plugins. *)
Definition reg_start (calls : list py_call) : reg_state := mk_reg calls (plugin_anchor_dirs py) [] [] [].

(** For the surfaces that do not collect: the first error, and the session. *)
Definition register_declaration_homes_for_files (calls : list py_call) (tree_root : option string)
    (provenance : RootProvenance) (test_files : list string) : option CollectError * list py_call :=
  let st := fold_left (λ st file, register_homes_of_file tree_root provenance file st) test_files
    (reg_start calls) in
  (head (rg_errors st), rg_calls st).

(** ** Items *)

Record FileProfile := mk_profile { fpr_path : string; fpr_prescan_us : N; fpr_collection_us : N }.

(** The time each step of a file takes. *)
Context (prescan_us collection_us : string → N).

Record items_state := mk_items {
  it_reg : reg_state;
  it_cache : TestCache;
  it_items : list TestItem;
  it_violations : list RawViolation;
  it_profiles : list FileProfile
}.

(** What the prescan says of a file: whether it may declare fixtures inline,
    the syntax tree kept for strict mode, and the fingerprint. *)
Definition prescan_view (collect_violations : bool) (r : PrescanResult)
    : option (bool * option (string * list Stmt.t) * option Z) :=
  match r with
  | NoTests => None
  | TestsUnavailable => Some (true, None, None)
  | HasTests p =>
      let ast := if collect_violations && negb (String.eqb (pp_source p) "")
                 then Some (pp_source p, pp_stmts p) else None in
      Some (pp_has_fixture_shaped_decorator p, ast, Some (pp_fingerprint p))
  end.

Definition strict_violations (file : string) (cached_ast : option (string * list Stmt.t))
    : list RawViolation :=
  match cached_ast with
  | Some (source, stmts) =>
      collect_bare_asserts_from_ast file source stmts ++
      collect_module_defs_from_ast file source stmts ++
      collect_test_returns_from_ast file source stmts
  | None =>
      collect_bare_asserts suite_parse read_to_string file ++
      collect_module_defs suite_parse read_to_string file ++
      collect_test_returns suite_parse read_to_string file
  end.

(** [None]: the file is not served from the cache. *)
Definition serve_cached (cache : TestCache) (collect_violations may_declare : bool) (file : string)
    (fingerprint : option Z) : option (list TestItem) :=
  if collect_violations || may_declare then None
  else fingerprint ≫= cached_module_items cache file.

Definition set_reg (st : items_state) (r : reg_state) : items_state :=
  mk_items r (it_cache st) (it_items st) (it_violations st) (it_profiles st).

Definition import_file (collect_violations : bool) (file : string)
    (cached_ast : option (string * list Stmt.t)) (fingerprint : option Z) (st : items_state)
    : items_state :=
  let answer := collect_module py (rg_calls (it_reg st)) file collect_violations in
  let reg := call (CollectModule file collect_violations) (it_reg st) in
  match answer with
  | Err e => set_reg st (push_errors [e] reg)
  | Ok (file_items, file_violations) =>
      mk_items reg
        (match fingerprint with
         | Some fp => if collect_violations then it_cache st
                      else update_module_cache (it_cache st) file fp file_items
         | None => it_cache st
         end)
        (it_items st ++ file_items)
        (it_violations st ++ file_violations ++
         (if collect_violations then strict_violations file cached_ast else []))
        (it_profiles st)
  end.

Definition push_profile (enabled : bool) (file : string) (collection : N) (st : items_state)
    : items_state :=
  mk_items (it_reg st) (it_cache st) (it_items st) (it_violations st)
    (it_profiles st ++ if enabled then [mk_profile file (prescan_us file) collection] else []).

Definition collect_file (collect_violations profile_enabled : bool) (tree_root : option string)
    (provenance : RootProvenance) (st : items_state) (file : string) : items_state :=
  match prescan_view collect_violations
          (prescan_with_ast suite_parse read_to_string stdlib file collect_violations) with
  | None => push_profile profile_enabled file 0 st
  | Some (may_declare, cached_ast, fingerprint) =>
      let st := set_reg st (register_homes_of_file tree_root provenance file (it_reg st)) in
      match serve_cached (it_cache st) collect_violations may_declare file fingerprint with
      | Some cached_items =>
          push_profile profile_enabled file 0
            (mk_items (it_reg st) (it_cache st) (it_items st ++ cached_items) (it_violations st)
               (it_profiles st))
      | None =>
          push_profile profile_enabled file (collection_us file)
            (import_file collect_violations file cached_ast fingerprint st)
      end
  end.

Record CollectionOutput := {
  co_items : list TestItem;
  co_errors : list CollectError;
  co_raw_violations : list RawViolation;
  co_profile : option (list FileProfile);
  co_fixture_modules : list FixtureModule;
  co_diagnostics : list DiagnosticEntry
}.

(** [collect_items]: the output, the cache and the session after it. *)
Definition collect_loop (test_files : list string) (cfg : Config) (tree_root : option string)
    (provenance : RootProvenance) (calls : list py_call) (cache : TestCache) : items_state :=
  fold_left (collect_file (bool_decide (is_Some (strict (marker_cfg cfg))))
      (collection_profile (output cfg)) tree_root provenance) test_files
    (mk_items (reg_start calls) cache [] [] []).

Definition collect_items (test_files : list string) (cfg : Config) (tree_root : option string)
    (provenance : RootProvenance) (calls : list py_call) (cache : TestCache)
    : CollectionOutput * TestCache * list py_call :=
  let st := collect_loop test_files cfg tree_root provenance calls cache in
  let errors := rg_errors (it_reg st) in
  let errors :=
    match errors with
    | [] => validate_markers (it_items st) (list_to_set (registered_markers (marker_cfg cfg)))
    | _ => errors
    end in
  ({| co_items := it_items st;
      co_errors := errors;
      co_raw_violations := it_violations st;
      co_profile := if collection_profile (output cfg) then Some (it_profiles st) else None;
      co_fixture_modules := rg_modules (it_reg st);
      co_diagnostics := rg_diagnostics (it_reg st) |},
   it_cache st, rg_calls (it_reg st)).

(** ** Doctest items *)

Definition collect_doctest_items (doctest_files : list string) : list TestItem :=
  flat_map (λ file, map (λ loc,
    let fn := "<doctest>" +:+ dl_name loc in
    {| node_id := NodeId.new file fn None; Types.fn_name := fn; lineno := N.to_nat (dl_lineno loc);
       markers := MarkerSet.from_vec ["doctest"]; param_id := None; param_values := [];
       is_async := false; fixture_deps := []; fixref_deps := []; arranged := [] |})
    (scan_doctests suite_parse read_to_string file)) doctest_files.

End Collection.

(** * Theorems *)

(** ** Ancestors *)

Lemma elem_of_ancestors_loop fuel p d :
  depth p < fuel → d ∈ ancestors_loop fuel p ↔ ancestor p d.
Proof.
  revert p. induction fuel as [|fuel IH]; intros p Hf; [lia|]. simpl. rewrite elem_of_cons. split.
  - intros [->|Hd]; [constructor|]. destruct (path_parent p) as [q|] eqn:Hq; [|set_solver].
    apply ancestor_up with q; [done|]. apply IH; [|done]. apply path_parent_depth in Hq. lia.
  - inversion 1 as [|? q ? Hq Ha]; subst; [by left|]. right. rewrite Hq. apply IH; [|done].
    apply path_parent_depth in Hq. lia.
Qed.

Lemma elem_of_ancestors p d : d ∈ ancestors p ↔ ancestor p d.
Proof. apply elem_of_ancestors_loop. lia. Qed.

Lemma path_starts_with_refl p : path_starts_with p p = true.
Proof. by apply path_starts_with_true. Qed.

Lemma path_parent_starts_with p q : path_parent p = Some q → path_starts_with q p = true.
Proof. intros (c & Hc)%path_parent_components. apply path_starts_with_true. rewrite Hc. by apply prefix_app_r. Qed.

Lemma ancestor_starts_with p d : ancestor p d → path_starts_with d p = true.
Proof.
  induction 1 as [p|p q d Hq _ IH]; [apply path_starts_with_refl|].
  eapply path_starts_with_trans; [exact IH|]. by apply path_parent_starts_with.
Qed.

(** The first ancestor with a property is the deepest one. *)
Lemma find_ancestors_loop f fuel p c :
  depth p < fuel → List.find f (ancestors_loop fuel p) = Some c →
  ancestor p c ∧ f c = true ∧ ∀ d, ancestor p d → f d = true → path_starts_with d c = true.
Proof.
  revert p. induction fuel as [|fuel IH]; intros p Hf; [lia|]. simpl. destruct (f p) eqn:Ep.
  - intros [= <-]. split_and!; [constructor|done|]. intros d Hd _. by apply ancestor_starts_with.
  - destruct (path_parent p) as [q|] eqn:Hq; [|done]. intros Hc.
    destruct (IH q) as (Ha & Hfc & Hmax); [apply path_parent_depth in Hq; lia|done|].
    split_and!; [by apply ancestor_up with q|done|]. intros d Hd Hfd. apply Hmax; [|done].
    inversion Hd; subst; congruence.
Qed.

Lemma find_ancestors f p :
  match List.find f (ancestors p) with
  | Some c => ancestor p c ∧ f c = true ∧ ∀ d, ancestor p d → f d = true → path_starts_with d c = true
  | None => ∀ d, ancestor p d → f d = false
  end.
Proof.
  destruct (List.find f (ancestors p)) as [c|] eqn:E.
  - apply (find_ancestors_loop f (S (depth p))); [lia|done].
  - intros d Hd%elem_of_ancestors. apply (List.find_none f _ E). by apply list_elem_of_In.
Qed.

Lemma root_prefix p : is_absolute p = true → [RootDir] `prefix_of` components p.
Proof. intros Hp. unfold components, is_absolute in *. rewrite Hp. by eexists. Qed.

(** The deepest directory that holds both of two absolute paths. *)
Lemma common_ancestor_spec a b :
  is_absolute a = true → is_absolute b = true →
  let c := common_ancestor a b in
  is_absolute c = true ∧ path_starts_with c a = true ∧ path_starts_with c b = true ∧
  ∀ x, is_absolute x = true → path_starts_with x a = true → path_starts_with x b = true →
    path_starts_with x c = true.
Proof.
  intros Ha Hb. simpl. unfold common_ancestor.
  pose proof (find_ancestors (λ candidate, path_starts_with candidate b) a) as Hf.
  destruct (List.find _ (ancestors a)) as [c|]; simpl.
  - destruct Hf as (Hac & Hcb & Hmax). split_and!.
    + by destruct (ancestor_absolute a c Hac Ha).
    + by apply ancestor_starts_with.
    + done.
    + intros x Hx Hxa Hxb. destruct (ancestor_prefix (components x) a) as (d & Hd & Hdx); [done| | |].
      { apply root_prefix in Hx as [k ->]. done. } { by apply path_starts_with_true. }
      apply path_starts_with_true. rewrite <-Hdx. apply path_starts_with_true, Hmax; [done|].
      apply path_starts_with_true. rewrite Hdx. by apply path_starts_with_true.
  - destruct (ancestor_prefix [RootDir] a) as (d & Hd & Hdc); [done|done|by apply root_prefix|].
    specialize (Hf d Hd). apply not_true_iff_false in Hf. destruct Hf.
    apply path_starts_with_true. rewrite Hdc. by apply root_prefix.
Qed.

Lemma fold_common_spec dirs first :
  is_absolute first = true → Forall (λ d, is_absolute d = true) dirs →
  let c := fold_left common_ancestor dirs first in
  is_absolute c = true ∧ (∀ d, d ∈ first :: dirs → path_starts_with c d = true) ∧
  ∀ x, is_absolute x = true → (∀ d, d ∈ first :: dirs → path_starts_with x d = true) →
    path_starts_with x c = true.
Proof.
  simpl. revert first. induction dirs as [|d dirs IH]; intros first Hfirst Hdirs; simpl.
  - split_and!; [done| |].
    + intros d ->%list_elem_of_singleton. apply path_starts_with_refl.
    + intros x _ Hx. apply Hx. set_solver.
  - apply Forall_cons in Hdirs as [Hd Hdirs].
    destruct (common_ancestor_spec first d Hfirst Hd) as (Hc & H1 & H2 & H3).
    destruct (IH _ Hc Hdirs) as (Hf & Hall & Hmax). split_and!; [done| |].
    + pose proof (Hall _ (list_elem_of_here _ _)) as Hcc.
      intros y [->|[->|Hy]%elem_of_cons]%elem_of_cons; [eauto with oxi..|].
      apply Hall. by apply elem_of_cons; right.
    + intros x Hx Hxd. apply Hmax; [done|]. intros y [->|Hy]%elem_of_cons.
      * apply H3; [done|apply Hxd; set_solver..].
      * apply Hxd. set_solver.
Qed.

(** The rootdir package is the deepest directory above every declared one,
    moved down to the project's root when it would lie outside although some
    declared directory is inside.  Then it is at or below both. *)
Theorem rootdir_package_deepest declared root :
  declared ≠ [] → Forall (λ d, is_absolute d = true) declared →
  ∃ folded p,
    rootdir_package declared root = Some p ∧
    (∀ d, d ∈ declared → path_starts_with folded d = true) ∧
    (∀ x, is_absolute x = true → (∀ d, d ∈ declared → path_starts_with x d = true) →
      path_starts_with x folded = true) ∧
    (if existsb (path_starts_with root) declared
     then path_starts_with root p = true ∧ path_starts_with folded p = true ∧ (p = root ∨ p = folded)
     else p = folded).
Proof.
  intros Hne Habs. destruct declared as [|first dirs]; [done|].
  apply Forall_cons in Habs as [Hfirst Hdirs].
  destruct (fold_common_spec dirs first Hfirst Hdirs) as (_ & Hall & Hmax).
  exists (fold_left common_ancestor dirs first). eexists. split_and!; [done|done|done|].
  destruct (existsb (path_starts_with root) (first :: dirs)) eqn:E; [|done]. cbn [andb].
  destruct (path_starts_with root (fold_left common_ancestor dirs first)) eqn:Er; simpl.
  - split_and!; [done|apply path_starts_with_refl|by right].
  - split_and!; [apply path_starts_with_refl| |by left].
    apply existsb_elem in E as (d & Hd & Hrd).
    destruct (path_starts_with_total root _ d Hrd (Hall d Hd)) as [H|H]; [congruence|done].
Qed.

Lemma rootdir_package_deepest_witness :
  rootdir_package ["/p/tests/a"; "/p/tests/b/c"] "/p" = Some "/p/tests" ∧
  rootdir_package ["/p/tests"; "/other/suite"] "/p" = Some "/p" ∧
  ∃ folded p, rootdir_package ["/p/tests"; "/other/suite"] "/p" = Some p ∧
    path_starts_with folded "/p/tests" = true.
Proof.
  split_and!; [vm_compute; reflexivity..|].
  destruct (rootdir_package_deepest ["/p/tests"; "/other/suite"] "/p") as (folded & p & H1 & H2 & _).
  - done.
  - repeat constructor.
  - exists folded, p. split; [exact H1|]. apply H2. set_solver.
Defined.

(** ** Chains *)

Lemma take_while_ancestors root fuel p d :
  depth p < fuel →
  d ∈ take_while (λ dir, path_starts_with root dir) (ancestors_loop fuel p) ↔
  ancestor p d ∧ path_starts_with root d = true.
Proof.
  revert p. induction fuel as [|fuel IH]; intros p Hf; [lia|]. simpl.
  destruct (path_starts_with root p) eqn:E.
  - rewrite elem_of_cons. split.
    + intros [->|Hd]; [by split; [constructor|]|].
      destruct (path_parent p) as [q|] eqn:Hq; [|set_solver].
      apply IH in Hd as [??]; [|apply path_parent_depth in Hq; lia].
      split; [by apply ancestor_up with q|done].
    + intros [Ha Hd]. inversion Ha as [|? q ? Hq Ha']; subst; [by left|]. right. rewrite Hq.
      apply IH; [apply path_parent_depth in Hq; lia|done].
  - split; [set_solver|]. intros [Ha Hd]. apply ancestor_starts_with in Ha.
    exfalso. apply not_true_iff_false in E. apply E. eauto with oxi.
Qed.

Lemma ancestors_loop_sorted fuel p : StronglySorted (λ a b, depth b < depth a) (ancestors_loop fuel p).
Proof.
  revert p. induction fuel as [|fuel IH]; intros p; simpl; [constructor|].
  destruct (path_parent p) as [q|] eqn:Hq; [|by repeat constructor]. constructor; [apply IH|].
  apply Forall_forall. intros d Hd. apply path_parent_depth in Hq. rewrite Hq.
  assert (depth d ≤ depth q); [|lia]. clear -Hd. revert q Hd.
  induction fuel as [|fuel IH]; intros q; simpl; [set_solver|].
  intros [->|Hd]%elem_of_cons; [done|]. destruct (path_parent q) as [q'|] eqn:Hq; [|set_solver].
  apply IH in Hd. apply path_parent_depth in Hq. lia.
Qed.

Lemma take_while_sorted {A} (R : A → A → Prop) f l : StronglySorted R l → StronglySorted R (take_while f l).
Proof.
  induction 1 as [|x l Hs IH HF]; simpl; [constructor|]. destruct (f x); [|constructor].
  constructor; [done|]. clear -HF. induction HF as [|y l Hy HF IH]; simpl; [constructor|].
  destruct (f y); by constructor.
Qed.

Lemma strongly_sorted_snoc {A} (R : A → A → Prop) l x :
  StronglySorted R l → Forall (λ y, R y x) l → StronglySorted R (l ++ [x]).
Proof.
  induction 1 as [|y l Hs IH HF]; intros Hx; simpl; [by repeat constructor|].
  apply Forall_cons in Hx as [Hy Hx]. constructor; [auto|]. apply Forall_app. by repeat constructor.
Qed.

Lemma strongly_sorted_reverse {A} (R : A → A → Prop) l :
  StronglySorted R l → StronglySorted (λ a b, R b a) (reverse l).
Proof.
  induction 1 as [|x l Hs IH HF]; [constructor|]. rewrite reverse_cons.
  apply strongly_sorted_snoc; [done|]. by apply Forall_reverse.
Qed.

(** The homes a test file can reach: its directory and the ancestors of it at or
    below the rootdir package, each once, shallowest first; outside the rootdir
    package, its own directory alone. *)
Theorem registration_chain_exact parent root :
  (path_starts_with root parent = true →
    (∀ d, d ∈ registration_chain parent (Some root) ↔
      ancestor parent d ∧ path_starts_with root d = true) ∧
    StronglySorted (λ a b, depth a < depth b) (registration_chain parent (Some root))) ∧
  (path_starts_with root parent = false → registration_chain parent (Some root) = [parent]) ∧
  registration_chain parent None = [parent].
Proof.
  split_and!; [|by intros E; unfold registration_chain; rewrite E|done].
  intros E. unfold registration_chain. rewrite E. split.
  - intros d. rewrite elem_of_reverse. apply take_while_ancestors. lia.
  - apply (strongly_sorted_reverse (λ a b, depth b < depth a)), take_while_sorted,
      ancestors_loop_sorted.
Qed.

(** ** Which homes are registered *)

Definition is_home_call (c : py_call) : bool := match c with RegisterHome _ _ => true | _ => false end.

Definition home_calls (st : reg_state) : list py_call := List.filter is_home_call (rg_calls st).

(** The directories a chain adds to those already registered. *)
Definition plan_dir (dirs : list string) (dir : string) : list string :=
  if existsb (path_eqb dir) dirs then dirs else dirs ++ [dir].

Definition chain_of (tree_root : option string) (file : string) : list string :=
  match path_parent file with Some parent => registration_chain parent tree_root | None => [] end.

Definition planned (tree_root : option string) (seed files : list string) : list string :=
  fold_left plan_dir (flat_map (chain_of tree_root) files) seed.

(** [seed] first, then directories that are new, once each. *)
Lemma plan_dirs_prefix l dirs :
  ∃ new, fold_left plan_dir l dirs = dirs ++ new ∧
    (∀ d, d ∈ new → d ∈ l ∧ ∀ a, a ∈ dirs → path_eqb d a = false) ∧
    (∀ i j d e, new !! i = Some d → new !! j = Some e → path_eqb d e = true → i = j) ∧
    (∀ d, d ∈ l → ∃ e, e ∈ dirs ++ new ∧ path_eqb d e = true).
Proof.
  induction l as [|d l IH] using rev_ind.
  { exists []. rewrite app_nil_r. split_and!; [done|set_solver|done|set_solver]. }
  destruct IH as (new & Hf & Hnew & Hinj & Hall). rewrite fold_left_app. simpl. rewrite Hf.
  unfold plan_dir. destruct (existsb (path_eqb d) (dirs ++ new)) eqn:E.
  - exists new. split_and!; [done| |done|].
    + intros x Hx. destruct (Hnew x Hx) as [Hl Ha]. split; [set_solver|done].
    + intros x [Hx| ->%list_elem_of_singleton]%elem_of_app; [by apply Hall|].
      apply existsb_elem in E as (e & He & Hde). eauto.
  - rewrite existsb_false in E. exists (new ++ [d]). rewrite <-app_assoc. split_and!; [done|..].
    + intros x [Hx| ->%list_elem_of_singleton]%elem_of_app.
      * destruct (Hnew x Hx) as [Hl Ha]. split; [set_solver|done].
      * split; [set_solver|]. intros a Ha. apply E. set_solver.
    + intros i j x e Hi Hj Hxe.
      apply lookup_app_Some in Hi as [Hi|[Hli Hi]]; apply lookup_app_Some in Hj as [Hj|[Hlj Hj]].
      * eauto.
      * apply list_lookup_singleton_Some in Hj as [? <-]. rewrite path_eqb_sym in Hxe.
        rewrite E in Hxe; [done|]. apply elem_of_app. right. by eapply list_elem_of_lookup_2.
      * apply list_lookup_singleton_Some in Hi as [? <-].
        rewrite E in Hxe; [done|]. apply elem_of_app. right. by eapply list_elem_of_lookup_2.
      * apply list_lookup_singleton_Some in Hi as [? _]. apply list_lookup_singleton_Some in Hj as [? _].
        lia.
    + intros x [Hx| ->%list_elem_of_singleton]%elem_of_app.
      * destruct (Hall x Hx) as (e & He & Hxe). exists e. split; [set_solver|done].
      * exists d. split; [set_solver|apply path_eqb_refl].
Qed.

Section Trace.
Context (py : Bridge).
Context (suite_parse : string → string → result (list Stmt.t) ParseError).
Context (read_to_string : string → result string string).
Context (stdlib : option (gset string)) (exists_ : string → bool).

(** Whether the prescan of a home leads to its import. *)
Definition needs_import (path : string) : bool :=
  match prescan_fixture_module suite_parse read_to_string path with
  | HasFixtures _ => true
  | NoFixtures has_decorated_functions => has_decorated_functions
  | FixturesUnavailable _ => false
  end.

(** The homes of a directory that are imported. *)
Definition dir_homes (dir : string) : list py_call :=
  flat_map (λ k, let path := path_join dir (home_file_str k) in
    if exists_ path && needs_import path then [RegisterHome path dir] else []) [FixturesHome; InitHome].

Lemma home_calls_app l l' : List.filter is_home_call (l ++ l') =
  List.filter is_home_call l ++ List.filter is_home_call l'.
Proof. apply List.filter_app. Qed.

Lemma register_user_trace home fallback st :
  let st' := (register_user py home fallback st).2 in
  home_calls st' = home_calls st ++ [RegisterHome (dh_path home) (dh_anchor home)] ∧
  rg_dirs st' = rg_dirs st.
Proof.
  simpl. unfold register_user, home_calls. destruct (register_fixture_module_for_path py _ _ _); simpl.
  - destruct (module_source_declarations py _ _); simpl; rewrite !home_calls_app, app_nil_r; done.
  - destruct (dh_file home); simpl; rewrite !home_calls_app; done.
Qed.

Lemma register_and_record_trace path anchor file tree_root provenance fallback st :
  let st' := register_and_record py (mk_home path anchor file (UserHome tree_root provenance)) fallback st in
  home_calls st' = home_calls st ++ [RegisterHome path anchor] ∧ rg_dirs st' = rg_dirs st.
Proof.
  simpl. unfold register_and_record. simpl.
  pose proof (register_user_trace (mk_home path anchor file (UserHome tree_root provenance)) fallback st)
    as Ht. simpl in Ht. destruct (register_user py _ fallback st) as [decls st']. simpl in *.
  destruct (is_rootdir_package tree_root anchor); simpl; done.
Qed.

Abbreviation register_home := (register_declaration_home py suite_parse read_to_string).

Lemma register_home_trace path anchor file tree_root provenance st :
  let st' := register_home (mk_home path anchor file (UserHome tree_root provenance)) st in
  home_calls st' = home_calls st ++ (if needs_import path then [RegisterHome path anchor] else []) ∧
  rg_dirs st' = rg_dirs st.
Proof.
  simpl. unfold register_declaration_home, needs_import. simpl.
  destruct (prescan_fixture_module suite_parse read_to_string path) as [l|[]|reason].
  - apply register_and_record_trace.
  - apply register_and_record_trace.
  - by rewrite app_nil_r.
  - destruct (unavailable_message path reason), file; simpl; by rewrite app_nil_r.
Qed.

Lemma register_dir_trace tree_root provenance dir st :
  let st' := register_dir py suite_parse read_to_string exists_ tree_root provenance dir st in
  home_calls st' = home_calls st ++ dir_homes dir ∧ rg_dirs st' = rg_dirs st ++ [dir].
Proof.
  cbv zeta. unfold register_dir, dir_homes.
  set (go := λ st k, _). assert (∀ k st, home_calls (go st k) = home_calls st ++
      (let path := path_join dir (home_file_str k) in
       if exists_ path && needs_import path then [RegisterHome path dir] else []) ∧
      rg_dirs (go st k) = rg_dirs st) as Hgo.
  { intros k st0. unfold go. simpl. destruct (exists_ _); simpl; [|by rewrite app_nil_r].
    apply register_home_trace. }
  cbn [fold_left flat_map]. destruct (Hgo InitHome (go st FixturesHome)) as [H1 H2].
  destruct (Hgo FixturesHome st) as [H3 H4]. clearbody go. split.
  - change (home_calls (insert_dir dir (go (go st FixturesHome) InitHome)))
      with (home_calls (go (go st FixturesHome) InitHome)).
    by rewrite H1, H3, app_nil_r, <-app_assoc.
  - simpl. by rewrite H2, H4.
Qed.

(** A state whose registrations are those of the directories added to [seed]. *)
Definition traced (seed : list string) (base : list py_call) (dirs : list string) (st : reg_state) : Prop :=
  rg_dirs st = seed ++ dirs ∧ home_calls st = base ++ flat_map dir_homes dirs.

Lemma register_chain_traced tree_root provenance chain seed base dirs st :
  traced seed base dirs st →
  let st' := fold_left (λ st dir, if dir_registered st dir then st
    else register_dir py suite_parse read_to_string exists_ tree_root provenance dir st) chain st in
  ∃ dirs', traced seed base dirs' st' ∧ seed ++ dirs' = fold_left plan_dir chain (seed ++ dirs).
Proof.
  simpl. revert dirs st. induction chain as [|d chain IH]; intros dirs st Ht; [by exists dirs|].
  cbn [fold_left]. destruct Ht as [Hd Hc].
  assert (dir_registered st d = existsb (path_eqb d) (seed ++ dirs)) as ->
    by (unfold dir_registered; by rewrite Hd).
  assert (plan_dir (seed ++ dirs) d = if existsb (path_eqb d) (seed ++ dirs) then seed ++ dirs
    else (seed ++ dirs) ++ [d]) as -> by done.
  destruct (existsb (path_eqb d) (seed ++ dirs)); [by apply IH|].
  rewrite <-app_assoc. apply IH.
  destruct (register_dir_trace tree_root provenance d st) as [H1 H2]. split.
  - by rewrite H2, Hd, app_assoc.
  - rewrite H1, Hc, flat_map_app, <-app_assoc. simpl. by rewrite app_nil_r.
Qed.

Lemma register_file_traced tree_root provenance file seed base dirs st :
  traced seed base dirs st →
  let st' := register_homes_of_file py suite_parse read_to_string exists_ tree_root provenance file st in
  ∃ dirs', traced seed base dirs' st' ∧
    seed ++ dirs' = fold_left plan_dir (chain_of tree_root file) (seed ++ dirs).
Proof.
  intros Ht. unfold register_homes_of_file, chain_of. destruct (path_parent file) as [parent|].
  - by apply register_chain_traced.
  - by exists dirs.
Qed.

(** Calls that register nothing leave the trace of homes. *)
Lemma traced_call seed base dirs c st :
  is_home_call c = false → traced seed base dirs st → traced seed base dirs (call c st).
Proof.
  intros Hc [H1 H2]. split; [done|]. unfold home_calls in *. simpl.
  rewrite home_calls_app. simpl. by rewrite Hc, app_nil_r.
Qed.

Lemma traced_errors seed base dirs l st : traced seed base dirs st → traced seed base dirs (push_errors l st).
Proof. done. Qed.
End Trace.

(** Every entry was stored for some version of its file: it has the fingerprint
    of that text and, with the ids rebuilt, what Python collects from it.  The
    file may have been edited since. *)
Definition stored_cache (collected : string → string → result (list TestItem * list RawViolation) CollectError)
    (versions : string → string → Prop) (cache : TestCache) : Prop :=
  ∀ file entry, modules (inner cache) !! file = Some entry →
    ∃ src l v, versions file src ∧ collected file src = Ok (l, v) ∧
      fingerprint entry = from_source src ∧ map (rebuild_id file) (cached_items entry) = l.

Section Items.
Context (py : Bridge).
Context (suite_parse : string → string → result (list Stmt.t) ParseError).
Context (read_to_string : string → result string string).
Context (stdlib : option (gset string)) (exists_ : string → bool).
Context (prescan_us collection_us : string → N).

Abbreviation scan := (prescan_with_ast suite_parse read_to_string stdlib).
Abbreviation collect1 strict :=
  (collect_file py suite_parse read_to_string stdlib exists_ prescan_us collection_us strict).
Abbreviation collect := (collect_items py suite_parse read_to_string stdlib exists_ prescan_us collection_us).
Abbreviation strict_on cfg := (bool_decide (is_Some (strict (marker_cfg cfg)))).
Abbreviation homes_of := (dir_homes suite_parse read_to_string exists_).

Definition has_tests (strict : bool) (file : string) : bool := negb (is_no_tests (scan file strict)).

Lemma prescan_view_none strict file :
  prescan_view strict (scan file strict) = None ↔ has_tests strict file = false.
Proof. unfold has_tests. by destruct (scan file strict). Qed.

Lemma import_file_reg strict file ast fp st :
  it_reg (import_file py suite_parse read_to_string strict file ast fp st) =
  let reg := call (CollectModule file strict) (it_reg st) in
  match collect_module py (rg_calls (it_reg st)) file strict with
  | Err e => push_errors [e] reg
  | Ok _ => reg
  end.
Proof. unfold import_file. by destruct (collect_module py _ _ _) as [[]|]. Qed.

Lemma collect_file_traced strict prof tree_root provenance seed base dirs st file :
  traced suite_parse read_to_string exists_ seed base dirs (it_reg st) →
  ∃ dirs', traced suite_parse read_to_string exists_ seed base dirs'
    (it_reg (collect1 strict prof tree_root provenance st file)) ∧
    seed ++ dirs' = fold_left plan_dir
      (if has_tests strict file then chain_of tree_root file else []) (seed ++ dirs).
Proof.
  intros Ht. unfold collect_file.
  destruct (prescan_view strict (scan file strict)) as [[[may ast] fp]|] eqn:E.
  - assert (has_tests strict file = true) as ->.
    { apply not_false_iff_true. intros H%prescan_view_none. congruence. }
    destruct (register_file_traced py suite_parse read_to_string exists_ tree_root provenance file
      seed base dirs (it_reg st) Ht) as (dirs' & Ht' & Hd). exists dirs'. split; [|done]. cbn zeta.
    destruct (serve_cached _ strict may file fp); [done|].
    unfold push_profile. cbn [it_reg]. rewrite import_file_reg. cbn [set_reg it_reg].
    destruct (collect_module py _ file strict); by apply traced_call.
  - apply prescan_view_none in E as ->. by exists dirs.
Qed.

Lemma collect_fold_traced strict prof tree_root provenance seed base files dirs st :
  traced suite_parse read_to_string exists_ seed base dirs (it_reg st) →
  ∃ dirs', traced suite_parse read_to_string exists_ seed base dirs'
    (it_reg (fold_left (collect1 strict prof tree_root provenance) files st)) ∧
    seed ++ dirs' = fold_left plan_dir
      (flat_map (chain_of tree_root) (List.filter (has_tests strict) files)) (seed ++ dirs).
Proof.
  revert dirs st. induction files as [|f files IH]; intros dirs st Ht; [by exists dirs|].
  cbn [fold_left List.filter].
  destruct (collect_file_traced strict prof tree_root provenance seed base dirs st f Ht)
    as (d1 & Ht1 & Hd1). destruct (IH d1 _ Ht1) as (d2 & Ht2 & Hd2). exists d2. split; [done|].
  rewrite Hd2, Hd1. destruct (has_tests strict f); [|done]. simpl. by rewrite fold_left_app.
Qed.

(** The home calls of a collection, from the files alone. *)
Lemma collect_home_calls files cfg tree_root provenance calls cache :
  let seed := plugin_anchor_dirs py in
  List.filter is_home_call (collect files cfg tree_root provenance calls cache).2 =
  List.filter is_home_call calls ++ flat_map homes_of (drop (length seed)
    (planned tree_root seed (List.filter (has_tests (strict_on cfg)) files))).
Proof.
  simpl. unfold collect_loop.
  destruct (collect_fold_traced (strict_on cfg) (collection_profile (output cfg)) tree_root provenance
    (plugin_anchor_dirs py) (List.filter is_home_call calls) files []
    (mk_items (reg_start py calls) cache [] [] [])) as (dirs & [_ Hc] & Hd).
  { split; [by rewrite app_nil_r|]. simpl. by rewrite app_nil_r. }
  rewrite app_nil_r in Hd. unfold planned. rewrite <-Hd, drop_app_length. exact Hc.
Qed.

(** A collection registers the homes of each directory its test files can reach,
    once, in an order the files fix, and none of a plugin's directory: the
    module cache, warm or cold, changes nothing of it. *)
Theorem homes_registered_whatever_the_cache files cfg tree_root provenance calls cache cache' :
  let seed := plugin_anchor_dirs py in
  List.filter is_home_call (collect files cfg tree_root provenance calls cache).2 =
    List.filter is_home_call (collect files cfg tree_root provenance calls cache').2 ∧
  ∃ new,
    List.filter is_home_call (collect files cfg tree_root provenance calls cache).2 =
      List.filter is_home_call calls ++ flat_map homes_of new ∧
    (∀ d, d ∈ new → (∀ a, a ∈ seed → path_eqb d a = false) ∧
      ∃ f, f ∈ files ∧ has_tests (strict_on cfg) f = true ∧ d ∈ chain_of tree_root f) ∧
    (∀ i j d e, new !! i = Some d → new !! j = Some e → path_eqb d e = true → i = j) ∧
    (∀ f d, f ∈ files → has_tests (strict_on cfg) f = true → d ∈ chain_of tree_root f →
      ∃ e, e ∈ seed ++ new ∧ path_eqb d e = true).
Proof.
  cbv zeta. rewrite !collect_home_calls. split; [done|].
  destruct (plan_dirs_prefix (flat_map (chain_of tree_root)
    (List.filter (has_tests (strict_on cfg)) files)) (plugin_anchor_dirs py))
    as (new & Hp & Hnew & Hinj & Hall).
  exists new. unfold planned. rewrite Hp, drop_app_length. split_and!; [done| |done|].
  - intros d Hd. destruct (Hnew d Hd) as [Hl Ha]. split; [done|].
    apply flat_map_elem in Hl as (f & Hf & Hdf). apply filter_elem in Hf as [??]. eauto.
  - intros f d Hf Ht Hd. apply Hall. apply flat_map_elem. exists f. split; [|done].
    by apply filter_elem.
Qed.

(** ** What is always imported *)

(** The calls only grow. *)
Definition extends (st st' : reg_state) : Prop := rg_calls st `prefix_of` rg_calls st'.

#[local] Instance extends_preorder : PreOrder extends.
Proof. split; [intros x; unfold extends; done|]. intros x y z. unfold extends. by etrans. Qed.

Lemma extends_fold {A} (f : reg_state → A → reg_state) l st :
  (∀ st a, extends st (f st a)) → extends st (fold_left f l st).
Proof.
  intros Hf. revert st. induction l as [|a l IH]; intros st; [reflexivity|]. simpl.
  etrans; [apply Hf|apply IH].
Qed.

Lemma extends_record home fallback st : extends st (register_and_record py home fallback st).
Proof.
  unfold extends, register_and_record. destruct (dh_kind home) as [tr pv|m n au].
  - unfold register_user. destruct (register_fixture_module_for_path py _ _ _); simpl.
    + destruct (module_source_declarations py _ _); simpl; destruct (is_rootdir_package _ _); simpl;
        rewrite <-app_assoc; by apply prefix_app_r.
    + destruct (dh_file home), (is_rootdir_package _ _); simpl; by apply prefix_app_r.
  - destruct (register_plugin_fixture_module py _ _ _ _ _); simpl; by apply prefix_app_r.
Qed.

Lemma extends_home home st :
  extends st (register_declaration_home py suite_parse read_to_string home st).
Proof.
  unfold register_declaration_home.
  destruct (prescan_fixture_module _ _ _) as [l|[]|reason]; [apply extends_record..|reflexivity|].
  destruct (unavailable_message _ _), (dh_file home); by apply (extends_preorder.(PreOrder_Reflexive) st).
Qed.

Lemma extends_file tree_root provenance file st :
  extends st (register_homes_of_file py suite_parse read_to_string exists_ tree_root provenance file st).
Proof.
  unfold register_homes_of_file. destruct (path_parent file); [|reflexivity].
  apply extends_fold. intros st0 d. destruct (dir_registered st0 d); [reflexivity|].
  apply (extends_fold _ [FixturesHome; InitHome]). intros st1 k.
  cbv beta zeta. destruct (exists_ (path_join d (home_file_str k))); [apply extends_home|reflexivity].
Qed.

Lemma collect_file_calls strict prof tree_root provenance st file :
  ∃ l, rg_calls (it_reg (collect1 strict prof tree_root provenance st file)) = rg_calls (it_reg st) ++ l ∧
    (has_tests strict file = true →
     strict = true ∨ (∀ p, scan file strict = HasTests p → pp_has_fixture_shaped_decorator p = true) →
     CollectModule file strict ∈ l).
Proof.
  unfold collect_file.
  destruct (prescan_view strict (scan file strict)) as [[[may ast] fp]|] eqn:E.
  - destruct (extends_file tree_root provenance file (it_reg st)) as [l Hl]. cbn zeta.
    destruct (serve_cached _ strict may file fp) as [items|] eqn:Ec.
    + exists l. split; [exact Hl|]. intros _ Hm. exfalso. unfold serve_cached in Ec.
      destruct strict; [done|]. destruct Hm as [?|Hm]; [done|].
      destruct (scan file false) as [p| |] eqn:Ep; simpl in E; simplify_eq.
      by rewrite (Hm p eq_refl) in Ec.
    + exists (l ++ [CollectModule file strict]). split; [|intros; set_solver].
      unfold push_profile. cbn [it_reg]. rewrite import_file_reg. cbn [set_reg it_reg].
      rewrite app_assoc, <-Hl. by destruct (collect_module py _ file strict).
  - apply prescan_view_none in E. exists []. rewrite app_nil_r. split; [done|]. congruence.
Qed.

Lemma extends_collect strict prof tree_root provenance files st :
  extends (it_reg st) (it_reg (fold_left (collect1 strict prof tree_root provenance) files st)).
Proof.
  revert st. induction files as [|x l IH]; intros st; [reflexivity|]. cbn [fold_left].
  destruct (collect_file_calls strict prof tree_root provenance st x) as (k & Hk & _).
  etrans; [by exists k|apply IH].
Qed.

(** A file that may declare fixtures inline is imported on every run, warm cache
    or not, and in strict mode every file with tests is: registration happens in
    the import, and the cache would skip it. *)
Theorem inline_declarations_are_imported files cfg tree_root provenance calls cache file :
  file ∈ files → has_tests (strict_on cfg) file = true →
  strict_on cfg = true ∨
    (∀ p, scan file (strict_on cfg) = HasTests p → pp_has_fixture_shaped_decorator p = true) →
  CollectModule file (strict_on cfg) ∈ (collect files cfg tree_root provenance calls cache).2.
Proof.
  intros Hf Ht Hm. simpl. unfold collect_loop.
  generalize (mk_items (reg_start py calls) cache [] [] []). revert Hf.
  induction files as [|g files IH]; intros Hf st; [set_solver|]. cbn [fold_left].
  apply elem_of_cons in Hf as [<-|Hf]; [|by apply IH].
  destruct (extends_collect (strict_on cfg) (collection_profile (output cfg)) tree_root provenance files
    (collect1 (strict_on cfg) (collection_profile (output cfg)) tree_root provenance st file)) as [k ->].
  destruct (collect_file_calls (strict_on cfg) (collection_profile (output cfg)) tree_root provenance st
    file) as (l & -> & Hin). set_solver.
Qed.
(** ** The module cache is transparent *)

(** Python collects a module the same way whatever was called before, gives its
    tests the ids of their module, function and parameters, and, for a file that
    can be read, collects what its text says ([collected]). *)
Context (collect_pure : ∀ h h' f s, collect_module py h f s = collect_module py h' f s).
Context (collect_ids : ∀ h f s l v, collect_module py h f s = Ok (l, v) → ids_of f l).
Context (collected : string → string → result (list TestItem * list RawViolation) CollectError).
Context (collect_text : ∀ h f src, read_to_string f = Ok src → collect_module py h f false = collected f src).

(** The texts a file has had; no two of one file have the same fingerprint. *)
Context (versions : string → string → Prop).
Context (now_a_version : ∀ f src, read_to_string f = Ok src → versions f src).
Context (no_collision : ∀ f src src', versions f src → versions f src' → from_source src = from_source src' →
  src = src').

(** What Python collects from the file as it is now. *)
Definition items_of (strict : bool) (file : string) : list TestItem :=
  if has_tests strict file then
    match collect_module py [] file strict with Ok (l, _) => l | Err _ => [] end
  else [].

Lemma rebuild_ids path l : ids_of path l → map (rebuild_id path) l = l.
Proof.
  induction 1 as [|i l Hi _ IH]; simpl; [done|]. rewrite IH. f_equal.
  destruct i; unfold rebuild_id; simpl in *. by rewrite <-Hi.
Qed.

(** The fingerprint of a prescanned file is that of its text. *)
Lemma prescanned_text file strict p :
  scan file strict = HasTests p → ∃ src, read_to_string file = Ok src ∧ pp_fingerprint p = from_source src.
Proof.
  unfold prescan_with_ast, parse_file, try_parse_file. destruct (read_to_string file) as [src|]; [|done].
  destruct (parse_source suite_parse file src); [|done]. cbn [result_bind]. intros H. exists src.
  split; [done|]. destruct (map _ _); [done|]. by injection H as <-.
Qed.

Lemma stored_update cache file p l v h :
  stored_cache collected versions cache → scan file false = HasTests p →
  collect_module py h file false = Ok (l, v) →
  stored_cache collected versions (update_module_cache cache file (pp_fingerprint p) l).
Proof.
  intros Hs Hp Hl f entry. unfold update_module_cache. simpl. rewrite lookup_insert_Some.
  intros [[<- <-]|[_ Hf]]; [|by apply (Hs f)].
  destruct (prescanned_text _ _ _ Hp) as (src & Hr & ->). exists src, l, v. simpl.
  rewrite <-(collect_text h) by done. split_and!; [by apply now_a_version|done|done|].
  apply rebuild_ids. by eapply collect_ids.
Qed.

(** An entry is served for the text it was stored for. *)
Lemma stored_served cache file p l :
  stored_cache collected versions cache → scan file false = HasTests p →
  cached_module_items cache file (pp_fingerprint p) = Some l → items_of false file = l.
Proof.
  intros Hs Hp. unfold cached_module_items. destruct (modules (inner cache) !! file) as [entry|] eqn:E; [|done].
  destruct (Z.eqb_spec (fingerprint entry) (pp_fingerprint p)) as [Ef|]; [|done]. intros [= <-].
  destruct (Hs _ _ E) as (src & l & v & Hv & Hc & Hfp & ->).
  destruct (prescanned_text _ _ _ Hp) as (src' & Hr & Hfp'). rewrite Hfp, Hfp' in Ef.
  apply (no_collision file) in Ef as ->; [|done|by apply now_a_version].
  unfold items_of, has_tests. by rewrite Hp, (collect_text [] file src' Hr), Hc.
Qed.

Lemma serve_cached_sound cache strict file may ast fp l :
  stored_cache collected versions cache → prescan_view strict (scan file strict) = Some (may, ast, fp) →
  serve_cached cache strict may file fp = Some l → items_of strict file = l.
Proof.
  intros Hs Hv. unfold serve_cached. destruct strict, may; simpl; try done.
  destruct (scan file false) as [p| |] eqn:E; simpl in Hv; simplify_eq; try done. simpl. by eapply stored_served.
Qed.

Lemma import_file_sound strict file may ast fp st :
  stored_cache collected versions (it_cache st) → prescan_view strict (scan file strict) = Some (may, ast, fp) →
  let st' := import_file py suite_parse read_to_string strict file ast fp st in
  it_items st' = it_items st ++ items_of strict file ∧ stored_cache collected versions (it_cache st').
Proof.
  intros Hs Hv. simpl. assert (has_tests strict file = true) as Ht.
  { apply not_false_iff_true. intros H%prescan_view_none. congruence. }
  unfold import_file, items_of. rewrite Ht, (collect_pure [] (rg_calls (it_reg st))).
  destruct (collect_module py (rg_calls (it_reg st)) file strict) as [[l v]|e] eqn:E; simpl.
  - split; [done|]. destruct fp as [fp|]; [|done]. destruct strict; [done|].
    destruct (scan file false) as [p| |] eqn:Ep; simpl in Hv; simplify_eq. by eapply stored_update.
  - by rewrite app_nil_r.
Qed.

Lemma collect_file_sound strict prof tree_root provenance st file :
  stored_cache collected versions (it_cache st) →
  let st' := collect1 strict prof tree_root provenance st file in
  it_items st' = it_items st ++ items_of strict file ∧ stored_cache collected versions (it_cache st').
Proof.
  intros Hs. simpl. unfold collect_file.
  destruct (prescan_view strict (scan file strict)) as [[[may ast] fp]|] eqn:E.
  - cbn zeta. destruct (serve_cached _ strict may file fp) as [l|] eqn:Ec.
    + apply (serve_cached_sound _ strict file may ast fp l Hs E) in Ec as <-. done.
    + by apply (import_file_sound strict file may ast fp (set_reg st _)).
  - apply prescan_view_none in E. unfold items_of. rewrite E. simpl. by rewrite app_nil_r.
Qed.

Lemma collect_fold_sound strict prof tree_root provenance files st :
  stored_cache collected versions (it_cache st) →
  let st' := fold_left (collect1 strict prof tree_root provenance) files st in
  it_items st' = it_items st ++ flat_map (items_of strict) files ∧ stored_cache collected versions (it_cache st').
Proof.
  simpl. revert st. induction files as [|f files IH]; intros st Hs; simpl; [by rewrite app_nil_r|].
  destruct (collect_file_sound strict prof tree_root provenance st f Hs) as [Hi Hs'].
  destruct (IH _ Hs') as [-> ?]. split; [|done]. by rewrite Hi, <-app_assoc.
Qed.


End Items.

(** A home whose import fails still gives the scheduler the package fixtures the
    syntax tree names; a reserved file's failure is an error, an ordinary
    [__init__.py]'s a warning. *)
Theorem failed_import_keeps_package_declarations py suite_parse read_to_string path anchor file tree_root
    provenance declarations e st :
  prescan_fixture_module suite_parse read_to_string path = HasFixtures declarations →
  register_fixture_module_for_path py (rg_calls st) path anchor = Err e →
  is_rootdir_package tree_root anchor = true →
  let st' := register_declaration_home py suite_parse read_to_string
    (mk_home path anchor file (UserHome tree_root provenance)) st in
  rg_modules st' = rg_modules st ++ [{| fm_module := path; fm_anchor := anchor;
    package_declarations :=
      map (λ d, {| pd_fn_name := decl_fn_name d; pd_lineno := N.to_nat (as_u32 (N.of_nat (decl_lineno d))) |})
        (List.filter (λ d, String.eqb (decl_lifetime d) "package") declarations) |}] ∧
  match file with
  | FixturesHome => rg_errors st' = rg_errors st ++ [e] ∧ rg_diagnostics st' = rg_diagnostics st
  | InitHome => rg_errors st' = rg_errors st ∧ length (rg_diagnostics st') = S (length (rg_diagnostics st))
  end.
Proof.
  intros Hp He Hroot. simpl. unfold register_declaration_home. simpl. rewrite Hp.
  unfold register_and_record, register_user. simpl. rewrite He. simpl. rewrite Hroot.
  assert (∀ l, map (λ d : declaration, {| pd_fn_name := d.1.1; pd_lineno := N.to_nat d.2 |})
    (List.filter (lifetime_is LIFETIME_PACKAGE) (ast_declarations l)) =
    map (λ d, {| pd_fn_name := decl_fn_name d; pd_lineno := N.to_nat (as_u32 (N.of_nat (decl_lineno d))) |})
      (List.filter (λ d, String.eqb (decl_lifetime d) "package") l)) as Hl.
  { intros l. induction l as [|d l IH]; [done|]. simpl. unfold lifetime_is at 1. simpl.
    unfold LIFETIME_PACKAGE at 1. destruct (String.eqb (decl_lifetime d) "package"); simpl; by rewrite IH. }
  destruct file; simpl; rewrite Hl; split_and!; try done. by rewrite length_app, Nat.add_1_r.
Qed.

(** A project with one test file, beside a [__fixtures__.py] that declares a
    package fixture and an inline fixture in the test file itself. *)
Definition demo_fixture (name lifetime : string) : Stmt.t :=
  Stmt.FunctionDef (mk_fn zero_range name (mk_arguments [] [] None [] None) [Stmt.Pass zero_range]
    [Expr.Call zero_range (Expr.Attribute zero_range (Expr.Name zero_range "oxi") "fixture") []
       [mk_keyword (Some "lifetime") (Expr.Constant zero_range (CStr lifetime))]] None).

Definition demo_test : Stmt.t :=
  Stmt.FunctionDef (mk_fn zero_range "test_a" (mk_arguments [] [] None [] None) [Stmt.Pass zero_range] [] None).

Definition demo_tree (source _ : string) : result (list Stmt.t) ParseError :=
  if String.eqb source "plain" then Ok [demo_test]
  else if String.eqb source "inline" then Ok [demo_fixture "db" "module"; demo_test]
  else Ok [demo_fixture "db" "package"].

Definition demo_source (p : string) : result string string :=
  if String.eqb p "/p/test_a.py" then Ok "plain"
  else if String.eqb p "/p/test_b.py" then Ok "inline"
  else if String.eqb p "/p/__fixtures__.py" then Ok "home"
  else Err "no such file".

Definition demo_collected (file : string) : TestItem :=
  {| node_id := NodeId.new file "test_a" None; Types.fn_name := "test_a"; lineno := 1;
     markers := MarkerSet.new; param_id := None; param_values := []; is_async := false;
     fixture_deps := []; fixref_deps := []; arranged := [] |}.

Definition demo_bridge : Bridge := {|
  register_fixture_module_for_path := λ _ _ _, Err (PyError "boom");
  register_plugin_fixture_module := λ _ _ _ _ _, Ok tt;
  module_source_declarations := λ _ _, Ok [];
  collect_module := λ _ file _, Ok ([demo_collected file], []);
  plugin_anchor_dirs := []
|}.

Abbreviation demo_collect files cache := (collect_items demo_bridge demo_tree demo_source None
  (String.eqb "/p/__fixtures__.py") (λ _, 0%N) (λ _, 0%N) files config_default (Some "/p") LayoutRoot []
  cache).

(** A version of [test_a.py] with another test, and the cache of that time. *)
Definition demo_old : TestItem :=
  {| node_id := NodeId.new "/p/test_a.py" "test_old" None; Types.fn_name := "test_old"; lineno := 1;
     markers := MarkerSet.new; param_id := None; param_values := []; is_async := false;
     fixture_deps := []; fixref_deps := []; arranged := [] |}.

Definition demo_texts (file src : string) : result (list TestItem * list RawViolation) CollectError :=
  if String.eqb src "old" then Ok ([demo_old], []) else Ok ([demo_collected file], []).

Definition demo_versions (file src : string) : Prop :=
  demo_source file = Ok src ∨ file = "/p/test_a.py" ∧ src = "old".

Definition demo_old_cache : TestCache :=
  update_module_cache empty_cache "/p/test_a.py" (from_source "old") [demo_old].

Lemma demo_source_texts file src : demo_source file = Ok src → src = "plain" ∨ src = "inline" ∨ src = "home".
Proof. unfold demo_source. repeat case_match; intros [= <-]; auto. Qed.


Lemma inline_declarations_are_imported_witness :
  CollectModule "/p/test_b.py" false ∈
    (demo_collect ["/p/test_a.py"; "/p/test_b.py"] empty_cache).2.
Proof.
  apply (inline_declarations_are_imported demo_bridge demo_tree demo_source None
    (String.eqb "/p/__fixtures__.py") (λ _, 0%N) (λ _, 0%N) _ config_default).
  - set_solver.
  - reflexivity.
  - right. intros p. vm_compute. by intros [= <-].
Defined.

Lemma failed_import_keeps_package_declarations_witness :
  let st' := register_declaration_home demo_bridge demo_tree demo_source
    (mk_home "/p/__fixtures__.py" "/p" FixturesHome (UserHome (Some "/p") LayoutRoot))
    (reg_start demo_bridge []) in
  rg_modules st' = [{| fm_module := "/p/__fixtures__.py"; fm_anchor := "/p";
    package_declarations := [{| pd_fn_name := "db"; pd_lineno := 1 |}] |}] ∧
  rg_errors st' = [PyError "boom"].
Proof.
  destruct (failed_import_keeps_package_declarations demo_bridge demo_tree demo_source
    "/p/__fixtures__.py" "/p" FixturesHome (Some "/p") LayoutRoot
    [{| decl_fn_name := "db"; decl_lineno := 1; decl_lifetime := "package"; decl_is_async := false |}]
    (PyError "boom") (reg_start demo_bridge [])) as (H1 & H2 & _); [reflexivity..|].
  split; [exact H1|exact H2].
Defined.
