(* ===== verification/PyBridge.v ===== *)
(** * PyBridge: values that cross from Python ([bridge.rs], [reporter/bridge.rs])

    The object a call returns is a tree; [getattr] and the conversions of PyO3
    read it.  What a call returns is a parameter; what is handed to it is a
    value of this file, so that both sides of the boundary can be stated. *)
From S2P Require Import Prelude Collections Text F64 Types Cache Scheduler Filter Report Wire Strict Config Setup Collect.

(** ** Objects and conversions *)

(** [PyObject] is an instance: its class and its attributes. *)
Inductive PyObj :=
  | PyNone
  | PyBool (b : bool)
  | PyInt (z : Z)
  | PyFloat (x : f64)
  | PyStr (s : string)
  | PyList (l : list PyObj)
  | PyTuple (l : list PyObj)
  | PyDict (l : list (PyObj * PyObj))
  | PyType (name : string)
  | PyObject (class : string) (attrs : list (string * PyObj)).

(** An exception: one of the boundary's own, or one Python raised, with its class
    and its text ([<class>: <message>]). *)
Inductive PyErr :=
  | AttributeError (name : string)
  | TypeError
  | OverflowError
  | Raised (class text : string).

Definition attribute (attrs : list (string * PyObj)) (name : string) : option PyObj :=
  match List.find (λ p, String.eqb p.1 name) attrs with Some (_, v) => Some v | None => None end.

Definition getattr (o : PyObj) (name : string) : result PyObj PyErr :=
  match o with
  | PyObject _ attrs => match attribute attrs name with Some v => Ok v | None => Err (AttributeError name) end
  | PyType n => if String.eqb name "__name__" then Ok (PyStr n) else Err (AttributeError name)
  | _ => Err (AttributeError name)
  end.

(** [FromPyObject] *)
Class FromPy (A : Type) := extract : PyObj → result A PyErr.

#[export] Instance string_from : FromPy string := λ o, match o with PyStr s => Ok s | _ => Err TypeError end.
#[export] Instance bool_from : FromPy bool := λ o, match o with PyBool b => Ok b | _ => Err TypeError end.
#[export] Instance obj_from : FromPy PyObj := Ok.

(** [bool] is an [int] in Python. *)
Definition as_integer (o : PyObj) : option Z :=
  match o with PyInt z => Some z | PyBool b => Some (Z.b2z b) | _ => None end.

Definition extract_unsigned (max : Z) (o : PyObj) : result N PyErr :=
  match as_integer o with
  | Some z => if (0 <=? z)%Z && (z <=? max)%Z then Ok (Z.to_N z) else Err OverflowError
  | None => Err TypeError
  end.

(** [usize] and [u64] *)
#[export] Instance N_from : FromPy N := extract_unsigned u64_max.
#[export] Instance nat_from : FromPy nat := λ o, let? n := extract_unsigned u64_max o in Ok (N.to_nat n).

Definition extract_u32 (o : PyObj) : result nat PyErr := let? n := extract_unsigned u32_max o in Ok (N.to_nat n).

(** [f64] takes an integer too, converted as Python does. *)
#[export] Instance f64_from : FromPy f64 := λ o,
  match o with
  | PyFloat x => Ok x
  | _ => match as_integer o with Some z => Ok (f64_of_Z z) | None => Err TypeError end
  end.

Fixpoint result_map {A B E} (f : A → result B E) (l : list A) : result (list B) E :=
  match l with
  | [] => Ok []
  | a :: l => let? b := f a in let? bs := result_map f l in Ok (b :: bs)
  end.

(** A sequence for [Vec]; a tuple of the right length for a tuple. *)
#[export] Instance list_from {A} `{FromPy A} : FromPy (list A) := λ o,
  match o with PyList l | PyTuple l => result_map extract l | _ => Err TypeError end.

#[export] Instance pair_from {A B} `{FromPy A, FromPy B} : FromPy (A * B) := λ o,
  match o with
  | PyTuple [a; b] => let? x := extract a in let? y := extract b in Ok (x, y)
  | _ => Err TypeError
  end.

Definition extract_triple {A B C} `{FromPy A, FromPy B, FromPy C} (o : PyObj) : result (A * B * C) PyErr :=
  match o with
  | PyTuple [a; b; c] => let? x := extract a in let? y := extract b in let? z := extract c in Ok (x, y, z)
  | _ => Err TypeError
  end.

#[export] Instance option_from {A} `{FromPy A} : FromPy (option A) := λ o,
  match o with PyNone => Ok None | _ => let? a := extract o in Ok (Some a) end.

(** [HashMap]: the entries of a dictionary, whose keys are distinct. *)
#[export] Instance map_from {A} `{FromPy A} : FromPy (gmap string A) := λ o,
  match o with
  | PyDict l =>
      let? entries := result_map (λ p, let? k := (extract p.1 : result string PyErr) in
                                       let? v := extract p.2 in Ok (k, v)) l in
      Ok (fold_left (λ m p, <[p.1 := p.2]> m) entries ∅)
  | _ => Err TypeError
  end.

(** [ob.getattr(name)?.extract()?] *)
Definition field {A} `{FromPy A} (o : PyObj) (name : string) : result A PyErr :=
  let? v := getattr o name in extract v.

(** ** Results of a test *)

#[export] Instance local_from : FromPy LocalVar := λ o,
  let? p := (extract o : result (string * string) PyErr) in Ok {| lv_name := p.1; lv_repr := p.2 |}.

#[export] Instance field_diff_from : FromPy FieldDiff := λ o,
  let? p := (extract_triple o : result (string * string * string) PyErr) in
  Ok {| fd_field := p.1.1; fd_left := p.1.2; fd_right := p.2 |}.

#[export] Instance raw_frame_from : FromPy RawFrame := λ o,
  let? file := field o "file" in
  let? lineno := field o "lineno" in
  let? name := field o "name" in
  let? line := field o "line" in
  let? locals := field o "locals" in
  Ok {| rf_file := file; rf_lineno := lineno; rf_name := name; rf_line := line; rf_locals := locals |}.

Definition extract_frames (o : PyObj) : result (list Frame) PyErr :=
  let? raw := field o "frames" in Ok (map raw_frame_into raw).

(** The arms of [extract_outcome] that read more than one or two fields. *)
Definition extract_failed (o : PyObj) : result RawOutcome.t PyErr :=
  let? message := field o "message" in
  let? file := field o "file" in
  let? lineno := field o "lineno" in
  let? source_line := field o "source_line" in
  let? lhs := field o "left" in
  let? rhs := field o "right" in
  let? op := field o "op" in
  let? frames := extract_frames o in
  let? field_diffs := field o "field_diffs" in
  Ok (RawOutcome.Failed message file lineno source_line frames
        {| cd_left := lhs; cd_right := rhs; cd_op := op; cd_field_diffs := field_diffs |}).

Definition extract_error (o : PyObj) : result RawOutcome.t PyErr :=
  let? message := field o "message" in
  let? file := field o "file" in
  let? lineno := field o "lineno" in
  let? source_line := field o "source_line" in
  let? frames := extract_frames o in
  let usage_error := match field o "usage_error" with Ok b => b | Err _ => false end in
  Ok (RawOutcome.Error message file lineno source_line frames usage_error).

Definition extract_raw (o : PyObj) : result RawOutcome.t PyErr :=
  let? status := field o "status" in
  if String.eqb status "passed" then let? lines := field o "no_message_lines" in Ok (RawOutcome.Passed lines)
  else if String.eqb status "skipped" then let? message := field o "message" in Ok (RawOutcome.Skipped message)
  else if String.eqb status "xfailed" then let? message := field o "message" in Ok (RawOutcome.XFailed message)
  else if String.eqb status "xpassed" then let? strict := field o "strict" in Ok (RawOutcome.XPassed strict)
  else if String.eqb status "timeout" then let? message := field o "message" in Ok (RawOutcome.Timeout message)
  else if String.eqb status "warned" then
    let? message := field o "message" in
    let? lines := field o "no_message_lines" in
    Ok (RawOutcome.Warned message lines)
  else if String.eqb status "failed" then extract_failed o
  else extract_error o.

Definition extract_outcome (o : PyObj) : result TestOutcome.t PyErr :=
  let? raw := extract_raw o in Ok (RawOutcome.into_test_outcome raw).

(** ** Running a test *)

Record DebugOptions := mk_debug {
  do_debug_mode : option string;
  do_keep_tmp : string;
  do_show_locals : bool;
  do_show_internals : bool
}.

(** What [executor.run_test] is called with: the fields of its [TestMeta] (the kind
    is made from the parameter id), the timeout, and its [DebugContext]. *)
Record RunRequest := mk_request {
  rq_module_path : string;
  rq_fn_name : string;
  rq_node_id : string;
  rq_param_id : option string;
  rq_markers : list string;
  rq_timeout : option Z;
  rq_debug : DebugOptions
}.

(** [t as i64] *)
Definition as_i64 (t : Z) : Z := if (t <? 2 ^ 63)%Z then t else (t - 2 ^ 64)%Z.

Definition run_request (item : TestItem) (default_timeout : option Z) (opts : DebugOptions) : RunRequest :=
  mk_request (item_module_path item) (fn_name item) (node_id item) (param_id item) (MarkerSet.iter (markers item))
    (as_i64 <$> default_timeout) opts.

Section Calls.
(** [Display] of an exception, and the answer of [is_usage_error] when it could be
    asked. *)
Context (show_err : PyErr → string) (usage_vote : PyErr → option bool).

Definition is_usage_error (e : PyErr) : bool := default false (usage_vote e).

Definition py_collect_err (e : PyErr) : CollectError := PyError (show_err e).

Context (call_run_test : RunRequest → result PyObj PyErr).

Definition try_run_test (item : TestItem) (default_timeout : option Z) (opts : DebugOptions)
    : result TestOutcome.t PyErr :=
  let? o := call_run_test (run_request item default_timeout opts) in extract_outcome o.

Definition run_test (item : TestItem) (default_timeout : option Z) (opts : DebugOptions) : TestOutcome.t :=
  match try_run_test item default_timeout opts with
  | Ok o => o
  | Err e => TestOutcome.Error (sentinel_with_usage (node_id item +:+ " — " +:+ show_err e) (is_usage_error e))
  end.

(** ** Collecting a module *)

Record CollectedItem := {
  ci_fn_name : string;
  ci_lineno : nat;
  ci_markers : list string;
  ci_param_id : option string;
  ci_param_values : list (string * string);
  ci_is_async : bool;
  ci_fixture_deps : list (string * string);
  ci_fixref_deps : list (string * string);
  ci_arranged : list ArrangedEntry
}.

#[export] Instance arranged_from : FromPy ArrangedEntry := λ o,
  match o with
  | PyType _ => let? name := field o "__name__" in Ok (ArrangedType name)
  | _ => let? name := extract o in Ok (ArrangedName name)
  end.

#[export] Instance collected_item_from : FromPy CollectedItem := λ o,
  let? fn := field o "fn_name" in
  let? lineno := field o "lineno" in
  let? markers := field o "markers" in
  let? pid := field o "param_id" in
  let? values := field o "param_values" in
  let? is_async := field o "is_async" in
  let? deps := field o "fixture_deps" in
  let? refs := field o "fixref_deps" in
  let? arranged := field o "arranged" in
  Ok {| ci_fn_name := fn; ci_lineno := lineno; ci_markers := markers; ci_param_id := pid; ci_param_values := values;
        ci_is_async := is_async; ci_fixture_deps := deps; ci_fixref_deps := refs; ci_arranged := arranged |}.

#[export] Instance kind_from : FromPy ViolationKind := λ o, let? s := extract o in Ok (kind_of_wire s).

#[export] Instance violation_from : FromPy RawViolation := λ o,
  let? id := field o "node_id" in
  let? kind := field o "kind" in
  let? detail := field o "detail" in
  Ok (mk_raw id kind detail).

Definition item_of (path : string) (i : CollectedItem) : TestItem := {|
  node_id := NodeId.new path (ci_fn_name i) (ci_param_id i);
  fn_name := ci_fn_name i;
  lineno := ci_lineno i;
  markers := MarkerSet.from_vec (ci_markers i);
  param_id := ci_param_id i;
  param_values := map (λ p, {| pp_name := p.1; pp_value := p.2 |}) (ci_param_values i);
  is_async := ci_is_async i;
  fixture_deps := ci_fixture_deps i;
  fixref_deps := ci_fixref_deps i;
  arranged := ci_arranged i
|}.

(** The name of the class of an exception. *)
Definition exc_class (e : PyErr) : string :=
  match e with
  | AttributeError _ => "AttributeError"
  | TypeError => "TypeError"
  | OverflowError => "OverflowError"
  | Raised c _ => c
  end.

Definition import_failure (path : string) (e : PyErr) : CollectError :=
  let full := show_err e in
  if String.eqb (exc_class e) "CollectionError" then
    PyError ("collection error: " +:+ default full (strip_prefix "CollectionError: " full))
  else ImportError path (default full (strip_prefix "ImportError: " full)).

Context (call_collect_module : string → bool → result PyObj PyErr).

Definition collect_module_with_session_obj (path : string) (collect_violations : bool)
    : result (list TestItem * list RawViolation) CollectError :=
  let? o := map_err (import_failure path) (call_collect_module path collect_violations) in
  let? p := map_err py_collect_err (extract o : result (list CollectedItem * list RawViolation) PyErr) in
  Ok (map (item_of path) p.1, p.2).

(** ** The session ([FixtureSession]) *)

(** The advisory questions: a failure is an empty answer. *)
Definition advisory (call : result PyObj PyErr) : list string :=
  match (let? o := call in extract o) with Ok names => names | Err _ => [] end.

Definition module_lifetime_fixture_names (call : result PyObj PyErr) : list string := advisory call.
Definition process_lifetime_fixture_names (call : result PyObj PyErr) : list string := advisory call.
Definition plugin_anchor_dirs_of (call : result PyObj PyErr) : list string := advisory call.
Definition modules_with_visible_module_lifetime (call : list string → result PyObj PyErr) (module_paths : list string)
    : list string := advisory (call module_paths).

Definition extract_declaration (o : PyObj) : result (string * string * nat) PyErr :=
  match o with
  | PyTuple [a; b; c] =>
      let? name := extract a in let? lifetime := extract b in let? lineno := extract_u32 c in
      Ok (name, lifetime, lineno)
  | _ => Err TypeError
  end.

(** Here a failure is an error, since an empty answer would switch checks off. *)
Definition source_declarations_of (call : string → result PyObj PyErr) (defining_module_path : string)
    : result (list (string * string * nat)) CollectError :=
  map_err py_collect_err
    (let? o := call defining_module_path in
     match o with PyList l | PyTuple l => result_map extract_declaration l | _ => Err TypeError end).

Definition arranged_fixture_groups (call : list (string * string) → result PyObj PyErr)
    (arranged : list (string * string)) : result (list (list string) * gmap string string) PyErr :=
  let? o := call arranged in extract o.

(** ** Diagnostics *)

Definition extract_diagnostic (o : PyObj) : result DiagnosticEntry PyErr :=
  let? severity := field o "severity" in
  let? context := field o "context" in
  let? message := field o "message" in
  let? file := field o "file" in
  let? v := getattr o "lineno" in
  let? lineno := extract_u32 v in
  Ok (diagnostic_from_wire severity context message file lineno).

(** The list of the session, before and after. *)
Definition drain_diagnostics_from (diagnostics : PyObj) : result (list DiagnosticEntry) PyErr * PyObj :=
  match diagnostics with
  | PyList [] | PyTuple [] => (Ok [], diagnostics)
  | PyList l =>
      match result_map extract_diagnostic l with
      | Ok entries => (Ok entries, PyList [])
      | Err e => (Err e, diagnostics)
      end
  | PyTuple l =>
      (let? _ := result_map extract_diagnostic l in Err (AttributeError "clear"), diagnostics)
  | _ => (Err TypeError, diagnostics)
  end.

Definition drain_session_diagnostics (diagnostics : PyObj) : list DiagnosticEntry * PyObj :=
  let '(r, after) := drain_diagnostics_from diagnostics in
  (match r with Ok entries => entries | Err _ => [] end, after).

(** ** Validation *)

(** A list whose elements a function reads. *)
Definition extract_list {A} (f : PyObj → result A PyErr) (o : PyObj) : result (list A) PyErr :=
  match o with PyList l | PyTuple l => result_map f l | _ => Err TypeError end.

Context (call_validate_fx : list (string * list FxUsage) → result PyObj PyErr).

(** The modules asked about: those collected, in the order of their paths. *)
Definition fx_request (fx_usages : list (string * list FxUsage)) (collected : gset string)
    : list (string * list FxUsage) :=
  sort_by (λ a b, String.compare a.1 b.1) (List.filter (λ p, bool_decide (p.1 ∈ collected)) fx_usages).

Definition validate_fx_boundaries (fx_usages : list (string * list FxUsage)) (collected : gset string)
    : result (list (string * nat * string)) CollectError :=
  match fx_usages with
  | [] => Ok []
  | _ =>
      match fx_request fx_usages collected with
      | [] => Ok []
      | modules =>
          let? o := map_err py_collect_err (call_validate_fx modules) in
          map_err py_collect_err (extract_list extract_triple o)
      end
  end.

Record NamesRequest := mk_names {
  nr_node_id : string;
  nr_fixture_names : list string;
  nr_fixref_names : list string;
  nr_fixture_deps : list (string * string)
}.

Definition names_request (item : TestItem) : NamesRequest :=
  mk_names (node_id item) (map fst (fixture_deps item)) (map fst (fixref_deps item)) (fixture_deps item).

Context (call_validate_names : list NamesRequest → result PyObj PyErr).

Definition validate_fixture_names (items : list TestItem) : result (list (string * string)) CollectError :=
  let? o := map_err py_collect_err (call_validate_names (map names_request items)) in
  map_err py_collect_err (extract o).

Context (call_registered_names : result PyObj PyErr).

Definition registered_fixture_names : result (list string) CollectError :=
  let? o := map_err py_collect_err call_registered_names in map_err py_collect_err (extract o).

Context (call_find_unused : list (list string) → result PyObj PyErr).

Definition find_unused_fixtures (items : list TestItem) : result (list RawViolation) PyErr :=
  let? o := call_find_unused (map (λ i, map fst (fixture_deps i)) items) in
  let? pairs := (extract o : result (list (string * string)) PyErr) in
  Ok (map (λ '(path, name), mk_raw path VUnusedFixture name) pairs).

(** ** Plugins *)

Context (canonicalize : string → option string).
Context (call_plugin_homes : list string → gmap string toml → result PyObj PyErr).

Definition extract_home (o : PyObj) : result PluginFixtureHome PyErr :=
  let? plugin_module := field o "plugin_module" in
  let? anchor := field o "anchor_dir" in
  let? namespace := field o "namespace" in
  let? autouse := field o "autouse" in
  Ok {| pfh_anchor_dir := normalize_path canonicalize anchor; pfh_plugin_module := plugin_module;
        pfh_namespace := namespace; pfh_autouse := autouse |}.

(** The error, and whether its class means that the request was invalid. *)
Definition plugin_fixture_homes (plugins : list string) (settings : gmap string toml)
    : result (list PluginFixtureHome) (CollectError * bool) :=
  let? o := map_err (λ e, (PyError (show_err e), is_usage_error e)) (call_plugin_homes plugins settings) in
  map_err (λ e, (py_collect_err e, false)) (extract_list extract_home o).

(** Importing a plugin, [introspect_config], and the sentinel [dataclasses.MISSING]. *)
Context (import_module : string → result PyObj PyErr) (introspect : PyObj → result PyObj PyErr)
  (is_missing : PyObj → bool).

(** [source.get_type().name()] *)
Definition class_name (o : PyObj) : string :=
  match o with
  | PyObject c _ => c
  | PyNone => "NoneType" | PyBool _ => "bool" | PyInt _ => "int" | PyFloat _ => "float" | PyStr _ => "str"
  | PyList _ => "list" | PyTuple _ => "tuple" | PyDict _ => "dict" | PyType _ => "type"
  end.

Definition value_type_of (py_type : string) : PluginValueType :=
  if String.eqb py_type "bool" then PBool
  else if String.eqb py_type "int" then PInt
  else if String.eqb py_type "float" then PFloat
  else PString.

(** [name.replace('_', "-")] *)
Fixpoint dashes (s : string) : string :=
  match s with
  | "" => ""
  | String c s => String (if Ascii.eqb c (Ascii.ascii_of_nat 95) then Ascii.ascii_of_nat 45 else c) (dashes s)
  end.

(** The option of one field of a configuration class; [None] when it has no flag. *)
Definition option_of (prefix : string) (desc : PyObj) : result (option PluginCliOption) PyErr :=
  let? name := field desc "name" in
  let? source := getattr desc "source" in
  let source_type := class_name source in
  if String.eqb source_type "Conf" then Ok None
  else
    let? help := field source "help" in
    let? short := (field source "short" : result (option string) PyErr) in
    let? env := (if String.eqb source_type "Both" then field source "env" else Ok None) in
    let? t := getattr desc "python_type" in
    let? py_type := field t "__name__" in
    let? dflt := getattr desc "default" in
    Ok (Some {| field_name := name; long_flag := "--" +:+ prefix +:+ "-" +:+ dashes name;
                short_flag := match short with Some s => head (chars s) | None => None end;
                help := help; value_type := value_type_of py_type; env := env;
                has_default := negb (is_missing dflt) |}).

Definition effective_prefix (settings : gmap string toml) (module_name prefix : string) : string :=
  match settings !! module_name with
  | Some v => match toml_get "cli_prefix" v with Some (TString s) => s | _ => prefix end
  | None => prefix
  end.

(** The extension of one plugin, if it has one. *)
Definition plugin_extension (settings : gmap string toml) (module_name : string)
    : result (option (string * list PluginCliOption)) PyErr :=
  match import_module module_name with
  | Err _ => Ok None
  | Ok m =>
      match getattr m "oxitest_cli_extension" with
      | Err _ | Ok PyNone => Ok None
      | Ok ext =>
          let? prefix := field ext "prefix" in
          let? config_type := getattr ext "config_type" in
          let prefix := effective_prefix settings module_name prefix in
          let? descriptors := introspect config_type in
          let? options := extract_list (option_of prefix) descriptors in
          Ok (match omap id options with [] => None | l => Some (prefix, l) end)
      end
  end.

Fixpoint discover_plugin_cli (settings : gmap string toml) (plugins : list string)
    (extensions : gmap string (string * list PluginCliOption))
    : result (gmap string (string * list PluginCliOption)) PyErr :=
  match plugins with
  | [] => Ok extensions
  | m :: plugins =>
      let? e := plugin_extension settings m in
      discover_plugin_cli settings plugins (match e with Some p => <[m := p]> extensions | None => extensions end)
  end.

(** ** Queries ([query/bridge.rs]) *)

(** What [tree_fixtures_from_registry] is asked. *)
Record TreeRequest := mk_tree { tr_verbosity : Z; tr_pattern : option string; tr_use_color : bool }.

Definition tree_fixtures (call_tree : TreeRequest → result PyObj PyErr) (verbosity : Z) (pattern : option string)
    (use_color : bool) : result string PyErr :=
  let? o := call_tree (mk_tree verbosity pattern use_color) in extract o.

(** [fixture_entries] and [plugin_entries], by the answer of their call. *)
Definition registry_entries (call : result PyObj PyErr) : result (list (gmap string string)) PyErr :=
  let? o := call in extract o.

(** [autouse_entries] and [test_fixture_deps], which are given the test files. *)
Definition file_entries (call : list string → result PyObj PyErr) (test_files : list string)
    : result (list (gmap string string)) PyErr :=
  let? o := call test_files in extract o.

(** ** Statistics ([reporter/bridge.rs]) *)

Definition extract_cache_entry (o : PyObj) : result FixtureCacheEntry PyErr :=
  let? name := field o "name" in
  let? hits := field o "hits" in
  let? misses := field o "misses" in
  Ok {| fce_name := name; fce_hits := hits; fce_misses := misses |}.

Definition get_cache_stats (o : PyObj) : result FixtureCacheStats PyErr :=
  let? hits := field o "total_hits" in
  let? misses := field o "total_misses" in
  let? v := getattr o "breakdown" in
  let? breakdown := extract_list extract_cache_entry v in
  Ok (mk_fixture_cache hits misses breakdown).

Definition extract_timing (o : PyObj) : result FixtureTimingEntry PyErr :=
  let? name := field o "name" in
  let? setup := field o "total_setup_ms" in
  let? setups := field o "setup_count" in
  let? teardown := field o "total_teardown_ms" in
  let? teardowns := field o "teardown_count" in
  Ok {| fte_name := name; fte_total_setup := setup; fte_setup_count := setups; fte_total_teardown := teardown;
        fte_teardown_count := teardowns |}.

Definition get_fixture_timings (o : PyObj) : result (list FixtureTimingEntry) PyErr := extract_list extract_timing o.

(** ** Plugin reporters ([reporter/plugin.rs]) *)

(** A method called on the plugin's object, with its keyword arguments. *)
Inductive PluginCall :=
  | PluginTestStarted (item : string)
  | PluginTestCompleted (item outcome : string) (duration_ms : f64)
  | PluginFinish (collect_errors : nat) (interrupted : bool).

Context (call_plugin : PluginCall → result PyObj PyErr).

(** An exception is a warning of the log. *)
Definition plugin_warning (what : string) (r : result PyObj PyErr) : list string :=
  match r with Ok _ => [] | Err e => ["Plugin reporter " +:+ what +:+ " error: " +:+ show_err e] end.

Definition plugin_test_started (item : TestItem) : list string :=
  plugin_warning "test_started" (call_plugin (PluginTestStarted (node_id item))).

Definition plugin_test_completed (item : TestItem) (outcome : TestOutcome.t) (duration_ms : f64) : list string :=
  plugin_warning "test_completed"
    (call_plugin (PluginTestCompleted (node_id item) (TestOutcome.as_str outcome) duration_ms)).

(** The vote of a plugin never counts. *)
Definition plugin_finish (collect_errors : list CollectError) (interrupted : bool) : list string * ExitVote :=
  (plugin_warning "finish" (call_plugin (PluginFinish (length collect_errors) interrupted)), Abstain).

End Calls.

(** * Theorems *)

(** ** The two ways a result comes back *)

Definition py_string_pair (a b : string) : PyObj := PyTuple [PyStr a; PyStr b].

Definition py_frame (f : RawFrame) : PyObj :=
  PyObject "Frame"
    [("file", PyStr (rf_file f)); ("lineno", PyInt (Z.of_N (rf_lineno f))); ("name", PyStr (rf_name f));
     ("line", PyStr (rf_line f)); ("locals", PyTuple (map (λ l, py_string_pair (lv_name l) (lv_repr l)) (rf_locals f)))].

Definition py_field_diff (d : FieldDiff) : PyObj := PyTuple [PyStr (fd_field d); PyStr (fd_left d); PyStr (fd_right d)].

Definition py_lineno (n : option N) : PyObj := PyInt (Z.of_N (default 0%N n)).

(** The attributes of the result classes of [python/oxitest/_bridge/result.py],
    for the result a worker would print as [w]. *)
Definition result_object (w : WireResult.t) : PyObj :=
  PyObject "Result" (("status", PyStr (WireResult.tag w)) ::
    match w with
    | WireResult.Passed _ _ _ lines => [("no_message_lines", PyTuple (map PyInt lines))]
    | WireResult.Failed _ _ _ message file lineno source_line frames lhs rhs op diffs =>
        [("message", PyStr message); ("file", PyStr file); ("lineno", py_lineno lineno);
         ("source_line", PyStr source_line); ("left", PyStr lhs); ("right", PyStr rhs); ("op", PyStr op);
         ("frames", PyTuple (map py_frame frames)); ("field_diffs", PyTuple (map py_field_diff diffs))]
    | WireResult.Error _ _ _ message file lineno source_line frames usage_error =>
        [("message", PyStr message); ("file", PyStr file); ("lineno", py_lineno lineno);
         ("source_line", PyStr source_line); ("frames", PyTuple (map py_frame frames));
         ("usage_error", PyBool usage_error)]
    | WireResult.Skipped _ _ _ message | WireResult.XFailed _ _ _ message | WireResult.Timeout _ _ _ message =>
        [("message", PyStr message)]
    | WireResult.Warned _ _ _ message lines =>
        [("message", PyStr message); ("no_message_lines", PyTuple (map PyInt lines))]
    | WireResult.XPassed _ _ _ strict => [("strict", PyBool strict)]
    end).

Definition sane_line (z : Z) : Prop := (0 < z ≤ u64_max)%Z.
Definition sane_frames (l : list RawFrame) : Prop := Forall (λ f, Z.of_N (rf_lineno f) ≤ u64_max)%Z l.
Definition sane_lineno (n : option N) : Prop := (Z.of_N (default 0%N n) ≤ u64_max)%Z.

(** Line numbers are positive and fit a machine word. *)
Definition sane (w : WireResult.t) : Prop :=
  match w with
  | WireResult.Passed _ _ _ lines | WireResult.Warned _ _ _ _ lines => Forall sane_line lines
  | WireResult.Failed _ _ _ _ _ lineno _ frames _ _ _ _ => sane_lineno lineno ∧ sane_frames frames
  | WireResult.Error _ _ _ _ _ lineno _ frames _ => sane_lineno lineno ∧ sane_frames frames
  | _ => True
  end.

Lemma result_map_map {A B C E} (f : B → result C E) (g : A → B) (h : A → C) l :
  Forall (λ a, f (g a) = Ok (h a)) l → result_map f (map g l) = Ok (map h l).
Proof. induction 1 as [|a l Ha _ IH]; simpl; [done|]. by rewrite Ha; simpl; rewrite IH. Qed.

Lemma extract_unsigned_ok max z : (0 ≤ z ≤ max)%Z → extract_unsigned max (PyInt z) = Ok (Z.to_N z).
Proof.
  intros Hz. unfold extract_unsigned. simpl.
  by rewrite (proj2 (Z.leb_le 0 z)), (proj2 (Z.leb_le z max)) by lia.
Qed.

Lemma extract_lines lines :
  Forall sane_line lines → extract (PyTuple (map PyInt lines)) = Ok (filter_tips lines).
Proof.
  intros Hl. unfold extract, list_from, filter_tips.
  rewrite (filter_all _ lines); [|intros z Hz; rewrite Forall_forall in Hl; apply Z.ltb_lt; specialize (Hl z Hz);
    unfold sane_line in Hl; lia].
  apply result_map_map. eapply Forall_impl; [exact Hl|]. intros z Hz. unfold sane_line in Hz.
  unfold extract, nat_from. rewrite extract_unsigned_ok by lia. simpl. by rewrite Z_N_nat.
Qed.

Lemma extract_frame f : (Z.of_N (rf_lineno f) ≤ u64_max)%Z → extract (py_frame f) = Ok f.
Proof.
  intros Hf. unfold extract, raw_frame_from, field. cbn -[u64_max extract_unsigned].
  unfold extract, N_from. rewrite extract_unsigned_ok by lia. cbn -[u64_max extract_unsigned].
  unfold extract, list_from.
  rewrite (result_map_map _ _ id); [by rewrite map_id, N2Z.id; destruct f|].
  apply Forall_true. by intros [].
Qed.

Lemma extract_py_frames frames :
  sane_frames frames → extract (PyTuple (map py_frame frames)) = Ok frames.
Proof.
  intros Hf. unfold extract, list_from. rewrite (result_map_map _ _ id); [by rewrite map_id|].
  eapply Forall_impl; [exact Hf|]. apply extract_frame.
Qed.

Lemma extract_py_diffs diffs : extract (PyTuple (map py_field_diff diffs)) = Ok diffs.
Proof.
  unfold extract, list_from. rewrite (result_map_map _ _ id); [by rewrite map_id|]. apply Forall_true. by intros [].
Qed.

Lemma extract_py_lineno n : sane_lineno n → extract (py_lineno n) = Ok (wire_lineno n).
Proof.
  intros Hn. unfold extract, nat_from, py_lineno. unfold sane_lineno in Hn. rewrite extract_unsigned_ok by lia.
  simpl. rewrite N2Z.id. by destruct n.
Qed.

Lemma getattr_found c attrs name v : attribute attrs name = Some v → getattr (PyObject c attrs) name = Ok v.
Proof. unfold getattr. by intros ->. Qed.

Lemma field_found {A} `{FromPy A} c attrs name v :
  attribute attrs name = Some v → field (PyObject c attrs) name = extract v.
Proof. intros Hv. unfold field. by rewrite (getattr_found _ _ _ _ Hv). Qed.

(** Reads the attributes of a concrete object, one [let?] at a time. *)
Ltac read_fields := repeat first
  [ erewrite field_found by reflexivity
  | progress cbn [result_bind String.eqb Ascii.eqb Bool.eqb]
  | rewrite extract_lines by done
  | rewrite extract_py_lineno by done
  | rewrite extract_py_frames by done
  | rewrite extract_py_diffs
  | progress change (extract (PyStr ?s)) with (@Ok string PyErr s)
  | progress change (extract (PyBool ?b)) with (@Ok bool PyErr b) ].

(** C16: A test that runs in the coordinator and one that runs in a worker come back as
    the same outcome: reading the attributes of a result object gives what
    converting the worker's line gives, for every kind of result. *)
Theorem both_paths_agree w :
  sane w → extract_outcome (result_object w) = Ok (ro_outcome (into_outcome w)).
Proof.
  unfold extract_outcome, extract_raw, extract_failed, extract_error, extract_frames, result_object. intros Hs.
  destruct w; cbn [sane] in Hs; try match type of Hs with _ ∧ _ => destruct Hs end; cbn [WireResult.tag]; by read_fields.
Qed.

Lemma both_paths_agree_witness :
  extract_outcome (result_object (WireResult.Failed "t.py::test_a" f64_zero 8 "boom" "t.py" (Some 3%N) "assert x"
    [{| rf_file := "t.py"; rf_lineno := 3; rf_name := "test_a"; rf_line := "assert x"; rf_locals := [] |}] "1" "2" "=="
    [{| fd_field := "n"; fd_left := "1"; fd_right := "2" |}])) =
  Ok (ro_outcome (into_outcome (WireResult.Failed "t.py::test_a" f64_zero 8 "boom" "t.py" (Some 3%N) "assert x"
    [{| rf_file := "t.py"; rf_lineno := 3; rf_name := "test_a"; rf_line := "assert x"; rf_locals := [] |}] "1" "2" "=="
    [{| fd_field := "n"; fd_left := "1"; fd_right := "2" |}]))).
Proof.
  apply both_paths_agree. split; [vm_compute; discriminate|]. constructor; [vm_compute; discriminate|constructor].
Defined.

(** Line 0 is dropped from a worker's line and kept from an object: the two agree on
    line numbers only. *)
Example line_zero_differs :
  extract_outcome (PyObject "PassedResult" [("status", PyStr "passed"); ("no_message_lines", PyTuple [PyInt 0])])
    = Ok (TestOutcome.Passed (Some [0])) ∧
  ro_outcome (into_outcome (WireResult.Passed "t.py::test_a" f64_zero 8 [0%Z])) = TestOutcome.Passed None.
Proof. by vm_compute. Qed.

(** The test named in the request is the one named in a worker's task. *)
Lemma request_matches_task item timeout opts :
  let rq := run_request item timeout opts in
  rq_fn_name rq = wti_fn_name (task_item item) ∧ rq_node_id rq = wti_node_id (task_item item) ∧
  rq_param_id rq = wti_param_id (task_item item) ∧ rq_markers rq = wti_markers (task_item item).
Proof. done. Qed.

Section CallTheorems.
Context (show_err : PyErr → string) (usage_vote : PyErr → option bool).

(** An exception that leaves [run_test], and a result that cannot be read, become
    an error of that test: the run goes on, and exits with the usage code exactly
    when Python says that the class of the exception means so. *)
Theorem raised_error_is_an_outcome call item timeout opts e :
  try_run_test call item timeout opts = Err e →
  let o := run_test show_err usage_vote call item timeout opts in
  TestOutcome.kind o = OutcomeKind.Error ∧ is_usage o = is_usage_error usage_vote e ∧
  contains (node_id item) (default "" (TestOutcome.message o)) = true.
Proof.
  intros He. unfold run_test. rewrite He. split_and!; [done|done|]. simpl.
  assert (node_id item +:+ " — " +:+ show_err e ≠ "") as Hne by (intros [_ [E _]%str_app_eq_nil]%str_app_eq_nil; done).
  destruct (String.eqb_spec (node_id item +:+ " — " +:+ show_err e) ""); [done|]. simpl.
  apply starts_with_contains, starts_with_app.
Qed.

(** ** Collection *)

(** Collected items carry the ids their file, function and case spell. *)
Lemma collected_ids call path b l v :
  collect_module_with_session_obj show_err call path b = Ok (l, v) → ids_of path l.
Proof.
  unfold collect_module_with_session_obj. destruct (map_err _ (call path b)) as [o|]; [|done]. simpl.
  destruct (map_err _ (extract o)) as [[items violations]|]; [|done]. intros [= <- _].
  unfold ids_of. apply Forall_forall. intros i Hi. by apply map_elem in Hi as (c & _ & <-).
Qed.

(** The interface of [Collect], with the answers of this boundary: the two
    hypotheses that the theorems on collection make about Python hold of it. *)
Definition collection_bridge (call : string → bool → result PyObj PyErr) (other : Bridge) : Bridge := {|
  register_fixture_module_for_path := register_fixture_module_for_path other;
  register_plugin_fixture_module := register_plugin_fixture_module other;
  module_source_declarations := module_source_declarations other;
  collect_module := λ _ file strict, collect_module_with_session_obj show_err call file strict;
  plugin_anchor_dirs := plugin_anchor_dirs other
|}.

Lemma collection_bridge_ok call other :
  let py := collection_bridge call other in
  (∀ h h' f s, collect_module py h f s = collect_module py h' f s) ∧
  (∀ h f s l v, collect_module py h f s = Ok (l, v) → ids_of f l).
Proof. split; [done|]. intros h f s l v. apply collected_ids. Qed.

(** ** Diagnostics *)

Lemma result_map_length {A B E} (f : A → result B E) l l' : result_map f l = Ok l' → length l' = length l.
Proof.
  revert l'. induction l as [|a l IH]; intros l'; simpl; [by intros [= <-]|].
  destruct (f a); simpl; [|done]. destruct (result_map f l) as [bs|]; simpl; [|done].
  intros [= <-]. simpl. f_equal. by apply IH.
Qed.

(** Draining the diagnostics of the session is all or nothing: either each becomes
    an entry and the list is emptied, or one of them cannot be read, none is
    returned and all stay for the next drain. *)
Theorem drain_is_all_or_nothing l :
  let '(entries, after) := drain_session_diagnostics (PyList l) in
  (after = PyList [] ∧ length entries = length l) ∨
  (after = PyList l ∧ entries = [] ∧ ∃ e, result_map extract_diagnostic l = Err e).
Proof.
  unfold drain_session_diagnostics, drain_diagnostics_from. destruct l as [|d l]; [by left|].
  destruct (result_map extract_diagnostic (d :: l)) as [es|e] eqn:E.
  - left. split; [done|]. by apply result_map_length in E.
  - right. split_and!; [done|done|by exists e].
Qed.
End CallTheorems.

(** ** Plugin options *)

Lemma result_map_elem {A B E} (f : A → result B E) l l' b :
  result_map f l = Ok l' → b ∈ l' → ∃ a, a ∈ l ∧ f a = Ok b.
Proof.
  revert l'. induction l as [|a l IH]; intros l'; simpl; [intros [= <-]; by intros ?%elem_of_nil|].
  destruct (f a) as [b'|] eqn:Ea; simpl; [|done]. destruct (result_map f l) as [bs|]; simpl; [|done].
  intros [= <-] [->|Hb]%elem_of_cons; [exists a; set_solver|].
  destruct (IH bs eq_refl Hb) as (a' & ? & ?). exists a'. set_solver.
Qed.

Lemma dashes_length s : String.length (dashes s) = String.length s.
Proof. induction s as [|c s IH]; simpl; [done|by f_equal]. Qed.

Lemma dashes_inj s t : contains "-" s = false → contains "-" t = false → dashes s = dashes t → s = t.
Proof.
  revert t. induction s as [|a s IH]; intros t Hs Ht E.
  { apply (f_equal String.length) in E. rewrite !dashes_length in E. by destruct t. }
  destruct t as [|b t]; [done|].
  apply (eq_trans (eq_sym (contains_char_cons (Ascii.ascii_of_nat 45) a s))), orb_false_iff in Hs as [Ha Hs].
  apply (eq_trans (eq_sym (contains_char_cons (Ascii.ascii_of_nat 45) b t))), orb_false_iff in Ht as [Hb Ht].
  apply Ascii.eqb_neq in Ha, Hb. cbn [dashes] in E. injection E as E1 E2. f_equal; [|by apply IH].
  destruct (Ascii.eqb_spec a (Ascii.ascii_of_nat 95)) as [->|], (Ascii.eqb_spec b (Ascii.ascii_of_nat 95)) as [->|];
    congruence.
Qed.

Section Discover.
Context (import_module : string → result PyObj PyErr) (introspect : PyObj → result PyObj PyErr)
  (is_missing : PyObj → bool) (settings : gmap string toml).

(** What an extension holds: some options, each with a flag made of the prefix and
    the name of its field. *)
Definition well_flagged (ext : string * list PluginCliOption) : Prop :=
  ext.2 ≠ [] ∧ Forall (λ o, long_flag o = "--" +:+ ext.1 +:+ "-" +:+ dashes (field_name o)) ext.2.

Lemma option_of_flag prefix desc o :
  option_of is_missing prefix desc = Ok (Some o) → long_flag o = "--" +:+ prefix +:+ "-" +:+ dashes (field_name o).
Proof.
  unfold option_of.
  repeat first [ progress cbn [result_bind]
               | match goal with |- (result_bind ?r _) = _ → _ => destruct r; [|done] end
               | match goal with |- (if ?b then _ else _) = _ → _ => destruct b; [done|] end ].
  by intros [= <-].
Qed.

Lemma plugin_extension_flags m ext :
  plugin_extension import_module introspect is_missing settings m = Ok (Some ext) → well_flagged ext.
Proof.
  unfold plugin_extension. destruct (import_module m) as [o|]; [|done].
  destruct (getattr o _) as [e|]; [|done].
  assert (∀ r, (let? prefix := field e "prefix" in
    let? config_type := getattr e "config_type" in
    let? descriptors := introspect config_type in
    let? options := extract_list (option_of is_missing (effective_prefix settings m prefix)) descriptors in
    Ok (match omap id options with [] => None | l => Some (effective_prefix settings m prefix, l) end)) = r →
    r = Ok (Some ext) → well_flagged ext) as H.
  { intros r <-. destruct (field e "prefix") as [prefix|]; [|done]. cbn [result_bind].
    destruct (getattr e "config_type") as [t|]; [|done]. cbn [result_bind].
    destruct (introspect t) as [ds|]; [|done]. cbn [result_bind].
    destruct (extract_list _ ds) as [options|] eqn:Eo; [|done]. cbn [result_bind].
    destruct (omap id options) as [|o1 l] eqn:El; [done|]. intros [= <-]. split; [done|]. cbn [fst snd].
    rewrite <-El. apply Forall_forall. intros x Hx. apply list_elem_of_omap in Hx as (y & Hy & Ey).
    unfold extract_list in Eo. destruct ds; try done;
      destruct (result_map_elem _ _ _ _ Eo Hy) as (d & _ & Hd); unfold id in Ey; rewrite Ey in Hd; by apply option_of_flag in Hd. }
  destruct e; try done; by apply H.
Qed.

Lemma discover_inv plugins ext0 ext :
  map_Forall (λ _, well_flagged) ext0 →
  discover_plugin_cli import_module introspect is_missing settings plugins ext0 = Ok ext →
  map_Forall (λ _, well_flagged) ext ∧ dom ext ⊆ dom ext0 ∪ list_to_set plugins.
Proof.
  revert ext0. induction plugins as [|m plugins IH]; intros ext0 H0; cbn [discover_plugin_cli].
  { intros [= <-]. set_solver. }
  destruct (plugin_extension _ _ _ _ m) as [e|] eqn:Em; [|done]. cbn [result_bind]. intros He.
  destruct e as [p|]; (apply IH in He as [H1 H2]; [split; [done|set_solver]|]); [|done].
  apply map_Forall_insert_2; [by apply plugin_extension_flags in Em|done].
Qed.

(** Every plugin that gets flags was asked for and has at least one; a flag names
    its field: two options of one plugin share a flag only when they are the same
    field, Python names having no dashes. *)
Theorem plugin_flags_name_their_field plugins ext m prefix opts o1 o2 :
  discover_plugin_cli import_module introspect is_missing settings plugins ∅ = Ok ext →
  ext !! m = Some (prefix, opts) →
  m ∈ plugins ∧ opts ≠ [] ∧
  (o1 ∈ opts → o2 ∈ opts → contains "-" (field_name o1) = false → contains "-" (field_name o2) = false →
   long_flag o1 = long_flag o2 → field_name o1 = field_name o2).
Proof.
  intros He Hm. apply discover_inv in He as [H1 H2]; [|apply map_Forall_empty].
  destruct (H1 _ _ Hm) as [Hn Hf]. split_and!; [|done|].
  - apply elem_of_dom_2 in Hm. set_solver.
  - cbn [fst snd] in Hf. rewrite Forall_forall in Hf. intros Ho1 Ho2 Hd1 Hd2 E.
    rewrite (Hf _ Ho1), (Hf _ Ho2) in E. do 3 apply str_app_inv_l in E. by apply dashes_inj.
Qed.
End Discover.
