(* ===== verification/DocAudit.v ===== *)
(** * DocAudit: documentation coverage of the declared tree

    The last part of [pipeline/collection.rs]: which files the coverage check
    looks at, the verdict on each scope and skip entry, and which diagnostics
    stop the run.

    [is_match] is a compiled glob set of the [globset] crate; [resolve_alias_]
    is [Doctest.resolve_alias] under a module root. *)
From stdpp Require Import pretty.
From S2P Require Import Prelude Collections Text Paths Types Report Strict Config Ast Doctest Coverage Collect.

(** ** Staleness of scope and skip entries *)

Record StalenessInputs := mk_inputs {
  si_rootdir : string;
  si_roots_declared : bool;
  si_coverage_roots : list string;
  si_scanned : list string;
  si_parse_failed : list string
}.

Inductive Staleness := MissingPath | Unreachable | NoSubjects | ParseFailed | Fresh.

Definition entry_path (e : ScopeEntry) : string :=
  match e with Prefix p | File p => p | Symbol f _ | Member f _ _ => f end.

Definition names_symbol (e : ScopeEntry) : bool :=
  match e with Prefix _ | File _ => false | Symbol _ _ | Member _ _ _ => true end.

Definition is_unreachable (inp : StalenessInputs) (rel : string) : bool :=
  let entry := path_join (si_rootdir inp) rel in
  negb (existsb (λ d, let declared := path_join (si_rootdir inp) d in
                      path_starts_with declared entry || path_starts_with entry declared)
          (si_coverage_roots inp)).

Section DocAudit.
Context {glob globset glob_error : Type}.
Context (glob_new : string → result glob glob_error)
  (set_build : list glob → result globset glob_error) (is_match : globset → string → bool).
Context (is_file : string → bool) (canonicalize : string → option string).
Context (walk : string → bool → list string → list found_entry).
Context (suite_parse : string → string → result (list Stmt.t) ParseError).
Context (read_to_string : string → result string string).
Context (exists_ : string → bool).
Context (resolve_alias_ : ModuleRoot → SubjectSource → string → result Resolved AliasError).
Context (walk_one : string → bool → list walk_entry).

Definition classify (inp : StalenessInputs) (entry : ScopeEntry) (hit : bool) : Staleness :=
  let rel := entry_path entry in
  if negb (exists_ (path_join (si_rootdir inp) rel)) then MissingPath
  else if is_unreachable inp rel then Unreachable
  else if negb (names_symbol entry) then Fresh
  else if existsb (λ f, path_eqb f rel) (si_parse_failed inp) then ParseFailed
  else if negb hit && existsb (λ f, path_eqb f rel) (si_scanned inp) then NoSubjects
  else Fresh.

(** The context and the text of a verdict. *)
Definition verdict_text (context : string) (roots_declared : bool) (v : Staleness)
    : option (string * string) :=
  match v with
  | Fresh => None
  | MissingPath =>
      Some (context, "names a path that does not exist (remove the entry or fix the path)")
  | Unreachable =>
      Some (context,
        if roots_declared
        then "is outside the doctest roots, so it can never match (add it to roots, or remove the entry)"
        else "is outside the declared test tree, so it can never match (add it to testpaths, or remove the entry)")
  | NoSubjects =>
      Some (context, "matched no coverage subjects (remove it, or check the symbol name)")
  | ParseFailed =>
      Some ("doctest.coverage.parse-error",
        "names a file that could not be parsed (fix the file so coverage can judge this entry)")
  end.

Definition verdict_diagnostic (context kind : string) (severity : DiagnosticSeverity)
    (roots_declared : bool) (entry : ScopeEntry) (v : Staleness) : option DiagnosticEntry :=
  '(ctx, detail) ← verdict_text context roots_declared v;
  Some (mk_diag severity ctx (kind +:+ " entry '" +:+ render_entry entry +:+ "' " +:+ detail) None None).

Definition stale_diagnostics (entries : list ScopeEntry) (hits : list bool) (context kind : string)
    (severity : DiagnosticSeverity) (inp : StalenessInputs) : list DiagnosticEntry :=
  omap (λ eh, verdict_diagnostic context kind severity (si_roots_declared inp) eh.1
                 (classify inp eh.1 eh.2)) (zip entries hits).

(** ** The audit *)

(** The severity the strict mode gives; [None] is silence. *)
Definition audit_severity (mode : option StrictMode) : option DiagnosticSeverity :=
  match mode with
  | None | Some Off => None
  | Some Enforce => Some SevWarning
  | Some StrictAbort => Some SevError
  end.

Definition missing_root (config : Config) (severity : DiagnosticSeverity) (entry : string)
    : DiagnosticEntry :=
  mk_diag severity "doctest.coverage.missing-root"
    ("doctest roots entry '" +:+ default entry (path_strip_prefix (rootdir config) entry) +:+
     "' names a path that does not exist (remove the entry or fix the path); the coverage audit would cover nothing")
    None None.

(** Which files of the declared tree are audited, relative to the root. *)
Definition audited_file (config : Config) (scope : option DoctestScope) (rel : string) : bool :=
  negb (existsb (λ c, existsb (λ d, String.eqb d (component_str c)) (norecursedirs (paths config)))
          (components rel))
  && match build_glob_set glob_new set_build (python_files (paths config)) with
     | Ok g => negb (match file_name rel with Some name => is_match g name | None => false end)
     | Err _ => true
     end
  && negb (bool_decide (file_name rel = Some "conftest.py"))
  && match scope with
     | None | Some Public => true
     | Some (ScopeList entries) => file_could_match rel entries
     end.

Definition audited_files (config : Config) (scope : option DoctestScope) (doctest_files : list string)
    : list string :=
  List.filter (audited_file config scope)
    (omap (path_strip_prefix (rootdir config)) doctest_files).

Definition collect_coverage_diagnostics (doctest_files : list string) (config : Config)
    : list DiagnosticEntry :=
  match doctest config, audit_severity (strict (marker_cfg config)) with
  | Some dt, Some severity =>
      match map (missing_root config severity)
              (List.filter (λ entry, negb (exists_ (path_join (rootdir config) entry))) (dt_roots dt)) with
      | (_ :: _) as root_errors => root_errors
      | [] =>
          let root := {| mr_root := rootdir config; mr_use_gitignore := use_gitignore (paths config) |} in
          let '(diagnostics, (scope_hits, skip_hits), scanned) :=
            run_coverage_check suite_parse read_to_string exists_ (resolve_alias_ root)
              (resolve_module exists_ walk_one root) (audited_files config (dt_scope dt) doctest_files)
              (rootdir config) severity (dt_scope dt) (dt_skip dt) in
          let scope_entries := match dt_scope dt with Some (ScopeList e) => e | _ => [] end in
          let inp := mk_inputs (rootdir config)
            (match dt_roots dt with [] => false | _ => true end) (coverage_roots config)
            (sf_parsed scanned) (sf_parse_failed scanned) in
          diagnostics
            ++ stale_diagnostics scope_entries scope_hits "doctest.coverage.stale-scope" "scope" severity inp
            ++ stale_diagnostics (dt_skip dt) skip_hits "doctest.coverage.stale-skip" "skip" severity inp
      end
  | _, _ => []
  end.

(** ** Errors and warnings *)

Definition is_hard_fail_context (context : string) : bool :=
  existsb (String.eqb context)
    ["doctest.coverage"; "doctest.coverage.analysis"; "doctest.coverage.stale-scope";
     "doctest.coverage.stale-skip"; "doctest.coverage.parse-error"; "doctest.coverage.missing-root"].

Definition is_hard (d : DiagnosticEntry) : bool :=
  match de_severity d with SevError => is_hard_fail_context (de_context d) | _ => false end.

Definition hard_error (d : DiagnosticEntry) : CollectError :=
  PyError match de_file d, de_lineno d with
          | Some file, Some lineno =>
              de_message d +:+ " (" +:+ file +:+ ":" +:+ pretty lineno +:+ ")"
          | _, _ => de_message d
          end.

Definition split_coverage_diagnostics (diagnostics : list DiagnosticEntry)
    : list CollectError * list DiagnosticEntry :=
  fold_left (λ acc d, if is_hard d then (acc.1 ++ [hard_error d], acc.2) else (acc.1, acc.2 ++ [d]))
    diagnostics ([], []).

(** What the [collect] transition does with the audit: the declared tree is
    walked, and a tree that cannot be walked is audited as empty. *)
Definition coverage_audit (config : Config) : list CollectError * list DiagnosticEntry :=
  let coverage_files :=
    match collect_declared_doctest_files glob_new set_build is_match is_file canonicalize walk config with
    | Ok files => files
    | Err _ => []
    end in
  split_coverage_diagnostics (collect_coverage_diagnostics coverage_files config).

End DocAudit.

(** * Theorems *)

(** ** Nothing is demoted, nothing is promoted *)

Lemma split_coverage_spec l :
  split_coverage_diagnostics l =
    (map hard_error (List.filter is_hard l), List.filter (λ d, negb (is_hard d)) l).
Proof.
  unfold split_coverage_diagnostics.
  assert (∀ acc, fold_left (λ acc d, if is_hard d then (acc.1 ++ [hard_error d], acc.2)
                                     else (acc.1, acc.2 ++ [d])) l acc =
    (acc.1 ++ map hard_error (List.filter is_hard l),
     acc.2 ++ List.filter (λ d, negb (is_hard d)) l)) as ->; [|done].
  induction l as [|d l IH]; intros [e p]; simpl; [by rewrite !app_nil_r|].
  rewrite IH. by destruct (is_hard d); simpl; rewrite <-app_assoc.
Qed.

(** A diagnostic of the audit: of the run's severity, in a registered context. *)
Definition audit_diagnostic (severity : DiagnosticSeverity) (d : DiagnosticEntry) : Prop :=
  de_severity d = severity ∧ is_hard_fail_context (de_context d) = true.

Section Diagnostics.
Context (suite_parse : string → string → result (list Stmt.t) ParseError).
Context (read_to_string : string → result string string).
Context (exists_ : string → bool).
Context (resolve_alias_ : SubjectSource → string → result Resolved AliasError).
Context (resolve_ : string → option string).

Lemma scan_diagnostics root severity scope files :
  Forall (audit_diagnostic severity)
    (sn_diagnostics (scan_files suite_parse read_to_string exists_ root severity scope files)).
Proof.
  unfold scan_files. apply fold_left_inv; [constructor|]. intros st f Hst. unfold scan_file.
  destruct (_ && _); [done|]. destruct (try_parse_file _ _ _) as [[]|e]; [done|].
  apply Forall_app. split; [done|]. constructor; [|constructor]. by destruct e.
Qed.

Lemma check_diagnostics files root severity scope skip :
  Forall (audit_diagnostic severity)
    (run_coverage_check suite_parse read_to_string exists_ resolve_alias_ resolve_ files root severity
       scope skip).1.1.
Proof.
  unfold run_coverage_check. destruct (filter_subjects_by_scope _ _ _) as [kept bits]. simpl.
  apply Forall_app. split; [apply scan_diagnostics|]. apply Forall_flat_map, Forall_forall.
  intros [m s] _. unfold subject_diagnostics. destruct (direct_lookup _ _ _) as [[doc line] file].
  destruct (sj_source s); repeat constructor;
    (destruct (check_subject _ _ _ _ _ _) as [|? ? ?|[]]; repeat constructor).
Qed.

Lemma stale_diagnostics_shape entries hits context kind severity inp :
  is_hard_fail_context context = true →
  Forall (audit_diagnostic severity) (stale_diagnostics exists_ entries hits context kind severity inp).
Proof.
  intros Hc. apply Forall_forall. intros d ([e h] & _ & Hd)%list_elem_of_omap. revert Hd.
  unfold verdict_diagnostic. simpl. destruct (classify _ _ _ _); simpl; try done;
    intros [= <-]; split; done.
Qed.

End Diagnostics.

Section AuditSpec.
Context {glob globset glob_error : Type}.
Context (glob_new : string → result glob glob_error)
  (set_build : list glob → result globset glob_error) (is_match : globset → string → bool).
Context (suite_parse : string → string → result (list Stmt.t) ParseError).
Context (read_to_string : string → result string string).
Context (exists_ : string → bool).
Context (resolve_alias_ : ModuleRoot → SubjectSource → string → result Resolved AliasError).
Context (walk_one : string → bool → list walk_entry).

Abbreviation diagnostics := (collect_coverage_diagnostics glob_new set_build is_match suite_parse
  read_to_string exists_ resolve_alias_ walk_one).

Lemma diagnostics_shape files config severity :
  audit_severity (strict (marker_cfg config)) = Some severity →
  Forall (audit_diagnostic severity) (diagnostics files config).
Proof.
  intros Hs. unfold collect_coverage_diagnostics. destruct (doctest config) as [dt|]; [|constructor].
  rewrite Hs. destruct (map _ _) as [|d ds] eqn:E.
  - destruct (run_coverage_check _ _ _ _ _ _ _ _ _ _) as [[ds [sh kh]] sc] eqn:Er.
    rewrite !Forall_app. repeat split; try (by apply stale_diagnostics_shape).
    pose proof (check_diagnostics suite_parse read_to_string exists_
      (resolve_alias_ {| mr_root := rootdir config; mr_use_gitignore := use_gitignore (paths config) |})
      (resolve_module exists_ walk_one
         {| mr_root := rootdir config; mr_use_gitignore := use_gitignore (paths config) |})
      (audited_files glob_new set_build is_match config (dt_scope dt) files) (rootdir config) severity
      (dt_scope dt) (dt_skip dt)) as H.
    by rewrite Er in H.
  - rewrite <-E. apply Forall_map, Forall_forall. intros e _. done.
Qed.

(** The strict mode alone decides what the audit does to a run: under [abort]
    each of its diagnostics is a collection error and none is left as a warning;
    under [enforce] none is an error; otherwise there are none. *)
Theorem audit_fails_exactly_under_abort files config :
  let ds := diagnostics files config in
  split_coverage_diagnostics ds =
    match strict (marker_cfg config) with
    | Some StrictAbort => (map hard_error ds, [])
    | Some Enforce => ([], ds)
    | Some Off | None => ([], [])
    end.
Proof.
  intros ds. rewrite split_coverage_spec.
  assert (∀ severity, audit_severity (strict (marker_cfg config)) = Some severity →
    ∀ d, d ∈ ds → is_hard d = match severity with SevError => true | _ => false end) as Hd.
  { intros sev Hs d Hin. pose proof (diagnostics_shape files config sev Hs) as HF.
    rewrite Forall_forall in HF. destruct (HF d Hin) as [<- Hc]. unfold is_hard. by destruct (de_severity d). }
  destruct (strict (marker_cfg config)) as [[]|] eqn:E; simpl in Hd.
  - rewrite filter_all, filter_none; [done|..]; intros d Hin; by rewrite (Hd SevError).
  - rewrite filter_none, filter_all; [done|..]; intros d Hin; by rewrite (Hd SevWarning).
  - subst ds. unfold collect_coverage_diagnostics. rewrite E. by destruct (doctest config).
  - subst ds. unfold collect_coverage_diagnostics. rewrite E. by destruct (doctest config).
Qed.

(** ** Verdicts on entries *)

Lemma existsb_path f l : existsb (λ g, path_eqb g f) l = true ↔ ∃ g, g ∈ l ∧ path_eqb g f = true.
Proof. rewrite existsb_elem. naive_solver. Qed.

(** The evidence a verdict needs.  [audited] are the files offered to the check,
    [hit] tells which entries matched a subject. *)
Section Evidence.
Context (config : Config) (scope : option DoctestScope) (audited : list string) (hit : ScopeEntry → bool).

Abbreviation scanned := (is_scanned suite_parse read_to_string exists_ (rootdir config) scope).
Abbreviation unreadable := (parse_fails suite_parse read_to_string exists_ (rootdir config) scope).

Definition on_disk (e : ScopeEntry) : Prop := exists_ (path_join (rootdir config) (entry_path e)) = true.

(** Some root of the audit is at, above or below the entry. *)
Definition touches_root (e : ScopeEntry) : Prop :=
  ∃ d, d ∈ coverage_roots config ∧
    let entry := path_join (rootdir config) (entry_path e) in
    let declared := path_join (rootdir config) d in
    path_starts_with declared entry = true ∨ path_starts_with entry declared = true.

Definition seen_as (P : string → bool) (e : ScopeEntry) : Prop :=
  ∃ f, f ∈ audited ∧ P f = true ∧ path_eqb f (entry_path e) = true.

Inductive reason (e : ScopeEntry) : Staleness → Prop :=
  | Gone : ¬ on_disk e → reason e MissingPath
  | Outside : on_disk e → ¬ touches_root e → reason e Unreachable
  | Unread : on_disk e → touches_root e → names_symbol e = true → seen_as unreadable e →
      reason e ParseFailed
  | Absent : on_disk e → touches_root e → names_symbol e = true → ¬ seen_as unreadable e →
      seen_as scanned e → hit e = false → reason e NoSubjects.

Definition inputs_of (roots_declared : bool) : StalenessInputs :=
  mk_inputs (rootdir config) roots_declared (coverage_roots config) (List.filter scanned audited)
    (List.filter unreadable audited).

Lemma unreachable_touches b e : is_unreachable (inputs_of b) (entry_path e) = false ↔ touches_root e.
Proof.
  unfold is_unreachable, touches_root. rewrite negb_false_iff, existsb_elem.
  by setoid_rewrite orb_true_iff.
Qed.

Lemma seen_existsb P e :
  existsb (λ f, path_eqb f (entry_path e)) (List.filter P audited) = true ↔ seen_as P e.
Proof. rewrite existsb_path. unfold seen_as. setoid_rewrite filter_elem. naive_solver. Qed.

Lemma classify_reason b e v :
  v ≠ Fresh → classify exists_ (inputs_of b) e (hit e) = v ↔ reason e v.
Proof.
  intros Hv. unfold classify. cbn [si_rootdir si_parse_failed si_scanned inputs_of].
  pose proof (unreachable_touches b e) as Hu. pose proof (seen_existsb unreadable e) as Hp.
  pose proof (seen_existsb scanned e) as Hs.
  destruct (exists_ _) eqn:He; simpl; [|by split; [intros <-; constructor; unfold on_disk; congruence
    |inversion 1; unfold on_disk in *; congruence]].
  assert (on_disk e) as Hd by done.
  destruct (is_unreachable _ _); [split; [intros <-; constructor; naive_solver
    |inversion 1; naive_solver]|].
  destruct (names_symbol e) eqn:En; simpl; [|split; [congruence|inversion 1; naive_solver congruence]].
  destruct (existsb _ (List.filter unreadable _)); [split; [intros <-; constructor; naive_solver
    |inversion 1; naive_solver]|].
  destruct (hit e) eqn:Eh; simpl; [split; [congruence|inversion 1; naive_solver congruence]|].
  destruct (existsb _ (List.filter scanned _)).
  - split; [intros <-; constructor; naive_solver|inversion 1; naive_solver].
  - split; [congruence|inversion 1; naive_solver].
Qed.

Lemma zip_map_r {A B} (f : A → B) (l : list A) : zip l (map f l) = map (λ x, (x, f x)) l.
Proof. induction l as [|x l IH]; simpl; [done|]. by f_equal. Qed.

Lemma elem_of_stale entries context kind severity b d :
  d ∈ stale_diagnostics exists_ entries (map hit entries) context kind severity (inputs_of b) ↔
  ∃ e v, e ∈ entries ∧ reason e v ∧ verdict_diagnostic context kind severity b e v = Some d.
Proof.
  unfold stale_diagnostics. rewrite list_elem_of_omap, zip_map_r. setoid_rewrite map_elem. split.
  - intros (eh & (e & He & <-) & Hd). simpl in Hd. exists e, (classify exists_ (inputs_of b) e (hit e)).
    split; [done|]. split; [|done]. apply (classify_reason b); [|done]. intros Hf. by rewrite Hf in Hd.
  - intros (e & v & He & Hr & Hd). exists (e, hit e). split; [eauto|]. simpl.
    assert (v ≠ Fresh) as Hv by (intros ->; inversion Hr). by rewrite (proj2 (classify_reason b e v Hv) Hr).
Qed.

End Evidence.

(** C20: A scope or skip entry is reported on evidence only: its path is not on disk;
    or it is disjoint from the audited roots; or it names a symbol of a file the
    audit read, which does not parse, or which parses and holds no subject the
    entry matches.  An entry of a file the audit did not read is not reported,
    and the narrowing of a run never enters. *)
Theorem entries_judged_on_evidence files config dt severity :
  doctest config = Some dt → audit_severity (strict (marker_cfg config)) = Some severity →
  (∀ r, r ∈ dt_roots dt → exists_ (path_join (rootdir config) r) = true) →
  let scope := dt_scope dt in
  let audited := audited_files glob_new set_build is_match config scope files in
  let subjects := dedup_subjects (seed_members exists_ (rootdir config) scope
    (scan_files suite_parse read_to_string exists_ (rootdir config) severity scope audited)) in
  let entries := (scope_entries_of scope).1 in
  let vis ms := visible (scope_entries_of scope).2 ms.2 in
  let declared := match dt_roots dt with [] => false | _ => true end in
  ∃ check stale_scope stale_skip,
    diagnostics files config = check ++ stale_scope ++ stale_skip ∧
    (∀ d, d ∈ stale_scope ↔ ∃ e v, e ∈ entries ∧
      reason config scope audited
        (λ e, existsb (λ ms, vis ms && subject_matches e ms.2) subjects) e v ∧
      verdict_diagnostic "doctest.coverage.stale-scope" "scope" severity declared e v = Some d) ∧
    (∀ d, d ∈ stale_skip ↔ ∃ e v, e ∈ dt_skip dt ∧
      reason config scope audited
        (λ e, existsb (λ ms, vis ms && in_scope entries ms.2 && subject_matches e ms.2) subjects) e v ∧
      verdict_diagnostic "doctest.coverage.stale-skip" "skip" severity declared e v = Some d).
Proof.
  intros Hdt Hsev Hroots scope audited subjects entries vis declared.
  unfold collect_coverage_diagnostics. rewrite Hdt, Hsev.
  rewrite filter_none by (intros r Hr; by rewrite Hroots). simpl map. cbv iota.
  unfold run_coverage_check. fold scope audited subjects.
  pose proof (scope_filter_exact subjects scope (dt_skip dt)) as Hf.
  assert (match scope with Some (ScopeList e) => e | _ => [] end = entries) as ->
    by (unfold entries; by destruct scope as [[]|]).
  destruct (scope_entries_of scope) as [ents priv] eqn:Ee. cbv zeta in Hf. rewrite Hf.
  destruct (scan_fold_sets suite_parse read_to_string exists_ (rootdir config) severity scope audited
    (mk_scan ∅ [] {| sf_parsed := []; sf_parse_failed := [] |} [])) as (Hp & Hfail & _).
  unfold scan_files. rewrite Hp, Hfail. simpl.
  eexists _, _, _. split; [reflexivity|]. split; intros d; apply elem_of_stale.
Qed.

(** ** The audit and the command line *)

Context (is_file : string → bool) (canonicalize : string → option string).
Context (walk : string → bool → list string → list found_entry).

Abbreviation audit := (coverage_audit glob_new set_build is_match is_file canonicalize walk suite_parse
  read_to_string exists_ resolve_alias_ walk_one).

(** What the audit reads of a configuration. *)
Definition audit_view (c : Config) :=
  (declared c, use_gitignore (paths c), doctest c, strict (marker_cfg c)).

Lemma audit_reads_view c c' : audit_view c = audit_view c' → audit c = audit c'.
Proof.
  unfold audit_view, declared. intros [= Hr Hi Ht Hp Hn Hg Hd Hs].
  assert (coverage_roots c = coverage_roots c') as Hroots.
  { unfold coverage_roots. by rewrite Hd, Ht, Hr. }
  unfold coverage_audit, collect_declared_doctest_files, collect_doctest_files_in, walk_matching.
  rewrite Hroots. f_equal.
  assert (∀ g, flat_map (λ root, collect_from is_match is_file canonicalize walk root c g) (coverage_roots c')
    = flat_map (λ root, collect_from is_match is_file canonicalize walk root c' g) (coverage_roots c')) as Hw.
  { intros g. apply flat_map_ext. intros root. unfold collect_from. by rewrite Hg, Hn. }
  assert (∀ files, diagnostics files c = diagnostics files c') as Hd'.
  { intros files. unfold collect_coverage_diagnostics, audited_files, audited_file, missing_root.
    by rewrite Hd, Hs, Hr, Hg, Hn, Hp, Hroots. }
  destruct (build_glob_set _ _ _); simpl; rewrite ?Hw; apply Hd'.
Qed.

(** The targets and filters of a run do not change its audit: two command lines
    that agree on [--strict] and [--doctest-modules] audit the same files and
    judge the same entries. *)
Theorem audit_ignores_targets fs c args args' :
  ra_strict args = ra_strict args' → ra_doctest_modules args = ra_doctest_modules args' →
  audit (merge_run_args fs c args) = audit (merge_run_args fs c args').
Proof.
  intros Hs Hd. apply audit_reads_view. unfold audit_view. rewrite !merge_run_declared. f_equal; [f_equal|].
  - unfold merge_run_args. simpl. by rewrite Hd.
  - unfold merge_run_args. simpl. by rewrite Hs.
Qed.

End AuditSpec.

(** A project with one documented module, a scope entry naming a symbol it does
    not have, and one naming a file that is not there. *)
Definition demo_config : Config :=
  with_doctest (with_markers (mk_config "/p" "/p" path_default exec_default output_default marker_default
      filter_default feature_default None)
    {| registered_markers := []; markers_without_description := []; strict := Some StrictAbort |})
    (Some {| dt_scope := Some (ScopeList [Symbol "a/main.py" "sub"; File "gone.py"]); dt_roots := [];
             dt_skip := [] |}).

Definition demo_exists (p : string) : bool := existsb (String.eqb p) ["/p/a/main.py"; "/p"].

Definition demo_glob (p : string) : result string unit := Ok p.

Definition demo_glob_match (l : list string) (name : string) : bool :=
  existsb (λ p, ends_with (default p (strip_prefix "*" p)) name) l.

Lemma entries_judged_on_evidence_witness :
  map (λ kind, mk_diag SevError "doctest.coverage.stale-scope"
         ("scope entry " +:+ kind) None None)
    ["'a/main.py::sub' matched no coverage subjects (remove it, or check the symbol name)";
     "'gone.py' names a path that does not exist (remove the entry or fix the path)"] ⊆
  collect_coverage_diagnostics demo_glob (@Ok _ unit) demo_glob_match files_parse files_read demo_exists
    (λ _ _ _, Err (Cycle [])) (λ _ _, []) ["/p/a/main.py"] demo_config.
Proof.
  destruct (entries_judged_on_evidence demo_glob (@Ok _ unit) demo_glob_match files_parse files_read
    demo_exists (λ _ _ _, Err (Cycle [])) (λ _ _, []) ["/p/a/main.py"] demo_config
    {| dt_scope := Some (ScopeList [Symbol "a/main.py" "sub"; File "gone.py"]); dt_roots := [];
       dt_skip := [] |} SevError eq_refl eq_refl) as (check & stale & skip & -> & Hs & _);
    [intros r Hr; set_solver|].
  intros d [->|[->|[]%elem_of_nil]%elem_of_cons]%elem_of_cons; apply elem_of_app; right;
    apply elem_of_app; left; apply Hs.
  - exists (Symbol "a/main.py" "sub"), NoSubjects. split; [set_solver|]. split; [|reflexivity].
    constructor; [reflexivity| |reflexivity| | |reflexivity].
    + exists "/p". split; [apply list_elem_of_singleton; reflexivity|left; reflexivity].
    + intros (f & Hf & Hp & _). vm_compute in Hf. apply list_elem_of_singleton in Hf as ->. by vm_compute in Hp.
    + exists "a/main.py". split; [apply list_elem_of_singleton; reflexivity|split; reflexivity].
  - exists (File "gone.py"), MissingPath. split; [set_solver|]. split; [|reflexivity].
    constructor. by vm_compute.
Defined.

Lemma audit_ignores_targets_witness :
  let audit := coverage_audit demo_glob (@Ok _ unit) demo_glob_match (String.eqb "/p/a/main.py") Some
    (λ _ _ _, [{| fe_path := Some "/p/a/main.py"; fe_name := "main.py"; fe_is_file := Some true |}])
    files_parse files_read demo_exists (λ _ _ _, Err (Cycle [])) (λ _ _, []) in
  audit (merge_run_args Some demo_config (bare_run_args [] None)) =
    audit (merge_run_args Some demo_config (bare_run_args ["/p/tests/test_x.py"] (Some 3))) ∧
  length (audit (merge_run_args Some demo_config (bare_run_args [] None))).1 = 2.
Proof.
  split; [|vm_compute; reflexivity].
  apply (audit_ignores_targets demo_glob (@Ok _ unit) demo_glob_match); reflexivity.
Defined.
