(* ===== verification/Execution.v ===== *)
(** * Execution: running the planned phases ([src/pipeline/execution.rs])

    The serial loop of [ExecutionDispatch::execute_groups], with the scope
    teardowns it fires, and [execute_phases]/[execute]: violated items, grouping
    and scheduling, the plan, the in-process phase, the arranged phases, and the
    serial or parallel remainder.

    The Python side is a [FixtureOps]: the calls the runner makes through the
    bridge, each a function of the state of the interpreter ([world]).  The
    parallel phase is a [Phase], a function from its groups; [PhaseContract]
    says what the rest of the run relies on, and both the serial loop and the
    worker pool of [Parallel.v] are shown to meet it.  [calls] is a history
    variable: the scope calls made so far, in order.  Text printed for
    [--verbose] is not modelled. *)
From S2P Require Import Prelude.
From S2P Require Import Collections.
From S2P Require Import F64.
From S2P Require Import Text.
From S2P Require Import Paths.
From S2P Require Import Types.
From S2P Require Import Scheduler.
From S2P Require Import Cache.
From S2P Require Import Filter.
From S2P Require Import Arrange.
From S2P Require Import Report.
From S2P Require Import Wire.
From S2P Require Import Drain.
From S2P Require Import Parallel.
From S2P Require Import Strict.

(** ** Sorting and deduplication *)

Definition pair_cmp (a b : string * string) : comparison :=
  match String.compare a.1 b.1 with Eq => String.compare a.2 b.2 | c => c end.

Definition declaring_package_dirs (fixture_modules : list FixtureModule) : list string :=
  dedup path_eqb (sort_by path_cmp (map fm_anchor (List.filter declares_package fixture_modules))).

Definition arranged_entry (e : ArrangedEntry) : string * string :=
  match e with ArrangedType name => ("Type", name) | ArrangedName name => ("Name", name) end.

Definition pair_eqb (a b : string * string) : bool := String.eqb a.1 b.1 && String.eqb a.2 b.2.

Definition arranged_entries (l : list TestItem) : list (string * string) :=
  dedup pair_eqb (sort_by pair_cmp (map arranged_entry (flat_map arranged l))).

Definition module_paths (l : list TestItem) : list string :=
  dedup String.eqb (sort_by String.compare (map item_module_path l)).

(** ** Timeouts *)

Definition resolve_timeout (c : TestCache) (item : TestItem) (global : option Z)
    (multiplier : option f64) : option Z :=
  match multiplier with
  | None => global
  | Some mult =>
      match suggested_timeout_secs c item mult with
      | Some t => Some (Z.max t (default 1%Z global))
      | None => global
      end
  end.

(** ** The package warning *)

Definition dquoted (s : string) : string := quote +:+ s +:+ quote.

Definition collapse_message (fn_name dir : string) (merged : nat) : string :=
  fn_name +:+ " (lifetime=" +:+ dquoted "package" +:+ ") co-locates "
  +:+ TestOutcome.show_nat merged
  +:+ " modules onto one worker — parallelism is disabled for " +:+ dir
  +:+ ". Narrow the fixture's package, or drop to lifetime=" +:+ dquoted "module" +:+ ".".

Definition collapse_entries (fixture_modules : list FixtureModule) (groups : list ModuleGroup)
    (dir : string) : list DiagnosticEntry :=
  let merged := length (List.filter (λ g, path_starts_with dir (module_path g)) groups) in
  if merged <? 2 then []
  else
    flat_map (λ m, map (λ d, mk_diag SevWarning (pd_fn_name d)
                              (collapse_message (pd_fn_name d) dir merged)
                              (Some (fm_module m)) (Some (pd_lineno d)))
                       (package_declarations m))
      (List.filter (λ m, path_eqb (fm_anchor m) dir) fixture_modules).

Definition warn_about_package_collapse (fixture_modules : list FixtureModule)
    (groups : list ModuleGroup) (declaring_dirs : list string) (rep : ReporterSession)
    : ReporterSession :=
  fold_left (λ r e, record_diagnostics r [e])
    (flat_map (collapse_entries fixture_modules groups) declaring_dirs) rep.

(** ** The bridge *)

Section Exec.
Context {world : Type}.

Record FixtureOps := {
  run_timed : world → TestItem → option Z → TestOutcome.t * f64 * world;
  drain_session : world → list DiagnosticEntry * world;
  end_module : world → string → option string * world;
  end_package : world → string → option string * world;
  end_task : world → option string * world;
  end_process : world → option string * world;
  fixture_groups_of : world → list (string * string)
    → result (list (list string) * list (string * string)) string;
  visible_module_lifetime : world → list string → list string
}.

Inductive Call :=
  | Ran (id : string)
  | EndModule (path : string)
  | EndPackage (anchor : string)
  | EndTask
  | EndProcess.

(** The state a phase changes. *)
Record Run := mk_run {
  now : world;
  session : ReporterSession;
  calls : list Call
}.

Record PhaseResult := mk_phase {
  pr_interrupted : bool;
  pr_timings : list TestTiming
}.

Abbreviation Phase := (list TaskGroup.t → Run → PhaseResult * Run) (only parsing).

Context (ops : FixtureOps).

Definition drain_diagnostics (r : Run) : Run :=
  let '(diags, w) := drain_session ops (now r) in
  mk_run w (match diags with [] => session r | _ => record_diagnostics (session r) diags end)
    (calls r).

(** The [end_scope] closure: an error is a warning, then the drain. *)
Definition end_scope (context : string) (call : Call) (res : option string * world) (r : Run) : Run :=
  drain_diagnostics
    (mk_run res.2
       (match res.1 with
        | Some e => record_teardown_warning (session r) context e
        | None => session r
        end) (calls r ++ [call])).

Definition end_module_scope (path : string) (r : Run) : Run :=
  end_scope ("end_module(" +:+ path +:+ ")") (EndModule path) (end_module ops (now r) path) r.

Definition end_package_scope (anchor : string) (r : Run) : Run :=
  end_scope ("end_package(" +:+ anchor +:+ ")") (EndPackage anchor)
    (end_package ops (now r) anchor) r.

(** ** The serial loop *)

Record ExecSettings := {
  ec_mode : ExecutionMode;
  ec_maxfail : nat;
  ec_timeout_secs : option Z;
  ec_timeout_multiplier : option f64;
  ec_spawn_overhead : f64;
  ec_min_parallel_tests : nat;
  ec_schedule : ScheduleStrategy;
  ec_worker_count : Z;
  ec_cpu_count : Z
}.

Context (cfg : ExecSettings) (cache : TestCache).

Record Serial := mk_serial {
  run : Run;
  stimings : list TestTiming;
  sacc : FailureAccumulator.t
}.

(** One test; the flag is [acc.record]. *)
Definition run_item (item : TestItem) (s : Serial) : Serial * bool :=
  let timeout := resolve_timeout cache item (ec_timeout_secs cfg) (ec_timeout_multiplier cfg) in
  let '(outcome, duration_ms, w) := run_timed ops (now (run s)) item timeout in
  let r := drain_diagnostics (mk_run w (session (run s)) (calls (run s) ++ [Ran (node_id item)])) in
  let timing := {| tt_node_id := node_id item; tt_duration_ms := duration_ms;
                   tt_outcome := TestOutcome.kind outcome |} in
  let '(acc, stop) := FailureAccumulator.record (sacc s) outcome in
  (mk_serial (mk_run (now r) (record_outcome (session r) item outcome duration_ms) (calls r))
     (stimings s ++ [timing]) acc, stop).

Definition with_run (s : Serial) (r : Run) : Serial := mk_serial r (stimings s) (sacc s).

(** The items of one module; [end_module] fires at the stop as at the end. *)
Fixpoint run_items (l : list TestItem) (s : Serial) : Serial * bool :=
  match l with
  | [] => (s, false)
  | item :: l' =>
      let '(s', stop) := run_item item s in
      if stop then (s', true) else run_items l' s'
  end.

Definition run_module (m : ModuleGroup) (s : Serial) : Serial * bool :=
  let '(s', stop) := run_items (items m) s in
  (with_run s' (end_module_scope (module_path m) (run s')), stop).

Fixpoint run_modules (ms : list ModuleGroup) (s : Serial) : Serial * bool :=
  match ms with
  | [] => (s, false)
  | m :: ms' =>
      let '(s', stop) := run_module m s in
      if stop then (s', true) else run_modules ms' s'
  end.

Fixpoint run_groups (gs : list TaskGroup.t) (s : Serial) : Serial * bool :=
  match gs with
  | [] => (s, false)
  | g :: gs' =>
      let '(s', stop) := run_modules (TaskGroup.modules g) s in
      if stop then (s', true)
      else
        run_groups gs'
          (match TaskGroup.anchor g with
           | Some a => with_run s' (end_package_scope a (run s'))
           | None => s'
           end)
  end.

Definition execute_serial : Phase := λ gs r,
  let '(s, interrupted) :=
    run_groups gs (mk_serial r [] (FailureAccumulator.new (ec_maxfail cfg))) in
  let r' := end_scope "end_task" EndTask (end_task ops (now (run s))) (run s) in
  (mk_phase interrupted (stimings s), r').

(** ** The phases *)

Context (parallel : Z → Phase).
Context (shuffle : list ModuleGroup → list ModuleGroup).

Definition merge (a b : PhaseResult) : PhaseResult :=
  mk_phase (pr_interrupted a || pr_interrupted b) (pr_timings a ++ pr_timings b).

(** The arranged buckets, each its own serial phase, until one is stopped. *)
Fixpoint arranged_loop (dirs : list string) (buckets : list (list ModuleGroup))
    (res : PhaseResult) (r : Run) : PhaseResult * Run :=
  match buckets with
  | [] => (res, r)
  | b :: buckets' =>
      if pr_interrupted res then (res, r)
      else
        let '(ph, r') := execute_serial (group_by_package b dirs) r in
        arranged_loop dirs buckets' (merge res ph) r'
  end.

(** A serial phase, skipped when it has no group. *)
Definition serial_unless_empty (gs : list ModuleGroup) (dirs : list string) (r : Run)
    : PhaseResult * Run :=
  match gs with
  | [] => (mk_phase false [], r)
  | _ => execute_serial (group_by_package gs dirs) r
  end.

(** The phases after the in-process one, whose result is [res]. *)
Definition remainder (plan : ExecutionPlan) (dirs : list string) (res : PhaseResult) (r : Run)
    : PhaseResult * Run :=
  match strategy plan with
  | Arrange.Serial =>
      match concat (arranged_groups plan) ++ parallel_groups plan with
      | [] => (res, r)
      | all => let '(ph, r') := execute_serial (group_by_package all dirs) r in (merge res ph, r')
      end
  | Parallel worker_count =>
      let '(res', r') := arranged_loop dirs (arranged_groups plan) res r in
      match parallel_groups plan with
      | [] => (res', r')
      | gs =>
          if pr_interrupted res' then (res', r')
          else
            let '(ph, r'') := parallel worker_count (group_by_package gs dirs) r' in
            (merge res' ph, r'')
      end
  end.

(** [plan]'s phases, from the in-process one on. *)
Definition dispatch (plan : ExecutionPlan) (dirs : list string) (r : Run) : PhaseResult * Run :=
  let '(res, r1) := serial_unless_empty (inprocess_groups plan) dirs r in
  if pr_interrupted res then (res, r1) else remainder plan dirs res r1.

(** The components [@oxi.arrange] asks for; a bridge error leaves none and is
    reported. *)
Definition resolve_arranged (entries : list (string * string)) (r : Run)
    : list (list string) * list (string * string) * Run :=
  match entries with
  | [] => ([], [], r)
  | _ =>
      match fixture_groups_of ops (now r) entries with
      | Ok (groups, display) => (groups, display, r)
      | Err e =>
          ([], [], mk_run (now r)
             (record_diagnostics (session r)
                [mk_diag SevWarning "arrangement"
                   ("could not resolve the fixtures named by @oxi.arrange, so no tests were co-located: "
                    +:+ e) None None]) (calls r))
      end
  end.

Definition execute_phases (clean violated : list TestItem) (violations : list StrictViolation)
    (fixture_modules : list FixtureModule) (ast_weight : option f64) (r : Run)
    : PhaseResult * Run :=
  let r0 := mk_run (now r) (report_violations violated violations (session r)) (calls r) in
  let estimated := estimated_duration cache clean ast_weight in
  let groups := apply_schedule_strategy shuffle (group_by_module clean) (ec_schedule cfg) cache
                  (last_failed_ids cache) in
  let '(fixture_groups, display, r1) := resolve_arranged (arranged_entries clean) r0 in
  let declaring_modules := visible_module_lifetime ops (now r1) (module_paths clean) in
  let dirs := declaring_package_dirs fixture_modules in
  let plan := plan_execution groups (ec_mode cfg) (ec_worker_count cfg) (ec_spawn_overhead cfg)
                (ec_min_parallel_tests cfg) fixture_groups declaring_modules dirs display estimated
                (ec_cpu_count cfg) in
  let r2 :=
    match dirs with
    | [] => r1
    | _ => mk_run (now r1)
             (warn_about_package_collapse fixture_modules
                (inprocess_groups plan ++ parallel_groups plan ++ concat (arranged_groups plan))
                dirs (session r1)) (calls r1)
    end in
  dispatch plan dirs r2.

(** [execute]: the process tier is drained once, after every phase. *)
Definition execute (clean violated : list TestItem) (violations : list StrictViolation)
    (fixture_modules : list FixtureModule) (ast_weight : option f64) (r : Run)
    : PhaseResult * Run :=
  let '(res, r1) := execute_phases clean violated violations fixture_modules ast_weight r in
  (res, end_scope "end_process" EndProcess (end_process ops (now r1)) r1).

(** * Theorems *)

(** ** The trace of a serial phase *)

Definition module_calls (m : ModuleGroup) : list Call :=
  map (λ i, Ran (node_id i)) (items m) ++ [EndModule (module_path m)].

Definition group_calls (g : TaskGroup.t) : list Call :=
  flat_map module_calls (TaskGroup.modules g) ++
  match TaskGroup.anchor g with Some a => [EndPackage a] | None => [] end.

Definition ids (s : Serial) : list string := map tt_node_id (stimings s).
Definition module_ids (m : ModuleGroup) : list string := map node_id (items m).

(** [s'] is [s] after the calls [c] and the timings of the tests [l]. *)
Definition advanced (s s' : Serial) (c : list Call) (l : list string) : Prop :=
  calls (run s') = calls (run s) ++ c ∧ ids s' = ids s ++ l.

Lemma advanced_trans s1 s2 s3 c c' l l' :
  advanced s1 s2 c l → advanced s2 s3 c' l' → advanced s1 s3 (c ++ c') (l ++ l').
Proof. unfold advanced. intros [-> ->] [-> ->]. by rewrite <-!(assoc_L (++)). Qed.

Lemma calls_drain r : calls (drain_diagnostics r) = calls r.
Proof. unfold drain_diagnostics. by destruct (drain_session ops (now r)). Qed.

Lemma calls_end_scope context c res r : calls (end_scope context c res r) = calls r ++ [c].
Proof. unfold end_scope. by rewrite calls_drain. Qed.

Lemma run_item_advanced item s :
  advanced s (run_item item s).1 [Ran (node_id item)] [node_id item].
Proof.
  unfold run_item, advanced, ids. destruct (run_timed ops _ _ _) as [[o d] w].
  destruct (FailureAccumulator.record (sacc s) o) as [a stop]. simpl.
  by rewrite calls_drain, map_app.
Qed.

Lemma run_items_advanced l s s' stop :
  run_items l s = (s', stop) →
  ∃ done left, l = done ++ left ∧
    advanced s s' (map (λ i, Ran (node_id i)) done) (map node_id done) ∧
    (stop = false → left = []) ∧ (stop = true → done ≠ []).
Proof.
  revert s. induction l as [|item l IH]; intros s; simpl.
  { intros [= <- <-]. exists [], []. unfold advanced. by rewrite !app_nil_r. }
  pose proof (run_item_advanced item s) as H1. destruct (run_item item s) as [s1 [|]]; simpl in H1.
  - intros [= <- <-]. by exists [item], l.
  - intros H. destruct (IH s1 H) as (done & left & -> & H2 & H3 & _).
    exists (item :: done), left. split_and!; [done| |done|done].
    apply (advanced_trans s s1 s' _ _ _ _ H1 H2).
Qed.

(** The run was stopped inside module [m]: its teardown fired, nothing after. *)
Definition stopped_modules (ms : list ModuleGroup) (c : list Call) (l : list string) : Prop :=
  ∃ before m after done left, ms = before ++ m :: after ∧ items m = done ++ left ∧ done ≠ [] ∧
    c = flat_map module_calls before ++ map (λ i, Ran (node_id i)) done ++ [EndModule (module_path m)] ∧
    l = flat_map module_ids before ++ map node_id done.

Definition stopped_groups (gs : list TaskGroup.t) (c : list Call) (l : list string) : Prop :=
  ∃ before g after c' l', gs = before ++ g :: after ∧
    stopped_modules (TaskGroup.modules g) c' l' ∧
    c = flat_map group_calls before ++ c' ∧ l = flat_map group_ids before ++ l'.

Lemma end_module_advanced s path :
  advanced s (with_run s (end_module_scope path (run s))) [EndModule path] [].
Proof.
  unfold advanced, end_module_scope, ids. simpl. by rewrite calls_end_scope, app_nil_r.
Qed.

Lemma run_modules_advanced ms s s' stop :
  run_modules ms s = (s', stop) →
  ∃ c l, advanced s s' c l ∧
    (stop = false → c = flat_map module_calls ms ∧ l = flat_map module_ids ms) ∧
    (stop = true → stopped_modules ms c l).
Proof.
  revert s. induction ms as [|m ms IH]; intros s; simpl.
  { intros [= <- <-]. exists [], []. unfold advanced. by rewrite !app_nil_r. }
  unfold run_module. destruct (run_items (items m) s) as [s1 b] eqn:E.
  destruct (run_items_advanced _ _ _ _ E) as (done & left & Hm & H1 & Hf & Ht).
  pose proof (advanced_trans _ _ _ _ _ _ _ H1 (end_module_advanced s1 (module_path m))) as H2.
  rewrite app_nil_r in H2. set (s2 := with_run s1 _) in *. destruct b.
  - intros [= <- <-]. eexists _, _. split; [exact H2|]. split; [done|]. intros _.
    by exists [], m, ms, done, left; auto.
  - intros H. destruct (IH s2 H) as (c & l & H3 & Hc & Hs).
    rewrite (Hf eq_refl), app_nil_r in Hm. subst done.
    eexists _, _. split; [exact (advanced_trans _ _ _ _ _ _ _ H2 H3)|]. split.
    + intros Hst. destruct (Hc Hst) as [-> ->]. unfold module_calls, module_ids.
      by rewrite <-!(assoc_L (++)).
    + intros Hst. destruct (Hs Hst) as (b & m' & a & d & le & -> & Hi & Hd & -> & ->).
      exists (m :: b), m', a, d, le. unfold module_calls at 2, module_ids at 2. simpl.
      split_and!; try done; by rewrite <-!(assoc_L (++)).
Qed.

Lemma group_ids_modules g : group_ids g = flat_map module_ids (TaskGroup.modules g).
Proof.
  unfold group_ids, TaskGroup.group_items, module_ids.
  induction (TaskGroup.modules g) as [|m ms IH]; simpl; [done|]. by rewrite map_app, IH.
Qed.

Lemma run_groups_advanced gs s s' stop :
  run_groups gs s = (s', stop) →
  ∃ c l, advanced s s' c l ∧
    (stop = false → c = flat_map group_calls gs ∧ l = flat_map group_ids gs) ∧
    (stop = true → stopped_groups gs c l).
Proof.
  revert s. induction gs as [|g gs IH]; intros s; simpl.
  { intros [= <- <-]. exists [], []. unfold advanced. by rewrite !app_nil_r. }
  destruct (run_modules (TaskGroup.modules g) s) as [s1 b] eqn:E.
  destruct (run_modules_advanced _ _ _ _ E) as (c1 & l1 & H1 & Hf & Ht). destruct b.
  - intros [= <- <-]. eexists _, _. split; [exact H1|]. split; [done|]. intros _.
    by exists [], g, gs, c1, l1; auto.
  - destruct (Hf eq_refl) as [-> ->].
    set (s2 := match TaskGroup.anchor g with Some a => _ | None => s1 end).
    assert (advanced s s2 (group_calls g) (group_ids g)) as H2.
    { unfold group_calls. rewrite group_ids_modules, <-(app_nil_r (flat_map module_ids _)).
      eapply advanced_trans; [exact H1|]. subst s2. unfold advanced, ids.
      destruct (TaskGroup.anchor g); simpl; [|by rewrite !app_nil_r].
      unfold end_package_scope. by rewrite calls_end_scope, app_nil_r. }
    intros H. destruct (IH s2 H) as (c & l & H3 & Hc & Hs).
    eexists _, _. split; [exact (advanced_trans _ _ _ _ _ _ _ H2 H3)|]. split.
    + intros Hst. by destruct (Hc Hst) as [-> ->].
    + intros Hst. destruct (Hs Hst) as (b & g' & a & c' & l' & -> & Hm & -> & ->).
      exists (g :: b), g', a, c', l'. simpl. by rewrite <-!(assoc_L (++)).
Qed.

Lemma serial_trace gs r :
  let '(res, r') := execute_serial gs r in
  ∃ c l, calls r' = calls r ++ c ++ [EndTask] ∧ map tt_node_id (pr_timings res) = l ∧
    (pr_interrupted res = false → c = flat_map group_calls gs ∧ l = flat_map group_ids gs) ∧
    (pr_interrupted res = true → stopped_groups gs c l).
Proof.
  unfold execute_serial.
  destruct (run_groups gs _) as [s stop] eqn:E. simpl.
  destruct (run_groups_advanced _ _ _ _ E) as (c & l & [Hc Hl] & Hf & Ht). simpl in Hc, Hl.
  exists c, l. rewrite calls_end_scope, Hc, <-(assoc_L (++)). done.
Qed.

(** C29: A serial phase runs its tests in order and tears its scopes down
    exactly as they close: after the tests of each module its module scope,
    after the modules of a package group its package scope, and the task scope
    once, last.  Stopped by [--maxfail] inside a module, it still ends that
    module and the task, runs and ends nothing else, and has reported exactly
    the tests it ran. *)
Theorem serial_phase_trace gs r :
  let '(res, r') := execute_serial gs r in
  ∃ c l, calls r' = calls r ++ c ++ [EndTask] ∧ map tt_node_id (pr_timings res) = l ∧
    (pr_interrupted res = false → c = flat_map group_calls gs ∧ l = flat_map group_ids gs) ∧
    (pr_interrupted res = true → stopped_groups gs c l).
Proof. apply serial_trace. Qed.

(** ** What a phase promises *)

Class PhaseContract (ph : Phase) : Prop := {
  pc_complete gs r : pr_interrupted (ph gs r).1 = false →
    map tt_node_id (pr_timings (ph gs r).1) ≡ₚ flat_map group_ids gs;
  pc_at_most_once gs r :
    map tt_node_id (pr_timings (ph gs r).1) ⊆+ flat_map group_ids gs
}.

Lemma stopped_modules_ids ms c l :
  stopped_modules ms c l → l ⊆+ flat_map module_ids ms.
Proof.
  intros (b & m & a & d & left & -> & Hm & _ & _ & ->). rewrite flat_map_app. simpl.
  apply submseteq_app; [done|]. unfold module_ids at 1. rewrite Hm, map_app.
  rewrite <-(assoc_L (++)). by apply submseteq_inserts_r.
Qed.

#[export] Instance serial_contract : PhaseContract execute_serial.
Proof.
  split; intros gs r; pose proof (serial_trace gs r) as H;
    destruct (execute_serial gs r) as [res r'];
    destruct H as (c & l & _ & <- & Hf & Ht); simpl.
  - intros Hi. by destruct (Hf Hi) as [_ ->].
  - destruct (pr_interrupted res); [|by destruct Hf as [_ ->]].
    destruct (Ht eq_refl) as (b & g & a & c' & l' & -> & Hm & _ & ->).
    rewrite flat_map_app. simpl. apply submseteq_app; [done|].
    apply submseteq_inserts_r. rewrite group_ids_modules. by eapply stopped_modules_ids.
Qed.

Lemma package_ids gs dirs :
  flat_map group_ids (group_by_package gs dirs) ≡ₚ map node_id (flat_map items gs).
Proof.
  rewrite <-(group_by_package_perm gs dirs) at 2.
  induction (group_by_package gs dirs) as [|t ts IH]; simpl; [done|].
  rewrite flat_map_app, map_app, IH. done.
Qed.

(** Tests of the groups of one phase. *)
Abbreviation tests gs := (map node_id (flat_map items gs)).

Lemma tests_app a b : tests (a ++ b) = tests a ++ tests b.
Proof. by rewrite flat_map_app, map_app. Qed.

(** A result is about the tests [l]: all of them unless stopped, none twice. *)
Definition covers (res : PhaseResult) (l : list string) : Prop :=
  (pr_interrupted res = false → map tt_node_id (pr_timings res) ≡ₚ l) ∧
  map tt_node_id (pr_timings res) ⊆+ l.

Lemma covers_phase ph `{!PhaseContract ph} gs dirs r :
  covers (ph (group_by_package gs dirs) r).1 (tests gs).
Proof.
  split.
  - intros Hi. by rewrite pc_complete, package_ids.
  - rewrite <-package_ids with (dirs := dirs). apply pc_at_most_once.
Qed.

Lemma covers_merge a b la lb :
  covers a la → covers b lb → covers (merge a b) (la ++ lb).
Proof.
  intros [A1 A2] [B1 B2]. unfold covers, merge. simpl. rewrite map_app. split.
  - intros [Ha Hb]%orb_false_elim. by rewrite A1, B1.
  - by apply submseteq_app.
Qed.

Lemma covers_weaken a la lb :
  covers a la → pr_interrupted a = true → covers a (la ++ lb).
Proof.
  intros [_ H] Hi. split; [congruence|]. by apply submseteq_inserts_r.
Qed.

Lemma covers_perm a l l' : l ≡ₚ l' → covers a l → covers a l'.
Proof. intros E [H1 H2]. split; [intros Hi|]; rewrite <-E; auto. Qed.

Lemma arranged_loop_covers dirs buckets res r l :
  covers res l → covers (arranged_loop dirs buckets res r).1 (l ++ tests (concat buckets)).
Proof.
  revert res r l. induction buckets as [|b buckets IH]; intros res r l Hl; simpl.
  { by rewrite app_nil_r. }
  destruct (pr_interrupted res) eqn:Hi; [by apply covers_weaken|].
  pose proof (covers_phase execute_serial b dirs r) as Hp.
  destruct (execute_serial (group_by_package b dirs) r) as [ph r']. simpl in Hp.
  rewrite tests_app, (assoc_L (++)). apply IH. by apply covers_merge.
Qed.

Context `{!∀ n, PhaseContract (parallel n)}.

Lemma serial_unless_empty_covers gs dirs r :
  covers (serial_unless_empty gs dirs r).1 (tests gs).
Proof. destruct gs; [done|]. apply (covers_phase execute_serial). Qed.

Lemma remainder_covers plan dirs res r l :
  covers res l →
  covers (remainder plan dirs res r).1
    (l ++ tests (concat (arranged_groups plan) ++ parallel_groups plan)).
Proof.
  intros Hl. unfold remainder. destruct (strategy plan) as [|n].
  - destruct (concat (arranged_groups plan) ++ parallel_groups plan) as [|g gs].
    { by rewrite app_nil_r. }
    pose proof (covers_phase execute_serial (g :: gs) dirs r) as Hp.
    destruct (execute_serial _ r) as [ph r']. by apply covers_merge.
  - pose proof (arranged_loop_covers dirs (arranged_groups plan) res r l Hl) as Ha.
    destruct (arranged_loop dirs (arranged_groups plan) res r) as [res' r']. simpl in Ha.
    rewrite tests_app, (assoc_L (++)).
    destruct (parallel_groups plan) as [|g gs]; [by rewrite app_nil_r|].
    destruct (pr_interrupted res') eqn:Hi; [by apply covers_weaken|].
    pose proof (covers_phase (parallel n) (g :: gs) dirs r') as Hp.
    destruct (parallel n _ r') as [ph r'']. by apply covers_merge.
Qed.

Lemma dispatch_covers plan dirs r :
  covers (dispatch plan dirs r).1 (tests (concat (phases plan))).
Proof.
  eapply (covers_perm _ (tests (inprocess_groups plan) ++
    tests (concat (arranged_groups plan) ++ parallel_groups plan))).
  { unfold phases. simpl. rewrite !tests_app. solve_Permutation. }
  unfold dispatch. pose proof (serial_unless_empty_covers (inprocess_groups plan) dirs r) as Hp.
  destruct (serial_unless_empty _ _ _) as [res r1]. simpl in Hp.
  destruct (pr_interrupted res) eqn:Hi; [by apply covers_weaken|]. by apply remainder_covers.
Qed.

Context (shuffle_perm : ∀ l, shuffle l ≡ₚ l).

Lemma execute_covers clean violated violations fixture_modules ast r :
  covers (execute clean violated violations fixture_modules ast r).1 (map node_id clean).
Proof.
  unfold execute, execute_phases.
  destruct (resolve_arranged _ _) as [[fgs display] r1].
  set (groups := apply_schedule_strategy _ _ _ _ _).
  set (plan := plan_execution _ _ _ _ _ _ _ _ _ _ _). set (r2 := match _ with [] => r1 | _ => _ end).
  pose proof (dispatch_covers plan (declaring_package_dirs fixture_modules) r2) as Hd.
  destruct (dispatch plan _ r2) as [res r3]. simpl in Hd.
  refine (covers_perm res _ _ _ Hd). apply Permutation_map. etrans; [apply plan_items|].
  etrans; [|apply group_by_module_items]. apply Permutation_flat_map, schedule_perm, shuffle_perm.
Qed.

(** C3: A run that is not stopped reports every test to be run exactly once,
    over all its phases: grouping, scheduling, the plan, the package groups and
    the serial and worker-pool phases lose none and duplicate none, whatever
    the modes, the fixtures and the bridge answer; a run stopped by [--maxfail]
    reports no test twice and none that was not to be run. *)
Theorem execute_reports_each_test_once clean violated violations fixture_modules ast r :
  let '(res, _) := execute clean violated violations fixture_modules ast r in
  (pr_interrupted res = false → map tt_node_id (pr_timings res) ≡ₚ map node_id clean) ∧
  map tt_node_id (pr_timings res) ⊆+ map node_id clean.
Proof.
  pose proof (execute_covers clean violated violations fixture_modules ast r) as Hc.
  by destruct (execute _ _ _ _ _ _).
Qed.

End Exec.

(** ** The worker pool meets the contract *)

(** [ph] is the pool: each of its results is that of some complete run of the
    transition system of [Parallel.v]. *)
Definition runs_pool {world} (cd : Codec) (watchdog : nat) (names : list string)
    (workers maxfail : nat) (ph : list TaskGroup.t → @Run world → PhaseResult * @Run world) : Prop :=
  ∀ gs r, ∃ p, reachable cd watchdog names gs workers maxfail (session r) p ∧ loop_over p ∧
    (ph gs r).1 = mk_phase (phase_result (item_lookup gs) p).1 (phase_result (item_lookup gs) p).2.

Lemma pool_contract {world} cd watchdog names workers maxfail
    (ph : list TaskGroup.t → @Run world → PhaseResult * @Run world) :
  runs_pool cd watchdog names workers maxfail ph → PhaseContract ph.
Proof.
  intros Hp. split; intros gs r; destruct (Hp gs r) as (p & Hr & Ho & ->); simpl;
    pose proof (phase_conserves cd watchdog names gs workers maxfail (session r) p Hr Ho) as [H1 H2].
  - intros Hi. by apply H1.
  - simpl in H1, H2. destruct (interrupted (coord p)) eqn:Hi; [by apply H2|].
    destruct (H1 eq_refl) as [E _]. by rewrite E.
Qed.

(** ** Examples *)

(** A bridge whose tests all fail and whose teardowns succeed. *)
Definition demo_ops : @FixtureOps unit := {|
  run_timed := λ w item _, (TestOutcome.Failed (diagnostic_sentinel "boom"), f64_zero, w);
  drain_session := λ w, ([], w);
  end_module := λ w _, (None, w);
  end_package := λ w _, (None, w);
  end_task := λ w, (None, w);
  end_process := λ w, (None, w);
  fixture_groups_of := λ _ _, Ok ([["db"]], []);
  visible_module_lifetime := λ _ _, []
|}.

Definition demo_exec : ExecSettings := {|
  ec_mode := ParallelMode (Fixed 2);
  ec_maxfail := 2;
  ec_timeout_secs := None;
  ec_timeout_multiplier := None;
  ec_spawn_overhead := f64_of_Z 300;
  ec_min_parallel_tests := 10;
  ec_schedule := LongestFirst;
  ec_worker_count := 2;
  ec_cpu_count := 4
|}.

Definition exec_item (id : string) (marks : list string) (deps : list (string * string))
    (arr : list ArrangedEntry) : TestItem :=
  {| node_id := id; fn_name := "f"; lineno := 1; markers := MarkerSet.from_vec marks;
     param_id := None; param_values := []; is_async := false; fixture_deps := deps;
     fixref_deps := []; arranged := arr |}.

(** An in-process test and an arranged one. *)
Definition exec_items : list TestItem :=
  [exec_item "a.py::t1" ["inprocess"] [] [];
   exec_item "b.py::t2" [] [("db", "db")] [ArrangedName "db"]].

Definition exec_start : @Run unit := mk_run tt (new_session 0) [].

Lemma execute_reports_each_test_once_witness :
  map tt_node_id (pr_timings (execute demo_ops demo_exec empty_cache
    (λ _, execute_serial demo_ops demo_exec empty_cache) (λ l, l) exec_items [] [] [] None
    exec_start).1) ≡ₚ ["a.py::t1"; "b.py::t2"].
Proof.
  pose proof (execute_reports_each_test_once demo_ops demo_exec empty_cache
    (λ _, execute_serial demo_ops demo_exec empty_cache) (λ l, l)
    (λ l, Permutation_refl l)
    exec_items [] [] [] None exec_start) as H.
  destruct (execute _ _ _ _ _ _ _ _ _ _ _) as [res r] eqn:E. destruct H as [H _]. apply H.
  vm_compute in E. injection E as <- _. reflexivity.
Defined.
