(* ===== verification/Processes.v ===== *)
(** * Processes: the life of a worker subprocess
      ([src/parallel/pool.rs], [src/worker_session.rs], [src/parallel/mod.rs])

    Spawning, the pre-warmed pool and its guard, the hand-over of processes to
    worker threads, and the exit of a thread.  A child is named by the attempt
    that spawned it: attempts [0 .. worker_count) pre-warm the pool, attempt
    [worker_count + i] is the one thread [i] makes when the pool is empty.  What
    the program does to children is a log; the logs of the threads interleave.
    What the operating system answers to a spawn, and what a worker process does
    during each turn, are parameters. *)
From S2P Require Import Prelude Text F64 Types Scheduler Filter Arrange Cache Report Wire Drain Parallel Execution.

(** ** Spawning *)

(** [Command::spawn], and whether both pipes are there. *)
Inductive SpawnAnswer := SpawnError | NoPipes | Piped.

#[export] Instance spawn_answer_eq : EqDecision SpawnAnswer.
Proof. solve_decision. Defined.

Inductive Event :=
  | Spawned
  | Sent (text : string)
  | Killed
  | StdinClosed
  | Waited.

Abbreviation Log := (list (nat * Event)).

Section Processes.
Context (os : nat → SpawnAnswer).

Definition setup_worker_process (k : nat) : option nat * Log :=
  match os k with
  | SpawnError => (None, [])
  | NoPipes => (None, [(k, Spawned); (k, Killed)])
  | Piped => (Some k, [(k, Spawned)])
  end.

(** ** The pre-warmed pool *)

Definition prewarm_workers (count : nat) : list nat * Log :=
  let spawned := map setup_worker_process (seq 0 count) in
  (omap fst spawned, flat_map snd spawned).

Definition kill_pool (pool : list nat) : Log := flat_map (λ k, [(k, Killed); (k, Waited)]) pool.

Record PoolGuard := mk_guard { guard_workers : list nat }.

Definition guard_take (g : PoolGuard) : list nat * PoolGuard := (guard_workers g, mk_guard []).

Definition guard_drop (g : PoolGuard) : Log :=
  match guard_workers g with [] => [] | pool => kill_pool pool end.

(** ** One worker thread *)

(** [stdin] is [None] once closed; what was written is in the log. *)
Record WorkerSession := mk_session { stdin : option nat }.

Definition close_stdin (s : WorkerSession) : WorkerSession * Log :=
  (mk_session None, match stdin s with Some k => [(k, StdinClosed)] | None => [] end).

(** [drop(session)] closes what is still open. *)
Definition drop_session (s : WorkerSession) : Log := (close_stdin s).2.

(** [serde_json::to_writer]. *)
Context (task_json : WorkerTask → result string string).

(** Writing and flushing fail together when [write_ok] is false. *)
Definition send_task (s : WorkerSession) (task : WorkerTask) (write_ok : bool) : result Log string :=
  match stdin s with
  | None => Err "worker stdin is already closed"
  | Some k =>
      let? line := task_json task in
      if write_ok then Ok [(k, Sent (line +:+ newline))] else Err "write failed"
  end.

Context (cd : Codec) (watchdog : nat) (process_fixtures : list string) (task_of : TaskGroup.t → WorkerTask).

(** What happens during a turn: whether the write goes through, when the drain
    starts, and what it receives. *)
Record Io := mk_io { write_ok : bool; io_started : nat; io_ticks : list Tick }.

Definition turn_input (sent : result Log string) (io : Io) : TurnInput :=
  mk_turn (match sent with Ok _ => true | Err _ => false end) (io_started io) (io_ticks io).

(** [child.kill()] of [handle_drain_outcome] *)
Definition turn_kills (worker_id : nat) (g : TaskGroup.t) (input : TurnInput) : bool :=
  send_ok input &&
  match drain_worker_results cd (started input) (ticks input) (TaskGroup.item_count g) watchdog worker_id with
  | Some (outcome, received, _) =>
      (handle_drain_outcome outcome received watchdog worker_id (TaskGroup.group_items g) process_fixtures).1.2
  | None => false
  end.

Definition turn_log (k worker_id : nat) (g : TaskGroup.t) (sent : result Log string) (io : Io) : Log :=
  match sent with Ok l => l | Err _ => [] end
    ++ (if turn_kills worker_id g (turn_input sent io) then [(k, Killed)] else []).

(** The loop over the groups the thread pops: whether the process is still alive,
    the log, and the messages.  The list ends when the queue is empty or the run
    is cancelled. *)
Fixpoint task_loop (k worker_id : nat) (s : WorkerSession) (turns : list (TaskGroup.t * Io))
    : option (bool * Log * list WorkerMessage) :=
  match turns with
  | [] => Some (true, [], [])
  | (g, io) :: turns =>
      let sent := send_task s (task_of g) (write_ok io) in
      match worker_turn cd watchdog worker_id process_fixtures g (turn_input sent io) with
      | None => None
      | Some (LeaveAlive, msgs) => Some (true, turn_log k worker_id g sent io, msgs)
      | Some (LeaveDead, msgs) => Some (false, turn_log k worker_id g sent io, msgs)
      | Some (NextGroup, msgs) =>
          match task_loop k worker_id s turns with
          | Some (alive, l, more) => Some (alive, turn_log k worker_id g sent io ++ l, msgs ++ more)
          | None => None
          end
      end
  end.

(** The turns of a thread, and what it receives after closing the input. *)
Record ThreadEnv := mk_env { turns : list (TaskGroup.t * Io); tail_started : nat; tail_ticks : list Tick }.

Definition run_worker_loop (k worker_id : nat) (env : ThreadEnv) : option (Log * list WorkerMessage) :=
  let s := mk_session (Some k) in
  match task_loop k worker_id s (turns env) with
  | None => None
  | Some (false, l, msgs) => Some (l ++ drop_session s ++ [(k, Waited)], msgs)
  | Some (true, l, msgs) =>
      let '(s', closed) := close_stdin s in
      match drain_until_eof cd (tail_started env) (tail_ticks env) watchdog with
      | None => None
      | Some tail => Some (l ++ closed ++ drop_session s' ++ [(k, Waited)], msgs ++ tail)
      end
  end.

Definition spawn_worker (k worker_id : nat) (env : ThreadEnv) : option (Log * list WorkerMessage) :=
  match setup_worker_process k with
  | (None, l) => Some (l, [])
  | (Some k, l) =>
      match run_worker_loop k worker_id env with Some (l', msgs) => Some (l ++ l', msgs) | None => None end
  end.

(** ** The threads of a phase *)

(** [Vec::pop] *)
Definition pool_pop (pool : list nat) : option (nat * list nat) :=
  match rev pool with [] => None | k :: rest => Some (k, rev rest) end.

(** Thread by thread, a process of the pool or none; and the processes left. *)
Fixpoint assign (n : nat) (pool : list nat) : list (option nat) * list nat :=
  match n with
  | O => ([], pool)
  | S n =>
      match pool_pop pool with
      | Some (k, pool) => let '(l, rest) := assign n pool in (Some k :: l, rest)
      | None => let '(l, rest) := assign n [] in (None :: l, rest)
      end
  end.

Definition thread (worker_count i : nat) (prewarmed : option nat) (env : ThreadEnv)
    : option (Log * list WorkerMessage) :=
  match prewarmed with
  | Some k => run_worker_loop k i env
  | None => spawn_worker (worker_count + i) i env
  end.

(** ** The parallel arm *)

(** The log of several threads, in any order that keeps each thread's own. *)
Inductive interleaving {A} : list (list A) → list A → Prop :=
  | il_done ls : Forall (λ l, l = []) ls → interleaving ls []
  | il_step ls i a l out : ls !! i = Some (a :: l) → interleaving (<[i := l]> ls) out → interleaving ls (a :: out).

Context (envs : nat → ThreadEnv).

(** The log of the arm: [None] when it returns before its workers are needed, the
    groups of the parallel phase otherwise. *)
Inductive arm_log (worker_count : nat) : option (list TaskGroup.t) → Log → Prop :=
  | arm_stopped pool spawned :
      prewarm_workers worker_count = (pool, spawned) →
      arm_log worker_count None (spawned ++ guard_drop (mk_guard pool))
  | arm_ran gs pool spawned taken guard threads excess logs out :
      prewarm_workers worker_count = (pool, spawned) →
      guard_take (mk_guard pool) = (taken, guard) →
      assign (pool_size worker_count gs) taken = (threads, excess) →
      Forall2 (λ p l, ∃ msgs, thread worker_count p.1 p.2 (envs p.1) = Some (l, msgs))
        (imap pair threads) logs →
      interleaving (kill_pool excess :: logs) out →
      arm_log worker_count (Some gs) (spawned ++ out ++ guard_drop guard).

End Processes.

(** * Theorems *)

(** ** The life of one child *)

Definition of_child (k : nat) (p : nat * Event) : option Event := if decide (p.1 = k) then Some p.2 else None.

(** What happens to child [k], in order. *)
Definition events (k : nat) (l : Log) : list Event := omap (of_child k) l.

(** Not spawned, running with its input open, killed, running with its input
    closed, and waited for. *)
Inductive PState := Unborn | Open | Signalled | Closing | Reaped.

(** A child is written to while its input is open, and waited for, once, after it
    was killed or its input was closed. *)
Definition advance (s : PState) (e : Event) : option PState :=
  match s, e with
  | Unborn, Spawned => Some Open
  | Open, Sent _ => Some Open
  | Open, Killed => Some Signalled
  | Open, StdinClosed => Some Closing
  | Signalled, StdinClosed => Some Signalled
  | Signalled, Waited | Closing, Waited => Some Reaped
  | _, _ => None
  end.

Fixpoint life (s : PState) (l : list Event) : option PState :=
  match l with
  | [] => Some s
  | e :: l => match advance s e with Some s' => life s' l | None => None end
  end.

Lemma life_app s s' l1 l2 : life s l1 = Some s' → life s (l1 ++ l2) = life s' l2.
Proof.
  revert s. induction l1 as [|e l1 IH]; intros s; simpl; [by intros [= ->]|].
  destruct (advance s e); [apply IH|done].
Qed.

Lemma events_app k l1 l2 : events k (l1 ++ l2) = events k l1 ++ events k l2.
Proof. apply omap_app. Qed.

Lemma events_cons k a l : events k (a :: l) = events k [a] ++ events k l.
Proof. apply (events_app k [a]). Qed.

(** The log of one child. *)
Definition only (k : nat) (l : Log) : Prop := Forall (λ p, p.1 = k) l.

Lemma only_events k l : only k l → events k l = map snd l.
Proof.
  induction 1 as [|[j e] l Hj _ IH]; [done|]. simpl in Hj |- *. unfold events, of_child in *. simpl.
  by rewrite decide_True, IH.
Qed.

Lemma other_events j k l : only j l → j ≠ k → events k l = [].
Proof.
  induction 1 as [|[j' e] l Hj _ IH]; [done|]. simpl in Hj. intros Hk. unfold events, of_child in *. simpl.
  rewrite decide_False by congruence. by apply IH.
Qed.

Lemma only_app k l1 l2 : only k (l1 ++ l2) ↔ only k l1 ∧ only k l2.
Proof. apply Forall_app. Qed.

Lemma interleaving_events k ls out i :
  interleaving ls out → (∀ j l, ls !! j = Some l → j ≠ i → events k l = []) →
  events k out = events k (default [] (ls !! i)).
Proof.
  induction 1 as [ls Hls|ls j a l out Hj _ IH]; intros Ho.
  - destruct (ls !! i) as [l|] eqn:Hl; [|done]. by rewrite (Forall_lookup_1 _ _ _ _ Hls Hl).
  - rewrite events_cons, IH; destruct (decide (j = i)) as [->|Hji].
    + rewrite list_lookup_insert_eq by (by eapply lookup_lt_Some). rewrite Hj. cbn [default from_option id].
      by rewrite <- events_cons.
    + specialize (Ho _ _ Hj Hji). rewrite events_cons in Ho.
      apply app_eq_nil in Ho as [-> _]. by rewrite list_lookup_insert_ne.
    + intros j' l' Hl' Hne. rewrite list_lookup_insert_ne in Hl' by done. eauto.
    + intros j' l' Hl' Hne. destruct (decide (j' = j)) as [->|Hjj].
      * rewrite list_lookup_insert_eq in Hl' by (by eapply lookup_lt_Some). injection Hl' as <-.
        specialize (Ho _ _ Hj Hji). rewrite events_cons in Ho.
        by apply app_eq_nil in Ho as [_ ?].
      * rewrite list_lookup_insert_ne in Hl' by done. eauto.
Qed.

Section Theorems.
Context (os : nat → SpawnAnswer) (task_json : WorkerTask → result string string).
Context (cd : Codec) (watchdog : nat) (process_fixtures : list string) (task_of : TaskGroup.t → WorkerTask).

Abbreviation loop := (task_loop task_json cd watchdog process_fixtures task_of).
Abbreviation thread_loop := (run_worker_loop task_json cd watchdog process_fixtures task_of).

(** ** Threads *)

(** A turn kills only when the thread leaves a dead process behind. *)
Lemma turn_kills_dead w g input after msgs :
  worker_turn cd watchdog w process_fixtures g input = Some (after, msgs) →
  turn_kills cd watchdog process_fixtures w g input = true → after = LeaveDead.
Proof.
  unfold worker_turn, turn_kills. destruct (send_ok input); simpl; [|by intros [= <- <-]].
  destruct (drain_worker_results _ _ _ _ _ _) as [[[o n] m]|]; [|done].
  by destruct o; intros [= <- <-].
Qed.

Lemma send_task_log k task ok l :
  send_task task_json (mk_session (Some k)) task ok = Ok l → ∃ text, l = [(k, Sent text)].
Proof. unfold send_task. simpl. destruct (task_json task); simpl; [|done]. destruct ok; [|done]. intros [= <-]. eauto. Qed.

Lemma turn_log_life k w g ok io after msgs :
  let sent := send_task task_json (mk_session (Some k)) (task_of g) ok in
  worker_turn cd watchdog w process_fixtures g (turn_input sent io) = Some (after, msgs) →
  let l := turn_log cd watchdog process_fixtures k w g sent io in
  only k l ∧ ∃ s, life Open (map snd l) = Some s ∧ (s = Open ∨ s = Signalled ∧ after = LeaveDead).
Proof.
  intros sent Ht l. pose proof (turn_kills_dead _ _ _ _ _ Ht) as Hk. subst l. unfold turn_log.
  assert (∃ pre, match sent with Ok l => l | Err _ => [] end = pre ∧ only k pre ∧ life Open (map snd pre) = Some Open)
    as (pre & -> & Hp & Hl).
  { destruct sent as [l|e] eqn:Es; [|by exists []; repeat constructor].
    destruct (send_task_log _ _ _ _ Es) as [t ->]. exists [(k, Sent t)]. by repeat constructor. }
  rewrite only_app, map_app. rewrite (life_app _ _ _ _ Hl). split; [split; [done|]|].
  - destruct (turn_kills _ _ _ _ _ _); by repeat constructor.
  - destruct (turn_kills _ _ _ _ _ _); simpl; [eexists; eauto|eauto].
Qed.

Lemma task_loop_life k w ts alive l msgs :
  loop k w (mk_session (Some k)) ts = Some (alive, l, msgs) →
  only k l ∧ ∃ s, life Open (map snd l) = Some s ∧ (s = Open ∨ s = Signalled ∧ alive = false).
Proof.
  revert alive l msgs. induction ts as [|[g io] ts IH]; intros alive l msgs; cbn [task_loop].
  { intros [= <- <- <-]. split; [constructor|]. eauto. }
  destruct (worker_turn _ _ _ _ _ _) as [[after m]|] eqn:Ht; [|done].
  destruct (turn_log_life _ _ _ _ _ _ _ Ht) as (Ho & s & Hs & Hd).
  destruct after.
  - destruct (loop k w (mk_session (Some k)) ts) as [[[al l'] m']|] eqn:Hl; [|done]. intros [= <- <- <-].
    destruct Hd as [->|[_ ?]]; [|done]. destruct (IH _ _ _ eq_refl) as (Ho' & s' & Hs' & Hd').
    rewrite only_app, map_app, (life_app _ _ _ _ Hs). eauto.
  - intros [= <- <- <-]. destruct Hd as [->|[_ ?]]; [|done]. eauto.
  - intros [= <- <- <-]. naive_solver.
Qed.

(** A thread ends its process's life, whatever the process did. *)
Lemma run_loop_life k w env l msgs :
  thread_loop k w env = Some (l, msgs) → only k l ∧ life Open (map snd l) = Some Reaped.
Proof.
  unfold run_worker_loop. destruct (loop _ _ _ _) as [[[alive l'] m]|] eqn:Hl; [|done].
  destruct (task_loop_life _ _ _ _ _ _ Hl) as (Ho & s & Hs & Hd).
  assert (only k [(k, StdinClosed); (k, Waited)]) as Hc by by repeat constructor.
  destruct alive; [destruct (drain_until_eof _ _ _ _); [|done]|]; intros [= <- <-];
    rewrite only_app, map_app, (life_app _ _ _ _ Hs); (split; [done|]); by destruct Hd as [->|[-> ?]].
Qed.

(** What a spawn leaves behind. *)
Definition born (k : nat) : list Event :=
  match os k with SpawnError => [] | NoPipes => [Spawned; Killed] | Piped => [Spawned] end.

Lemma setup_only k : only k (setup_worker_process os k).2.
Proof. unfold setup_worker_process. destruct (os k); repeat constructor. Qed.

Lemma setup_events k : events k (setup_worker_process os k).2 = born k.
Proof.
  rewrite only_events by apply setup_only. unfold setup_worker_process, born. by destruct (os k).
Qed.

Lemma spawn_worker_life k w env l msgs :
  spawn_worker os task_json cd watchdog process_fixtures task_of k w env = Some (l, msgs) →
  only k l ∧ ∃ s, life Unborn (map snd l) = Some s ∧
    match os k with SpawnError => s = Unborn | NoPipes => s = Signalled | Piped => s = Reaped end.
Proof.
  unfold spawn_worker, setup_worker_process. destruct (os k) eqn:Ek.
  1,2: intros [= <- <-]; split; [repeat constructor|by eexists].
  destruct (thread_loop k w env) as [[l' m]|] eqn:Hr; [|done]. intros [= <- <-].
  apply run_loop_life in Hr as [Ho Hl]. split; [by constructor|by eexists].
Qed.

(** ** The pool *)

Definition piped (k : nat) : bool := match os k with Piped => true | _ => false end.

Lemma prewarm_pool n : (prewarm_workers os n).1 = List.filter piped (seq 0 n).
Proof.
  unfold prewarm_workers. simpl. induction (seq 0 n) as [|k l IH]; [done|]. simpl. rewrite <- IH. clear IH.
  unfold setup_worker_process at 1, piped. by destruct (os k).
Qed.

Lemma prewarm_member n k : k ∈ (prewarm_workers os n).1 ↔ k < n ∧ os k = Piped.
Proof.
  rewrite prewarm_pool, list_elem_of_In, filter_In, in_seq. unfold piped.
  destruct (os k); split; intros [? ?]; split; done || lia.
Qed.

Lemma prewarm_NoDup n : NoDup (prewarm_workers os n).1.
Proof. rewrite prewarm_pool. apply NoDup_ListNoDup, List.NoDup_filter, seq_NoDup. Qed.

Lemma prewarm_events n k : events k (prewarm_workers os n).2 = if decide (k < n) then born k else [].
Proof.
  unfold prewarm_workers. simpl. induction n as [|n IH]; [done|].
  rewrite seq_S, map_app, flat_map_app. simpl. rewrite app_nil_r, events_app, IH.
  destruct (decide (k = n)) as [->|Hk].
  - rewrite decide_False, decide_True by lia. apply setup_events.
  - rewrite (other_events n) by (done || apply setup_only). rewrite app_nil_r.
    destruct (decide (k < n)), (decide (k < S n)); done || lia.
Qed.

Lemma kill_pool_events pool k :
  NoDup pool → events k (kill_pool pool) = if decide (k ∈ pool) then [Killed; Waited] else [].
Proof.
  induction 1 as [|j pool Hj _ IH]; [done|]. unfold kill_pool in *. cbn [flat_map]. rewrite events_app, IH.
  destruct (decide (j = k)) as [->|Hk].
  - rewrite decide_False by done. rewrite only_events by (by repeat constructor).
    by rewrite decide_True by set_solver.
  - rewrite (other_events j) by (done || by repeat constructor).
    destruct (decide (k ∈ pool)), (decide (k ∈ j :: pool)); done || set_solver.
Qed.

Lemma pop_split pool k rest : pool_pop pool = Some (k, rest) → pool = rest ++ [k].
Proof.
  unfold pool_pop. destruct (rev pool) as [|j l] eqn:E; [done|]. intros [= <- <-].
  rewrite <- (rev_involutive pool), E. done.
Qed.

(** Each process of the pool goes to one thread or is left over. *)
Lemma assign_spec n pool threads excess :
  assign n pool = (threads, excess) → length threads = n ∧ omap id threads ++ excess ≡ₚ pool.
Proof.
  revert pool threads excess. induction n as [|n IH]; intros pool threads excess; simpl; [by intros [= <- <-]|].
  destruct (pool_pop pool) as [[k rest]|] eqn:Hp.
  - destruct (assign n rest) as [l e] eqn:Ha. intros [= <- <-]. destruct (IH _ _ _ Ha) as [Hl He].
    apply pop_split in Hp as ->. simpl. split; [by f_equal|]. rewrite He. solve_Permutation.
  - destruct (assign n []) as [l e] eqn:Ha. intros [= <- <-]. destruct (IH _ _ _ Ha) as [Hl He].
    split; [simpl; by f_equal|]. simpl. rewrite He. unfold pool_pop in Hp.
    destruct (rev pool) eqn:E; [|done]. by rewrite <- (rev_involutive pool), E.
Qed.

Lemma omap_index (threads : list (option nat)) i j k :
  NoDup (omap id threads) → threads !! i = Some (Some k) → threads !! j = Some (Some k) → i = j.
Proof.
  revert i j. induction threads as [|t threads IH]; intros i j Hd Hi Hj; [done|].
  assert (∀ n, threads !! n = Some (Some k) → k ∈ omap id threads) as Hin.
  { intros n Hn. apply list_elem_of_omap. exists (Some k). split; [|done]. by eapply list_elem_of_lookup_2. }
  assert (NoDup (omap id threads)) as Hd'. { destruct t; simpl in Hd; [by apply NoDup_cons in Hd as [_ ?]|done]. }
  destruct i, j; simpl in *; [done| | |f_equal; by apply IH].
  all: simplify_eq; apply NoDup_cons in Hd as [Hk _]; destruct Hk; eauto.
Qed.

(** The state a child ends in, by what its spawn answered. *)
Definition ends_as (k : nat) (s : PState) : Prop :=
  match s with
  | Unborn => True
  | Signalled => os k = NoPipes
  | Reaped => os k = Piped
  | Open | Closing => False
  end.

Definition good_life (k worker_count : nat) (l : list Event) : Prop :=
  ∃ s, life Unborn l = Some s ∧ ends_as k s ∧ (k < worker_count → s = Unborn → os k = SpawnError).

Lemma born_life k n : os k ≠ Piped → good_life k n (born k).
Proof. intros Hk. unfold good_life, born, ends_as. destruct (os k) eqn:E; [by exists Unborn|by exists Signalled|done]. Qed.

Lemma reaped_life k n l : os k = Piped → life Open l = Some Reaped → good_life k n (born k ++ l).
Proof. intros Hk Hl. exists Reaped. unfold born. rewrite Hk. simpl. by rewrite Hl. Qed.

(** ** The arm *)

Section Arm.
Context (envs : nat → ThreadEnv) (worker_count : nat) (threads : list (option nat)) (excess : list nat).
Context (Hpool : omap id threads ++ excess ≡ₚ (prewarm_workers os worker_count).1).
Context (logs : list Log) (out : Log).
Context (Hlogs : Forall2 (λ p l, ∃ msgs, thread os task_json cd watchdog process_fixtures task_of worker_count
                                           p.1 p.2 (envs p.1) = Some (l, msgs)) (imap pair threads) logs).
Context (Hout : interleaving (kill_pool excess :: logs) out).

(** The child of thread [i]. *)
Definition child_of_thread (i : nat) (t : option nat) : nat := default (worker_count + i) t.

Lemma arm_NoDup : NoDup (omap id threads ++ excess).
Proof. rewrite Hpool. apply prewarm_NoDup. Qed.

Lemma arm_members k : k ∈ omap id threads ∨ k ∈ excess ↔ k < worker_count ∧ os k = Piped.
Proof. rewrite <- elem_of_app, Hpool. apply prewarm_member. Qed.

Lemma thread_member i k : threads !! i = Some (Some k) → k ∈ omap id threads.
Proof. intros Hi. apply list_elem_of_omap. exists (Some k). split; [by eapply list_elem_of_lookup_2|done]. Qed.

Lemma owner_inj i j t t' :
  threads !! i = Some t → threads !! j = Some t' → child_of_thread i t = child_of_thread j t' → i = j.
Proof.
  intros Hi Hj. pose proof arm_NoDup as Hd. apply NoDup_app in Hd as (Hd & _ & _).
  destruct t as [k|], t' as [k'|]; unfold child_of_thread; simpl; [intros <-; by eapply omap_index| | |lia]; intros He.
  - pose proof (proj1 (arm_members k) (or_introl (thread_member _ _ Hi))). lia.
  - pose proof (proj1 (arm_members k') (or_introl (thread_member _ _ Hj))). lia.
Qed.

Lemma owner_not_pooled i : worker_count + i ∉ excess.
Proof. intros Hin. pose proof (proj1 (arm_members _) (or_intror Hin)). lia. Qed.

Lemma thread_of_log i l :
  logs !! i = Some l →
  ∃ t msgs, threads !! i = Some t ∧
    thread os task_json cd watchdog process_fixtures task_of worker_count i t (envs i) = Some (l, msgs).
Proof.
  intros Hl. destruct (Forall2_lookup_r _ _ _ _ _ Hlogs Hl) as ([j t] & Hp & msgs & Ht).
  rewrite list_lookup_imap in Hp. destruct (threads !! i) as [t'|]; [|done]. injection Hp as -> ->. eauto.
Qed.

Lemma thread_only i t l msgs :
  thread os task_json cd watchdog process_fixtures task_of worker_count i t (envs i) = Some (l, msgs) →
  only (child_of_thread i t) l.
Proof. destruct t; simpl; [intros H%run_loop_life|intros H%spawn_worker_life]; by destruct H. Qed.

(** The events of a child come from its thread alone. *)
Lemma thread_events k i t :
  threads !! i = Some t → child_of_thread i t = k →
  ∃ l msgs, thread os task_json cd watchdog process_fixtures task_of worker_count i t (envs i) = Some (l, msgs) ∧
    events k out = map snd l.
Proof.
  intros Hi Hk.
  destruct (Forall2_lookup_l _ _ _ i (i, t) Hlogs) as (l & Hl & msgs & Ht); [by rewrite list_lookup_imap, Hi|].
  exists l, msgs. split; [done|]. rewrite (interleaving_events _ _ _ (S i) Hout).
  - simpl. rewrite Hl. simpl. rewrite only_events; [done|]. rewrite <- Hk. by eapply thread_only.
  - intros [|j] l' Hl' Hne; simpl in Hl'.
    + injection Hl' as <-. pose proof arm_NoDup as Hd. apply NoDup_app in Hd as (_ & Hx & Hd).
      rewrite kill_pool_events, decide_False; [done| |done]. intros Hin. subst k. destruct t as [k|]; simpl in Hin.
      * by apply (Hx k); [eapply thread_member|].
      * by apply (owner_not_pooled i).
    + destruct (thread_of_log _ _ Hl') as (t' & m' & Hj & Ht'). apply thread_only in Ht'.
      eapply other_events; [done|]. intros He. destruct Hne. f_equal. by eapply owner_inj; [..|rewrite Hk].
Qed.

Lemma excess_events k : k ∈ excess → events k out = [Killed; Waited].
Proof.
  intros Hk. pose proof arm_NoDup as Hd. apply NoDup_app in Hd as (_ & Hx & Hd).
  rewrite (interleaving_events _ _ _ 0 Hout); simpl; [by rewrite kill_pool_events, decide_True|].
  intros [|j] l Hl Hne; [done|]. destruct (thread_of_log _ _ Hl) as (t & m & Hj & Ht). apply thread_only in Ht.
  eapply other_events; [done|]. intros <-. destruct t as [k|]; simpl in *.
  - by apply (Hx k); [eapply thread_member|].
  - by apply (owner_not_pooled j).
Qed.

Lemma unowned_events k :
  k ∉ excess → (∀ i t, threads !! i = Some t → child_of_thread i t ≠ k) → events k out = [].
Proof.
  intros Hk Ho. rewrite (interleaving_events _ _ _ 0 Hout); simpl.
  - pose proof arm_NoDup as Hd. apply NoDup_app in Hd as (_ & _ & Hd). by rewrite kill_pool_events, decide_False.
  - intros [|j] l Hl Hne; [done|]. destruct (thread_of_log _ _ Hl) as (t & m & Hj & Ht). apply thread_only in Ht.
    eapply other_events; [done|]. eauto.
Qed.

Lemma arm_child_life k :
  good_life k worker_count ((if decide (k < worker_count) then born k else []) ++ events k out).
Proof.
  destruct (decide (k < worker_count)) as [Hk|Hk].
  - destruct (decide (os k = Piped)) as [E|E].
    + apply reaped_life; [done|]. destruct (proj2 (arm_members k) (conj Hk E)) as [Hin|Hin].
      * apply list_elem_of_omap in Hin as (t & Ht & Hid). simpl in Hid. subst t. apply list_elem_of_lookup in Ht as [i Hi].
        destruct (thread_events k i (Some k) Hi eq_refl) as (l & m & Ht & ->). by apply run_loop_life in Ht as [_ ?].
      * by rewrite excess_events.
    + rewrite unowned_events, app_nil_r; [by apply born_life| |].
      * intros Hin. pose proof (proj1 (arm_members k) (or_intror Hin)). naive_solver.
      * intros i t Hi <-. destruct t as [j|]; simpl in *; [|lia].
        pose proof (proj1 (arm_members _) (or_introl (thread_member _ _ Hi))). naive_solver.
  - simpl. destruct (threads !! (k - worker_count)) as [[j|]|] eqn:Hi.
    2: { destruct (thread_events k _ None Hi) as (l & m & Ht & ->); [unfold child_of_thread; simpl; lia|].
         apply spawn_worker_life in Ht as (_ & s & Hs & Hos). exists s. split; [done|].
         replace (worker_count + (k - worker_count)) with k in Hos by lia. unfold ends_as.
         destruct (os k); subst; done. }
    all: rewrite unowned_events; [by exists Unborn|intros Hin; pose proof (proj1 (arm_members k) (or_intror Hin)); lia|].
    all: intros i [j'|] Hi' <-; simpl in *;
      [pose proof (proj1 (arm_members _) (or_introl (thread_member _ _ Hi'))); lia|].
    all: replace (worker_count + i - worker_count) with i in Hi by lia; congruence.
Qed.
End Arm.

(** C12: Whatever the workers do, and however their threads interleave with the
    coordinator, every child of a parallel phase is written to only while its
    input is open and is waited for exactly once, after it was killed or its input
    was closed; this also when the run stops before the workers are needed.  The one
    child never waited for is one whose pipes the system did not provide, which is
    killed.  A pre-warming attempt leaves no child only when spawning failed. *)
Theorem worker_processes_end envs worker_count reached l k :
  arm_log os task_json cd watchdog process_fixtures task_of envs worker_count reached l →
  ∃ s, life Unborn (events k l) = Some s ∧
    match s with
    | Unborn => k < worker_count → os k = SpawnError
    | Signalled => os k = NoPipes
    | Reaped => os k = Piped
    | Open | Closing => False
    end.
Proof.
  intros Ha. assert (good_life k worker_count (events k l)) as (s & Hs & He & Hu);
    [|exists s; split; [done|]; destruct s; naive_solver].
  destruct Ha as [pool spawned Hp|gs pool spawned taken guard threads excess logs out Hp Hg Hs Hl Ho];
    pose proof (prewarm_events worker_count k) as He; rewrite Hp in He; simpl in He; rewrite events_app, He.
  - pose proof (prewarm_member worker_count k) as Hm. pose proof (prewarm_NoDup worker_count) as Hd.
    rewrite Hp in Hm, Hd. simpl in Hm, Hd.
    assert (guard_drop (mk_guard pool) = kill_pool pool) as -> by by destruct pool.
    rewrite kill_pool_events by done. destruct (decide (k ∈ pool)) as [Hk|Hk]; rewrite Hm in Hk.
    + destruct Hk as [Hk E]. rewrite decide_True by done. by apply reaped_life.
    + rewrite app_nil_r. destruct (decide (k < worker_count)); [apply born_life; naive_solver|by exists Unborn].
  - injection Hg as <- <-. apply assign_spec in Hs as [_ Hs]. simpl in Hs. simpl. rewrite app_nil_r.
    eapply arm_child_life; [by rewrite Hp|done|done].
Qed.
End Theorems.

(** ** Where the arm sits in a run *)

Section Reached.
Context {world : Type} (ops : @FixtureOps world) (cfg : ExecSettings) (cache : TestCache).
Context (parallel : Z → list TaskGroup.t → @Run world → PhaseResult * @Run world).

(** The groups the pool is given, [None] when the arm returns before. *)
Definition reached (plan : ExecutionPlan) (dirs : list string) (res : PhaseResult) (r : @Run world)
    : option (list TaskGroup.t) :=
  if pr_interrupted (arranged_loop ops cfg cache dirs (arranged_groups plan) res r).1 then None
  else match parallel_groups plan with [] => None | gs => Some (group_by_package gs dirs) end.

(** The parallel arm runs its pool on these groups and on nothing else. *)
Lemma remainder_reached plan dirs res r n :
  strategy plan = Parallel n →
  let '(res', r') := arranged_loop ops cfg cache dirs (arranged_groups plan) res r in
  remainder ops cfg cache parallel plan dirs res r =
    match reached plan dirs res r with
    | None => (res', r')
    | Some gs => let '(ph, r'') := parallel n gs r' in (merge res' ph, r'')
    end.
Proof.
  intros Hs. unfold remainder, reached. rewrite Hs.
  destruct (arranged_loop _ _ _ _ _ _ _) as [res' r']. simpl.
  by destruct (parallel_groups plan), (pr_interrupted res').
Qed.
End Reached.

(** With a pool of live processes no thread spawns its own, and the surplus of
    the pool is what the phase has no use for. *)
Lemma pool_suffices os n gs threads excess :
  0 < n → (∀ k, k < n → os k = Piped) → assign (pool_size n gs) (prewarm_workers os n).1 = (threads, excess) →
  Forall (λ t, is_Some t) threads ∧ length excess = n - pool_size n gs.
Proof.
  intros Hn Hos. rewrite prewarm_pool, List.forallb_filter_id.
  2: { apply forallb_forall. intros k Hk%in_seq. unfold piped. by rewrite Hos by lia. }
  assert (∀ m pool ts e, m ≤ length pool → assign m pool = (ts, e) → Forall (λ t, is_Some t) ts ∧ length e = length pool - m)
    as Ha; [|intros E; apply Ha in E; rewrite length_seq in *; [done|unfold pool_size; lia]].
  clear. induction m as [|m IH]; intros pool ts e Hm; simpl; [intros [= <- <-]; split; [constructor|lia]|].
  destruct (pool_pop pool) as [[k rest]|] eqn:Hp.
  - apply pop_split in Hp as ->. rewrite length_app in *. simpl in *.
    destruct (assign m rest) as [l e'] eqn:E. intros [= <- <-].
    apply IH in E as [? ->]; [|lia]. split; [by constructor|lia].
  - unfold pool_pop in Hp. destruct (rev pool) eqn:E; [|done]. apply (f_equal (@length nat)) in E.
    rewrite length_rev in E. simpl in E. lia.
Qed.

(** ** A run *)

(** Two processes are pre-warmed for one group: the first is not needed, the second
    answers one test and dies. *)
Definition demo_env : ThreadEnv :=
  mk_env [(demo_group, mk_io true 0 (ticks demo_turn))] 0 [].

Definition demo_task (g : TaskGroup.t) : WorkerTask := build_task g "[]" "{}" None "failed" "/p" false false.

Lemma worker_processes_end_witness :
  ∃ l, arm_log (λ _, Piped) (λ _, Ok "{}") demo_codec 1000 [] demo_task (λ _, demo_env) 2 (Some [demo_group]) l ∧
    life Unborn (events 0 l) = Some Reaped ∧ life Unborn (events 1 l) = Some Reaped.
Proof.
  set (l1 := [(1, Sent ("{}" +:+ newline)); (1, StdinClosed); (1, Waited)]).
  assert (arm_log (λ _, Piped) (λ _, Ok "{}") demo_codec 1000 [] demo_task (λ _, demo_env) 2 (Some [demo_group])
            ([(0, Spawned); (1, Spawned)] ++ (kill_pool [0] ++ l1) ++ guard_drop (mk_guard []))) as Ha.
  { eapply (arm_ran _ _ _ _ _ _ _ 2 [demo_group] [0; 1] _ [0; 1] (mk_guard []) [Some 1] [0] [l1]); try reflexivity.
    - repeat constructor. eexists. vm_compute. reflexivity.
    - do 2 (eapply (il_step _ 0); [reflexivity|]). do 3 (eapply (il_step _ 1); [reflexivity|]).
      constructor. by repeat constructor. }
  eexists. split; [exact Ha|].
  destruct (worker_processes_end _ _ _ _ _ _ _ _ _ _ 0 Ha) as (s0 & E0 & _).
  destruct (worker_processes_end _ _ _ _ _ _ _ _ _ _ 1 Ha) as (s1 & E1 & _).
  split; [rewrite E0; vm_compute in E0; by injection E0 as <-|rewrite E1; vm_compute in E1; by injection E1 as <-].
Defined.
