(* ===== verification/Verdict.v ===== *)
(** * Verdict: what reaches the exit code

    The exit code reads four numbers of the reporter's session.  Two sessions
    that agree on them are equivalent; recording a test respects the
    equivalence and recording diagnostics stays inside a class.  Over it, each
    phase of an execution tells the reporter exactly the tests it has timed:
    the serial phase, the worker pool, and the whole of [execution::execute]. *)
From S2P Require Import Prelude Collections Text F64 Paths Types Query Scheduler Cache Filter Arrange Report Retry Wire Drain Parallel Strict Execution.

(** ** Sessions up to their verdict *)

Definition verdict (s : RunStats) : list nat * nat * nat * gset string :=
  (counts s, xpassed_strict s, suite_violations s, usage_error_ids s).

#[export] Instance session_equiv : Equiv ReporterSession := λ s s',
  verdict (stats s) = verdict (stats s') ∧ strict_suite_count s = strict_suite_count s'.

#[export] Instance session_equivalence : Equivalence (≡@{ReporterSession}).
Proof. split; unfold equiv, session_equiv; [done|intros ? ? [-> ->]; done|intros ? ? ? [-> ->] [-> ->]; done]. Qed.

Lemma record_verdict s s' item o :
  verdict s = verdict s' → verdict (record s item o) = verdict (record s' item o).
Proof.
  destruct s, s'. unfold verdict. simpl. intros [= -> -> -> ->].
  destruct o as [| |d| | | |[]| |m original]; try done.
  - simpl. unfold record_errored. by destruct (diag_usage_error d).
  - by destruct original.
Qed.

#[export] Instance complete_proper : Proper ((≡) ==> (=) ==> (≡)) complete.
Proof.
  intros s s' [Hv Hc] e ? <-. destruct e as [[item o] d]. split; [|done].
  by apply (record_verdict _ _ item o) in Hv.
Qed.

#[export] Instance completes_proper l : Proper ((≡) ==> (≡)) (fold_left complete l).
Proof. induction l as [|e l IH]; intros s s' Hs; simpl; [done|]. apply IH. by rewrite Hs. Qed.

#[export] Instance record_strict_suite_proper : Proper ((≡) ==> (≡)) session_record_strict_suite.
Proof.
  intros [[] ?] [[] ?] [Hv Hc]. unfold verdict in Hv. simpl in *. by simplify_eq.
Qed.

Lemma exit_code_verdict s s' errs interrupted :
  s ≡ s' → compute_exit_code (stats s) errs interrupted = compute_exit_code (stats s') errs interrupted.
Proof. intros [Hv _]. unfold verdict in Hv. unfold compute_exit_code. injection Hv as -> -> -> ->. done. Qed.

Lemma record_diagnostics_equiv s l : record_diagnostics s l ≡ s.
Proof.
  split; [|done]. simpl. generalize (stats s). induction l as [|e l IH]; intros st; simpl; [done|].
  by rewrite IH.
Qed.

Lemma teardown_warning_equiv s context error : record_teardown_warning s context error ≡ s.
Proof. done. Qed.

Lemma fold_diagnostics_equiv l s : fold_left (λ r e, record_diagnostics r [e]) l s ≡ s.
Proof.
  revert s. induction l as [|e l IH]; intros s; simpl; [done|]. by rewrite IH, record_diagnostics_equiv.
Qed.

(** ** What a phase tells the reporter *)

(** [s'] is [s] after the tests [l], none of them reported as flaky. *)
Definition told (s s' : ReporterSession) (l : list event) : Prop :=
  s' ≡ fold_left complete l s ∧ Forall (λ e, not_flaky (ev_outcome e) = true) l.

Lemma told_nil s s' : s' ≡ s → told s s' [].
Proof. done. Qed.

Lemma told_trans s1 s2 s3 l l' : told s1 s2 l → told s2 s3 l' → told s1 s3 (l ++ l').
Proof.
  intros [E1 F1] [E2 F2]. split; [|by apply Forall_app]. rewrite fold_left_app. by rewrite E2, E1.
Qed.

Lemma told_quiet s1 s2 s3 l : told s1 s2 l → s3 ≡ s2 → told s1 s3 l.
Proof. intros [E F] Hs. split; [by rewrite Hs|done]. Qed.

(** The items of the groups of a phase. *)
Abbreviation phase_items gs := (flat_map TaskGroup.group_items gs) (only parsing).

Section Phases.
Context {world : Type} (ops : @FixtureOps world) (cfg : ExecSettings) (cache : TestCache).
Abbreviation Run := (@Run world).
Abbreviation Phase := (list TaskGroup.t → Run → PhaseResult * Run).

(** The reporter hears of each timed test, with the outcome the timing has. *)
Class ReportContract (ph : Phase) : Prop := {
  rc_told gs r : ∃ l, told (session r) (session (ph gs r).2) l ∧
    pr_timings (ph gs r).1 = map timing_of l ∧ ∀ e, e ∈ l → e.1.1 ∈ phase_items gs
}.

Lemma drain_diagnostics_equiv r : session (drain_diagnostics ops r) ≡ session r.
Proof.
  unfold drain_diagnostics. destruct (drain_session ops (now r)) as [[|d ds] w]; [done|].
  apply record_diagnostics_equiv.
Qed.

Lemma end_scope_equiv context call res r : session (end_scope ops context call res r) ≡ session r.
Proof.
  unfold end_scope. rewrite drain_diagnostics_equiv. simpl. by destruct res.1.
Qed.

(** A test that runs is not flaky: only the retry phase says so. *)
Context (runs_fresh : ∀ w item t, not_flaky (run_timed ops w item t).1.1 = true).

(** [acc'] is [acc] after the tests [l]. *)
Definition counted_to (acc acc' : FailureAccumulator.t) (l : list event) : Prop :=
  FailureAccumulator.max acc' = FailureAccumulator.max acc ∧
  FailureAccumulator.count acc' = FailureAccumulator.count acc + hard_failures (map ev_outcome l).

(** [s'] is [s] after the tests [l] of the serial loop, all among [its]. *)
Definition serial_told (its : list TestItem) (s s' : @Serial world) : Prop :=
  ∃ l, told (session (Execution.run s)) (session (Execution.run s')) l ∧
    stimings s' = stimings s ++ map timing_of l ∧ counted_to (sacc s) (sacc s') l ∧ ∀ e, e ∈ l → e.1.1 ∈ its.

Lemma serial_told_refl its s : serial_told its s s.
Proof.
  exists []. split_and!; [by apply told_nil|by rewrite app_nil_r|split; simpl; lia|]. intros e []%elem_of_nil.
Qed.

Lemma serial_told_trans its its' s1 s2 s3 :
  serial_told its s1 s2 → serial_told its' s2 s3 → serial_told (its ++ its') s1 s3.
Proof.
  intros (l & T & E & [M C] & H) (l' & T' & E' & [M' C'] & H'). exists (l ++ l'). split_and!.
  - by eapply told_trans.
  - by rewrite E', E, map_app, (assoc_L (++)).
  - split; [by rewrite M'|]. rewrite C', C, map_app, hard_failures_app. lia.
  - intros e [He|He]%elem_of_app; apply elem_of_app; auto.
Qed.

Lemma serial_told_weaken its its' s1 s2 : its ⊆ its' → serial_told its s1 s2 → serial_told its' s1 s2.
Proof. intros Hs (l & T & E & C & H). exists l. split_and!; auto. Qed.

Lemma serial_told_quiet its s1 s2 r :
  serial_told its s1 s2 → session r ≡ session (Execution.run s2) → serial_told its s1 (with_run s2 r).
Proof. intros (l & T & E & C & H) Hr. exists l. split_and!; [by eapply told_quiet|done..]. Qed.

Lemma run_item_told item s : serial_told [item] s (run_item ops cfg cache item s).1.
Proof.
  unfold run_item. pose proof (runs_fresh (now (Execution.run s)) item
    (resolve_timeout cache item (ec_timeout_secs cfg) (ec_timeout_multiplier cfg))) as Hf.
  destruct (run_timed ops _ _ _) as [[o d] w]. simpl in Hf.
  simpl. exists [(item, o, d)]. split_and!; [|done|split; simpl; [done|]|intros e ->%list_elem_of_singleton; by left].
  2: unfold ev_outcome; simpl; destruct (TestOutcome.is_hard_failure o); lia.
  split; [|by constructor]. simpl. change (record_outcome ?x item o d) with (complete x (item, o, d)).
  by rewrite drain_diagnostics_equiv.
Qed.

Lemma run_items_told l s : serial_told l s (run_items ops cfg cache l s).1.
Proof.
  revert s. induction l as [|item l IH]; intros s; simpl; [apply serial_told_refl|].
  pose proof (run_item_told item s) as H. destruct (run_item ops cfg cache item s) as [s' []]; simpl in H.
  - by apply (serial_told_weaken [item]); [set_solver|].
  - apply (serial_told_trans [item] l _ s'); auto.
Qed.

Lemma run_modules_told ms s : serial_told (flat_map items ms) s (run_modules ops cfg cache ms s).1.
Proof.
  revert s. induction ms as [|m ms IH]; intros s; simpl; [apply serial_told_refl|]. unfold run_module.
  pose proof (run_items_told (items m) s) as H.
  destruct (run_items ops cfg cache (items m) s) as [s' stop]. simpl in H.
  assert (serial_told (items m) s (with_run s' (end_module_scope ops (module_path m) (Execution.run s')))) as H'
    by (apply serial_told_quiet; [done|apply end_scope_equiv]).
  destruct stop; [eapply serial_told_weaken; [|exact H']; set_solver|].
  eapply serial_told_trans; [exact H'|apply IH].
Qed.

Lemma run_groups_told gs s : serial_told (phase_items gs) s (run_groups ops cfg cache gs s).1.
Proof.
  revert s. induction gs as [|g gs IH]; intros s; simpl; [apply serial_told_refl|].
  pose proof (run_modules_told (TaskGroup.modules g) s) as H.
  destruct (run_modules ops cfg cache (TaskGroup.modules g) s) as [s' []]; simpl in H.
  { eapply serial_told_weaken; [|exact H]. set_solver. }
  eapply serial_told_trans; [|apply IH]. destruct (TaskGroup.anchor g); [|exact H].
  apply serial_told_quiet; [exact H|apply end_scope_equiv].
Qed.

(** The limit is met exactly by the test the loop stops at. *)
Definition below (acc : FailureAccumulator.t) : Prop :=
  FailureAccumulator.max acc = 0 ∨ FailureAccumulator.count acc < FailureAccumulator.max acc.

Definition at_limit (acc : FailureAccumulator.t) : Prop :=
  0 < FailureAccumulator.max acc ∧ FailureAccumulator.count acc = FailureAccumulator.max acc.

Definition judged (p : @Serial world * bool) : Prop := if p.2 then at_limit (sacc p.1) else below (sacc p.1).

Lemma run_item_judged item s : below (sacc s) → judged (run_item ops cfg cache item s).
Proof.
  unfold run_item, FailureAccumulator.record. destruct (run_timed ops _ _ _) as [[o d] w].
  unfold below, judged, at_limit. cbn [sacc fst snd FailureAccumulator.max FailureAccumulator.count]. intros Hb.
  destruct (TestOutcome.is_hard_failure o), (Nat.ltb_spec 0 (FailureAccumulator.max (sacc s))); cbn [andb];
    try match goal with |- context [?a <=? ?b] => destruct (Nat.leb_spec a b) end;
    unfold below; cbn [FailureAccumulator.max FailureAccumulator.count]; lia.
Qed.

Lemma run_items_judged l s : below (sacc s) → judged (run_items ops cfg cache l s).
Proof.
  revert s. induction l as [|item l IH]; intros s Hs; simpl; [done|].
  pose proof (run_item_judged item s Hs) as H. destruct (run_item ops cfg cache item s) as [s' []]; [done|auto].
Qed.

Lemma run_modules_judged ms s : below (sacc s) → judged (run_modules ops cfg cache ms s).
Proof.
  revert s. induction ms as [|m ms IH]; intros s Hs; simpl; [done|]. unfold run_module.
  pose proof (run_items_judged (items m) s Hs) as H.
  destruct (run_items ops cfg cache (items m) s) as [s' []]; [done|]. by apply IH.
Qed.

Lemma run_groups_judged gs s : below (sacc s) → judged (run_groups ops cfg cache gs s).
Proof.
  revert s. induction gs as [|g gs IH]; intros s Hs; simpl; [done|].
  pose proof (run_modules_judged (TaskGroup.modules g) s Hs) as H.
  destruct (run_modules ops cfg cache (TaskGroup.modules g) s) as [s' []]; [done|].
  apply IH. by destruct (TaskGroup.anchor g).
Qed.

(** A phase stops at its own [maxfail]-th hard failure, and there only. *)
Definition phase_limit (stopped : bool) (l : list event) : Prop :=
  if stopped then 0 < ec_maxfail cfg ∧ hard_failures (map ev_outcome l) = ec_maxfail cfg
  else ec_maxfail cfg = 0 ∨ hard_failures (map ev_outcome l) < ec_maxfail cfg.

Lemma serial_phase_told gs r :
  let '(res, r') := execute_serial ops cfg cache gs r in
  ∃ l, told (session r) (session r') l ∧ pr_timings res = map timing_of l ∧
    phase_limit (pr_interrupted res) l ∧ ∀ e, e ∈ l → e.1.1 ∈ phase_items gs.
Proof.
  unfold execute_serial. set (s0 := mk_serial r [] (FailureAccumulator.new (ec_maxfail cfg))).
  destruct (run_groups_told gs s0) as (l & T & E & [M C] & H).
  assert (judged (run_groups ops cfg cache gs s0)) as J
    by (apply run_groups_judged; unfold below, s0, FailureAccumulator.new; simpl; lia).
  destruct (run_groups ops cfg cache gs _) as [s interrupted]. simpl in *.
  exists l. split_and!; [|done| |done]. { eapply told_quiet; [exact T|apply end_scope_equiv]. }
  unfold judged, below, at_limit in J. unfold phase_limit. simpl in J. rewrite M, C in J. by destruct interrupted.
Qed.

#[export] Instance serial_reports : ReportContract (execute_serial ops cfg cache).
Proof.
  split. intros gs r. pose proof (serial_phase_told gs r) as H.
  destruct (execute_serial ops cfg cache gs r) as [res r']. destruct H as (l & T & E & _ & H). by exists l.
Qed.

End Phases.

(** ** The worker pool *)

Definition fresh (r : ResolvedOutcome) : Prop := not_flaky (ro_outcome r) = true.

Lemma claimed_fresh cd t r : claimed cd t = Some r → fresh r.
Proof.
  unfold claimed, fresh. destruct (recv t); try done. destruct (line_kind cd line); try done.
  intros [= <-]. unfold result_of_line. destruct (from_str_result cd _) as [wire|]; [|by case_match].
  by destruct wire.
Qed.

Lemma turn_fresh cd watchdog w names g input after msgs :
  worker_turn cd watchdog w names g input = Some (after, msgs) → Forall fresh (results msgs).
Proof.
  intros (n & answered & rest & -> & _ & Ha & _ & _ & Hr)%turn_split. rewrite results_app.
  apply Forall_app. split; apply Forall_forall; intros r Hin.
  - rewrite Ha in Hin. apply elem_of_take in Hin as (i & Hi & _).
    apply list_elem_of_lookup_2, list_elem_of_omap in Hi as (t & _ & Ht). by eapply claimed_fresh.
  - specialize (Hr r Hin). unfold fresh. by destruct (ro_outcome r).
Qed.

Lemma tail_fresh cd started ticks watchdog out :
  drain_until_eof cd started ticks watchdog = Some out → results out = [].
Proof. intros [H _]%tail_loop_spec; [done|unfold MAX_TAIL_LINES; lia]. Qed.

Section Pool.
Context (cd : Codec) (watchdog : nat) (names : list string) (groups : list TaskGroup.t).
Abbreviation known := (item_lookup groups).

Definition pending (ph : WPhase) : list WorkerMessage :=
  match ph with Busy l _ | Leaving l => l | _ => [] end.

(** What the coordinator has told the reporter is what it has timed, and what
    is on its way is fresh. *)
Record pool_told (s0 : ReporterSession) (p : Pool) : Prop := {
  pt_told : ∃ l, told s0 (rep (coord p)) l ∧ Parallel.timings (coord p) = map timing_of l ∧
    ∀ e, e ∈ l → known !! ev_id e = Some e.1.1;
  pt_channel : Forall fresh (results (channel p));
  pt_pending w ph : workers p !! w = Some ph → Forall fresh (results (pending ph))
}.

Lemma lookup_item id item : known !! id = Some item → node_id item = id ∧ item ∈ phase_items groups.
Proof.
  unfold item_lookup. set (l := flat_map _ _).
  assert (∀ (m : gmap string TestItem) l', (∀ id item, m !! id = Some item → node_id item = id ∧ item ∈ l') →
    fold_left (λ m item, <[node_id item := item]> m) l m !! id = Some item →
    node_id item = id ∧ item ∈ l' ++ l) as H.
  { induction l as [|x l IH]; intros m l' Hm; simpl; [rewrite app_nil_r; apply Hm|].
    intros E. replace (l' ++ x :: l) with ((l' ++ [x]) ++ l) by by rewrite <-app_assoc.
    refine (IH _ (l' ++ [x]) _ E). intros id' item'. rewrite lookup_insert_Some.
    intros [[<- <-]|[_ Hi]]; [set_solver|]. destruct (Hm _ _ Hi). set_solver. }
  intros E. destruct (H ∅ [] ltac:(done) E) as [? ?]. done.
Qed.

(** One more timed test. *)
Lemma handled_told s0 r t resolved :
  (∃ l, told s0 r l ∧ t = map timing_of l ∧ ∀ e, e ∈ l → known !! ev_id e = Some e.1.1) → fresh resolved →
  let '(_, r', t') := handle_worker_result known resolved r t in
  ∃ l, told s0 r' l ∧ t' = map timing_of l ∧ ∀ e, e ∈ l → known !! ev_id e = Some e.1.1.
Proof.
  intros (l & T & -> & H) Hf. unfold handle_worker_result.
  destruct (known !! ro_node_id resolved) as [item|] eqn:E; [|by exists l].
  destruct (lookup_item _ _ E) as [Hid _].
  exists (l ++ [(item, ro_outcome resolved, ro_duration_ms resolved)]). split_and!.
  - eapply told_trans; [exact T|]. split; [done|by constructor].
  - rewrite map_app. f_equal. unfold timing_of, ev_id. simpl. by rewrite Hid.
  - intros e [He| ->%list_elem_of_singleton]%elem_of_app; [auto|]. unfold ev_id. simpl. by rewrite Hid.
Qed.

Lemma fresh_cons m ms : Forall fresh (results (m :: ms)) ↔ Forall fresh (results [m]) ∧ Forall fresh (results ms).
Proof. change (m :: ms) with ([m] ++ ms). by rewrite results_app, Forall_app. Qed.

Lemma pool_told_set s0 p p' w ph :
  pool_told s0 p → coord p' = coord p → channel p' = channel p →
  workers p' = <[w := ph]> (workers p) → Forall fresh (results (pending ph)) → pool_told s0 p'.
Proof.
  intros [Hc Hch Hw] Ec Eh Ew Hph. split; rewrite ?Ec, ?Eh; [done..|]. rewrite Ew.
  intros w' ph' [(-> & <- & _)|[_ ?]]%list_lookup_insert_Some; eauto.
Qed.

Lemma pool_told_push s0 p w ph ph' m :
  pool_told s0 p → workers p !! w = Some ph → results (pending ph) = results (m :: pending ph') →
  pool_told s0 (push p w ph' m).
Proof.
  intros [Hc Hch Hw] Hph E. pose proof (Hw _ _ Hph) as Hf. rewrite E in Hf.
  apply fresh_cons in Hf as [Hm Hms]. split; simpl; [done| |].
  - rewrite results_app, Forall_app. done.
  - intros w' ph'' [(-> & <- & _)|[_ ?]]%list_lookup_insert_Some; eauto.
Qed.

Lemma pool_told_deliver s0 p m rest :
  pool_told s0 p → channel p = m :: rest → pool_told s0 (deliver known p m rest).
Proof.
  intros [Hc Hch Hw] E. rewrite E in Hch. apply fresh_cons in Hch as [Hm Hrest]. split; simpl; [|done|done].
  destruct m as [resolved w|entry]; simpl.
  - apply Forall_cons in Hm as [Hm _]. pose proof (handled_told s0 _ _ resolved Hc Hm) as Hh.
    destruct (handle_worker_result _ _ _ _) as [[[o|] r] t]; [|done].
    by destruct (FailureAccumulator.record (acc (coord p)) o).
  - destruct Hc as (l & T & Et & H). exists l. split_and!; [|done|done].
    eapply told_quiet; [exact T|apply record_diagnostics_equiv].
Qed.

Lemma pool_told_step s0 p p' : step cd watchdog names known p p' → pool_told s0 p → pool_told s0 p'.
Proof.
  intros Hs Hp. destruct Hs; try (by eapply pool_told_set).
  - eapply pool_told_set; [done..|]. simpl. by eapply turn_fresh.
  - eapply pool_told_set; [done..|]. simpl. by erewrite tail_fresh.
  - by eapply pool_told_push.
  - eapply pool_told_set; [done..|]. simpl. by erewrite tail_fresh.
  - by eapply pool_told_push.
  - by apply pool_told_deliver.
  - destruct Hp. by split.
Qed.

Lemma reachable_told workers maxfail s0 p :
  reachable cd watchdog names groups workers maxfail s0 p → pool_told s0 p.
Proof.
  intros Hr. pattern p. refine (rtc_ind_r _ _ _ _ p Hr).
  - split; simpl; [|done|].
    + exists []. split_and!; [by apply told_nil|done|]. intros e []%elem_of_nil.
    + intros w ph [-> _]%lookup_replicate. done.
  - intros q q' _ Hs Hq. by eapply pool_told_step.
Qed.

(** The groups nobody was left to run are told as crashed. *)
Lemma drain_queue_told s0 fuel sched s :
  (∃ l, told s0 s.1 l ∧ s.2 = map timing_of l ∧ ∀ e, e ∈ l → known !! ev_id e = Some e.1.1) →
  let s' := drain_queue fuel known sched s in
  ∃ l, told s0 s'.1 l ∧ s'.2 = map timing_of l ∧ ∀ e, e ∈ l → known !! ev_id e = Some e.1.1.
Proof.
  revert sched s. induction fuel as [|fuel IH]; intros sched s Hs; simpl; [done|].
  destruct (Scheduler.pop sched) as [[g|] sched']; [|done]. apply IH.
  apply (fold_left_inv (λ s, ∃ l, told s0 s.1 l ∧ s.2 = map timing_of l ∧
    ∀ e, e ∈ l → known !! ev_id e = Some e.1.1)); [done|].
  intros [r t] item Hrt. unfold report_crashed.
  pose proof (handled_told s0 r t (crashed_resolved item) Hrt eq_refl) as H. simpl in *.
  by destruct (handle_worker_result _ _ _ _) as [[o r'] t'].
Qed.

End Pool.

(** [ph] is the pool, with the session it leaves: [runs_pool] and what the
    reporter was told. *)
Definition runs_pool_telling {world} (cd : Codec) (watchdog : nat) (names : list string)
    (workers maxfail : nat) (ph : list TaskGroup.t → @Execution.Run world → PhaseResult * @Execution.Run world)
    : Prop :=
  ∀ gs r, ∃ p, reachable cd watchdog names gs workers maxfail (session r) p ∧ loop_over p ∧
    (ph gs r).1 = mk_phase (phase_result (item_lookup gs) p).1 (phase_result (item_lookup gs) p).2 ∧
    session (ph gs r).2 = (drain_remaining_into_crashed (item_lookup gs) (sched p) (rep (coord p))
      (Parallel.timings (coord p)) (interrupted (coord p))).1.

Lemma pool_reports {world} cd watchdog names workers maxfail
    (ph : list TaskGroup.t → @Execution.Run world → PhaseResult * @Execution.Run world) :
  runs_pool_telling cd watchdog names workers maxfail ph → ReportContract ph.
Proof.
  intros Hp. split. intros gs r. destruct (Hp gs r) as (p & Hr & _ & -> & ->).
  destruct (reachable_told _ _ _ _ _ _ _ _ Hr) as [Hc _ _].
  assert (∃ l, told (session r) (drain_remaining_into_crashed (item_lookup gs) (sched p) (rep (coord p))
      (Parallel.timings (coord p)) (interrupted (coord p))).1 l ∧
    (phase_result (item_lookup gs) p).2 = map timing_of l ∧
    ∀ e, e ∈ l → item_lookup gs !! ev_id e = Some e.1.1) as (l & T & E & H).
  { unfold phase_result, drain_remaining_into_crashed. simpl. destruct (interrupted (coord p)); [exact Hc|].
    apply (drain_queue_told gs (session r) _ _ (rep (coord p), Parallel.timings (coord p))). exact Hc. }
  exists l. split_and!; [done|done|]. intros e He. by apply (lookup_item gs (ev_id e)), H.
Qed.

(** ** The whole execution *)

Section Execute.
Context {world : Type} (ops : @FixtureOps world) (cfg : ExecSettings) (cache : TestCache).
Context (parallel : Z → list TaskGroup.t → @Execution.Run world → PhaseResult * @Execution.Run world).
Context (shuffle : list ModuleGroup → list ModuleGroup).
Context (runs_fresh : ∀ w item t, not_flaky (run_timed ops w item t).1.1 = true).
Context (reports : ∀ n, ReportContract (parallel n)).

(** The phases so far: [res] and the session [s'] tell of the tests [l]. *)
Definition tells (s : ReporterSession) (res : PhaseResult) (s' : ReporterSession) : Prop :=
  ∃ l, told s s' l ∧ pr_timings res = map timing_of l.

Lemma tells_phase (ph : list TaskGroup.t → @Execution.Run world → PhaseResult * @Execution.Run world)
    `{!ReportContract ph} gs r : tells (session r) (ph gs r).1 (session (ph gs r).2).
Proof. destruct (rc_told gs r) as (l & T & E & _). by exists l. Qed.

Lemma tells_merge s a s1 b s2 : tells s a s1 → tells s1 b s2 → tells s (merge a b) s2.
Proof.
  intros (l & T & E) (l' & T' & E'). exists (l ++ l'). split; [by eapply told_trans|].
  simpl. by rewrite E, E', map_app.
Qed.

#[local] Instance serial_phase_reports : ReportContract (execute_serial ops cfg cache) :=
  serial_reports ops cfg cache runs_fresh.

Lemma arranged_loop_tells s dirs buckets res (r : @Execution.Run world) :
  tells s res (session r) →
  let '(res', r') := arranged_loop ops cfg cache dirs buckets res r in tells s res' (session r').
Proof.
  revert res r. induction buckets as [|b buckets IH]; intros res r H; simpl; [done|].
  destruct (pr_interrupted res); [done|].
  pose proof (tells_phase (execute_serial ops cfg cache) (group_by_package b dirs) r) as Hp.
  destruct (execute_serial ops cfg cache _ r) as [ph r']. by apply IH, (tells_merge _ _ (session r)).
Qed.

Lemma dispatch_tells plan dirs (r : @Execution.Run world) :
  let '(res, r') := dispatch ops cfg cache parallel plan dirs r in tells (session r) res (session r').
Proof.
  unfold dispatch, serial_unless_empty.
  assert (∀ s a (r0 : @Execution.Run world) gs, tells s a (session r0) →
    let '(b, r1) := execute_serial ops cfg cache gs r0 in tells s (merge a b) (session r1)) as Hserial.
  { intros s a r0 gs Ha. pose proof (tells_phase (execute_serial ops cfg cache) gs r0) as Hp.
    destruct (execute_serial _ _ _ gs r0) as [b r1]. by apply (tells_merge _ _ (session r0)). }
  assert (∀ res (r1 : @Execution.Run world), tells (session r) res (session r1) →
    let '(res', r') := remainder ops cfg cache parallel plan dirs res r1 in tells (session r) res' (session r'))
    as Hrest.
  { intros res r1 H. unfold remainder. destruct (strategy plan) as [|n].
    - destruct (_ ++ _) as [|g gs]; [done|]. pose proof (Hserial _ _ r1 (group_by_package (g :: gs) dirs) H) as Hs.
      by destruct (execute_serial _ _ _ _ r1).
    - pose proof (arranged_loop_tells (session r) dirs (arranged_groups plan) res r1 H) as Ha.
      destruct (arranged_loop _ _ _ _ _ res r1) as [res' r'].
      destruct (parallel_groups plan) as [|g gs]; [done|]. destruct (pr_interrupted res'); [done|].
      pose proof (tells_phase (parallel n) (group_by_package (g :: gs) dirs) r') as Hp.
      destruct (parallel n _ r') as [ph r'']. by apply (tells_merge _ _ (session r')). }
  destruct (inprocess_groups plan) as [|g gs].
  { apply Hrest. by exists []. }
  pose proof (tells_phase (execute_serial ops cfg cache) (group_by_package (g :: gs) dirs) r) as Hp.
  destruct (execute_serial _ _ _ _ r) as [res r1]. destruct (pr_interrupted res); [done|]. by apply Hrest.
Qed.

Lemma resolve_arranged_quiet entries (r : @Execution.Run world) :
  session (resolve_arranged ops entries r).2 ≡ session r.
Proof.
  unfold resolve_arranged. destruct entries; [done|].
  destruct (fixture_groups_of ops (now r) _) as [[groups display]|e]; [done|].
  apply record_diagnostics_equiv.
Qed.

(** The reporter's verdict is that of the violations and of the timed tests: the
    phases of an execution, whatever they run on, tell it of each test they
    time, once, with the outcome the timing has, and of nothing else. *)
Lemma execute_told clean violated violations fixture_modules ast r :
  let '(res, r') := execute ops cfg cache parallel shuffle clean violated violations fixture_modules ast r in
  ∃ l, session r' ≡ fold_left complete (omap (violation_event violations) violated ++ l) (session r) ∧
    pr_timings res = map timing_of l ∧ Forall (λ e, not_flaky (ev_outcome e) = true) l.
Proof.
  unfold execute, execute_phases. cbv zeta.
  set (r0 := mk_run (now r) (report_violations violated violations (session r)) (calls r)).
  pose proof (resolve_arranged_quiet (arranged_entries clean) r0) as Hq.
  destruct (resolve_arranged ops (arranged_entries clean) r0) as [[fgs display] r1]. simpl in Hq.
  match goal with |- context [dispatch _ _ _ _ ?p _ _] => set (plan := p) end.
  match goal with |- context [dispatch _ _ _ _ _ _ ?q] => set (r2 := q) end.
  pose proof (dispatch_tells plan (declaring_package_dirs fixture_modules) r2) as Hd.
  assert (session r2 ≡ session r0) as H2.
  { subst r2. destruct (declaring_package_dirs fixture_modules); [done|]. simpl.
    unfold warn_about_package_collapse. rewrite fold_diagnostics_equiv. exact Hq. }
  destruct (dispatch _ _ _ _ _ _ r2) as [res r3]. destruct Hd as (l & [T F] & E).
  cbv beta iota. exists l. split_and!; [|done|done]. rewrite end_scope_equiv, T, H2.
  by rewrite fold_left_app.
Qed.

(** ** The failure limit of a run *)

(** The serial phases of a plan, in order. *)
Definition serial_phases (plan : ExecutionPlan) : list (list ModuleGroup) :=
  match inprocess_groups plan with [] => [] | gs => [gs] end ++
  match strategy plan with
  | Arrange.Serial => match concat (arranged_groups plan) ++ parallel_groups plan with [] => [] | gs => [gs] end
  | Parallel _ => arranged_groups plan
  end.

(** Phases run one after the other, each to the limit it counts by itself: the
    tests [ls] they time, and whether the last was stopped at it. *)
Inductive phase_runs : list (list ModuleGroup) → list (list event) → bool → Prop :=
  | phase_runs_end : phase_runs [] [] false
  | phase_runs_next P l Ps ls stopped :
      phase_limit cfg false l → (∀ e, e ∈ l → e.1.1 ∈ flat_map items P) →
      phase_runs Ps ls stopped → phase_runs (P :: Ps) (l :: ls) stopped
  | phase_runs_stop P l Ps :
      phase_limit cfg true l → (∀ e, e ∈ l → e.1.1 ∈ flat_map items P) → phase_runs (P :: Ps) [l] true.

Lemma package_phase_told gs dirs (r : @Execution.Run world) :
  let '(res, r') := execute_serial ops cfg cache (group_by_package gs dirs) r in
  ∃ l, told (session r) (session r') l ∧ pr_timings res = map timing_of l ∧
    phase_limit cfg (pr_interrupted res) l ∧ ∀ e, e ∈ l → e.1.1 ∈ flat_map items gs.
Proof.
  pose proof (serial_phase_told ops cfg cache runs_fresh (group_by_package gs dirs) r) as H.
  destruct (execute_serial ops cfg cache _ r) as [res r']. destruct H as (l & T & E & L & H).
  exists l. split_and!; [done..|]. intros e He. specialize (H e He).
  apply flat_map_elem in H as (t & Ht & Hi). unfold TaskGroup.group_items in Hi.
  apply flat_map_elem in Hi as (m & Hm & Hi). apply flat_map_elem. exists m. split; [|done].
  rewrite <-(group_by_package_perm gs dirs). apply flat_map_elem. eauto.
Qed.

Lemma arranged_loop_phases dirs buckets res (r : @Execution.Run world) :
  pr_interrupted res = false →
  let '(res', r') := arranged_loop ops cfg cache dirs buckets res r in
  ∃ ls, told (session r) (session r') (concat ls) ∧
    pr_timings res' = pr_timings res ++ map timing_of (concat ls) ∧ phase_runs buckets ls (pr_interrupted res').
Proof.
  revert res r. induction buckets as [|b buckets IH]; intros res r Hi; simpl.
  { rewrite Hi. exists []. rewrite app_nil_r. split_and!; [by apply told_nil|done|constructor]. }
  rewrite Hi. pose proof (package_phase_told b dirs r) as H.
  destruct (execute_serial ops cfg cache _ r) as [ph r1]. destruct H as (l & T & E & L & H).
  destruct (pr_interrupted ph) eqn:Hp.
  - assert (arranged_loop ops cfg cache dirs buckets (merge res ph) r1 = (merge res ph, r1)) as ->
      by (destruct buckets; simpl; by rewrite ?Hp, ?orb_true_r).
    exists [l]. simpl. rewrite app_nil_r, Hp, orb_true_r, E. split_and!; [done|done|by apply phase_runs_stop].
  - specialize (IH (merge res ph) r1). simpl in IH. rewrite Hi, Hp in IH. specialize (IH eq_refl).
    destruct (arranged_loop _ _ _ _ _ _ r1) as [res' r']. destruct IH as (ls & T' & E' & R).
    exists (l :: ls). simpl. rewrite E', E, map_app, (assoc_L (++)).
    split_and!; [by eapply told_trans|done|by apply phase_runs_next].
Qed.

Lemma remainder_phases plan dirs res (r : @Execution.Run world) :
  strategy plan = Arrange.Serial ∨ parallel_groups plan = [] → pr_interrupted res = false →
  let '(res', r') := remainder ops cfg cache parallel plan dirs res r in
  ∃ ls, told (session r) (session r') (concat ls) ∧
    pr_timings res' = pr_timings res ++ map timing_of (concat ls) ∧
    phase_runs match strategy plan with
      | Arrange.Serial => match concat (arranged_groups plan) ++ parallel_groups plan with [] => [] | gs => [gs] end
      | Parallel _ => arranged_groups plan
      end ls (pr_interrupted res').
Proof.
  intros Hs Hi. unfold remainder. destruct (strategy plan) as [|n].
  - destruct (_ ++ _) as [|g gs].
    { exists []. rewrite app_nil_r, Hi. split_and!; [by apply told_nil|done|constructor]. }
    pose proof (package_phase_told (g :: gs) dirs r) as H.
    destruct (execute_serial ops cfg cache _ r) as [ph r']. destruct H as (l & T & E & L & H).
    exists [l]. simpl. rewrite app_nil_r, Hi, E. split_and!; [done|done|].
    destruct (pr_interrupted ph); [by apply phase_runs_stop|]. apply phase_runs_next; [done..|constructor].
  - destruct Hs as [Hs|Hs]; [done|]. rewrite Hs. pose proof (arranged_loop_phases dirs (arranged_groups plan) res r Hi) as H.
    by destruct (arranged_loop _ _ _ _ _ _ r).
Qed.


End Execute.

(** ** A run with one failure in each of two phases, and a limit of two *)

Definition limited_plan : ExecutionPlan := {|
  inprocess_groups := [mk_group "a.py" [exec_item "a.py::t1" ["inprocess"] [] []]];
  parallel_groups := [];
  arranged_groups := [[mk_group "b.py" [exec_item "b.py::t2" [] [("db", "db")] [ArrangedName "db"]]]];
  strategy := Parallel 2
|}.

Definition limited_run : PhaseResult * @Execution.Run unit :=
  dispatch demo_ops demo_exec empty_cache (λ _ _ r, (mk_phase false [], r)) limited_plan [] exec_start.

