(* ===== verification/Utf8.v ===== *)
(** * Utf8: text out of bytes

    [std::str::from_utf8] and [String::from_utf8_lossy], which
    [decode_worker_line] ([src/worker_session.rs]) applies to what a worker
    writes.  A byte string is cut into well-formed characters and ill-formed
    parts, each as long as it can still become a character; the lossy decoding
    puts one U+FFFD for each part. *)
From Stdlib Require Import Ascii.
From S2P Require Import Prelude Text.

Definition in_range (lo hi b : N) : bool := (lo <=? b)%N && (b <=? hi)%N.

(** How many bytes the character that starts with [a] has; 0 when none does. *)
Definition char_width (a : ascii) : nat :=
  let b := N_of_ascii a in
  if (b <? 128)%N then 1
  else if in_range 194 223 b then 2
  else if in_range 224 239 b then 3
  else if in_range 240 244 b then 4
  else 0.

Definition is_continuation (a : ascii) : bool := in_range 128 191 (N_of_ascii a).

(** The second byte: no overlong form, no surrogate, nothing above U+10FFFF. *)
Definition second_ok (a a2 : ascii) : bool :=
  let b := N_of_ascii a in
  let b2 := N_of_ascii a2 in
  if (b =? 224)%N then in_range 160 191 b2
  else if (b =? 237)%N then in_range 128 159 b2
  else if (b =? 240)%N then in_range 144 191 b2
  else if (b =? 244)%N then in_range 128 143 b2
  else in_range 128 191 b2.

(** The continuation bytes wanted, at most [n] of them: those found, what is
    left, and whether all were there. *)
Fixpoint continuations (n : nat) (s : string) : bool * string * string :=
  match n with
  | 0 => (true, "", s)
  | S n' =>
      match s with
      | String a s' =>
          if is_continuation a
          then let '(ok, c, r) := continuations n' s' in (ok, String a c, r)
          else (false, "", s)
      | "" => (false, "", "")
      end
  end.

(** One character or ill-formed part, from its first byte. *)
Definition utf8_step (a : ascii) (s : string) : bool * string * string :=
  match char_width a with
  | 0 => (false, String a "", s)
  | 1 => (true, String a "", s)
  | S (S n) =>
      match s with
      | String a2 s2 =>
          if second_ok a a2
          then let '(ok, c, r) := continuations n s2 in (ok, String a (String a2 c), r)
          else (false, String a "", s)
      | "" => (false, String a "", "")
      end
  end.

(** Every part has a byte, so the length is enough fuel. *)
Fixpoint utf8_parts (fuel : nat) (s : string) : list (bool * string) :=
  match fuel, s with
  | S fuel', String a s' => let '(ok, c, r) := utf8_step a s' in (ok, c) :: utf8_parts fuel' r
  | _, _ => []
  end.

Definition parts (s : string) : list (bool * string) := utf8_parts (String.length s) s.

(** [str::from_utf8(raw).is_ok()] *)
Definition is_utf8 (raw : string) : bool := forallb fst (parts raw).

(** U+FFFD *)
Definition replacement_character : string := encode_utf8 65533.

(** [String::from_utf8_lossy(raw)] *)
Definition from_utf8_lossy (raw : string) : string :=
  foldr (λ (p : bool * string) s, (if p.1 then p.2 else replacement_character) +:+ s) "" (parts raw).

(** * Theorems *)

Lemma continuations_spec n s (ok : bool) c r :
  continuations n s = (ok, c, r) →
  s = c +:+ r ∧ String.length c ≤ n ∧ (ok = true → String.length c = n) ∧ (ok = false → String.length c < n).
Proof.
  revert s ok c r. induction n as [|n IH]; intros s ok c r; simpl.
  { intros [= <- <- <-]. rewrite str_app_nil_l. done. }
  destruct s as [|a s]; [intros [= <- <- <-]; split_and!; simpl; (done || lia)|].
  destruct (is_continuation a); [|intros [= <- <- <-]; split_and!; simpl; (done || lia)].
  destruct (continuations n s) as [[ok' c'] r'] eqn:E. intros [= <- <- <-].
  destruct (IH _ _ _ _ E) as (-> & H1 & H2 & H3). simpl. split_and!; [done|lia|..].
  - intros Hk. by rewrite H2.
  - intros Hk. specialize (H3 Hk). lia.
Qed.

(** Continuation bytes found are found whatever follows, and a part of them,
    when nothing follows. *)
Lemma continuations_app n c r r' : continuations n (c +:+ r) = (true, c, r) → continuations n (c +:+ r') = (true, c, r').
Proof.
  revert c. induction n as [|n IH]; intros [|a c]; simpl; try done.
  - rewrite str_app_nil_l. destruct r as [|b r]; [done|]. destruct (is_continuation b); [|done].
    by destruct (continuations n r) as [[ok x] y].
  - destruct (is_continuation a); [|done].
    destruct (continuations n (c +:+ r)) as [[ok x] y] eqn:E. intros [= -> -> ->]. by rewrite (IH c).
Qed.

Lemma continuations_part n p q r :
  continuations n ((p +:+ q) +:+ r) = (true, p +:+ q, r) → q ≠ "" → continuations n p = (false, p, "").
Proof.
  revert p. induction n as [|n IH]; intros [|a p]; simpl; try done.
  - destruct q; [done|]. by rewrite str_app_nil_l.
  - destruct (is_continuation a); [|done].
    destruct (continuations n ((p +:+ q) +:+ r)) as [[ok x] y] eqn:E. intros [= -> -> ->] Hq.
    by rewrite (IH p).
Qed.

Lemma utf8_step_spec a s (ok : bool) c r :
  utf8_step a s = (ok, c, r) →
  String a s = c +:+ r ∧ 1 ≤ String.length c ∧ String.length r ≤ String.length s ∧
  String.length c ≤ 4 ∧ (ok = false → String.length c ≤ 3).
Proof.
  unfold utf8_step. assert (char_width a ≤ 4) as Hw by (unfold char_width; repeat case_match; lia).
  destruct (char_width a) as [|[|n]]; [intros [= <- <- <-]; simpl; split_and!; (done || lia)..|].
  destruct s as [|a2 s]; [intros [= <- <- <-]; simpl; split_and!; (done || lia)|].
  destruct (second_ok a a2); [|intros [= <- <- <-]; simpl; split_and!; (done || lia)].
  destruct (continuations n s) as [[ok' c'] r'] eqn:E. intros [= <- <- <-].
  destruct (continuations_spec _ _ _ _ _ E) as (-> & H1 & H2 & H3). simpl. rewrite str_length_app.
  split_and!; try done; try lia. intros ->. specialize (H3 eq_refl). lia.
Qed.

(** A well-formed character is read back whatever follows it. *)
Lemma utf8_step_app a c r r' :
  utf8_step a (c +:+ r) = (true, String a c, r) → utf8_step a (c +:+ r') = (true, String a c, r').
Proof.
  unfold utf8_step. destruct (char_width a) as [|[|n]].
  - done.
  - intros [= <- _]. done.
  - destruct c as [|a2 c]; simpl.
    + destruct r as [|b r]; [done|]. rewrite str_app_nil_l. destruct (second_ok a b); [|done].
      by destruct (continuations n r) as [[ok x] y].
    + destruct (second_ok a a2); [|done]. destruct (continuations n (c +:+ r)) as [[ok x] y] eqn:E.
      intros [= -> -> ->]. by rewrite (continuations_app n c r r').
Qed.

(** A character cut short is one ill-formed part. *)
Lemma utf8_step_part a p q r :
  utf8_step a ((p +:+ q) +:+ r) = (true, String a (p +:+ q), r) → q ≠ "" →
  utf8_step a p = (false, String a p, "").
Proof.
  unfold utf8_step. destruct (char_width a) as [|[|n]].
  - done.
  - intros [= E _] Hq. by symmetry in E; apply str_app_eq_nil in E as [_ ?].
  - destruct p as [|a2 p]; [done|]. simpl. destruct (second_ok a a2); [|done].
    destruct (continuations n ((p +:+ q) +:+ r)) as [[ok x] y] eqn:E. intros [= -> -> ->] Hq.
    by rewrite (continuations_part n p q r).
Qed.

Lemma utf8_parts_enough n m s :
  String.length s ≤ n → String.length s ≤ m → utf8_parts n s = utf8_parts m s.
Proof.
  revert m s. induction n as [|n IH]; intros [|m] [|a s] Hn Hm; simpl in Hn, Hm; try done; try lia.
  cbn [utf8_parts]. destruct (utf8_step a s) as [[ok c] r] eqn:E.
  apply utf8_step_spec in E as (_ & _ & Hr & _). f_equal. apply IH; lia.
Qed.

Lemma parts_cons a s : parts (String a s) = let '(ok, c, r) := utf8_step a s in (ok, c) :: parts r.
Proof.
  unfold parts at 1. cbn [String.length utf8_parts]. destruct (utf8_step a s) as [[ok c] r] eqn:E.
  apply utf8_step_spec in E as (_ & _ & Hr & _). f_equal. by apply utf8_parts_enough.
Qed.

(** The parts by induction: one, then those of the rest. *)
Lemma parts_ind (P : string → Prop) :
  P "" → (∀ a s ok c r, utf8_step a s = (ok, c, r) → P r → P (String a s)) → ∀ s, P s.
Proof.
  intros H0 HS s. remember (String.length s) as n eqn:Hn. revert s Hn.
  induction (lt_wf n) as [n _ IH]. intros [|a s] ->; [done|].
  destruct (utf8_step a s) as [[ok c] r] eqn:E. eapply HS; [done|].
  apply utf8_step_spec in E as (_ & _ & Hr & _). eapply IH; [|done]. simpl. lia.
Qed.

(** A character in front of a text. *)
Lemma parts_char c s : parts c = [(true, c)] → parts (c +:+ s) = (true, c) :: parts s.
Proof.
  destruct c as [|a c]; [done|]. rewrite str_app_cons, !parts_cons.
  destruct (utf8_step a c) as [[ok x] r] eqn:E. intros [= -> -> Er].
  assert (r = "") as ->.
  { destruct r as [|b r]; [done|]. rewrite parts_cons in Er. by destruct (utf8_step b r) as [[??]?]. }
  rewrite <-(str_app_nil_r c) in E at 1. apply (utf8_step_app a c "" s) in E. by rewrite E.
Qed.

Lemma part_alone a s c r : utf8_step a s = (true, c, r) → parts c = [(true, c)].
Proof.
  intros E. destruct (utf8_step_spec _ _ _ _ _ E) as (Es & Hc & _). destruct c as [|b c]; [simpl in Hc; lia|].
  rewrite str_app_cons in Es. injection Es as <- ->. apply (utf8_step_app a c r "") in E.
  rewrite str_app_nil_r in E. by rewrite parts_cons, E.
Qed.

Lemma replacement_part : parts replacement_character = [(true, replacement_character)].
Proof. by vm_compute. Qed.

Lemma lossy_cons a s (ok : bool) c r :
  utf8_step a s = (ok, c, r) →
  from_utf8_lossy (String a s) = (if ok then c else replacement_character) +:+ from_utf8_lossy r.
Proof. intros E. unfold from_utf8_lossy. by rewrite parts_cons, E. Qed.

Lemma is_utf8_cons a s (ok : bool) c r : utf8_step a s = (ok, c, r) → is_utf8 (String a s) = ok && is_utf8 r.
Proof. intros E. unfold is_utf8. by rewrite parts_cons, E. Qed.

(** Text is left as it is. *)
Lemma lossy_utf8 s : is_utf8 s = true → from_utf8_lossy s = s.
Proof.
  induction s as [|a s ok c r E IH] using parts_ind; [done|].
  rewrite (is_utf8_cons _ _ _ _ _ E), (lossy_cons _ _ _ _ _ E). intros [-> Hr]%andb_true_iff.
  rewrite IH by done. apply utf8_step_spec in E as (-> & _). done.
Qed.

(** What the lossy decoding gives is text. *)
Lemma lossy_is_utf8 s : is_utf8 (from_utf8_lossy s) = true.
Proof.
  induction s as [|a s ok c r E IH] using parts_ind; [done|]. rewrite (lossy_cons _ _ _ _ _ E).
  assert (parts (if ok then c else replacement_character) = [(true, if ok then c else replacement_character)]) as Hp
    by (destruct ok; [by eapply part_alone|exact replacement_part]).
  unfold is_utf8. by rewrite (parts_char _ _ Hp).
Qed.

(** It gives at most three bytes for each. *)
Lemma lossy_length s : String.length (from_utf8_lossy s) ≤ 3 * String.length s.
Proof.
  induction s as [|a s ok c r E IH] using parts_ind; [done|]. rewrite (lossy_cons _ _ _ _ _ E), str_length_app.
  apply utf8_step_spec in E as (Es & Hc & _). apply (f_equal String.length) in Es.
  rewrite str_length_app in Es. rewrite Es.
  assert (String.length (if ok then c else replacement_character) ≤ 3 * String.length c)
    by (destruct ok; [|assert (String.length replacement_character = 3) as -> by by vm_compute]; lia). lia.
Qed.

(** ** Text cut at a byte *)

(** The first [n] bytes. *)
Definition cut (n : nat) (s : string) : string := String.substring 0 n s.

Lemma cut_nil n : cut n "" = "".
Proof. by destruct n. Qed.

Lemma cut_all n s : String.length s ≤ n → cut n s = s.
Proof.
  unfold cut. revert n. induction s as [|a s IH]; intros [|n] H; simpl in *; try done; [lia|].
  f_equal. apply IH. lia.
Qed.

Lemma cut_length n s : String.length (cut n s) = Nat.min n (String.length s).
Proof.
  unfold cut. revert n. induction s as [|a s IH]; intros [|n]; simpl; try done. by rewrite IH.
Qed.

Lemma cut_prefix n s : ∃ q, s = cut n s +:+ q ∧ (n < String.length s → q ≠ "").
Proof.
  unfold cut. revert n. induction s as [|a s IH]; intros [|n]; simpl.
  - exists "". split; [done|lia].
  - exists "". split; [done|lia].
  - exists (String a s). by rewrite str_app_nil_l.
  - destruct (IH n) as (q & E & Hq). exists q. rewrite str_app_cons, <-E. split; [done|]. intros H. apply Hq. lia.
Qed.

Lemma cut_app_r n c s : String.length c ≤ n → cut n (c +:+ s) = c +:+ cut (n - String.length c) s.
Proof.
  revert n. induction c as [|a c IH]; intros n H; simpl in *; [by rewrite str_app_nil_l, Nat.sub_0_r|].
  destruct n as [|n]; [lia|]. rewrite str_app_cons. unfold cut in *. simpl. by rewrite IH by lia.
Qed.

Lemma cut_app_l n c s : n ≤ String.length c → cut n (c +:+ s) = cut n c.
Proof.
  unfold cut. revert n. induction c as [|a c IH]; intros [|n] H; simpl in *; try done; [by destruct s|lia|].
  by rewrite IH by lia.
Qed.

Lemma lossy_char c s : parts c = [(true, c)] → from_utf8_lossy (c +:+ s) = c +:+ from_utf8_lossy s.
Proof. intros H. unfold from_utf8_lossy. by rewrite parts_char. Qed.

(** Text cut at a byte decodes to the characters that are whole before the cut,
    followed by one U+FFFD when the cut is inside a character. *)
Lemma lossy_cut n s :
  is_utf8 s = true →
  ∃ p q, s = p +:+ q ∧ is_utf8 p = true ∧ String.length p ≤ n ∧
    Nat.min n (String.length s) ≤ String.length p + 3 ∧
    from_utf8_lossy (cut n s) = if n <? String.length s then if String.length p <? n then p +:+ replacement_character else p else s.
Proof.
  revert n. induction s as [|a s ok c r E IH] using parts_ind; intros n.
  { exists "", "". rewrite cut_nil. simpl. split_and!; (done || lia). }
  rewrite (is_utf8_cons _ _ _ _ _ E). intros [-> Hr]%andb_true_iff.
  pose proof (part_alone _ _ _ _ E) as Hc. destruct (utf8_step_spec _ _ _ _ _ E) as (Es & H1 & _ & H4 & _).
  rewrite Es, str_length_app. destruct (Nat.ltb_spec n (String.length c)) as [Hn|Hn].
  - exists "", (c +:+ r). rewrite cut_app_l by lia. simpl. split_and!; [done..|lia|lia|].
    rewrite (proj2 (Nat.ltb_lt n _)) by lia. destruct n as [|n]; [by destruct c|]. simpl.
    destruct c as [|b c]; [done|]. simpl in Hn. rewrite str_app_cons in Es. injection Es as <- ->.
    destruct (cut_prefix n c) as (q & Ec & Hq). change (cut (S n) (String a c)) with (String a (cut n c)).
    assert (utf8_step a (cut n c) = (false, String a (cut n c), "")) as Ep.
    { apply (utf8_step_part a (cut n c) q r); [by rewrite <-Ec|]. apply Hq. lia. }
    by rewrite (lossy_cons _ _ _ _ _ Ep).
  - destruct (IH (n - String.length c) Hr) as (p & q & Er & Hp & Hl & Hm & El).
    exists (c +:+ p), q. rewrite cut_app_r by lia. rewrite (lossy_char _ _ Hc), El, str_length_app.
    split_and!; [by rewrite str_app_assoc, <-Er|unfold is_utf8; by rewrite (parts_char _ _ Hc)|lia|lia|].
    destruct (Nat.ltb_spec (n - String.length c) (String.length r)),
      (Nat.ltb_spec n (String.length c + String.length r)); try lia; [|done].
    destruct (Nat.ltb_spec (String.length p) (n - String.length c)),
      (Nat.ltb_spec (String.length c + String.length p) n); try lia; [by rewrite str_app_assoc|done].
Qed.
