(* ===== verification/Pump.v ===== *)
(** * Pump: a worker's stdout as lines ([src/worker_session.rs])

    [pump_worker_lines] reads a worker's output and forwards it line by line,
    at most [MAX_LINE_LENGTH] bytes of each: the rest of an over-long line is
    skipped without being kept.  What is forwarded is the text
    [decode_worker_line] makes of those bytes ([Utf8]).  A stream is its bytes
    and whether it ends in a read error.  [read_until] and [skip_until] are the
    [BufRead] methods, with the [take] bound.  A receiver that goes away is not
    modelled (the drain then gets a prefix of the lines). *)
From Stdlib Require Import Ascii.
From S2P Require Import Prelude Text Utf8.

(** 10 MiB. *)
Definition MAX_LINE_LENGTH : N := 10 * 1024 * 1024.

Definition newline_byte : ascii := ascii_of_nat 10.
Definition is_newline (a : ascii) : bool := Ascii.eqb a newline_byte.

Record stream := mk_stream { bytes : string; fails : bool }.

(** [take(cap).read_until(b'\n', buf)]: the bytes read, the bytes left and
    whether the end of the stream was met before a newline or the cap. *)
Fixpoint read_bytes (cap : nat) (s : string) : string * string * bool :=
  match cap with
  | 0 => ("", s, false)
  | S cap' =>
      match s with
      | "" => ("", "", true)
      | String a s' =>
          if is_newline a then (String a "", s', false)
          else let '(x, y, e) := read_bytes cap' s' in (String a x, y, e)
      end
  end.

(** An error met while reading loses the bytes read before it. *)
Definition read_until (cap : nat) (s : stream) : option (string * stream) :=
  let '(buf, rest, ended) := read_bytes cap (bytes s) in
  if ended && fails s then None else Some (buf, mk_stream rest (fails s)).

Fixpoint skip_bytes (s : string) : string * bool :=
  match s with
  | "" => ("", true)
  | String a s' => if is_newline a then (s', false) else skip_bytes s'
  end.

Definition skip_until (s : stream) : option stream :=
  let '(rest, ended) := skip_bytes (bytes s) in
  if ended && fails s then None else Some (mk_stream rest (fails s)).

Fixpoint ends_in_newline (s : string) : bool :=
  match s with
  | "" => false
  | String a "" => is_newline a
  | String _ s' => ends_in_newline s'
  end.

(** The two arms of the code: text as it is, anything else with its ill-formed
    parts replaced. *)
Definition decode_worker_line (raw : string) : string :=
  if is_utf8 raw then raw else from_utf8_lossy raw.

(** The loop; every turn consumes a byte, so the length is enough fuel. *)
Fixpoint pump_loop (fuel cap : nat) (s : stream) : list string :=
  match fuel with
  | 0 => []
  | S fuel' =>
      match read_until cap s with
      | None => []
      | Some (buf, s') =>
          if String.eqb buf "" then []
          else
            let over_long := (cap <=? String.length buf) && negb (ends_in_newline buf) in
            decode_worker_line buf ::
              (if over_long
               then match skip_until s' with
                    | None => []
                    | Some s'' => pump_loop fuel' cap s''
                    end
               else pump_loop fuel' cap s')
      end
  end.

Definition pump_worker_lines (cap : nat) (s : stream) : list string :=
  pump_loop (S (String.length (bytes s))) cap s.

(** * Theorems *)

(** The logical lines of the output, each with its newline. *)
Fixpoint first_line (s : string) : string * string :=
  match s with
  | "" => ("", "")
  | String a s' =>
      if is_newline a then (String a "", s')
      else let '(x, y) := first_line s' in (String a x, y)
  end.

Fixpoint lines_fuel (fuel : nat) (s : string) : list string :=
  match fuel, s with
  | S fuel', String _ _ => let '(x, y) := first_line s in x :: lines_fuel fuel' y
  | _, _ => []
  end.

Definition lines (s : string) : list string := lines_fuel (String.length s) s.

Lemma first_line_app s : s = (first_line s).1 +:+ (first_line s).2.
Proof.
  induction s as [|a s IH]; simpl; [done|]. destruct (is_newline a); [done|].
  destruct (first_line s) as [x y]. simpl in *. by rewrite str_app_cons, <-IH.
Qed.

Lemma first_line_shorter s : s ≠ "" → String.length (first_line s).2 < String.length s.
Proof.
  intros Hs. assert (∀ t, String.length (first_line t).2 ≤ String.length t) as Hle.
  { induction t as [|a t IH]; simpl; [lia|]. destruct (is_newline a); simpl; [lia|].
    destruct (first_line t). simpl in *. lia. }
  destruct s as [|a s]; [done|]. simpl. destruct (is_newline a); simpl; [lia|].
  specialize (Hle s). destruct (first_line s). simpl in *. lia.
Qed.

Lemma ends_cons a s : s ≠ "" → ends_in_newline (String a s) = ends_in_newline s.
Proof. by destruct s. Qed.

Lemma skip_bytes_line s :
  skip_bytes s = ((first_line s).2, negb (ends_in_newline (first_line s).1)).
Proof.
  induction s as [|a s IH]; simpl; [done|]. destruct (is_newline a) eqn:Ha; simpl; [by rewrite Ha|].
  rewrite IH. destruct (first_line s) as [x y] eqn:E. simpl. f_equal.
  destruct x as [|b x]; [by rewrite Ha|]. done.
Qed.

(** One bounded read takes the first [cap] bytes of the first line; what it
    leaves, and the end it meets, are those of the line unless the cap cut it. *)
Lemma read_bytes_line cap s :
  let '(line, next) := first_line s in
  if String.length line <? cap
  then read_bytes cap s = (line, next, negb (ends_in_newline line))
  else ∃ tail, line = cut cap line +:+ tail ∧ String.length (cut cap line) = cap ∧
       read_bytes cap s = (cut cap line, tail +:+ next, false).
Proof.
  revert s. induction cap as [|cap IH]; intros s.
  { pose proof (first_line_app s) as Hs. destruct (first_line s) as [line next]. simpl in *.
    exists line. assert (cut 0 line = "") as -> by (by destruct line).
    by rewrite str_app_nil_l, <-Hs. }
  destruct s as [|a s]; simpl; [done|]. destruct (is_newline a) eqn:Ha.
  - simpl. destruct (Nat.ltb_spec 1 (S cap)); [by rewrite Ha|].
    assert (cap = 0) as -> by lia. by exists "".
  - specialize (IH s). destruct (first_line s) as [line next]. simpl.
    change (S (String.length line) <? S cap) with (String.length line <? cap).
    destruct (Nat.ltb_spec (String.length line) cap).
    + rewrite IH. f_equal. f_equal. destruct line; simpl; [by rewrite Ha|done].
    + destruct IH as (tail & E1 & E2 & ->). exists tail. split_and!; [|by f_equal|done].
      change (String a line = String a (cut cap line +:+ tail)). by rewrite <-E1.
Qed.

Lemma first_line_cons a s line next :
  first_line (String a s) = (line, next) →
  if is_newline a then line = String a "" ∧ next = s
  else ∃ line', line = String a line' ∧ first_line s = (line', next).
Proof.
  simpl. destruct (is_newline a); [by intros [= <- <-]|].
  destruct (first_line s) as [x y]. intros [= <- <-]. eauto.
Qed.

(** A newline ends its line. *)
Lemma newline_is_last s pre tail next :
  first_line s = (pre +:+ tail, next) → ends_in_newline pre = true → tail = "".
Proof.
  revert s. induction pre as [|b pre IH]; intros [|a s] H Hp; try done; simpl in H.
  apply first_line_cons in H. destruct (is_newline a) eqn:Ha.
  - destruct H as [[= -> E] _]. by apply str_app_eq_nil in E as [_ ?].
  - destruct H as (l & [= -> <-] & H). destruct pre as [|c pre]; [simpl in Hp; congruence|].
    by apply (IH s).
Qed.

(** Skipping from inside a line reaches the next one. *)
Lemma skip_after s pre tail next :
  first_line s = (pre +:+ tail, next) → ends_in_newline pre = false →
  skip_bytes (tail +:+ next) = (next, negb (ends_in_newline (pre +:+ tail))).
Proof.
  revert s. induction pre as [|b pre IH]; intros s H Hp.
  { rewrite str_app_nil_l in *. pose proof (first_line_app s) as E. rewrite H in E. simpl in E.
    rewrite <-E, skip_bytes_line, H. done. }
  destruct s as [|a s]; [done|]. apply first_line_cons in H. destruct (is_newline a) eqn:Ha.
  - destruct H as [[= -> E] _]. apply str_app_eq_nil in E as [-> ->]. simpl in Hp. congruence.
  - destruct H as (l & [= -> <-] & H). rewrite (IH s H).
    + do 2 f_equal. rewrite str_app_cons. destruct (pre +:+ tail); simpl; congruence.
    + destruct pre; [done|]. done.
Qed.

Lemma unterminated_is_last s : ends_in_newline (first_line s).1 = false → (first_line s).2 = "".
Proof.
  induction s as [|a s IH]; simpl; [done|]. destruct (is_newline a) eqn:Ha; simpl; [congruence|].
  destruct (first_line s) as [x y]. simpl in *. destruct x; simpl; auto.
Qed.

Lemma lines_fuel_enough n m s :
  String.length s ≤ n → String.length s ≤ m → lines_fuel n s = lines_fuel m s.
Proof.
  revert m s. induction n as [|n IH]; intros [|m] [|a s] Hn Hm; simpl in Hn, Hm; try done; try lia.
  cbn [lines_fuel]. pose proof (first_line_shorter (String a s) ltac:(done)) as Hs.
  destruct (first_line (String a s)) as [x y]. simpl in Hs. f_equal. apply IH; lia.
Qed.

Lemma lines_step s : s ≠ "" → lines s = (first_line s).1 :: lines (first_line s).2.
Proof.
  intros Hs. pose proof (first_line_shorter s Hs) as Hl. unfold lines at 1.
  destruct s as [|a s]; [done|]. simpl String.length. cbn [lines_fuel].
  destruct (first_line (String a s)) as [x y]. simpl in Hl. f_equal.
  apply lines_fuel_enough; simpl; lia.
Qed.

(** Which lines survive a stream that may end in an error: those with a newline
    or long enough to fill the cap. *)
Definition forwarded (cap : nat) (failed : bool) (line : string) : bool :=
  negb failed || ends_in_newline line || (cap <=? String.length line).

Lemma pump_loop_lines cap f fuel s :
  0 < cap → String.length s < fuel →
  pump_loop fuel cap (mk_stream s f) =
    map (λ line, decode_worker_line (cut cap line)) (List.filter (forwarded cap f) (lines s)).
Proof.
  intros Hcap. revert s. induction fuel as [|fuel IH]; intros s Hf; [lia|]. cbn [pump_loop].
  unfold read_until. cbn [bytes fails]. destruct (decide (s = "")) as [->|Hne].
  { destruct cap; [lia|]. by destruct f. }
  pose proof (read_bytes_line cap s) as Hr. pose proof (first_line_shorter s Hne) as Hsh.
  pose proof (unterminated_is_last s) as Hu. rewrite (lines_step s Hne).
  pose proof (newline_is_last s) as Hnl. pose proof (skip_after s) as Hsk.
  pose proof (first_line_app s) as Happ. destruct (first_line s) as [line next]. simpl in Hsh, Hu, Happ.
  assert (line ≠ "") as Hl by (intros ->; rewrite Happ, str_app_nil_l in Hsh; lia).
  cbn [List.filter fst snd]. unfold forwarded at 1. cbn [fails].
  destruct (Nat.ltb_spec (String.length line) cap) as [Hlt|Hge].
  - rewrite Hr. assert ((cap <=? String.length line) = false) as El by (apply Nat.leb_gt; lia).
    assert (String.eqb line "" = false) as Hlb by (by apply String.eqb_neq).
    rewrite El, orb_false_r.
    destruct (ends_in_newline line) eqn:He; cbn [negb andb].
    + rewrite orb_true_r, Hlb, El. cbn [andb map]. rewrite cut_all by lia. f_equal. apply IH. lia.
    + rewrite (Hu eq_refl) in *. rewrite orb_false_r. destruct f; cbn [negb]; [done|].
      rewrite Hlb, El. cbn [andb map]. rewrite cut_all by lia. f_equal. apply IH. simpl. lia.
  - destruct Hr as (tail & Ht & Hc & ->).
    rewrite (proj2 (Nat.leb_le cap (String.length line))) by lia. rewrite orb_true_r.
    cbn [andb].
    destruct (String.eqb_spec (cut cap line) "") as [E|_]; [rewrite E in Hc; simpl in Hc; lia|].
    rewrite Hc, Nat.leb_refl. cbn [map andb]. f_equal.
    destruct (ends_in_newline (cut cap line)) eqn:He; simpl.
    + rewrite (Hnl (cut cap line) tail next); [rewrite str_app_nil_l; apply IH; lia|by rewrite <-Ht|done].
    + unfold skip_until. cbn [bytes fails].
      rewrite (Hsk (cut cap line) tail next); [|by rewrite <-Ht|done]. rewrite <-Ht.
      destruct (ends_in_newline line) eqn:Hel; simpl; [apply IH; lia|].
      rewrite (Hu eq_refl) in *. destruct f; [done|]. apply IH. simpl. lia.
Qed.

Lemma decode_is_utf8 raw : is_utf8 (decode_worker_line raw) = true.
Proof. unfold decode_worker_line. destruct (is_utf8 raw) eqn:E; [done|apply lossy_is_utf8]. Qed.

Lemma decode_lossy raw : decode_worker_line raw = from_utf8_lossy raw.
Proof. unfold decode_worker_line. destruct (is_utf8 raw) eqn:E; [by rewrite lossy_utf8|done]. Qed.

(** C33: The coordinator sees a worker's output line by line, in order: of each
    line the first [cap] bytes, decoded, and nothing of the rest; so a line is
    never split into several and an over-long one never swallows the next.
    Whatever the bytes are, what arrives is UTF-8, at most three bytes for each
    byte of the cap; lines of text within the cap arrive as they are; and of a
    longer line of text arrive the characters that are whole within the cap,
    all but at most three of its bytes, followed by U+FFFD exactly when the cap
    cuts a character.  When the stream ends in a read error, only an unfinished
    last line shorter than the cap is lost. *)
Theorem pump_forwards_each_line_once cap s :
  0 < cap →
  pump_worker_lines cap s =
    map (λ line, decode_worker_line (cut cap line)) (List.filter (forwarded cap (fails s)) (lines (bytes s))) ∧
  Forall (λ l, is_utf8 l = true ∧ String.length l ≤ 3 * cap) (pump_worker_lines cap s) ∧
  (fails s = false → length (pump_worker_lines cap s) = length (lines (bytes s)) ∧
     (Forall (λ l, String.length l ≤ cap ∧ is_utf8 l = true) (lines (bytes s)) →
      pump_worker_lines cap s = lines (bytes s))) ∧
  (∀ line, line ∈ lines (bytes s) → is_utf8 line = true → cap < String.length line →
     ∃ p q, line = p +:+ q ∧ is_utf8 p = true ∧ String.length p ≤ cap ≤ String.length p + 3 ∧
       decode_worker_line (cut cap line) = if String.length p <? cap then p +:+ replacement_character else p).
Proof.
  intros Hcap. destruct s as [s f]. unfold pump_worker_lines. cbn [bytes].
  rewrite pump_loop_lines by (done || lia). split_and!; [done|..].
  - apply Forall_forall. intros l (x & _ & <-)%map_elem. split; [apply decode_is_utf8|].
    rewrite decode_lossy. pose proof (lossy_length (cut cap x)). rewrite cut_length in *. lia.
  - cbn [fails]. intros ->. assert (∀ l, List.filter (forwarded cap false) l = l) as ->.
    { intros l. induction l as [|x l IH]; simpl; [done|]. by rewrite IH. }
    split; [by rewrite length_map|]. intros Hall. induction Hall as [|x l [Hx Hu] _ IH]; simpl; [done|].
    rewrite IH, cut_all by done. unfold decode_worker_line. by rewrite Hu.
  - intros line _ Hu Hl. destruct (lossy_cut cap line Hu) as (p & q & E & Hp & H1 & H2 & Ed).
    exists p, q. rewrite decode_lossy, Ed, (proj2 (Nat.ltb_lt _ _) Hl). split_and!; try done. lia.
Qed.

(** A line cut inside a character, one with a byte that is no text, and one as it is. *)
Definition demo_output : stream :=
  mk_stream ("abc" +:+ encode_utf8 233 +:+ "xyz" +:+ String newline_byte
    ("a" +:+ String (ascii_of_nat 255) (String newline_byte "hi"))) false.

Lemma pump_forwards_each_line_once_witness :
  pump_worker_lines 4 demo_output =
    ["abc" +:+ replacement_character; "a" +:+ replacement_character +:+ String newline_byte ""; "hi"] ∧
  length (pump_worker_lines 4 demo_output) = 3 ∧
  Forall (λ l, is_utf8 l = true ∧ String.length l ≤ 12) (pump_worker_lines 4 demo_output).
Proof.
  split; [vm_compute; reflexivity|].
  destruct (pump_forwards_each_line_once 4 demo_output) as (_ & H & H' & _); [lia|].
  split; [|exact H]. destruct (H' eq_refl) as [-> _]. vm_compute. reflexivity.
Defined.
