(* ===== verification/EditDistance.v ===== *)
(** * EditDistance: suggestions for misspelled names ([src/edit_distance.rs])

    [edit_distance] is the two-row dynamic program, [closest_match] the scan for
    the best candidate.  The two vectors are lists; every cell of [curr] is
    written before it is read, so a row is a function of the previous one.  The
    specification is by edit scripts: insertions, deletions and substitutions of
    one character. *)
From S2P Require Import Prelude Text.

(** The cells [curr[1..=m]] for one character [y] of the longer string; [left]
    is [curr[i - 1]]. *)
Fixpoint row_cells (a : list char) (y : char) (prev : list nat) (left : nat) : list nat :=
  match a, prev with
  | x :: a', p0 :: (p1 :: _) as prev' =>
      let v := if (x =? y)%N then p0 else 1 + Nat.min (Nat.min p0 p1) left in
      v :: row_cells a' y (tail prev) v
  | _, _ => []
  end.

Definition next_row (a : list char) (j : nat) (y : char) (prev : list nat) : list nat :=
  j :: row_cells a y prev j.

(** The loop over [j in 1..=n]. *)
Fixpoint rows (a b : list char) (j : nat) (prev : list nat) : list nat :=
  match b with
  | [] => prev
  | y :: b' => rows a b' (S j) (next_row a j y prev)
  end.

Definition distance (a b : list char) : nat :=
  let '(a, b) := if length a <=? length b then (a, b) else (b, a) in
  default 0 (last (rows a b 1 (seq 0 (S (length a))))).

Definition edit_distance (a b : string) : nat := distance (chars a) (chars b).

Definition closer (name : string) (max_distance : nat) (best : option (string * nat))
    (candidate : string) : option (string * nat) :=
  let d := edit_distance name candidate in
  if d <=? max_distance then
    match best with
    | None => Some (candidate, d)
    | Some (_, best_d) => if d <? best_d then Some (candidate, d) else best
    end
  else best.

Definition closest_match (name : string) (candidates : list string) (max_distance : nat)
    : option string :=
  fst <$> fold_left (closer name max_distance) candidates None.

(** * Theorems *)

(** An edit script from one text to another, and its cost. *)
Inductive edits : list char → list char → nat → Prop :=
  | edits_nil : edits [] [] 0
  | edits_keep x a b n : edits a b n → edits (x :: a) (x :: b) n
  | edits_subst x y a b n : edits a b n → edits (x :: a) (y :: b) (S n)
  | edits_delete x a b n : edits a b n → edits (x :: a) b (S n)
  | edits_insert y a b n : edits a b n → edits a (y :: b) (S n).

(** The recursive reference. *)
Fixpoint lev (a : list char) : list char → nat :=
  match a with
  | [] => length
  | x :: a' =>
      fix lev_a (b : list char) : nat :=
        match b with
        | [] => S (length a')
        | y :: b' =>
            if (x =? y)%N then lev a' b' else S (Nat.min (Nat.min (lev a' b') (lev_a b')) (lev a' b))
        end
  end.

Lemma lev_cons x y a b :
  lev (x :: a) (y :: b) =
    if (x =? y)%N then lev a b else S (Nat.min (Nat.min (lev a b) (lev (x :: a) b)) (lev a (y :: b))).
Proof. done. Qed.

Lemma lev_nil_r a : lev a [] = length a.
Proof. by destruct a. Qed.

Lemma lev_sym a b : lev a b = lev b a.
Proof.
  revert b. induction a as [|x a IHa]; intros b; [by rewrite lev_nil_r|].
  induction b as [|y b IHb]; [done|]. rewrite !lev_cons, N.eqb_sym, IHa, IHb, (IHa (y :: b)).
  destruct (N.eqb_spec y x); [done|]. f_equal. lia.
Qed.

(** Dropping or adding a character moves the distance by at most one. *)
Lemma lev_step a b x : lev a b ≤ S (lev (x :: a) b) ∧ lev (x :: a) b ≤ S (lev a b).
Proof.
  revert a x. induction b as [|y b IHb]; intros a x.
  { rewrite !lev_nil_r. simpl. lia. }
  assert (Hr : lev (x :: a) b ≤ S (lev a b)) by apply IHb.
  assert (Hab : lev a b ≤ S (lev a (y :: b)) ∧ lev a (y :: b) ≤ S (lev a b)).
  { clear Hr. induction a as [|x' a IHa]; [simpl; lia|]. rewrite lev_cons.
    pose proof (IHb a x'). destruct (N.eqb_spec x' y); lia. }
  pose proof (IHb a x).
  rewrite lev_cons. destruct (N.eqb_spec x y); [|lia]. lia.
Qed.

Lemma edits_length a b n : edits a b n → length b ≤ length a + n ∧ length a ≤ length b + n.
Proof. induction 1; simpl; lia. Qed.

Lemma edits_refl_del a : edits a [] (length a).
Proof. induction a; simpl; constructor; done. Qed.

Lemma edits_refl_ins b : edits [] b (length b).
Proof. induction b; simpl; constructor; done. Qed.

(** [lev] is the cost of a script, and of no cheaper one. *)
Lemma lev_script a b : edits a b (lev a b).
Proof.
  revert b. induction a as [|x a IHa]; intros b; [apply edits_refl_ins|].
  induction b as [|y b IHb]; [apply edits_refl_del|]. rewrite lev_cons.
  destruct (N.eqb_spec x y) as [->|]; [by constructor|].
  destruct (Nat.min_spec (Nat.min (lev a b) (lev (x :: a) b)) (lev a (y :: b))) as [[_ ->]|[_ ->]].
  - destruct (Nat.min_spec (lev a b) (lev (x :: a) b)) as [[_ ->]|[_ ->]];
      [by apply edits_subst|by apply edits_insert].
  - by apply edits_delete.
Qed.

Lemma lev_least a b n : edits a b n → lev a b ≤ n.
Proof.
  induction 1 as [|x a b n _ IH|x y a b n _ IH|x a b n _ IH|y a b n _ IH].
  - done.
  - rewrite lev_cons, N.eqb_refl. done.
  - rewrite lev_cons. destruct (_ =? _)%N; lia.
  - pose proof (proj2 (lev_step a b x)). lia.
  - pose proof (proj2 (lev_step b a y)) as H. rewrite (lev_sym (y :: b)), (lev_sym b) in H. lia.
Qed.

Lemma edits_app a b n a' b' n' : edits a b n → edits a' b' n' → edits (a ++ a') (b ++ b') (n + n').
Proof. induction 1; intros; simpl; try constructor; auto. Qed.

Lemma edits_reverse a b n : edits a b n → edits (reverse a) (reverse b) n.
Proof.
  induction 1 as [|x a b n _ IH|x y a b n _ IH|x a b n _ IH|y a b n _ IH]; [constructor|..];
    rewrite ?reverse_cons.
  - rewrite <-(Nat.add_0_r n). apply edits_app; [done|]. repeat constructor.
  - rewrite <-Nat.add_1_r. apply edits_app; [done|]. repeat constructor.
  - rewrite <-Nat.add_1_r, <-(app_nil_r (reverse b)). apply edits_app; [done|]. repeat constructor.
  - rewrite <-Nat.add_1_r, <-(app_nil_r (reverse a)). apply edits_app; [done|]. repeat constructor.
Qed.

Lemma lev_reverse a b : lev (reverse a) (reverse b) = lev a b.
Proof.
  apply Nat.le_antisymm; apply lev_least.
  - apply edits_reverse, lev_script.
  - pose proof (edits_reverse _ _ _ (lev_script (reverse a) (reverse b))) as H.
    by rewrite !reverse_involutive in H.
Qed.

(** The row after the prefix [seen] of the longer text: cell [i] is the distance
    of the first [i] characters; [pre] is what was consumed of [a], reversed. *)
Fixpoint row_of (pre a : list char) (seen : list char) : list nat :=
  lev pre seen :: match a with [] => [] | x :: a' => row_of (x :: pre) a' seen end.

Lemma row_of_head pre a seen : ∃ l, row_of pre a seen = lev pre seen :: l.
Proof. destruct a; simpl; eauto. Qed.

Lemma row_cells_of pre a seen y :
  lev pre (y :: seen) :: row_cells a y (row_of pre a seen) (lev pre (y :: seen))
  = row_of pre a (y :: seen).
Proof.
  revert pre. induction a as [|x a IH]; intros pre; [done|]. cbn [row_of row_cells].
  destruct (row_of_head (x :: pre) a seen) as [l Hl]. rewrite Hl. cbn [tail]. rewrite <-Hl.
  f_equal. rewrite <-IH. rewrite (lev_cons x y pre seen).
  replace (if (x =? y)%N then lev pre seen
    else 1 + Nat.min (Nat.min (lev pre seen) (lev (x :: pre) seen)) (lev pre (y :: seen)))
    with (if (x =? y)%N then lev pre seen
    else S (Nat.min (Nat.min (lev pre seen) (lev (x :: pre) seen)) (lev pre (y :: seen)))) by done.
  done.
Qed.

Lemma rows_of a b j seen :
  j = S (length seen) → rows a b j (row_of [] a seen) = row_of [] a (reverse b ++ seen).
Proof.
  revert j seen. induction b as [|y b IH]; intros j seen ->; simpl; [done|].
  unfold next_row. change (S (length seen)) with (lev [] (y :: seen)) at 1 2.
  rewrite row_cells_of, reverse_cons, <-(assoc_L (++)). by apply IH.
Qed.

Lemma row_of_start pre a : row_of pre a [] = seq (length pre) (S (length a)).
Proof.
  revert pre. induction a as [|x a IH]; intros pre; simpl; rewrite lev_nil_r; [done|].
  f_equal. apply (IH (x :: pre)).
Qed.

Lemma last_row_of pre a seen : last (row_of pre a seen) = Some (lev (reverse a ++ pre) seen).
Proof.
  revert pre. induction a as [|x a IH]; intros pre; [done|].
  cbn [row_of]. rewrite reverse_cons, <-(assoc_L (++)). simpl.
  rewrite <-IH. destruct (row_of_head (x :: pre) a seen) as [l ->]. done.
Qed.

Lemma rows_distance a b :
  default 0 (last (rows a b 1 (seq 0 (S (length a))))) = lev a b.
Proof.
  change (seq 0 (S (length a))) with (seq (length (@nil char)) (S (length a))).
  rewrite <-row_of_start, rows_of, last_row_of by done. simpl. by rewrite !app_nil_r, lev_reverse.
Qed.

Lemma distance_lev a b : distance a b = lev a b.
Proof.
  unfold distance. destruct (length a <=? length b); rewrite rows_distance; [done|apply lev_sym].
Qed.

(** C34: The two-row program computes the edit distance: the cost of some
    sequence of insertions, deletions and substitutions from one name to the
    other, and no sequence is cheaper; it is symmetric, and zero exactly on
    equal texts. *)
Theorem edit_distance_is_least a b :
  edits (chars a) (chars b) (edit_distance a b) ∧
  (∀ n, edits (chars a) (chars b) n → edit_distance a b ≤ n) ∧
  edit_distance a b = edit_distance b a ∧
  (edit_distance a b = 0 ↔ chars a = chars b).
Proof.
  unfold edit_distance. rewrite !distance_lev. split_and!.
  - apply lev_script.
  - apply lev_least.
  - apply lev_sym.
  - generalize (chars a) (chars b). intros l1 l2. split.
    + pose proof (lev_script l1 l2) as H. intros E. rewrite E in H. clear E.
      remember 0 as z. revert Heqz. induction H; intros; try done; try lia. f_equal. auto.
    + intros ->. assert (edits l2 l2 0) as H by (induction l2; constructor; done).
      apply lev_least in H. lia.
Qed.

Lemma closer_spec name m candidates :
  match fold_left (closer name m) candidates None with
  | None => ∀ c, c ∈ candidates → m < edit_distance name c
  | Some (s, d) => ∃ before after, candidates = before ++ s :: after ∧ d = edit_distance name s ∧ d ≤ m ∧
      (∀ c, c ∈ before → d < edit_distance name c) ∧ (∀ c, c ∈ after → d ≤ edit_distance name c)
  end.
Proof.
  induction candidates as [|c l IH] using rev_ind; simpl; [by intros c ?%elem_of_nil|].
  rewrite fold_left_app. simpl. unfold closer at 1.
  destruct (fold_left (closer name m) l None) as [[s d]|].
  - destruct IH as (before & after & -> & -> & Hd & Hb & Ha).
    destruct (Nat.leb_spec (edit_distance name c) m) as [Hm|Hm].
    + destruct (Nat.ltb_spec (edit_distance name c) (edit_distance name s)) as [Hlt|Hge].
      * exists (before ++ s :: after), []. split_and!; [done..| |by intros ? ?%elem_of_nil].
        intros c' [?|[->|?]%elem_of_cons]%elem_of_app; [|done|].
        -- etrans; [|by apply Hb]. done.
        -- eapply Nat.lt_le_trans; [done|]. by apply Ha.
      * exists before, (after ++ [c]). rewrite <-(assoc_L (++)). split_and!; [done..|].
        intros c' [?| ->%list_elem_of_singleton]%elem_of_app; [by apply Ha|done].
    + exists before, (after ++ [c]). rewrite <-(assoc_L (++)). split_and!; [done..|].
      intros c' [?| ->%list_elem_of_singleton]%elem_of_app; [by apply Ha|lia].
  - destruct (Nat.leb_spec (edit_distance name c) m) as [Hm|Hm].
    + exists l, []. split_and!; [done..| |by intros ? ?%elem_of_nil].
      intros c' Hc. specialize (IH c' Hc). lia.
    + intros c' [?| ->%list_elem_of_singleton]%elem_of_app; [by apply IH|done].
Qed.

(** A suggestion is made exactly when some candidate is within the limit,
    and it is then the first of the candidates closest to the name. *)
Theorem closest_match_is_first_nearest name candidates m :
  match closest_match name candidates m with
  | None => ∀ c, c ∈ candidates → m < edit_distance name c
  | Some s => edit_distance name s ≤ m ∧ ∃ before after, candidates = before ++ s :: after ∧
      (∀ c, c ∈ before → edit_distance name s < edit_distance name c) ∧
      (∀ c, c ∈ after → edit_distance name s ≤ edit_distance name c)
  end.
Proof.
  unfold closest_match. pose proof (closer_spec name m candidates) as H.
  destruct (fold_left _ _ _) as [[s d]|]; simpl; [|done].
  destruct H as (before & after & -> & -> & ? & ? & ?). eauto 10.
Qed.

Example distance_ex : edit_distance "kitten" "sitting" = 3.
Proof. reflexivity. Qed.
