(* ===== verification/Affected.v ===== *)
(** * Affected: git-aware selection ([src/affected.rs], [src/import_graph.rs])

    [--affected] asks git for the changed files, classifies them, and keeps the
    test files that changed themselves, that lie below a changed declaration
    file, or that import a module related to a changed source.

    Git, path canonicalisation and the Python parser are parameters: [git]
    runs a command in a directory, [canonicalize] is [None] where the call
    fails, and [collected_imports] is the set [collect_imports] builds from a
    file's statements, empty for a file that does not parse.  A [HashSet] of
    paths is a list searched with path equality; the orders in which the code
    iterates hash sets reach only [matched_imports] and lists that it sorts. *)
From Stdlib Require Import Ascii.
From S2P Require Import Prelude Collections Text Paths.

(** ** Text and path operations of the standard library *)

(** The components of [path.with_extension(_)] for the empty extension.  A stem
    made of dots is read again as a component. *)
Definition without_extension (p : string) : list component :=
  match reverse (components p) with
  | Normal name :: rest =>
      let stem := file_stem name in
      reverse rest ++
      match normal_component stem with
      | Some c => [c]
      | None => match rest with [] => [CurDir] | _ :: _ => [] end
      end
  | _ => components p
  end.

(** ** Module names *)

(** [parts[..i].join(".")] for [i] in [1..=parts.len()] *)
Definition dotted_prefixes (parts : list string) : list string :=
  map (λ i, join "." (take i parts)) (seq 1 (length parts)).

Definition expand_prefixes (modules : gset string) : gset string :=
  list_to_set (flat_map (λ m, dotted_prefixes (split "." m)) (elements modules)).

Definition file_parts (rel_path : string) : list string :=
  let parts := map component_str (without_extension rel_path) in
  match reverse parts with
  | last :: rest => if String.eqb last "__init__" then reverse rest else parts
  | [] => []
  end.

Definition file_to_modules (rel_path : string) : list string :=
  let parts := file_parts rel_path in
  match parts with
  | [] => []
  | _ => map (λ i, join "." (take (S i) parts)) (reverse (seq 0 (length parts)))
  end.

(** ** Errors and records *)

Inductive AffectedError :=
  | NotAGitRepo
  | GitCommandFailed (message : string).

(** What a finished git command leaves, with its streams decoded. *)
Record Output := mk_output { out_success : bool; out_stdout : string; out_stderr : string }.

Record ChangedFiles := mk_changed {
  cf_run_all : bool;
  cf_declaration_files : list string;
  cf_source_files : list string
}.

Record ImportAnalysis := mk_analysis {
  ia_test_file : string;
  ia_affected : bool;
  ia_matched_imports : list string
}.

Record AffectedDiagnostics := mk_diag {
  base_ref : string;
  total_changed : nat;
  non_python_count : nat;
  diag_declaration_files : list string;
  diag_source_files : list string;
  direct_matches : list string;
  declaration_matches : list string;
  import_analysis : list ImportAnalysis;
  total_tests : nat;
  affected_count : nat
}.

Definition check_git_output (out : Output) : result () AffectedError :=
  if out_success out then Ok ()
  else if contains "not a git repository" (to_ascii_lowercase (out_stderr out)) then Err NotAGitRepo
  else Err (GitCommandFailed (out_stderr out)).

Definition parse_diff_output (stdout : string) : list string :=
  List.filter (λ l, negb (String.eqb l "")) (str_lines stdout).

(** ** Classification *)

Definition is_declaration (path : string) : bool :=
  ends_with "__fixtures__.py" path || ends_with "__init__.py" path.

Fixpoint classify_from (acc : ChangedFiles) (non_python : nat) (changed : list string)
    : ChangedFiles * nat :=
  match changed with
  | [] => (acc, non_python)
  | path :: rest =>
      if String.eqb path "pyproject.toml"
      then (mk_changed true (cf_declaration_files acc) (cf_source_files acc), non_python)
      else if negb (ends_with ".py" path) then classify_from acc (S non_python) rest
      else if is_declaration path
      then classify_from (mk_changed (cf_run_all acc) (cf_declaration_files acc ++ [path]) (cf_source_files acc))
             non_python rest
      else classify_from (mk_changed (cf_run_all acc) (cf_declaration_files acc) (cf_source_files acc ++ [path]))
             non_python rest
  end.

Definition classify_changed_files_with_diagnostics (changed : list string) : ChangedFiles * nat :=
  classify_from (mk_changed false [] []) 0 changed.

(** ** The affected set *)

Definition in_set (p : string) (affected : list string) : bool := existsb (path_eqb p) affected.

Definition insert_path (affected : list string) (p : string) : list string :=
  if in_set p affected then affected else affected ++ [p].

Definition declaration_dirs (rootdir : string) (changed_declarations : list string)
    : list (list component) :=
  dedup (λ a b, bool_decide (a = b))
    (sort_by (lex_cmp component_cmp)
       (omap (λ c, parent_components (path_join rootdir c)) changed_declarations)).

Definition declaration_affected_tests (test_files changed_declarations : list string)
    (rootdir : string) (affected : list string) : list string :=
  let dirs := declaration_dirs rootdir changed_declarations in
  fold_left (λ acc tf,
    if existsb (λ dir, bool_decide (dir `prefix_of` components tf)) dirs
    then insert_path acc tf else acc) test_files affected.

Definition directly_changed_tests (test_files changed_sources : list string)
    (rootdir : string) (affected : list string) : list string :=
  let changed_abs := fold_left insert_path (map (path_join rootdir) changed_sources) [] in
  fold_left (λ acc tf, if in_set tf changed_abs then insert_path acc tf else acc) test_files affected.

Section Select.
Variable canonicalize : string → option string.
Variable git : list string → string → result Output string.
Variable collected_imports : string → gset string.

Definition try_canonicalize (path : string) : string := default path (canonicalize path).

Definition git_root (dir : string) : result string AffectedError :=
  let canonical_dir := try_canonicalize dir in
  let? out := map_err (λ e, GitCommandFailed
      ("failed to run `git rev-parse` in " +:+ canonical_dir +:+ ": " +:+ e))
    (git ["--no-optional-locks"; "rev-parse"; "--show-toplevel"] canonical_dir) in
  let? _ := check_git_output out in
  Ok (try_canonicalize (trim (out_stdout out))).

Definition git_changed_files (rootdir base : string)
    : result (string * list string) AffectedError :=
  let? repo_root := git_root rootdir in
  let? out := map_err (λ e, GitCommandFailed
      ("failed to run `git diff` in " +:+ repo_root +:+ ": " +:+ e))
    (git ["--no-optional-locks"; "diff"; "--name-only"; base] repo_root) in
  let? _ := check_git_output out in
  Ok (repo_root, parse_diff_output (out_stdout out)).

Definition extract_imported_modules (path : string) : gset string :=
  expand_prefixes (collected_imports path).

Definition changed_modules (changed_sources : list string) : gset string :=
  list_to_set (flat_map file_to_modules changed_sources).

Definition analyse (changed_sources : list string) (test_file : string) : ImportAnalysis :=
  let matched := elements (extract_imported_modules test_file ∩ changed_modules changed_sources) in
  mk_analysis test_file (negb (match matched with [] => true | _ => false end)) matched.

Definition resolve_affected_with_diagnostics (test_files changed_sources : list string)
    : list ImportAnalysis :=
  map (analyse changed_sources) test_files.

Definition filter_affected_with_diagnostics (test_files : list string) (rootdir base : string)
    : result (option (list string) * AffectedDiagnostics) AffectedError :=
  let total := length test_files in
  let? found := git_changed_files rootdir base in
  let '(repo_root, changed) := found in
  match changed with
  | [] => Ok (Some [], mk_diag base 0 0 [] [] [] [] [] total 0)
  | _ =>
      let '(classified, non_python) := classify_changed_files_with_diagnostics changed in
      let decls := cf_declaration_files classified in
      let sources := cf_source_files classified in
      if cf_run_all classified
      then Ok (None, mk_diag base (length changed) non_python decls sources [] [] [] total total)
      else
        let direct := directly_changed_tests test_files sources repo_root [] in
        let direct_sorted := sort_by String.compare direct in
        let both := declaration_affected_tests test_files decls repo_root direct in
        let below := sort_by String.compare
          (List.filter (λ p, negb (existsb (String.eqb p) direct_sorted)) both) in
        let remaining := List.filter (λ f, negb (in_set f both)) test_files in
        let analysis :=
          if negb (match remaining with [] => true | _ => false end)
             && negb (match sources with [] => true | _ => false end)
          then resolve_affected_with_diagnostics remaining sources else [] in
        let affected :=
          fold_left (λ acc e, if ia_affected e then insert_path acc (ia_test_file e) else acc)
            analysis both in
        let selected := List.filter (λ f, in_set f affected) test_files in
        Ok (Some selected,
            mk_diag base (length changed) non_python decls sources direct_sorted below analysis
              total (length selected))
  end.

Definition filter_affected_test_files (test_files : list string) (rootdir base : string)
    : result (option (list string)) AffectedError :=
  let? r := filter_affected_with_diagnostics test_files rootdir base in Ok r.1.
End Select.

(** ** Classification, membership and prefixes *)

Definition is_pyproject (path : string) : bool := String.eqb path "pyproject.toml".
Definition is_source (path : string) : bool := ends_with ".py" path && negb (is_declaration path).

Lemma classify_from_run_all acc n changed :
  cf_run_all (classify_from acc n changed).1 = cf_run_all acc || existsb is_pyproject changed.
Proof.
  revert acc n. induction changed as [|p l IH]; intros acc n; simpl; [by rewrite orb_false_r|].
  unfold is_pyproject at 1. destruct (String.eqb p "pyproject.toml"); simpl; [by rewrite orb_true_r|].
  repeat case_match; by rewrite IH.
Qed.

Lemma classify_from_lists acc n changed :
  existsb is_pyproject changed = false →
  cf_declaration_files (classify_from acc n changed).1
  = cf_declaration_files acc ++ List.filter (λ p, ends_with ".py" p && is_declaration p) changed ∧
  cf_source_files (classify_from acc n changed).1 = cf_source_files acc ++ List.filter is_source changed.
Proof.
  revert acc n. induction changed as [|p l IH]; intros acc n; simpl; [by rewrite !app_nil_r|].
  unfold is_pyproject at 1. destruct (String.eqb p "pyproject.toml"); simpl; [done|]. intros Hl.
  unfold is_source. destruct (ends_with ".py" p); simpl; [|by apply IH].
  destruct (is_declaration p); simpl.
  all: match goal with |- context [classify_from ?a ?k _] => destruct (IH a k Hl) as [-> ->] end.
  all: simpl; by rewrite <-!(assoc_L (++)).
Qed.

Lemma in_set_true p l : in_set p l = true ↔ ∃ q, q ∈ l ∧ components p = components q.
Proof.
  unfold in_set. rewrite existsb_elem. split.
  all: intros (q & Hq & E); exists q; split; [done|]; by apply path_eqb_true.
Qed.

Lemma in_set_insert p q l :
  in_set p (insert_path l q) = true ↔ in_set p l = true ∨ components p = components q.
Proof.
  unfold insert_path. destruct (in_set q l) eqn:E.
  - split; [by left|]. intros [?|Hpq]; [done|]. rewrite in_set_true in *.
    destruct E as (r & ? & ?). exists r. split; [done|congruence].
  - rewrite !in_set_true. setoid_rewrite elem_of_app. setoid_rewrite list_elem_of_singleton. naive_solver.
Qed.

(** Every loop of this file inserts the elements that pass a test. *)
Lemma fold_insert {A} (test : A → bool) (key : A → string) l acc p :
  in_set p (fold_left (λ acc x, if test x then insert_path acc (key x) else acc) l acc) = true ↔
  in_set p acc = true ∨ ∃ x, x ∈ l ∧ test x = true ∧ components p = components (key x).
Proof.
  revert acc. induction l as [|x l IH]; intros acc; simpl.
  { split; [by left|]. intros [?|(? & []%elem_of_nil & _)]; done. }
  rewrite IH. setoid_rewrite elem_of_cons. destruct (test x) eqn:E; rewrite ?in_set_insert.
  - split.
    + intros [[?|?]|(y & ? & ? & ?)]; [by left|right; by exists x; auto|right; eauto].
    + intros [?|(y & [->|?] & ? & ?)]; [by left; left|by left; right|right; eauto].
  - split.
    + intros [?|(y & ? & ? & ?)]; [by left|right; eauto].
    + intros [?|(y & [->|?] & ? & ?)]; [by left|congruence|right; eauto].
Qed.

Lemma in_set_components p q l : components p = components q → in_set p l = in_set q l.
Proof. intros E. apply eq_true_iff_eq. rewrite !in_set_true. by setoid_rewrite E. Qed.

Lemma elem_of_dotted_prefixes n parts :
  n ∈ dotted_prefixes parts ↔ ∃ i, 1 ≤ i ≤ length parts ∧ n = join "." (take i parts).
Proof.
  unfold dotted_prefixes. rewrite map_elem. split.
  - intros (i & Hi%elem_of_seq & <-). exists i. split; [lia|done].
  - intros (i & Hi & ->). exists i. split; [|done]. apply elem_of_seq. lia.
Qed.

(** The run-all branch, and the two lists the rest of the function works on. *)
Lemma classify_spec changed :
  let c := (classify_changed_files_with_diagnostics changed).1 in
  (cf_run_all c = true ↔ "pyproject.toml" ∈ changed) ∧
  ("pyproject.toml" ∉ changed →
   cf_declaration_files c = List.filter (λ p, ends_with ".py" p && is_declaration p) changed ∧
   cf_source_files c = List.filter is_source changed).
Proof.
  assert (Hp : existsb is_pyproject changed = true ↔ "pyproject.toml" ∈ changed).
  { rewrite existsb_elem. unfold is_pyproject. setoid_rewrite String.eqb_eq. naive_solver. }
  unfold classify_changed_files_with_diagnostics. simpl.
  rewrite classify_from_run_all. simpl. split; [done|]. intros Hn.
  apply (classify_from_lists (mk_changed false [] [])).
  destruct (existsb is_pyproject changed); [exfalso; tauto|done].
Qed.

(** ** What is selected *)

(** The test file is itself a changed source. *)
Definition changed_itself (root : string) (changed : list string) (f : string) : Prop :=
  ∃ s, s ∈ changed ∧ is_source s = true ∧ components f = components (path_join root s).

(** A changed declaration file lies in a directory above the test file. *)
Definition below_declaration (root : string) (changed : list string) (f : string) : Prop :=
  ∃ d dir, d ∈ changed ∧ ends_with ".py" d = true ∧ is_declaration d = true ∧
    parent_components (path_join root d) = Some dir ∧ dir `prefix_of` components f.

(** Some prefix of an imported name is a prefix of a changed source's name. *)
Definition imports_changed (imports : string → gset string) (changed : list string) (f : string) : Prop :=
  ∃ m s name, m ∈ imports f ∧ s ∈ changed ∧ is_source s = true ∧
    name ∈ dotted_prefixes (split "." m) ∧ name ∈ file_to_modules s.

Section Selection.
Context (imports : string → gset string).

Lemma directly_changed_spec tests root changed f :
  in_set f (directly_changed_tests tests (List.filter is_source changed) root []) = true ↔
  ∃ g, g ∈ tests ∧ components f = components g ∧ changed_itself root changed g.
Proof.
  unfold directly_changed_tests. rewrite fold_insert. split.
  - intros [?|(g & Hg & Hin & E)]; [done|]. exists g. split_and!; [done..|].
    pose proof (fold_insert (λ _ : string, true) id (map (path_join root) (List.filter is_source changed)) [] g)
      as Hf. simpl in Hf. apply Hf in Hin as [?|(x & (s & Hs & <-)%map_elem & _ & Ex)]; [done|].
    apply filter_elem in Hs as [? ?]. exists s. done.
  - intros (g & Hg & E & s & Hs & Hsrc & Ex). right. exists g. split_and!; [done| |done].
    apply (fold_insert (λ _ : string, true) id). right. exists (path_join root s).
    split_and!; [|done..]. apply map_elem. exists s. split; [by apply filter_elem|done].
Qed.

Lemma declaration_dirs_elem root decls dir :
  dir ∈ declaration_dirs root decls ↔ ∃ d, d ∈ decls ∧ parent_components (path_join root d) = Some dir.
Proof.
  unfold declaration_dirs. rewrite dedup_elem by (intros; apply bool_decide_eq_true).
  by rewrite sort_by_elem, list_elem_of_omap.
Qed.

Lemma declaration_affected_spec tests root changed acc f :
  in_set f (declaration_affected_tests tests
    (List.filter (λ p, ends_with ".py" p && is_declaration p) changed) root acc) = true ↔
  in_set f acc = true ∨ ∃ g, g ∈ tests ∧ components f = components g ∧ below_declaration root changed g.
Proof.
  unfold declaration_affected_tests. rewrite fold_insert. apply or_iff_compat_l.
  split; intros (g & Hg & H); exists g.
  - destruct H as [(dir & Hdir & Hpre)%existsb_elem E]. split_and!; [done..|].
    apply bool_decide_eq_true in Hpre.
    apply declaration_dirs_elem in Hdir as (d & [? [? ?]%andb_prop]%filter_elem & ?). by exists d, dir.
  - destruct H as [E (d & dir & ? & H1 & H2 & ? & ?)]. split_and!; [done| |done].
    apply existsb_elem. exists dir. split; [|by apply bool_decide_eq_true].
    apply declaration_dirs_elem. exists d. split; [|done]. apply filter_elem. by rewrite H1, H2.
Qed.

Lemma analyse_affected sources f :
  ia_affected (analyse imports sources f) = true ↔
  ∃ m s name, m ∈ imports f ∧ s ∈ sources ∧ name ∈ dotted_prefixes (split "." m) ∧ name ∈ file_to_modules s.
Proof.
  unfold analyse; simpl. transitivity (∃ name, name ∈ extract_imported_modules imports f ∩ changed_modules sources).
  - setoid_rewrite <-elem_of_elements.
    destruct (elements _) as [|x l]; simpl; [|split; [exists x; by left|done]].
    split; [done|]. by intros [x []%elem_of_nil].
  - unfold extract_imported_modules, expand_prefixes, changed_modules.
    setoid_rewrite elem_of_intersection. setoid_rewrite elem_of_list_to_set.
    setoid_rewrite flat_map_elem. setoid_rewrite elem_of_elements. naive_solver.
Qed.

Lemma imports_changed_analyse changed f :
  ia_affected (analyse imports (List.filter is_source changed) f) = true ↔ imports_changed imports changed f.
Proof.
  rewrite analyse_affected. unfold imports_changed. setoid_rewrite filter_elem. naive_solver.
Qed.

(** Membership in the final set, for the three stages together. *)
Lemma affected_set_spec tests root changed f :
  let sources := List.filter is_source changed in
  let both := declaration_affected_tests tests
    (List.filter (λ p, ends_with ".py" p && is_declaration p) changed) root
    (directly_changed_tests tests sources root []) in
  let remaining := List.filter (λ g, negb (in_set g both)) tests in
  let analysis :=
    if negb (match remaining with [] => true | _ => false end)
       && negb (match sources with [] => true | _ => false end)
    then resolve_affected_with_diagnostics imports remaining sources else [] in
  in_set f (fold_left (λ acc e, if ia_affected e then insert_path acc (ia_test_file e) else acc)
              analysis both) = true ↔
  ∃ g, g ∈ tests ∧ components f = components g ∧
    (changed_itself root changed g ∨ below_declaration root changed g ∨ imports_changed imports changed g).
Proof.
  intros sources both remaining analysis.
  assert (Hboth : ∀ x, in_set x both = true ↔ ∃ g, g ∈ tests ∧ components x = components g ∧
    (changed_itself root changed g ∨ below_declaration root changed g)).
  { intros x. unfold both, sources. rewrite declaration_affected_spec, directly_changed_spec. naive_solver. }
  assert (Hana : ∀ e, e ∈ analysis ↔ ∃ g, g ∈ remaining ∧ e = analyse imports sources g ∧ sources ≠ []).
  { intros e. unfold analysis, resolve_affected_with_diagnostics.
    destruct remaining as [|r rs]; simpl.
    { split; [by intros []%elem_of_nil|]. by intros (? & []%elem_of_nil & _). }
    destruct sources as [|s ss]; simpl.
    { split; [by intros []%elem_of_nil|]. by intros (? & _ & _ & ?). }
    rewrite (map_elem (analyse imports (s :: ss)) (r :: rs)). naive_solver. }
  rewrite fold_insert, Hboth. split.
  - intros [(g & Hg & E & Hg')|(e & (g & [Hg _]%filter_elem & -> & _)%Hana & Haff & E)]; exists g.
    + split_and!; [done..|]. destruct Hg'; auto.
    + apply imports_changed_analyse in Haff. auto.
  - intros (g & Hg & E & Hcase). destruct (in_set g both) eqn:Hin.
    { left. apply Hboth. by rewrite (in_set_components _ _ _ E). }
    assert (Hno : ¬ (changed_itself root changed g ∨ below_declaration root changed g)).
    { intros ?. apply not_true_iff_false in Hin. apply Hin, Hboth. eauto. }
    right. exists (analyse imports sources g). split_and!; [|apply imports_changed_analyse; tauto|done].
    apply Hana. exists g. split_and!; [apply filter_elem; by rewrite Hin|done|].
    destruct Hcase as [?|[?|(m & s & n & _ & Hs & Hsrc & _)]]; [tauto..|].
    intros Hnil. assert (s ∈ sources) as Hx by by apply filter_elem. rewrite Hnil in Hx. by apply elem_of_nil in Hx.
Qed.
End Selection.

Lemma filter_sublist {A} (f : A → bool) l : List.filter f l `sublist_of` l.
Proof. induction l as [|x l IH]; simpl; [done|]. destruct (f x); by constructor. Qed.

(** C32: [--affected] selects exactly the test files the changes concern.  When
    git reports the changed files, the result is [None] (run everything) if and
    only if the repository's [pyproject.toml] changed; otherwise it keeps, in
    their order, the test files that changed, that lie below the directory of a
    changed declaration file, or that import a name sharing a dotted prefix with
    a changed source; and the count reported is the number selected. *)
Theorem affected_selection_exact canonicalize git imports tests rootdir base root changed :
  git_changed_files canonicalize git rootdir base = Ok (root, changed) →
  ∃ r diag,
    filter_affected_with_diagnostics canonicalize git imports tests rootdir base = Ok (r, diag) ∧
    match r with
    | None => "pyproject.toml" ∈ changed ∧ affected_count diag = length tests
    | Some l =>
        ("pyproject.toml" ∉ changed) ∧ (l `sublist_of` tests) ∧ affected_count diag = length l ∧
        ∀ f, f ∈ l ↔ f ∈ tests ∧ ∃ g, g ∈ tests ∧ components f = components g ∧
          (changed_itself root changed g ∨ below_declaration root changed g ∨
           imports_changed imports changed g)
    end.
Proof.
  intros Hgit. unfold filter_affected_with_diagnostics. rewrite Hgit. simpl.
  destruct changed as [|c cs].
  { eexists _, _. split; [done|]. split_and!; [by intros []%elem_of_nil|apply sublist_nil_l|done|].
    intros f. split; [by intros []%elem_of_nil|].
    intros (_ & g & _ & _ & [(? & []%elem_of_nil & _)|[(? & ? & []%elem_of_nil & _)|
      (? & ? & ? & _ & []%elem_of_nil & _)]]). }
  pose proof (classify_spec (c :: cs)) as [Hall Hlists].
  destruct (classify_changed_files_with_diagnostics (c :: cs)) as [cl np]; cbn [fst] in Hall, Hlists.
  destruct (cf_run_all cl).
  { eexists _, _. split; [done|]. split; [by apply Hall|done]. }
  assert (Hno : "pyproject.toml" ∉ c :: cs) by (intros ?%Hall; done).
  destruct (Hlists Hno) as [-> ->].
  eexists _, _. split; [done|]. split_and!; [done|apply filter_sublist|done|].
  intros f. rewrite filter_elem. apply and_iff_compat_l.
  exact (affected_set_spec imports tests root (c :: cs) f).
Qed.

(** Prefixes of two dotted names meet exactly when their first parts agree. *)
Lemma prefixes_meet a b :
  Forall (λ p, contains "." p = false) a → Forall (λ p, contains "." p = false) b →
  (∃ n, n ∈ dotted_prefixes a ∧ n ∈ dotted_prefixes b) ↔ ∃ top, head a = Some top ∧ head b = Some top.
Proof.
  intros Ha Hb. setoid_rewrite elem_of_dotted_prefixes. split.
  - intros (n & (i & Hi & ->) & (j & Hj & Hij)).
    apply (f_equal (split ".")) in Hij.
    assert (Htake : ∀ (l : list string) k, 1 ≤ k ≤ length l → take k l ≠ []).
    { intros [|z l] [|k]; simpl; [lia..|done]. }
    rewrite !split_join_char in Hij by (by auto using Forall_take).
    destruct a as [|x a], b as [|y b], i as [|i], j as [|j]; simpl in *; try lia.
    injection Hij as -> _. by exists y.
  - intros (top & Hat & Hbt). destruct a as [|x a], b as [|y b]; simplify_eq/=.
    exists top. split; exists 1; (split; [simpl; lia|done]).
Qed.

Lemma elem_of_file_to_modules n s : n ∈ file_to_modules s ↔ n ∈ dotted_prefixes (file_parts s).
Proof.
  unfold file_to_modules. rewrite elem_of_dotted_prefixes.
  destruct (file_parts s) as [|p ps]; [split; [by intros []%elem_of_nil|]; intros (i & ? & _); simpl in *; lia|].
  rewrite map_elem. setoid_rewrite elem_of_reverse. setoid_rewrite elem_of_seq. split.
  - intros (i & Hi & <-). exists (S i). split; [lia|done].
  - intros ([|i] & Hi & ->); [lia|]. exists i. split; [lia|done].
Qed.

(** The import rule of [--affected] compares top-level names only.  Where no
    directory or file name of a changed source has a dot besides the extension,
    a test file is selected by its imports exactly when it imports, absolutely
    and anywhere in the file, a module whose first dotted part is the first
    part of a changed source's module name, whatever submodule either names. *)
Theorem import_rule_is_top_level imports sources f :
  (∀ s p, s ∈ sources → p ∈ file_parts s → contains "." p = false) →
  ia_affected (analyse imports sources f) = true ↔
  ∃ m s top, m ∈ imports f ∧ s ∈ sources ∧
    head (split "." m) = Some top ∧ head (file_parts s) = Some top.
Proof.
  intros Hdots. rewrite analyse_affected.
  assert (Hmeet : ∀ m s, s ∈ sources →
    (∃ n, n ∈ dotted_prefixes (split "." m) ∧ n ∈ file_to_modules s) ↔
    ∃ top, head (split "." m) = Some top ∧ head (file_parts s) = Some top).
  { intros m s Hs. setoid_rewrite elem_of_file_to_modules. apply prefixes_meet.
    - apply Forall_forall. intros p. apply split_char_parts.
    - apply Forall_forall. intros p. by apply Hdots. }
  split.
  - intros (m & s & n & Hm & Hs & Hn). destruct (proj1 (Hmeet m s Hs)) as (top & ?); [by exists n|].
    by exists m, s, top.
  - intros (m & s & top & Hm & Hs & Ht). destruct (proj2 (Hmeet m s Hs)) as (n & ?); [by exists top|].
    by exists m, s, n.
Qed.

(** ** A concrete repository *)

Definition demo_git (args : list string) (dir : string) : result Output string :=
  match args with
  | _ :: "rev-parse" :: _ => Ok (mk_output true ("/repo" +:+ newline) "")
  | _ => Ok (mk_output true
      ("app/core/db.py" +:+ newline +:+ "README.md" +:+ newline +:+ "tests/api/__fixtures__.py" +:+ newline) "")
  end.

Definition demo_imports (f : string) : gset string :=
  if String.eqb f "/repo/tests/test_ui.py" then {["app.ui.widgets"; "json"]} else {["os.path"]}.

Definition demo_tests : list string :=
  ["/repo/tests/test_ui.py"; "/repo/tests/test_os.py"; "/repo/tests/api/test_rest.py"].

Lemma affected_selection_exact_witness :
  ∃ r diag,
    filter_affected_with_diagnostics (λ _, None) demo_git demo_imports demo_tests "/repo" "main"
    = Ok (r, diag) ∧
    r = Some ["/repo/tests/test_ui.py"; "/repo/tests/api/test_rest.py"] ∧
    ∀ f, f ∈ default [] r ↔ f ∈ demo_tests ∧ ∃ g, g ∈ demo_tests ∧ components f = components g ∧
      (changed_itself "/repo" ["app/core/db.py"; "README.md"; "tests/api/__fixtures__.py"] g ∨
       below_declaration "/repo" ["app/core/db.py"; "README.md"; "tests/api/__fixtures__.py"] g ∨
       imports_changed demo_imports ["app/core/db.py"; "README.md"; "tests/api/__fixtures__.py"] g).
Proof.
  destruct (affected_selection_exact (λ _, None) demo_git demo_imports demo_tests "/repo" "main" "/repo"
    ["app/core/db.py"; "README.md"; "tests/api/__fixtures__.py"]) as (r & diag & E & H); [by vm_compute|].
  exists r, diag. split; [exact E|].
  assert (Hr : r = Some ["/repo/tests/test_ui.py"; "/repo/tests/api/test_rest.py"]).
  { vm_compute in E. injection E as <- _. done. }
  split; [exact Hr|]. rewrite Hr in H |- *. exact (proj2 (proj2 (proj2 H))).
Defined.

(** A test of one submodule is selected by a change to an unrelated one. *)
Lemma import_rule_is_top_level_witness :
  ia_affected (analyse demo_imports ["app/core/db.py"] "/repo/tests/test_ui.py") = true ∧
  ia_affected (analyse demo_imports ["app/core/db.py"] "/repo/tests/test_os.py") = false.
Proof.
  assert (Hdots : ∀ s p, s ∈ ["app/core/db.py"] → p ∈ file_parts s → contains "." p = false).
  { intros s p ->%list_elem_of_singleton. vm_compute file_parts.
    rewrite !elem_of_cons. by intros [->|[->|[->|[]%elem_of_nil]]]. }
  split.
  - apply (import_rule_is_top_level demo_imports ["app/core/db.py"] _ Hdots).
    exists "app.ui.widgets", "app/core/db.py", "app". split_and!; [|by left|done..]. by vm_compute.
  - by vm_compute.
Defined.
