(* ===== verification/Imports.v ===== *)
(** * Imports: the modules a test file imports ([src/import_graph.rs])

    [collect_imports] over the syntax tree, recursing into compound statements as
    the code does; the fuel is the number of statements below the one it starts
    from.  [collected_imports] is the parameter of that name of [Affected]. *)
From S2P Require Import Prelude Collections Text Ast Affected.

(** What one statement names: absolute imports only. *)
Definition own_imports (s : Stmt.t) : list string :=
  match s with
  | Stmt.Import _ names => map al_name names
  | Stmt.ImportFrom _ module _ level =>
      let is_absolute := match level with None => true | Some l => (l =? 0)%N end in
      match module with Some m => if is_absolute then [m] else [] | None => [] end
  | _ => []
  end.

Definition insert_all (names : list string) (modules : gset string) : gset string :=
  fold_left (λ m n, {[n]} ∪ m) names modules.

Fixpoint import_loop (fuel : nat) (s : Stmt.t) (modules : gset string) : gset string :=
  match fuel with
  | 0 => modules
  | S fuel => fold_left (λ m c, import_loop fuel c m) (compound_children s) (insert_all (own_imports s) modules)
  end.

Definition collect_imports (s : Stmt.t) (modules : gset string) : gset string := import_loop (stmt_count [s]) s modules.

Section Files.
Context (suite_parse : string → string → result (list Stmt.t) ParseError)
  (read_to_string : string → result string string).

Definition collected_imports (path : string) : gset string :=
  match parse_file suite_parse read_to_string path with
  | None => ∅
  | Some (_, stmts) => fold_left (λ m s, collect_imports s m) stmts ∅
  end.
End Files.

(** * Theorems *)

Abbreviation all := (λ _ : Stmt.t, false).

Lemma insert_all_union names m : insert_all names m = m ∪ list_to_set names.
Proof.
  unfold insert_all. revert m. induction names as [|n names IH]; intros m; simpl; [by rewrite union_empty_r_L|].
  rewrite IH. set_solver.
Qed.

(** Folding a collector over statements. *)
Lemma fold_collect (f : Stmt.t → gset string → gset string) (g : Stmt.t → list string) l m :
  (∀ c m, c ∈ l → f c m = m ∪ list_to_set (g c)) →
  fold_left (λ m c, f c m) l m = m ∪ list_to_set (flat_map g l).
Proof.
  revert m. induction l as [|c l IH]; intros m Hf; simpl; [by rewrite union_empty_r_L|].
  rewrite Hf, IH by set_solver. rewrite list_to_set_app_L. set_solver.
Qed.

Lemma import_loop_spec fuel s m :
  stmt_count [s] ≤ fuel →
  import_loop fuel s m = m ∪ list_to_set (flat_map own_imports (preorder all s)).
Proof.
  revert s m. induction fuel as [|fuel IH]; intros s m Hf; rewrite stmt_count_cons in Hf; [lia|].
  cbn [import_loop]. rewrite preorder_unfold. cbn [flat_map].
  rewrite (fold_collect _ (λ c, flat_map own_imports (preorder all c))).
  - rewrite insert_all_union, list_to_set_app_L, flat_map_flat_map. set_solver.
  - intros c m' Hc. apply IH. apply list_elem_of_split in Hc as (l1 & l2 & E).
    rewrite E, stmt_count_app, stmt_count_cons in Hf. rewrite stmt_count_cons. unfold stmt_count in *. simpl in *. lia.
Qed.

Lemma collect_imports_spec s m :
  collect_imports s m = m ∪ list_to_set (flat_map own_imports (preorder all s)).
Proof. by apply import_loop_spec. Qed.

(** An absolute import of the module [name]. *)
Inductive imports_module (name : string) : Stmt.t → Prop :=
  | imports_plain r names a : a ∈ names → al_name a = name → imports_module name (Stmt.Import r names)
  | imports_from r names level :
      level = None ∨ level = Some 0%N → imports_module name (Stmt.ImportFrom r (Some name) names level).

Lemma elem_of_own_imports name s : name ∈ own_imports s ↔ imports_module name s.
Proof.
  split.
  - destruct s; try (by intros ?%elem_of_nil); simpl.
    + intros (a & -> & Ha)%list_elem_of_fmap. by econstructor.
    + destruct module as [m|]; [|by intros ?%elem_of_nil].
      destruct level as [l|]; [|intros ->%list_elem_of_singleton; constructor; auto].
      destruct (N.eqb_spec l 0) as [->|]; [|by intros ?%elem_of_nil].
      intros ->%list_elem_of_singleton. constructor. auto.
  - intros [r names a Ha <-|r names level Hl]; simpl; [by apply list_elem_of_fmap_2|].
    destruct Hl as [->| ->]; simpl; by apply list_elem_of_singleton.
Qed.

Section Exact.
Context (suite_parse : string → string → result (list Stmt.t) ParseError)
  (read_to_string : string → result string string).

(** The modules collected from a file are those some statement of it imports
    absolutely, however deep it is nested, in functions, classes, branches and
    handlers alike; a file that cannot be read or parsed imports nothing, and a
    relative import is never counted. *)
Theorem collected_imports_exact path name :
  name ∈ collected_imports suite_parse read_to_string path ↔
  ∃ source stmts s, parse_file suite_parse read_to_string path = Some (source, stmts) ∧
    under all stmts s ∧ imports_module name s.
Proof.
  unfold collected_imports. destruct (parse_file _ _ _) as [[source stmts]|]; [|split; [set_solver|naive_solver]].
  rewrite (fold_collect _ (λ s, flat_map own_imports (preorder all s))) by (intros; apply collect_imports_spec).
  rewrite <- flat_map_flat_map. split.
  - rewrite elem_of_union, elem_of_list_to_set, flat_map_elem. intros [?|(s & Hs & Hn)]; [set_solver|].
    exists source, stmts, s. split_and!; [done| |by apply elem_of_own_imports].
    by eapply elem_of_preorder_forest in Hs.
  - intros (src & l & s & [= <- <-] & Hs & Hn). rewrite elem_of_union, elem_of_list_to_set, flat_map_elem. right.
    exists s. split; [by eapply elem_of_preorder_forest|by apply elem_of_own_imports].
Qed.
End Exact.
