(* ===== verification/Notices.v ===== *)
(** * Notices: what a run says about itself on the error stream

    The scheduling lines and the warning of [src/pipeline/execution.rs], the
    stages of an affected selection ([pipeline/transitions/files_collected.rs]),
    the profile of a collection ([pipeline/collection.rs]), and the writer that
    routes log events around a progress bar ([reporter/tracing_writer.rs]).  A
    function that prints returns its lines. *)
From stdpp Require Import pretty.
From S2P Require Import Prelude Collections Text F64 Types Scheduler Filter Arrange Cache Report Wire Drain Execution Config Colors Diff Render Terminal Affected Collect.

(** ** Scheduling *)

(** [spawn_overhead.as_f64() as u64] *)
Definition whole_ms (x : f64) : string := pretty (as_u64 x).

Definition count_tests (groups : list ModuleGroup) : nat := sum_list_with (λ g, length (items g)) groups.

Definition plan_tests (plan : ExecutionPlan) : nat :=
  count_tests (inprocess_groups plan ++ parallel_groups plan) + count_tests (concat (arranged_groups plan)).

Definition comparison (est : Z) (op : string) (cfg : ExecSettings) : string :=
  "(est. " +:+ pretty est +:+ "ms " +:+ op +:+ " spawn overhead " +:+ whole_ms (ec_spawn_overhead cfg) +:+ "ms x "
    +:+ pretty (ec_worker_count cfg) +:+ " workers)".

Definition cold (plan : ExecutionPlan) (op : string) (cfg : ExecSettings) : string :=
  "(cold cache, " +:+ pretty (plan_tests plan) +:+ " tests " +:+ op +:+ " min_parallel_tests "
    +:+ pretty (ec_min_parallel_tests cfg) +:+ ")".

(** [mode.workers()] when it is a fixed count. *)
Definition fixed_workers (m : ExecutionMode) : option Z :=
  match m with ParallelMode (Fixed n) => Some n | _ => None end.

(** Why the strategy was chosen. *)
Definition reason_line (cfg : ExecSettings) (plan : ExecutionPlan) (estimated : option Z) : string :=
  match strategy plan with
  | Arrange.Serial =>
      if is_serial (ec_mode cfg) then "scheduling: serial (--serial flag)"
      else
        match estimated with
        | Some est => "scheduling: serial " +:+ comparison est "<=" cfg
        | None => "scheduling: serial " +:+ cold plan "<" cfg
        end
  | Parallel _ =>
      match fixed_workers (ec_mode cfg), estimated with
      | Some _, _ => "scheduling: parallel (explicit --workers)"
      | None, Some est => "scheduling: parallel " +:+ comparison est ">" cfg
      | None, None => "scheduling: parallel " +:+ cold plan ">=" cfg
      end
  end.

Definition workers_line (cfg : ExecSettings) (worker_count : Z) (estimated : option Z) (cpu_count : Z) : string :=
  match fixed_workers (ec_mode cfg), estimated with
  | Some n, _ => "scheduling: " +:+ pretty n +:+ " workers (explicit --workers " +:+ pretty n +:+ ")"
  | None, Some est =>
      "scheduling: " +:+ pretty worker_count +:+ " workers (est. " +:+ pretty est +:+ "ms / "
        +:+ whole_ms (ec_spawn_overhead cfg) +:+ "ms overhead, capped to " +:+ pretty cpu_count +:+ " CPUs)"
  | None, None =>
      "scheduling: " +:+ pretty worker_count +:+ " workers (cold cache, using " +:+ pretty cpu_count +:+ " CPUs)"
  end.

(** Fixtures in the spelling of the user. *)
Definition user_spelling (display : list (string * string)) (name : string) : string :=
  match List.find (λ p, String.eqb p.1 name) display with Some (_, shown) => shown | None => name end.

Definition arranged_line (plan : ExecutionPlan) (fixture_groups : list (list string)) (display : list (string * string))
    : list string :=
  match arranged_groups plan with
  | [] => []
  | buckets =>
      ["scheduling: auto-arranged " +:+ pretty (sum_list_with count_tests buckets)
         +:+ " tests by shared fixtures (" +:+ join ", " (map (user_spelling display) (concat fixture_groups)) +:+ ")"]
  end.

Definition emit_scheduling_diagnostics (cfg : ExecSettings) (plan : ExecutionPlan) (estimated : option Z)
    (cpu_count : Z) (fixture_groups : list (list string)) (display : list (string * string)) : list string :=
  reason_line cfg plan estimated ::
  match strategy plan with
  | Arrange.Serial => []
  | Parallel worker_count =>
      workers_line cfg worker_count estimated cpu_count :: arranged_line plan fixture_groups display
  end.

(** The line before the in-process phase. *)
Definition inprocess_line (verbosity : Verbosity) (plan : ExecutionPlan) : list string :=
  match inprocess_groups plan with
  | [] => []
  | gs =>
      if match verbosity with VNormal => false | VDetailed | VFull => true end && (0 <? count_tests gs) then
        ["scheduling: " +:+ pretty (count_tests gs) +:+ " inprocess tests (main), "
           +:+ pretty (count_tests (parallel_groups plan)) +:+ " parallel"]
      else []
  end.

(** The fields and the text of the warning. *)
Definition module_lifetime_warning (names : list string) (worker_count : Z) : option (string * nat * Z * string) :=
  match names with
  | [] => None
  | _ =>
      let noun := match names with [_] => "fixture" | _ => "fixtures" end in
      Some (join ", " names, length names, worker_count,
        "wide-lifetime " +:+ noun +:+ " will be rebuilt once per task group, not once per run; a task group is a single module unless a `package` declaration merges a subtree, so a run can build more instances than it has workers — use --serial to run them once, or narrow the lifetime of fixtures that can be function-scoped. @oxi.arrange co-locates the tests that share one onto the main process, but a module is the scheduling unit, so it cannot reduce this count")
  end.

(** ** Affected selection *)

Definition tick_mark : string := of_chars [10003%N].
Definition em_dash : string := of_chars [8212%N].

Definition or_none (none : string) (lines : list string) : list string :=
  match lines with [] => [none] | _ => lines end.

Definition import_lines (analysis : list ImportAnalysis) : list string :=
  match analysis with
  | [] => ["  (no source files to analyze)"]
  | _ =>
      map (λ e, "  " +:+ tick_mark +:+ " " +:+ ia_test_file e +:+ " " +:+ em_dash +:+ " via: "
                  +:+ join ", " (ia_matched_imports e)) (List.filter ia_affected analysis)
      ++ match length (List.filter (λ e, negb (ia_affected e)) analysis) with
         | 0 => []
         | n => ["  ... and " +:+ pretty n +:+ " more not affected"]
         end
  end.

Definition render_full_diagnostics (d : AffectedDiagnostics) : list string :=
  [""; "Stage 1: Git Diff (base: " +:+ base_ref d +:+ ")"; "  Changed files: " +:+ pretty (total_changed d); "";
   "Stage 2: Classification";
   "  declaration files: " +:+ pretty (length (diag_declaration_files d));
   "  Python source: " +:+ pretty (length (diag_source_files d))
     +:+ match diag_source_files d with [] => "" | l => " (" +:+ join ", " l +:+ ")" end;
   "  Non-Python (ignored): " +:+ pretty (non_python_count d); "";
   "Stage 3: Direct Matches"]
  ++ or_none "  (none)" (map (λ m, "  " +:+ tick_mark +:+ " " +:+ m +:+ " (file itself changed)") (direct_matches d))
  ++ [""; "Stage 4: Declaration Impact"]
  ++ or_none "  (no declaration files changed)" (map (λ m, "  " +:+ tick_mark +:+ " " +:+ m) (declaration_matches d))
  ++ [""; "Stage 5: Import Graph"]
  ++ import_lines (import_analysis d)
  ++ [""; "Summary: " +:+ pretty (affected_count d) +:+ " of " +:+ pretty (total_tests d) +:+ " test files affected";
      "  Direct: " +:+ pretty (length (direct_matches d)) +:+ ", Declaration: "
        +:+ pretty (length (declaration_matches d)) +:+ ", Import: "
        +:+ pretty (length (List.filter ia_affected (import_analysis d)))].

(** ** The profile of a collection *)

Definition pct (part total : f64) : f64 :=
  if f64_gt total (f64_of_Z 0) then f64_mul (f64_div part total) (f64_of_Z 100) else f64_of_Z 0.

(** Microseconds as milliseconds. *)
Definition ms_of (us : N) : f64 := f64_div (f64_of_Z (Z.of_N us)) (f64_of_Z 1000).

Definition ms_pct (ms total : f64) : string := fmt_fixed 0 ms +:+ "ms (" +:+ fmt_fixed 1 (pct ms total) +:+ "%)".

Definition sum_us (f : FileProfile → N) (files : list FileProfile) : N := fold_left (λ n p, n + f p)%N files 0%N.

Definition file_us (p : FileProfile) : N := (fpr_prescan_us p + fpr_collection_us p)%N.

(** [sort_by_key] with the reversed key, which is stable. *)
Definition slowest_first (files : list FileProfile) : list FileProfile :=
  sort_by (λ a b, N.compare (file_us b) (file_us a)) files.

Definition slow_lines (files : list FileProfile) (total_ms : f64) : list string :=
  match slowest_first files with
  | [] => []
  | p :: _ as sorted =>
      if (0 <? file_us p)%N then
        "" :: "Slowest files:" ::
        map (λ p, "  " +:+ fpr_path p +:+ "    " +:+ ms_pct (ms_of (file_us p)) total_ms) (take 5 sorted)
      else []
  end.

Definition format_collection_profile (files : list FileProfile) (total_us : N) : list string :=
  let total_ms := ms_of total_us in
  let prescan_ms := ms_of (sum_us fpr_prescan_us files) in
  let collection_ms := ms_of (sum_us fpr_collection_us files) in
  let other_ms := f64_sub (f64_sub total_ms prescan_ms) collection_ms in
  ["Collection profile (" +:+ pretty (length files) +:+ " files, " +:+ fmt_fixed 0 total_ms +:+ "ms total):";
   "  prescan:    " +:+ ms_pct prescan_ms total_ms;
   "  collection: " +:+ ms_pct collection_ms total_ms;
   "  other:      " +:+ ms_pct other_ms total_ms]
  ++ slow_lines files total_ms.

(** ** Log events around a progress bar *)

Section Writer.
(** A registered progress bar, and the bytes of an event decoded. *)
Context {bar : Type} (from_utf8_lossy : string → string).

(** The shared handle, and what reached the bar or the error stream. *)
Record Console := mk_console { handle : option bar; shown : list (option bar * string) }.

Definition register (pb : bar) (c : Console) : Console := mk_console (Some pb) (shown c).
Definition deregister (c : Console) : Console := mk_console None (shown c).

Record PbWriter := mk_writer { buf : string }.
Definition make_writer : PbWriter := mk_writer "".

Definition pb_write (bytes : string) (w : PbWriter) : PbWriter := mk_writer (buf w +:+ bytes).

Definition pb_flush (w : PbWriter) (c : Console) : PbWriter * Console :=
  if String.eqb (buf w) "" then (w, c)
  else
    let msg := trim_end (from_utf8_lossy (buf w)) in
    (mk_writer "", if String.eqb msg "" then c else mk_console (handle c) (shown c ++ [(handle c, msg)])).

Definition pb_drop (w : PbWriter) (c : Console) : Console := (pb_flush w c).2.

(** What the writer of one event goes through, with the bar that may come and go. *)
Inductive WriterOp := OWrite (bytes : string) | OFlush | ORegister (pb : bar) | ODeregister.

Definition writer_op (op : WriterOp) (s : PbWriter * Console) : PbWriter * Console :=
  match op with
  | OWrite bytes => (pb_write bytes s.1, s.2)
  | OFlush => pb_flush s.1 s.2
  | ORegister pb => (s.1, register pb s.2)
  | ODeregister => (s.1, deregister s.2)
  end.

Definition write_event (ops : list WriterOp) (c : Console) : Console :=
  let '(w, c) := fold_left (λ s op, writer_op op s) ops (make_writer, c) in pb_drop w c.
End Writer.

(** * Theorems *)

(** ** What the scheduling lines say *)

Lemma count_tests_items groups : count_tests groups = length (flat_map items groups).
Proof. induction groups as [|g groups IH]; [done|]. simpl. unfold count_tests in *. simpl. by rewrite length_app, IH. Qed.

Section Scheduling.
Context (groups : list ModuleGroup) (cfg : ExecSettings) (fixture_groups : list (list string)).
Context (declaring_modules declaring_dirs : list string) (display : list (string * string)).
Context (estimated : option Z) (cpu_count : Z).

Let plan : ExecutionPlan :=
  plan_execution groups (ec_mode cfg) (ec_worker_count cfg) (ec_spawn_overhead cfg) (ec_min_parallel_tests cfg)
    fixture_groups declaring_modules declaring_dirs display estimated cpu_count.

(** The number of tests a line mentions is the number of tests of the run. *)
Lemma plan_tests_total : plan_tests plan = count_tests groups.
Proof.
  unfold plan_tests. rewrite !count_tests_items, <- length_app, <- flat_map_app.
  rewrite <- (Permutation_length (plan_items groups (ec_mode cfg) (ec_worker_count cfg) (ec_spawn_overhead cfg)
    (ec_min_parallel_tests cfg) fixture_groups declaring_modules declaring_dirs display estimated cpu_count)).
  fold plan. unfold phases. simpl. by rewrite !flat_map_app, (assoc_L (++)).
Qed.

(** The strategy is the decision. *)
Lemma plan_strategy :
  match strategy plan with Arrange.Serial => false | Parallel _ => true end =
  use_parallel (ec_mode cfg) (ec_worker_count cfg) (ec_spawn_overhead cfg) (ec_min_parallel_tests cfg)
    (count_tests groups) estimated.
Proof. unfold plan, plan_execution, count_tests. destruct (use_parallel _ _ _ _ _ _); [by destruct fixture_groups|done]. Qed.
End Scheduling.

(** The reason printed for the strategy is true of the estimate when more than
    one worker is configured; with one worker the line claims that the estimate is
    within the overhead, whatever the estimate. *)
Theorem scheduling_reason_needs_two_workers groups cfg fixture_groups modules dirs display est cpu_count :
  is_serial (ec_mode cfg) = false →
  let plan := plan_execution groups (ec_mode cfg) (ec_worker_count cfg) (ec_spawn_overhead cfg)
                (ec_min_parallel_tests cfg) fixture_groups modules dirs display (Some est) cpu_count in
  let exceeds := f64_gt (f64_of_Z est) (f64_mul (ec_spawn_overhead cfg) (f64_of_Z (ec_worker_count cfg))) in
  (reason_line cfg plan (Some est) = "scheduling: parallel " +:+ comparison est ">" cfg → exceeds = true) ∧
  ((1 < ec_worker_count cfg)%Z →
   reason_line cfg plan (Some est) = "scheduling: serial " +:+ comparison est "<=" cfg → exceeds = false) ∧
  ((ec_worker_count cfg ≤ 1)%Z →
   reason_line cfg plan (Some est) = "scheduling: serial " +:+ comparison est "<=" cfg).
Proof.
  intros Hs plan exceeds.
  pose proof (plan_strategy groups cfg fixture_groups modules dirs display (Some est) cpu_count) as Hp.
  fold plan in Hp. unfold use_parallel in Hp. fold exceeds in Hp. unfold reason_line. rewrite Hs in *. simpl in Hp.
  destruct (strategy plan) as [|n].
  - split_and!; [done| |done]. intros Hw _. rewrite (proj2 (Z.ltb_lt _ _) Hw) in Hp. simpl in Hp.
    symmetry in Hp. by apply orb_false_elim in Hp as [_ ?].
  - symmetry in Hp. apply andb_prop in Hp as [Hw He]. apply Z.ltb_lt in Hw.
    split_and!; [|by destruct (fixed_workers _)|lia].
    destruct (ec_mode cfg) as [|m|[|k]]; try done.
Qed.

(** [--workers 1], an estimate of five seconds and an overhead of 300 ms. *)
Definition one_worker : ExecSettings := {|
  ec_mode := ParallelMode (Fixed 1);
  ec_maxfail := 0;
  ec_timeout_secs := None;
  ec_timeout_multiplier := None;
  ec_spawn_overhead := f64_of_Z 300;
  ec_min_parallel_tests := 10;
  ec_schedule := LongestFirst;
  ec_worker_count := 1;
  ec_cpu_count := 8
|}.

Lemma scheduling_reason_needs_two_workers_witness :
  let plan := plan_execution [] (ec_mode one_worker) 1 (f64_of_Z 300) 10 [] [] [] [] (Some 5000%Z) 8 in
  reason_line one_worker plan (Some 5000%Z)
    = "scheduling: serial (est. 5000ms <= spawn overhead 300ms x 1 workers)" ∧
  f64_gt (f64_of_Z 5000) (f64_mul (f64_of_Z 300) (f64_of_Z 1)) = true.
Proof.
  destruct (scheduling_reason_needs_two_workers [] one_worker [] [] [] [] 5000 8 eq_refl) as (_ & _ & H).
  split; [apply H; done|by vm_compute].
Defined.

(** ** One event, one line *)

Section WriterTheorems.
Context {bar : Type} (from_utf8_lossy : string → string).

Abbreviation run := (fold_left (λ s op, writer_op (bar := bar) from_utf8_lossy op s)).

(** The bytes of an event, and the bar registered at its end. *)
Fixpoint event_bytes (ops : list (@WriterOp bar)) : string :=
  match ops with
  | [] => ""
  | OWrite b :: ops => b +:+ event_bytes ops
  | _ :: ops => event_bytes ops
  end.

Fixpoint last_bar (ops : list (@WriterOp bar)) (h : option bar) : option bar :=
  match ops with
  | [] => h
  | ORegister pb :: ops => last_bar ops (Some pb)
  | ODeregister :: ops => last_bar ops None
  | _ :: ops => last_bar ops h
  end.

Definition is_flush (op : @WriterOp bar) : bool := match op with OFlush => true | _ => false end.

Lemma run_unflushed ops w c :
  existsb is_flush ops = false →
  run ops (w, c) = (mk_writer (buf w +:+ event_bytes ops), mk_console (last_bar ops (handle c)) (shown c)).
Proof.
  revert w c. induction ops as [|op ops IH]; intros [b] [h l] Hf; simpl in *; [by rewrite str_app_nil_r|].
  destruct op; simpl in *; try done; rewrite IH by done; simpl; by rewrite ?str_app_assoc.
Qed.

(** The text of an event, however many pieces it is written in, is shown once
    and trimmed, on the bar registered at that time or else on the error stream,
    and a blank one not at all; a flush before the writer is dropped changes
    nothing. *)
Theorem event_shown_once ops c :
  existsb is_flush ops = false →
  let msg := trim_end (from_utf8_lossy (event_bytes ops)) in
  let bar := last_bar ops (handle c) in
  let after := mk_console bar
    (shown c ++ if String.eqb (event_bytes ops) "" || String.eqb msg "" then [] else [(bar, msg)]) in
  write_event from_utf8_lossy ops c = after ∧ write_event from_utf8_lossy (ops ++ [OFlush]) c = after.
Proof.
  intros Hf. unfold write_event. rewrite fold_left_app, (run_unflushed ops _ _ Hf).
  cbn [fold_left]. unfold writer_op, pb_drop, pb_flush. simpl. rewrite !str_app_nil_l.
  destruct (String.eqb (event_bytes ops) "") eqn:E; simpl; [by rewrite ?E, app_nil_r|].
  destruct (String.eqb (trim_end _) ""); simpl; by rewrite ?app_nil_r.
Qed.
End WriterTheorems.

Lemma event_shown_once_witness :
  write_event id [OWrite "retry"; ORegister 7; OWrite (" 2" +:+ newline)] (mk_console None [])
    = mk_console (Some 7) [(Some 7, "retry 2")].
Proof. apply (event_shown_once id [OWrite "retry"; ORegister 7; OWrite (" 2" +:+ newline)] (mk_console None [])). done. Defined.
