(* ===== verification/QueryRun.v ===== *)
(** * QueryRun: the query command, from source files to printed text

    [query/extract.rs], [query/format.rs], [query/detail.rs] and the rest of
    [query/mod.rs].  Parsing and reading a file, the answers of the Python
    session, [serde_json] and the lexer of the highlighter are
    parameters. *)
From stdpp Require Import pretty.
From S2P Require Import Prelude Collections Text F64 Types Query Config Ast Colors.

(** ** Entries of tests and marks ([extract.rs]) *)

Definition collect_fn_marks (decorator_list : list Ast.Expr.t) : list string :=
  omap extract_mark_name decorator_list.

Definition bool_str (b : bool) : string := if b then "true" else "false".

Definition make_test_entry (file fn_name : string) (class_name : option string) (is_async : bool)
    (marks : list string) : QueryEntry :=
  let name := match class_name with
              | Some cls => file +:+ "::" +:+ cls +:+ "::" +:+ fn_name
              | None => file +:+ "::" +:+ fn_name
              end in
  {| fields := <["mark" := join "," marks]> (<["async" := bool_str is_async]>
       (<["source" := file]> {["name" := name]})) |}.

(** What one parsed file adds. *)
Definition file_test_entries (file : string) (stmts : list Stmt.t) : list QueryEntry :=
  map (λ '(def, class),
    make_test_entry file (def_name def) (cls_name <$> class) (def_is_async def)
      (collect_fn_marks (def_decorator_list def))) (walk_test_defs stmts).

(** [BTreeMap<String, BTreeSet<String>>], read in the order of its keys. *)
Definition sources_map : Type := gmap string (gset string).

Definition add_source (file : string) (m : sources_map) (mark : string) : sources_map :=
  <[mark := default ∅ (m !! mark) ∪ {[file]}]> m.

Definition seed_markers (registered : list string) : sources_map :=
  fold_left (λ m marker, <[marker := default ∅ (m !! marker)]> m) registered ∅.

Definition mark_entry (p : string * gset string) : QueryEntry :=
  {| fields := <["used_in" := join "," (sort_by String.compare (elements p.2))]> {["name" := p.1]} |}.

Definition mark_entries_of (m : sources_map) : list QueryEntry :=
  map mark_entry (sort_by (λ p q, String.compare p.1 q.1) (map_to_list m)).

Section Extract.
Context (suite_parse : string → string → result (list Stmt.t) ParseError).
Context (read_to_string : string → result string string).
Abbreviation parse_file := (parse_file suite_parse read_to_string).

Definition extract_test_entries (test_files : list string) : list QueryEntry :=
  fold_left (λ entries file,
    match parse_file file with
    | None => entries
    | Some (_, stmts) => entries ++ file_test_entries file stmts
    end) test_files [].

Definition extract_mark_entries (test_files registered_markers : list string) : list QueryEntry :=
  mark_entries_of (fold_left (λ m file,
    match parse_file file with
    | None => m
    | Some (_, stmts) => fold_left (add_source file) (extract_decorator_marks stmts) m
    end) test_files (seed_markers registered_markers)).

(** The files are parsed in parallel; [collect] keeps their order. *)
Definition parsed_file (file : string) : option (string * list QueryEntry * list string) :=
  match parse_file file with
  | None => None
  | Some (_, stmts) => Some (file, file_test_entries file stmts, extract_decorator_marks stmts)
  end.

Definition extract_test_and_mark_entries (test_files registered_markers : list string)
    : list QueryEntry * list QueryEntry :=
  let per_file := omap parsed_file test_files in
  let '(tests, m) := fold_left (λ '(tests, m) '(file, file_tests, marks),
    (tests ++ file_tests, fold_left (add_source file) marks m)) per_file ([], seed_markers registered_markers) in
  (tests, mark_entries_of m).

End Extract.

(** ** Output ([format.rs]) *)

Definition tab : string := String (Ascii.ascii_of_nat 9) "".

Definition blanks (n : nat) : string := String.concat "" (replicate n " ").

(** [{val:<width$}]: a width in characters. *)
Definition pad_cell (width : nat) (s : string) : string := s +:+ blanks (width - length (chars s)).

Definition cell (entry : QueryEntry) (col : string) : string := default "" (entry_get entry col).

Definition column_width (entries : list QueryEntry) (col : string) : nat :=
  fold_left (λ w e, Nat.max w (String.length (cell e col))) entries (String.length col).

(** One row: every column but the last is padded. *)
Fixpoint columnar_row (entries : list QueryEntry) (entry : QueryEntry) (columns : list string) : string :=
  match columns with
  | [] => ""
  | [col] => cell entry col
  | col :: columns =>
      pad_cell (column_width entries col + 2) (cell entry col) +:+ columnar_row entries entry columns
  end.

Definition format_columnar (entries : list QueryEntry) (columns : list string) : string :=
  match entries with
  | [] => "no results" +:+ newline
  | _ =>
      let count := length entries in
      String.concat "" (map (λ e, columnar_row entries e columns +:+ newline) entries) +:+
      newline +:+ pretty count +:+ " " +:+ (if count =? 1 then "result" else "results") +:+ newline
  end.

Definition format_tab (entries : list QueryEntry) (columns : list string) : string :=
  match entries with
  | [] => "no results" +:+ newline
  | _ => String.concat "" (map (λ e, join tab (map (cell e) columns) +:+ newline) entries)
  end.

Section Jsonl.
(** [serde_json::to_string] of an object, its members in order. *)
Context (to_json : list (string * string) → string).

Definition format_jsonl (entries : list QueryEntry) : string :=
  String.concat "" (map (λ e,
    to_json (sort_by (λ p q, String.compare p.1 q.1) (map_to_list (fields e))) +:+ newline) entries).
End Jsonl.

(** ** The card of one entry ([detail.rs]) *)

Definition fields_for (resource : ResourceKind) : list string :=
  match resource with
  | Tests => ["source"; "mark"; "async"]
  | Fixtures => ["description"; "source"; "lifetime"; "autouse"; "async"]
  | Marks => ["used_in"]
  | Plugins => ["protocol"]
  end.

(** Where the next statement starts on screen, its decorators included. *)
Definition stmt_decorators (s : Stmt.t) : list Ast.Expr.t :=
  match s with
  | Stmt.FunctionDef f | Stmt.AsyncFunctionDef f => fn_decorator_list f
  | Stmt.ClassDef c => cls_decorator_list c
  | _ => []
  end.

Definition next_stmt_line (rest : list Stmt.t) (line_index : list N) : option N :=
  match rest with
  | [] => None
  | next :: _ =>
      let stmt_line := offset_to_line line_index (r_start (Stmt.range_of next)) in
      let first_decorator_line :=
        match stmt_decorators next with
        | [] => stmt_line
        | d :: _ => offset_to_line line_index (r_start (Ast.Expr.range_of d))
        end in
      Some (N.min first_decorator_line stmt_line)
  end.

(** The lines of a definition, the last one exclusive when a statement follows. *)
Definition definition_lines (f : fn_node) (rest : list Stmt.t) (line_index : list N) : N * N :=
  let start := offset_to_line line_index (r_start (fn_range f)) in
  (start, default (offset_to_line line_index (r_end (fn_range f))) (next_stmt_line rest line_index)).

(** [find_function_lines], over the statements left at each point. *)
Definition find_in (search : Stmt.t → option (N * N)) (fn_name_ : string) (line_index : list N)
    : list Stmt.t → option (N * N) :=
  fix go stmts :=
    match stmts with
    | [] => None
    | s :: rest =>
        match s with
        | Stmt.FunctionDef f | Stmt.AsyncFunctionDef f =>
            if String.eqb (Ast.fn_name f) fn_name_ then Some (definition_lines f rest line_index) else go rest
        | _ => match search s with Some r => Some r | None => go rest end
        end
    end.

Fixpoint find_in_class (fn_name_ : string) (line_index : list N) (s : Stmt.t) : option (N * N) :=
  match s with
  | Stmt.ClassDef (mk_class _ name _ _ body _) =>
      if is_test_class name then find_in (find_in_class fn_name_ line_index) fn_name_ line_index body else None
  | _ => None
  end.

Definition find_function_lines (stmts : list Stmt.t) (fn_name_ : string) (line_index : list N) : option (N * N) :=
  find_in (find_in_class fn_name_ line_index) fn_name_ line_index stmts.

(** The blank lines at the end are dropped. *)
Definition trim_blank_end (lines : list string) : list string :=
  rev (drop_while (λ l, String.eqb (trim l) "") (rev lines)).

Section Snippet.
Context (suite_parse : string → string → result (list Stmt.t) ParseError).
Context (read_to_string : string → result string string).

(** The lines [start..end] of a file, with both given from 1. *)
Definition snippet_of (lines : list string) (start_line end_line : N) : option string :=
  let start := N.to_nat (N.pred start_line) in
  let end_ := Nat.min (N.to_nat (N.pred end_line)) (length lines) in
  if (length lines <=? start) || (end_ <=? start) then None
  else
    match trim_blank_end (take (end_ - start) (drop start lines)) with
    | [] => None
    | snippet => Some (join newline snippet +:+ newline)
    end.

Definition extract_source_snippet (entry : QueryEntry) : option string :=
  match entry_get entry "source", entry_get entry "name" with
  | Some source_path, Some name =>
      match parse_file suite_parse read_to_string source_path with
      | Some (source, stmts) =>
          match find_function_lines stmts (rsplit_next "::" name) (build_line_index source) with
          | Some (start_line, end_line) => snippet_of (str_lines source) start_line end_line
          | None => None
          end
      | None => None
      end
  | _, _ => None
  end.

(** The terminal styles and the lexer of the highlighter. *)
Context {styling : Styling} (lex_python : string → list (option (Tok * (nat * nat)))).

Definition colorize_field_value (field val : string) (use_color : bool) : string :=
  if negb use_color then val
  else if String.eqb field "source" then color C_blue val true
  else if String.eqb val "true" then color C_dim_green val true
  else if String.eqb val "false" then color C_dim val true
  else val.

Definition detail_field (entry : QueryEntry) (use_color : bool) (field : string) : string :=
  match entry_get entry field with
  | None | Some "" => ""
  | Some val =>
      let label := color C_dim (field +:+ ":") use_color in
      if contains "," val then
        "  " +:+ label +:+ newline +:+
        String.concat "" (map (λ item, "    " +:+ color C_dim "-" use_color +:+ " " +:+ trim item +:+ newline)
          (split "," val))
      else "  " +:+ pad_cell 14 label +:+ colorize_field_value field val use_color +:+ newline
  end.

Definition rule : string := of_chars [9472; 9472; 9472]%N.

Definition format_detail (entry : QueryEntry) (resource : ResourceKind) (use_color : bool) : string :=
  color C_dim rule use_color +:+ " " +:+ color C_bold_cyan (default "<unknown>" (entry_get entry "name")) use_color
    +:+ " " +:+ color C_dim rule use_color +:+ newline +:+ newline
  +:+ String.concat "" (map (detail_field entry use_color) (fields_for resource))
  +:+ match extract_source_snippet entry with
      | Some snippet => newline +:+ highlight_python lex_python snippet use_color
      | None => ""
      end.

(** ** The command ([mod.rs]) *)

Definition default_columns (_ : ResourceKind) : list string := ["name"].

(** The answers of the Python session. *)
Record QuerySession := {
  fixture_entries : result (list (gmap string string)) string;
  plugin_entries : result (list (gmap string string)) string;
  test_fixture_deps : list string → result (list (gmap string string)) string
}.

Definition raw_entries (r : result (list (gmap string string)) string) : result (list QueryEntry) string :=
  let? raw := r in Ok (map Build_QueryEntry raw).

Definition collect_entries (resource : ResourceKind) (test_files : list string)
    (session : option QuerySession) (registered : list string) : result (list QueryEntry) string :=
  match resource with
  | Tests =>
      let entries := extract_test_entries suite_parse read_to_string test_files in
      match session with
      | Some s => let? deps := test_fixture_deps s test_files in Ok (enrich_tests_with_fixture_deps deps entries)
      | None => Ok entries
      end
  | Marks => Ok (extract_mark_entries suite_parse read_to_string test_files registered)
  | Fixtures => match session with Some s => raw_entries (fixture_entries s) | None => Ok [] end
  | Plugins => match session with Some s => raw_entries (plugin_entries s) | None => Ok [] end
  end.

Context (uni_alnum : N → bool).
Context {regex : Type} (regex_new : string → result regex string)
  (regex_is_match : regex → string → bool).
Context (show_dsl_error : DslError → string) (to_json : list (string * string) → string).

(** [--detail]: the first entry whose name contains the identifier. *)
Definition find_detail (id : string) (entries : list QueryEntry) : option QueryEntry :=
  List.find (λ e, match entry_get e "name" with Some n => contains id n | None => false end) entries.

Definition render_entries (args : QueryArgs) (entries : list QueryEntry) (is_tty use_color : bool)
    : result string string :=
  let resource := qa_resource args in
  match qa_detail args with
  | Some id =>
      match find_detail id entries with
      | Some entry => Ok (format_detail entry resource use_color)
      | None => Err ("no " +:+ resource_as_str resource +:+ " matching '" +:+ id +:+ "'")
      end
  | None =>
      if qa_count args then Ok (pretty (length entries) +:+ " " +:+ resource_as_str resource +:+ newline)
      else if qa_jsonl args then Ok (format_jsonl to_json entries)
      else if is_tty then Ok (format_columnar entries (default_columns resource))
      else Ok (format_tab entries (default_columns resource))
  end.

Definition matching_entries (args : QueryArgs) (entries : list QueryEntry) : result (list QueryEntry) string :=
  map_err show_dsl_error
    (filter_entries uni_alnum regex_new regex_is_match (qa_resource args) (qa_expression args) entries).

Definition run_query (args : QueryArgs) (test_files : list string) (session : option QuerySession)
    (registered : list string) (is_tty use_color : bool) : result string string :=
  let? entries := collect_entries (qa_resource args) test_files session registered in
  let? entries := matching_entries args entries in
  render_entries args entries is_tty use_color.

(** [\u{2502}] *)
Definition bar : string := of_chars [9474%N].

Definition keybindings (resource : ResourceKind) : list string :=
  ["--bind=ctrl-y:execute-silent(echo -n {1} | xclip -selection clipboard 2>/dev/null || echo -n {1} | pbcopy 2>/dev/null)";
   "--bind=ctrl-e:execute($EDITOR {2} 2>/dev/null)"] ++
  match resource with
  | Tests =>
      ["--multi"; "--bind=enter:become(oxitest run {+1})"; "--bind=ctrl-r:become(oxitest debug {1})";
       "--header=TAB select " +:+ bar +:+ " ENTER run " +:+ bar +:+ " ^R debug " +:+ bar +:+ " ^Y copy "
         +:+ bar +:+ " ^E edit"]
  | Fixtures =>
      ["--bind=enter:execute(oxitest query fixtures --tree)";
       "--header=ENTER tree " +:+ bar +:+ " ^Y copy " +:+ bar +:+ " ^E edit"]
  | _ => ["--header=^Y copy " +:+ bar +:+ " ^E edit"]
  end.

Definition fzf_arguments (resource : ResourceKind) : list string :=
  ["--ansi"; "--delimiter=" +:+ tab; "--with-nth=1..";
   "--preview=oxitest query " +:+ resource_as_str resource +:+ " --detail {1} --color always";
   "--preview-window=right:50%:wrap"] ++ keybindings resource.

(** What [run_fzf] hands to the process: the lines on its standard input, and
    its arguments.  The expression is compiled before anything is collected. *)
Definition fzf_input (args : QueryArgs) (test_files : list string) (session : option QuerySession)
    (registered : list string) : result (string * list string) string :=
  let? _ := matching_entries args [] in
  let? entries := collect_entries (qa_resource args) test_files session registered in
  let? entries := matching_entries args entries in
  match entries with
  | [] => Err "no results to display"
  | _ => Ok (format_tab entries (default_columns (qa_resource args)), fzf_arguments (qa_resource args))
  end.

End Snippet.

(** * Theorems *)

(** ** Extraction *)

Section ExtractTheorems.
Context (suite_parse : string → string → result (list Stmt.t) ParseError).
Context (read_to_string : string → result string string).

(** Parsing each file once gives the tests and the marks that two separate
    passes give, for every list of files, readable or not. *)
Theorem combined_extraction_agrees files registered :
  extract_test_and_mark_entries suite_parse read_to_string files registered =
    (extract_test_entries suite_parse read_to_string files,
     extract_mark_entries suite_parse read_to_string files registered).
Proof.
  unfold extract_test_and_mark_entries, extract_test_entries, extract_mark_entries.
  generalize ([] : list QueryEntry), (seed_markers registered).
  induction files as [|file files IH]; intros tests m; [done|]. csimpl. unfold parsed_file at 1.
  destruct (parse_file suite_parse read_to_string file) as [[src stmts]|]; csimpl; apply IH.
Qed.

End ExtractTheorems.

(** ** Output *)

Lemma concat_cons (a : string) l : String.concat "" (a :: l) = a +:+ String.concat "" l.
Proof. destruct l; [symmetry; apply str_app_nil_r|done]. Qed.

Lemma concat_lines {A} (f : A → string) (l : list A) :
  String.concat "" (map (λ a, f a +:+ newline) l) = join newline (map f l ++ [""]).
Proof.
  induction l as [|a l IH]; [done|]. cbn [map app].
  assert (map f l ++ [""] ≠ []) by (by destruct (map f l)).
  rewrite concat_cons, IH, join_cons by done. by rewrite str_app_assoc.
Qed.

Lemma contains_char_app c a b :
  contains (String c "") (a +:+ b) = contains (String c "") a || contains (String c "") b.
Proof.
  induction a as [|x a IH]; [done|]. rewrite str_app_cons, !contains_char_cons, IH. by rewrite orb_assoc.
Qed.

Lemma join_free c sep l :
  contains (String c "") sep = false → Forall (λ p, contains (String c "") p = false) l →
  contains (String c "") (join sep l) = false.
Proof.
  intros Hs. induction 1 as [|a l Ha Hl IH]; [done|]. destruct l as [|b l]; [done|].
  by rewrite join_cons, !contains_char_app, Ha, Hs, IH.
Qed.

(** The rows of a tab-delimited text. *)
Definition read_tab (s : string) : list (list string) := map (split tab) (removelast (split newline s)).

(** Tab-delimited output reads back: with no tab or line break inside a value,
    splitting lines and columns gives every entry's values, one row per entry. *)
Theorem tab_output_roundtrip entries columns :
  entries ≠ [] → columns ≠ [] →
  (∀ e c, e ∈ entries → c ∈ columns → contains tab (cell e c) = false ∧ contains newline (cell e c) = false) →
  read_tab (format_tab entries columns) = map (λ e, map (cell e) columns) entries.
Proof.
  intros He Hc Hcells. unfold read_tab, format_tab. destruct entries as [|e0 entries0] eqn:Ee; [done|].
  rewrite <-Ee in *. rewrite (concat_lines (λ e, join tab (map (cell e) columns))).
  assert (∀ e, e ∈ entries → Forall (λ p, contains tab p = false) (map (cell e) columns) ∧
    Forall (λ p, contains newline p = false) (map (cell e) columns)) as Hrow.
  { intros e Hin. split; apply Forall_forall; intros p (c & Hcin & <-)%map_elem; by apply Hcells. }
  unfold newline. rewrite split_join_char.
  - rewrite removelast_last, map_map. apply map_ext_in. intros e Hin%list_elem_of_In.
    unfold tab. apply split_join_char; [by destruct columns|by apply Hrow].
  - by rewrite Ee.
  - apply Forall_app. split; [|by repeat constructor]. apply Forall_forall.
    intros p (e & Hin & <-)%map_elem. apply join_free; [done|]. by apply Hrow.
Qed.

(** Nothing follows the name in what the interactive browser reads, so a binding
    on the second field, which [keybindings] gives to the editor, gets nothing. *)
Lemma fzf_rows_have_one_field entries resource :
  entries ≠ [] →
  (∀ e, e ∈ entries → contains tab (cell e "name") = false ∧ contains newline (cell e "name") = false) →
  Forall (λ row, length row = 1) (read_tab (format_tab entries (default_columns resource))).
Proof.
  intros He Hn. rewrite tab_output_roundtrip; [|done|done|].
  - apply Forall_forall. by intros row (e & _ & <-)%map_elem.
  - intros e c Hin ->%list_elem_of_singleton. by apply Hn.
Qed.

(** ** Source snippets *)

Lemma drop_while_suffix {A} (f : A → bool) l : ∃ p, l = p ++ drop_while f l.
Proof.
  induction l as [|a l [p Hp]]; [by exists []|]. simpl. destruct (f a); [|by exists []].
  exists (a :: p). simpl. by rewrite <-Hp.
Qed.

Lemma trim_blank_end_prefix l : ∃ rest, l = trim_blank_end l ++ rest.
Proof.
  unfold trim_blank_end. destruct (drop_while_suffix (λ l, String.eqb (trim l) "") (rev l)) as [p Hp].
  exists (rev p). by rewrite <-rev_app_distr, <-Hp, rev_involutive.
Qed.

(** A snippet is made of the lines from the first, up to the last, exclusive. *)
Lemma snippet_of_lines lines a b text :
  snippet_of lines a b = Some text →
  ∃ shown rest, text = join newline shown +:+ newline ∧
    take (N.to_nat (N.pred b) - N.to_nat (N.pred a)) (drop (N.to_nat (N.pred a)) lines) = shown ++ rest.
Proof.
  unfold snippet_of. destruct (_ || _) eqn:Hg; [done|]. apply orb_false_elim in Hg as [H1%Nat.leb_gt H2%Nat.leb_gt].
  set (shown := trim_blank_end _). destruct (trim_blank_end_prefix
    (take (Nat.min (N.to_nat (N.pred b)) (length lines) - N.to_nat (N.pred a)) (drop (N.to_nat (N.pred a)) lines)))
    as [rest Hrest]. fold shown in Hrest. intros E. exists shown, rest.
  split; [by destruct shown; [done|injection E as <-]|]. rewrite <-Hrest.
  destruct (Nat.le_ge_cases (N.to_nat (N.pred b)) (length lines)) as [Hle|Hge].
  - by rewrite Nat.min_l.
  - rewrite Nat.min_r by done. rewrite !take_ge; [done|rewrite length_drop; lia..].
Qed.

Lemma find_in_app search name idx before rest :
  find_in search name idx before = None →
  (∀ f, Stmt.FunctionDef f ∈ before ∨ Stmt.AsyncFunctionDef f ∈ before → Ast.fn_name f ≠ name) →
  find_in search name idx (before ++ rest) = find_in search name idx rest.
Proof.
  intros Hn Hf. induction before as [|s before IH]; [done|]. cbn [app].
  assert (∀ f, Stmt.FunctionDef f ∈ before ∨ Stmt.AsyncFunctionDef f ∈ before → Ast.fn_name f ≠ name) as Hf'.
  { intros f [H|H]; apply Hf; [left|right]; by right. }
  destruct s; cbn [find_in] in *;
    try (destruct (search _); [done|]; by apply IH);
    (destruct (String.eqb_spec (Ast.fn_name f) name) as [E|_]; [done|]; by apply IH).
Qed.

(** The last definition of a file, or of a test class, loses its last line in
    the card: no statement follows, so the exclusive end of the snippet is the
    line the definition itself ends on.  A definition on one line is not shown
    at all. *)
Theorem last_definition_loses_its_last_line before f idx lines :
  find_function_lines before (Ast.fn_name f) idx = None →
  (∀ g, Stmt.FunctionDef g ∈ before ∨ Stmt.AsyncFunctionDef g ∈ before → Ast.fn_name g ≠ Ast.fn_name f) →
  let first := offset_to_line idx (r_start (fn_range f)) in
  let last := offset_to_line idx (r_end (fn_range f)) in
  find_function_lines (before ++ [Stmt.FunctionDef f]) (Ast.fn_name f) idx = Some (first, last) ∧
  (∀ text, snippet_of lines first last = Some text →
     ∃ shown rest, text = join newline shown +:+ newline ∧
       take (N.to_nat (N.pred last) - N.to_nat (N.pred first)) (drop (N.to_nat (N.pred first)) lines) = shown ++ rest) ∧
  (first = last → snippet_of lines first last = None).
Proof.
  intros Hn Hd first last. split_and!.
  - unfold find_function_lines. rewrite find_in_app by done. cbn [find_in].
    rewrite String.eqb_refl. done.
  - intros text. apply snippet_of_lines.
  - intros E. unfold snippet_of. rewrite E.
    assert ((Nat.min (N.to_nat (N.pred last)) (length lines) <=? N.to_nat (N.pred last)) = true) as ->
      by (apply Nat.leb_le; lia). by rewrite orb_true_r.
Qed.

(** ** The card of an entry *)

Lemma find_app {A} (f : A → bool) a x b :
  Forall (λ y, f y = false) a → f x = true → List.find f (a ++ x :: b) = Some x.
Proof. intros Ha Hx. induction Ha as [|y a Hy _ IH]; simpl; [by rewrite Hx|by rewrite Hy]. Qed.

(** [--detail] takes the first name that contains the identifier, so a test whose
    name begins with another's, and comes first, is shown in its place. *)
Theorem detail_shows_an_earlier_longer_name id suffix before longer after exact :
  Forall (λ e, match entry_get e "name" with Some n => contains id n | None => false end = false) before →
  entry_get longer "name" = Some (id +:+ suffix) → entry_get exact "name" = Some id → exact ∈ after →
  find_detail id (before ++ longer :: after) = Some longer.
Proof.
  intros Hb Hl _ _. apply find_app; [done|]. rewrite Hl. apply contains_true. by exists "", suffix.
Qed.

(** ** Examples *)

(** [def test_a():] on lines 1 and 2, at the end of a file. *)
Definition last_fn : fn_node :=
  mk_fn {| r_start := 0; r_end := 22 |} "test_a" (mk_arguments [] [] None [] None) [] [] None.

Definition last_source : string := "def test_a():" +:+ newline +:+ "    pass" +:+ newline.

Lemma last_definition_loses_its_last_line_witness :
  let idx := build_line_index last_source in
  find_function_lines [Stmt.FunctionDef last_fn] "test_a" idx = Some (1%N, 2%N) ∧
  snippet_of (str_lines last_source) 1 2 = Some ("def test_a():" +:+ newline).
Proof.
  destruct (last_definition_loses_its_last_line [] last_fn (build_line_index last_source) (str_lines last_source))
    as (H & _ & _); [reflexivity| |split; [exact H|vm_compute; reflexivity]].
  intros g [Hg|Hg]; by apply elem_of_nil in Hg.
Defined.
