(* ===== verification/Pipeline.v ===== *)
(** * Pipeline: the transitions of a run, composed

    [pipeline/transitions/*.rs], [pipeline/helpers.rs] and the commands of
    [pipeline/mod.rs].  A pipeline is what all phases share and the current
    phase; a transition takes it to the next phase, or stops the run with an
    exit code, or, called in another phase, panics.

    The components are those of the files before; what a transition asks of
    Python is a field of the record [Python]. *)
From stdpp Require Import pretty.
From S2P Require Import Prelude Collections Text F64 Paths Types Query Scheduler Cache Filter Arrange Report Artifacts Retry Wire Drain Parallel Strict Config Setup Ast Prescan Doctest Coverage Collect DocAudit Execution Verdict EditDistance Affected Colors QueryRun.

(** ** Phases *)

(** [PipelineShared], with what set-up leaves in it first. *)
Record Shared := mk_sh {
  sd_setup : PipelineShared;
  sd_cache : TestCache;
  sd_ast_weight : option f64;
  sd_fx_usages : list (string * list FxUsage);
  sd_test_files : list string;
  sd_fixture_modules : list FixtureModule;
  sd_pending : list DiagnosticEntry
}.

Definition sd_cfg (sh : Shared) : Config := sh_cfg (sd_setup sh).
Definition sd_command (sh : Shared) : Command := sh_command (sd_setup sh).

Definition with_files (sh : Shared) (files : list string) : Shared :=
  mk_sh (sd_setup sh) (sd_cache sh) (sd_ast_weight sh) (sd_fx_usages sh) files (sd_fixture_modules sh)
    (sd_pending sh).
Definition with_cache (sh : Shared) (c : TestCache) : Shared :=
  mk_sh (sd_setup sh) c (sd_ast_weight sh) (sd_fx_usages sh) (sd_test_files sh) (sd_fixture_modules sh)
    (sd_pending sh).
Definition with_pending (sh : Shared) (l : list DiagnosticEntry) : Shared :=
  mk_sh (sd_setup sh) (sd_cache sh) (sd_ast_weight sh) (sd_fx_usages sh) (sd_test_files sh)
    (sd_fixture_modules sh) l.

(** [build_shared], given the cache file's contents. *)
Definition new_shared (s : PipelineShared) (cache : TestCache) : Shared := mk_sh s cache None [] [] [] [].

Inductive Stop :=
  | Exit (code : ExitCode.t)
  | WrongPhase.

(** The calls a pipeline's Python session has seen come with it from
    [SessionReady] on, its state once tests have run with [Executed]. *)
Inductive PipelinePhase {world : Type} :=
  | EmptyPhase
  | FilesCollected
  | PrescannedPhase (prescan_data : list PrescanModule) (module_markers : list (string * list string))
  | MetadataFiltered (modules_to_import : list string)
  | SessionReady (calls : list py_call) (session_violations : list RawViolation)
  | Collected (calls : list py_call) (items : list TestItem) (raw_violations : list RawViolation)
  | Ready (calls : list py_call) (clean_items violated_items : list TestItem)
      (all_violations : list StrictViolation) (suite_lines : list string)
  | Executed (items : list TestItem) (timings : list TestTiming) (interrupted : bool)
      (reporters : list reporter) (rep : ReporterSession) (now : world).

(** ** Python *)

(** An exception: its text, and whether [is_usage_error] holds of it. *)
Definition py_error : Type := string * bool.

Record Python := {
  start_coverage : result unit string;
  new_fixture_session : string → result (list RawViolation) py_error;
  load_plugins : list string → gmap string toml → result unit py_error;
  activate_deferred_plugins :
    gmap string toml → gmap string (gmap string toml) → result unit py_error;
  plugin_fixture_homes :
    list string → gmap string toml → result (list PluginFixtureHome) (CollectError * bool);
  record_plugin_anchor : list py_call → string → result unit CollectError;
  init_async_backend : string → result unit py_error;
  collection : Bridge;
  find_unused_fixtures : list py_call → list TestItem → result (list RawViolation) string;
  validate_fx_boundaries : list py_call → list (string * list FxUsage) → list string →
    result (list (string * nat * string)) string;
  validate_fixture_names : list py_call → list TestItem → result (list (string * string)) string;
  registered_fixture_names : list py_call → result (list string) string;
  drain_session_diagnostics : list py_call → list DiagnosticEntry;
  get_plugin_reporters : list py_call → result nat string;
  worker_payloads : list FixtureModule → list string → gmap string toml → result unit string
}.

Section Pipeline.
(** The crates [globset] and [ignore], the file system. *)
Context {pattern globset glob_error : Type}.
Context (glob_new : string → result pattern glob_error)
  (set_build : list pattern → result globset glob_error) (is_match : globset → string → bool)
  (show_glob_error : glob_error → string).
Context {glob : Type} (glob_build : string → option glob) (glob_is_match : glob → string → bool).
Context (is_file exists_ : string → bool) (canonicalize : string → option string).
Context (walk : string → bool → list string → list found_entry).
Context (walk_one : string → bool → list walk_entry).
(** The parser, file contents, and [Doctest.resolve_alias]. *)
Context (suite_parse : string → string → result (list Stmt.t) ParseError).
Context (read_to_string : string → result string string).
Context (stdlib : option (gset string)).
Context (resolve_alias_ : ModuleRoot → SubjectSource → string → result Resolved AliasError).
Context (prescan_us collection_us : string → N).
(** [char::is_alphanumeric] and the [regex] crate. *)
Context (uni_alnum : N → bool).
Context {regex : Type} (regex_new : string → result regex string)
  (regex_is_match : regex → string → bool).
(** Git, and the imports of a file. *)
Context (git : list string → string → result Output string).
Context (collected_imports : string → gset string).
(** Python, running tests, and the worker pool. *)
Context (py : Python).
Context {world : Type} (world_of : list py_call → world) (ops : @FixtureOps world).
Context (parallel : Z → list TaskGroup.t → @Execution.Run world → PhaseResult * @Execution.Run world).
Context (shuffle : list ModuleGroup → list ModuleGroup).
Context (cpu_count : Z).
(** Which artifact paths can be written. *)
Context (written : string → bool).

Abbreviation Phase := (@PipelinePhase world).
Abbreviation Pipeline := (Shared * Phase)%type.

(** ** Reporters *)

Definition json_path (sh : Shared) : option string :=
  match sd_command sh with Setup.Run args => ra_json args | _ => None end.

Definition junit_xml_path (sh : Shared) : option string :=
  match sd_command sh with Setup.Run args => ra_junit_xml args | _ => None end.

(** The vote of an artifact reporter does not depend on its entries, which
    [Artifacts] follows. *)
Definition json_reporter (path : string) : reporter :=
  λ collect_errors _ _, (json_finish (written path) [] collect_errors).2.

Definition junit_reporter (path : string) : reporter :=
  λ collect_errors _ _, (junit_finish (written path) f64_zero [] collect_errors).2.

Definition plugin_reporter : reporter := λ _ _ _, Abstain.

Definition make_reporter (json junit : option string) (plugin_reporters : nat) : list reporter :=
  standard_finish
    :: match json with Some path => [json_reporter path] | None => [] end
    ++ match junit with Some path => [junit_reporter path] | None => [] end
    ++ replicate plugin_reporters plugin_reporter.

Definition make_error_reporter (sh : Shared) : list reporter :=
  make_reporter (json_path sh) (junit_xml_path sh) 0.

(** [reporter.finish(..).code()] *)
Definition finish (reporters : list reporter) (rep : ReporterSession) (errors : list CollectError)
    (interrupted : bool) : ExitCode.t :=
  vote_code (composite_finish reporters rep errors interrupted).1.

(** A batch of diagnostics, recorded when there are any. *)
Definition record_some (rep : ReporterSession) (l : list DiagnosticEntry) : ReporterSession :=
  match l with [] => rep | _ => record_diagnostics rep l end.

Definition early_exit_with_error (sh : Shared) (errors : list CollectError) : ExitCode.t :=
  finish (make_error_reporter sh) (new_session 0) errors false.

Definition early_exit_with_diagnostics (sh : Shared) (calls : list py_call)
    (pending : list DiagnosticEntry) (errors : list CollectError) : ExitCode.t :=
  finish (make_error_reporter sh)
    (record_some (record_some (new_session 0) (drain_session_diagnostics py calls)) pending) errors false.

Definition early_exit_with_class (sh : Shared) (errors : list CollectError) (usage : bool) : ExitCode.t :=
  let code := early_exit_with_error sh errors in
  if usage then ExitCode.UsageError else code.

(** ** Files *)

Definition collect_files (p : Pipeline) : result Pipeline Stop :=
  let '(sh, phase) := p in
  match phase with
  | EmptyPhase =>
      match Collect.collect_files glob_new set_build is_match is_file canonicalize walk (sd_cfg sh) with
      | Ok files => Ok (with_files sh files, FilesCollected)
      | Err _ => Err (Exit ExitCode.UsageError)
      end
  | _ => Err WrongPhase
  end.

Definition affected (p : Pipeline) : result Pipeline Stop :=
  let '(sh, phase) := p in
  match phase with
  | FilesCollected =>
      match Config.affected (filter_cfg (sd_cfg sh)) with
      | None => Ok p
      | Some base_ref =>
          match filter_affected_with_diagnostics canonicalize git collected_imports (sd_test_files sh)
                  (rootdir (sd_cfg sh)) base_ref with
          | Ok (Some [], _) => Err (Exit ExitCode.Success)
          | Ok (Some files, _) => Ok (with_files sh files, FilesCollected)
          | Ok (None, _) | Err _ => Ok p
          end
      end
  | _ => Err WrongPhase
  end.

Definition prescan (p : Pipeline) : result Pipeline Stop :=
  let '(sh, phase) := p in
  match phase with
  | FilesCollected =>
      let st := Prescan.prescan suite_parse read_to_string stdlib exists_ (sd_test_files sh) in
      Ok (mk_sh (sd_setup sh) (sd_cache sh) (ast_weight st) (ps_fx_usages st) (sd_test_files sh)
            (sd_fixture_modules sh) (sd_pending sh),
          PrescannedPhase (map fst (ps_data st)) (ps_module_markers st))
  | _ => Err WrongPhase
  end.

Definition expression_of (cmd : Command) : option string :=
  match cmd with
  | Setup.Run a => fa_expression (ra_filter a)
  | Debug a => fa_expression (da_filter a)
  | _ => None
  end.

(** The filters of the run, as [Filter] takes them. *)
Definition metadata_config (sh : Shared) : MetadataConfig :=
  let f := filter_cfg (sd_cfg sh) in
  {| fc_node_ids := node_ids f; fc_expression := expression_of (sd_command sh);
     fc_failed := failed f; fc_affected := bool_decide (is_Some (Config.affected f)) |}.

Definition filter_metadata (p : Pipeline) : result Pipeline Stop :=
  let '(sh, phase) := p in
  match phase with
  | PrescannedPhase prescan_data module_markers =>
      Ok (sh, MetadataFiltered (Filter.filter_metadata glob_build glob_is_match uni_alnum regex_new
                regex_is_match (metadata_config sh) (last_failed_ids (sd_cache sh)) prescan_data
                module_markers))
  | _ => Err WrongPhase
  end.

(** ** The session *)

(** Each plugin's homes, with the errors of registering them. *)
Definition register_plugin_fixture_homes (cfg : Config) (calls : list py_call)
    : result (list py_call) (list CollectError * bool) :=
  match plugin_fixture_homes py (plugins (features cfg)) (plugin_settings (features cfg)) with
  | Err (e, usage) => Err ([e], usage)
  | Ok homes =>
      let st := fold_left (λ st home,
        let st := register_plugin_home (collection py) suite_parse read_to_string home st in
        match record_plugin_anchor py (rg_calls st) (pfh_anchor_dir home) with
        | Ok _ => st
        | Err e => push_errors [e] st
        end) homes (mk_reg calls [] [] [] []) in
      match rg_errors st with
      | [] => Ok (rg_calls st)
      | errors => Err (errors, false)
      end
  end.

(** What a failed step of [init_session] exits with. *)
Definition session_step {A} (sh : Shared) (what : string) (r : result A py_error) : result A ExitCode.t :=
  match r with
  | Ok a => Ok a
  | Err (e, usage) => Err (early_exit_with_class sh [PyError (what +:+ e)] usage)
  end.

Definition init_session (sh : Shared) : result (list py_call * list RawViolation) ExitCode.t :=
  let cfg := sd_cfg sh in
  let f := features cfg in
  let? violations := session_step sh "Failed to initialize the fixture session: "
                       (new_fixture_session py (rootdir cfg)) in
  let? calls :=
    match plugins f with
    | [] => Ok []
    | _ =>
        let? _ := session_step sh "Plugin loading failed: "
                    (load_plugins py (plugins f) (plugin_settings f)) in
        let? _ := session_step sh "Deferred plugin activation failed: "
                    (activate_deferred_plugins py (plugin_settings f) (plugin_cli_values f)) in
        match register_plugin_fixture_homes cfg [] with
        | Ok calls => Ok calls
        | Err (e, usage) => Err (early_exit_with_class sh e usage)
        end
    end in
  let? _ := session_step sh "Async backend init failed: " (init_async_backend py (async_backend f)) in
  Ok (calls, violations).

Definition session (p : Pipeline) : result Pipeline Stop :=
  let '(sh, phase) := p in
  let enter sh :=
    match init_session sh with
    | Ok (calls, violations) => Ok (calls, violations)
    | Err code => Err (Exit code)
    end in
  match phase with
  | FilesCollected =>
      let? s := enter sh in Ok (sh, SessionReady s.1 s.2)
  | MetadataFiltered modules_to_import =>
      let? s := enter sh in Ok (with_files sh modules_to_import, SessionReady s.1 s.2)
  | _ => Err WrongPhase
  end.

(** ** Items *)

(** The doctest items and the audit of [collect]: items, errors, warnings. *)
Definition collect_doctests (cfg : Config) : list TestItem * list CollectError * list DiagnosticEntry :=
  if negb (doctest_enabled cfg) then ([], [], [])
  else
    let '(files, errors) :=
      match collect_doctest_files glob_new set_build is_match is_file canonicalize walk cfg with
      | Ok files => (files, [])
      | Err err =>
          ([], [ImportError (rootdir cfg)
                  ("doctest collection could not compile its `*.py` glob: " +:+ show_glob_error err)])
      end in
    let '(audit_errors, audit_pending) :=
      coverage_audit glob_new set_build is_match is_file canonicalize walk suite_parse read_to_string
        exists_ resolve_alias_ walk_one cfg in
    (collect_doctest_items suite_parse read_to_string files, errors ++ audit_errors, audit_pending).

Definition collect (p : Pipeline) : result Pipeline Stop :=
  let '(sh, phase) := p in
  match phase with
  | SessionReady calls session_violations =>
      let cfg := sd_cfg sh in
      let sh := with_cache sh (invalidate_modules exists_ (sd_cache sh)) in
      let '(tree_root, provenance) :=
        tree_root_of glob_new set_build is_match is_file canonicalize walk cfg in
      let '(out, cache, calls) :=
        collect_items (collection py) suite_parse read_to_string stdlib exists_ prescan_us collection_us
          (sd_test_files sh) cfg tree_root provenance calls (sd_cache sh) in
      let '(doctest_items, doctest_errors, doctest_pending) := collect_doctests cfg in
      let items := co_items out ++ doctest_items in
      let errors := co_errors out ++ doctest_errors in
      let sh := mk_sh (sd_setup sh) cache (sd_ast_weight sh) (sd_fx_usages sh) (sd_test_files sh)
                  (co_fixture_modules out) (sd_pending sh ++ co_diagnostics out ++ doctest_pending) in
      match errors with
      | _ :: _ => Err (Exit (early_exit_with_diagnostics sh calls (sd_pending sh) errors))
      | [] =>
          let unused :=
            if bool_decide (is_Some (strict (marker_cfg cfg)))
               && negb (has_explicit_paths (filter_cfg cfg))
            then match find_unused_fixtures py calls items with Ok l => l | Err _ => [] end
            else [] in
          let violations := session_violations ++ co_raw_violations out ++ unused in
          let targets := node_ids (filter_cfg cfg) in
          match unmatched_literal_targets items targets with
          | _ :: _ => Err (Exit ExitCode.UsageError)
          | [] =>
              Ok (sh, Collected calls
                        (filter_by_node_ids glob_build glob_is_match items targets (source_files targets))
                        violations)
          end
      end
  | _ => Err WrongPhase
  end.

(** [format_fixture_errors] *)
Definition fixture_error_line (registered : list string) (e : string * string) : string :=
  let '(id, bad_name) := e in
  "  " +:+ id +:+ " - fixture '" +:+ bad_name +:+ "' not found" +:+
  match closest_match bad_name registered 2 with
  | Some s => " (did you mean '" +:+ s +:+ "'?)"
  | None => ""
  end.

Definition format_fixture_errors (errors : list (string * string)) (registered : list string) : string :=
  "ERROR collecting tests" +:+ newline +:+ join newline (map (fixture_error_line registered) errors).

(** The text of [refuse_fx_boundaries]. *)
Definition boundary_report (violations : list (string * nat * string)) : string :=
  "fixture boundary violations found during collection:" +:+ newline +:+
  String.concat "" (map (λ v, let '(module_path, lineno, message) := v in
    newline +:+ "  " +:+ module_path +:+ ":" +:+ pretty lineno +:+ newline +:+ "    " +:+ message +:+ newline)
    violations).

(** Reports the violations; the code of the report is not the one returned. *)
Definition refuse_fx_boundaries (sh : Shared) (calls : list py_call)
    (violations : list (string * nat * string)) : ExitCode.t :=
  let _ := early_exit_with_diagnostics sh calls (sd_pending sh) [PyError (boundary_report violations)] in
  ExitCode.UsageError.

Definition validate (p : Pipeline) : result Pipeline Stop :=
  let '(sh, phase) := p in
  match phase with
  | Collected calls items _ =>
      match validate_fx_boundaries py calls (sd_fx_usages sh) (map item_module_path items) with
      | Err _ => Err (Exit ExitCode.CollectErr)
      | Ok ((_ :: _) as boundary) => Err (Exit (refuse_fx_boundaries sh calls boundary))
      | Ok [] =>
          match validate_fixture_names py calls items with
          | Err _ => Err (Exit ExitCode.CollectErr)
          | Ok [] => Ok p
          | Ok errors =>
              let registered := match registered_fixture_names py calls with Ok l => l | Err _ => [] end in
              Err (Exit (early_exit_with_diagnostics sh calls (sd_pending sh)
                           [PyError (format_fixture_errors errors registered)]))
          end
      end
  | _ => Err WrongPhase
  end.

(** The vote of an artifact asked for, in [write_strict_abort_report]. *)
Definition artifact_vote (path : option string) : option ExitVote :=
  (λ p, if written p then Abstain else Code ExitCode.UsageError) <$> path.

Definition dsl_error_exit (sh : Shared) (message : string) : ExitCode.t :=
  finish (make_error_reporter sh) (new_session 0) [PyError message] false.

(** [format_dsl_error], whose rendering is the [miette] crate's. *)
Context (render_dsl_error : string → DslError → string).

Definition strict_or_skip (p : Pipeline) : result Pipeline Stop :=
  let '(sh, phase) := p in
  match phase with
  | Collected calls items raw_violations =>
      let m := marker_cfg (sd_cfg sh) in
      match apply_strict_mode (strict m) (Config.markers_without_description m) items raw_violations
              (artifact_vote (json_path sh)) (artifact_vote (junit_xml_path sh)) with
      | Err code => Err (Exit code)
      | Ok res =>
          match select_items glob_build glob_is_match uni_alnum regex_new regex_is_match
                  (metadata_config sh) (last_failed_ids (sd_cache sh)) (Strict.clean_items res) with
          | Err e =>
              Err (Exit (dsl_error_exit sh
                (render_dsl_error (default "" (expression_of (sd_command sh))) e)))
          | Ok clean =>
              Ok (sh, Ready calls clean (Strict.violated_items res) (Strict.all_violations res)
                        (Strict.suite_lines res))
          end
      end
  | _ => Err WrongPhase
  end.

(** ** Execution *)

Definition exec_settings (cfg : Config) : ExecSettings :=
  let e := exec cfg in
  {| ec_mode := mode e; ec_maxfail := maxfail e; ec_timeout_secs := timeout_secs e;
     ec_timeout_multiplier := timeout_multiplier e; ec_spawn_overhead := spawn_overhead e;
     ec_min_parallel_tests := min_parallel_tests e; ec_schedule := schedule (filter_cfg cfg);
     ec_worker_count := worker_count cfg cpu_count; ec_cpu_count := cpu_count |}.

Definition execute (p : Pipeline) : result Pipeline Stop :=
  let '(sh, phase) := p in
  match phase with
  | Ready calls clean violated violations suite_lines =>
      let f := features (sd_cfg sh) in
      let sh := with_cache sh (invalidate (sd_cache sh) clean) in
      let plugin_count :=
        match plugins f with
        | [] => 0
        | _ => match get_plugin_reporters py calls with Ok n => n | Err _ => 0 end
        end in
      let reporters := make_reporter (json_path sh) (junit_xml_path sh) plugin_count in
      let rep := record_some (record_some (new_session (length suite_lines))
                   (drain_session_diagnostics py calls)) (sd_pending sh) in
      let sh := with_pending sh [] in
      match worker_payloads py (sd_fixture_modules sh) (plugins f) (plugin_settings f) with
      | Err err =>
          Err (Exit (finish reporters rep
            [PyError ("could not serialize the fixture and plugin data every worker needs: " +:+ err)] false))
      | Ok _ =>
          let '(res, r) := Execution.execute ops (exec_settings (sd_cfg sh)) (sd_cache sh) parallel shuffle
            clean violated violations (sd_fixture_modules sh) (sd_ast_weight sh)
            (mk_run (world_of calls) rep []) in
          Ok (sh, Executed clean (pr_timings res) (pr_interrupted res) reporters
                    (Execution.session r) (now r))
      end
  | _ => Err WrongPhase
  end.

(** A retried test runs under the global timeout, without the debugger. *)
Definition retry (p : Pipeline) : result Pipeline Stop :=
  let '(sh, phase) := p in
  match phase with
  | Executed items timings interrupted reporters rep w =>
      let e := exec (sd_cfg sh) in
      let '(timings, rep, w) :=
        Retry.retry (λ w item, run_timed ops w item (timeout_secs e)) (retries e) interrupted items timings
          rep w in
      Ok (sh, Executed items timings interrupted reporters rep w)
  | _ => Err WrongPhase
  end.

(** What Python adds to the report at the end ([session.rs]). *)
Context (fixture_timings_of : world → list FixtureTimingEntry)
  (cache_stats_of : world → option FixtureCacheStats).

Definition set_fixture_timings (rep : ReporterSession) (l : list FixtureTimingEntry) : ReporterSession :=
  let s := stats rep in
  mk_session (mk_stats (counts s) (xpassed_strict s) (suite_violations s) (tip_lines s) (entries s)
    (run_timings s) (fixture_cache s) l (usage_error_ids s)) (strict_suite_count rep).

Definition set_fixture_cache_stats (rep : ReporterSession) (c : FixtureCacheStats) : ReporterSession :=
  let s := stats rep in
  mk_session (mk_stats (counts s) (xpassed_strict s) (suite_violations s) (tip_lines s) (entries s)
    (run_timings s) (Some c) (fixture_timings s) (usage_error_ids s)) (strict_suite_count rep).

(** The cache file, as [Cache] writes it. *)
Context {json : Type} (to_string_pretty : CacheFile → option json)
  (write : json → option json → option json) (dir_ok : bool).

(** The exit code, the cache in memory, and the cache file. *)
Definition finalize (file : option json) (p : Pipeline) : result (ExitCode.t * TestCache * option json) Stop :=
  let '(sh, phase) := p in
  match phase with
  | Executed _ timings interrupted reporters rep w =>
      let rep := match fixture_timings_of w with [] => rep | l => set_fixture_timings rep l end in
      let '(cache, file) := Cache.finalize to_string_pretty write dir_ok (sd_cache sh) timings
        (cache_max_age (features (sd_cfg sh))) file in
      let rep := match cache_stats_of w with
                 | Some c => if 0 <? fcs_hits c + fcs_misses c then set_fixture_cache_stats rep c else rep
                 | None => rep
                 end in
      Ok (finish reporters rep [] interrupted, cache, file)
  | _ => Err WrongPhase
  end.

(** ** Commands *)

(** From the empty phase to the ready one, and to the executed one; both test
    commands take these steps. *)
Definition to_ready (p : Pipeline) : result Pipeline Stop :=
  let? p := collect_files p in
  let? p := affected p in
  let? p := prescan p in
  let? p := filter_metadata p in
  let? p := session p in
  let? p := collect p in
  let? p := validate p in
  strict_or_skip p.

Definition to_executed (p : Pipeline) : result Pipeline Stop :=
  let? p := to_ready p in
  execute p.

Definition code_of {A B} (r : result (ExitCode.t * A * B) Stop) : Stop :=
  match r with Ok (code, _, _) => Exit code | Err s => s end.

Definition run_command (file : option json) (p : Pipeline) : result (ExitCode.t * TestCache * option json) Stop :=
  match if cov (features (sd_cfg p.1)) then start_coverage py else Ok tt with
  | Err _ => Err (Exit ExitCode.UsageError)
  | Ok _ =>
      let? p := to_executed p in
      let? p := retry p in
      finalize file p
  end.

Definition debug_command (file : option json) (p : Pipeline) : result (ExitCode.t * TestCache * option json) Stop :=
  let? p := to_executed p in
  finalize file p.

(** ** Queries *)

(** The answers of the session to the query engine, the lexer of the
    highlighter, [serde_json], the text of a query error, and the [fzf] process. *)
Context (tree_fixtures : list py_call → result string string)
  (query_session : list py_call → QuerySession)
  {styling : Styling} (lex_python : string → list (option (Tok * (nat * nat))))
  (show_dsl_error : DslError → string) (to_json : list (string * string) → string)
  (spawn_fzf : string → list string → result unit string).

Definition run_query (sh : Shared) (calls : option (list py_call)) (args : QueryArgs) : result string string :=
  QueryRun.run_query suite_parse read_to_string lex_python uni_alnum regex_new regex_is_match
    show_dsl_error to_json args (sd_test_files sh) (query_session <$> calls)
    (registered_markers (marker_cfg (sd_cfg sh))) (sh_is_tty (sd_setup sh)) (sh_use_color (sd_setup sh)).

Definition run_fzf (sh : Shared) (calls : option (list py_call)) (args : QueryArgs) : result unit string :=
  let? p := fzf_input suite_parse read_to_string uni_alnum regex_new regex_is_match show_dsl_error
    args (sd_test_files sh) (query_session <$> calls) (registered_markers (marker_cfg (sd_cfg sh))) in
  spawn_fzf p.1 p.2.

Definition fzf_code (r : result unit string) : ExitCode.t :=
  match r with Ok _ => ExitCode.Success | Err _ => ExitCode.Failure end.

Definition query_code (r : result string string) : ExitCode.t :=
  match r with Ok _ => ExitCode.Success | Err _ => ExitCode.UsageError end.

Definition query (args : QueryArgs) (p : Pipeline) : result ExitCode.t Stop :=
  let '(sh, phase) := p in
  match phase with
  | SessionReady calls _ =>
      let '(tree_root, provenance) :=
        tree_root_of glob_new set_build is_match is_file canonicalize walk (sd_cfg sh) in
      match register_declaration_homes_for_files (collection py) suite_parse read_to_string exists_ calls
              tree_root provenance (sd_test_files sh) with
      | (Some _, _) => Ok ExitCode.Failure
      | (None, calls) =>
          if qa_tree args then
            match qa_resource args with
            | Fixtures =>
                match tree_fixtures calls with
                | Ok output => Ok (if starts_with "error:" output then ExitCode.Failure else ExitCode.Success)
                | Err _ => Ok ExitCode.Failure
                end
            | _ => Ok ExitCode.UsageError
            end
          else if qa_fzf args then Ok (fzf_code (run_fzf sh (Some calls) args))
          else Ok (query_code (run_query sh (Some calls) args))
      end
  | _ => Err WrongPhase
  end.

Definition query_without_session (args : QueryArgs) (p : Pipeline) : result ExitCode.t Stop :=
  let '(sh, phase) := p in
  match phase with
  | FilesCollected =>
      if qa_fzf args then Ok (fzf_code (run_fzf sh None args))
      else Ok (query_code (run_query sh None args))
  | _ => Err WrongPhase
  end.

Definition query_command (args : QueryArgs) (needs_session : bool) (p : Pipeline) : result ExitCode.t Stop :=
  let? p := collect_files p in
  let? p := affected p in
  if needs_session then let? p := session p in query args p else query_without_session args p.

(** [run], from the pipeline set-up leaves. *)
Definition run (file : option json) (s : PipelineShared) (cache : TestCache) : Stop :=
  let sh := new_shared s cache in
  match dispatch_command uni_alnum regex_new (sh_command s) with
  | RunSequence => code_of (run_command file (sh, EmptyPhase))
  | DebugSequence => code_of (debug_command file (sh, EmptyPhase))
  | QuerySequence args needs_session =>
      let s' := {| sh_cfg := sh_cfg s; sh_command := QueryCmd args; sh_rootdir := sh_rootdir s;
                   sh_is_tty := sh_is_tty s; sh_use_color := sh_use_color s |} in
      match query_command args needs_session (new_shared s' cache, EmptyPhase) with
      | Ok code => Exit code
      | Err stop => stop
      end
  | NotAPipeline code => Exit code
  end.

(** * Theorems *)

(** ** Votes *)

Definition artifact_ok (path : option string) : bool :=
  match path with Some p => written p | None => true end.

Lemma cast_plugins n errs interrupted rep :
  cast_codes (map (λ r : reporter, r errs interrupted rep) (replicate n plugin_reporter)) = [].
Proof. by induction n. Qed.

(** The code of a run: a usage error when an artifact that was asked for cannot
    be written, that of the statistics otherwise. *)
Lemma finish_code json_p junit_p n rep errs interrupted :
  finish (make_reporter json_p junit_p n) rep errs interrupted =
    if artifact_ok json_p && artifact_ok junit_p
    then compute_exit_code (stats (session_record_strict_suite rep)) (length errs) interrupted
    else ExitCode.UsageError.
Proof.
  unfold finish, composite_finish, make_reporter. cbv zeta. cbn [fst].
  set (s := session_record_strict_suite rep). rewrite map_cons, !map_app.
  unfold cast_codes at 1. cbn [flat_map]. rewrite !flat_map_app.
  change (flat_map _ (map _ (replicate n plugin_reporter))) with
    (cast_codes (map (λ r : reporter, r errs interrupted s) (replicate n plugin_reporter))).
  rewrite cast_plugins. unfold artifact_ok, json_reporter, junit_reporter, json_finish, junit_finish,
    standard_finish. cbv zeta. generalize (compute_exit_code (stats s) (length errs) interrupted). intros c.
  destruct json_p as [j|], junit_p as [k|]; cbn [map flat_map app snd]; rewrite ?app_nil_r;
    try destruct (written j); try destruct (written k); by destruct c.
Qed.

Lemma error_exit_code json_p junit_p k n rep errs :
  errs ≠ [] → rep ≡ new_session n →
  finish (make_reporter json_p junit_p k) rep errs false ≠ ExitCode.Success.
Proof.
  intros He Hr. rewrite finish_code. destruct (artifact_ok _ && artifact_ok _); [|done].
  assert (session_record_strict_suite rep ≡ session_record_strict_suite (new_session n)) as Hs by by rewrite Hr.
  rewrite (exit_code_verdict _ _ _ _ Hs). by destruct errs.
Qed.

Lemma record_some_equiv rep l : record_some rep l ≡ rep.
Proof. destruct l; [done|]. apply record_diagnostics_equiv. Qed.

Lemma early_exit_error_code sh errs : errs ≠ [] → early_exit_with_error sh errs ≠ ExitCode.Success.
Proof.
  intros He. by apply (error_exit_code _ _ _ 0).
Qed.

Lemma early_exit_diagnostics_code sh calls pending errs :
  errs ≠ [] → early_exit_with_diagnostics sh calls pending errs ≠ ExitCode.Success.
Proof.
  intros He. apply (error_exit_code _ _ _ 0); [done|]. by rewrite !record_some_equiv.
Qed.

Lemma early_exit_class_code sh errs usage :
  errs ≠ [] → early_exit_with_class sh errs usage ≠ ExitCode.Success.
Proof. intros He. unfold early_exit_with_class. destruct usage; [done|]. by apply early_exit_error_code. Qed.

(** ** Phases *)

(** A transition leads to a phase of [P], or stops with a code of [C]. *)
Definition leads (r : result Pipeline Stop) (P : Phase → Prop) (C : ExitCode.t → Prop) : Prop :=
  match r with
  | Ok p => P p.2
  | Err (Exit code) => C code
  | Err WrongPhase => False
  end.

Abbreviation not_success := (λ code, code ≠ ExitCode.Success).

Lemma leads_bind (r : result Pipeline Stop) (f : Pipeline → result Pipeline Stop) (P Q : Phase → Prop) C :
  leads r P C → (∀ sh ph, P ph → leads (f (sh, ph)) Q C) → leads (let? p := r in f p) Q C.
Proof. intros Hr Hf. destruct r as [[sh ph]|[code|]]; simpl in *; auto. Qed.

Definition is_files (ph : Phase) : Prop := ph = FilesCollected.
Definition is_prescanned (ph : Phase) : Prop := ∃ d m, ph = PrescannedPhase d m.
Definition is_filtered (ph : Phase) : Prop := ∃ l, ph = MetadataFiltered l.
Definition is_session (ph : Phase) : Prop := ∃ c v, ph = SessionReady c v.
Definition is_collected (ph : Phase) : Prop := ∃ c i v, ph = Collected c i v.
Definition is_ready (ph : Phase) : Prop := ∃ c i v vs l, ph = Ready c i v vs l.
Definition is_executed (ph : Phase) : Prop := ∃ i t b rs r w, ph = Executed i t b rs r w.

Lemma collect_files_leads sh : leads (collect_files (sh, EmptyPhase)) is_files not_success.
Proof. unfold collect_files. by destruct (Collect.collect_files _ _ _ _ _ _ _). Qed.

Lemma session_step_code {A} sh what (r : result A py_error) code :
  session_step sh what r = Err code → code ≠ ExitCode.Success.
Proof.
  unfold session_step. destruct r as [|[e usage]]; [done|]. intros [= <-].
  by apply early_exit_class_code.
Qed.

Lemma init_session_code sh code : init_session sh = Err code → code ≠ ExitCode.Success.
Proof.
  unfold init_session. cbv zeta.
  destruct (session_step sh _ (new_fixture_session py _)) eqn:E0;
    cbn [result_bind];
    [|by intros [= <-]; eapply session_step_code].
  match goal with |- context [match plugins ?f with [] => _ | _ :: _ => ?b end] =>
    assert (∀ code, match plugins f with [] => Ok [] | _ :: _ => b end = Err code → code ≠ ExitCode.Success)
      as Hplugins end.
  { intros code'. destruct (plugins _); [done|].
    destruct (session_step sh _ (load_plugins py _ _)) eqn:E1;
    cbn [result_bind];
      [|by intros [= <-]; eapply session_step_code].
    destruct (session_step sh _ (activate_deferred_plugins py _ _)) eqn:E2;
    cbn [result_bind];
      [|by intros [= <-]; eapply session_step_code].
    unfold register_plugin_fixture_homes. destruct (plugin_fixture_homes py _ _) as [homes|[e usage]].
    - destruct (rg_errors _) as [|e es]; [done|]. intros [= <-]. by apply early_exit_error_code.
    - intros [= <-]. by apply early_exit_class_code. }
  match goal with |- context [result_bind ?m _] => destruct m as [calls|c] eqn:E1 end; cbn [result_bind].
  - destruct (session_step sh _ (init_async_backend py _)) eqn:E2;
    cbn [result_bind]; [done|].
    intros [= <-]. by eapply session_step_code.
  - intros [= <-]. by eapply Hplugins.
Qed.

Lemma session_leads sh ph : ph = FilesCollected ∨ is_filtered ph → leads (session (sh, ph)) is_session not_success.
Proof.
  intros H. assert (∀ code, init_session sh = Err code → code ≠ ExitCode.Success) as Hc
    by apply init_session_code.
  destruct H as [->|[l ->]]; unfold session; destruct (init_session sh) as [[calls v]|code]; simpl; auto;
    unfold is_session; eauto.
Qed.

Lemma affected_leads sh : leads (affected (sh, FilesCollected)) is_files (λ _, True).
Proof.
  unfold affected. destruct (Config.affected _) as [base|]; [|done].
  destruct (filter_affected_with_diagnostics _ _ _ _ _ _) as [[[[|f fs]|] d]|e]; done.
Qed.

Lemma collect_leads sh ph : is_session ph → leads (collect (sh, ph)) is_collected not_success.
Proof.
  intros (calls & v & ->). unfold collect.
  destruct (tree_root_of _ _ _ _ _ _ _) as [root prov].
  destruct (collect_items _ _ _ _ _ _ _ _ _ _ _ _ _) as [[out cache] calls'].
  destruct (collect_doctests _) as [[items errs] pend]. cbv zeta.
  destruct (co_errors out ++ errs) as [|e es]; [|by apply early_exit_diagnostics_code].
  destruct (unmatched_literal_targets _ _); [|done]. unfold is_collected. simpl. eauto.
Qed.

Lemma validate_leads sh ph : is_collected ph → leads (validate (sh, ph)) is_collected not_success.
Proof.
  intros (calls & items & v & ->). unfold validate.
  destruct (validate_fx_boundaries _ _ _ _) as [[|b bs]|e]; [|done..].
  destruct (validate_fixture_names _ _ _) as [[|b bs]|e]; [|by apply early_exit_diagnostics_code|done].
  unfold is_collected. simpl. eauto.
Qed.

Lemma strict_code strict undescribed items raw json_p junit_p code :
  apply_strict_mode strict undescribed items raw json_p junit_p = Err code → code ≠ ExitCode.Success.
Proof.
  intros E. pose proof (strict_mode_conserves_items strict undescribed items raw json_p junit_p) as H.
  simpl in H. rewrite E in H. destruct H as (_ & _ & H). intros ->. by vm_compute in H.
Qed.

Lemma strict_leads sh ph : is_collected ph → leads (strict_or_skip (sh, ph)) is_ready not_success.
Proof.
  intros (calls & items & v & ->). unfold strict_or_skip.
  destruct (apply_strict_mode _ _ _ _ _ _) as [res|code] eqn:E; [|by eapply strict_code].
  destruct (select_items _ _ _ _ _ _ _ _) as [clean|e]; [|by apply (error_exit_code _ _ _ 0)].
  unfold is_ready. simpl. eauto 10.
Qed.

Lemma execute_leads sh ph : is_ready ph → leads (execute (sh, ph)) is_executed not_success.
Proof.
  intros (calls & clean & violated & vs & lines & ->). unfold execute. cbv zeta.
  destruct (worker_payloads _ _ _ _) as [u|e].
  - destruct (Execution.execute _ _ _ _ _ _ _ _ _ _ _) as [res r]. unfold is_executed. simpl. eauto 10.
  - apply (error_exit_code _ _ _ (length lines)); [done|]. by rewrite !record_some_equiv.
Qed.

Lemma retry_leads sh ph : is_executed ph → leads (retry (sh, ph)) is_executed not_success.
Proof.
  intros (i & t & b & rs & r & w & ->). unfold retry.
  destruct (Retry.retry _ _ _ _ _ _ _) as [[t' r'] w']. unfold is_executed. simpl. eauto 10.
Qed.

Lemma finalize_ends file sh ph : is_executed ph → ∃ out, finalize file (sh, ph) = Ok out.
Proof.
  intros (i & t & b & rs & r & w & ->). unfold finalize.
  destruct (Cache.finalize _ _ _ _ _ _ _) as [c f]. eauto.
Qed.

(** The steps after the affected files are known. *)
Definition from_files (p : Pipeline) : result Pipeline Stop :=
  let? p := prescan p in
  let? p := filter_metadata p in
  let? p := session p in
  let? p := collect p in
  let? p := validate p in
  strict_or_skip p.

Lemma from_files_leads sh ph : is_files ph → leads (from_files (sh, ph)) is_ready not_success.
Proof.
  intros ->. unfold from_files.
  eapply (leads_bind _ _ is_prescanned); [by unfold prescan, is_prescanned; simpl; eauto|].
  intros sh1 ? (d & m & ->).
  eapply (leads_bind _ _ is_filtered); [by unfold filter_metadata, is_filtered; simpl; eauto|].
  intros sh2 ph2 H2. eapply leads_bind; [apply session_leads; by right|].
  intros sh3 ph3 H3. eapply leads_bind; [by apply collect_leads|].
  intros sh4 ph4 H4. eapply leads_bind; [by apply validate_leads|].
  intros sh5 ph5 H5. by apply strict_leads.
Qed.

Lemma to_ready_steps p : to_ready p = let? p := collect_files p in let? p := affected p in from_files p.
Proof. done. Qed.

Lemma leads_any r (P : Phase → Prop) (C : ExitCode.t → Prop) : leads r P C → leads r P (λ _, True).
Proof. by destruct r as [|[]]. Qed.

Lemma files_leads sh :
  leads (let? p := collect_files (sh, EmptyPhase) in affected p) is_files (λ _, True).
Proof.
  eapply leads_bind; [eapply leads_any, collect_files_leads|]. intros sh' ? ->. apply affected_leads.
Qed.

Lemma to_executed_leads sh : leads (to_executed (sh, EmptyPhase)) is_executed (λ _, True).
Proof.
  unfold to_executed. eapply (leads_bind _ _ is_ready).
  - rewrite to_ready_steps. pose proof (files_leads sh) as H.
    destruct (collect_files (sh, EmptyPhase)) as [p|]; cbn [result_bind] in *; [|exact H].
    eapply leads_bind; [exact H|]. intros. by eapply leads_any, from_files_leads.
  - intros. by eapply leads_any, execute_leads.
Qed.

Lemma query_ends args sh ph : is_session ph → ∃ code, query args (sh, ph) = Ok code.
Proof.
  intros (calls & v & ->). unfold query. destruct (tree_root_of _ _ _ _ _ _ _) as [root prov].
  destruct (register_declaration_homes_for_files _ _ _ _ _ _ _ _) as [[e|] calls']; [by eauto|].
  destruct (qa_tree args), (qa_fzf args), (qa_resource args); try destruct (tree_fixtures _); eauto.
Qed.

(** C14: No transition of a run is taken in the wrong phase: whatever the file
    system, git, Python and the workers answer, each command ends with an exit
    code, and the panic that guards every transition is not reached. *)
Theorem run_ends_with_a_code file s cache : ∃ code, run file s cache = Exit code.
Proof.
  unfold run. destruct (dispatch_command _ _ _) as [| |args needs|code]; [| | |by eauto].
  - unfold run_command. destruct (if cov _ then _ else _) as [u|e]; [|by simpl; eauto].
    pose proof (to_executed_leads (new_shared s cache)) as H.
    destruct (to_executed _) as [[sh ph]|[code|]]; cbn [result_bind leads snd code_of] in *; [|by eauto|done].
    pose proof (retry_leads sh ph H) as H'. destruct (retry (sh, ph)) as [[sh' ph']|[code|]];
      cbn [result_bind leads snd code_of] in *; [|by eauto|done].
    destruct (finalize_ends file sh' ph' H') as [[[code c] f] ->]. simpl. eauto.
  - unfold debug_command. pose proof (to_executed_leads (new_shared s cache)) as H.
    destruct (to_executed _) as [[sh ph]|[code|]]; cbn [result_bind leads snd code_of] in *; [|by eauto|done].
    destruct (finalize_ends file sh ph H) as [[[code c] f] ->]. simpl. eauto.
  - set (s' := {| sh_cfg := _ |}). unfold query_command. pose proof (files_leads (new_shared s' cache)) as H.
    destruct (collect_files _) as [p|[code|]]; cbn [result_bind] in *; [|by eauto|done].
    destruct (affected p) as [[sh ph]|[code|]]; cbn [result_bind] in *; [|by eauto|done].
    unfold leads in H. simpl in H. destruct needs.
    + pose proof (session_leads sh ph (or_introl H)) as H'.
      destruct (session (sh, ph)) as [[sh' ph']|[code|]]; cbn [result_bind leads] in *; [|by eauto|done].
      destruct (query_ends args sh' ph' H') as [code ->]. eauto.
    + rewrite H. unfold query_without_session. destruct (qa_fzf args); eauto.
Qed.

(** ** Ending early *)

(** No file is affected by the changes since the base. *)
Definition nothing_affected (sh : Shared) : Prop :=
  ∃ files base_ref notes,
    Collect.collect_files glob_new set_build is_match is_file canonicalize walk (sd_cfg sh) = Ok files ∧
    Config.affected (filter_cfg (sd_cfg sh)) = Some base_ref ∧
    filter_affected_with_diagnostics canonicalize git collected_imports files (rootdir (sd_cfg sh)) base_ref =
      Ok (Some [], notes).

Lemma files_success sh :
  (let? p := collect_files (sh, EmptyPhase) in affected p) = Err (Exit ExitCode.Success) ↔ nothing_affected sh.
Proof.
  unfold collect_files, nothing_affected. destruct (Collect.collect_files _ _ _ _ _ _ _) as [files|e];
    cbn [result_bind]; [|split; [done|by intros (? & ? & ? & ? & _)]].
  unfold affected. change (sd_cfg (with_files sh files)) with (sd_cfg sh). cbn [sd_test_files with_files].
  destruct (Config.affected _) as [base|]; [|split; [done|by intros (? & ? & ? & _ & ? & _)]].
  destruct (filter_affected_with_diagnostics _ _ _ _ _ _) as [[[[|f fs]|] d]|e] eqn:E.
  1: split; [intros _; by exists files, base, d|done].
  all: split; [done|]; intros (? & ? & ? & [= <-] & [= <-] & E'); congruence.
Qed.

(** Ending with code 0 before any test has run: only when the affected tests
    were asked for and no file is affected. *)
Lemma early_success sh :
  to_executed (sh, EmptyPhase) = Err (Exit ExitCode.Success) ↔ nothing_affected sh.
Proof.
  rewrite <-files_success. unfold to_executed. rewrite to_ready_steps. pose proof (files_leads sh) as H.
  destruct (collect_files (sh, EmptyPhase)) as [p|]; cbn [result_bind] in *; [|done].
  destruct (affected p) as [[sh' ph]|[code|]]; cbn [result_bind] in *; [|done..].
  split; [|done]. pose proof (from_files_leads sh' ph H) as H'.
  destruct (from_files (sh', ph)) as [[sh2 ph2]|[code|]]; cbn [result_bind leads] in *; [|congruence|done].
  pose proof (execute_leads sh2 ph2 H') as H2. intros E. by rewrite E in H2.
Qed.

(** ** The verdict of a run *)

Lemma set_timings_equiv rep l : set_fixture_timings rep l ≡ rep.
Proof. done. Qed.

Lemma set_cache_stats_equiv rep c : set_fixture_cache_stats rep c ≡ rep.
Proof. done. Qed.

(** The code [finalize] gives is that of the reporter's session. *)
Lemma finalize_code file sh items timings interrupted json_p junit_p n rep w out :
  finalize file (sh, Executed items timings interrupted (make_reporter json_p junit_p n) rep w) = Ok out →
  out.1.1 = if artifact_ok json_p && artifact_ok junit_p
            then compute_exit_code (stats (session_record_strict_suite rep)) 0 interrupted
            else ExitCode.UsageError.
Proof.
  unfold finalize. destruct (Cache.finalize _ _ _ _ _ _ _) as [cache' file']. intros [= <-].
  cbn [fst]. rewrite finish_code. destruct (artifact_ok json_p && artifact_ok junit_p); [|done].
  apply exit_code_verdict, record_strict_suite_proper.
  assert (∀ r : ReporterSession, match cache_stats_of w with
    | Some c => if 0 <? fcs_hits c + fcs_misses c then set_fixture_cache_stats r c else r
    | None => r end ≡ r) as ->.
  { intros r. destruct (cache_stats_of w) as [c|]; [|done]. by destruct (0 <? _). }
  by destruct (fixture_timings_of w).
Qed.

(** What the exit code is read from: the results that stand. *)
Definition code_of_standing (l : list event) (suite : nat) (interrupted : bool) : ExitCode.t :=
  if existsb (λ e, is_usage (ev_outcome e)) l then ExitCode.UsageError
  else if interrupted then ExitCode.Interrupted
  else if existsb (λ e, TestOutcome.is_hard_failure (ev_outcome e)) l || (0 <? suite) then ExitCode.Failure
  else ExitCode.Success.

Lemma session_standing rep n l fl interrupted :
  retried l fl → rep ≡ run_session n (l ++ flaky_events fl) →
  compute_exit_code (stats (session_record_strict_suite rep)) 0 interrupted =
    code_of_standing (standing l fl) n interrupted.
Proof.
  intros Hr E. rewrite (exit_code_verdict _ _ 0 interrupted (record_strict_suite_proper _ _ E)).
  by apply exit_code_standing.
Qed.

(** More events beside the retried ones. *)
Lemma retried_beside vl l fl :
  retried l fl → Forall (λ e, not_flaky (ev_outcome e) = true) vl → NoDup (map ev_id (vl ++ l)) →
  retried (vl ++ l) fl.
Proof.
  intros [Hm _ Hf Hin] Hv Hnd. split; [by apply Forall_app|done|done|].
  intros f (Hk & e & He & H)%Hin. split; [done|]. exists e. rewrite elem_of_app. auto.
Qed.

Lemma violation_events_fresh vs l : Forall (λ e, not_flaky (ev_outcome e) = true) (omap (violation_event vs) l).
Proof.
  apply Forall_forall. intros e (i & _ & Hi)%list_elem_of_omap. unfold violation_event in Hi.
  destruct (violation_of vs i); [|done]. by injection Hi as <-.
Qed.

Lemma violation_ids vs l : map ev_id (omap (violation_event vs) l) `sublist_of` map node_id l.
Proof.
  induction l as [|i l IH]; [done|]. csimpl. unfold violation_event at 1.
  destruct (violation_of vs i); simpl; [by apply sublist_skip|by apply sublist_cons].
Qed.

Context `{contract : !∀ n, PhaseContract (parallel n)} `{reports : !∀ n, ReportContract (parallel n)}.
Context (shuffle_perm : ∀ l, shuffle l ≡ₚ l).
Context (runs_fresh : ∀ w item t, not_flaky (run_timed ops w item t).1.1 = true).

(** A run of a test in the retry phase. *)
Definition retry_run (sh : Shared) (w : world) (item : TestItem) : TestOutcome.t * f64 * world :=
  run_timed ops w item (timeout_secs (exec (sd_cfg sh))).

(** What a run leaves after its execution and after its retries, with the
    events of the tests it timed and of those re-reported as flaky. *)
Record Trace := {
  tr_shared : Shared; tr_reporters : list reporter; tr_interrupted : bool;
  tr_first : list TestTiming; tr_rep : ReporterSession; tr_world : world;
  tr_last : list TestTiming; tr_rep_last : ReporterSession; tr_world_last : world;
  tr_events : list event; tr_flaky : list (TestItem * OutcomeKind.t * string * f64)
}.

Definition after_execute (t : Trace) (clean : list TestItem) : Pipeline :=
  (tr_shared t, Executed clean (tr_first t) (tr_interrupted t) (tr_reporters t) (tr_rep t) (tr_world t)).

Definition after_retry (t : Trace) (clean : list TestItem) : Pipeline :=
  (tr_shared t, Executed clean (tr_last t) (tr_interrupted t) (tr_reporters t) (tr_rep_last t) (tr_world_last t)).

(** The retries a run may still make: none once it is stopped. *)
Definition retries_left (t : Trace) : nat :=
  if tr_interrupted t then 0 else retries (exec (sd_cfg (tr_shared t))).

(** [t] is what [execute] and [retry] leave of the ready phase.  Its events are
    its timings, and they and the violations' are what the reporter was told. *)
Record ran sh calls clean violated vs (lines : list string) (t : Trace) : Prop := {
  ran_execute : execute (sh, Ready calls clean violated vs lines) = Ok (after_execute t clean);
  ran_retry : retry (after_execute t clean) = Ok (after_retry t clean);
  ran_timings : tr_first t = map timing_of (tr_events t);
  ran_fresh : Forall (λ e, not_flaky (ev_outcome e) = true) (tr_events t);
  ran_told : tr_rep t ≡ run_session (length lines) (omap (violation_event vs) violated ++ tr_events t);
  ran_once : map tt_node_id (tr_first t) ⊆+ map node_id clean;
  ran_all : tr_interrupted t = false → map tt_node_id (tr_first t) ≡ₚ map node_id clean;
  ran_retries : retry_trace (retry_run (tr_shared t)) (retries_left t) (tr_world t)
    (identify_failed_items clean (tr_first t)) (tr_flaky t) (tr_world_last t);
  ran_merged : tr_last t = merged (tr_events t) (tr_flaky t);
  ran_retold : tr_rep_last t = fold_left complete (flaky_events (tr_flaky t)) (tr_rep t)
}.

Lemma ready_ids vs violated clean l :
  NoDup (map node_id (violated ++ clean)) → map ev_id l ⊆+ map node_id clean →
  NoDup (map ev_id (omap (violation_event vs) violated ++ l)).
Proof.
  rewrite !map_app, !NoDup_app. intros (H1 & H2 & H3) Hl. pose proof (violation_ids vs violated) as Hs. split_and!.
  - by eapply sublist_NoDup; [|exact Hs].
  - intros id Hv Hin. apply (H2 id); [by eapply elem_of_sublist; [|exact Hs]|].
    by eapply elem_of_submseteq; [|exact Hl].
  - apply submseteq_Permutation in Hl as [k Hk]. rewrite Hk in H3. by apply NoDup_app in H3 as [? _].
Qed.

(** The retry phase of a run, stopped or not. *)
Lemma retry_stopped max (interrupted : bool) items l s w (run_ : world → TestItem → TestOutcome.t * f64 * world) :
  Forall (λ e, not_flaky (ev_outcome e) = true) l → NoDup (map ev_id l) → NoDup (map node_id items) →
  ∃ fl w', retried l fl ∧
    retry_trace run_ (if interrupted then 0 else max) w (identify_failed_items items (map timing_of l)) fl w' ∧
    Retry.retry run_ max interrupted items (map timing_of l) s w =
      (merged l fl, fold_left complete (flaky_events fl) s, w').
Proof.
  intros Hf Hl Hi. destruct interrupted; [|by apply retry_any_order]. exists [], w. split_and!.
  - split; [done..|constructor|]. by intros f ?%elem_of_nil.
  - apply trace_zero.
  - unfold Retry.retry. by rewrite orb_true_r, merged_nil.
Qed.

(** Execution and retries, from the ready phase. *)
Lemma ready_ran sh calls clean violated vs lines p :
  NoDup (map node_id (violated ++ clean)) → execute (sh, Ready calls clean violated vs lines) = Ok p →
  ∃ t, ran sh calls clean violated vs lines t ∧ p = after_execute t clean ∧
    retried (omap (violation_event vs) violated ++ tr_events t) (tr_flaky t) ∧
    ∃ n, tr_reporters t = make_reporter (json_path sh) (junit_xml_path sh) n.
Proof.
  intros Hnd Ep. assert (E := Ep). unfold execute in E. cbv zeta in E.
  destruct (worker_payloads _ _ _ _) as [u|e]; [|done].
  match type of E with context [Execution.execute _ ?st ?c _ _ _ _ _ ?fm ?a ?r] =>
    pose proof (execute_told ops st c parallel shuffle runs_fresh _ clean violated vs fm a r) as Ht;
    pose proof (execute_covers ops st c parallel shuffle shuffle_perm clean violated vs fm a r) as Hc end.
  match type of E with context [Execution.execute ?o ?st ?c ?pa ?sf ?cl ?vi ?vv ?fm ?a ?r] =>
    destruct (Execution.execute o st c pa sf cl vi vv fm a r) as [res r'] end.
  destruct Ht as (l & Hs & Et & Hf). destruct Hc as [Hall Honce]. cbn [fst] in *.
  set (rep0 := record_some _ _) in Hs, E. match type of E with context [make_reporter _ _ ?n] => set (k := n) in E end.
  injection E as <-.
  assert (rep0 ≡ new_session (length lines)) as H0 by by unfold rep0; rewrite !record_some_equiv.
  assert (map tt_node_id (pr_timings res) = map ev_id l) as Eid by by rewrite Et, map_map.
  assert (NoDup (map ev_id (omap (violation_event vs) violated ++ l))) as Hids
    by by eapply ready_ids; [|rewrite <-Eid].
  assert (NoDup (map ev_id l)) as Hl by (rewrite map_app in Hids; by apply NoDup_app in Hids as (_ & _ & ?)).
  assert (NoDup (map node_id clean)) as Hcl by (rewrite map_app in Hnd; by apply NoDup_app in Hnd as (_ & _ & ?)).
  set (sh1 := with_pending _ _) in *.
  destruct (retry_stopped (retries (exec (sd_cfg sh1))) (pr_interrupted res) clean l (Execution.session r') (now r')
    (retry_run sh1) Hf Hl Hcl) as (fl & w' & Hr & Htr & Er).
  exists (Build_Trace sh1 (make_reporter (json_path sh) (junit_xml_path sh) k) (pr_interrupted res)
    (pr_timings res) (Execution.session r') (now r') (merged l fl)
    (fold_left complete (flaky_events fl) (Execution.session r')) w' l fl).
  split_and!; [split; simpl; try done|done|by apply retried_beside; [done|apply violation_events_fresh|]|by eexists].
  - unfold retry, after_execute. cbn. cbv zeta.
    change (λ w item, run_timed ops w item (timeout_secs (exec (sd_cfg sh1)))) with (retry_run sh1).
    by rewrite Et, Er.
  - by rewrite Hs; cbn [Execution.session]; unfold run_session; rewrite H0.
  - by rewrite Et.
Qed.

(** The code at the end of a run, from the executed phase. *)
Lemma ran_code file sh calls clean violated vs lines t k out :
  ran sh calls clean violated vs lines t →
  retried (omap (violation_event vs) violated ++ tr_events t) (tr_flaky t) →
  tr_reporters t = make_reporter (json_path sh) (junit_xml_path sh) k →
  finalize file (after_retry t clean) = Ok out →
  out.1.1 = if artifact_ok (json_path sh) && artifact_ok (junit_xml_path sh)
            then code_of_standing (standing (omap (violation_event vs) violated ++ tr_events t) (tr_flaky t))
                   (length lines) (tr_interrupted t)
            else ExitCode.UsageError.
Proof.
  intros R Hr Ek E. unfold after_retry in E. rewrite Ek in E.
  rewrite (finalize_code _ _ _ _ _ _ _ _ _ _ _ E).
  destruct (artifact_ok _ && artifact_ok _); [|done]. apply session_standing; [done|].
  rewrite (ran_retold _ _ _ _ _ _ _ R). unfold run_session. rewrite fold_left_app.
  apply completes_proper. exact (ran_told _ _ _ _ _ _ _ R).
Qed.

Lemma result_bind_Ok {A B E} (r : result A E) (k : A → result B E) b :
  (let? a := r in k a) = Ok b → ∃ a, r = Ok a ∧ k a = Ok b.
Proof. destruct r; [eauto|done]. Qed.

(** The ready phase comes out of strict mode, which gives every violated test
    one event, an error. *)
Lemma strict_ready p q :
  strict_or_skip p = Ok q →
  ∃ sh calls clean violated vs lines, q = (sh, Ready calls clean violated vs lines) ∧
    let vl := omap (violation_event vs) violated in
    map ev_id vl = map node_id violated ∧ Forall (λ e, TestOutcome.is_hard_failure (ev_outcome e) = true) vl.
Proof.
  destruct p as [sh []]; try done. unfold strict_or_skip.
  match goal with |- context [apply_strict_mode ?a ?b ?c ?d ?e ?f] =>
    pose proof (strict_mode_conserves_items a b c d e f) as H; destruct (apply_strict_mode a b c d e f) end;
    [|done]. destruct (select_items _ _ _ _ _ _ _ _); [|done]. intros [= <-].
  destruct H as (_ & _ & _ & H). eauto 10.
Qed.

Lemma to_ready_ready p q : to_ready p = Ok q → ∃ p', strict_or_skip p' = Ok q.
Proof.
  unfold to_ready. intros E. do 7 (apply result_bind_Ok in E as (? & _ & E)). eauto.
Qed.

(** The tests a run is ready to run have distinct node ids. *)
Definition unique_ids (sh : Shared) : Prop :=
  ∀ sh' calls clean violated vs lines,
    to_ready (sh, EmptyPhase) = Ok (sh', Ready calls clean violated vs lines) →
    NoDup (map node_id (violated ++ clean)).

Lemma run_verdict file sh out :
  unique_ids sh → run_command file (sh, EmptyPhase) = Ok out →
  ∃ sh' calls clean violated vs lines t,
    let vl := omap (violation_event vs) violated in
    to_ready (sh, EmptyPhase) = Ok (sh', Ready calls clean violated vs lines) ∧
    map ev_id vl = map node_id violated ∧
    Forall (λ e, TestOutcome.is_hard_failure (ev_outcome e) = true) vl ∧
    ran sh' calls clean violated vs lines t ∧
    retried (vl ++ tr_events t) (tr_flaky t) ∧
    out.1.1 = if artifact_ok (json_path sh') && artifact_ok (junit_xml_path sh')
              then code_of_standing (standing (vl ++ tr_events t) (tr_flaky t)) (length lines) (tr_interrupted t)
              else ExitCode.UsageError.
Proof.
  intros Hu. unfold run_command, to_executed. destruct (if cov _ then _ else _); [|done]. intros E.
  destruct (to_ready (sh, EmptyPhase)) as [q|] eqn:Er; [|done]. cbn [result_bind] in E.
  destruct (to_ready_ready _ _ Er) as [p' Hp'].
  destruct (strict_ready _ _ Hp') as (sh' & calls & clean & violated & vs & lines & -> & Hv & Hh).
  apply result_bind_Ok in E as (p & Ep & E).
  destruct (ready_ran _ _ _ _ _ _ _ (Hu _ _ _ _ _ _ Er) Ep) as (t & R & -> & Hr & k & Ek).
  rewrite (ran_retry _ _ _ _ _ _ _ R) in E. cbn [result_bind] in E.
  exists sh', calls, clean, violated, vs, lines, t. split_and!; [done..|].
  by eapply ran_code.
Qed.

(** C13: The exit code of a run, from the files it is given to the artifacts it
    writes, whatever Python and the file system answer and for every parallel
    phase that keeps the two contracts [PhaseContract] and [ReportContract],
    which the serial loop and every terminated run of the worker pool are
    proved to keep ([Execution.pool_contract], [Verdict.pool_reports]).  When
    the tests that are ready have distinct ids, a run that reaches them goes
    through [execute] and then [retry], and of the timings and the session those
    leave: every test that strict mode left clean and the filters selected is
    timed once, unless a failure limit stops the run, and then none twice; the
    reporter was told of the violated tests, each an error, and of each timed
    test with the outcome its timing has; the retries run failed tests only,
    none when stopped; and the code is 4 when an artifact asked for cannot be
    written or a result that stands after the retries is a usage error, 2 when
    stopped, 1 when a standing result is a hard failure or the suite has strict
    violations, and 0 otherwise. *)
Theorem run_exit_code file sh out :
  unique_ids sh → run_command file (sh, EmptyPhase) = Ok out →
  ∃ sh' calls clean violated vs lines t,
    let vl := omap (violation_event vs) violated in
    to_ready (sh, EmptyPhase) = Ok (sh', Ready calls clean violated vs lines) ∧
    map ev_id vl = map node_id violated ∧
    Forall (λ e, TestOutcome.is_hard_failure (ev_outcome e) = true) vl ∧
    ran sh' calls clean violated vs lines t ∧
    retried (vl ++ tr_events t) (tr_flaky t) ∧
    out.1.1 = if artifact_ok (json_path sh') && artifact_ok (junit_xml_path sh')
              then code_of_standing (standing (vl ++ tr_events t) (tr_flaky t)) (length lines) (tr_interrupted t)
              else ExitCode.UsageError.
Proof. apply run_verdict. Qed.

(** Nothing stands against a run with code 0. *)
Lemma standing_green l n interrupted :
  code_of_standing l n interrupted = ExitCode.Success →
  n = 0 ∧ interrupted = false ∧ ∀ e, e ∈ l → TestOutcome.is_hard_failure (ev_outcome e) = false.
Proof.
  unfold code_of_standing. destruct (existsb _ l); [done|]. destruct interrupted; [done|].
  destruct (existsb _ l) eqn:E; [done|]. destruct n; [|done]. intros _. split_and!; [done..|].
  intros e He. apply not_true_iff_false. intros Hh. apply not_true_iff_false in E. apply E, existsb_elem. eauto.
Qed.

(** A test is re-reported as flaky only when the run has timed it. *)
Lemma flaky_timed (run_ : world → TestItem → TestOutcome.t * f64 * world) items max w l fl w' f :
  NoDup (map ev_id l) → retry_trace run_ max w (identify_failed_items items (map timing_of l)) fl w' →
  f ∈ fl → fl_id f ∈ map ev_id l.
Proof.
  intros Hnd Ht Hf. assert (f.1.1 ∈ identify_failed_items items (map timing_of l)) as Hin.
  { eapply elem_of_sublist; [|eapply trace_sublist, Ht]. apply map_elem. eauto. }
  destruct f as [[[i k] m] d]. apply identify_elem in Hin as [_ Hk].
  apply failed_map_lookup in Hk as (x & (e & He & <-)%map_elem & Hid & _); [|by rewrite map_map].
  apply map_elem. eauto.
Qed.

Lemma retryable_hard o :
  OutcomeKind.is_retryable_failure (TestOutcome.kind o) = true → TestOutcome.is_hard_failure o = true.
Proof. by destruct o as [| | | | | |[]| |]. Qed.

(** The events and the timings of a run with code 0. *)
Lemma ran_green sh calls clean violated vs lines t :
  let vl := omap (violation_event vs) violated in
  map ev_id vl = map node_id violated → Forall (λ e, TestOutcome.is_hard_failure (ev_outcome e) = true) vl →
  ran sh calls clean violated vs lines t → retried (vl ++ tr_events t) (tr_flaky t) →
  code_of_standing (standing (vl ++ tr_events t) (tr_flaky t)) (length lines) (tr_interrupted t)
    = ExitCode.Success →
  violated = [] ∧ lines = [] ∧ tr_interrupted t = false ∧
  ∀ e, e ∈ tr_events t → TestOutcome.is_hard_failure (ev_outcome e) = false ∨ ev_id e ∈ map fl_id (tr_flaky t).
Proof.
  intros vl Hid Hh R Hr (Hn & Hi & Hg)%standing_green. apply nil_length_inv in Hn.
  pose proof (rt_ids _ _ Hr) as Hnd. rewrite map_app in Hnd. apply NoDup_app in Hnd as (_ & Hdis & Hnd).
  split_and!; [|done|done|].
  - destruct vl as [|e vl'] eqn:Ev; [by destruct violated|]. exfalso.
    apply Forall_cons in Hh as [He _]. assert (TestOutcome.is_hard_failure (ev_outcome e) = false); [|congruence].
    apply Hg, standing_elem. split; [left|]. intros (f & Hf & E)%map_elem.
    apply (Hdis (ev_id e)); [left|]. rewrite <-E. pose proof (ran_retries _ _ _ _ _ _ _ R) as Ht.
    rewrite (ran_timings _ _ _ _ _ _ _ R) in Ht. by eapply flaky_timed.
  - intros e He. destruct (decide (ev_id e ∈ map fl_id (tr_flaky t))) as [Hf|Hn']; [by right|left].
    apply Hg, standing_elem. split; [by apply elem_of_app; right|done].
Qed.

(** No timing of such a run is a failure's. *)
Lemma merged_green l fl :
  (∀ e, e ∈ l → TestOutcome.is_hard_failure (ev_outcome e) = false ∨ ev_id e ∈ map fl_id fl) →
  ∀ x, x ∈ merged l fl → OutcomeKind.is_retryable_failure (tt_outcome x) = false.
Proof.
  intros Hg x. unfold merged, merge_flaky_timings. intros [Hx|Hx]%elem_of_app.
  - apply filter_elem in Hx as [(e & He & <-)%map_elem Hn]. breflect. simpl.
    destruct (Hg e He) as [Hh|]; [|done]. apply not_true_iff_false. intros Hk. apply not_true_iff_false in Hh.
    apply Hh. by apply retryable_hard.
  - by apply map_elem in Hx as (f & _ & <-).
Qed.

(** C1: Exit code 0 means green.  For every parallel phase that keeps the two
    contracts (as in the exit code of a run) and distinct ids of the ready
    tests, a run that ends with code 0 either was asked for affected tests only
    and no file is affected, or went through [execute] and [retry] without being
    stopped, with no strict violation of a test or of the suite, and of what
    those two leave: [execute] timed every ready test exactly once and told the
    reporter exactly those tests, with the outcomes of their timings; each of
    them that ended as a hard failure was run again by [retry], within the
    retries allowed, and was no hard failure then; and the timings after
    [retry] are again one per ready test, none of them a failure's. *)
Theorem exit_zero_is_green file sh :
  unique_ids sh → code_of (run_command file (sh, EmptyPhase)) = Exit ExitCode.Success →
  nothing_affected sh ∨
  ∃ sh' calls clean vs t,
    to_ready (sh, EmptyPhase) = Ok (sh', Ready calls clean [] vs []) ∧
    ran sh' calls clean [] vs [] t ∧ tr_interrupted t = false ∧
    map tt_node_id (tr_first t) ≡ₚ map node_id clean ∧
    (∀ e, e ∈ tr_events t →
       TestOutcome.is_hard_failure (ev_outcome e) = false ∨ ev_id e ∈ map fl_id (tr_flaky t)) ∧
    map tt_node_id (tr_last t) ≡ₚ map node_id clean ∧
    ∀ x, x ∈ tr_last t → OutcomeKind.is_retryable_failure (tt_outcome x) = false.
Proof.
  intros Hu E. destruct (run_command file (sh, EmptyPhase)) as [out|stop] eqn:Er.
  - right. destruct (run_verdict file sh out Hu Er)
      as (sh' & calls & clean & violated & vs & lines & t & Ht & Hv & Hh & R & Hr & Hcode).
    destruct out as [[code cache] f]. injection E as ->. cbn [fst] in Hcode.
    destruct (artifact_ok _ && artifact_ok _); [|done].
    destruct (ran_green _ _ _ _ _ _ _ Hv Hh R Hr (eq_sym Hcode)) as (-> & -> & Hi & Hg).
    pose proof (ran_all _ _ _ _ _ _ _ R Hi) as Hall. exists sh', calls, clean, vs, t. split_and!; [done..| |].
    + rewrite (ran_merged _ _ _ _ _ _ _ R), merged_ids by done. rewrite <-Hall, (ran_timings _ _ _ _ _ _ _ R).
      by rewrite map_map.
    + rewrite (ran_merged _ _ _ _ _ _ _ R). by apply merged_green.
  - left. simpl in E. subst stop. revert Er. unfold run_command.
    destruct (if cov _ then _ else _); [|done]. pose proof (to_executed_leads sh) as Hl.
    pose proof (early_success sh) as [Hs _].
    destruct (to_executed (sh, EmptyPhase)) as [[sh1 ph1]|s]; cbn [result_bind leads snd] in *.
    + pose proof (retry_leads sh1 ph1 Hl) as Hr. destruct (retry (sh1, ph1)) as [[sh2 ph2]|[c|]];
        cbn [result_bind leads snd] in *; [|by intros [= ->]|done].
      by destruct (finalize_ends file sh2 ph2 Hr) as [out ->].
    + intros [= ->]. by apply Hs.
Qed.

End Pipeline.
(** ** A run of one file whose test fails and then passes on retry *)

Definition flaky_ops : @FixtureOps nat := {|
  run_timed := λ w _ _, (if w =? 0 then TestOutcome.Failed (diagnostic_sentinel "boom")
                         else TestOutcome.Passed None, f64_zero, S w);
  drain_session := λ w, ([], w);
  end_module := λ w _, (None, w);
  end_package := λ w _, (None, w);
  end_task := λ w, (None, w);
  end_process := λ w, (None, w);
  fixture_groups_of := λ _ _, Ok ([], []);
  visible_module_lifetime := λ _ _, []
|}.

Definition quiet_python : Python := {|
  start_coverage := Ok tt;
  new_fixture_session := λ _, Ok [];
  load_plugins := λ _ _, Ok tt;
  activate_deferred_plugins := λ _ _, Ok tt;
  plugin_fixture_homes := λ _ _, Ok [];
  record_plugin_anchor := λ _ _, Ok tt;
  init_async_backend := λ _, Ok tt;
  collection := demo_bridge;
  find_unused_fixtures := λ _ _, Ok [];
  validate_fx_boundaries := λ _ _ _, Ok [];
  validate_fixture_names := λ _ _, Ok [];
  registered_fixture_names := λ _, Ok [];
  drain_session_diagnostics := λ _, [];
  get_plugin_reporters := λ _, Ok 0;
  worker_payloads := λ _ _ _, Ok tt
|}.

Definition demo_cfg : Config :=
  with_exec config_default {|
    mode := ParallelMode Auto; maxfail := 0; timeout_secs := None; timeout_multiplier := None;
    spawn_overhead := f64_zero; min_parallel_tests := 10; retries := 1; retries_delay_secs := 0;
    inspect_timeout_secs := 10 |}.

Definition demo_shared : Shared :=
  new_shared {| sh_cfg := demo_cfg; sh_command := Setup.Run (bare_run_args ["tests"] None);
                sh_rootdir := "/p"; sh_is_tty := false; sh_use_color := false |} empty_cache.

Definition demo_walk (_ : string) (_ : bool) (_ : list string) : list found_entry :=
  [{| fe_path := Some "/p/test_a.py"; fe_name := "test_a.py"; fe_is_file := Some true |}].

Definition demo_glob (s : string) : result string string := Ok s.

Definition serial_pool : Z → list TaskGroup.t → @Execution.Run nat → PhaseResult * @Execution.Run nat :=
  λ _, execute_serial flaky_ops demo_exec empty_cache.

(** [f] of a project with one test file, without git. *)
Abbreviation in_demo f := (f string (list string) string demo_glob (λ l, Ok l) (λ _ _, true) (λ e, e)
  string (λ s, Some s) String.eqb (λ _, false) (λ _, false) (λ p, Some p) demo_walk (λ _ _, [])
  demo_tree demo_source None (λ _ _ _, Err (Cycle [])) (λ _, 0%N) (λ _, 0%N) (λ _, false)
  string (λ s, Ok s) String.eqb (λ _ _, Err "no git") (λ _, ∅) quiet_python nat) (only parsing).

Abbreviation demo_run f := (in_demo f (λ _, 0) flaky_ops serial_pool (λ l, l) 4%Z (λ _, true) (λ _ _, "error")
  (λ _, []) (λ _, None) string (λ _, Some "cache") (λ c _, Some c) true) (only parsing).

Abbreviation demo_run_states := (ran quiet_python (λ _, 0) flaky_ops serial_pool (λ l, l) 4%Z (λ _, true))
  (only parsing).

Abbreviation demo_ready := (in_demo (@to_ready) (λ _, true) (λ _ _, "error") (demo_shared, EmptyPhase))
  (only parsing).

(** The tests of a pipeline that is ready. *)
Definition ready_tests {world} (r : result (Shared * @PipelinePhase world) Stop) : list string :=
  match r with
  | Ok (_, Ready _ clean violated _ _) => map node_id (violated ++ clean)
  | _ => []
  end.

Lemma demo_unique : in_demo (@unique_ids) (λ _, true) (λ _ _, "error") demo_shared.
Proof.
  intros sh' calls clean violated vs lines E. assert (ready_tests demo_ready = ["/p/test_a.py::test_a"]) as H
    by (vm_compute; reflexivity). rewrite E in H. simpl in H. rewrite H. apply NoDup_singleton.
Qed.

Lemma flaky_ops_fresh w item t : not_flaky (run_timed flaky_ops w item t).1.1 = true.
Proof. simpl. by destruct (w =? 0). Qed.

#[local] Instance serial_pool_contract n : PhaseContract (serial_pool n).
Proof. apply serial_contract. Qed.

#[local] Instance serial_pool_reports n : ReportContract (serial_pool n).
Proof. apply serial_reports, flaky_ops_fresh. Qed.

Lemma exit_zero_is_green_witness :
  code_of (demo_run (@run_command) None (demo_shared, EmptyPhase)) = Exit ExitCode.Success ∧
  ∃ sh' calls clean vs t, demo_ready = Ok (sh', Ready calls clean [] vs []) ∧
    demo_run_states sh' calls clean [] vs [] t ∧
    map tt_node_id (tr_first t) ≡ₚ map node_id clean ∧ map tt_node_id (tr_last t) ≡ₚ map node_id clean.
Proof.
  assert (code_of (demo_run (@run_command) None (demo_shared, EmptyPhase)) = Exit ExitCode.Success) as E
    by (vm_compute; reflexivity).
  split; [exact E|].
  destruct (demo_run (@exit_zero_is_green) (λ l, Permutation_refl l) flaky_ops_fresh None demo_shared demo_unique E)
    as [(files & base & notes & _ & Ha & _)|(sh' & calls & clean & vs & t & H1 & H2 & _ & H3 & _ & H4 & _)].
  - vm_compute in Ha. discriminate Ha.
  - exists sh', calls, clean, vs, t. split; [exact H1|]. split; [exact H2|]. split; [exact H3|exact H4].
Defined.

Definition demo_out := Eval vm_compute in
  match demo_run (@run_command) None (demo_shared, EmptyPhase) with
  | Ok out => out
  | Err _ => (ExitCode.Failure, empty_cache, None)
  end.

Lemma run_exit_code_witness : ∃ sh' calls t,
  demo_run_states sh' calls [demo_collected "/p/test_a.py"] [] [] [] t ∧
  demo_out.1.1 = code_of_standing (standing (tr_events t) (tr_flaky t)) 0 (tr_interrupted t).
Proof.
  destruct (demo_run (@run_exit_code) (λ l, Permutation_refl l) flaky_ops_fresh None demo_shared demo_out demo_unique)
    as (sh' & calls & clean & violated & vs & lines & t & H1 & H2 & H3 & H4 & H5 & H6).
  - vm_compute. reflexivity.
  - assert (E := H1). vm_compute in E. injection E as Es _ <- <- <- <-.
    exists sh', calls, t. split; [exact H4|]. rewrite <-Es in H6. exact H6.
Defined.
