(* ===== verification/Graph.v ===== *)
(** * Graph: the inspector's graph ([src/inspect/graph/mod.rs], [nodes.rs])

    The five typed node vectors, the handles that address them, and the pure
    readings of [InspectGraph].  An edge is an index into one of the vectors,
    and the code follows it with [v[i]], which panics when the index is out of
    range: every such reading returns an [option] here, [None] being the panic.
    [ref_ok] says a handle addresses a node, and [graph_ok] that every stored
    edge does; together they make the readings total. *)
From Stdlib Require Import Ascii.
From S2P Require Import Prelude Collections Text Paths Query.

(** ** Kinds and handles *)

Module NodeKind.
Inductive t := Fixture | Test | Mark | Declaration | Plugin.

#[global] Instance node_kind_eq_dec : EqDecision t.
Proof. solve_decision. Defined.

Definition sigil (k : t) : string :=
  match k with
  | Fixture => "F" | Test => "T" | Mark => "M" | Declaration => "D" | Plugin => "P"
  end.

Definition label (k : t) : string :=
  match k with
  | Fixture => "fixture" | Test => "test" | Mark => "mark"
  | Declaration => "declaration" | Plugin => "plugin"
  end.
End NodeKind.

Record NodeRef := mk_ref { nr_kind : NodeKind.t; nr_index : nat }.

#[export] Instance node_ref_eq_dec : EqDecision NodeRef.
Proof. solve_decision. Defined.

(** ** Nodes *)

Record FixtureNode := mk_fixture {
  fx_name : string;
  fx_binding_type : string;
  fx_scope : string;
  fx_lifetime : string;
  fx_anchor : string;
  fx_home : string;
  fx_autouse : bool;
  fx_source : string;
  fx_is_async : bool;
  fx_description : string;
  fx_consumers : list NodeRef;
  fx_declaration_idx : option nat;
  fx_plugin_idx : option nat
}.

Record TestNode := mk_test {
  tn_node_id : string;
  tn_is_async : bool;
  tn_param_id : option string;
  tn_param_count : nat;
  tn_variants : list nat;
  tn_fixture_deps : list nat;
  tn_marks : list nat
}.

Record MarkNode := mk_mark { mn_name : string; mn_used_by : list nat }.

Record DeclarationNode := mk_declaration {
  dn_path : string;
  dn_anchor : string;
  dn_home : string;
  dn_fixtures : list nat
}.

Record PluginNode := mk_plugin {
  pn_name : string;
  pn_protocols : list string;
  pn_fixtures : list nat
}.

Record AutouseFixture := mk_autouse { au_name : string; au_lifetime : string }.

Record InspectGraph := mk_graph {
  g_fixtures : list FixtureNode;
  g_tests : list TestNode;
  g_marks : list MarkNode;
  g_declarations : list DeclarationNode;
  g_plugins : list PluginNode;
  g_autouse : gmap string (list AutouseFixture)
}.

Definition empty_graph : InspectGraph := mk_graph [] [] [] [] [] ∅.

(** ** Field updates *)

Definition with_fixtures (g : InspectGraph) l :=
  mk_graph l (g_tests g) (g_marks g) (g_declarations g) (g_plugins g) (g_autouse g).
Definition with_tests (g : InspectGraph) l :=
  mk_graph (g_fixtures g) l (g_marks g) (g_declarations g) (g_plugins g) (g_autouse g).
Definition with_marks (g : InspectGraph) l :=
  mk_graph (g_fixtures g) (g_tests g) l (g_declarations g) (g_plugins g) (g_autouse g).
Definition with_declarations (g : InspectGraph) l :=
  mk_graph (g_fixtures g) (g_tests g) (g_marks g) l (g_plugins g) (g_autouse g).
Definition with_plugins (g : InspectGraph) l :=
  mk_graph (g_fixtures g) (g_tests g) (g_marks g) (g_declarations g) l (g_autouse g).
Definition with_autouse (g : InspectGraph) m :=
  mk_graph (g_fixtures g) (g_tests g) (g_marks g) (g_declarations g) (g_plugins g) m.

Definition fx_set_paths (f : FixtureNode) (source anchor : string) : FixtureNode :=
  mk_fixture (fx_name f) (fx_binding_type f) (fx_scope f) (fx_lifetime f) anchor (fx_home f)
    (fx_autouse f) source (fx_is_async f) (fx_description f) (fx_consumers f)
    (fx_declaration_idx f) (fx_plugin_idx f).
Definition fx_set_edges (f : FixtureNode) (consumers : list NodeRef) (declaration plugin : option nat)
    : FixtureNode :=
  mk_fixture (fx_name f) (fx_binding_type f) (fx_scope f) (fx_lifetime f) (fx_anchor f) (fx_home f)
    (fx_autouse f) (fx_source f) (fx_is_async f) (fx_description f) consumers declaration plugin.
Definition tn_set_id (t : TestNode) (id : string) : TestNode :=
  mk_test id (tn_is_async t) (tn_param_id t) (tn_param_count t) (tn_variants t)
    (tn_fixture_deps t) (tn_marks t).
Definition tn_set_edges (t : TestNode) (deps marks : list nat) : TestNode :=
  mk_test (tn_node_id t) (tn_is_async t) (tn_param_id t) (tn_param_count t) (tn_variants t) deps marks.
Definition tn_set_param (t : TestNode) (param_id : option string) : TestNode :=
  mk_test (tn_node_id t) (tn_is_async t) param_id (tn_param_count t) (tn_variants t)
    (tn_fixture_deps t) (tn_marks t).
Definition tn_set_variants (t : TestNode) (count : nat) (variants : list nat) : TestNode :=
  mk_test (tn_node_id t) (tn_is_async t) (tn_param_id t) count variants (tn_fixture_deps t) (tn_marks t).

Definition relative_to (root p : string) : string := default p (path_strip_prefix root p).

Definition relativize_paths (g : InspectGraph) (rootdir : string) : InspectGraph :=
  if String.eqb rootdir "" then g
  else
    let rel := relative_to rootdir in
    mk_graph
      (map (λ f, fx_set_paths f (rel (fx_source f)) (rel (fx_anchor f))) (g_fixtures g))
      (map (λ t, tn_set_id t (rel (tn_node_id t))) (g_tests g))
      (g_marks g)
      (map (λ d, mk_declaration (rel (dn_path d)) (rel (dn_anchor d)) (dn_home d) (dn_fixtures d))
         (g_declarations g))
      (g_plugins g) (g_autouse g).

(** ** Readings *)

Definition node_name (g : InspectGraph) (r : NodeRef) : option string :=
  match nr_kind r with
  | NodeKind.Fixture => fx_name <$> g_fixtures g !! nr_index r
  | NodeKind.Test => tn_node_id <$> g_tests g !! nr_index r
  | NodeKind.Mark => mn_name <$> g_marks g !! nr_index r
  | NodeKind.Declaration => dn_path <$> g_declarations g !! nr_index r
  | NodeKind.Plugin => pn_name <$> g_plugins g !! nr_index r
  end.

Definition node_count (g : InspectGraph) (k : NodeKind.t) : nat :=
  match k with
  | NodeKind.Fixture => length (g_fixtures g)
  | NodeKind.Test => length (g_tests g)
  | NodeKind.Mark => length (g_marks g)
  | NodeKind.Declaration => length (g_declarations g)
  | NodeKind.Plugin => length (g_plugins g)
  end.

Definition nil_b {A} (l : list A) : bool := match l with [] => true | _ => false end.

Definition graph_is_empty (g : InspectGraph) : bool :=
  nil_b (g_fixtures g) && nil_b (g_tests g) && nil_b (g_marks g) && nil_b (g_declarations g)
  && nil_b (g_plugins g).

Definition nodes_of_kind (g : InspectGraph) (k : NodeKind.t) : list NodeRef :=
  map (mk_ref k) (seq 0 (node_count g k)).

Definition all_node_refs (g : InspectGraph) : list NodeRef :=
  map (mk_ref NodeKind.Test) (seq 0 (length (g_tests g)))
  ++ map (mk_ref NodeKind.Fixture) (seq 0 (length (g_fixtures g)))
  ++ map (mk_ref NodeKind.Mark) (seq 0 (length (g_marks g)))
  ++ map (mk_ref NodeKind.Declaration) (seq 0 (length (g_declarations g)))
  ++ map (mk_ref NodeKind.Plugin) (seq 0 (length (g_plugins g))).

Definition node_query_entry (g : InspectGraph) (r : NodeRef) : option QueryEntry :=
  name ← node_name g r;
  let fields := <["name" := name]> (∅ : gmap string string) in
  match nr_kind r with
  | NodeKind.Test =>
      test ← g_tests g !! nr_index r;
      let mark_names := omap (λ mi, mn_name <$> g_marks g !! mi) (tn_marks test) in
      Some {| fields := <["mark" := join "," mark_names]> fields |}
  | _ => Some {| fields := fields |}
  end.

(** [node_id.rfind('[')]: the text before the last bracket, and after it. *)
Fixpoint rsplit_bracket (s : string) : option (string * string) :=
  match s with
  | "" => None
  | String c s' =>
      match rsplit_bracket s' with
      | Some (a, b) => Some (String c a, b)
      | None => if Ascii.eqb c "["%char then Some ("", s') else None
      end
  end.

Definition base_test_name (node_id : string) : string :=
  match rsplit_bracket node_id with Some (base, _) => base | None => node_id end.

(** ** Well-formed graphs *)

(** The handle addresses a node. *)
Definition ref_ok (g : InspectGraph) (r : NodeRef) : Prop := nr_index r < node_count g (nr_kind r).

#[global] Instance ref_ok_dec g r : Decision (ref_ok g r).
Proof. unfold ref_ok. apply _. Defined.

(** The edges stored at position [i] of a vector of nodes. *)
Definition edges_at {N E} (sel : N → list E) (l : list N) (i : nat) : list E :=
  default [] (sel <$> l !! i).

Definition deps (g : InspectGraph) := edges_at tn_fixture_deps (g_tests g).
Definition marks_of (g : InspectGraph) := edges_at tn_marks (g_tests g).
Definition variants (g : InspectGraph) := edges_at tn_variants (g_tests g).
Definition consumers (g : InspectGraph) := edges_at fx_consumers (g_fixtures g).
Definition used_by (g : InspectGraph) := edges_at mn_used_by (g_marks g).
Definition declares (g : InspectGraph) := edges_at dn_fixtures (g_declarations g).
Definition provides (g : InspectGraph) := edges_at pn_fixtures (g_plugins g).
Definition declaration (g : InspectGraph) (j : nat) : option nat :=
  g_fixtures g !! j ≫= fx_declaration_idx.
Definition plugin (g : InspectGraph) (j : nat) : option nat := g_fixtures g !! j ≫= fx_plugin_idx.

(** The two ends of every edge agree, so that no edge leaves the graph, and
    no edge is stored twice. *)
Record graph_ok (g : InspectGraph) : Prop := {
  ok_deps i j : j ∈ deps g i ↔ mk_ref NodeKind.Test i ∈ consumers g j;
  ok_consumers j r : r ∈ consumers g j → nr_kind r = NodeKind.Test;
  ok_marks i m : m ∈ marks_of g i ↔ i ∈ used_by g m;
  ok_declaration j d : declaration g j = Some d → j ∈ declares g d;
  ok_declares d j : j ∈ declares g d → j < length (g_fixtures g);
  ok_plugin j p : plugin g j = Some p → j ∈ provides g p;
  ok_provides p j : j ∈ provides g p → j < length (g_fixtures g);
  ok_variants i j : j ∈ variants g i → j < length (g_tests g);
  nodup_deps i : NoDup (deps g i);
  nodup_consumers j : NoDup (consumers g j);
  nodup_marks i : NoDup (marks_of g i);
  nodup_used_by m : NoDup (used_by g m);
  nodup_declares d : NoDup (declares g d);
  nodup_provides p : NoDup (provides g p)
}.

Lemma edges_at_lt {N E} (sel : N → list E) l i e : e ∈ edges_at sel l i → i < length l.
Proof.
  unfold edges_at. destruct (l !! i) eqn:Hi; simpl; [intros _|by intros ?%elem_of_nil].
  by eapply lookup_lt_Some.
Qed.

Lemma edges_at_Some {N E} (sel : N → list E) l i x : l !! i = Some x → edges_at sel l i = sel x.
Proof. unfold edges_at. by intros ->. Qed.

Lemma edges_at_insert {N E} (sel : N → list E) l i x k :
  i < length l → edges_at sel (<[i := x]> l) k = if decide (k = i) then sel x else edges_at sel l k.
Proof.
  intros Hi. unfold edges_at. destruct (decide (k = i)) as [->|Hne].
  - by rewrite list_lookup_insert_eq.
  - by rewrite list_lookup_insert_ne.
Qed.

Lemma edges_at_snoc {N E} (sel : N → list E) l x k :
  edges_at sel (l ++ [x]) k = if decide (k = length l) then sel x else edges_at sel l k.
Proof.
  unfold edges_at. destruct (decide (k = length l)) as [->|Hne].
  - by rewrite lookup_app_r, Nat.sub_diag by lia.
  - destruct (decide (k < length l)) as [Hlt|Hge].
    + by rewrite lookup_app_l.
    + rewrite !lookup_ge_None_2; rewrite ?length_app; simpl; [done|lia..].
Qed.

Lemma edges_at_map {N E} (sel : N → list E) (f : N → N) l k :
  (∀ x, sel (f x) = sel x) → edges_at sel (map f l) k = edges_at sel l k.
Proof.
  intros Hf. unfold edges_at. rewrite list_lookup_fmap. by destruct (l !! k); simpl; rewrite ?Hf.
Qed.

(** *** Edges stay in the graph *)

Section Ok.
Context (g : InspectGraph) (Hg : graph_ok g).

Lemma deps_ok i j : j ∈ deps g i → j < length (g_fixtures g).
Proof. intros H%(ok_deps _ Hg). by eapply edges_at_lt. Qed.

Lemma consumers_ok j r : r ∈ consumers g j → ref_ok g r.
Proof.
  intros H. pose proof (ok_consumers _ Hg _ _ H) as Hk. destruct r as [k i]. simpl in Hk. subst k.
  apply (ok_deps _ Hg) in H. unfold ref_ok; simpl. by eapply edges_at_lt.
Qed.

Lemma marks_ok i m : m ∈ marks_of g i → m < length (g_marks g).
Proof. intros H%(ok_marks _ Hg). by eapply edges_at_lt. Qed.

Lemma used_by_ok m i : i ∈ used_by g m → i < length (g_tests g).
Proof. intros H%(ok_marks _ Hg). by eapply edges_at_lt. Qed.

Lemma declaration_ok j d : declaration g j = Some d → d < length (g_declarations g).
Proof. intros H%(ok_declaration _ Hg). by eapply edges_at_lt. Qed.

Lemma plugin_ok j p : plugin g j = Some p → p < length (g_plugins g).
Proof. intros H%(ok_plugin _ Hg). by eapply edges_at_lt. Qed.
End Ok.

Lemma node_name_ok g r : is_Some (node_name g r) ↔ ref_ok g r.
Proof.
  unfold node_name, ref_ok, node_count. destruct (nr_kind r); rewrite fmap_is_Some; apply lookup_lt_is_Some.
Qed.

Lemma all_node_refs_elem g r : r ∈ all_node_refs g ↔ ref_ok g r.
Proof.
  unfold all_node_refs, ref_ok. rewrite !elem_of_app, !map_elem. setoid_rewrite elem_of_seq.
  destruct r as [[] i]; simpl.
  all: split; [intros H; repeat destruct H as [H|H]; destruct H as (? & ? & [= <-]); lia|intros H].
  all: eauto 8 with lia.
Qed.

Lemma length_all_node_refs g :
  length (all_node_refs g) = length (g_tests g) + (length (g_fixtures g) + (length (g_marks g)
    + (length (g_declarations g) + length (g_plugins g)))).
Proof. unfold all_node_refs. by rewrite !length_app, !length_map, !length_seq. Qed.

Lemma node_query_entry_ok g r : ref_ok g r → is_Some (node_query_entry g r).
Proof.
  intros Hr. unfold node_query_entry. destruct (node_name g r) eqn:E; simpl.
  - destruct (nr_kind r) eqn:Hk; simpl; try by eexists.
    unfold ref_ok in Hr. rewrite Hk in Hr. apply lookup_lt_is_Some in Hr as [t ->]. by eexists.
  - apply node_name_ok in Hr as [? ?]. congruence.
Qed.

Lemma graph_ok_empty : graph_ok empty_graph.
Proof.
  assert (Hn : ∀ N E (sel : N → list E) i, edges_at sel [] i = []) by (by intros; destruct i).
  split; unfold deps, consumers, marks_of, used_by, declares, provides, variants, declaration, plugin; simpl.
  all: intros; rewrite ?Hn in *; try (by split; intros ?%elem_of_nil); try by constructor.
  all: by match goal with H : _ ∈ [] |- _ => apply elem_of_nil in H | H : _ = Some _ |- _ => idtac end.
Qed.

(** A graph with the same edges and no fewer nodes is as good. *)
Lemma graph_ok_ext g g' :
  (∀ i, deps g' i = deps g i) → (∀ i, marks_of g' i = marks_of g i) →
  (∀ i, variants g' i = variants g i) → (∀ j, consumers g' j = consumers g j) →
  (∀ m, used_by g' m = used_by g m) → (∀ d, declares g' d = declares g d) →
  (∀ p, provides g' p = provides g p) → (∀ j, declaration g' j = declaration g j) →
  (∀ j, plugin g' j = plugin g j) → length (g_fixtures g) ≤ length (g_fixtures g') →
  length (g_tests g) ≤ length (g_tests g') →
  graph_ok g → graph_ok g'.
Proof.
  intros H1 H2 H3 H4 H5 H6 H7 H8 H9 Hf Ht [].
  split; intros *; rewrite ?H1, ?H2, ?H3, ?H4, ?H5, ?H6, ?H7, ?H8, ?H9; eauto.
  - intros ?%ok_declares0. lia.
  - intros ?%ok_provides0. lia.
  - intros ?%ok_variants0. lia.
Qed.

(** Paths are not edges. *)
Lemma relativize_ok g root : graph_ok g → graph_ok (relativize_paths g root).
Proof.
  unfold relativize_paths. destruct (String.eqb root ""); [done|].
  apply graph_ok_ext; intros; unfold deps, consumers, marks_of, used_by, declares, provides, variants,
    declaration, plugin; simpl; rewrite ?edges_at_map, ?length_map; try done.
  all: rewrite list_lookup_fmap; by destruct (g_fixtures g !! j).
Qed.

Lemma relativize_count g root k : node_count (relativize_paths g root) k = node_count g k.
Proof.
  unfold relativize_paths. destruct (String.eqb root ""); [done|]. destruct k; simpl; by rewrite ?length_map.
Qed.

(** The names of the nodes of a kind, in order. *)
Definition names (g : InspectGraph) (k : NodeKind.t) : list string :=
  match k with
  | NodeKind.Fixture => map fx_name (g_fixtures g)
  | NodeKind.Test => map tn_node_id (g_tests g)
  | NodeKind.Mark => map mn_name (g_marks g)
  | NodeKind.Declaration => map dn_path (g_declarations g)
  | NodeKind.Plugin => map pn_name (g_plugins g)
  end.

Lemma length_names g k : length (names g k) = node_count g k.
Proof. destruct k; simpl; apply length_map. Qed.

Lemma node_name_names g r : node_name g r = names g (nr_kind r) !! nr_index r.
Proof. unfold node_name, names. destruct (nr_kind r); by rewrite list_lookup_fmap. Qed.

(** [g'] has the nodes of [g] at the same places, and maybe more. *)
Definition extends (g g' : InspectGraph) : Prop := ∀ k, names g k `prefix_of` names g' k.

#[global] Instance extends_preorder : PreOrder extends.
Proof.
  split; [by intros g k|]. intros a b c H1 H2 k. by transitivity (names b k); [apply H1|apply H2].
Qed.

Lemma node_name_extends g g' r :
  extends g g' → ref_ok g r → node_name g' r = node_name g r.
Proof.
  intros H [x Hx]%node_name_ok. rewrite Hx. rewrite node_name_names in *.
  by eapply prefix_lookup_Some, H.
Qed.

Lemma ref_ok_extends g g' r : extends g g' → ref_ok g r → ref_ok g' r.
Proof.
  intros H Hr. rewrite <-node_name_ok in *. by rewrite (node_name_extends g) by by rewrite <-?node_name_ok.
Qed.

(** What [relativize_paths] does to the name of a node. *)
Definition shown_name (root : string) (k : NodeKind.t) (name : string) : string :=
  match k with
  | NodeKind.Test | NodeKind.Declaration =>
      if String.eqb root "" then name else relative_to root name
  | _ => name
  end.

Lemma node_name_relativize g root r :
  node_name (relativize_paths g root) r = shown_name root (nr_kind r) <$> node_name g r.
Proof.
  unfold node_name, relativize_paths, shown_name.
  destruct (String.eqb root ""), (nr_kind r); simpl; rewrite ?list_lookup_fmap.
  all: by match goal with |- context [?l !! ?i] => destruct (l !! i) end.
Qed.
