(* ===== verification/Builder.v ===== *)
(** * Builder: constructing the inspector's graph ([src/inspect/graph/builder.rs])

    [GraphBuilder] adds nodes from flat query entries and wires edges both
    ways, with lookup tables for deduplication.  The vectors it updates by
    index panic out of range, so the wiring steps are in the option monad and
    [None] is that panic.  The seen-sets the code keeps to avoid scanning edge
    lists are modelled as they are ([Seen]), and proved to hold the edge lists.

    A [HashMap] is a [gmap]; the one whose iteration order shows in the graph,
    the marks per test, is iterated through the parameter [iter_order], any
    permutation. *)
From Stdlib Require Import Ascii.
From S2P Require Import Prelude Collections Text Paths Query Graph.

(** ** Loops that may panic *)

Fixpoint foldM {A S} (f : S → A → option S) (l : list A) (s : S) : option S :=
  match l with
  | [] => Some s
  | x :: l' => s' ← f s x; foldM f l' s'
  end.

Lemma foldM_inv {A S} (I : S → Prop) (f : S → A → option S) l s :
  I s → (∀ s x, x ∈ l → I s → ∃ s', f s x = Some s' ∧ I s') →
  ∃ s', foldM f l s = Some s' ∧ I s'.
Proof.
  revert s. induction l as [|x l IH]; intros s Hs Hf; simpl; [eauto|].
  destruct (Hf s x) as (s1 & -> & H1); [left|done|]. simpl. apply IH; [done|].
  intros. apply Hf; [by right|done].
Qed.

(** [v[i] = f(v[i])] *)
Definition update {A} (i : nat) (f : A → A) (l : list A) : option (list A) :=
  x ← l !! i; Some (<[i := f x]> l).

Lemma update_Some {A} i (f : A → A) l x : l !! i = Some x → update i f l = Some (<[i := f x]> l).
Proof. unfold update. by intros ->. Qed.

(** ** Seen-sets *)

#[global] Instance node_kind_countable : Countable NodeKind.t.
Proof.
  refine (inj_countable
    (λ k, match k with NodeKind.Fixture => 0 | NodeKind.Test => 1 | NodeKind.Mark => 2
                  | NodeKind.Declaration => 3 | NodeKind.Plugin => 4 end)
    (λ n, match n with 0 => Some NodeKind.Fixture | 1 => Some NodeKind.Test | 2 => Some NodeKind.Mark
                  | 3 => Some NodeKind.Declaration | 4 => Some NodeKind.Plugin | _ => None end) _).
  by intros [].
Defined.

#[global] Instance node_ref_countable : Countable NodeRef.
Proof.
  refine (inj_countable' (λ r, (nr_kind r, nr_index r)) (λ p, mk_ref p.1 p.2) _). by intros [].
Defined.

Abbreviation seen_map X := (gmap nat (gset X)).

Module Seen.
Section Seen.
Context {X : Type} `{Countable X}.
(** One set per node that has edges. *)
Fixpoint seed_from (i : nat) (ls : list (list X)) : seen_map X :=
  match ls with
  | [] => ∅
  | [] :: ls' => seed_from (S i) ls'
  | l :: ls' => <[i := list_to_set l]> (seed_from (S i) ls')
  end.
Definition seed (ls : list (list X)) : seen_map X := seed_from 0 ls.

(** [seen.entry(i).or_default().insert(x)] *)
Definition note (s : seen_map X) (i : nat) (x : X) : seen_map X * bool :=
  let set := default ∅ (s !! i) in
  (<[i := {[x]} ∪ set]> s, bool_decide (x ∉ set)).
End Seen.
End Seen.

(** ** The builder *)

Record GraphBuilder := mk_builder {
  gb_graph : InspectGraph;
  fixture_by_name : gmap string nat;
  test_by_node_id : gmap string nat;
  mark_by_name : gmap string nat;
  declaration_by_path : gmap string nat;
  plugin_by_name : gmap string nat;
  test_mark_names : gmap nat (list string)
}.

Definition new_builder : GraphBuilder := mk_builder empty_graph ∅ ∅ ∅ ∅ ∅ ∅.

(** [iter().enumerate().map(|(i, n)| (name, i)).collect()] *)
Definition index_names {N} (name : N → string) (l : list N) : gmap string nat :=
  fold_left (λ m p, <[name p.2 := p.1]> m) (imap pair l) ∅.

Definition from_graph (g : InspectGraph) : GraphBuilder :=
  mk_builder g (index_names fx_name (g_fixtures g)) (index_names tn_node_id (g_tests g))
    (index_names mn_name (g_marks g)) (index_names dn_path (g_declarations g))
    (index_names pn_name (g_plugins g)) ∅.

Definition field (e : QueryEntry) (k : string) : string := default "" (entry_get e k).
Definition is_true_field (e : QueryEntry) (k : string) : bool :=
  match entry_get e k with Some v => String.eqb v "true" | None => false end.
Definition comma_list (s : string) : list string :=
  List.filter (λ p, negb (String.eqb p "")) (split "," s).

Definition add_test_entry (b : GraphBuilder) (entry : QueryEntry) : GraphBuilder :=
  let node_id := field entry "name" in
  match test_by_node_id b !! node_id with
  | Some _ => b
  | None =>
      let mark_names := comma_list (field entry "mark") in
      let idx := length (g_tests (gb_graph b)) in
      let node := mk_test node_id (is_true_field entry "async") None 0 [] [] [] in
      mk_builder (with_tests (gb_graph b) (g_tests (gb_graph b) ++ [node]))
        (fixture_by_name b) (<[node_id := idx]> (test_by_node_id b)) (mark_by_name b)
        (declaration_by_path b) (plugin_by_name b)
        (if nil_b mark_names then test_mark_names b else <[idx := mark_names]> (test_mark_names b))
  end.

Definition add_test_entries (b : GraphBuilder) (entries : list QueryEntry) : GraphBuilder :=
  fold_left add_test_entry entries b.

(** The shared tail of [add_mark_entries] and [ensure_mark]. *)
Definition push_mark (b : GraphBuilder) (name : string) : GraphBuilder :=
  mk_builder (with_marks (gb_graph b) (g_marks (gb_graph b) ++ [mk_mark name []]))
    (fixture_by_name b) (test_by_node_id b)
    (<[name := length (g_marks (gb_graph b))]> (mark_by_name b))
    (declaration_by_path b) (plugin_by_name b) (test_mark_names b).

Definition add_mark_entry (b : GraphBuilder) (entry : QueryEntry) : GraphBuilder :=
  let name := field entry "name" in
  match mark_by_name b !! name with
  | Some _ => b
  | None => push_mark b name
  end.

Definition add_mark_entries (b : GraphBuilder) (entries : list QueryEntry) : GraphBuilder :=
  fold_left add_mark_entry entries b.

Definition fixture_of_entry (entry : QueryEntry) : FixtureNode :=
  mk_fixture (field entry "name") (default "fixture" (entry_get entry "type"))
    (default "each" (entry_get entry "scope")) (field entry "lifetime") (field entry "anchor")
    (field entry "home") (is_true_field entry "autouse") (field entry "source")
    (is_true_field entry "async") (field entry "description") [] None None.

Definition add_fixture_entry (b : GraphBuilder) (entry : QueryEntry) : GraphBuilder :=
  let name := field entry "name" in
  match fixture_by_name b !! name with
  | Some _ => b
  | None =>
      mk_builder (with_fixtures (gb_graph b) (g_fixtures (gb_graph b) ++ [fixture_of_entry entry]))
        (<[name := length (g_fixtures (gb_graph b))]> (fixture_by_name b)) (test_by_node_id b)
        (mark_by_name b) (declaration_by_path b) (plugin_by_name b) (test_mark_names b)
  end.

Definition add_fixture_entries (b : GraphBuilder) (entries : list QueryEntry) : GraphBuilder :=
  fold_left add_fixture_entry entries b.

Definition autouse_of (names lifetimes : string) : list AutouseFixture :=
  map (λ p, mk_autouse p.1 p.2) (zip (comma_list names) (split "," lifetimes)).

Definition add_autouse_entry (rootdir : string) (b : GraphBuilder) (entry : QueryEntry) : GraphBuilder :=
  match entry_get entry "module_path" with
  | None => b
  | Some module_path =>
      let fixtures := autouse_of (field entry "fixture_names") (field entry "lifetimes") in
      mk_builder
        (with_autouse (gb_graph b)
           (<[relative_to rootdir module_path := fixtures]> (g_autouse (gb_graph b))))
        (fixture_by_name b) (test_by_node_id b) (mark_by_name b) (declaration_by_path b)
        (plugin_by_name b) (test_mark_names b)
  end.

Definition add_autouse_entries (b : GraphBuilder) (entries : list QueryEntry) (rootdir : string)
    : GraphBuilder :=
  fold_left (add_autouse_entry rootdir) entries b.

Definition add_plugin_entry (b : GraphBuilder) (entry : QueryEntry) : GraphBuilder :=
  let name := field entry "name" in
  match plugin_by_name b !! name with
  | Some _ => b
  | None =>
      mk_builder
        (with_plugins (gb_graph b)
           (g_plugins (gb_graph b) ++ [mk_plugin name (comma_list (field entry "protocol")) []]))
        (fixture_by_name b) (test_by_node_id b) (mark_by_name b) (declaration_by_path b)
        (<[name := length (g_plugins (gb_graph b))]> (plugin_by_name b)) (test_mark_names b)
  end.

Definition add_plugin_entries (b : GraphBuilder) (entries : list QueryEntry) : GraphBuilder :=
  fold_left add_plugin_entry entries b.

Definition set_graph (b : GraphBuilder) (g : InspectGraph) : GraphBuilder :=
  mk_builder g (fixture_by_name b) (test_by_node_id b) (mark_by_name b) (declaration_by_path b)
    (plugin_by_name b) (test_mark_names b).

(** ** Wiring *)

(** Test to fixture, and back. *)
Definition push_dep (j : nat) (t : TestNode) : TestNode :=
  tn_set_edges t (tn_fixture_deps t ++ [j]) (tn_marks t).
Definition push_consumer (r : NodeRef) (f : FixtureNode) : FixtureNode :=
  fx_set_edges f (fx_consumers f ++ [r]) (fx_declaration_idx f) (fx_plugin_idx f).

Definition dep_state : Type := InspectGraph * seen_map nat * seen_map NodeRef.

Definition wire_dep (st : dep_state) (test_idx fix_idx : nat) : option dep_state :=
  let '(g, seen_test_deps, seen_fix_consumers) := st in
  let '(st1, fresh) := Seen.note seen_test_deps test_idx fix_idx in
  g1 ← (if fresh : bool then with_tests g <$> update test_idx (push_dep fix_idx) (g_tests g) else Some g);
  let consumer_ref := mk_ref NodeKind.Test test_idx in
  let '(sf1, fresh') := Seen.note seen_fix_consumers fix_idx consumer_ref in
  g2 ← (if fresh' : bool
        then with_fixtures g1 <$> update fix_idx (push_consumer consumer_ref) (g_fixtures g1)
        else Some g1);
  Some (g2, st1, sf1).

Definition strip_root_prefix (rootdir raw_id : string) : string :=
  let prefix :=
    if String.eqb rootdir "" then ""
    else if ends_with "/" rootdir then rootdir else rootdir +:+ "/" in
  if String.eqb prefix "" then raw_id else default raw_id (strip_prefix prefix raw_id).

Definition wire_dep_name (b : GraphBuilder) (test_idx : nat) (st : dep_state) (name : string)
    : option dep_state :=
  let name := trim name in
  if String.eqb name "" then Some st
  else
    match fixture_by_name b !! name with
    | None => Some st
    | Some fix_idx => wire_dep st test_idx fix_idx
    end.

Definition wire_dep_entry (b : GraphBuilder) (rootdir : string) (st : dep_state) (entry : QueryEntry)
    : option dep_state :=
  let test_node_id := strip_root_prefix rootdir (field entry "test_node_id") in
  match test_by_node_id b !! test_node_id with
  | None => Some st
  | Some test_idx => foldM (wire_dep_name b test_idx) (split "," (field entry "fixture_names")) st
  end.

Definition add_fixture_dep_entries (b : GraphBuilder) (entries : list QueryEntry) (rootdir : string)
    : option GraphBuilder :=
  let g := gb_graph b in
  st ← foldM (wire_dep_entry b rootdir) entries
         (g, Seen.seed (map tn_fixture_deps (g_tests g)), Seen.seed (map fx_consumers (g_fixtures g)));
  Some (set_graph b st.1.1).

(** Test to mark, and back. *)
Definition push_test_mark (m : nat) (t : TestNode) : TestNode :=
  tn_set_edges t (tn_fixture_deps t) (tn_marks t ++ [m]).
Definition push_user (i : nat) (m : MarkNode) : MarkNode := mk_mark (mn_name m) (mn_used_by m ++ [i]).

Definition ensure_mark (b : GraphBuilder) (name : string) : GraphBuilder * nat :=
  match mark_by_name b !! name with
  | Some idx => (b, idx)
  | None => (push_mark b name, length (g_marks (gb_graph b)))
  end.

Definition mark_state : Type := GraphBuilder * seen_map nat * seen_map nat.

Definition wire_mark (test_idx : nat) (st : mark_state) (name : string) : option mark_state :=
  let '(b, seen_test_marks, seen_mark_users) := st in
  let '(b1, mark_idx) := ensure_mark b name in
  let g := gb_graph b1 in
  let '(st1, fresh) := Seen.note seen_test_marks test_idx mark_idx in
  g1 ← (if fresh : bool then with_tests g <$> update test_idx (push_test_mark mark_idx) (g_tests g)
        else Some g);
  let '(sm1, fresh') := Seen.note seen_mark_users mark_idx test_idx in
  g2 ← (if fresh' : bool then with_marks g1 <$> update mark_idx (push_user test_idx) (g_marks g1)
        else Some g1);
  Some (set_graph b1 g2, st1, sm1).

Section Order.
Context (iter_order : list (nat * list string) → list (nat * list string)).

Definition resolve_test_to_mark_edges (b : GraphBuilder) : option GraphBuilder :=
  let mark_map := test_mark_names b in
  let b := mk_builder (gb_graph b) (fixture_by_name b) (test_by_node_id b) (mark_by_name b)
             (declaration_by_path b) (plugin_by_name b) ∅ in
  let g := gb_graph b in
  st ← foldM (λ st p, foldM (wire_mark p.1) p.2 st) (iter_order (map_to_list mark_map))
         (b, Seen.seed (map tn_marks (g_tests g)), Seen.seed (map mn_used_by (g_marks g)));
  Some st.1.1.
End Order.

(** Fixture to declaration, and back. *)
Definition ensure_declaration (b : GraphBuilder) (path anchor home : string) : GraphBuilder * nat :=
  match declaration_by_path b !! path with
  | Some idx => (b, idx)
  | None =>
      let idx := length (g_declarations (gb_graph b)) in
      (mk_builder
         (with_declarations (gb_graph b)
            (g_declarations (gb_graph b) ++ [mk_declaration path anchor home []]))
         (fixture_by_name b) (test_by_node_id b) (mark_by_name b)
         (<[path := idx]> (declaration_by_path b)) (plugin_by_name b) (test_mark_names b), idx)
  end.

Definition push_declared (j : nat) (d : DeclarationNode) : DeclarationNode :=
  mk_declaration (dn_path d) (dn_anchor d) (dn_home d) (dn_fixtures d ++ [j]).
Definition set_declaration (d : nat) (f : FixtureNode) : FixtureNode :=
  fx_set_edges f (fx_consumers f) (Some d) (fx_plugin_idx f).

Definition wire_declaration (st : GraphBuilder * seen_map nat) (fix_idx : nat)
    : option (GraphBuilder * seen_map nat) :=
  let '(b, seen) := st in
  f ← g_fixtures (gb_graph b) !! fix_idx;
  if String.eqb (fx_home f) "" then Some (b, seen)
  else
    let '(b1, d) := ensure_declaration b (fx_source f) (fx_anchor f) (fx_home f) in
    g1 ← with_fixtures (gb_graph b1) <$> update fix_idx (set_declaration d) (g_fixtures (gb_graph b1));
    let '(seen1, fresh) := Seen.note seen d fix_idx in
    g2 ← (if fresh : bool
          then with_declarations g1 <$> update d (push_declared fix_idx) (g_declarations g1)
          else Some g1);
    Some (set_graph b1 g2, seen1).

Definition resolve_fixture_to_declaration_edges (b : GraphBuilder) : option GraphBuilder :=
  let g := gb_graph b in
  st ← foldM wire_declaration (seq 0 (length (g_fixtures g)))
         (b, Seen.seed (map dn_fixtures (g_declarations g)));
  Some st.1.

(** Fixture to plugin, and back. *)
Definition push_provided (j : nat) (p : PluginNode) : PluginNode :=
  mk_plugin (pn_name p) (pn_protocols p) (pn_fixtures p ++ [j]).
Definition set_plugin (p : nat) (f : FixtureNode) : FixtureNode :=
  fx_set_edges f (fx_consumers f) (fx_declaration_idx f) (Some p).

Definition plugin_of (b : GraphBuilder) (source : string) : option nat :=
  rest ← strip_prefix "<plugin:" source;
  name ← strip_suffix ">" rest;
  plugin_by_name b !! name.

Definition wire_plugin (st : GraphBuilder * seen_map nat) (fix_idx : nat)
    : option (GraphBuilder * seen_map nat) :=
  let '(b, seen) := st in
  f ← g_fixtures (gb_graph b) !! fix_idx;
  match plugin_of b (fx_source f) with
  | None => Some (b, seen)
  | Some p =>
      g1 ← with_fixtures (gb_graph b) <$> update fix_idx (set_plugin p) (g_fixtures (gb_graph b));
      let '(seen1, fresh) := Seen.note seen p fix_idx in
      g2 ← (if fresh : bool then with_plugins g1 <$> update p (push_provided fix_idx) (g_plugins g1)
            else Some g1);
      Some (set_graph b g2, seen1)
  end.

Definition resolve_fixture_to_plugin_edges (b : GraphBuilder) : option GraphBuilder :=
  let g := gb_graph b in
  st ← foldM wire_plugin (seq 0 (length (g_fixtures g)))
         (b, Seen.seed (map pn_fixtures (g_plugins g)));
  Some st.1.

(** Parametrised tests by base name. *)
Fixpoint trim_end_bracket (s : string) : string :=
  match s with
  | "" => ""
  | String c s' =>
      match trim_end_bracket s' with
      | "" => if Ascii.eqb c "]"%char then "" else String c ""
      | r => String c r
      end
  end.

Definition param_of (node_id : string) : option (string * string) :=
  match rsplit_bracket node_id with
  | Some (base, rest) => Some (base, trim_end_bracket rest)
  | None => None
  end.

Definition set_param_id (t : TestNode) : TestNode :=
  match param_of (tn_node_id t) with
  | Some (_, param_id) => tn_set_param t (Some param_id)
  | None => t
  end.

(** The [groups] map: base name to the indices of its tests, in order. *)
Definition add_to_group (m : gmap string (list nat)) (p : nat * TestNode) : gmap string (list nat) :=
  match param_of (tn_node_id p.2) with
  | Some (base, _) => <[base := default [] (m !! base) ++ [p.1]]> m
  | None => m
  end.

Definition param_groups (l : list TestNode) : gmap string (list nat) :=
  fold_left add_to_group (imap pair l) ∅.

Definition set_group (l : list TestNode) (indices : list nat) : option (list TestNode) :=
  if 1 <? length indices
  then foldM (λ l idx,
         update idx (λ t, tn_set_variants t (length indices)
                            (List.filter (λ i, negb (i =? idx)) indices)) l) indices l
  else Some l.

Definition resolve_parametrize_grouping (b : GraphBuilder) : option GraphBuilder :=
  let g := gb_graph b in
  let groups := param_groups (g_tests g) in
  l ← foldM set_group (map snd (map_to_list groups)) (map set_param_id (g_tests g));
  Some (set_graph b (with_tests g l)).

Definition resolve_edges (iter_order : list (nat * list string) → list (nat * list string))
    (b : GraphBuilder) : option GraphBuilder :=
  b ← resolve_test_to_mark_edges iter_order b;
  b ← resolve_fixture_to_declaration_edges b;
  b ← resolve_fixture_to_plugin_edges b;
  resolve_parametrize_grouping b.

(** ** The two uses of the builder *)

(** Stage 5 of [build_phase1_graph] ([src/inspect/mod.rs]). *)
Definition phase1_graph iter_order (test_entries mark_entries : list QueryEntry) : option InspectGraph :=
  let b := add_mark_entries (add_test_entries new_builder test_entries) mark_entries in
  gb_graph <$> resolve_edges iter_order b.

Record Phase2Data := mk_phase2 {
  p2_fixture_entries : list QueryEntry;
  p2_autouse_entries : list QueryEntry;
  p2_plugin_entries : list QueryEntry;
  p2_fixture_dep_entries : list QueryEntry
}.

(** The graph half of [InspectApp::merge_phase2] ([src/inspect/app.rs]). *)
Definition merge_graph iter_order (g : InspectGraph) (data : Phase2Data) (rootdir : string)
    : option InspectGraph :=
  let b := from_graph g in
  let b := add_fixture_entries b (p2_fixture_entries data) in
  let b := add_plugin_entries b (p2_plugin_entries data) in
  b ← add_fixture_dep_entries b (p2_fixture_dep_entries data) rootdir;
  let b := add_autouse_entries b (p2_autouse_entries data) rootdir in
  b ← resolve_edges iter_order b;
  Some (relativize_paths (gb_graph b) rootdir).

(** ** The seen-sets hold the edge lists *)

Section SeenOk.
Context {X : Type} `{Countable X}.

Definition seen_ok (s : seen_map X) (edges : nat → list X) : Prop :=
  ∀ i x, x ∈ default ∅ (s !! i) ↔ x ∈ edges i.

Lemma seed_from_lookup k (ls : list (list X)) i x :
  x ∈ default ∅ (Seen.seed_from k ls !! i) ↔ k ≤ i ∧ x ∈ default [] (ls !! (i - k)).
Proof.
  revert k. induction ls as [|l ls IH]; intros k; simpl.
  - rewrite lookup_empty. set_solver.
  - assert (Hs : S k ≤ i → (l :: ls) !! (i - k) = ls !! (i - S k)).
    { intros. by replace (i - k) with (S (i - S k)) by lia. }
    destruct l as [|y l].
    + rewrite IH. destruct (decide (k = i)) as [->|Hne].
      { rewrite Nat.sub_diag. simpl. split; [lia|set_solver]. }
      split; intros [Hle Hx]; (split; [lia|]); [rewrite Hs by lia|rewrite Hs in Hx by lia]; done.
    + destruct (decide (k = i)) as [->|Hne].
      { rewrite lookup_insert_eq, Nat.sub_diag. cbn -[list_to_set]. rewrite elem_of_list_to_set. intuition lia. }
      rewrite lookup_insert_ne, IH by done.
      split; intros [Hle Hx]; (split; [lia|]); [rewrite Hs by lia|rewrite Hs in Hx by lia]; done.
Qed.

Lemma seed_ok {N} (sel : N → list X) (l : list N) : seen_ok (Seen.seed (map sel l)) (edges_at sel l).
Proof.
  intros i x. unfold Seen.seed. rewrite seed_from_lookup, Nat.sub_0_r, list_lookup_fmap.
  unfold edges_at. intuition lia.
Qed.

Lemma seen_ok_ext s (e e' : nat → list X) : seen_ok s e → (∀ i, e' i = e i) → seen_ok s e'.
Proof. intros Hs He i x. by rewrite He. Qed.
End SeenOk.

(** ** One deduplicated edge *)

(** [if seen.insert(x) { l[i].edges.push(x) }]: the edge is there afterwards,
    once, and the fields that [push] leaves alone are unchanged. *)
Section PushEdge.
Context {N X : Type} `{Countable X}.
Context (sel : N → list X) (push : X → N → N).
Context (Hpush : ∀ x n, sel (push x n) = sel n ++ [x]).

Lemma push_edge_ok (s : seen_map X) (l : list N) i x s' fresh :
  Seen.note s i x = (s', fresh) → seen_ok s (edges_at sel l) → i < length l →
  ∃ l', (if fresh then update i (push x) l else Some l) = Some l'
    ∧ seen_ok s' (edges_at sel l')
    ∧ (∀ k y, y ∈ edges_at sel l' k ↔ y ∈ edges_at sel l k ∨ k = i ∧ y = x)
    ∧ (∀ k, NoDup (edges_at sel l k) → NoDup (edges_at sel l' k))
    ∧ (∀ B (q : N → B), (∀ n, q (push x n) = q n) → map q l' = map q l).
Proof.
  intros [= <- <-] Hs [n Hn]%lookup_lt_is_Some. pose proof (Hs i x) as Hi.
  case_bool_decide as Hx; rewrite Hi in Hx.
  - rewrite (update_Some _ _ _ _ Hn).
    assert (He : ∀ k, edges_at sel (<[i := push x n]> l) k
                      = if decide (k = i) then edges_at sel l i ++ [x] else edges_at sel l k).
    { intros k. rewrite edges_at_insert by by eapply lookup_lt_Some.
      destruct (decide (k = i)); [|done]. by rewrite Hpush, (edges_at_Some sel l i n). }
    eexists; split_and!; [done|..].
    + intros k y. rewrite He. destruct (decide (k = i)) as [->|Hk].
      * rewrite lookup_insert_eq. simpl. specialize (Hs i y). set_solver.
      * rewrite lookup_insert_ne by done. apply Hs.
    + intros k y. rewrite He. destruct (decide (k = i)); set_solver.
    + intros k Hnd. rewrite He. destruct (decide (k = i)) as [->|]; [|done].
      apply NoDup_app; split_and!; [done|set_solver|apply NoDup_singleton].
    + intros B q Hq. rewrite list_fmap_insert, Hq. apply list_insert_id. by rewrite list_lookup_fmap, Hn.
  - eexists; split_and!; [done|..|done|done].
    + intros k y. rewrite <-(Hs k y). destruct (decide (k = i)) as [->|Hk].
      * rewrite lookup_insert_eq. simpl. specialize (Hs i x). set_solver.
      * by rewrite lookup_insert_ne.
    + intros k y. destruct (decide (x ∈ edges_at sel l i)); [|tauto]. naive_solver.
Qed.
End PushEdge.
#[local] Opaque Seen.note.

(** ** Well-formed builders *)

(** A lookup table holds the names of a vector, and sends each to a node of that name. *)
Definition index_ok (m : gmap string nat) (ns : list string) : Prop :=
  (∀ k i, m !! k = Some i → ns !! i = Some k) ∧ (∀ k, k ∈ ns → is_Some (m !! k)).

Lemma index_ok_lt m ns k i : index_ok m ns → m !! k = Some i → i < length ns.
Proof. intros [H _] Hk. eapply lookup_lt_Some, H, Hk. Qed.

Lemma index_ok_snoc m ns k : index_ok m ns → index_ok (<[k := length ns]> m) (ns ++ [k]).
Proof.
  intros [H1 H2]. split.
  - intros k' i [[-> <-]|[Hne Hi%H1]]%lookup_insert_Some.
    + by rewrite lookup_app_r, Nat.sub_diag.
    + by apply lookup_app_l_Some.
  - intros k' Hk. destruct (decide (k = k')) as [->|Hne]; [by rewrite lookup_insert_eq|].
    rewrite lookup_insert_ne by done. apply H2. set_solver.
Qed.

Lemma index_names_snoc {N} (name : N → string) l x :
  index_names name (l ++ [x]) = <[name x := length l]> (index_names name l).
Proof. unfold index_names. rewrite imap_app, fold_left_app. simpl. by rewrite Nat.add_0_r. Qed.

Lemma index_names_ok {N} (name : N → string) l : index_ok (index_names name l) (map name l).
Proof.
  induction l as [|x l IH] using rev_ind.
  - split; [|by intros ? ?%elem_of_nil]. intros k i. unfold index_names; simpl. by rewrite lookup_empty.
  - rewrite index_names_snoc, map_app, <-(length_map name l). by apply index_ok_snoc.
Qed.

Record builder_ok (b : GraphBuilder) : Prop := {
  bo_graph : graph_ok (gb_graph b);
  bo_fixtures : index_ok (fixture_by_name b) (names (gb_graph b) NodeKind.Fixture);
  bo_tests : index_ok (test_by_node_id b) (names (gb_graph b) NodeKind.Test);
  bo_marks : index_ok (mark_by_name b) (names (gb_graph b) NodeKind.Mark);
  bo_declarations : index_ok (declaration_by_path b) (names (gb_graph b) NodeKind.Declaration);
  bo_plugins : index_ok (plugin_by_name b) (names (gb_graph b) NodeKind.Plugin);
  bo_pending i ns : test_mark_names b !! i = Some ns → i < length (g_tests (gb_graph b))
}.

(** No two nodes of a kind have the same name. *)
Definition unique_names (g : InspectGraph) : Prop := ∀ k, NoDup (names g k).

(** A step of the builder keeps it well formed, every handle in place and the
    names unique. *)
Definition builder_step (b b' : GraphBuilder) : Prop :=
  builder_ok b' ∧ extends (gb_graph b) (gb_graph b')
  ∧ (unique_names (gb_graph b) → unique_names (gb_graph b')).

Lemma builder_step_refl b : builder_ok b → builder_step b b.
Proof. by split. Qed.

Lemma builder_step_trans a b c : builder_step a b → builder_step b c → builder_step a c.
Proof. intros (? & H1 & ?) (? & H2 & ?). split_and!; [done|by etransitivity|by auto]. Qed.

Lemma fold_builder_step {A} (f : GraphBuilder → A → GraphBuilder) l b :
  (∀ b x, builder_ok b → builder_step b (f b x)) → builder_ok b → builder_step b (fold_left f l b).
Proof.
  intros Hf. revert b. induction l as [|x l IH]; intros b Hb; simpl; [by apply builder_step_refl|].
  eapply builder_step_trans; [by apply Hf|]. apply IH. by apply Hf.
Qed.

Lemma new_builder_ok : builder_ok new_builder.
Proof.
  assert (He : index_ok ∅ []).
  { split; [|by intros ? ?%elem_of_nil]. intros k i. by rewrite lookup_empty. }
  split; simpl; try done. apply graph_ok_empty.
Qed.

Lemma from_graph_ok g : graph_ok g → builder_ok (from_graph g).
Proof.
  intros Hg. split; simpl; try apply index_names_ok; [done|]. intros i ns. by rewrite lookup_empty.
Qed.

(** *** A new node has no edges *)

Lemma edges_at_snoc_nil {N E} (sel : N → list E) l x k :
  sel x = [] → edges_at sel (l ++ [x]) k = edges_at sel l k.
Proof.
  intros Hx. rewrite edges_at_snoc. destruct (decide (k = length l)) as [->|]; [|done].
  unfold edges_at. by rewrite lookup_ge_None_2 by lia.
Qed.

Lemma lookup_snoc_bind {N E} (sel : N → option E) l x k :
  sel x = None → (l ++ [x]) !! k ≫= sel = l !! k ≫= sel.
Proof.
  intros Hx. destruct (decide (k < length l)); [by rewrite lookup_app_l|].
  rewrite (lookup_ge_None_2 l) by lia. simpl. rewrite lookup_app_r by lia.
  destruct (k - length l) as [|[]]; simpl; done.
Qed.

Ltac unfold_edges :=
  unfold deps, consumers, marks_of, used_by, declares, provides, variants, declaration, plugin.

Ltac new_node :=
  apply graph_ok_ext; unfold_edges; simpl; intros; rewrite ?length_app;
  rewrite ?edges_at_snoc_nil by done; try done; try (by apply lookup_snoc_bind); simpl; lia.

Lemma graph_ok_new_test g t :
  tn_variants t = [] → tn_fixture_deps t = [] → tn_marks t = [] →
  graph_ok g → graph_ok (with_tests g (g_tests g ++ [t])).
Proof. intros ???. new_node. Qed.
Lemma graph_ok_new_fixture g f :
  fx_consumers f = [] → fx_declaration_idx f = None → fx_plugin_idx f = None →
  graph_ok g → graph_ok (with_fixtures g (g_fixtures g ++ [f])).
Proof. intros ???. new_node. Qed.
Lemma graph_ok_new_mark g m :
  mn_used_by m = [] → graph_ok g → graph_ok (with_marks g (g_marks g ++ [m])).
Proof. intros ?. new_node. Qed.
Lemma graph_ok_new_declaration g d :
  dn_fixtures d = [] → graph_ok g → graph_ok (with_declarations g (g_declarations g ++ [d])).
Proof. intros ?. new_node. Qed.
Lemma graph_ok_new_plugin g p :
  pn_fixtures p = [] → graph_ok g → graph_ok (with_plugins g (g_plugins g ++ [p])).
Proof. intros ?. new_node. Qed.

Create HintDb builder.
#[export] Hint Resolve graph_ok_new_test graph_ok_new_fixture graph_ok_new_mark graph_ok_new_declaration
  graph_ok_new_plugin bo_graph bo_fixtures bo_tests bo_marks bo_declarations bo_plugins bo_pending : builder.
#[export] Hint Resolve builder_step_refl : builder.

(** *** Adding nodes *)

Lemma index_ok_new m ns k : index_ok m ns → m !! k = None → NoDup ns → NoDup (ns ++ [k]).
Proof.
  intros [_ H] Hk Hnd. apply NoDup_app; split_and!; [done| |apply NoDup_singleton].
  intros x Hx ->%list_elem_of_singleton. apply H in Hx as [? ?]. congruence.
Qed.

Ltac extends_snoc :=
  intros []; simpl; rewrite ?map_app; first [reflexivity|by apply prefix_app_r].

Ltac builder_push :=
  split; [split; simpl; rewrite ?map_app, ?length_app; eauto with builder;
          rewrite <-?(length_map _ (_ _)); try (by apply index_ok_snoc; eauto with builder)
         |split; [extends_snoc|
           let Hu := fresh in let k := fresh in
           intros Hu k; pose proof (Hu k); destruct k; simpl in *; rewrite ?map_app; try done;
           eapply index_ok_new; [|eassumption|done]; eauto with builder]].

Lemma push_mark_step b name :
  builder_ok b → mark_by_name b !! name = None → builder_step b (push_mark b name).
Proof.
  intros Hb Hname. builder_push.
  rewrite <-(length_map mn_name). apply index_ok_snoc, (bo_marks _ Hb).
Qed.

Lemma add_mark_entries_step b es : builder_ok b → builder_step b (add_mark_entries b es).
Proof.
  apply fold_builder_step. intros b' e Hb. unfold add_mark_entry.
  case_match; [by apply builder_step_refl|by apply push_mark_step].
Qed.

Lemma add_fixture_entries_step b es : builder_ok b → builder_step b (add_fixture_entries b es).
Proof.
  apply fold_builder_step. intros b' e Hb. unfold add_fixture_entry.
  case_match; [by apply builder_step_refl|]. builder_push.
  rewrite <-(length_map fx_name). apply index_ok_snoc, (bo_fixtures _ Hb).
Qed.

Lemma add_plugin_entries_step b es : builder_ok b → builder_step b (add_plugin_entries b es).
Proof.
  apply fold_builder_step. intros b' e Hb. unfold add_plugin_entry.
  case_match; [by apply builder_step_refl|]. builder_push.
  rewrite <-(length_map pn_name). apply index_ok_snoc, (bo_plugins _ Hb).
Qed.

Lemma add_test_entries_step b es : builder_ok b → builder_step b (add_test_entries b es).
Proof.
  apply fold_builder_step. intros b' e Hb. unfold add_test_entry.
  case_match; [by apply builder_step_refl|]. builder_push.
  - rewrite <-(length_map tn_node_id). apply index_ok_snoc, (bo_tests _ Hb).
  - intros i ns. case_match; [intros H1%(bo_pending _ Hb); simpl; lia|].
    intros [[<- _]|[_ H1%(bo_pending _ Hb)]]%lookup_insert_Some; simpl; lia.
Qed.

Lemma graph_ok_autouse g m : graph_ok g → graph_ok (with_autouse g m).
Proof. by apply graph_ok_ext. Qed.

Lemma add_autouse_entries_step b es root : builder_ok b → builder_step b (add_autouse_entries b es root).
Proof.
  apply fold_builder_step. intros b' e Hb. unfold add_autouse_entry.
  case_match; [|by apply builder_step_refl].
  split_and!; [split; simpl; eauto using graph_ok_autouse with builder|by intros []|].
  intros Hu k. pose proof (Hu k). by destruct k.
Qed.

(** *** Wiring steps *)

Lemma if_with_tests (fresh : bool) g u :
  (if fresh then with_tests g <$> u else Some g)
  = with_tests g <$> (if fresh then u else Some (g_tests g)).
Proof. by destruct fresh, g. Qed.
Lemma if_with_fixtures (fresh : bool) g u :
  (if fresh then with_fixtures g <$> u else Some g)
  = with_fixtures g <$> (if fresh then u else Some (g_fixtures g)).
Proof. by destruct fresh, g. Qed.
Lemma if_with_marks (fresh : bool) g u :
  (if fresh then with_marks g <$> u else Some g)
  = with_marks g <$> (if fresh then u else Some (g_marks g)).
Proof. by destruct fresh, g. Qed.
Lemma if_with_declarations (fresh : bool) g u :
  (if fresh then with_declarations g <$> u else Some g)
  = with_declarations g <$> (if fresh then u else Some (g_declarations g)).
Proof. by destruct fresh, g. Qed.
Lemma if_with_plugins (fresh : bool) g u :
  (if fresh then with_plugins g <$> u else Some g)
  = with_plugins g <$> (if fresh then u else Some (g_plugins g)).
Proof. by destruct fresh, g. Qed.

(** The same nodes, wired differently. *)
Definition same_names (g g' : InspectGraph) : Prop := ∀ k, names g' k = names g k.

Lemma same_names_length g g' k : same_names g g' → node_count g' k = node_count g k.
Proof. intros H. by rewrite <-!length_names, H. Qed.

Lemma rewired_step b g' :
  builder_ok b → graph_ok g' → same_names (gb_graph b) g' → builder_step b (set_graph b g').
Proof.
  intros Hb Hg Hn. split_and!; [|intros k; simpl; by rewrite Hn|intros Hu k; simpl; rewrite Hn; apply Hu].
  split; cbn -[names]; rewrite ?Hn; eauto with builder.
  intros i ns Hi%(bo_pending _ Hb). by rewrite (same_names_length _ _ NodeKind.Test Hn : length (g_tests g') = _).
Qed.

Lemma edges_at_sel {N E} (sel : N → list E) l l' i :
  map sel l' = map sel l → edges_at sel l' i = edges_at sel l i.
Proof.
  intros H. apply (f_equal (.!! i)) in H. rewrite !list_lookup_fmap in H. unfold edges_at. by rewrite H.
Qed.

Lemma bind_sel {N E} (sel : N → option E) l l' i :
  map sel l' = map sel l → l' !! i ≫= sel = l !! i ≫= sel.
Proof.
  intros H. apply (f_equal (.!! i)) in H. rewrite !list_lookup_fmap in H.
  destruct (l !! i), (l' !! i); simplify_eq/=; done.
Qed.

Lemma map_length_eq {A B} (q : A → B) l l' : map q l' = map q l → length l' = length l.
Proof. intros H%(f_equal length). by rewrite !length_map in H. Qed.

(** Rewrites what a pushed edge leaves alone, then closes the fields of
    [graph_ok] that the step does not touch. *)
Ltac frames :=
  repeat match goal with
  | H : ∀ B (q : _ → B), _ → map q ?l' = map q ?l |- _ =>
      first [rewrite (edges_at_sel _ l l') by (by apply H)
            |rewrite (bind_sel _ l l') by (by apply H)
            |rewrite (map_length_eq (λ _, tt) l l') by (by apply H)]
  end.

Ltac rewired Hg :=
  split; unfold_edges; simpl; intros *; frames;
  try first
    [exact (ok_deps _ Hg _ _)|exact (ok_consumers _ Hg _ _)|exact (ok_marks _ Hg _ _)
    |exact (ok_declaration _ Hg _ _)|exact (ok_declares _ Hg _ _)|exact (ok_plugin _ Hg _ _)
    |exact (ok_provides _ Hg _ _)|exact (ok_variants _ Hg _ _)|exact (nodup_deps _ Hg _)
    |exact (nodup_consumers _ Hg _)|exact (nodup_marks _ Hg _)|exact (nodup_used_by _ Hg _)
    |exact (nodup_declares _ Hg _)|exact (nodup_provides _ Hg _)].

Ltac same_names_tac :=
  intros []; simpl;
  try first [done|match goal with H : ∀ B (q : _ → B), _ → map q _ = _ |- _ => by apply H end].

(** Test and fixture. *)
Lemma wire_dep_ok g s1 s2 i j :
  graph_ok g → i < length (g_tests g) → j < length (g_fixtures g) →
  seen_ok s1 (deps g) → seen_ok s2 (consumers g) →
  ∃ g' s1' s2', wire_dep (g, s1, s2) i j = Some (g', s1', s2')
    ∧ graph_ok g' ∧ same_names g g' ∧ seen_ok s1' (deps g') ∧ seen_ok s2' (consumers g').
Proof.
  intros Hg Hi Hj Hs1 Hs2. unfold wire_dep.
  destruct (Seen.note s1 i j) as [s1' f1] eqn:E1.
  destruct (push_edge_ok tn_fixture_deps push_dep (λ _ _, eq_refl) _ _ _ _ _ _ E1 Hs1 Hi)
    as (lt & Ht & Hs1' & Hdeps & Hnd1 & Hq1).
  rewrite if_with_tests, Ht. simpl.
  destruct (Seen.note s2 j _) as [s2' f2] eqn:E2.
  destruct (push_edge_ok fx_consumers push_consumer (λ _ _, eq_refl) _ _ _ _ _ _ E2 Hs2 Hj)
    as (lf & Hf & Hs2' & Hcons & Hnd2 & Hq2).
  rewrite (if_with_fixtures f2 (with_tests g lt)). change (g_fixtures (with_tests g lt)) with (g_fixtures g).
  rewrite Hf. simpl.
  exists (with_fixtures (with_tests g lt) lf), s1', s2'. split_and!; try done; [|same_names_tac].
  rewired Hg.
  - rewrite Hdeps, Hcons, (ok_deps _ Hg _ _ : _ ∈ edges_at _ _ _ ↔ _ ∈ edges_at _ _ _). naive_solver.
  - intros [H|[_ ->]]%Hcons; [|done]. by eapply (ok_consumers _ Hg).
  - apply Hnd1, (nodup_deps _ Hg).
  - apply Hnd2, (nodup_consumers _ Hg).
Qed.

Definition dep_inv (g0 : InspectGraph) (st : dep_state) : Prop :=
  graph_ok st.1.1 ∧ same_names g0 st.1.1 ∧ seen_ok st.1.2 (deps st.1.1) ∧ seen_ok st.2 (consumers st.1.1).

Lemma add_fixture_dep_entries_step b es root :
  builder_ok b → ∃ b', add_fixture_dep_entries b es root = Some b' ∧ builder_step b b'.
Proof.
  intros Hb. unfold add_fixture_dep_entries.
  edestruct (foldM_inv (dep_inv (gb_graph b)) (wire_dep_entry b root) es) as (st & -> & Hg & Hn & _).
  { split_and!; simpl; [by apply bo_graph|done|apply seed_ok..]. }
  2:{ simpl. eexists. split; [done|]. by apply rewired_step. }
  intros st e _ Hst. unfold wire_dep_entry. case_match eqn:Hi; [|eauto].
  apply foldM_inv; [done|]. clear st Hst. intros [[g s1] s2] name _ (Hg & Hn & H1 & H2); simpl in *.
  unfold wire_dep_name. case_match; [eexists; by split_and!|].
  case_match eqn:Hj; [|eexists; by split_and!].
  edestruct (wire_dep_ok g s1 s2) as (g' & s1' & s2' & -> & Hg' & Hn' & H1' & H2'); [done|..|done|done|].
  - apply (index_ok_lt _ _ _ _ (bo_tests _ Hb)) in Hi. by rewrite <-Hn, length_names in Hi.
  - apply (index_ok_lt _ _ _ _ (bo_fixtures _ Hb)) in Hj. by rewrite <-Hn, length_names in Hj.
  - eexists. split_and!; [done|split_and!; simpl; try done]. intros k. by rewrite Hn'.
Qed.

(** Test and mark. *)
Lemma ensure_mark_ok b name b' m :
  ensure_mark b name = (b', m) → builder_ok b →
  builder_step b b' ∧ m < length (g_marks (gb_graph b')) ∧ g_tests (gb_graph b') = g_tests (gb_graph b)
  ∧ ∀ k, used_by (gb_graph b') k = used_by (gb_graph b) k.
Proof.
  unfold ensure_mark. case_match eqn:Hm; intros [= <- <-] Hb.
  - split_and!; [by apply builder_step_refl| |done|done].
    apply (index_ok_lt _ _ _ _ (bo_marks _ Hb)) in Hm. by rewrite length_names in Hm.
  - split_and!; [by apply push_mark_step|simpl; rewrite length_app; simpl; lia|done|].
    intros k. unfold used_by; simpl. by apply edges_at_snoc_nil.
Qed.

Definition mark_inv (b0 : GraphBuilder) (st : mark_state) : Prop :=
  builder_step b0 st.1.1 ∧ seen_ok st.1.2 (marks_of (gb_graph st.1.1))
  ∧ seen_ok st.2 (used_by (gb_graph st.1.1)).

Lemma wire_mark_ok b0 st i name :
  i < length (g_tests (gb_graph b0)) → mark_inv b0 st →
  ∃ st', wire_mark i st name = Some st' ∧ mark_inv b0 st'.
Proof.
  destruct st as [[b s1] s2]. intros Hi0 (Hst & Hs1 & Hs2); simpl in *. pose proof (proj1 Hst) as Hb. unfold wire_mark.
  assert (Hi : i < length (g_tests (gb_graph b))).
  { eapply (ref_ok_extends _ _ (mk_ref NodeKind.Test i)); [apply Hst|done]. }
  clear Hi0. destruct (ensure_mark b name) as [b1 m] eqn:Em.
  destruct (ensure_mark_ok _ _ _ _ Em Hb) as (Hst1 & Hm & Et & Eu). pose proof (proj1 Hst1) as Hb1. rewrite <-Et in Hi.
  assert (Hs1b : seen_ok s1 (marks_of (gb_graph b1))) by (unfold marks_of; by rewrite Et).
  assert (Hs2b : seen_ok s2 (used_by (gb_graph b1))) by (by eapply seen_ok_ext).
  pose proof (bo_graph _ Hb1) as Hg. clear Em Et Eu Hs1 Hs2.
  destruct (Seen.note s1 i m) as [s1' f1] eqn:E1.
  destruct (push_edge_ok tn_marks push_test_mark (λ _ _, eq_refl) _ _ _ _ _ _ E1 Hs1b Hi)
    as (lt & Ht & Hs1' & Hmk & Hnd1 & Hq1).
  rewrite if_with_tests, Ht. simpl.
  destruct (Seen.note s2 m i) as [s2' f2] eqn:E2.
  destruct (push_edge_ok mn_used_by push_user (λ _ _, eq_refl) _ _ _ _ _ _ E2 Hs2b Hm)
    as (lm & Hf & Hs2' & Hus & Hnd2 & Hq2).
  rewrite (if_with_marks f2 (with_tests _ lt)). change (g_marks (with_tests ?g lt)) with (g_marks g).
  rewrite Hf. simpl. eexists. split; [done|]. split_and!; simpl; [|done..].
  apply (builder_step_trans _ b); [done|]. apply (builder_step_trans _ b1); [done|].
  apply rewired_step; [done| |same_names_tac]. rewired Hg.
  - rewrite Hmk, Hus, (ok_marks _ Hg _ _ : _ ∈ edges_at _ _ _ ↔ _ ∈ edges_at _ _ _). naive_solver.
  - apply Hnd1, (nodup_marks _ Hg).
  - apply Hnd2, (nodup_used_by _ Hg).
Qed.

Lemma resolve_test_to_mark_edges_step iter_order b :
  (∀ l, iter_order l ≡ₚ l) → builder_ok b →
  ∃ b', resolve_test_to_mark_edges iter_order b = Some b' ∧ builder_step b b'.
Proof.
  intros Hperm Hb. unfold resolve_test_to_mark_edges.
  set (b0 := mk_builder (gb_graph b) _ _ _ _ _ ∅).
  assert (Hb0 : builder_ok b0).
  { split; simpl; eauto with builder. intros i ns. by rewrite lookup_empty. }
  edestruct (foldM_inv (mark_inv b0)
    (λ st p, foldM (wire_mark p.1) p.2 st) (iter_order (map_to_list (test_mark_names b))))
    as ([[b' s1] s2] & -> & Hb' & _).
  { split_and!; simpl; [by apply builder_step_refl|apply seed_ok..]. }
  2:{ simpl. eexists. by split. }
  intros st [i ns] Hin Hst. rewrite Hperm in Hin. apply elem_of_map_to_list in Hin.
  apply (bo_pending _ Hb) in Hin. apply foldM_inv; [done|].
  intros st' name _ Hst'. by apply wire_mark_ok.
Qed.

(** Fixture and declaration, fixture and plugin: the fixture's own pointer is
    overwritten, the list at the other end is pushed to. *)
Lemma set_field_ok {N B} (sel : N → option B) (set : N → N) l i v :
  (∀ n, sel (set n) = Some v) → i < length l →
  ∃ l', update i set l = Some l'
    ∧ (∀ k, l' !! k ≫= sel = if decide (k = i) then Some v else l !! k ≫= sel)
    ∧ (∀ C (q : N → C), (∀ n, q (set n) = q n) → map q l' = map q l).
Proof.
  intros Hset Hi. apply lookup_lt_is_Some in Hi as Hn. destruct Hn as [n Hn].
  rewrite (update_Some _ _ _ _ Hn). eexists. split_and!; [done|..].
  - intros k. destruct (decide (k = i)) as [->|Hk].
    + rewrite list_lookup_insert_eq by done. simpl. by rewrite Hset.
    + by rewrite list_lookup_insert_ne.
  - intros C q Hq. rewrite list_fmap_insert, Hq. apply list_insert_id. by rewrite list_lookup_fmap, Hn.
Qed.

Lemma ensure_declaration_ok b p a h b' d :
  ensure_declaration b p a h = (b', d) → builder_ok b →
  builder_step b b' ∧ d < length (g_declarations (gb_graph b'))
  ∧ g_fixtures (gb_graph b') = g_fixtures (gb_graph b)
  ∧ ∀ k, declares (gb_graph b') k = declares (gb_graph b) k.
Proof.
  unfold ensure_declaration. case_match eqn:Hd; intros [= <- <-] Hb.
  - split_and!; [by apply builder_step_refl| |done|done].
    apply (index_ok_lt _ _ _ _ (bo_declarations _ Hb)) in Hd. by rewrite length_names in Hd.
  - split_and!; [|simpl; rewrite length_app; simpl; lia|done|].
    + builder_push. rewrite <-(length_map dn_path). apply index_ok_snoc, (bo_declarations _ Hb).
    + intros k. unfold declares; simpl. by apply edges_at_snoc_nil.
Qed.

(** The state of these two loops: a well-formed builder with [n] fixtures and
    an accurate seen-set of the other end. *)
Definition fixture_loop_inv (ends : InspectGraph → nat → list nat) (b0 : GraphBuilder)
    (st : GraphBuilder * seen_map nat) : Prop :=
  builder_step b0 st.1 ∧ length (g_fixtures (gb_graph st.1)) = length (g_fixtures (gb_graph b0))
  ∧ seen_ok st.2 (ends (gb_graph st.1)).

Lemma wire_declaration_ok b0 st j :
  j < length (g_fixtures (gb_graph b0)) → fixture_loop_inv declares b0 st →
  ∃ st', wire_declaration st j = Some st' ∧ fixture_loop_inv declares b0 st'.
Proof.
  destruct st as [b s]. intros Hj (Hb & Hl & Hs); cbn [fst snd] in *. rewrite <-Hl in Hj.
  unfold wire_declaration. apply lookup_lt_is_Some in Hj as Hf. destruct Hf as [f Hf]. rewrite Hf. simpl.
  case_match; [by eexists|].
  destruct (ensure_declaration b _ _ _) as [b1 d] eqn:Ed.
  destruct (ensure_declaration_ok _ _ _ _ _ _ Ed (proj1 Hb)) as (Hb1 & Hd & Ef & Eu). rewrite <-Ef in Hj.
  assert (Hs1 : seen_ok s (declares (gb_graph b1))) by (by eapply seen_ok_ext).
  pose proof (bo_graph _ (proj1 Hb1)) as Hg.
  destruct (set_field_ok fx_declaration_idx (set_declaration d) _ j d (λ _, eq_refl) Hj) as (lf & -> & Hptr & Hq1).
  simpl. destruct (Seen.note s d j) as [s' fr] eqn:E1.
  destruct (push_edge_ok dn_fixtures push_declared (λ _ _, eq_refl) _ _ _ _ _ _ E1 Hs1 Hd)
    as (ld & Hld & Hs1' & Hdc & Hnd & Hq2).
  rewrite (if_with_declarations fr (with_fixtures _ lf)).
  change (g_declarations (with_fixtures ?g lf)) with (g_declarations g). rewrite Hld. simpl.
  eexists. split; [done|]. split_and!; simpl; [|by frames; rewrite Ef|done].
  apply (builder_step_trans _ b); [done|]. apply (builder_step_trans _ b1); [done|].
  apply rewired_step; [apply Hb1| |same_names_tac]. rewired Hg.
  - rewrite Hptr, Hdc. pose proof (ok_declaration _ Hg j0 d0). unfold declaration, declares in *. case_decide; naive_solver.
  - rewrite Hdc. pose proof (ok_declares _ Hg d0 j0). unfold declares in *. naive_solver.
  - apply Hnd, (nodup_declares _ Hg).
Qed.

Lemma resolve_fixture_to_declaration_edges_step b :
  builder_ok b → ∃ b', resolve_fixture_to_declaration_edges b = Some b' ∧ builder_step b b'.
Proof.
  intros Hb. unfold resolve_fixture_to_declaration_edges.
  edestruct (foldM_inv (fixture_loop_inv declares b) wire_declaration) as ([b' s] & -> & Hb' & _); [..|by simpl; eauto].
  - split_and!; simpl; [by apply builder_step_refl|done|apply seed_ok].
  - intros st j Hj%elem_of_seq. apply wire_declaration_ok. simpl in Hj. lia.
Qed.

Lemma plugin_of_ok b source p :
  builder_ok b → plugin_of b source = Some p → p < length (g_plugins (gb_graph b)).
Proof.
  intros Hb. unfold plugin_of. intros (rest & _ & (name & _ & Hp)%bind_Some)%bind_Some.
  apply (index_ok_lt _ _ _ _ (bo_plugins _ Hb)) in Hp. by rewrite length_names in Hp.
Qed.

Lemma wire_plugin_ok b0 st j :
  j < length (g_fixtures (gb_graph b0)) → fixture_loop_inv provides b0 st →
  ∃ st', wire_plugin st j = Some st' ∧ fixture_loop_inv provides b0 st'.
Proof.
  destruct st as [b s]. intros Hj (Hb & Hl & Hs); cbn [fst snd] in *. rewrite <-Hl in Hj.
  unfold wire_plugin. apply lookup_lt_is_Some in Hj as Hf. destruct Hf as [f Hf]. rewrite Hf. simpl.
  case_match eqn:Hp; [|by eexists]. pose proof (bo_graph _ (proj1 Hb)) as Hg.
  apply (plugin_of_ok _ _ _ (proj1 Hb)) in Hp.
  destruct (set_field_ok fx_plugin_idx (set_plugin n) _ j n (λ _, eq_refl) Hj) as (lf & -> & Hptr & Hq1).
  simpl. destruct (Seen.note s n j) as [s' fr] eqn:E1.
  destruct (push_edge_ok pn_fixtures push_provided (λ _ _, eq_refl) _ _ _ _ _ _ E1 Hs Hp)
    as (lp & Hlp & Hs1' & Hdc & Hnd & Hq2).
  rewrite (if_with_plugins fr (with_fixtures _ lf)).
  change (g_plugins (with_fixtures ?g lf)) with (g_plugins g). rewrite Hlp. simpl.
  eexists. split; [done|]. split_and!; simpl; [|by frames|done].
  apply (builder_step_trans _ b); [done|].
  apply rewired_step; [apply Hb| |same_names_tac]. rewired Hg.
  - rewrite Hptr, Hdc. pose proof (ok_plugin _ Hg j0 p). unfold plugin, provides in *. case_decide; naive_solver.
  - rewrite Hdc. pose proof (ok_provides _ Hg p j0). unfold provides in *. naive_solver.
  - apply Hnd, (nodup_provides _ Hg).
Qed.

Lemma resolve_fixture_to_plugin_edges_step b :
  builder_ok b → ∃ b', resolve_fixture_to_plugin_edges b = Some b' ∧ builder_step b b'.
Proof.
  intros Hb. unfold resolve_fixture_to_plugin_edges.
  edestruct (foldM_inv (fixture_loop_inv provides b) wire_plugin) as ([b' s] & -> & Hb' & _); [..|by simpl; eauto].
  - split_and!; simpl; [by apply builder_step_refl|done|apply seed_ok].
  - intros st j Hj%elem_of_seq. apply wire_plugin_ok. simpl in Hj. lia.
Qed.

(** *** Parametrised tests *)

Definition param_base (t : TestNode) : option string := fst <$> param_of (tn_node_id t).

(** The positions of the tests of a base name. *)
Definition group (l : list TestNode) (base : string) : list nat :=
  List.filter (λ i, bool_decide (l !! i ≫= param_base = Some base)) (seq 0 (length l)).

(** What the grouping pass should make of the test at position [i]. *)
Definition with_siblings (l : list TestNode) (i : nat) (t : TestNode) : TestNode :=
  match param_of (tn_node_id t) with
  | None => t
  | Some (base, param_id) =>
      let t1 := tn_set_param t (Some param_id) in
      let siblings := group l base in
      if 1 <? length siblings
      then tn_set_variants t1 (length siblings) (List.filter (λ j, negb (j =? i)) siblings)
      else t1
  end.

Lemma elem_of_group l base i :
  i ∈ group l base ↔ ∃ t, l !! i = Some t ∧ param_base t = Some base.
Proof.
  unfold group. rewrite list_elem_of_In, filter_In, <-list_elem_of_In, elem_of_seq, bool_decide_eq_true.
  rewrite bind_Some. split; [by intros [_ ?]|]. intros H. split; [|done].
  destruct H as (t & Ht & _). apply lookup_lt_Some in Ht. lia.
Qed.

Lemma filter_seq_ext (p q : nat → bool) k n :
  (∀ i, k ≤ i < k + n → p i = q i) → List.filter p (seq k n) = List.filter q (seq k n).
Proof. intros H. apply filter_ext_in. intros i Hi%in_seq. by apply H. Qed.

Lemma group_snoc l t base :
  group (l ++ [t]) base
  = group l base ++ (if bool_decide (param_base t = Some base) then [length l] else []).
Proof.
  unfold group. rewrite length_app, seq_app, List.filter_app. f_equal; simpl.
  - apply filter_seq_ext. intros i Hi. by rewrite lookup_app_l by lia.
  - rewrite lookup_app_r, Nat.sub_diag by lia. simpl. by destruct (bool_decide _).
Qed.

Lemma param_groups_snoc l t :
  param_groups (l ++ [t]) = add_to_group (param_groups l) (length l, t).
Proof. unfold param_groups. rewrite imap_app, fold_left_app. simpl. by rewrite Nat.add_0_r. Qed.

Lemma param_groups_lookup l base :
  param_groups l !! base = if nil_b (group l base) then None else Some (group l base).
Proof.
  induction l as [|t l IH] using rev_ind; [done|].
  rewrite param_groups_snoc, group_snoc. unfold add_to_group, param_base; cbn [fst snd].
  destruct (param_of (tn_node_id t)) as [[b' pid]|]; simpl.
  - destruct (decide (b' = base)) as [->|Hne].
    + rewrite lookup_insert_eq, IH, bool_decide_true by done. by destruct (group l base).
    + rewrite lookup_insert_ne, bool_decide_false, app_nil_r by naive_solver. done.
  - by rewrite app_nil_r.
Qed.

(** [v[i] = f(i, v[i])] at each index of a list, for [f] idempotent. *)
Definition at_indices {A} (f : nat → A → A) (js : list nat) (i : nat) (x : A) : A :=
  if bool_decide (i ∈ js) then f i x else x.

Lemma foldM_update {A} (f : nat → A → A) js (l : list A) :
  (∀ i x, f i (f i x) = f i x) → (∀ j, j ∈ js → j < length l) →
  foldM (λ l j, update j (f j) l) js l = Some (imap (at_indices f js) l).
Proof.
  intros Hf. revert l. induction js as [|j js IH]; intros l Hlt; simpl.
  - f_equal. apply list_eq. intros i. rewrite list_lookup_imap. by destruct (l !! i).
  - assert (Hj : j < length l) by (apply Hlt; left). apply lookup_lt_is_Some in Hj as Hx. destruct Hx as [x Hx].
    rewrite (update_Some _ _ _ _ Hx). simpl. rewrite IH.
    2:{ intros j' Hj'. rewrite length_insert. apply Hlt. by right. }
    f_equal. apply list_eq. intros i. rewrite !list_lookup_imap. unfold at_indices.
    destruct (decide (i = j)) as [->|Hne].
    + rewrite list_lookup_insert_eq, Hx by done. simpl. rewrite (bool_decide_true (j ∈ j :: js)) by left.
      case_bool_decide; by rewrite ?Hf.
    + rewrite list_lookup_insert_ne by done. destruct (l !! i); simpl; [|done].
      by rewrite (bool_decide_ext (i ∈ js) (i ∈ j :: js)) by set_solver.
Qed.

Definition set_variants (indices : list nat) (idx : nat) (t : TestNode) : TestNode :=
  tn_set_variants t (length indices) (List.filter (λ i, negb (i =? idx)) indices).
Definition apply_group (indices : list nat) (i : nat) (t : TestNode) : TestNode :=
  if 1 <? length indices then at_indices (set_variants indices) indices i t else t.

Lemma set_group_spec l js :
  (∀ j, j ∈ js → j < length l) → set_group l js = Some (imap (apply_group js) l).
Proof.
  intros H. unfold set_group, apply_group. destruct (1 <? length js).
  - by apply (foldM_update (set_variants js)).
  - f_equal. apply list_eq. intros i. rewrite list_lookup_imap. by destruct (l !! i).
Qed.

Lemma foldM_set_group gs l :
  (∀ js j, js ∈ gs → j ∈ js → j < length l) →
  foldM set_group gs l = Some (imap (λ i t, fold_left (λ t js, apply_group js i t) gs t) l).
Proof.
  revert l. induction gs as [|js gs IH]; intros l H; simpl.
  - f_equal. apply list_eq. intros i. rewrite list_lookup_imap. by destruct (l !! i).
  - rewrite set_group_spec by (intros j; apply H; left). simpl. rewrite IH.
    + f_equal. apply list_eq. intros i. rewrite !list_lookup_imap. by destruct (l !! i).
    + intros js' j Hin. rewrite length_imap. apply H. by right.
Qed.

Lemma apply_group_other js i t : i ∉ js → apply_group js i t = t.
Proof. intros H. unfold apply_group, at_indices. rewrite bool_decide_false by done. by case_match. Qed.

Lemma apply_group_twice js i t : apply_group js i (apply_group js i t) = apply_group js i t.
Proof. unfold apply_group, at_indices. by destruct (1 <? length js), (bool_decide (i ∈ js)). Qed.

Lemma fold_apply_group gs js i t :
  (∀ js', js' ∈ gs → i ∈ js' → js' = js) →
  fold_left (λ t js, apply_group js i t) gs t = if bool_decide (js ∈ gs) then apply_group js i t else t.
Proof.
  revert t. induction gs as [|js' gs IH]; intros t H; simpl; [done|].
  rewrite IH by (intros js'' Hin; apply H; by right).
  destruct (decide (i ∈ js')) as [Hi|Hi].
  - rewrite (H js') by (first [left|done]). rewrite (bool_decide_true (js ∈ js :: gs)) by left.
    case_bool_decide; by rewrite ?apply_group_twice.
  - rewrite (apply_group_other js') by done. destruct (decide (js = js')) as [->|Hne].
    + rewrite apply_group_other by done. by case_match; case_match.
    + by rewrite (bool_decide_ext (js ∈ gs) (js ∈ js' :: gs)) by set_solver.
Qed.

Lemma elem_of_groups l js :
  js ∈ map snd (map_to_list (param_groups l)) ↔ js ≠ [] ∧ ∃ base, js = group l base.
Proof.
  rewrite map_elem. split.
  - intros ([base js'] & Hin & <-). apply elem_of_map_to_list in Hin. rewrite param_groups_lookup in Hin.
    destruct (group l base) eqn:E; simplify_eq/=. split; [done|]. by exists base.
  - intros (Hne & base & ->). exists (base, group l base). split; [|done]. apply elem_of_map_to_list.
    rewrite param_groups_lookup. by destruct (group l base).
Qed.

Lemma set_param_id_fields t :
  tn_node_id (set_param_id t) = tn_node_id t ∧ tn_fixture_deps (set_param_id t) = tn_fixture_deps t
  ∧ tn_marks (set_param_id t) = tn_marks t ∧ tn_variants (set_param_id t) = tn_variants t.
Proof. unfold set_param_id. by destruct (param_of (tn_node_id t)) as [[]|]. Qed.

Lemma grouped_fields l i t :
  tn_node_id (with_siblings l i t) = tn_node_id t ∧ tn_fixture_deps (with_siblings l i t) = tn_fixture_deps t
  ∧ tn_marks (with_siblings l i t) = tn_marks t
  ∧ ∀ j, j ∈ tn_variants (with_siblings l i t) → j ∈ tn_variants t ∨ j < length l.
Proof.
  unfold with_siblings. destruct (param_of (tn_node_id t)) as [[base pid]|]; [|by eauto].
  destruct (1 <? length (group l base)); split_and!; try done; simpl; [|eauto].
  intros j [Hj _]%list_elem_of_In%filter_In. right.
  apply list_elem_of_In, elem_of_group in Hj as (t' & Ht & _). by eapply lookup_lt_Some.
Qed.

(** The loops of [resolve_parametrize_grouping] compute [with_siblings]. *)
Lemma grouping_spec b :
  resolve_parametrize_grouping b
  = Some (set_graph b (with_tests (gb_graph b)
                         (imap (with_siblings (g_tests (gb_graph b))) (g_tests (gb_graph b))))).
Proof.
  unfold resolve_parametrize_grouping. set (l := g_tests (gb_graph b)).
  rewrite foldM_set_group; simpl.
  2:{ intros js j (_ & base & ->)%elem_of_groups (t & Ht & _)%elem_of_group.
      rewrite length_map. by eapply lookup_lt_Some. }
  do 3 f_equal. apply list_eq. intros i. rewrite !list_lookup_imap, list_lookup_fmap.
  destruct (l !! i) as [t|] eqn:Ht; simpl; [|done]. f_equal. unfold with_siblings, set_param_id.
  destruct (param_of (tn_node_id t)) as [[base pid]|] eqn:Hp.
  - assert (Hi : i ∈ group l base).
    { apply elem_of_group. exists t. split; [done|]. unfold param_base. by rewrite Hp. }
    rewrite (fold_apply_group _ (group l base)).
    + rewrite bool_decide_true.
      2:{ apply elem_of_groups. split; [by intros E; rewrite E in Hi; apply elem_of_nil in Hi|eauto]. }
      unfold apply_group, at_indices, set_variants. rewrite bool_decide_true by done. done.
    + intros js (_ & base' & ->)%elem_of_groups (t' & Ht' & Hb)%elem_of_group. simplify_eq.
      unfold param_base in Hb. rewrite Hp in Hb. by simplify_eq/=.
  - rewrite (fold_apply_group _ []); [by case_match|].
    intros js (_ & base' & ->)%elem_of_groups (t' & Ht' & Hb)%elem_of_group. simplify_eq.
    unfold param_base in Hb. by rewrite Hp in Hb.
Qed.

Lemma grouped_graph_ok g :
  graph_ok g → graph_ok (with_tests g (imap (with_siblings (g_tests g)) (g_tests g))).
Proof.
  intros Hg. set (l := g_tests g).
  assert (H1 : ∀ i, edges_at tn_fixture_deps (imap (with_siblings l) l) i = deps g i).
  { intros i. unfold deps, edges_at. rewrite list_lookup_imap. fold l. destruct (l !! i); simpl; [|done].
    apply grouped_fields. }
  assert (H2 : ∀ i, edges_at tn_marks (imap (with_siblings l) l) i = marks_of g i).
  { intros i. unfold marks_of, edges_at. rewrite list_lookup_imap. fold l. destruct (l !! i); simpl; [|done].
    apply grouped_fields. }
  split; unfold_edges; simpl; intros *; rewrite ?H1, ?H2; try by apply Hg.
  rewrite length_imap. unfold edges_at. rewrite list_lookup_imap.
  destruct (l !! i) as [t|] eqn:Ht; simpl; [|by intros ?%elem_of_nil].
  intros [Hj|Hj]%grouped_fields; [|done]. apply (ok_variants _ Hg i). unfold variants, edges_at.
  fold l. by rewrite Ht.
Qed.

Lemma resolve_parametrize_grouping_step b :
  builder_ok b → ∃ b', resolve_parametrize_grouping b = Some b' ∧ builder_step b b'.
Proof.
  intros Hb. rewrite grouping_spec. eexists. split; [done|]. apply rewired_step; [done|..].
  - by apply grouped_graph_ok, bo_graph.
  - intros []; simpl; try done. apply list_eq. intros i. rewrite !list_lookup_fmap, list_lookup_imap.
    destruct (_ !! i); simpl; [|done]. f_equal. apply grouped_fields.
Qed.

(** ** The whole construction *)

Section Total.
Context (iter_order : list (nat * list string) → list (nat * list string)).
Context (Hperm : ∀ l, iter_order l ≡ₚ l).

Lemma resolve_edges_step b :
  builder_ok b → ∃ b', resolve_edges iter_order b = Some b' ∧ builder_step b b'.
Proof.
  intros H0. unfold resolve_edges.
  destruct (resolve_test_to_mark_edges_step iter_order b Hperm H0) as (b1 & -> & H1); simpl.
  destruct (resolve_fixture_to_declaration_edges_step b1 (proj1 H1)) as (b2 & -> & H2); simpl.
  destruct (resolve_fixture_to_plugin_edges_step b2 (proj1 H2)) as (b3 & -> & H3); simpl.
  destruct (resolve_parametrize_grouping_step b3 (proj1 H3)) as (b4 & -> & H4).
  exists b4. split; [done|]. do 3 (eapply builder_step_trans; [eassumption|]). done.
Qed.

Lemma phase1_graph_total tests marks :
  ∃ g, phase1_graph iter_order tests marks = Some g ∧ graph_ok g ∧ unique_names g.
Proof.
  unfold phase1_graph.
  pose proof (add_test_entries_step new_builder tests new_builder_ok) as H1.
  pose proof (add_mark_entries_step _ marks (proj1 H1)) as H2.
  destruct (resolve_edges_step _ (proj1 H2)) as (b & -> & H3). simpl. eexists. split; [done|].
  assert (H : builder_step new_builder b) by (do 2 (eapply builder_step_trans; [eassumption|]); done).
  split; [apply bo_graph, H|]. apply H. intros []; constructor.
Qed.

Lemma merge_graph_total g data root :
  graph_ok g →
  ∃ g', merge_graph iter_order g data root = Some g' ∧ graph_ok g'
    ∧ ∀ r, ref_ok g r → node_name g' r = shown_name root (nr_kind r) <$> node_name g r.
Proof.
  intros Hg. unfold merge_graph.
  pose proof (add_fixture_entries_step _ (p2_fixture_entries data) (from_graph_ok g Hg)) as H1.
  pose proof (add_plugin_entries_step _ (p2_plugin_entries data) (proj1 H1)) as H2.
  destruct (add_fixture_dep_entries_step _ (p2_fixture_dep_entries data) root (proj1 H2)) as (b3 & -> & H3); simpl.
  pose proof (add_autouse_entries_step _ (p2_autouse_entries data) root (proj1 H3)) as H4.
  destruct (resolve_edges_step _ (proj1 H4)) as (b5 & -> & H5); simpl.
  eexists. split; [done|]. split; [apply relativize_ok, bo_graph, H5|].
  intros r Hr. rewrite node_name_relativize. f_equal. apply node_name_extends; [|done].
  assert (H : builder_step (from_graph g) b5); [|apply H].
  do 4 (eapply builder_step_trans; [eassumption|]). done.
Qed.

(** C23: Building the inspector's graph never indexes a vector out of range,
    whatever the entries and whatever order the marks table is iterated in:
    the phase-1 build returns a graph whose every edge leads to a node that
    knows the edge's other end, no edge twice and no two nodes of a kind with
    one name; merging phase 2 into that graph, its paths made relative,
    returns a well-formed graph again, in which every handle held before
    still addresses the node it did. *)
Theorem inspector_graph_well_formed tests marks data root :
  ∃ g, phase1_graph iter_order tests marks = Some g ∧ graph_ok g ∧ unique_names g
    ∧ let g1 := relativize_paths g root in
      ∃ g', merge_graph iter_order g1 data root = Some g' ∧ graph_ok g'
        ∧ ∀ r, ref_ok g1 r → node_name g' r = shown_name root (nr_kind r) <$> node_name g1 r.
Proof.
  destruct (phase1_graph_total tests marks) as (g & H1 & H2 & H3). exists g.
  split_and!; [done..|]. by apply merge_graph_total, relativize_ok.
Qed.
End Total.

(** The parametrisation pass gives each test [base[id]] its [id], and when
    the base has several tests their number and, as its variants, exactly
    the other tests of that base; a test without brackets is untouched. *)
Theorem grouping_links_siblings b :
  ∃ b', resolve_parametrize_grouping b = Some b' ∧
  ∀ i t, g_tests (gb_graph b) !! i = Some t →
  ∃ t', g_tests (gb_graph b') !! i = Some t' ∧
    match param_of (tn_node_id t) with
    | None => t' = t
    | Some (base, param_id) =>
        tn_param_id t' = Some param_id
        ∧ (1 < length (group (g_tests (gb_graph b)) base) →
           tn_param_count t' = length (group (g_tests (gb_graph b)) base)
           ∧ ∀ j, j ∈ tn_variants t' ↔
               j ≠ i ∧ ∃ u, g_tests (gb_graph b) !! j = Some u ∧ param_base u = Some base)
    end.
Proof.
  eexists. split; [apply grouping_spec|]. intros i t Ht. simpl. rewrite list_lookup_imap, Ht. simpl.
  eexists. split; [done|]. unfold with_siblings. destruct (param_of (tn_node_id t)) as [[base pid]|]; [|done].
  destruct (Nat.ltb_spec 1 (length (group (g_tests (gb_graph b)) base))); [|by split; [|lia]].
  split; [done|]. intros _. split; [done|]. intros j. simpl.
  rewrite list_elem_of_In, filter_In, <-list_elem_of_In, elem_of_group, negb_true_iff, Nat.eqb_neq. tauto.
Qed.

(** A small suite: two cases of one test, one of them marked, and a fixture. *)
Definition entry_of (kvs : list (string * string)) : QueryEntry := {| fields := list_to_map kvs |}.
Definition sample_tests : list QueryEntry :=
  [entry_of [("name", "/r/a.py::t[1]"); ("mark", "slow")]; entry_of [("name", "/r/a.py::t[2]"); ("mark", "")]].
Definition sample_phase2 : Phase2Data :=
  mk_phase2 [entry_of [("name", "db"); ("home", "conf"); ("source", "/r/conf.py"); ("anchor", "/r")]] [] []
    [entry_of [("test_node_id", "/r/a.py::t[1]"); ("fixture_names", "db")]].

Lemma inspector_graph_well_formed_witness :
  ∃ g g', phase1_graph (@rev _) sample_tests [] = Some g
    ∧ merge_graph (@rev _) (relativize_paths g "/r") sample_phase2 "/r" = Some g' ∧ graph_ok g'
    ∧ names g' NodeKind.Test = ["a.py::t[1]"; "a.py::t[2]"] ∧ variants g' 0 = [1] ∧ deps g' 0 = [0]
    ∧ used_by g' 0 = [0] ∧ declares g' 0 = [0].
Proof.
  assert (Hp : ∀ l : list (nat * list string), rev l ≡ₚ l) by (intros; by rewrite <-Permutation_rev).
  destruct (inspector_graph_well_formed (@rev _) Hp sample_tests [] sample_phase2 "/r")
    as (g & H1 & _ & _ & g' & H2 & H3 & _).
  exists g, g'. split; [done|]. split; [done|]. split; [done|]. clear H3.
  vm_compute in H1. injection H1 as <-. vm_compute in H2. injection H2 as <-. by vm_compute.
Defined.
