(* ===== verification/Explore.v ===== *)
(** * Explore: the inspector's navigation, search and overview
    ([src/inspect/nav.rs], [overview.rs], [signals.rs], [search.rs],
    [source.rs], and the edge lists of [detail/])

    What the inspector reads of a graph to move around it.  A reading that
    indexes a vector returns an [option], [None] being the panic; the lemmas of
    each part say that it is total on the handles of a well-formed graph, and
    that every handle it returns is one.

    Unicode lower-casing, the regular expressions of the query language and
    the alphanumeric test of its lexer are parameters. *)
From Stdlib Require Import Ascii.
From stdpp Require Import pretty.
From S2P Require Import Prelude Collections Text Query Graph.

(** ** Traversals that may panic *)

(** [iter().filter(p).collect()] *)
Definition filterM {A} (p : A → option bool) (l : list A) : option (list A) :=
  omap id <$> mapM (λ x, keep ← p x; Some (if keep : bool then Some x else None)) l.

Lemma mapM_total {A B} (f : A → option B) (P : A → Prop) (Q : B → Prop) l :
  (∀ x, P x → ∃ y, f x = Some y ∧ Q y) → Forall P l → ∃ k, mapM f l = Some k ∧ Forall Q k.
Proof.
  intros Hf. induction 1 as [|x l Hx _ (k & IH & Hk)]; simpl; [by eexists|].
  destruct (Hf x Hx) as (y & -> & Hy). simpl. rewrite IH. simpl. eexists. split; [done|]. by constructor.
Qed.

Lemma mapM_pure {A B} (h : A → B) l : mapM (λ x, Some (h x)) l = Some (map h l).
Proof. induction l as [|x l IH]; simpl; [done|]. by rewrite IH. Qed.

Lemma filterM_spec {A} (p : A → option bool) (q : A → bool) l :
  (∀ x, x ∈ l → p x = Some (q x)) → filterM p l = Some (List.filter q l).
Proof.
  unfold filterM. induction l as [|x l IH]; intros H; [done|].
  simpl. rewrite (H x) by left. simpl.
  specialize (IH ltac:(intros; apply H; by right)).
  destruct (mapM _ l) as [k|]; simplify_eq/=. f_equal. by destruct (q x); simpl; rewrite IH.
Qed.

Lemma filterM_total {A} (p : A → option bool) l :
  (∀ x, x ∈ l → is_Some (p x)) → ∃ k, filterM p l = Some k ∧ k ⊆ l.
Proof.
  intros H. exists (List.filter (λ x, default false (p x)) l). split.
  - apply filterM_spec. intros x Hx. by destruct (H x Hx) as [? ->].
  - intros x. rewrite filter_elem. by intros [].
Qed.

(** ** Screens and the trail ([nav.rs]) *)

Module Screen.
Inductive t :=
| Overview (selected : nat)
| NodeFocus (node : NodeRef) (selected : nat)
| Disambiguation (query : string) (matches : list NodeRef) (selected : nat)
| History (selected : nat).

Definition selected (s : t) : nat :=
  match s with
  | Overview i | NodeFocus _ i | Disambiguation _ _ i | History i => i
  end.

(** [*selected = i] through [current_mut]. *)
Definition set_selected (i : nat) (s : t) : t :=
  match s with
  | Overview _ => Overview i
  | NodeFocus n _ => NodeFocus n i
  | Disambiguation q m _ => Disambiguation q m i
  | History _ => History i
  end.
End Screen.

(** The [selected] of the root is all there is to it: it is always an overview. *)
Record Trail := mk_trail { tr_root : Screen.t; tr_rest : list Screen.t }.

Definition trail_new : Trail := mk_trail (Screen.Overview 0) [].

Definition trail_current (t : Trail) : Screen.t := default (tr_root t) (last (tr_rest t)).

Definition trail_set_current (t : Trail) (f : Screen.t → Screen.t) : Trail :=
  match reverse (tr_rest t) with
  | [] => mk_trail (f (tr_root t)) []
  | s :: rest => mk_trail (tr_root t) (reverse (f s :: rest))
  end.

Definition trail_push (t : Trail) (s : Screen.t) : Trail := mk_trail (tr_root t) (tr_rest t ++ [s]).

Definition trail_pop (t : Trail) : Trail * bool :=
  match reverse (tr_rest t) with
  | [] => (t, false)
  | _ :: rest => (mk_trail (tr_root t) (reverse rest), true)
  end.

Definition trail_depth (t : Trail) : nat := S (length (tr_rest t)).

Definition crumb (g : InspectGraph) (s : Screen.t) : option (option (string * string)) :=
  match s with
  | Screen.Overview _ => Some (Some ("○", "overview"))
  | Screen.NodeFocus node _ =>
      name ← node_name g node; Some (Some (NodeKind.sigil (nr_kind node), name))
  | Screen.Disambiguation _ _ _ | Screen.History _ => Some None
  end.

Definition breadcrumb (t : Trail) (g : InspectGraph) : option (list (string * string)) :=
  omap id <$> mapM (crumb g) (tr_root t :: tr_rest t).

Section Lower.
Context (to_lowercase : string → string).

Definition name_matches (g : InspectGraph) (lower : string) (r : NodeRef) : option bool :=
  contains lower ∘ to_lowercase <$> node_name g r.

Definition resolve_direct_jump (g : InspectGraph) (name : string) : option Trail :=
  matches ← filterM (name_matches g (to_lowercase name)) (all_node_refs g);
  Some match matches with
       | [] => trail_new
       | [node] => trail_push trail_new (Screen.NodeFocus node 0)
       | _ => trail_push trail_new (Screen.Disambiguation name matches 0)
       end.
End Lower.

(** ** Signals ([signals.rs]) *)

Module SignalKind.
Inductive t := UnusedFixtures | HighFanIn | DeepChains | ScopeMismatches.
End SignalKind.

Record Signal := mk_signal {
  sg_kind : SignalKind.t;
  sg_message : string;
  sg_affected : list NodeRef
}.

(** [iter().enumerate().filter(p).map(|(i, _)| NodeRef { Fixture, i })] *)
Definition fixtures_where (p : FixtureNode → bool) (g : InspectGraph) : list NodeRef :=
  map (λ q, mk_ref NodeKind.Fixture q.1) (List.filter (λ q, p q.2) (imap pair (g_fixtures g))).

Definition plural (n : nat) : string := if n =? 1 then "" else "s".

Definition is_unused (f : FixtureNode) : bool :=
  nil_b (fx_consumers f) && negb (fx_autouse f) && negb (String.eqb (fx_home f) "").

Definition detect_unused_fixtures (g : InspectGraph) : list Signal :=
  let affected := fixtures_where is_unused g in
  let count := length affected in
  if nil_b affected then []
  else [mk_signal SignalKind.UnusedFixtures
          (pretty count +:+ " fixture" +:+ plural count +:+ " defined but never consumed") affected].

Definition detect_high_fan_in (g : InspectGraph) : list Signal :=
  if length (g_tests g) <? 2 then []
  else
    let threshold := length (g_tests g) / 2 in
    let affected := fixtures_where (λ f, threshold <? length (fx_consumers f)) g in
    let count := length affected in
    if nil_b affected then []
    else [mk_signal SignalKind.HighFanIn
            (pretty count +:+ " fixture" +:+ plural count +:+ " consumed by >50% of tests") affected].

(** Two detectors are placeholders in the code, and push nothing. *)
Definition detect_signals (g : InspectGraph) : list Signal :=
  if nil_b (g_fixtures g) then [] else detect_unused_fixtures g ++ detect_high_fan_in g.

(** ** The overview ([overview.rs]) *)

(** [GravityEntry], [MarkEntry] and [DeclarationEntry] have the same three fields. *)
Record SectionEntry := mk_entry { se_ref : NodeRef; se_name : string; se_count : nat }.

Record OverviewSections := mk_sections {
  gravity : list SectionEntry;
  ov_marks : list SectionEntry;
  ov_declarations : list SectionEntry;
  ov_signals : list Signal
}.

Definition default_sections : OverviewSections := mk_sections [] [] [] [].

(** [sort_by_key(|e| Reverse(e.count))] *)
Definition by_count_desc (a b : SectionEntry) : comparison := Nat.compare (se_count b) (se_count a).

Definition gravity_of (g : InspectGraph) : list SectionEntry :=
  sort_by by_count_desc
    (map (λ q, mk_entry (mk_ref NodeKind.Fixture q.1) (fx_name q.2) (length (fx_consumers q.2)))
       (List.filter (λ q, negb (nil_b (fx_consumers q.2))) (imap pair (g_fixtures g)))).

Definition marks_section (g : InspectGraph) : list SectionEntry :=
  sort_by by_count_desc
    (imap (λ i m, mk_entry (mk_ref NodeKind.Mark i) (mn_name m) (length (mn_used_by m))) (g_marks g)).

Definition declarations_section (g : InspectGraph) : list SectionEntry :=
  sort_by by_count_desc
    (imap (λ i d, mk_entry (mk_ref NodeKind.Declaration i) (dn_path d) (length (dn_fixtures d)))
       (g_declarations g)).

Definition sections_from_graph (g : InspectGraph) : OverviewSections :=
  mk_sections (gravity_of g) (marks_section g) (declarations_section g) (detect_signals g).

Definition overview_item_count (s : OverviewSections) : nat :=
  length (gravity s) + length (ov_marks s) + length (ov_declarations s) + length (ov_signals s).

Definition node_ref_at (s : OverviewSections) (index : nat) : option NodeRef :=
  let g := length (gravity s) in
  let m := length (ov_marks s) in
  let c := length (ov_declarations s) in
  if index <? g then se_ref <$> gravity s !! index
  else if index <? g + m then se_ref <$> ov_marks s !! (index - g)
  else if index <? g + m + c then se_ref <$> ov_declarations s !! (index - g - m)
  else if index <? g + m + c + length (ov_signals s) then
    ov_signals s !! (index - g - m - c) ≫= λ sig, head (sg_affected sig)
  else None.

(** ** Search ([search.rs]) *)

Inductive SearchScope := Global | Context_ (refs : list NodeRef).

Definition looks_like_dsl (query : string) : bool :=
  contains "(" query || contains "&" query || contains "|" query.

Section Search.
Context (to_lowercase : string → string) (uni_alnum : char → bool).
Context {regex : Type} (regex_new : string → result regex string)
        (regex_is_match : regex → string → bool).

Definition try_compile_dsl (query : string) : option Expr :=
  match lex uni_alnum query with
  | Err _ => None
  | Ok tokens => match parse regex_new tokens with Ok e => Some e | Err _ => None end
  end.

Definition dsl_matches (g : InspectGraph) (e : Expr) (r : NodeRef) : option bool :=
  eval regex_is_match e <$> node_query_entry g r.

Definition search (g : InspectGraph) (query : string) (scope : SearchScope) : option (list NodeRef) :=
  if String.eqb query "" then Some []
  else
    let candidates := match scope with Global => all_node_refs g | Context_ refs => refs end in
    match (if looks_like_dsl query then try_compile_dsl query else None) with
    | Some e => filterM (dsl_matches g e) candidates
    | None => filterM (name_matches to_lowercase g (to_lowercase query)) candidates
    end.
End Search.

(** ** Source locations ([source.rs]) *)

(** The outer [option] is the panic. *)
Definition node_source_location (g : InspectGraph) (r : NodeRef) : option (option (string * nat)) :=
  match nr_kind r with
  | NodeKind.Fixture =>
      f ← g_fixtures g !! nr_index r;
      Some (if String.eqb (fx_source f) "" || starts_with "<" (fx_source f) then None
            else Some (fx_source f, 1))
  | NodeKind.Test =>
      t ← g_tests g !! nr_index r;
      Some (Some (default (tn_node_id t) (head (split "::" (tn_node_id t))), 1))
  | _ => Some None
  end.

(** ** Edges one can follow ([detail/]) *)

Definition fixture_edges (g : InspectGraph) (r : NodeRef) : option (list NodeRef) :=
  f ← g_fixtures g !! nr_index r;
  Some (fx_consumers f
        ++ from_option (λ d, [mk_ref NodeKind.Declaration d]) [] (fx_declaration_idx f)
        ++ from_option (λ p, [mk_ref NodeKind.Plugin p]) [] (fx_plugin_idx f)).

Definition test_edges (g : InspectGraph) (r : NodeRef) : option (list NodeRef) :=
  t ← g_tests g !! nr_index r;
  Some (map (mk_ref NodeKind.Fixture) (tn_fixture_deps t) ++ map (mk_ref NodeKind.Mark) (tn_marks t)).

Definition mark_edges (g : InspectGraph) (r : NodeRef) : option (list NodeRef) :=
  m ← g_marks g !! nr_index r; Some (map (mk_ref NodeKind.Test) (mn_used_by m)).

Definition declaration_edges (g : InspectGraph) (r : NodeRef) : option (list NodeRef) :=
  d ← g_declarations g !! nr_index r; Some (map (mk_ref NodeKind.Fixture) (dn_fixtures d)).

Definition plugin_edges (g : InspectGraph) (r : NodeRef) : option (list NodeRef) :=
  p ← g_plugins g !! nr_index r; Some (map (mk_ref NodeKind.Fixture) (pn_fixtures p)).

Definition collect_selectable_edges (g : InspectGraph) (r : NodeRef) : option (list NodeRef) :=
  match nr_kind r with
  | NodeKind.Fixture => fixture_edges g r
  | NodeKind.Test => test_edges g r
  | NodeKind.Mark => mark_edges g r
  | NodeKind.Declaration => declaration_edges g r
  | NodeKind.Plugin => plugin_edges g r
  end.

Definition edge_node_at (g : InspectGraph) (r : NodeRef) (index : nat) : option (option NodeRef) :=
  edges ← collect_selectable_edges g r; Some (edges !! index).

Definition selectable_edge_count (g : InspectGraph) (r : NodeRef) : option nat :=
  length <$> collect_selectable_edges g r.

(** ** The trail *)

Definition trail_screens (t : Trail) : list Screen.t := tr_root t :: tr_rest t.

Lemma trail_current_last t : last (trail_screens t) = Some (trail_current t).
Proof.
  unfold trail_screens, trail_current. rewrite last_cons. by destruct (last (tr_rest t)).
Qed.

Lemma trail_current_push t s : trail_current (trail_push t s) = s.
Proof. unfold trail_current, trail_push. simpl. by rewrite last_snoc. Qed.

Lemma trail_pop_push t s : trail_pop (trail_push t s) = (t, true).
Proof.
  unfold trail_pop, trail_push. destruct t; simpl. by rewrite reverse_snoc, reverse_involutive.
Qed.

Lemma trail_rest_cases t :
  tr_rest t = [] ∨ ∃ t' s, t = trail_push t' s.
Proof.
  destruct t as [root rest]. destruct rest as [|s rest _] using rev_ind; [by left|].
  right. by exists (mk_trail root rest), s.
Qed.

Lemma trail_set_current_push t s f : trail_set_current (trail_push t s) f = trail_push t (f s).
Proof.
  unfold trail_set_current, trail_push. simpl. by rewrite reverse_snoc, reverse_cons, reverse_involutive.
Qed.

Lemma trail_current_set t f : trail_current (trail_set_current t f) = f (trail_current t).
Proof.
  destruct (trail_rest_cases t) as [Hr|(t' & s & ->)].
  - unfold trail_set_current, trail_current. by rewrite Hr.
  - by rewrite trail_set_current_push, !trail_current_push.
Qed.

Lemma trail_set_set t f f' :
  trail_set_current (trail_set_current t f) f' = trail_set_current t (f' ∘ f).
Proof.
  destruct (trail_rest_cases t) as [Hr|(t' & s & ->)].
  - unfold trail_set_current. by rewrite Hr.
  - by rewrite !trail_set_current_push.
Qed.

Lemma trail_set_id t f : f (trail_current t) = trail_current t → trail_set_current t f = t.
Proof.
  destruct (trail_rest_cases t) as [Hr|(t' & s & ->)].
  - unfold trail_set_current, trail_current. rewrite Hr. simpl. intros ->. destruct t; by simplify_eq/=.
  - rewrite trail_set_current_push, trail_current_push. by intros ->.
Qed.

Lemma trail_screens_push t s : trail_screens (trail_push t s) = trail_screens t ++ [s].
Proof. done. Qed.

(** A property of all the screens survives each move. *)
Section TrailForall.
Context (P : Screen.t → Prop).
Abbreviation all := (λ t, Forall P (trail_screens t)).

Lemma trail_forall_current t : all t → P (trail_current t).
Proof.
  intros H. rewrite Forall_forall in H. apply H. apply last_Some_elem_of, trail_current_last.
Qed.
Lemma trail_forall_push t s : all t → P s → all (trail_push t s).
Proof. intros H Hs. simpl. rewrite trail_screens_push. apply Forall_app. split; [done|]. by apply Forall_singleton. Qed.
Lemma trail_forall_pop t : all t → all (trail_pop t).1.
Proof.
  destruct (trail_rest_cases t) as [Hr|(t' & s & ->)].
  - unfold trail_pop. by rewrite Hr.
  - rewrite trail_pop_push, trail_screens_push. by intros [? _]%Forall_app.
Qed.
Lemma trail_forall_set t f : (∀ s, P s → P (f s)) → all t → all (trail_set_current t f).
Proof.
  intros Hf. destruct (trail_rest_cases t) as [Hr|(t' & s & ->)].
  - unfold trail_set_current, trail_screens. rewrite Hr. simpl. rewrite !Forall_singleton. auto.
  - rewrite trail_set_current_push, !trail_screens_push. intros [? Hs]%Forall_app. rewrite Forall_singleton in Hs.
    rewrite <-trail_screens_push. apply trail_forall_push; auto.
Qed.
End TrailForall.

(** *** Handles on screens *)

Definition screen_ok (g : InspectGraph) (s : Screen.t) : Prop :=
  match s with
  | Screen.NodeFocus node _ => ref_ok g node
  | Screen.Disambiguation _ matches _ => Forall (ref_ok g) matches
  | _ => True
  end.

Definition trail_ok (g : InspectGraph) (t : Trail) : Prop := Forall (screen_ok g) (trail_screens t).

Lemma screen_ok_mono g g' s : (∀ r, ref_ok g r → ref_ok g' r) → screen_ok g s → screen_ok g' s.
Proof. intros H. destruct s; simpl; auto. intros Hm. by eapply Forall_impl. Qed.

Lemma trail_ok_mono g g' t : (∀ r, ref_ok g r → ref_ok g' r) → trail_ok g t → trail_ok g' t.
Proof. intros H Ht. eapply Forall_impl; [exact Ht|]. intros s. by apply screen_ok_mono. Qed.

Lemma trail_new_ok g : trail_ok g trail_new.
Proof. by apply Forall_singleton. Qed.

Lemma set_selected_ok g i s : screen_ok g s → screen_ok g (Screen.set_selected i s).
Proof. by destruct s. Qed.

Lemma breadcrumb_total g t : trail_ok g t → is_Some (breadcrumb t g).
Proof.
  intros H. unfold breadcrumb. rewrite fmap_is_Some.
  destruct (mapM_total (crumb g) (screen_ok g) (λ _, True) (trail_screens t)) as (k & Hk & _); [|done|].
  - intros s Hs. destruct s; simpl in *; eauto. apply node_name_ok in Hs as [name ->]. simpl. eauto.
  - unfold trail_screens in Hk. by rewrite Hk.
Qed.

Lemma name_matches_total lc g lower r : ref_ok g r → is_Some (name_matches lc g lower r).
Proof. intros. unfold name_matches. rewrite fmap_is_Some. by apply node_name_ok. Qed.

Lemma all_node_refs_ok g : Forall (ref_ok g) (all_node_refs g).
Proof. apply Forall_forall. intros r. apply all_node_refs_elem. Qed.

Lemma resolve_direct_jump_total lc g name :
  ∃ t, resolve_direct_jump lc g name = Some t ∧ trail_ok g t.
Proof.
  unfold resolve_direct_jump.
  destruct (filterM_total (name_matches lc g (lc name)) (all_node_refs g)) as (k & -> & Hk).
  { intros r Hr%all_node_refs_elem. by apply name_matches_total. }
  assert (Hok : Forall (ref_ok g) k).
  { apply Forall_forall. intros r Hr%Hk. by apply all_node_refs_elem. }
  simpl. eexists. split; [done|].
  destruct k as [|r [|r' k]]; [apply trail_new_ok|..];
    apply trail_forall_push; try apply trail_new_ok; simpl; [|done]. by rewrite Forall_singleton in Hok.
Qed.

(** ** The overview *)

Definition sections_ok (g : InspectGraph) (s : OverviewSections) : Prop :=
  Forall (λ e, ref_ok g (se_ref e)) (gravity s) ∧ Forall (λ e, ref_ok g (se_ref e)) (ov_marks s)
  ∧ Forall (λ e, ref_ok g (se_ref e)) (ov_declarations s)
  ∧ Forall (λ sig, Forall (ref_ok g) (sg_affected sig)) (ov_signals s).

Lemma fixtures_where_elem p g r :
  r ∈ fixtures_where p g ↔
  nr_kind r = NodeKind.Fixture ∧ ∃ f, g_fixtures g !! nr_index r = Some f ∧ p f = true.
Proof.
  unfold fixtures_where. rewrite map_elem. setoid_rewrite filter_elem. setoid_rewrite elem_of_lookup_imap.
  destruct r as [k i]. split.
  - intros ([j f] & [(n & x & [= -> ->] & Hx) Hp] & [= <- <-]). eauto.
  - simpl. intros (-> & f & Hf & Hp). exists (i, f). split; [|done]. split; [|done]. eauto.
Qed.

Lemma fixtures_where_ok p g : Forall (ref_ok g) (fixtures_where p g).
Proof.
  apply Forall_forall. intros r (Hk & f & Hf & _)%fixtures_where_elem. unfold ref_ok. rewrite Hk.
  by eapply lookup_lt_Some.
Qed.

Lemma sort_by_forall {A} (cmp : A → A → comparison) (P : A → Prop) l :
  Forall P l → Forall P (sort_by cmp l).
Proof. by rewrite sort_by_perm. Qed.

Lemma sections_from_graph_ok g : sections_ok g (sections_from_graph g).
Proof.
  split_and!; simpl.
  - apply sort_by_forall, Forall_forall. intros e ([i f] & [(n & x & [= -> ->] & Hx)%elem_of_lookup_imap _]%filter_elem & <-)%map_elem.
    by eapply lookup_lt_Some.
  - apply sort_by_forall, Forall_forall. intros e (i & m & -> & Hm)%elem_of_lookup_imap. by eapply lookup_lt_Some.
  - apply sort_by_forall, Forall_forall. intros e (i & m & -> & Hm)%elem_of_lookup_imap. by eapply lookup_lt_Some.
  - unfold detect_signals, detect_unused_fixtures, detect_high_fan_in. case_match; [done|].
    apply Forall_app. split; repeat case_match; try done; apply Forall_singleton, fixtures_where_ok.
Qed.

Lemma node_ref_at_ok g s i r : sections_ok g s → node_ref_at s i = Some r → ref_ok g r.
Proof.
  intros (H1 & H2 & H3 & H4). unfold node_ref_at. repeat case_match; try done.
  1-3: intros (e & He & ->)%fmap_Some; by eapply Forall_lookup_1 in He; [|eassumption].
  intros (sig & Hs & Hr)%bind_Some. eapply Forall_lookup_1 in Hs; [|done].
  simpl in Hs. destruct (sg_affected sig); simplify_eq/=. by rewrite Forall_cons in Hs; destruct Hs.
Qed.

(** ** Edges *)

Lemma collect_selectable_edges_total g r :
  graph_ok g → ref_ok g r → ∃ l, collect_selectable_edges g r = Some l ∧ Forall (ref_ok g) l.
Proof.
  intros Hg Hr. unfold collect_selectable_edges, ref_ok in *. destruct r as [[] i]; simpl in *;
    apply lookup_lt_is_Some in Hr as [n Hn].
  - unfold fixture_edges; simpl; rewrite Hn; simpl. eexists. split; [done|]. repeat rewrite Forall_app. split_and!.
    + apply Forall_forall. intros e He. apply (consumers_ok g Hg i).
      unfold consumers. by rewrite (edges_at_Some fx_consumers _ _ _ Hn).
    + destruct (fx_declaration_idx n) eqn:E; simpl; [|done]. apply Forall_singleton.
      apply (declaration_ok g Hg i). unfold declaration. by rewrite Hn.
    + destruct (fx_plugin_idx n) eqn:E; simpl; [|done]. apply Forall_singleton.
      apply (plugin_ok g Hg i). unfold plugin. by rewrite Hn.
  - unfold test_edges; simpl; rewrite Hn; simpl. eexists. split; [done|]. rewrite Forall_app. split.
    all: apply Forall_forall; intros e (j & Hj & <-)%map_elem.
    + apply (deps_ok g Hg i). unfold deps. by rewrite (edges_at_Some tn_fixture_deps _ _ _ Hn).
    + apply (marks_ok g Hg i). unfold marks_of. by rewrite (edges_at_Some tn_marks _ _ _ Hn).
  - unfold mark_edges; simpl; rewrite Hn; simpl. eexists. split; [done|].
    apply Forall_forall; intros e (j & Hj & <-)%map_elem.
    apply (used_by_ok g Hg i). unfold used_by. by rewrite (edges_at_Some mn_used_by _ _ _ Hn).
  - unfold declaration_edges; simpl; rewrite Hn; simpl. eexists. split; [done|].
    apply Forall_forall; intros e (j & Hj & <-)%map_elem.
    apply (ok_declares g Hg i). unfold declares. by rewrite (edges_at_Some dn_fixtures _ _ _ Hn).
  - unfold plugin_edges; simpl; rewrite Hn; simpl. eexists. split; [done|].
    apply Forall_forall; intros e (j & Hj & <-)%map_elem.
    apply (ok_provides g Hg i). unfold provides. by rewrite (edges_at_Some pn_fixtures _ _ _ Hn).
Qed.

Lemma node_source_location_total g r : ref_ok g r → is_Some (node_source_location g r).
Proof.
  unfold ref_ok, node_source_location. destruct r as [[] i]; simpl; try by eexists.
  all: intros [n ->]%lookup_lt_is_Some; by eexists.
Qed.

(** ** Search *)

Section SearchSpec.
Context (to_lowercase : string → string) (uni_alnum : char → bool).
Context {regex : Type} (regex_new : string → result regex string)
        (regex_is_match : regex → string → bool).

(** The query as a predicate on nodes: a compiled expression over the node's
    fields if the query is one, a substring of the name otherwise. *)
Definition node_matches (g : InspectGraph) (query : string) (r : NodeRef) : bool :=
  match (if looks_like_dsl query then try_compile_dsl uni_alnum regex_new query else None) with
  | Some e => from_option (eval regex_is_match e) false (node_query_entry g r)
  | None => from_option (contains (to_lowercase query) ∘ to_lowercase) false (node_name g r)
  end.

Definition scope_candidates (g : InspectGraph) (scope : SearchScope) : list NodeRef :=
  match scope with Global => all_node_refs g | Context_ refs => refs end.

Lemma search_spec g query scope :
  Forall (ref_ok g) (scope_candidates g scope) →
  search to_lowercase uni_alnum regex_new regex_is_match g query scope
  = Some (if String.eqb query "" then [] else List.filter (node_matches g query) (scope_candidates g scope)).
Proof.
  intros Hok. unfold search. destruct (String.eqb query ""); [done|]. rewrite Forall_forall in Hok.
  unfold node_matches. fold (scope_candidates g scope).
  destruct (if looks_like_dsl query then _ else None) as [e|]; apply filterM_spec; intros r Hr%Hok.
  - unfold dsl_matches. by destruct (node_query_entry_ok g r Hr) as [? ->].
  - unfold name_matches. apply node_name_ok in Hr as [name ->]. done.
Qed.

Lemma search_total g query scope :
  Forall (ref_ok g) (scope_candidates g scope) →
  ∃ l, search to_lowercase uni_alnum regex_new regex_is_match g query scope = Some l
    ∧ Forall (ref_ok g) l.
Proof.
  intros Hok. rewrite search_spec by done. eexists. split; [done|]. case_match; [done|].
  apply Forall_forall. intros r [Hr _]%filter_elem. by rewrite Forall_forall in Hok; apply Hok.
Qed.
End SearchSpec.
