(* ===== verification/Detail.v ===== *)
(** * Detail: the inspector's node views ([src/inspect/detail/])

    The lines shown for a node, in full and as a preview.  A [Line] is what the
    code passes to [Line::from], a string or spans; terminal layout is not
    modelled.  [None] is a panic, as in [Graph]; the lemmas say that every node
    of a well-formed graph can be shown. *)
From Stdlib Require Import Ascii.
From stdpp Require Import pretty.
From S2P Require Import Prelude Collections Text Graph Explore.

(** ** Styled text *)

Module Color.
Inductive t := Black | Cyan | DarkGray | White | Yellow.
End Color.

Record Style := mk_style { st_fg : option Color.t; st_bg : option Color.t; st_bold : bool }.
Definition style_default : Style := mk_style None None false.
Definition fg (c : Color.t) : Style := mk_style (Some c) None false.

Record Span := mk_span { sp_text : string; sp_style : Style }.
Definition raw (s : string) : Span := mk_span s style_default.

Inductive Line := TextLine (s : string) | SpanLine (spans : list Span).

(** ** Styles and helpers ([styles.rs]) *)

Definition label_style : Style := mk_style (Some Color.DarkGray) None true.
Definition value_style : Style := fg Color.White.
Definition sigil_style : Style := fg Color.Cyan.
Definition header_style : Style := mk_style (Some Color.Yellow) None true.

Definition field_line (label value : string) : Line :=
  SpanLine [mk_span ("  " +:+ label +:+ ": ") label_style; mk_span value value_style].

Definition bool_field (label : string) (value : bool) : Line :=
  field_line label (if value then "yes" else "no").

Definition section_header (title : string) : Line :=
  SpanLine [mk_span ("  " +:+ title) header_style].

Definition connection_line (sigil name : string) : Line :=
  SpanLine [raw "    "; mk_span sigil sigil_style; raw (" " +:+ name)].

Definition ref_line (g : InspectGraph) (r : NodeRef) : option Line :=
  connection_line (NodeKind.sigil (nr_kind r)) <$> node_name g r.

Definition preview_edges (g : InspectGraph) (edges : list NodeRef) (max_shown : nat) : option (list Line) :=
  shown ← mapM (ref_line g) (take max_shown edges);
  let remaining := length edges - max_shown in
  Some (shown ++ (if 0 <? remaining
                  then [SpanLine [mk_span ("  · · · " +:+ pretty remaining +:+ " more") label_style]]
                  else [])).

Fixpoint spaces (n : nat) : string := match n with 0 => "" | S n' => " " +:+ spaces n' end.

(** [{name:<24}]: padded to a number of characters. *)
Definition pad_right (width : nat) (s : string) : string := s +:+ spaces (width - length (chars s)).

Definition autouse_line (name lifetime : string) : Line :=
  SpanLine [raw "    "; mk_span "F" sigil_style; raw (" " +:+ pad_right 24 name +:+ " ");
            mk_span lifetime label_style].

Definition note_line (text : string) : Line := SpanLine [raw "    "; mk_span text value_style].

(** The first two lines of every view. *)
Definition node_header (sigil name : string) : list Line :=
  [SpanLine [mk_span sigil sigil_style; raw (" " +:+ name)]; TextLine ""].

(** A blank line, a title, and one row per element; nothing when there is none. *)
Definition edge_section {A} (title : string) (row : A → option Line) (l : list A) : option (list Line) :=
  if nil_b l then Some []
  else rows ← mapM row l; Some (TextLine "" :: section_header title :: rows).

Definition fixture_line (g : InspectGraph) (i : nat) : option Line :=
  connection_line "F" ∘ fx_name <$> g_fixtures g !! i.
Definition test_line (g : InspectGraph) (i : nat) : option Line :=
  connection_line "T" ∘ tn_node_id <$> g_tests g !! i.
Definition mark_line (g : InspectGraph) (i : nat) : option Line :=
  connection_line "M" ∘ mn_name <$> g_marks g !! i.

(** What a view may claim about phase-2 data ([FixtureDataState] of [app.rs]). *)
Module FixtureDataState.
Inductive t := Loading | Ready | Unavailable.
End FixtureDataState.

(** ** Tests ([test.rs]) *)

Definition autouse_rows (g : InspectGraph) (t : TestNode) (state : FixtureDataState.t) : list Line :=
  match state with
  | FixtureDataState.Loading => [note_line "loading…"]
  | FixtureDataState.Unavailable => [note_line "unavailable — fixture data did not load"]
  | FixtureDataState.Ready =>
      let module := default "" (head (split "::" (tn_node_id t))) in
      match g_autouse g !! module with
      | Some ((_ :: _) as fixtures) => map (λ f, autouse_line (au_name f) (au_lifetime f)) fixtures
      | _ => [note_line "none"]
      end
  end.

Definition render_test (g : InspectGraph) (r : NodeRef) (state : FixtureDataState.t) : option (list Line) :=
  t ← g_tests g !! nr_index r;
  deps ← edge_section "Fixture Dependencies" (fixture_line g) (tn_fixture_deps t);
  marks ← edge_section "Marks" (mark_line g) (tn_marks t);
  variants ← edge_section "Variants" (test_line g) (tn_variants t);
  Some (node_header "T" (tn_node_id t) ++ [bool_field "async" (tn_is_async t)]
        ++ match tn_param_id t with
           | Some param_id =>
               [field_line "param_id" param_id; field_line "param_count" (pretty (tn_param_count t))]
           | None => []
           end
        ++ deps
        ++ [TextLine ""; section_header "Autouse (applies here)"] ++ autouse_rows g t state
        ++ marks ++ variants).

(** A titled preview of some edges, after a blank line if asked. *)
Definition preview_section (g : InspectGraph) (blank : bool) (title : string) (edges : list NodeRef)
    : option (list Line) :=
  if nil_b edges then Some []
  else
    rows ← preview_edges g edges 3;
    Some ((if blank then [TextLine ""] else [])
          ++ section_header (title +:+ " (" +:+ pretty (length edges) +:+ ")") :: rows).

Definition preview_test (g : InspectGraph) (r : NodeRef) : option (list Line) :=
  t ← g_tests g !! nr_index r;
  deps ← preview_section g true "Fixtures" (map (mk_ref NodeKind.Fixture) (tn_fixture_deps t));
  marks ← preview_section g true "Marks" (map (mk_ref NodeKind.Mark) (tn_marks t));
  Some (node_header "T" (tn_node_id t) ++ [bool_field "async" (tn_is_async t)] ++ deps ++ marks).

(** ** Fixtures ([fixture.rs]) *)

Definition tier_row (f : FixtureNode) : string * string :=
  if String.eqb (fx_lifetime f) "" then ("scope", fx_scope f) else ("lifetime", fx_lifetime f).

Definition tier_line (f : FixtureNode) : Line := let '(label, value) := tier_row f in field_line label value.

Definition owner_section (title sigil : string) (name : option (option string)) : option (list Line) :=
  match name with
  | None => Some []
  | Some None => None
  | Some (Some n) => Some [TextLine ""; section_header title; connection_line sigil n]
  end.

Definition render_fixture (g : InspectGraph) (r : NodeRef) : option (list Line) :=
  f ← g_fixtures g !! nr_index r;
  consumers ← edge_section "Consumers" (ref_line g) (fx_consumers f);
  declared ← owner_section "Defined In" (NodeKind.sigil NodeKind.Declaration)
               ((λ d, dn_path <$> g_declarations g !! d) <$> fx_declaration_idx f);
  provided ← owner_section "Provided By" "P" ((λ p, pn_name <$> g_plugins g !! p) <$> fx_plugin_idx f);
  Some (node_header "F" (fx_name f)
        ++ [tier_line f; field_line "binding" (fx_binding_type f); bool_field "autouse" (fx_autouse f);
            bool_field "async" (fx_is_async f); field_line "source" (fx_source f)]
        ++ (if String.eqb (fx_description f) "" then [] else [field_line "description" (fx_description f)])
        ++ consumers ++ declared ++ provided).

Definition preview_fixture (g : InspectGraph) (r : NodeRef) : option (list Line) :=
  f ← g_fixtures g !! nr_index r;
  consumers ← preview_section g true "Consumers" (fx_consumers f);
  Some (node_header "F" (fx_name f) ++ [tier_line f; field_line "source" (fx_source f)] ++ consumers).

(** ** Marks, declarations and plugins *)

Definition render_mark (g : InspectGraph) (r : NodeRef) : option (list Line) :=
  m ← g_marks g !! nr_index r;
  users ← edge_section "Used By" (test_line g) (mn_used_by m);
  Some (node_header "M" (mn_name m) ++ [field_line "used_by_count" (pretty (length (mn_used_by m)))] ++ users).

Definition preview_mark (g : InspectGraph) (r : NodeRef) : option (list Line) :=
  m ← g_marks g !! nr_index r;
  users ← preview_section g false "Tests" (map (mk_ref NodeKind.Test) (mn_used_by m));
  Some (node_header "M" (mn_name m) ++ users).

Definition render_declaration (g : InspectGraph) (r : NodeRef) : option (list Line) :=
  d ← g_declarations g !! nr_index r;
  fixtures ← edge_section "Fixtures" (fixture_line g) (dn_fixtures d);
  Some (node_header (NodeKind.sigil NodeKind.Declaration) (dn_path d)
        ++ [field_line "home" (dn_home d); field_line "anchor" (dn_anchor d);
            field_line "fixtures_count" (pretty (length (dn_fixtures d)))]
        ++ fixtures).

Definition preview_declaration (g : InspectGraph) (r : NodeRef) : option (list Line) :=
  d ← g_declarations g !! nr_index r;
  fixtures ← preview_section g false "Fixtures" (map (mk_ref NodeKind.Fixture) (dn_fixtures d));
  Some (node_header (NodeKind.sigil NodeKind.Declaration) (dn_path d) ++ fixtures).

Definition protocols_line (p : PluginNode) : list Line :=
  if nil_b (pn_protocols p) then [] else [field_line "protocols" (join ", " (pn_protocols p))].

Definition render_plugin (g : InspectGraph) (r : NodeRef) : option (list Line) :=
  p ← g_plugins g !! nr_index r;
  fixtures ← edge_section "Fixtures" (fixture_line g) (pn_fixtures p);
  Some (node_header "P" (pn_name p) ++ protocols_line p ++ fixtures).

Definition preview_plugin (g : InspectGraph) (r : NodeRef) : option (list Line) :=
  p ← g_plugins g !! nr_index r;
  fixtures ← preview_section g true "Fixtures" (map (mk_ref NodeKind.Fixture) (pn_fixtures p));
  Some (node_header "P" (pn_name p) ++ protocols_line p ++ fixtures).

(** ** Dispatch ([mod.rs]) *)

Definition render_detail (g : InspectGraph) (r : option NodeRef) (state : FixtureDataState.t)
    : option (list Line) :=
  match r with
  | None => Some [TextLine "Select a node to view details"]
  | Some r =>
      match nr_kind r with
      | NodeKind.Fixture => render_fixture g r
      | NodeKind.Test => render_test g r state
      | NodeKind.Mark => render_mark g r
      | NodeKind.Declaration => render_declaration g r
      | NodeKind.Plugin => render_plugin g r
      end
  end.

Definition render_preview (g : InspectGraph) (r : NodeRef) : option (list Line) :=
  match nr_kind r with
  | NodeKind.Fixture => preview_fixture g r
  | NodeKind.Test => preview_test g r
  | NodeKind.Mark => preview_mark g r
  | NodeKind.Declaration => preview_declaration g r
  | NodeKind.Plugin => preview_plugin g r
  end.

(** ** Parametrised groups *)

(** The code collects a [HashSet]; [order] is the order it is listed in. *)
Definition shared_indices (order : gset nat → list nat) (indices : list nat)
    (extractor : nat → option (list nat)) : option (list nat) :=
  match indices with
  | [] => Some []
  | i0 :: rest =>
      first ← extractor i0;
      sets ← mapM extractor rest;
      Some (order (fold_left (λ acc s, acc ∩ list_to_set s) sets (list_to_set first)))
  end.

Definition render_group_detail (order : gset nat → list nat) (g : InspectGraph) (indices : list nat)
    : option (list Line) :=
  match indices with
  | [] => Some [TextLine "Empty group"]
  | i0 :: _ =>
      first ← g_tests g !! i0;
      asyncs ← mapM (λ i, tn_is_async <$> g_tests g !! i) indices;
      shared_deps ← shared_indices order indices (λ i, tn_fixture_deps <$> g_tests g !! i);
      deps ← edge_section "Shared Fixture Dependencies" (fixture_line g) shared_deps;
      shared_marks ← shared_indices order indices (λ i, tn_marks <$> g_tests g !! i);
      marks ← edge_section "Shared Marks" (mark_line g) shared_marks;
      Some (node_header "T" (base_test_name (tn_node_id first))
            ++ [field_line "variants" (pretty (length indices))]
            ++ [if forallb id asyncs then bool_field "async" true
                else if negb (existsb id asyncs) then bool_field "async" false
                else field_line "async" "mixed"]
            ++ deps ++ marks)
  end.

(** ** Every node can be shown *)

Lemma mapM_is_Some {A B} (f : A → option B) l :
  (∀ x, x ∈ l → is_Some (f x)) → is_Some (mapM f l).
Proof.
  intros H. destruct (mapM_total f (λ x, x ∈ l) (λ _, True) l) as (k & -> & _); [|by apply Forall_forall|done].
  intros x Hx. destruct (H x Hx) as [y ->]. eauto.
Qed.

Lemma edge_section_total {A} title (row : A → option Line) l :
  (∀ x, x ∈ l → is_Some (row x)) → is_Some (edge_section title row l).
Proof.
  intros H. unfold edge_section. case_match; [done|]. destruct (mapM_is_Some row l H) as [k ->]. by eexists.
Qed.

Lemma ref_line_total g r : ref_ok g r → is_Some (ref_line g r).
Proof. intros. unfold ref_line. rewrite fmap_is_Some. by apply node_name_ok. Qed.

Lemma preview_section_total g blank title edges :
  (∀ r, r ∈ edges → ref_ok g r) → is_Some (preview_section g blank title edges).
Proof.
  intros H. unfold preview_section, preview_edges. case_match; [done|].
  destruct (mapM_is_Some (ref_line g) (take 3 edges)) as [k ->]; [|by eexists].
  intros r Hr. apply ref_line_total, H. rewrite <-(take_drop 3 edges). set_solver.
Qed.

Lemma owner_section_total title sigil name :
  name ≠ Some None → is_Some (owner_section title sigil name).
Proof. destruct name as [[]|]; [by eexists|done|by eexists]. Qed.

(** A lookup chain in the option monad, one step at a time. *)
Ltac show_node H := apply lookup_lt_is_Some in H as [? H].
Ltac run_section :=
  match goal with
  | |- is_Some (mbind ?k ?s) =>
      let x := fresh in
      assert (is_Some s) as [x ->];
      [first [apply edge_section_total|apply preview_section_total|apply owner_section_total]|simpl]
  end.

Section Shown.
Context (g : InspectGraph) (Hg : graph_ok g).

Lemma edges_of {N E} (sel : N → list E) l i n e : l !! i = Some n → e ∈ sel n → e ∈ edges_at sel l i.
Proof. intros Hn. by rewrite (edges_at_Some sel _ _ _ Hn). Qed.

Lemma fixture_line_total i : i < length (g_fixtures g) → is_Some (fixture_line g i).
Proof. intros. unfold fixture_line. rewrite fmap_is_Some. by apply lookup_lt_is_Some. Qed.
Lemma test_line_total i : i < length (g_tests g) → is_Some (test_line g i).
Proof. intros. unfold test_line. rewrite fmap_is_Some. by apply lookup_lt_is_Some. Qed.
Lemma mark_line_total i : i < length (g_marks g) → is_Some (mark_line g i).
Proof. intros. unfold mark_line. rewrite fmap_is_Some. by apply lookup_lt_is_Some. Qed.

Lemma render_test_total i state : i < length (g_tests g) → is_Some (render_test g (mk_ref NodeKind.Test i) state).
Proof.
  intros Hi. show_node Hi. unfold render_test; simpl. rewrite Hi. simpl. run_section.
  { intros e He. apply fixture_line_total, (deps_ok g Hg i). by eapply edges_of in He. }
  run_section; [intros e He; apply mark_line_total, (marks_ok g Hg i); by eapply edges_of in He|].
  run_section; [intros e He; apply test_line_total, (ok_variants g Hg i); by eapply edges_of in He|]. done.
Qed.

Lemma preview_test_total i : i < length (g_tests g) → is_Some (preview_test g (mk_ref NodeKind.Test i)).
Proof.
  intros Hi. show_node Hi. unfold preview_test; simpl. rewrite Hi. simpl. run_section.
  { intros r (e & He & <-)%map_elem. apply (deps_ok g Hg i). by eapply edges_of in He. }
  run_section; [intros r (e & He & <-)%map_elem; apply (marks_ok g Hg i); by eapply edges_of in He|]. done.
Qed.

Lemma render_fixture_total i : i < length (g_fixtures g) → is_Some (render_fixture g (mk_ref NodeKind.Fixture i)).
Proof.
  intros Hi. show_node Hi. unfold render_fixture; simpl. rewrite Hi. simpl. run_section.
  { intros e He. apply ref_line_total, (consumers_ok g Hg i). by eapply edges_of in He. }
  run_section.
  { destruct (fx_declaration_idx x) as [d|] eqn:E; [|done]. simpl.
    assert (Hd : d < length (g_declarations g)) by (apply (declaration_ok g Hg i); unfold declaration; by rewrite Hi).
    show_node Hd. by rewrite Hd. }
  run_section; [|done].
  destruct (fx_plugin_idx x) as [p|] eqn:E; [|done]. simpl.
  assert (Hp : p < length (g_plugins g)) by (apply (plugin_ok g Hg i); unfold plugin; by rewrite Hi).
  show_node Hp. by rewrite Hp.
Qed.

Lemma preview_fixture_total i : i < length (g_fixtures g) → is_Some (preview_fixture g (mk_ref NodeKind.Fixture i)).
Proof.
  intros Hi. show_node Hi. unfold preview_fixture; simpl. rewrite Hi. simpl. run_section; [|done].
  intros e He. apply (consumers_ok g Hg i). by eapply edges_of in He.
Qed.

Lemma mark_views_total i : i < length (g_marks g) →
  is_Some (render_mark g (mk_ref NodeKind.Mark i)) ∧ is_Some (preview_mark g (mk_ref NodeKind.Mark i)).
Proof.
  intros Hi. show_node Hi. unfold render_mark, preview_mark; simpl. rewrite Hi. simpl. split; run_section; try done.
  - intros e He. apply test_line_total, (used_by_ok g Hg i). by eapply edges_of in He.
  - intros r (e & He & <-)%map_elem. apply (used_by_ok g Hg i). by eapply edges_of in He.
Qed.

Lemma declaration_views_total i : i < length (g_declarations g) →
  is_Some (render_declaration g (mk_ref NodeKind.Declaration i))
  ∧ is_Some (preview_declaration g (mk_ref NodeKind.Declaration i)).
Proof.
  intros Hi. show_node Hi. unfold render_declaration, preview_declaration; simpl. rewrite Hi. simpl.
  split; run_section; try done.
  - intros e He. apply fixture_line_total, (ok_declares g Hg i). by eapply edges_of in He.
  - intros r (e & He & <-)%map_elem. apply (ok_declares g Hg i). by eapply edges_of in He.
Qed.

Lemma plugin_views_total i : i < length (g_plugins g) →
  is_Some (render_plugin g (mk_ref NodeKind.Plugin i)) ∧ is_Some (preview_plugin g (mk_ref NodeKind.Plugin i)).
Proof.
  intros Hi. show_node Hi. unfold render_plugin, preview_plugin; simpl. rewrite Hi. simpl.
  split; run_section; try done.
  - intros e He. apply fixture_line_total, (ok_provides g Hg i). by eapply edges_of in He.
  - intros r (e & He & <-)%map_elem. apply (ok_provides g Hg i). by eapply edges_of in He.
Qed.

Lemma render_detail_total r state : ref_ok g r → is_Some (render_detail g (Some r) state).
Proof.
  destruct r as [[] i]; unfold ref_ok; simpl; intros.
  - by apply render_fixture_total.
  - by apply render_test_total.
  - by apply mark_views_total.
  - by apply declaration_views_total.
  - by apply plugin_views_total.
Qed.

Lemma render_preview_total r : ref_ok g r → is_Some (render_preview g r).
Proof.
  destruct r as [[] i]; unfold ref_ok; simpl; intros.
  - by apply preview_fixture_total.
  - by apply preview_test_total.
  - by apply mark_views_total.
  - by apply declaration_views_total.
  - by apply plugin_views_total.
Qed.
End Shown.
