(* ===== verification/Inspect.v ===== *)
(** * Inspect: the inspector's state and its key handlers
    ([src/inspect/app.rs], [src/inspect/input.rs], [read_source_lines] of
    [source.rs])

    The application state, the operations on it, and the key dispatch, each
    returning [None] where the code would panic on an index.  What comes from
    outside is an argument: the clock ([now]), the phase-2 channel
    ([TryRecv]), the file system ([read_to_string]), and what re-collecting the
    project finds ([Rebuild]).

    [app_ok] says that every handle the state holds addresses a node of its
    graph; the theorems say that every event keeps it, a refresh apart. *)
From Stdlib Require Import Ascii ZArith.
From stdpp Require Import pretty.
From S2P Require Import Prelude Collections Text Query F32 Graph Builder Explore Detail.

(** ** State ([app.rs]) *)

Module InputMode.
Inductive t := Normal | Search (query : string).
End InputMode.
Abbreviation InputMode := InputMode.t.

Module ScopeMode.
Inductive t := Context_ | Global.
End ScopeMode.

Record SearchState := mk_search {
  ss_query : string;
  ss_results : list NodeRef;
  ss_selected_idx : nat;
  ss_total_candidates : nat;
  ss_scope_mode : ScopeMode.t
}.

Definition search_new : SearchState := mk_search "" [] 0 0 ScopeMode.Context_.

Definition ss_select (s : SearchState) (i : nat) : SearchState :=
  mk_search (ss_query s) (ss_results s) i (ss_total_candidates s) (ss_scope_mode s).

Definition select_next (s : SearchState) : SearchState :=
  if nil_b (ss_results s) then s
  else ss_select s ((ss_selected_idx s + 1) mod length (ss_results s)).

Definition select_prev (s : SearchState) : SearchState :=
  if nil_b (ss_results s) then s
  else ss_select s (if ss_selected_idx s =? 0 then length (ss_results s) - 1 else ss_selected_idx s - 1).

Definition ss_selected (s : SearchState) : option NodeRef := ss_results s !! ss_selected_idx s.

(** The receiver of the loading state is the [TryRecv] each poll is given. *)
Module Phase2State.
Inductive t := Loading (started : nat) | Complete | Unavailable.
End Phase2State.
Abbreviation Phase2State := Phase2State.t.

Module TryRecv.
Inductive t := Data (data : Phase2Data) | Empty | Disconnected.
End TryRecv.

Record SourceViewState := mk_source_view {
  sv_path : string;
  sv_lines : list Line;
  sv_scroll_offset : Z;
  sv_node_ref : NodeRef;
  sv_node_label : string
}.

(** What re-collecting the files and re-extracting their entries gives. *)
Inductive Rebuild := CollectError | BuildError | Rebuilt (tests marks : list QueryEntry).

(** Key events ([crossterm]): the keys the handlers tell apart. *)
Module KeyCode.
Inductive t :=
| Char (c : char) | Esc | Enter | Tab | Backspace | Left | Right | Up | Down | Other.
End KeyCode.

Record KeyEvent := mk_key { ke_code : KeyCode.t; ke_control : bool }.

Section App.
Context {refresh_data : Type}.

Record InspectApp := mk_app {
  should_quit : bool;
  terminal_width : Z;
  input_mode : InputMode;
  show_help : bool;
  search_state : SearchState;
  graph : option InspectGraph;
  nav : Trail;
  history : list NodeRef;
  overview_sections : OverviewSections;
  flash_message : option (string * nat);
  phase2 : Phase2State;
  scroll_offset : Z;
  rootdir : string;
  phase2_timeout : nat;
  refresh_args : option refresh_data;
  source_view : option SourceViewState;
  open_in_editor_request : option NodeRef
}.

Definition set_should_quit (a : InspectApp) (v : bool) : InspectApp :=
  mk_app v (terminal_width a) (input_mode a) (show_help a) (search_state a) (graph a) (nav a)
    (history a) (overview_sections a) (flash_message a) (phase2 a) (scroll_offset a) (rootdir a)
    (phase2_timeout a) (refresh_args a) (source_view a) (open_in_editor_request a).
Definition set_terminal_width (a : InspectApp) (v : Z) : InspectApp :=
  mk_app (should_quit a) v (input_mode a) (show_help a) (search_state a) (graph a) (nav a)
    (history a) (overview_sections a) (flash_message a) (phase2 a) (scroll_offset a) (rootdir a)
    (phase2_timeout a) (refresh_args a) (source_view a) (open_in_editor_request a).
Definition set_input_mode (a : InspectApp) (v : InputMode) : InspectApp :=
  mk_app (should_quit a) (terminal_width a) v (show_help a) (search_state a) (graph a) (nav a)
    (history a) (overview_sections a) (flash_message a) (phase2 a) (scroll_offset a) (rootdir a)
    (phase2_timeout a) (refresh_args a) (source_view a) (open_in_editor_request a).
Definition set_show_help (a : InspectApp) (v : bool) : InspectApp :=
  mk_app (should_quit a) (terminal_width a) (input_mode a) v (search_state a) (graph a) (nav a)
    (history a) (overview_sections a) (flash_message a) (phase2 a) (scroll_offset a) (rootdir a)
    (phase2_timeout a) (refresh_args a) (source_view a) (open_in_editor_request a).
Definition set_search_state (a : InspectApp) (v : SearchState) : InspectApp :=
  mk_app (should_quit a) (terminal_width a) (input_mode a) (show_help a) v (graph a) (nav a)
    (history a) (overview_sections a) (flash_message a) (phase2 a) (scroll_offset a) (rootdir a)
    (phase2_timeout a) (refresh_args a) (source_view a) (open_in_editor_request a).
Definition set_graph_ (a : InspectApp) (v : option InspectGraph) : InspectApp :=
  mk_app (should_quit a) (terminal_width a) (input_mode a) (show_help a) (search_state a) v
    (nav a) (history a) (overview_sections a) (flash_message a) (phase2 a) (scroll_offset a)
    (rootdir a) (phase2_timeout a) (refresh_args a) (source_view a) (open_in_editor_request a).
Definition set_nav (a : InspectApp) (v : Trail) : InspectApp :=
  mk_app (should_quit a) (terminal_width a) (input_mode a) (show_help a) (search_state a)
    (graph a) v (history a) (overview_sections a) (flash_message a) (phase2 a) (scroll_offset a)
    (rootdir a) (phase2_timeout a) (refresh_args a) (source_view a) (open_in_editor_request a).
Definition set_history (a : InspectApp) (v : list NodeRef) : InspectApp :=
  mk_app (should_quit a) (terminal_width a) (input_mode a) (show_help a) (search_state a)
    (graph a) (nav a) v (overview_sections a) (flash_message a) (phase2 a) (scroll_offset a)
    (rootdir a) (phase2_timeout a) (refresh_args a) (source_view a) (open_in_editor_request a).
Definition set_overview_sections (a : InspectApp) (v : OverviewSections) : InspectApp :=
  mk_app (should_quit a) (terminal_width a) (input_mode a) (show_help a) (search_state a)
    (graph a) (nav a) (history a) v (flash_message a) (phase2 a) (scroll_offset a) (rootdir a)
    (phase2_timeout a) (refresh_args a) (source_view a) (open_in_editor_request a).
Definition set_flash_message (a : InspectApp) (v : option (string * nat)) : InspectApp :=
  mk_app (should_quit a) (terminal_width a) (input_mode a) (show_help a) (search_state a)
    (graph a) (nav a) (history a) (overview_sections a) v (phase2 a) (scroll_offset a) (rootdir a)
    (phase2_timeout a) (refresh_args a) (source_view a) (open_in_editor_request a).
Definition set_phase2 (a : InspectApp) (v : Phase2State) : InspectApp :=
  mk_app (should_quit a) (terminal_width a) (input_mode a) (show_help a) (search_state a)
    (graph a) (nav a) (history a) (overview_sections a) (flash_message a) v (scroll_offset a)
    (rootdir a) (phase2_timeout a) (refresh_args a) (source_view a) (open_in_editor_request a).
Definition set_scroll_offset (a : InspectApp) (v : Z) : InspectApp :=
  mk_app (should_quit a) (terminal_width a) (input_mode a) (show_help a) (search_state a)
    (graph a) (nav a) (history a) (overview_sections a) (flash_message a) (phase2 a) v (rootdir a)
    (phase2_timeout a) (refresh_args a) (source_view a) (open_in_editor_request a).
Definition set_source_view (a : InspectApp) (v : option SourceViewState) : InspectApp :=
  mk_app (should_quit a) (terminal_width a) (input_mode a) (show_help a) (search_state a)
    (graph a) (nav a) (history a) (overview_sections a) (flash_message a) (phase2 a)
    (scroll_offset a) (rootdir a) (phase2_timeout a) (refresh_args a) v (open_in_editor_request a).
Definition set_open_in_editor_request (a : InspectApp) (v : option NodeRef) : InspectApp :=
  mk_app (should_quit a) (terminal_width a) (input_mode a) (show_help a) (search_state a)
    (graph a) (nav a) (history a) (overview_sections a) (flash_message a) (phase2 a)
    (scroll_offset a) (rootdir a) (phase2_timeout a) (refresh_args a) (source_view a) v.


(** ** History ([SessionHistory]) *)

Definition history_push (h : list NodeRef) (r : NodeRef) : list NodeRef := r :: h.

(** ** Construction *)

Section Lower.
Context (to_lowercase : string → string).

Definition with_progressive_loading (g : InspectGraph) (name : option string) (timeout : nat)
    (root : string) (args : option refresh_data) (now : nat) : option InspectApp :=
  trail ← (match name with Some n => resolve_direct_jump to_lowercase g n | None => Some trail_new end);
  Some (mk_app false 0 InputMode.Normal false
          (mk_search "" [] 0 (length (all_node_refs g)) ScopeMode.Context_) (Some g) trail []
          (sections_from_graph g) None (Phase2State.Loading now) 0 root timeout args None None).
End Lower.

(** ** Phase 2 *)

Definition is_loading (a : InspectApp) : bool :=
  match phase2 a with Phase2State.Loading _ => true | _ => false end.

Definition fixture_data_state (a : InspectApp) : FixtureDataState.t :=
  match phase2 a with
  | Phase2State.Loading _ => FixtureDataState.Loading
  | Phase2State.Complete => FixtureDataState.Ready
  | Phase2State.Unavailable => FixtureDataState.Unavailable
  end.

Definition set_total_candidates (a : InspectApp) (n : nat) : InspectApp :=
  let s := search_state a in
  set_search_state a (mk_search (ss_query s) (ss_results s) (ss_selected_idx s) n (ss_scope_mode s)).

(** The new graph, the counts and the overview that depend on it. *)
Definition swap_graph (a : InspectApp) (g : InspectGraph) : InspectApp :=
  set_graph_ (set_overview_sections (set_total_candidates a (length (all_node_refs g)))
                (sections_from_graph g)) (Some g).

Section Order.
Context (iter_order : list (nat * list string) → list (nat * list string)).

Definition merge_phase2 (a : InspectApp) (data : Phase2Data) : option InspectApp :=
  a ← (match graph a with
       | Some g => swap_graph a <$> merge_graph iter_order g data (rootdir a)
       | None => Some a
       end);
  Some match trail_current (nav a) with
       | Screen.Disambiguation _ _ _ | Screen.NodeFocus _ _ => set_nav a trail_new
       | _ => a
       end.

Definition poll_phase2 (a : InspectApp) (recv : TryRecv.t) (now : nat) : option InspectApp :=
  match phase2 a with
  | Phase2State.Loading started =>
      match recv with
      | TryRecv.Data data => merge_phase2 (set_phase2 a Phase2State.Complete) data
      | TryRecv.Empty =>
          Some (if phase2_timeout a <? now - started then set_phase2 a Phase2State.Unavailable else a)
      | TryRecv.Disconnected => Some (set_phase2 a Phase2State.Unavailable)
      end
  | _ => Some a
  end.

(** ** Flash messages *)

Definition flash (a : InspectApp) (message : string) (now : nat) : InspectApp :=
  set_flash_message a (Some (message, now)).

(** Durations are in milliseconds. *)
Definition clear_expired_flash (a : InspectApp) (now : nat) : InspectApp :=
  match flash_message a with
  | Some (_, instant) => if 2000 <? now - instant then set_flash_message a None else a
  | None => a
  end.

(** ** The source view *)

Context (read_to_string : string → result string string).

Definition pad_left (width : nat) (s : string) : string := spaces (width - length (chars s)) +:+ s.

Definition read_source_lines (path : string) : list Line :=
  match read_to_string path with
  | Err e => [TextLine ("  Error reading " +:+ path +:+ ": " +:+ e)]
  | Ok content =>
      let lines := str_lines content in
      let width := String.length (pretty (length lines)) in
      imap (λ i text,
        SpanLine [mk_span (" " +:+ pad_left width (pretty (S i)) +:+ " │ ") (fg Color.DarkGray); raw text])
        lines
  end.

Definition enter_source_view (a : InspectApp) (node : NodeRef) (now : nat) : option InspectApp :=
  match graph a with
  | None => Some a
  | Some g =>
      loc ← node_source_location g node;
      match loc with
      | None => Some (flash a ("no source available for " +:+ NodeKind.label (nr_kind node) +:+ "s") now)
      | Some (path, _) =>
          name ← node_name g node;
          Some (set_source_view a
                  (Some (mk_source_view path (read_source_lines path) 0 node
                           (NodeKind.sigil (nr_kind node) +:+ " " +:+ name))))
      end
  end.

Definition exit_source_view (a : InspectApp) : InspectApp := set_source_view a None.

(** ** Refresh *)

Fixpoint prune_screens (g : InspectGraph) (rev_rest : list Screen.t) : list Screen.t :=
  match rev_rest with
  | Screen.NodeFocus node _ :: below =>
      if nr_index node <? node_count g (nr_kind node) then rev_rest else prune_screens g below
  | _ => rev_rest
  end.

(** The root is an overview, so the loop ends before it has nothing to pop. *)
Definition prune_stale_trail (a : InspectApp) : InspectApp :=
  match graph a with
  | None => a
  | Some g =>
      let rest := reverse (prune_screens g (reverse (tr_rest (nav a)))) in
      set_scroll_offset (set_nav a (mk_trail (tr_root (nav a)) rest)) 0
  end.

Context (rebuild : refresh_data → Rebuild).

Definition refresh (a : InspectApp) (now : nat) : option InspectApp :=
  match refresh_args a with
  | None => Some a
  | Some args =>
      match rebuild args with
      | CollectError => Some (flash a "Refresh failed: file collection error" now)
      | BuildError => Some (flash a "Refresh failed: graph build error" now)
      | Rebuilt tests marks =>
          g ← phase1_graph iter_order tests marks;
          let a := swap_graph a (relativize_paths g (rootdir a)) in
          let a := set_phase2 a (Phase2State.Loading now) in
          Some (flash (prune_stale_trail a) "Refreshed" now)
      end
  end.

(** ** Navigation helpers ([input.rs]) *)

(** The item a screen's cursor is on, as [s] and [e] read it. *)
Definition focused_node (a : InspectApp) : option NodeRef :=
  match trail_current (nav a) with
  | Screen.NodeFocus node _ => Some node
  | Screen.Overview selected => node_ref_at (overview_sections a) selected
  | Screen.History selected => history a !! selected
  | Screen.Disambiguation _ matches selected => matches !! selected
  end.

Definition screen_item_count (a : InspectApp) : option nat :=
  match graph a with
  | None => Some 0
  | Some g =>
      match trail_current (nav a) with
      | Screen.Overview _ => Some (overview_item_count (overview_sections a))
      | Screen.NodeFocus node _ => selectable_edge_count g node
      | Screen.Disambiguation _ matches _ => Some (length matches)
      | Screen.History _ => Some (length (history a))
      end
  end.

Definition move_cursor (step : nat → nat → nat) (a : InspectApp) : option InspectApp :=
  max ← screen_item_count a;
  Some (if max =? 0 then a
        else set_nav a (trail_set_current (nav a)
                          (λ s, Screen.set_selected (step max (Screen.selected s)) s))).

Definition nav_cursor_down : InspectApp → option InspectApp := move_cursor (λ max i, (i + 1) mod max).
Definition nav_cursor_up : InspectApp → option InspectApp :=
  move_cursor (λ max i, if i =? 0 then max - 1 else i - 1).

Definition visit (a : InspectApp) (node : NodeRef) : InspectApp :=
  set_nav (set_history a (history_push (history a) node)) (trail_push (nav a) (Screen.NodeFocus node 0)).

Definition visit_opt (a : InspectApp) (node : option NodeRef) : InspectApp :=
  match node with Some n => visit a n | None => a end.

Definition nav_push (a : InspectApp) : option InspectApp :=
  let a := set_scroll_offset a 0 in
  match graph a with
  | None => Some a
  | Some gr =>
      match trail_current (nav a) with
      | Screen.Overview selected =>
          let s := overview_sections a in
          let first_signal := length (gravity s) + length (ov_marks s) + length (ov_declarations s) in
          Some (if first_signal <=? selected then
                  match ov_signals s !! (selected - first_signal) with
                  | Some signal =>
                      match sg_affected signal with
                      | [] => a
                      | [node] => visit a node
                      | _ => set_nav a (trail_push (nav a)
                               (Screen.Disambiguation (sg_message signal) (sg_affected signal) 0))
                      end
                  | None => a
                  end
                else visit_opt a (node_ref_at s selected))
      | Screen.NodeFocus node selected => visit_opt a <$> edge_node_at gr node selected
      | Screen.Disambiguation _ matches selected => Some (visit_opt a (matches !! selected))
      | Screen.History selected => Some (visit_opt a (history a !! selected))
      end
  end.

(** ** Search mode *)

Context (to_lowercase : string → string) (uni_alnum : char → bool).
Context {regex : Type} (regex_new : string → result regex string)
        (regex_is_match : regex → string → bool).

Definition context_candidates (a : InspectApp) (g : InspectGraph) : option (list NodeRef) :=
  match trail_current (nav a) with
  | Screen.Overview _ =>
      Some (omap (node_ref_at (overview_sections a)) (seq 0 (overview_item_count (overview_sections a))))
  | Screen.NodeFocus node _ =>
      count ← selectable_edge_count g node;
      found ← mapM (edge_node_at g node) (seq 0 count);
      Some (omap id found)
  | Screen.History _ => Some (history a)
  | Screen.Disambiguation _ matches _ => Some matches
  end.

Definition set_results (a : InspectApp) (total : nat) (results : list NodeRef) : InspectApp :=
  let s := search_state a in
  set_search_state a (mk_search (ss_query s) results (ss_selected_idx s) total (ss_scope_mode s)).

Definition refresh_search (a : InspectApp) : option InspectApp :=
  match graph a with
  | None => Some a
  | Some g =>
      scope ← (match ss_scope_mode (search_state a) with
               | ScopeMode.Global => Some (Global, length (all_node_refs g))
               | ScopeMode.Context_ =>
                   candidates ← context_candidates a g;
                   Some (Context_ candidates, length candidates)
               end);
      results ← search to_lowercase uni_alnum regex_new regex_is_match g
                  (ss_query (search_state a)) scope.1;
      Some (set_results a scope.2 results)
  end.

(** ** Key events *)

Definition is_char (k : KeyCode.t) (c : char) : bool :=
  match k with KeyCode.Char c' => (c' =? c)%N | _ => false end.

(** [Ctrl+C] *)
Definition is_interrupt (k : KeyEvent) : bool := ke_control k && is_char (ke_code k) 99.

Definition set_query (a : InspectApp) (query : string) : InspectApp :=
  let s := search_state a in
  set_search_state (set_input_mode a (InputMode.Search query))
    (mk_search query (ss_results s) 0 (ss_total_candidates s) (ss_scope_mode s)).

(** [String::pop] *)
Definition pop_char (s : string) : string := of_chars (take (length (chars s) - 1) (chars s)).

Definition edit_query (f : string → string) (a : InspectApp) : InspectApp :=
  match input_mode a with
  | InputMode.Search query => set_query a (f query)
  | InputMode.Normal => a
  end.

Definition toggle_scope (a : InspectApp) : InspectApp :=
  let s := search_state a in
  set_search_state a
    (mk_search (ss_query s) (ss_results s) (ss_selected_idx s) (ss_total_candidates s)
       match ss_scope_mode s with
       | ScopeMode.Context_ => ScopeMode.Global
       | ScopeMode.Global => ScopeMode.Context_
       end).

Definition handle_search_key (a : InspectApp) (key : KeyEvent) : option InspectApp :=
  if is_interrupt key then Some (set_should_quit a true)
  else
    match ke_code key with
    | KeyCode.Esc => Some (set_input_mode (set_search_state a search_new) InputMode.Normal)
    | KeyCode.Enter => Some (set_input_mode a InputMode.Normal)
    | KeyCode.Down => Some (set_search_state a (select_next (search_state a)))
    | KeyCode.Up => Some (set_search_state a (select_prev (search_state a)))
    | KeyCode.Backspace => refresh_search (edit_query pop_char a)
    | KeyCode.Tab => refresh_search (toggle_scope a)
    | KeyCode.Char c => refresh_search (edit_query (λ q, q +:+ encode_utf8 c) a)
    | _ => Some a
    end.

(** ** Source view mode *)

Definition scroll_source (f : Z → Z) (a : InspectApp) : InspectApp :=
  match source_view a with
  | Some sv =>
      set_source_view a
        (Some (mk_source_view (sv_path sv) (sv_lines sv) (f (sv_scroll_offset sv)) (sv_node_ref sv)
                 (sv_node_label sv)))
  | None => a
  end.

(** Letters by their code points: q 113, j 106, k 107, e 101, s 115, r 114, l 108, h 104, H 72. *)
Definition handle_source_view_key (a : InspectApp) (key : KeyEvent) : InspectApp :=
  if is_interrupt key then set_should_quit a true
  else
    match ke_code key with
    | KeyCode.Esc | KeyCode.Char 113 => exit_source_view a
    | KeyCode.Down | KeyCode.Char 106 => scroll_source (λ o, Z.min (o + 1) u16_max) a
    | KeyCode.Up | KeyCode.Char 107 => scroll_source (λ o, Z.max (o - 1) 0) a
    | KeyCode.Char 101 =>
        match source_view a with
        | Some sv => set_open_in_editor_request a (Some (sv_node_ref sv))
        | None => a
        end
    | _ => a
    end.

(** ** Normal mode *)

Definition request_editor (a : InspectApp) (node : NodeRef) (now : nat) : option InspectApp :=
  match graph a with
  | None => Some a
  | Some g =>
      loc ← node_source_location g node;
      Some match loc with
           | Some _ => set_open_in_editor_request a (Some node)
           | None => flash a ("no source available for " +:+ NodeKind.label (nr_kind node) +:+ "s") now
           end
  end.

Definition on_focused (a : InspectApp) (f : NodeRef → option InspectApp) : option InspectApp :=
  match focused_node a with Some n => f n | None => Some a end.

Definition handle_normal_key (a : InspectApp) (key : KeyEvent) (now : nat) : option InspectApp :=
  if is_interrupt key then Some (set_should_quit a true)
  else
    match ke_code key with
    | KeyCode.Char 113 | KeyCode.Esc => Some (set_should_quit a true)
    | KeyCode.Char 106 | KeyCode.Down => nav_cursor_down a
    | KeyCode.Char 107 | KeyCode.Up => nav_cursor_up a
    | KeyCode.Enter | KeyCode.Char 108 | KeyCode.Right => nav_push a
    | KeyCode.Char 104 | KeyCode.Left | KeyCode.Backspace =>
        Some (set_scroll_offset (set_nav a (trail_pop (nav a)).1) 0)
    | KeyCode.Char 72 =>
        Some (set_scroll_offset (set_nav a (trail_push (nav a) (Screen.History 0))) 0)
    | KeyCode.Char 47 => Some (set_input_mode (set_search_state a search_new) (InputMode.Search ""))
    | KeyCode.Char 63 => Some (set_show_help a (negb (show_help a)))
    | KeyCode.Char 114 => refresh a now
    | KeyCode.Char 115 => on_focused a (λ n, enter_source_view a n now)
    | KeyCode.Char 101 => on_focused a (λ n, request_editor a n now)
    | _ => Some a
    end.

Definition handle_key (a : InspectApp) (key : KeyEvent) (now : nat) : option InspectApp :=
  match source_view a with
  | Some _ => Some (handle_source_view_key a key)
  | None =>
      match input_mode a with
      | InputMode.Normal => handle_normal_key a key now
      | InputMode.Search _ => handle_search_key a key
      end
  end.

(** The request the loop of [run] takes after each event: the file and line to
    open, if any. *)
Definition take_editor_request (a : InspectApp) : option (InspectApp * option (string * nat)) :=
  let a' := set_open_in_editor_request a None in
  match open_in_editor_request a, graph a with
  | Some node, Some g => loc ← node_source_location g node; Some (a', loc)
  | _, _ => Some (a', None)
  end.
End Order.
End App.

(** ** Every handle addresses a node *)

Section Ok.
Context {refresh_data : Type}.
Abbreviation App := (@InspectApp refresh_data).

(** The handles a state holds. *)
Record Handles := mk_handles {
  h_nav : Trail;
  h_history : list NodeRef;
  h_sections : OverviewSections;
  h_source : option NodeRef;
  h_editor : option NodeRef;
  h_results : list NodeRef
}.

Definition handles_of (a : App) : Handles :=
  mk_handles (nav a) (history a) (overview_sections a) (sv_node_ref <$> source_view a)
    (open_in_editor_request a) (ss_results (search_state a)).

Record handles_valid (g : InspectGraph) (h : Handles) : Prop := {
  ho_root : ∃ i, tr_root (h_nav h) = Screen.Overview i;
  ho_trail : trail_ok g (h_nav h);
  ho_history : Forall (ref_ok g) (h_history h);
  ho_sections : sections_ok g (h_sections h);
  ho_source r : h_source h = Some r → ref_ok g r;
  ho_editor r : h_editor h = Some r → ref_ok g r;
  ho_results : Forall (ref_ok g) (h_results h)
}.

Definition handles_ok (g : InspectGraph) (a : App) : Prop := handles_valid g (handles_of a).

Definition app_ok (a : App) : Prop := ∃ g, graph a = Some g ∧ graph_ok g ∧ handles_ok g a.

(** A step of the program: it does not panic and keeps every handle valid. *)
Definition steps (r : option App) : Prop := ∃ a', r = Some a' ∧ app_ok a'.

Lemma steps_Some a : app_ok a → steps (Some a).
Proof. intros. by exists a. Qed.

Lemma handles_ok_nav g a t :
  handles_ok g a → tr_root t = tr_root (nav a) ∨ (∃ i, tr_root t = Screen.Overview i) → trail_ok g t →
  handles_ok g (set_nav a t).
Proof. intros [H0 H1 H2 H3 H4 H5 H6] [Hr|Hr] Ht; split; simpl; try done. by rewrite Hr. Qed.

Lemma handles_ok_search g a s :
  handles_ok g a → Forall (ref_ok g) (ss_results s) → handles_ok g (set_search_state a s).
Proof. intros [H0 H1 H2 H3 H4 H5 H6] Hs. by split. Qed.

Lemma handles_ok_visit g a r : handles_ok g a → ref_ok g r → handles_ok g (visit a r).
Proof.
  intros [H0 H1 H2 H3 H4 H5 H6] Hr. split; simpl; try done; [by apply trail_forall_push|by constructor].
Qed.

Lemma handles_ok_visit_opt g a r :
  handles_ok g a → (∀ n, r = Some n → ref_ok g n) → handles_ok g (visit_opt a r).
Proof. intros Ha Hr. destruct r as [n|]; simpl; [|done]. apply handles_ok_visit; auto. Qed.

Lemma current_ok g a : handles_ok g a → screen_ok g (trail_current (nav a)).
Proof. intros H. apply (trail_forall_current (screen_ok g)), (ho_trail _ _ H). Qed.

Lemma lookup_ok g (l : list NodeRef) i n : Forall (ref_ok g) l → l !! i = Some n → ref_ok g n.
Proof. apply Forall_lookup_1. Qed.

Lemma focused_node_ok g a n : handles_ok g a → focused_node a = Some n → ref_ok g n.
Proof.
  intros Ha. pose proof (current_ok g a Ha) as Hc. unfold focused_node.
  destruct (trail_current (nav a)); simpl in *; intros H.
  - by eapply node_ref_at_ok; [apply (ho_sections _ _ Ha)|].
  - by simplify_eq.
  - by eapply lookup_ok.
  - by eapply lookup_ok; [apply (ho_history _ _ Ha)|].
Qed.

(** *** Start *)

Lemma with_progressive_loading_ok lc g name timeout root args now :
  graph_ok g → steps (with_progressive_loading lc g name timeout root args now).
Proof.
  intros Hg. unfold with_progressive_loading.
  assert (∃ t, (match name with Some n => resolve_direct_jump lc g n | None => Some trail_new end) = Some t
               ∧ trail_ok g t ∧ ∃ i, tr_root t = Screen.Overview i) as (t & -> & Ht & Hr).
  { destruct name as [n|]; [|exists trail_new; split_and!; [done|apply trail_new_ok|by eexists]].
    destruct (resolve_direct_jump_total lc g n) as (t & Hj & Ht). exists t. split_and!; [done..|].
    revert Hj. unfold resolve_direct_jump. intros (k & _ & [= <-])%bind_Some.
    destruct k as [|? []]; by eexists. }
  simpl. apply steps_Some. exists g. split_and!; [done..|].
  split; simpl; try done. apply sections_from_graph_ok.
Qed.

(** *** Phase 2 *)

Lemma swap_graph_ok g g' a :
  handles_ok g a → (∀ r, ref_ok g r → ref_ok g' r) → handles_ok g' (swap_graph a g').
Proof.
  intros [H0 H1 H2 H3 H4 H5 H6] Hm. split; simpl; eauto.
  - by eapply trail_ok_mono.
  - by eapply Forall_impl.
  - apply sections_from_graph_ok.
  - by eapply Forall_impl.
Qed.

Section Order.
Context (iter_order : list (nat * list string) → list (nat * list string)).
Context (Hperm : ∀ l, iter_order l ≡ₚ l).

Lemma merge_phase2_ok a data : app_ok a → steps (merge_phase2 iter_order a data).
Proof.
  intros (g & Eg & Hg & Ha). unfold merge_phase2. rewrite Eg.
  destruct (merge_graph_total iter_order Hperm g data (rootdir a) Hg) as (g' & -> & Hg' & Hn). simpl.
  assert (Hm : ∀ r, ref_ok g r → ref_ok g' r).
  { intros r Hr. apply node_name_ok. rewrite Hn by done. rewrite fmap_is_Some. by apply node_name_ok. }
  pose proof (swap_graph_ok _ _ _ Ha Hm) as Ha'.
  apply steps_Some. exists g'. split_and!; [by destruct (trail_current _)|done|].
  destruct (trail_current _); try done;
    (apply handles_ok_nav; [done|right; by eexists|apply trail_new_ok]).
Qed.

Lemma poll_phase2_ok a recv now : app_ok a → steps (poll_phase2 iter_order a recv now).
Proof.
  intros Ha. unfold poll_phase2. destruct (phase2 a); [|by apply steps_Some..].
  destruct recv; [by apply merge_phase2_ok|apply steps_Some..]; [by case_match|done].
Qed.

Lemma clear_expired_flash_ok a now : app_ok a → app_ok (clear_expired_flash a now).
Proof. unfold clear_expired_flash. by repeat case_match. Qed.
End Order.

(** *** Moving around *)

Lemma screen_item_count_total a : app_ok a → is_Some (screen_item_count a).
Proof.
  intros (g & Eg & Hg & Ha). unfold screen_item_count. rewrite Eg.
  pose proof (current_ok g a Ha) as Hc. destruct (trail_current (nav a)); simpl in *; try by eexists.
  unfold selectable_edge_count.
  destruct (collect_selectable_edges_total g _ Hg Hc) as (l & -> & _). by eexists.
Qed.

Lemma move_cursor_ok step a : app_ok a → steps (move_cursor step a).
Proof.
  intros Ha. unfold move_cursor. destruct (screen_item_count_total a Ha) as [max ->]. simpl.
  apply steps_Some. case_match; [done|]. destruct Ha as (g & Eg & Hg & Ha). exists g. split_and!; [done..|].
  apply handles_ok_nav; [done|..].
  - unfold trail_set_current. destruct (reverse _); [right|by left]. destruct (ho_root _ _ Ha) as [i Hi].
    simpl in *. rewrite Hi. simpl. by eexists.
  - apply trail_forall_set; [intros s Hs; by apply set_selected_ok|apply (ho_trail _ _ Ha)].
Qed.

Lemma nav_push_ok a : app_ok a → steps (nav_push a).
Proof.
  intros (g & Eg & Hg & Ha). unfold nav_push. simpl. rewrite Eg.
  pose proof (current_ok g a Ha) as Hc. set (b := set_scroll_offset a 0).
  assert (Hb : handles_ok g b) by done.
  assert (Hsteps : ∀ c, graph c = Some g → handles_ok g c → steps (Some c)).
  { intros c ? ?. apply steps_Some. by exists g. }
  assert (Hvisit : ∀ r, (∀ n, r = Some n → ref_ok g n) → steps (Some (visit_opt b r))).
  { intros r Hr. apply Hsteps; [by destruct r|]. by apply handles_ok_visit_opt. }
  destruct (trail_current (nav a)) as [i|node i|q ms i|i]; simpl in Hc.
  - case_match.
    + destruct (ov_signals _ !! _) as [sig|] eqn:Hs; [|by apply Hsteps].
      destruct (ho_sections _ _ Ha) as (_ & _ & _ & Hsig). eapply Forall_lookup_1 in Hsig; [|exact Hs].
      simpl in Hsig. destruct (sg_affected sig) as [|n [|n' l]]; [by apply Hsteps|..].
      * apply Hsteps; [done|]. apply handles_ok_visit; [done|]. by rewrite Forall_singleton in Hsig.
      * apply Hsteps; [done|]. apply handles_ok_nav; [done|by left|].
        apply trail_forall_push; [apply (ho_trail _ _ Ha)|done].
    + apply Hvisit. intros n Hn. by eapply node_ref_at_ok; [apply (ho_sections _ _ Ha)|].
  - unfold edge_node_at. destruct (collect_selectable_edges_total g node Hg Hc) as (l & -> & Hl). simpl.
    apply Hvisit. intros n. by apply lookup_ok.
  - apply Hvisit. intros n. by apply lookup_ok.
  - apply Hvisit. intros n. apply lookup_ok, (ho_history _ _ Ha).
Qed.

Lemma pop_ok a : app_ok a → app_ok (set_scroll_offset (set_nav a (trail_pop (nav a)).1) 0).
Proof.
  intros (g & Eg & Hg & Ha). exists g. split_and!; [done..|].
  apply (handles_ok_nav g a); [done| |apply (trail_forall_pop (screen_ok g)), (ho_trail _ _ Ha)].
  left. unfold trail_pop. by destruct (reverse _).
Qed.

Lemma push_history_ok a :
  app_ok a → app_ok (set_scroll_offset (set_nav a (trail_push (nav a) (Screen.History 0))) 0).
Proof.
  intros (g & Eg & Hg & Ha). exists g. split_and!; [done..|].
  apply (handles_ok_nav g a); [done|by left|]. by apply trail_forall_push; [apply (ho_trail _ _ Ha)|].
Qed.

(** *** Source view and editor *)

Lemma enter_source_view_ok read a n now :
  app_ok a → (∀ g, graph a = Some g → ref_ok g n) → steps (enter_source_view read a n now).
Proof.
  intros (g & Eg & Hg & Ha) Hn. unfold enter_source_view. rewrite Eg. specialize (Hn g Eg).
  destruct (node_source_location_total g n Hn) as [loc ->]. simpl.
  destruct loc as [[path line]|]; [|apply steps_Some; by exists g].
  apply node_name_ok in Hn as Hname. destruct Hname as [name ->]. simpl. apply steps_Some.
  exists g. split_and!; [done..|]. destruct Ha as [H0 H1 H2 H3 H4 H5 H6]. split; simpl; try done.
  by intros r [= <-].
Qed.

Lemma set_editor_ok a n :
  app_ok a → (∀ g r, graph a = Some g → n = Some r → ref_ok g r) → app_ok (set_open_in_editor_request a n).
Proof.
  intros (g & Eg & Hg & Ha) Hn. exists g. split_and!; [done..|]. destruct Ha as [H0 H1 H2 H3 H4 H5 H6].
  split; simpl; try done. intros r ->. by apply (Hn g).
Qed.

Lemma request_editor_ok a n now :
  app_ok a → (∀ g, graph a = Some g → ref_ok g n) → steps (request_editor a n now).
Proof.
  intros Ha Hn. unfold request_editor. destruct (graph a) as [g|] eqn:Eg; [|by apply steps_Some].
  destruct (node_source_location_total g n (Hn g eq_refl)) as [loc ->]. simpl. apply steps_Some.
  destruct loc; [|done]. apply set_editor_ok; [done|]. intros g' r Hg' [= <-]. apply Hn. congruence.
Qed.

Lemma on_focused_ok a f :
  app_ok a → (∀ n, (∀ g, graph a = Some g → ref_ok g n) → steps (f n)) → steps (on_focused a f).
Proof.
  intros Ha Hf. unfold on_focused. destruct (focused_node a) as [n|] eqn:Hn; [|by apply steps_Some].
  apply Hf. intros g Eg. destruct Ha as (g' & Eg' & Hg & Ha). simplify_eq. by eapply focused_node_ok.
Qed.

Lemma scroll_source_ok f a : app_ok a → app_ok (scroll_source f a).
Proof.
  intros (g & Eg & Hg & Ha). unfold scroll_source. destruct (source_view a) as [sv|] eqn:Es; [|by exists g].
  exists g. split_and!; [done..|]. destruct Ha as [H0 H1 H2 H3 H4 H5 H6]. split; simpl in *; try done.
  by rewrite Es in H4.
Qed.

Lemma exit_source_view_ok a : app_ok a → app_ok (exit_source_view a).
Proof.
  intros (g & Eg & Hg & Ha). exists g. split_and!; [done..|]. destruct Ha as [H0 H1 H2 H3 H4 H5 H6].
  by split.
Qed.

Lemma handle_source_view_key_ok a k : app_ok a → app_ok (handle_source_view_key a k).
Proof.
  intros Ha. unfold handle_source_view_key. destruct (is_interrupt k); [done|].
  destruct (ke_code k) as [c| | | | | | | | |]; repeat case_match; try done;
    first [by apply exit_source_view_ok|by apply scroll_source_ok|apply set_editor_ok; [done|]].
  intros g r Eg [= <-]. destruct Ha as (g' & Eg' & Hg & Ha). simplify_eq.
  apply (ho_source _ _ Ha). simpl. by match goal with E : source_view a = _ |- _ => rewrite E end.
Qed.


(** *** Searching *)

Section Keys.
Context (iter_order : list (nat * list string) → list (nat * list string)).
Context (Hperm : ∀ l, iter_order l ≡ₚ l).
Context (read_to_string : string → result string string) (rebuild : refresh_data → Rebuild).
Context (to_lowercase : string → string) (uni_alnum : char → bool).
Context {regex : Type} (regex_new : string → result regex string)
        (regex_is_match : regex → string → bool).

Lemma context_candidates_ok a g :
  graph_ok g → handles_ok g a →
  ∃ l, context_candidates a g = Some l ∧ Forall (ref_ok g) l.
Proof.
  intros Hg Ha. unfold context_candidates. pose proof (current_ok g a Ha) as Hc.
  destruct (trail_current (nav a)) as [i|node i|q ms i|i]; simpl in Hc.
  - eexists. split; [done|]. apply Forall_forall. intros r (j & _ & Hj)%list_elem_of_omap.
    by eapply node_ref_at_ok; [apply (ho_sections _ _ Ha)|].
  - unfold selectable_edge_count, edge_node_at.
    destruct (collect_selectable_edges_total g node Hg Hc) as (l & -> & Hl). simpl.
    rewrite (mapM_pure (λ i, l !! i)). simpl. eexists. split; [done|]. apply Forall_forall.
    intros r (x & Hx & Hr)%list_elem_of_omap. apply list_elem_of_fmap in Hx as (j & -> & _).
    by eapply lookup_ok.
  - eauto.
  - eexists. split; [done|]. apply (ho_history _ _ Ha).
Qed.

Lemma refresh_search_ok a :
  app_ok a → steps (refresh_search to_lowercase uni_alnum regex_new regex_is_match a).
Proof.
  intros (g & Eg & Hg & Ha). unfold refresh_search. rewrite Eg.
  assert (∃ scope, (match ss_scope_mode (search_state a) with
       | ScopeMode.Global => Some (Global, length (all_node_refs g))
       | ScopeMode.Context_ => candidates ← context_candidates a g; Some (Context_ candidates, length candidates)
       end) = Some scope ∧ Forall (ref_ok g) (scope_candidates g scope.1)) as (scope & -> & Hs).
  { destruct (ss_scope_mode (search_state a)).
    - destruct (context_candidates_ok a g Hg Ha) as (l & -> & Hl). by eexists.
    - eexists. split; [done|]. apply all_node_refs_ok. }
  simpl. destruct (search_total to_lowercase uni_alnum regex_new regex_is_match g
    (ss_query (search_state a)) scope.1 Hs) as (l & -> & Hl).
  simpl. apply steps_Some. exists g. split_and!; [done..|]. by apply handles_ok_search.
Qed.

Lemma set_search_ok a s :
  app_ok a → (∀ g, Forall (ref_ok g) (ss_results (search_state a)) → Forall (ref_ok g) (ss_results s)) →
  app_ok (set_search_state a s).
Proof.
  intros (g & Eg & Hg & Ha) Hs. exists g. split_and!; [done..|]. apply handles_ok_search; [done|].
  apply Hs, (ho_results _ _ Ha).
Qed.

Lemma edit_query_ok f a : app_ok a → app_ok (edit_query f a).
Proof. intros Ha. unfold edit_query. case_match; [done|]. by apply (set_search_ok a). Qed.

Lemma handle_search_key_ok a k :
  app_ok a → steps (handle_search_key to_lowercase uni_alnum regex_new regex_is_match a k).
Proof.
  intros Ha. unfold handle_search_key. destruct (is_interrupt k); [by apply steps_Some|].
  assert (Hsel : ∀ s i, ss_results (ss_select s i) = ss_results s) by done.
  destruct (ke_code k); try by apply steps_Some.
  - apply refresh_search_ok. by apply edit_query_ok.
  - apply steps_Some. by apply (set_search_ok a).
  - apply refresh_search_ok. by apply set_search_ok.
  - apply refresh_search_ok. by apply edit_query_ok.
  - apply steps_Some, set_search_ok; [done|]. unfold select_prev. by case_match.
  - apply steps_Some, set_search_ok; [done|]. unfold select_next. by case_match.
Qed.

(** *** All keys but a refresh *)

(** The key press that starts a refresh. *)
Definition refreshes (a : App) (k : KeyEvent) : bool :=
  match source_view a, input_mode a with
  | None, InputMode.Normal => is_char (ke_code k) 114 && negb (is_interrupt k)
  | _, _ => false
  end.

Lemma handle_normal_key_ok a k now :
  app_ok a → is_char (ke_code k) 114 = false ∨ is_interrupt k = true →
  steps (handle_normal_key iter_order read_to_string rebuild a k now).
Proof.
  intros Ha Hr. unfold handle_normal_key. destruct (is_interrupt k); [by apply steps_Some|].
  destruct Hr as [Hr|]; [|done].
  assert (Hs : steps (on_focused a (λ n, enter_source_view read_to_string a n now))).
  { apply on_focused_ok; [done|]. intros n Hn. by apply enter_source_view_ok. }
  assert (He : steps (on_focused a (λ n, request_editor a n now))).
  { apply on_focused_ok; [done|]. intros n Hn. by apply request_editor_ok. }
  assert (Hn : steps (Some (set_input_mode (set_search_state a search_new) (InputMode.Search "")))).
  { apply steps_Some. by apply (set_search_ok a). }
  pose proof (steps_Some _ (pop_ok a Ha)). pose proof (steps_Some _ (push_history_ok a Ha)).
  pose proof (nav_push_ok a Ha).
  pose proof (move_cursor_ok (λ max i, (i + 1) mod max) a Ha).
  pose proof (move_cursor_ok (λ max i, if i =? 0 then max - 1 else i - 1) a Ha).
  destruct (ke_code k) as [c| | | | | | | | |]; try by apply steps_Some.
  all: repeat case_match; try done; by apply steps_Some.
Qed.

Lemma handle_key_ok a k now :
  app_ok a → refreshes a k = false →
  steps (handle_key iter_order read_to_string rebuild to_lowercase uni_alnum regex_new regex_is_match a k now).
Proof.
  intros Ha. unfold handle_key, refreshes. destruct (source_view a) as [sv|] eqn:Es.
  - intros _. by apply steps_Some, handle_source_view_key_ok.
  - destruct (input_mode a).
    + intros Hr. apply handle_normal_key_ok; [done|]. apply andb_false_iff in Hr as [?|?%negb_false_iff]; auto.
    + intros _. by apply handle_search_key_ok.
Qed.

Lemma take_editor_request_ok a :
  app_ok a → ∃ a' loc, take_editor_request a = Some (a', loc) ∧ app_ok a'.
Proof.
  intros Ha. unfold take_editor_request.
  assert (Hok : app_ok (set_open_in_editor_request a None)) by (by apply set_editor_ok).
  destruct (open_in_editor_request a) as [n|] eqn:En; [|by do 2 eexists].
  destruct Ha as (g & Eg & Hg & Ha). rewrite Eg.
  destruct (node_source_location_total g n (ho_editor _ _ Ha n En)) as [loc ->]. by do 2 eexists.
Qed.
End Keys.

(** *** Moves and their inverses *)

(** The cursor is on an item, if the screen has any. *)
Definition cursor_ok (a : App) : Prop :=
  ∀ n, screen_item_count a = Some n → 0 < n → Screen.selected (trail_current (nav a)) < n.

Lemma set_nav_nav (a : App) : set_nav a (nav a) = a.
Proof. by destruct a. Qed.

Lemma item_count_select (a : App) f :
  screen_item_count (set_nav a (trail_set_current (nav a) (λ s, Screen.set_selected (f s) s)))
  = screen_item_count a.
Proof.
  unfold screen_item_count. simpl. rewrite trail_current_set. destruct (graph a); [|done].
  by destruct (trail_current (nav a)).
Qed.

(** A step forth and a step back that are inverse below [max]. *)
Lemma move_cursor_inverse (forth back : nat → nat → nat) (a : App) :
  (∀ max i, i < max → back max (forth max i) = i) →
  app_ok a → cursor_ok a → ∃ b, move_cursor forth a = Some b ∧ move_cursor back b = Some a.
Proof.
  intros Hinv Ha Hc. destruct (screen_item_count_total a Ha) as [max Hmax].
  unfold move_cursor at 1. rewrite Hmax. simpl. eexists. split; [done|]. unfold move_cursor.
  destruct (Nat.eqb_spec max 0) as [->|Hne]; [by rewrite Hmax|].
  rewrite item_count_select, Hmax. simpl. destruct (Nat.eqb_spec max 0); [done|].
  f_equal. rewrite trail_set_set, (trail_set_id (nav a) (_ ∘ _)); [by destruct a|].
  specialize (Hc max Hmax ltac:(lia)). simpl. destruct (trail_current (nav a)); simpl in *; by rewrite Hinv.
Qed.

Lemma down_up max i : i < max → (if (i + 1) mod max =? 0 then max - 1 else (i + 1) mod max - 1) = i.
Proof.
  intros Hi. destruct (decide (i + 1 = max)) as [<-|Hne].
  - rewrite Nat.Div0.mod_same. simpl. lia.
  - rewrite Nat.mod_small by lia. destruct (Nat.eqb_spec (i + 1) 0); lia.
Qed.

Lemma up_down max i : i < max → ((if i =? 0 then max - 1 else i - 1) + 1) mod max = i.
Proof.
  intros Hi. destruct (Nat.eqb_spec i 0) as [->|Hne].
  - replace (max - 1 + 1) with max by lia. apply Nat.Div0.mod_same.
  - rewrite Nat.mod_small by lia. lia.
Qed.

Lemma nav_push_trail (a b : App) :
  nav_push a = Some b → nav b = nav a ∨ ∃ s, nav b = trail_push (nav a) s.
Proof.
  assert (Hv : ∀ r, nav (visit_opt (set_scroll_offset a 0) r) = nav a
    ∨ ∃ s, nav (visit_opt (set_scroll_offset a 0) r) = trail_push (nav a) s).
  { intros [r|]; simpl; eauto. }
  unfold nav_push. simpl. destruct (graph a) as [g|]; [|intros [= <-]; eauto].
  destruct (trail_current (nav a)).
  - intros [= <-]. case_match; [|done]. repeat case_match; simpl; eauto.
  - intros (e & _ & ->)%fmap_Some. apply Hv.
  - intros [= <-]. apply Hv.
  - intros [= <-]. apply Hv.
Qed.

(** Moving around is undone by moving back: with the cursor on an item, down
    then up and up then down return to the same state, wrapping at the ends,
    and leaving a screen entered with Enter returns to the trail as it was. *)
Theorem moves_are_undone (a : App) :
  app_ok a → cursor_ok a →
  (∃ b, nav_cursor_down a = Some b ∧ nav_cursor_up b = Some a)
  ∧ (∃ b, nav_cursor_up a = Some b ∧ nav_cursor_down b = Some a)
  ∧ (∃ b, nav_push a = Some b ∧ app_ok b ∧ (nav b = nav a ∨ trail_pop (nav b) = (nav a, true))).
Proof.
  intros Ha Hc. split_and!.
  - apply move_cursor_inverse; [apply down_up|done|done].
  - apply move_cursor_inverse; [apply up_down|done|done].
  - destruct (nav_push_ok a Ha) as (b & Eb & Hb). exists b. split_and!; [done..|].
    destruct (nav_push_trail a b Eb) as [->|(s & ->)]; [by left|right; apply trail_pop_push].
Qed.
End Ok.

(** An inspector on a two-test suite, its cursor on the only mark. *)
Definition sample_app : option (@InspectApp unit) :=
  g ← phase1_graph id sample_tests []; with_progressive_loading id g None 30 "/r" None 0.

Lemma moves_are_undone_witness :
  ∃ a b, sample_app = Some a ∧ nav_push a = Some b ∧ trail_pop (nav b) = (nav a, true).
Proof.
  destruct (phase1_graph_total id (λ l, reflexivity l) sample_tests []) as (g & Eg & Hg & _).
  destruct (with_progressive_loading_ok id g None 30 "/r" (None : option unit) 0 Hg) as (a & Ea & Ha).
  assert (Hc : cursor_ok a).
  { vm_compute in Eg. injection Eg as <-. vm_compute in Ea. injection Ea as <-.
    intros n Hn _. vm_compute in Hn. injection Hn as <-. vm_compute. lia. }
  destruct (moves_are_undone a Ha Hc) as (_ & _ & b & Eb & _ & [Hb|Hb]).
  - vm_compute in Eg. injection Eg as <-. vm_compute in Ea. injection Ea as <-.
    vm_compute in Eb. injection Eb as <-. by vm_compute in Hb.
  - exists a, b. unfold sample_app. rewrite Eg. cbn [mbind option_bind]. rewrite Ea. split; [reflexivity|]. split; [exact Eb|exact Hb].
Defined.
