(* ===== verification/Startup.v ===== *)
(** * Startup: what the inspector starts from ([src/inspect/mod.rs])

    The first graph, built from the syntax trees of the files the arguments keep;
    the background thread that asks a Python session for fixtures and plugins; the
    application both lead to; and the rebuilding a refresh does.  The answers of
    Python are functions of the calls before them. *)
From S2P Require Import Prelude Collections Text Types Query Cache Filter Config Setup Ast Prescan Collect Affected QueryRun PyBridge Graph Builder Explore Inspect.

Record RefreshArgs := { ra_inspect_args : InspectArgs; ra_config : Config }.

Section Startup.
(** The walk over the test paths, git, and the Python parser. *)
Context {glob globset glob_error : Type} (glob_new : string → result glob glob_error)
  (set_build : list glob → result globset glob_error) (is_match : globset → string → bool).
Context (is_file : string → bool) (canonicalize : string → option string) (exists_ : string → bool).
Context (walk : string → bool → list string → list found_entry).
Context (git : list string → string → result Output string) (imports : string → gset string).
Context (suite_parse : string → string → result (list Stmt.t) ParseError)
  (read_to_string : string → result string string).
(** Character classes, regular expressions, lower case, and the order of a hash map. *)
Context (uni_alnum : N → bool) {regex : Type} (regex_new : string → result regex string)
  (regex_is_match : regex → string → bool) (to_lowercase : string → string).
Context (iter_order : list (nat * list string) → list (nat * list string)).
(** [TestCache::load] *)
Context (load_cache : string → TestCache).

(** ** Phase 1 *)

(** Step 1: the files [--affected] keeps; all of them when it fails or when the
    configuration changed. *)
Definition affected_files (args : InspectArgs) (cfg : Config) (test_files : list string) : list string :=
  match fa_affected (ia_filter args) with
  | None => test_files
  | Some raw =>
      let base := if String.eqb raw "" then affected_base (filter_cfg cfg) else raw in
      match filter_affected_test_files canonicalize git imports test_files (Config.rootdir cfg) base with
      | Ok (Some files) => files
      | Ok None | Err _ => test_files
      end
  end.

(** Step 3: [-E]. *)
Definition matching_tests (args : InspectArgs) (entries : list QueryEntry) : result (list QueryEntry) DslError :=
  match fa_expression (ia_filter args) with
  | None => Ok entries
  | Some s =>
      let? tokens := lex uni_alnum s in
      let? e := parse regex_new tokens in
      Ok (List.filter (eval regex_is_match e) entries)
  end.

(** Step 4: [--lf]. *)
Definition failed_tests (args : InspectArgs) (cfg : Config) (entries : list QueryEntry) : list QueryEntry :=
  match failed_resolve (ia_failed_filter args) with
  | Some Only =>
      let failed_ids := last_failed_ids (load_cache (Config.rootdir cfg)) in
      List.filter (λ e, match entry_get e "name" with
                        | Some name => bool_decide (name ∈ failed_ids)
                        | None => false
                        end) entries
  | _ => entries
  end.

Definition phase1_entries (args : InspectArgs) (cfg : Config) (test_files : list string)
    : result (list QueryEntry * list QueryEntry) DslError :=
  let files := affected_files args cfg test_files in
  let '(tests, marks) :=
    extract_test_and_mark_entries suite_parse read_to_string files (registered_markers (marker_cfg cfg)) in
  let? tests := matching_tests args tests in
  Ok (failed_tests args cfg tests, marks).

(** [None] inside is a panic of the builder. *)
Definition build_phase1_graph (args : InspectArgs) (cfg : Config) (test_files : list string)
    : result (option InspectGraph) DslError :=
  let? p := phase1_entries args cfg test_files in
  Ok (phase1_graph iter_order p.1 p.2).

(** ** Phase 2 *)

Record Phase2Args := mk_phase2_args {
  pa_test_files : list string;
  pa_plugins : list string;
  pa_plugin_settings : gmap string toml;
  pa_rootdir : string;
  pa_cfg : Config
}.

Definition phase2_args (cfg : Config) (test_files : list string) : Phase2Args :=
  mk_phase2_args test_files (plugins (features cfg)) (plugin_settings (features cfg)) (Config.rootdir cfg) cfg.

(** The session, and what the query bridge answers once it knows the declarations. *)
Context (show_err : PyErr → string).
Context (new_session : string → result unit PyErr) (load_plugins : list string → gmap string toml → result unit PyErr).
Context (py : Bridge) (call_fixtures call_plugins : list py_call → result PyObj PyErr)
  (call_deps call_autouse : list py_call → list string → result PyObj PyErr).

Definition said {A} (r : result A PyErr) : result A string := map_err show_err r.

Definition phase2_data (args : Phase2Args) : result Phase2Data string :=
  let? _ := said (new_session (pa_rootdir args)) in
  let? _ := match pa_plugins args with
            | [] => Ok tt
            | l => said (load_plugins l (pa_plugin_settings args))
            end in
  let '(tree_root, provenance) := tree_root_of glob_new set_build is_match is_file canonicalize walk (pa_cfg args) in
  match register_declaration_homes_for_files py suite_parse read_to_string exists_ [] tree_root provenance
          (pa_test_files args) with
  | (Some e, _) => Err (show_collect_error e)
  | (None, calls) =>
      let? fixtures := said (registry_entries (call_fixtures calls)) in
      let? plugins := said (registry_entries (call_plugins calls)) in
      let? deps := said (file_entries (call_deps calls) (pa_test_files args)) in
      let? autouse := said (file_entries (call_autouse calls) (pa_test_files args)) in
      Ok (mk_phase2 (map Build_QueryEntry fixtures) (map Build_QueryEntry autouse) (map Build_QueryEntry plugins)
            (map Build_QueryEntry deps))
  end.

(** What the receiver reads once the thread has ended. *)
Definition spawn_phase2 (args : Phase2Args) : TryRecv.t :=
  match phase2_data args with Ok data => TryRecv.Data data | Err _ => TryRecv.Disconnected end.

(** ** The application *)

Inductive StartError := GlobFailed (e : glob_error) | BadExpression (e : DslError).

(** The application [run] enters its event loop with, and what the background
    thread will have sent.  [None] is a panic. *)
Definition start_inspector (args : InspectArgs) (cfg : Config) (now : nat)
    : result (option (@InspectApp RefreshArgs) * TryRecv.t) StartError :=
  let? test_files := map_err GlobFailed (collect_files glob_new set_build is_match is_file canonicalize walk cfg) in
  let recv := spawn_phase2 (phase2_args cfg test_files) in
  let? g := map_err BadExpression (build_phase1_graph args cfg test_files) in
  Ok (g ← g;
      with_progressive_loading to_lowercase (relativize_paths g (Config.rootdir cfg)) (ia_name args)
        (Z.to_nat (inspect_timeout_secs (exec cfg))) (Config.rootdir cfg)
        (Some {| ra_inspect_args := args; ra_config := cfg |}) now, recv).

(** What a refresh finds ([InspectApp::refresh]). *)
Definition rebuild (r : RefreshArgs) : Rebuild :=
  match collect_files glob_new set_build is_match is_file canonicalize walk (ra_config r) with
  | Err _ => CollectError
  | Ok test_files =>
      match phase1_entries (ra_inspect_args r) (ra_config r) test_files with
      | Err _ => BuildError
      | Ok (tests, marks) => Rebuilt tests marks
      end
  end.
End Startup.

(** * Theorems *)

(** ** What phase 1 knows of a test *)

(** The fields of an extracted test. *)
Definition test_fields : list string := ["name"; "source"; "async"; "mark"].

Lemma make_test_entry_fields file fn class async marks name :
  name ∉ test_fields → entry_get (make_test_entry file fn class async marks) name = None.
Proof.
  intros Hn. unfold test_fields in Hn. unfold entry_get, make_test_entry. simpl.
  rewrite !lookup_insert_ne, lookup_singleton_ne by set_solver. done.
Qed.

(** [e] with every predicate but those four taken as false. *)
Fixpoint instant {regex} (is_match : regex → string → bool) (e : @Expr regex) (entry : QueryEntry) : bool :=
  match e with
  | EAnd a b => instant is_match a entry && instant is_match b entry
  | EOr a b => instant is_match a entry || instant is_match b entry
  | ENot inner => negb (instant is_match inner entry)
  | Predicate name m => bool_decide (name ∈ test_fields) && eval is_match (Predicate name m) entry
  end.

Lemma eval_instant {regex} (is_match : regex → string → bool) e file fn class async marks :
  eval is_match e (make_test_entry file fn class async marks) =
    instant is_match e (make_test_entry file fn class async marks).
Proof.
  induction e as [name m|a IHa b IHb|a IHa b IHb|a IHa]; cbn [instant]; [|by cbn [eval]; rewrite ?IHa, ?IHb..].
  case_bool_decide as Hn; [done|]. cbn [eval]. by rewrite make_test_entry_fields.
Qed.

(** No path of a file and no name of a test or class of it has a bracket. *)
Definition bracket_free (parse : string → option (string * list Stmt.t)) (files : list string) : Prop :=
  ∀ file src stmts def class, file ∈ files → parse file = Some (src, stmts) → (def, class) ∈ walk_test_defs stmts →
    contains "[" file = false ∧ contains "[" (def_name def) = false ∧
    ∀ c, class = Some c → contains "[" (cls_name c) = false.

Lemma test_entry_name file fn class async marks :
  contains "[" file = false → contains "[" fn = false → (∀ c, class = Some c → contains "[" c = false) →
  ∃ n, entry_get (make_test_entry file fn class async marks) "name" = Some n ∧ contains "[" n = false.
Proof.
  intros Hfile Hfn Hc. eexists. split; [by unfold entry_get, make_test_entry; simpl; simplify_map_eq|].
  destruct class as [c|]; rewrite !contains_char_app, Hfile, Hfn; [by rewrite (Hc c)|done].
Qed.

Section Theorems.
Context (suite_parse : string → string → result (list Stmt.t) ParseError)
  (read_to_string : string → result string string).
Abbreviation extracted := (extract_test_and_mark_entries suite_parse read_to_string).

Lemma extracted_test e files registered :
  e ∈ (extracted files registered).1 → ∃ file src stmts def class,
    file ∈ files ∧ parse_file suite_parse read_to_string file = Some (src, stmts) ∧
    (def, class) ∈ walk_test_defs stmts ∧
    e = make_test_entry file (def_name def) (cls_name <$> class) (def_is_async def)
          (collect_fn_marks (def_decorator_list def)).
Proof.
  unfold extract_test_and_mark_entries. generalize (seed_markers registered).
  set (P := λ x : QueryEntry, ∃ file src stmts def class, file ∈ files ∧
    parse_file suite_parse read_to_string file = Some (src, stmts) ∧ (def, class) ∈ walk_test_defs stmts ∧
    x = make_test_entry file (def_name def) (cls_name <$> class) (def_is_async def)
          (collect_fn_marks (def_decorator_list def))).
  assert (∀ l, l ⊆ files → ∀ acc : list QueryEntry, (∀ x, x ∈ acc → P x) → ∀ m,
    e ∈ (let '(tests, m) := fold_left (λ '(tests, m) '(file, file_tests, marks),
      (tests ++ file_tests, fold_left (add_source file) marks m)) (omap (parsed_file suite_parse read_to_string) l)
      (acc, m) in (tests, mark_entries_of m)).1 → P e) as H; [|by intros m; apply H; [|set_solver]].
  induction l as [|file l IH]; intros Hl acc Hacc m; csimpl; [apply Hacc|].
  unfold parsed_file at 1. destruct (parse_file _ _ _) as [[src stmts]|] eqn:Ep; csimpl; [|apply IH; set_solver].
  apply IH; [set_solver|]. intros x [Hx|Hx]%elem_of_app; [by apply Hacc|]. unfold file_test_entries in Hx.
  apply list_elem_of_fmap in Hx as ([def class] & -> & Hd). exists file, src, stmts, def, class. set_solver.
Qed.
End Theorems.

Section Filters.
Context (canonicalize : string → option string).
Context (git : list string → string → result Output string) (imports : string → gset string).
Context (suite_parse : string → string → result (list Stmt.t) ParseError)
  (read_to_string : string → result string string).
Context (uni_alnum : N → bool) {regex : Type} (regex_new : string → result regex string)
  (regex_is_match : regex → string → bool).
Context (load_cache : string → TestCache).
Abbreviation entries_of := (phase1_entries canonicalize git imports suite_parse read_to_string uni_alnum regex_new
  regex_is_match load_cache).

(** The tests of the first graph come from the files kept. *)
Lemma phase1_tests args cfg files tests marks :
  entries_of args cfg files = Ok (tests, marks) →
  ∃ l, matching_tests uni_alnum regex_new regex_is_match args
         (extract_test_and_mark_entries suite_parse read_to_string (affected_files canonicalize git imports args cfg files)
            (registered_markers (marker_cfg cfg))).1 = Ok l ∧ tests = failed_tests load_cache args cfg l.
Proof.
  unfold phase1_entries. destruct (extract_test_and_mark_entries _ _ _ _) as [ts ms]. simpl.
  destruct (matching_tests _ _ _ _ _) as [l|e]; simpl; [|done]. intros [= <- <-]. eauto.
Qed.

Lemma phase1_matching args cfg files l :
  matching_tests uni_alnum regex_new regex_is_match args
    (extract_test_and_mark_entries suite_parse read_to_string (affected_files canonicalize git imports args cfg files)
       (registered_markers (marker_cfg cfg))).1 = Ok l →
  ∃ marks, entries_of args cfg files = Ok (failed_tests load_cache args cfg l, marks).
Proof.
  unfold phase1_entries. destruct (extract_test_and_mark_entries _ _ _ _) as [ts ms]. cbn [fst].
  intros ->. by exists ms.
Qed.

(** C25: The inspector's filters see less of a test than those of a run.  An
    expression that lexes and parses is never refused, whatever its predicates,
    and of the tests found in the files it keeps exactly those that satisfy it
    when every predicate but the name, the source, the mark and whether the test
    is async is false; so one that is such a predicate, as [uses] or a
    misspelled one, keeps no test.  And when no path, class or test name has a
    bracket and every id that failed has one, as the ids of parametrised tests
    do, [--lf] keeps no test, with any expression that parses or none. *)
Theorem inspector_filters_lose_tests args cfg files :
  let found := (extract_test_and_mark_entries suite_parse read_to_string
    (affected_files canonicalize git imports args cfg files) (registered_markers (marker_cfg cfg))).1 in
  (∀ s e, fa_expression (ia_filter args) = Some s → compile uni_alnum regex_new s = Ok e →
     ∃ marks, entries_of args cfg files =
       Ok (failed_tests load_cache args cfg (List.filter (instant regex_is_match e) found), marks)) ∧
  (∀ s name m, fa_expression (ia_filter args) = Some s → compile uni_alnum regex_new s = Ok (Predicate name m) →
     name ∉ test_fields → ∃ marks, entries_of args cfg files = Ok ([], marks)) ∧
  (failed_resolve (ia_failed_filter args) = Some Only →
   bracket_free (parse_file suite_parse read_to_string) (affected_files canonicalize git imports args cfg files) →
   (∀ id, id ∈ last_failed_ids (load_cache (Config.rootdir cfg)) → contains "[" id = true) →
   (∀ s, fa_expression (ia_filter args) = Some s → ∃ e, compile uni_alnum regex_new s = Ok e) →
   ∃ marks, entries_of args cfg files = Ok ([], marks)).
Proof.
  intros found.
  assert (∀ s e, fa_expression (ia_filter args) = Some s → compile uni_alnum regex_new s = Ok e →
     ∃ marks, entries_of args cfg files =
       Ok (failed_tests load_cache args cfg (List.filter (instant regex_is_match e) found), marks)) as Hexpr.
  { intros s e Hs Hc. apply phase1_matching. unfold matching_tests. rewrite Hs. unfold compile in Hc.
    destruct (lex uni_alnum s) as [ts|]; [|done]. cbn [result_bind] in *. rewrite Hc. cbn [result_bind]. f_equal.
    apply List.filter_ext_in. intros x Hx%list_elem_of_In. destruct (extracted_test _ _ _ _ _ Hx) as (? & ? & ? & ? & ? & _ & _ & _ & ->).
    apply eval_instant. }
  split_and!; [exact Hexpr| |].
  - intros s name m Hs Hc Hn. destruct (Hexpr s _ Hs Hc) as [marks ->]. exists marks. do 2 f_equal.
    rewrite filter_none; [unfold failed_tests; by repeat case_match|]. intros x _. cbn [instant].
    by rewrite bool_decide_eq_false_2.
  - intros Hr Hb Hf Hs.
    assert (∀ l, (∀ x, x ∈ l → x ∈ found) → failed_tests load_cache args cfg l = []) as Hnone.
    { intros l Hl. unfold failed_tests. rewrite Hr. apply filter_none. intros x Hx.
      destruct (extracted_test _ _ _ _ _ (Hl x Hx)) as (file & src & stmts & def & class & Hfile & Hp & Hd & ->).
      destruct (Hb _ _ _ _ _ Hfile Hp Hd) as (H1 & H2 & H3).
      destruct (test_entry_name file (def_name def) (cls_name <$> class) (def_is_async def)
        (collect_fn_marks (def_decorator_list def)) H1 H2) as (n & -> & Hn).
      { intros c (c' & -> & ->)%fmap_Some. by apply H3. }
      apply bool_decide_eq_false. intros Hid%Hf. congruence. }
    destruct (fa_expression (ia_filter args)) as [s|] eqn:Es.
    + destruct (Hs s eq_refl) as [e He]. destruct (Hexpr s e eq_refl He) as [marks ->]. exists marks.
      rewrite Hnone; [done|]. by intros x [? _]%filter_elem.
    + destruct (phase1_matching args cfg files found) as [marks ->]; [unfold matching_tests; by rewrite Es|].
      exists marks. by rewrite Hnone.
Qed.
End Filters.

(** ** The inspector always starts *)

Section Start.
Context {glob globset glob_error : Type} (glob_new : string → result glob glob_error)
  (set_build : list glob → result globset glob_error) (is_match : globset → string → bool).
Context (is_file : string → bool) (canonicalize : string → option string) (exists_ : string → bool).
Context (walk : string → bool → list string → list found_entry).
Context (git : list string → string → result Output string) (imports : string → gset string).
Context (suite_parse : string → string → result (list Stmt.t) ParseError)
  (read_to_string : string → result string string).
Context (uni_alnum : N → bool) {regex : Type} (regex_new : string → result regex string)
  (regex_is_match : regex → string → bool) (to_lowercase : string → string).
Context (iter_order : list (nat * list string) → list (nat * list string)) (Hperm : ∀ l, iter_order l ≡ₚ l).
Context (load_cache : string → TestCache) (show_err : PyErr → string).
Context (new_session : string → result unit PyErr) (load_plugins : list string → gmap string toml → result unit PyErr).
Context (py : Bridge) (call_fixtures call_plugins : list py_call → result PyObj PyErr)
  (call_deps call_autouse : list py_call → list string → result PyObj PyErr).

Abbreviation starts := (start_inspector glob_new set_build is_match is_file canonicalize exists_ walk git imports
  suite_parse read_to_string uni_alnum regex_new regex_is_match to_lowercase iter_order load_cache show_err
  new_session load_plugins py call_fixtures call_plugins call_deps call_autouse).
Abbreviation data_of := (phase2_data glob_new set_build is_match is_file canonicalize exists_ walk suite_parse
  read_to_string show_err new_session load_plugins py call_fixtures call_plugins call_deps call_autouse).
Abbreviation files_of := (collect_files glob_new set_build is_match is_file canonicalize walk).

Lemma merge_phase2_keeps_phase {D} (a : @InspectApp D) data a' : merge_phase2 iter_order a data = Some a' → phase2 a' = phase2 a.
Proof.
  unfold merge_phase2. destruct (graph a) as [g|].
  - destruct (merge_graph _ _ _ _); [|done]. simpl. intros [= <-]. by destruct (trail_current _).
  - simpl. intros [= <-]. by destruct (trail_current _).
Qed.

End Start.

(** ** A project with one test that failed for two of its parameters *)

Definition inspect_args (expression : option string) (lf : bool) : InspectArgs := {|
  ia_name := None;
  ia_filter := {| fa_expression := expression; fa_affected := None |};
  ia_failed_filter := {| ff_failed := None; ff_lf := lf; ff_ff := false |}
|}.

Definition failing_cache : TestCache :=
  mk_cache (mk_file CACHE_VERSION
    {["/p/test_a.py::test_a[x]" := Cache.mk_entry F64.f64_zero 0 (Some OutcomeKind.Failed) 0]} ∅) false.

Abbreviation demo_entries args := (phase1_entries (λ p, Some p) (λ _ _, Err "no git") (λ _, ∅) demo_tree demo_source
  (λ _, false) (λ s, Ok s) String.eqb (λ _, failing_cache) args config_default ["/p/test_a.py"]).

Lemma inspector_filters_lose_tests_witness :
  demo_entries (inspect_args None false)
    = Ok ([make_test_entry "/p/test_a.py" "test_a" None false []], []) ∧
  demo_entries (inspect_args (Some "not uses(db)") false)
    = Ok ([make_test_entry "/p/test_a.py" "test_a" None false []], []) ∧
  (∃ marks, demo_entries (inspect_args (Some "uses(db)") false) = Ok ([], marks)) ∧
  ∃ marks, demo_entries (inspect_args None true) = Ok ([], marks).
Proof.
  split; [by vm_compute|]. split; [|split].
  - destruct (inspector_filters_lose_tests (λ p, Some p) (λ _ _, Err "no git") (λ _, ∅) demo_tree demo_source
      (λ _, false) (λ s, Ok s) String.eqb (λ _, failing_cache) (inspect_args (Some "not uses(db)") false)
      config_default ["/p/test_a.py"]) as [H _].
    destruct (H "not uses(db)" (ENot (Predicate "uses" (MContains "db"))) eq_refl) as [marks E]; [by vm_compute|].
    assert (marks = []) as -> by (vm_compute in E; by injection E). rewrite E. by vm_compute.
  - destruct (inspector_filters_lose_tests (λ p, Some p) (λ _ _, Err "no git") (λ _, ∅) demo_tree demo_source
      (λ _, false) (λ s, Ok s) String.eqb (λ _, failing_cache) (inspect_args (Some "uses(db)") false)
      config_default ["/p/test_a.py"]) as [_ [H _]].
    apply (H "uses(db)" "uses" (MContains "db") eq_refl); [by vm_compute|set_solver].
  - destruct (inspector_filters_lose_tests (λ p, Some p) (λ _ _, Err "no git") (λ _, ∅) demo_tree demo_source
      (λ _, false) (λ s, Ok s) String.eqb (λ _, failing_cache) (inspect_args None true)
      config_default ["/p/test_a.py"]) as [_ [_ H]].
    apply H; [done| | |done].
    + intros file src stmts def class Hfile Hp Hd.
      assert (file = "/p/test_a.py") as -> by (by apply list_elem_of_singleton in Hfile).
      vm_compute in Hp. injection Hp as <- <-. vm_compute in Hd.
      apply list_elem_of_singleton in Hd. injection Hd as -> ->. by vm_compute.
    + intros id Hid. assert (id = "/p/test_a.py::test_a[x]") as ->; [|by vm_compute].
      unfold last_failed_ids in Hid. apply elem_of_dom in Hid as [v Hv].
      apply map_lookup_filter_Some in Hv as [Hv _]. simpl in Hv. by apply lookup_singleton_Some in Hv as [<- _].
Defined.

(** The session of the project answers with one fixture. *)
Definition answering (entries : list (list (string * string))) : result PyObj PyErr :=
  Ok (PyList (map (λ e, PyDict (map (λ p, (PyStr p.1, PyStr p.2)) e)) entries)).

Definition inspected_file (_ : string) (_ : bool) (_ : list string) : list found_entry :=
  [{| fe_path := Some "/p/test_a.py"; fe_name := "test_a.py"; fe_is_file := Some true |}].

