(* ===== verification/View.v ===== *)
(** * View: what the inspector draws ([src/inspect/ui.rs])

    The contents of every pane and bar, the pane widths, the scroll position
    and the frame they make up.  Terminal set-up, and how [ratatui] lays a
    paragraph out in its rectangle, are not modelled.  [None] is a panic.

    Widths and offsets are [u16] values in [Z].  Release builds wrap on
    overflow; the wrap is written out where the code can reach it.  Pane widths
    go through [f32] ([F32]). *)
From Stdlib Require Import Ascii ZArith.
From stdpp Require Import pretty.
From S2P Require Import Prelude Collections Text Query F64 F32 Graph Builder Explore Detail Inspect.

(** ** Pane widths *)

Definition adaptive_layout (width : Z) (preview_line_count : nat) : Z * Z :=
  if (width <? 80)%Z then (width, 0%Z)
  else
    let min_left := percent_of 30 width in
    let max_left := percent_of 55 width in
    let min_right := percent_of 30 width in
    let left :=
      if preview_line_count <? 10 then Z.min max_left (width - min_right)
      else if 20 <? preview_line_count then Z.max (width - percent_of 62 width) min_left
      else (width / 2)%Z in
    (left, (width - left)%Z).

(** ** Rows of the test list *)

Inductive TestRow :=
| Standalone (index : nat)
| GroupHeader (base_name : string) (indices : list nat)
| Variant (index : nat).

Definition test_row (expanded : gset string) (st : list TestRow * gset string) (p : nat * TestNode)
    : list TestRow * gset string :=
  let '(rows, seen) := st in
  let '(idx, test) := p in
  if 1 <? tn_param_count test then
    let base := base_test_name (tn_node_id test) in
    if bool_decide (base ∈ seen) then (rows, seen)
    else
      let all_indices := sort_by Nat.compare (idx :: tn_variants test) in
      (rows ++ GroupHeader base all_indices
            :: (if bool_decide (base ∈ expanded) then map Variant all_indices else []),
       {[base]} ∪ seen)
  else (rows ++ [Standalone idx], seen).

Definition build_test_rows (g : InspectGraph) (expanded : gset string) : list TestRow :=
  (fold_left (test_row expanded) (imap pair (g_tests g)) ([], ∅)).1.

(** ** Panes *)

Definition cursor_style : Style := mk_style (Some Color.Black) (Some Color.Cyan) false.
Definition colored (c : Color.t) (s : string) : Line := SpanLine [mk_span s (fg c)].

(** A selectable row of the overview or of a node's edges. *)
Definition item_line (on_cursor : bool) (text : string) : Line :=
  if on_cursor then SpanLine [mk_span ("› " +:+ text) cursor_style] else TextLine ("  " +:+ text).

(** The accumulator of [build_overview_content]: the lines so far, the number
    of items, and the line the cursor is on. *)
Definition pane_state : Type := list Line * nat * option nat.

Definition push_item (selected : nat) (st : pane_state) (text : string) : pane_state :=
  let '(lines, cursor, at_line) := st in
  let hit := cursor =? selected in
  (lines ++ [item_line hit text], S cursor, if hit then Some (length lines) else at_line).

Definition push_line (st : pane_state) (l : Line) : pane_state :=
  let '(lines, cursor, at_line) := st in (lines ++ [l], cursor, at_line).

Definition push_items (selected : nat) (title : string) (items : list string) (st : pane_state) : pane_state :=
  fold_left (push_item selected) items (push_line st (colored Color.Yellow title)).

Definition gravity_text (e : SectionEntry) : string :=
  "  F  " +:+ se_name e +:+ " (" +:+ pretty (se_count e) +:+ " consumers)".
Definition mark_text (e : SectionEntry) : string :=
  "  M  " +:+ se_name e +:+ " (" +:+ pretty (se_count e) +:+ " tests)".
Definition declaration_text (e : SectionEntry) : string :=
  "  " +:+ NodeKind.sigil NodeKind.Declaration +:+ "  " +:+ se_name e +:+ " ("
  +:+ pretty (se_count e) +:+ " fixtures)".
Definition signal_text (s : Signal) : string := "  ⚠  " +:+ sg_message s.

(** [if !lines.is_empty() { lines.push("") }] *)
Definition blank_between (st : pane_state) : pane_state :=
  if nil_b st.1.1 then st else push_line st (TextLine "").

Definition build_overview_content (s : OverviewSections) (selected : nat) (loading : bool)
    : list Line * option nat :=
  let st : pane_state := ([], 0, None) in
  let st := if nil_b (gravity s) then st
            else push_line (push_items selected " Fixture Gravity" (map gravity_text (gravity s)) st) (TextLine "") in
  let st := if nil_b (ov_marks s) then st
            else push_line (push_items selected " Marks" (map mark_text (ov_marks s)) st) (TextLine "") in
  let st := if nil_b (ov_declarations s) then st
            else push_items selected " Declarations" (map declaration_text (ov_declarations s)) st in
  let st := if negb (nil_b (ov_signals s))
            then push_items selected " Signals" (map signal_text (ov_signals s)) (blank_between st)
            else if loading then push_line (blank_between st) (colored Color.DarkGray " Signals  ⏳")
            else st in
  let st := if nil_b st.1.1
            then push_line st (if loading then colored Color.DarkGray " Loading..."
                               else TextLine " No data loaded")
            else st in
  (st.1.1, st.2).

Definition edge_text (g : InspectGraph) (r : NodeRef) : option string :=
  (λ name, "  " +:+ NodeKind.sigil (nr_kind r) +:+ "  " +:+ name) <$> node_name g r.

(** The rows of the "Related" section; [edge_node_at] finds every index below
    the count. *)
Definition related_rows (g : InspectGraph) (node : NodeRef) (selected count : nat) : option (list Line) :=
  found ← mapM (λ i, e ← edge_node_at g node i;
                     match e with
                     | Some r => text ← edge_text g r; Some (Some (item_line (i =? selected) text))
                     | None => Some None
                     end) (seq 0 count);
  Some (omap id found).

Definition build_node_focus_content (g : InspectGraph) (node : NodeRef) (selected : nat)
    (state : FixtureDataState.t) : option (list Line * option nat) :=
  lines ← render_detail g (Some node) state;
  count ← selectable_edge_count g node;
  if 0 <? count then
    let lines := lines ++ [TextLine ""; colored Color.Yellow "  Related"] in
    rows ← related_rows g node selected count;
    Some (lines ++ rows, if selected <? count then Some (length lines + selected) else None)
  else Some (lines, None).

Definition ref_row (g : InspectGraph) (selected idx : nat) (r : NodeRef) : option Line :=
  name ← node_name g r;
  let text := " " +:+ NodeKind.sigil (nr_kind r) +:+ "  " +:+ name in
  Some (if idx =? selected then SpanLine [mk_span text cursor_style] else TextLine text).

Definition ref_rows (g : InspectGraph) (refs : list NodeRef) (selected : nat) : option (list Line) :=
  mapM (λ p, ref_row g selected p.1 p.2) (imap pair refs).

Definition build_disambiguation_content (g : InspectGraph) (matches : list NodeRef) (selected : nat)
    : option (list Line * option nat) :=
  lines ← ref_rows g matches selected;
  Some (lines, if nil_b matches then None else Some selected).

Definition build_history_content (g : InspectGraph) (history : list NodeRef) (selected : nat)
    : option (list Line * option nat) :=
  if length history =? 0 then Some ([TextLine " No history yet"], None)
  else lines ← ref_rows g history selected; Some (lines, Some selected).

Section Draw.
Context {refresh_data : Type}.
Abbreviation App := (@InspectApp refresh_data).

Definition build_left_pane (a : App) : option (list Line * option nat) :=
  match graph a with
  | Some g =>
      if negb (graph_is_empty g) || is_loading a then
        match trail_current (nav a) with
        | Screen.Overview selected =>
            Some (build_overview_content (overview_sections a) selected (is_loading a))
        | Screen.NodeFocus node selected =>
            build_node_focus_content g node selected (fixture_data_state a)
        | Screen.Disambiguation _ matches selected => build_disambiguation_content g matches selected
        | Screen.History selected => build_history_content g (history a) selected
        end
      else Some ([TextLine "No data loaded"], None)
  | None => Some ([TextLine "No data loaded"], None)
  end.

Definition wrap16 (z : Z) : Z := (z mod 65536)%Z.

Definition scrolled (scroll cursor_line viewport_height : Z) : Z :=
  let visible := Z.max (viewport_height - 2) 0 in
  if (visible =? 0)%Z then scroll
  else if (cursor_line <? scroll)%Z then cursor_line
  else if (wrap16 (scroll + visible) <=? cursor_line)%Z then wrap16 (cursor_line - visible + 1)
  else scroll.

Definition update_scroll (a : App) (viewport_height : Z) : option App :=
  pane ← build_left_pane a;
  Some match pane.2 with
       | None => a
       | Some line => set_scroll_offset a (scrolled (scroll_offset a) (wrap16 (Z.of_nat line)) viewport_height)
       end.

Definition build_preview_content (a : App) : option (list Line) :=
  match graph a with
  | None => Some [TextLine "No data loaded"]
  | Some g =>
      lines ← (match trail_current (nav a) with
               | Screen.Overview selected =>
                   match node_ref_at (overview_sections a) selected with
                   | Some r => render_preview g r
                   | None => Some [TextLine "Select an item to preview"]
                   end
               | Screen.NodeFocus node selected =>
                   e ← edge_node_at g node selected;
                   match e with Some r => render_preview g r | None => render_preview g node end
               | Screen.Disambiguation _ matches selected =>
                   match matches !! selected with
                   | Some r => render_preview g r
                   | None => Some [TextLine "Select a match to preview"]
                   end
               | Screen.History selected =>
                   match history a !! selected with
                   | Some r => render_preview g r
                   | None => Some [TextLine " No history yet"]
                   end
               end);
      Some (lines ++ (if is_loading a
                      then [TextLine ""; colored Color.DarkGray "Loading fixture and plugin data..."]
                      else []))
  end.

Definition build_breadcrumb (a : App) : option Line :=
  crumbs ← (match graph a with
            | Some g => breadcrumb (nav a) g
            | None => Some [("○", "overview")]
            end);
  let text := join " › " (map (λ c, c.1 +:+ " " +:+ c.2) crumbs) in
  let text := match source_view a with Some _ => text +:+ " › source" | None => text end in
  Some (colored Color.DarkGray (" " +:+ text)).

(** ** The footer *)

Definition key (k : string) : Span := mk_span k (fg Color.Yellow).

Definition common_hints : list Span :=
  [key " q"; raw " Quit  "; key "/"; raw " Search  "; key "?"; raw " Help  "; key "j/k"; raw " Navigate  "].

Definition has_source (a : App) : option bool :=
  match trail_current (nav a), graph a with
  | Screen.NodeFocus node _, Some g =>
      loc ← node_source_location g node; Some (match loc with Some _ => true | None => false end)
  | _, _ => Some false
  end.

Definition match_count (a : App) : string :=
  pretty (length (ss_results (search_state a))) +:+ "/"
  +:+ pretty (ss_total_candidates (search_state a)) +:+ " matches".

Definition build_footer (a : App) : option (list Span) :=
  match input_mode a with
  | InputMode.Normal =>
      if negb (nil_b (ss_results (search_state a))) then Some (common_hints ++ [raw (match_count a)])
      else
        source ← has_source a;
        Some (common_hints
              ++ [key "l"; raw " Enter  "; key "h"; raw " Back  "; key "H"; raw " History"]
              ++ (if source : bool then [raw "  "; key "s"; raw " Source  "; key "e"; raw " Edit"] else [])
              ++ (if is_loading a then [raw "  "; mk_span "loading..." (fg Color.DarkGray)] else []))
  | InputMode.Search query =>
      Some [key " /"; raw query;
            raw (if String.eqb query "" then "" else "  " +:+ match_count a);
            raw "  "; key "Tab";
            raw (" " +:+ match ss_scope_mode (search_state a) with
                         | ScopeMode.Context_ => "global" | ScopeMode.Global => "context" end +:+ "  ");
            key "Esc"; raw " Cancel  "; key "Enter"; raw " Accept  "; key "↑/↓"; raw " Navigate"]
  end.

(** ** The help overlay *)

Definition help_text : list Line :=
  [colored Color.Yellow " Keybindings "; TextLine "";
   TextLine " q / Esc     Quit"; TextLine " j / Down    Move down"; TextLine " k / Up      Move up";
   TextLine " Enter / l   Navigate into"; TextLine " h / Left    Back"; TextLine " H           History";
   TextLine " Backspace   Back"; TextLine " /           Search"; TextLine " ?           Toggle this help";
   TextLine " r           Refresh data"; TextLine " s           Source view";
   TextLine " e           Open in $EDITOR"; TextLine ""; colored Color.DarkGray " Press ? to close "].

Record Rect := mk_rect { rx : Z; ry : Z; rw : Z; rh : Z }.

Definition help_area (area : Rect) : Rect :=
  let help_height := (Z.of_nat (length help_text) + 2)%Z in
  let help_width := 40%Z in
  let x := (Z.max (rw area - help_width) 0 / 2)%Z in
  let y := (Z.max (rh area - help_height) 0 / 2)%Z in
  mk_rect (wrap16 (rx area + x)) (wrap16 (ry area + y)) (Z.min help_width (rw area))
    (Z.min help_height (rh area)).

(** ** A frame ([draw]) *)

Inductive Body :=
| SourceBody (title : string) (lines : list Line) (scroll : Z)
| TwoPanes (left_width right_width : Z) (left : list Line) (scroll : Z) (preview : list Line)
| OnePane (left : list Line) (scroll : Z).

Record ScreenFrame := mk_screen_frame {
  fr_breadcrumb : Line;
  fr_body : Body;
  fr_footer : list Span;
  fr_help : option Rect
}.

Definition source_footer (sv : SourceViewState) : list Span :=
  [mk_span " ↑↓ scroll  e open in $EDITOR  Esc close" (fg Color.DarkGray);
   mk_span ("  " +:+ sv_node_label sv) (fg Color.DarkGray)].

Definition draw (a : App) (size : Rect) : option ScreenFrame :=
  crumbs ← build_breadcrumb a;
  let help := if show_help a then Some (help_area size) else None in
  match source_view a with
  | Some sv =>
      Some (mk_screen_frame crumbs (SourceBody (" " +:+ sv_path sv +:+ " ") (sv_lines sv) (sv_scroll_offset sv))
              (source_footer sv) help)
  | None =>
      preview ← build_preview_content a;
      pane ← build_left_pane a;
      footer ← build_footer a;
      let '(left_width, right_width) := adaptive_layout (terminal_width a) (length preview) in
      let body := if (0 <? right_width)%Z
                  then TwoPanes left_width right_width pane.1 (scroll_offset a) preview
                  else OnePane pane.1 (scroll_offset a) in
      Some (mk_screen_frame crumbs body footer help)
  end.
End Draw.

(** ** Drawing never panics *)

Section Total.
Context {refresh_data : Type}.
Abbreviation App := (@InspectApp refresh_data).

Lemma ref_rows_total g refs selected : Forall (ref_ok g) refs → is_Some (ref_rows g refs selected).
Proof.
  intros Hr. unfold ref_rows. apply mapM_is_Some. intros p (i & r & -> & Hp)%elem_of_lookup_imap. simpl.
  eapply Forall_lookup_1 in Hr; [|done]. apply node_name_ok in Hr as [name Hn].
  unfold ref_row. rewrite Hn. by eexists.
Qed.

Lemma related_rows_total g node selected count :
  graph_ok g → ref_ok g node → is_Some (related_rows g node selected count).
Proof.
  intros Hg Hn. unfold related_rows, edge_node_at.
  destruct (collect_selectable_edges_total g node Hg Hn) as (l & -> & Hl). simpl.
  match goal with |- is_Some (mbind _ (mapM ?f ?l)) => destruct (mapM_is_Some f l) as [k ->] end; [|by eexists].
  intros i _. destruct (l !! i) as [r|] eqn:Hr; [|by eexists]. eapply Forall_lookup_1 in Hl; [|done].
  unfold edge_text. apply node_name_ok in Hl as [name ->]. by eexists.
Qed.

Lemma build_node_focus_content_total g node selected state :
  graph_ok g → ref_ok g node → is_Some (build_node_focus_content g node selected state).
Proof.
  intros Hg Hn. unfold build_node_focus_content, selectable_edge_count.
  destruct (render_detail_total g Hg node state Hn) as [lines ->].
  destruct (collect_selectable_edges_total g node Hg Hn) as (l & -> & Hl). simpl. case_match; [|done].
  destruct (related_rows_total g node selected (length l) Hg Hn) as [rows ->]. by eexists.
Qed.

Lemma build_left_pane_total (a : App) : app_ok a → is_Some (build_left_pane a).
Proof.
  intros (g & Eg & Hg & Ha). unfold build_left_pane. rewrite Eg. case_match; [|done].
  pose proof (current_ok g a Ha) as Hc. destruct (trail_current (nav a)); simpl in Hc.
  - done.
  - by apply build_node_focus_content_total.
  - unfold build_disambiguation_content. destruct (ref_rows_total g matches selected Hc) as [k ->]. done.
  - unfold build_history_content. case_match; [done|].
    destruct (ref_rows_total g (history a) selected (ho_history _ _ Ha)) as [k ->]. done.
Qed.

Lemma build_preview_content_total (a : App) : app_ok a → is_Some (build_preview_content a).
Proof.
  intros (g & Eg & Hg & Ha). unfold build_preview_content. rewrite Eg.
  pose proof (current_ok g a Ha) as Hc.
  assert (Hp : ∀ r, ref_ok g r → ∃ l, render_preview g r = Some l) by (intros; by apply render_preview_total).
  destruct (trail_current (nav a)) as [i|node i|q ms i|i]; simpl in *.
  - destruct (node_ref_at _ i) as [r|] eqn:Hr; [|done].
    destruct (Hp r) as [l ->]; [|done]. by eapply node_ref_at_ok; [apply (ho_sections _ _ Ha)|].
  - unfold edge_node_at. destruct (collect_selectable_edges_total g node Hg Hc) as (l & -> & Hl). simpl.
    destruct (l !! i) as [r|] eqn:Hr.
    + destruct (Hp r) as [k ->]; [|done]. by eapply lookup_ok.
    + destruct (Hp node Hc) as [k ->]. done.
  - destruct (ms !! i) as [r|] eqn:Hr; [|done]. destruct (Hp r) as [k ->]; [|done]. by eapply lookup_ok.
  - destruct (history a !! i) as [r|] eqn:Hr; [|done]. destruct (Hp r) as [k ->]; [|done].
    by eapply lookup_ok; [apply (ho_history _ _ Ha)|].
Qed.

Lemma build_breadcrumb_total (a : App) : app_ok a → is_Some (build_breadcrumb a).
Proof.
  intros (g & Eg & Hg & Ha). unfold build_breadcrumb. rewrite Eg.
  destruct (breadcrumb_total g (nav a) (ho_trail _ _ Ha)) as [k ->]. done.
Qed.

Lemma build_footer_total (a : App) : app_ok a → is_Some (build_footer a).
Proof.
  intros (g & Eg & Hg & Ha). unfold build_footer. destruct (input_mode a); [|done].
  case_match; [done|]. assert (is_Some (has_source a)) as [b ->]; [|done].
  unfold has_source. rewrite Eg. pose proof (current_ok g a Ha) as Hc.
  destruct (trail_current (nav a)); try done. simpl in Hc.
  destruct (node_source_location_total g _ Hc) as [loc ->]. done.
Qed.

Lemma draw_total (a : App) size : app_ok a → is_Some (draw a size).
Proof.
  intros Ha. unfold draw. destruct (build_breadcrumb_total a Ha) as [c ->]. simpl.
  destruct (source_view a); [done|].
  destruct (build_preview_content_total a Ha) as [p ->]. simpl.
  destruct (build_left_pane_total a Ha) as [l ->]. simpl.
  destruct (build_footer_total a Ha) as [f ->]. simpl. by destruct (adaptive_layout _ _).
Qed.

Lemma update_scroll_ok (a : App) h : app_ok a → steps (update_scroll a h).
Proof.
  intros Ha. unfold update_scroll. destruct (build_left_pane_total a Ha) as [p ->]. simpl.
  apply steps_Some. by case_match.
Qed.
End Total.

(** ** The event loop ([InspectApp::run]) *)

(** What one turn of the loop reads from outside. *)
Record Input := mk_input {
  in_now : nat;
  in_recv : TryRecv.t;
  in_size : Rect;
  in_key : option KeyEvent
}.

Section Loop.
Context {refresh_data : Type}.
Abbreviation App := (@InspectApp refresh_data).
Context (iter_order : list (nat * list string) → list (nat * list string)).
Context (read_to_string : string → result string string) (rebuild : refresh_data → Rebuild).
Context (to_lowercase : string → string) (uni_alnum : char → bool).
Context {regex : Type} (regex_new : string → result regex string)
        (regex_is_match : regex → string → bool).

(** From the top of the loop to the frame. *)
Definition begin_turn (a : App) (i : Input) : option (App * ScreenFrame) :=
  a ← poll_phase2 iter_order a (in_recv i) (in_now i);
  let a := clear_expired_flash a (in_now i) in
  let a := set_terminal_width a (rw (in_size i)) in
  a ← update_scroll a (Z.max (rh (in_size i) - 2) 0);
  frame ← draw a (in_size i);
  Some (a, frame).

Definition key_turn (a : App) (i : Input) : option App :=
  match in_key i with
  | Some k =>
      handle_key iter_order read_to_string rebuild to_lowercase uni_alnum regex_new regex_is_match
        a k (in_now i)
  | None => Some a
  end.

(** A whole turn, with whether the loop breaks after the frame. *)
Definition turn (a : App) (i : Input) : option (App * bool) :=
  drawn ← begin_turn a i;
  if should_quit drawn.1 then Some (drawn.1, true)
  else
    a ← key_turn drawn.1 i;
    taken ← take_editor_request a;
    Some (taken.1, false).

(** The loop over a finite sequence of inputs. *)
Fixpoint run_loop (a : App) (inputs : list Input) : option App :=
  match inputs with
  | [] => Some a
  | i :: rest => next ← turn a i; if next.2 : bool then Some next.1 else run_loop next.1 rest
  end.

(** Some turn of the run starts a refresh. *)
Fixpoint some_refresh (a : App) (inputs : list Input) : bool :=
  match inputs with
  | [] => false
  | i :: rest =>
      match begin_turn a i, in_key i with
      | Some (a1, _), Some k => refreshes a1 k
      | _, _ => false
      end
      || match turn a i with Some (a', false) => some_refresh a' rest | _ => false end
  end.

Context (Hperm : ∀ l, iter_order l ≡ₚ l).

Lemma begin_turn_ok a i :
  app_ok a → ∃ a' frame, begin_turn a i = Some (a', frame) ∧ app_ok a'.
Proof.
  intros Ha. unfold begin_turn.
  destruct (poll_phase2_ok iter_order Hperm a (in_recv i) (in_now i) Ha) as (a1 & -> & H1). simpl.
  pose proof (clear_expired_flash_ok a1 (in_now i) H1) as H2.
  set (a2 := set_terminal_width (clear_expired_flash a1 (in_now i)) (rw (in_size i))).
  assert (H3 : app_ok a2) by done.
  destruct (update_scroll_ok a2 (Z.max (rh (in_size i) - 2) 0) H3) as (a4 & -> & H4). simpl.
  destruct (draw_total a4 (in_size i) H4) as [f ->]. by do 2 eexists.
Qed.

Lemma turn_ok a i :
  app_ok a →
  (∀ a1 f k, begin_turn a i = Some (a1, f) → in_key i = Some k → refreshes a1 k = false) →
  ∃ a' broke, turn a i = Some (a', broke) ∧ app_ok a'.
Proof.
  intros Ha Hr. unfold turn. destruct (begin_turn_ok a i Ha) as (a1 & f & E1 & H1).
  rewrite E1. simpl. case_match; [by do 2 eexists|].
  assert (steps (key_turn a1 i)) as (a2 & -> & H2).
  { unfold key_turn. destruct (in_key i) as [k|] eqn:Ek; [|by apply steps_Some].
    apply handle_key_ok; [done|]. by eapply Hr. }
  simpl. destruct (take_editor_request_ok a2 H2) as (a3 & loc & -> & H3). by do 2 eexists.
Qed.

Lemma run_ok a inputs :
  app_ok a → some_refresh a inputs = false → ∃ a', run_loop a inputs = Some a' ∧ app_ok a'.
Proof.
  revert a. induction inputs as [|i inputs IH]; intros a Ha Hq; simpl in *; [by eexists|].
  apply orb_false_iff in Hq as [Hq Hrest]. destruct (turn_ok a i Ha) as (a' & broke & E & Ha').
  { intros a1 f k E1 Ek. by rewrite E1, Ek in Hq. }
  rewrite E in *. simpl. destruct broke; [by eexists|by apply IH].
Qed.
End Loop.

(** ** The cursor *)

(** The rows of the overview, in order. *)
Definition overview_items (s : OverviewSections) : list string :=
  map gravity_text (gravity s) ++ map mark_text (ov_marks s)
  ++ map declaration_text (ov_declarations s) ++ map signal_text (ov_signals s).

Lemma length_overview_items s : length (overview_items s) = overview_item_count s.
Proof. unfold overview_items, overview_item_count. rewrite !length_app, !length_map. lia. Qed.

(** After the items [shown]: the cursor line is the line of item [selected]. *)
Definition pane_ok (selected : nat) (shown : list string) (st : pane_state) : Prop :=
  st.1.2 = length shown ∧
  match st.2 with
  | Some l => ∃ text, shown !! selected = Some text ∧ st.1.1 !! l = Some (item_line true text)
  | None => length shown ≤ selected
  end.

Section Cursor.
Context (selected : nat).
Abbreviation pok := (pane_ok selected).

Lemma push_line_ok shown st l : pok shown st → pok shown (push_line st l).
Proof.
  destruct st as [[lines c] at_]. intros [Hc Hat]. split; [done|]. simpl in *. destruct at_; [|done].
  destruct Hat as (text & Hs & Hl). exists text. split; [done|]. by apply lookup_app_l_Some.
Qed.

Lemma push_item_ok shown st text : pok shown st → pok (shown ++ [text]) (push_item selected st text).
Proof.
  destruct st as [[lines c] at_]. intros [Hc Hat]. unfold push_item, pane_ok in *; simpl in *.
  rewrite length_app, Nat.add_comm. split; [by rewrite Hc|].
  destruct (Nat.eqb_spec c selected) as [->|Hne].
  - exists text. rewrite Hc, !lookup_app_r, !Nat.sub_diag by lia. done.
  - destruct at_ as [l|]; [|simpl; lia]. destruct Hat as (t & Hs & Hl). exists t.
    split; by apply lookup_app_l_Some.
Qed.

Lemma push_items_ok shown title items st :
  pok shown st → pok (shown ++ items) (push_items selected title items st).
Proof.
  intros H. apply (push_line_ok _ _ (colored Color.Yellow title)) in H. unfold push_items. revert H.
  generalize (push_line st (colored Color.Yellow title)) as st'. clear st. intros st. revert shown st.
  induction items as [|t items IH]; intros shown st H; simpl; [by rewrite app_nil_r|].
  rewrite cons_middle, (assoc_L (++)). by apply IH, push_item_ok.
Qed.

Lemma blank_between_ok shown st : pok shown st → pok shown (blank_between st).
Proof. intros. unfold blank_between. case_match; [done|by apply push_line_ok]. Qed.

Lemma nil_b_map {A B} (f : A → B) l : nil_b l = true → map f l = [].
Proof. by destruct l. Qed.

Lemma overview_cursor_line s loading :
  let '(lines, at_line) := build_overview_content s selected loading in
  match overview_items s !! selected with
  | Some text => ∃ l, at_line = Some l ∧ lines !! l = Some (item_line true text)
  | None => at_line = None
  end.
Proof.
  unfold build_overview_content.
  set (st0 := ([], 0, None) : pane_state). assert (H0 : pok [] st0) by (split; simpl; [done|lia]).
  set (st1 := if nil_b (gravity s) then st0 else _).
  assert (H1 : pok (map gravity_text (gravity s)) st1).
  { unfold st1. case_match eqn:E; [by rewrite (nil_b_map _ _ E)|].
    apply push_line_ok. by apply (push_items_ok []). }
  set (st2 := if nil_b (ov_marks s) then st1 else _).
  assert (H2 : pok (map gravity_text (gravity s) ++ map mark_text (ov_marks s)) st2).
  { unfold st2. case_match eqn:E; [by rewrite (nil_b_map _ _ E), app_nil_r|].
    apply push_line_ok. by apply push_items_ok. }
  set (st3 := if nil_b (ov_declarations s) then st2 else _).
  assert (H3 : pok (map gravity_text (gravity s) ++ map mark_text (ov_marks s)
                    ++ map declaration_text (ov_declarations s)) st3).
  { rewrite (assoc_L (++)). unfold st3.
    case_match eqn:E; [by rewrite (nil_b_map _ _ E), app_nil_r|]. by apply push_items_ok. }
  set (st4 := if negb (nil_b (ov_signals s)) then _ else _).
  assert (H4 : pok (overview_items s) st4).
  { unfold overview_items. rewrite !(assoc_L (++)). rewrite <-(assoc_L (++) (map gravity_text _)). unfold st4.
    destruct (nil_b (ov_signals s)) eqn:E; simpl; [rewrite (nil_b_map _ _ E), app_nil_r; case_match|].
    - by apply push_line_ok, blank_between_ok.
    - done.
    - by apply push_items_ok, blank_between_ok. }
  set (st5 := if nil_b st4.1.1 then _ else _).
  assert (H5 : pok (overview_items s) st5) by (unfold st5; case_match; [by apply push_line_ok|done]).
  destruct H5 as [_ H5]. destruct st5 as [[lines c] [l|]]; simpl in *.
  - destruct H5 as (text & -> & Hl). eauto.
  - by rewrite lookup_ge_None_2.
Qed.
End Cursor.

(** ** Sizes *)

Section Sizes.
Local Open Scope Z_scope.

Lemma adaptive_layout_bounds width count left right :
  0 ≤ width ≤ u16_max → adaptive_layout width count = (left, right) →
  left + right = width
  ∧ (width < 80 → right = 0)
  ∧ (80 ≤ width → 3 * width / 10 - 1 ≤ left ≤ 11 * width / 20 ∧ 2 * width / 5 ≤ right).
Proof.
  intros Hw. unfold adaptive_layout. destruct (Z.ltb_spec width 80) as [Hlt|Hge]; intros [= <- <-]; [lia|].
  pose proof (percent_of_bounds 30 width ltac:(auto) Hw).
  pose proof (percent_of_bounds 55 width ltac:(auto) Hw).
  pose proof (percent_of_bounds 62 width ltac:(auto) Hw).
  split; [lia|]. split; [lia|]. intros _. repeat case_match; Z.div_mod_to_equations; lia.
Qed.

Lemma scrolled_visible scroll line h :
  0 ≤ scroll → 0 ≤ line ≤ u16_max → 3 ≤ h → scroll + (h - 2) ≤ u16_max →
  let scroll' := scrolled scroll line h in
  0 ≤ scroll' ≤ u16_max ∧ scroll' ≤ line < scroll' + (h - 2).
Proof.
  unfold u16_max. intros Hs Hl Hh Hsum. unfold scrolled, wrap16. rewrite Z.max_l by lia.
  destruct (Z.eqb_spec (h - 2) 0); [lia|]. destruct (Z.ltb_spec line scroll); [lia|].
  rewrite Z.mod_small by lia. destruct (Z.leb_spec (scroll + (h - 2)) line); [|lia].
  rewrite Z.mod_small by lia. lia.
Qed.

Lemma help_area_inside area :
  0 ≤ rx area → 0 ≤ ry area → 0 ≤ rw area → 0 ≤ rh area →
  rx area + rw area ≤ u16_max → ry area + rh area ≤ u16_max →
  rx area ≤ rx (help_area area) ∧ rx (help_area area) + rw (help_area area) ≤ rx area + rw area
  ∧ ry area ≤ ry (help_area area) ∧ ry (help_area area) + rh (help_area area) ≤ ry area + rh area.
Proof.
  unfold u16_max, help_area, wrap16. intros. cbn [rx ry rw rh].
  change (Z.of_nat (length help_text) + 2) with 18.
  rewrite !Z.mod_small by (Z.div_mod_to_equations; lia). Z.div_mod_to_equations; lia.
Qed.
End Sizes.

(** ** What the inspector promises *)

Section Promises.
Context {refresh_data : Type}.
Abbreviation App := (@InspectApp refresh_data).

(** C21: From any collected project, with any name to jump to, the inspector
    starts; and whatever the keys, the clock, the terminal's size and the
    phase-2 channel then do, as long as no refresh is started, no turn of the
    event loop indexes a vector out of range: every screen can be drawn and
    every handle the state holds still addresses a node. *)
Theorem inspector_run_never_panics iter_order read_to_string (rebuild : refresh_data → Rebuild)
    to_lowercase uni_alnum {regex : Type} (regex_new : string → result regex string) regex_is_match
    (Hperm : ∀ l, iter_order l ≡ₚ l) tests marks root name timeout args now inputs :
  ∃ g a, phase1_graph iter_order tests marks = Some g
    ∧ with_progressive_loading to_lowercase (relativize_paths g root) name timeout root args now = Some a
    ∧ (some_refresh iter_order read_to_string rebuild to_lowercase uni_alnum regex_new regex_is_match a inputs
         = false →
       ∃ a', run_loop iter_order read_to_string rebuild to_lowercase uni_alnum regex_new regex_is_match a inputs
               = Some a'
         ∧ app_ok a' ∧ ∀ size, is_Some (draw a' size)).
Proof.
  destruct (phase1_graph_total iter_order Hperm tests marks) as (g & E & Hg & _).
  destruct (with_progressive_loading_ok to_lowercase (relativize_paths g root) name timeout root args now)
    as (a & Ea & Ha); [by apply relativize_ok|].
  exists g, a. split_and!; [done..|]. intros Hr.
  destruct (run_ok iter_order read_to_string rebuild to_lowercase uni_alnum regex_new regex_is_match Hperm
    a inputs Ha Hr) as (a' & Er & Ha').
  exists a'. split_and!; [done..|]. intros size. by apply draw_total.
Qed.

(** C24: Before a frame is drawn the left pane is scrolled so that the line the
    cursor is on lies inside it, whatever the pane's height (at least one
    line), as long as line numbers fit 16 bits. *)
Theorem cursor_stays_visible (a : App) h lines line :
  build_left_pane a = Some (lines, Some line) →
  (Z.of_nat line ≤ u16_max)%Z → (3 ≤ h)%Z → (0 ≤ scroll_offset a)%Z →
  (scroll_offset a + (h - 2) ≤ u16_max)%Z →
  ∃ a', update_scroll a h = Some a'
    ∧ (0 ≤ scroll_offset a' ≤ u16_max)%Z
    ∧ (scroll_offset a' ≤ Z.of_nat line < scroll_offset a' + (h - 2))%Z.
Proof.
  intros Hp Hl Hh Hs Hsum. unfold update_scroll. rewrite Hp. simpl. eexists. split; [done|]. simpl.
  assert (Hw : wrap16 (Z.of_nat line) = Z.of_nat line).
  { unfold wrap16, u16_max in *. apply Z.mod_small. lia. }
  rewrite Hw. apply scrolled_visible; lia.
Qed.
End Promises.

(** The cursor line the overview reports is the line on which it drew the
    selected item, counted over its four sections in order, and that line is
    highlighted; past the last item there is none. *)
Theorem overview_cursor_marks_selection s selected loading :
  let '(lines, at_line) := build_overview_content s selected loading in
  (selected < overview_item_count s →
     ∃ text l, overview_items s !! selected = Some text ∧ at_line = Some l
       ∧ lines !! l = Some (item_line true text))
  ∧ (overview_item_count s ≤ selected → at_line = None).
Proof.
  pose proof (overview_cursor_line selected s loading) as H.
  destruct (build_overview_content s selected loading) as [lines at_line].
  rewrite <-length_overview_items. split; intros Hi.
  - apply lookup_lt_is_Some in Hi as [text Ht]. rewrite Ht in H. destruct H as (l & ? & ?). eauto.
  - by rewrite lookup_ge_None_2 in H.
Qed.

(** For every [u16] terminal width the two panes share it exactly, with the
    widths computed in [f32]: below 80 columns there is one pane; otherwise
    the left one has between 30% (less a column) and 55% of the width and the
    preview at least 40%, so no subtraction underflows. *)
Theorem panes_share_the_terminal width count :
  (0 ≤ width ≤ u16_max)%Z →
  let '(lw, rw) := adaptive_layout width count in
  (lw + rw = width
   ∧ (width < 80 → rw = 0)
   ∧ (80 ≤ width → 3 * width / 10 - 1 ≤ lw ≤ 11 * width / 20 ∧ 2 * width / 5 ≤ rw))%Z.
Proof.
  intros Hw. destruct (adaptive_layout width count) as [lw rw] eqn:E.
  by eapply adaptive_layout_bounds.
Qed.

(** ** Sessions *)

Definition screen80 : Rect := mk_rect 0 0 120 40.
Definition quiet (now : nat) : Input := mk_input now TryRecv.Empty screen80 None.
Definition press (now : nat) (k : KeyCode.t) : Input :=
  mk_input now TryRecv.Empty screen80 (Some (mk_key k false)).
Definition deliver_phase2 (now : nat) : Input := mk_input now (TryRecv.Data sample_phase2) screen80 None.

Definition sample_run (args : option unit) (inputs : list Input) : option (@InspectApp unit) :=
  g ← phase1_graph id sample_tests [];
  a ← with_progressive_loading to_ascii_lowercase (relativize_paths g "/r") None 300 "/r" args 0;
  run_loop id (λ _, Err "none") (λ _, Rebuilt sample_tests []) to_ascii_lowercase is_ascii_alphanumeric
    (λ _, Err "none") (λ _ : unit, λ _, false) a inputs.

(** Opening a fixture, then the test that consumes it. *)
Definition two_levels : list Input := [deliver_phase2 1; press 2 KeyCode.Enter; press 3 KeyCode.Enter; quiet 4].

(** A refresh can leave handles behind that the next frame trips over: open
    a fixture from the overview, then a test that consumes it, and press
    [r].  The trail is pruned from the top only while the top screen is stale;
    the test still exists, so the fixture's screen stays under it, and the
    rebuilt phase-1 graph has no fixtures when the breadcrumb asks for its
    name.  The same session without the refresh runs on. *)
Theorem refresh_can_leave_stale_handles :
  is_Some (sample_run (Some tt) two_levels)
  ∧ sample_run (Some tt) (two_levels ++ [press 5 (KeyCode.Char 114); quiet 6]) = None.
Proof. split; [vm_compute; by eexists|by vm_compute]. Qed.

Lemma inspector_run_never_panics_witness :
  ∃ a, sample_run None two_levels = Some a ∧ app_ok a ∧ trail_depth (nav a) = 3.
Proof.
  destruct (inspector_run_never_panics id (λ _, Err "none") (λ _ : unit, Rebuilt sample_tests []) to_ascii_lowercase
    is_ascii_alphanumeric (λ _, Err "none") (λ _ : unit, λ _, false) (λ l, reflexivity l)
    sample_tests [] "/r" None 300 None 0 two_levels) as (g & a & E1 & E2 & Hrun).
  assert (Hq : some_refresh id (λ _, Err "none") (λ _ : unit, Rebuilt sample_tests []) to_ascii_lowercase
    is_ascii_alphanumeric (λ _, Err "none") (λ _ : unit, λ _, false) a two_levels = false).
  { vm_compute in E1. injection E1 as <-. vm_compute in E2. injection E2 as <-. by vm_compute. }
  destruct (Hrun Hq) as (a' & Er & Ha & _). exists a'. unfold sample_run. rewrite E1. cbn [mbind option_bind]. rewrite E2. cbn [mbind option_bind].
  split; [done|]. split; [done|].
  vm_compute in E1. injection E1 as <-. vm_compute in E2. injection E2 as <-.
  vm_compute in Er. injection Er as <-. done.
Defined.

Lemma cursor_stays_visible_witness :
  ∃ a lines line a', sample_run None two_levels = Some a ∧ build_left_pane a = Some (lines, Some line)
    ∧ update_scroll a 5 = Some a' ∧ (scroll_offset a' ≤ Z.of_nat line < scroll_offset a' + 3)%Z.
Proof.
  destruct (sample_run None two_levels) as [a|] eqn:E; [|by vm_compute in E].
  destruct (build_left_pane a) as [[lines [line|]]|] eqn:Ep.
  2-3: vm_compute in E; injection E as <-; by vm_compute in Ep.
  destruct (cursor_stays_visible a 5 lines line Ep) as (a' & Ea & _ & Hv).
  1-4: vm_compute in E; injection E as <-; vm_compute in Ep; injection Ep as <- <-; vm_compute; congruence.
  exists a, lines, line, a'. split; [reflexivity|]. split; [exact Ep|]. split; [exact Ea|exact Hv].
Defined.

Lemma panes_share_the_terminal_witness :
  adaptive_layout 120 5 = (66, 54)%Z ∧ (3 * 120 / 10 - 1 ≤ 66)%Z.
Proof.
  pose proof (panes_share_the_terminal 120 5 ltac:(vm_compute; split; congruence)) as H.
  change (adaptive_layout 120 5) with (66, 54)%Z in H. destruct H as (_ & _ & H3). split; [done|].
  by apply H3.
Defined.
